(* ===== verification/_CoqProject ===== *)
-Q . S2P
Prelude.v
PyStr.v
PyIp.v
PyUrl.v
PyFloat.v
PyJson.v
PyJsonText.v
Codec.v
PyTime.v
Records.v
Deadline.v
Ledger.v
Accounting.v
Keys.v
Budgets.v
Reconcile.v
Conservation.v
Settlement.v
Recovery.v
BudgetSamples.v
BudgetSafety.v
Models.v
Samples.v
ScopePolicy.v
Destination.v
RateLimit.v
Controller.v
PgController.v
Gateway.v
Coordination.v
AuthContext.v
Generator.v
Access.v
Analyzer.v
Database.v
PlanDigest.v
Approval.v
SafetyAudit.v
Effects.v
CaseUrl.v
OpenApi.v
HttpExecutor.v
ExecutorRule.v
PlanExecution.v
TestExecution.v
OpenApiScan.v
OpenApiImport.v
Planning.v
PlanSafety.v
PlanProperties.v
Hostnames.v
AssetDns.v
Regex.v
EnrollmentNote.v
Tables.v
Registry.v
RegistryRoutes.v
Lifecycle.v
LifecycleHandlers.v
RegistrySafety.v
BindingRules.v
Bindings.v
MatrixPreview.v
PreviewRoute.v
BindingSafety.v
PreviewSafety.v
Findings.v
Reports.v
SecurityReports.v
FindingHistories.v
FindingSafety.v
ObservedAccess.v
Base64.v
Credentials.v
ResearchClock.v
ResponseSemantics.v
