(* ===== verification/Prelude.v ===== *)
(** * The AI API security platform, verified

    The platform tests the authorization of web APIs (BOLA, broken object level
    authorization) against laboratory Targets. Its code, under src/backend/app, is built
    so that a request leaves the machine only with a current, recorded authorization.
    This library models that code and proves what it promises.

    ** The parts and how they interact

    A [Target] is bound to an [AuthorizationRevision] and has [Scope]s. The generators
    propose test cases from endpoints, resources and identities. A plan freezes one
    request under a digest, and a person approves exactly that digest. A worker that
    executes the plan takes a lease on it, renews it, records the network start, asks the
    HTTP executor to send, and writes one result. The executor asks the policy, waits for
    the rate limiter, asks the policy again with refreshed rows, and hands the request to
    the network gateway, which admits it through a controller and connects only to the
    address it approved. A single test case can also be executed directly, with the same
    executor. An OpenAPI document is fetched through the same gate and turned into
    endpoints. The analyzer judges the stored runs; what it finds is stored with its
    evidence, reviewed by a person and reported. Revisions, the hostname rules in them
    and the Targets enrolled under them are kept by a registry, whose requests decide what a
    Target may be bound to. Beside this, the AI components exchange bounded records under
    deadlines.

    ** The files

    Foundations: Prelude (errors as values, tactics, hints), PyStr, PyIp, PyUrl, PyFloat,
    PyJson, PyJsonText (what the code uses of Python's [str], [ipaddress], [urllib.parse],
    [float] and [json]; the text of a document determines it), PyTime (the calendar and the
    text of an instant), Effects (programs that call their environment, a weakest
    precondition over all environments, and a recorder of their calls). Models
    holds the rows (db/models), Database a snapshot of the tables with the queries of
    services/execution_authorization.py and research_intent_gate.py, Samples the rows the
    witnesses use.

    The network side, from the policy inwards:
    - ScopePolicy: policies/scope_policy.py, [evaluate] with its two gates and scopes;
    - Destination: network_safety/destination.py, classification and decision;
    - RateLimit: executors/rate_limit.py, both limiters;
    - Controller, PgController: network_safety/controller.py and postgres_controller.py,
      as transition systems of any number of threads;
    - Gateway: network_safety/gateway.py, [Gateway.request];
    - HttpExecutor: executors/http.py, [execute]; ExecutorRule: what any caller of it can
      rely on.

    The life of a plan:
    - Planning: services/test_case_planning.py, the plan of a stored test case;
    - PlanDigest: services/execution_plan.py, [create_execution_plan];
    - Approval: services/execution_plan_approval.py; SafetyAudit: services/safety_audit.py
      and the columns, constraints and foreign keys of its table;
    - Coordination: services/execution_plan_claim.py, execution_plan_progress.py and
      execution_plan_cancellation.py, statements, retried calls and histories;
    - PlanExecution: services/plan_execution.py, [execute_plan] is [_execute];
    - PlanSafety, PlanProperties: the protocol every execution follows, what follows from
      it, and its composition with the histories of Coordination.

    Direct execution and import:
    - CaseUrl, TestExecution: the URL of a test case and [execute] of
      services/test_execution.py;
    - OpenApi: the limits, decoding and parsing of scanners/openapi.py; OpenApiScan: its
      fetch, with services/openapi_credentials.py; OpenApiImport: the import route of
      api/routes/openapi.py and what it makes of the table of endpoints.

    The records of the AI components: Codec (ai/proposals/codec.py), Records
    (ai/w2/records.py, over the calendar of PyTime) and Deadline (ai/w2/time.py).

    The budget of the AI calls: Ledger (the tables of ai/w2/schema.py with their
    constraints, and transactions over them), Accounting (ai/w2/accounting.py up to
    settlement), Reconcile (its [reconcile_v1]) and Recovery (ai/w2/recovery.py and
    [pause_admission] of ai/w2/guard.py). Keys says what the stored text of a key
    determines, Budgets states the books and verifies the helpers against a postcondition
    of their transactions, Conservation, Settlement and BudgetSafety verify the operations;
    BudgetSamples is one call from its policies to its settlement, for the witnesses.

    Around it: AuthContext (auth/context.py and the redaction of
    services/test_execution.py), Generator (domain/ownership.py, generators/), Access
    (services/resource_access_resolution.py and resource_access_assertion_review.py) and
    Analyzer (analyzers/bola.py, ai/redaction.py).

    The registry of authorizations: Hostnames (services/asset_hostname_rule.py, the rules
    and which of them decides), AssetDns (services/asset_candidate_dns.py), EnrollmentNote
    (services/asset_enrollment_note.py, with its regular expression), Tables (what the code
    asks of a table: order, pages, uniqueness), Registry (the tables with their constraints
    and the services over them: authorization_revision.py, asset_candidate_evaluation.py,
    asset_candidate_dns_validation.py, asset_enrollment_decision.py,
    approved_enrollment_target.py) and RegistryRoutes (the handlers of
    api/routes/authorization_profiles.py and targets.py; [handle] is any request that
    writes). Lifecycle says what a registry promises, as an abstract transition system with
    its invariant, LifecycleHandlers shows that every request is a step of it, and
    RegistrySafety draws the consequences.

    Resource bindings and previews: Regex (a language of regular expressions), BindingRules
    (schemas/endpoint_resource_binding.py and what openapi_binding_candidates.py and
    openapi_body_binding_candidates.py derive from a description), Bindings (their table and
    api/routes/endpoint_resource_bindings.py) and BindingSafety; MatrixPreview
    (services/bola_binding_selection.py, bola_matrix_preview.py and
    bola_binding_matrix_preview.py, over Access and the planner of Generator), PreviewRoute
    (api/routes/bola_matrix.py with schemas/bola_matrix.py) and PreviewSafety.

    Findings, their review and their reports: Findings (services/finding_analysis.py, in its
    two parts, what it reads and what it then stores, with domain/finding_evidence_retention.py
    and the rows of findings and evidence), Reports (the handlers of api/routes/findings.py;
    services/ai_analysis.py with the mock provider), SecurityReports
    (services/security_report.py, reports/markdown.py and their routes), FindingHistories
    (transactions that interleave, and well-formed tables) and FindingSafety.
    ObservedAccess has services/observed_access_assertion.py and
    api/routes/resource_access_assertions.py, over Access.

    Stored tokens: Base64 (what the code uses of [base64]) and Credentials
    (credentials/stored_secret.py and bearer.py). Of the research workflow: ResearchClock
    (services/research_verification_clock.py, research_verification_fault.py and
    [bind_clock] of research_verification.py) and ResponseSemantics
    (services/research_response_semantics.py with the expectation and the parser of its
    schemas).

    A definition has the name of the function it models, with the underscore of a private
    name dropped where nothing else has the name, and a row's fields have the names of the
    columns, prefixed where two tables share one.

    ** What the theorems show

    - Nothing is sent without authorization: the policy's decision is its declarative
      reading ([evaluate_allowed_iff]), an allowed path lies in the scope it names, the
      executor sends only after two decisions on one revision and a recorded network start
      ([executor_gate], [request_after_start]), and the gateway connects only when every
      address of the resolution lies in the ranges of the network mode, and then to the
      first of them ([gateway_confined]).
    - Nothing is sent twice: generations fence stale workers ([fencing]), a plan's network
      start is recorded once and never after a cancellation ([network_start_once]), and so
      one plan sends at most one request however many workers run ([one_request_per_plan]).
      Results are unique and written under a current claim, and an acquired claim is
      released unless an undocumented exception escapes ([claim_released]).
    - The same holds outside plans: a test case executed directly sends only after a
      decision on the rows it re-reads, and every outcome is recorded
      ([direct_request_gated], [direct_outcome_recorded]); an import fetches only what a
      decision allows ([import_request_gated]).
    - What is approved is what runs: digests bind all of a plan up to collisions of the
      hash ([digest_binds]), a plan is approved when its rows give its digest and the
      latest decision for that digest is an approval ([approval_exact]), and a created plan passes the validation before execution ([created_plan_validates]).
    - Import is exact and idempotent: the digests are those of the fetched body, the rows
      have the values that its operations describe, member by member, and the counters say
      which were new, changed or the same ([parsing_exact], [import_exact],
      [reimport_unchanged]), and
      decoding stays within its limits ([decoding_bounded], [structure_check_exact]).
    - Records survive transport: what the codec writes it reads back ([codec_roundtrip],
      [make_roundtrip]), decoding always ends within its bounds and fails only as documented
      ([bounded_json_bounds], [decode_documented]), and a later read never renews what an
      earlier one allowed ([deadline_confined]).
    - Money is accounted for: in every state that any sequence of the operations of the
      budget reaches, with any failures, a balance is the sum of its calls
      ([ledger_conserved]), an active budget is never overdrawn
      ([budget_never_overdrawn]), one call is admitted at a time ([one_call_admitted]), and
      the inventory of the recovery agrees ([inventory_agrees]). A settlement moves exactly
      a call's amounts ([settlement_posts]), at a price that its reservation covers
      ([reservation_covers]).
    - Authorizations have provenance: in every state that requests reach, a Target enrolled
      from an approved decision names a hostname that the rules of its revision include,
      that was resolved to addresses of its network mode, and that a person approved
      ([enrolled_target_authorized]). A profile has at most one active revision, and
      no two with one number ([registry_unique]); what was once decided is never rewritten,
      and a request is a step of the lifecycle ([requests_refine]); a draft can
      always be activated and revoked ([transitions_available]). A request that the policy
      allows on a bound Target is allowed by the current active revision
      ([allowed_request_current]). Which rule decides is characterised exactly
      ([candidate_decided]), the DNS phase ends ([classification_terminates]) and reads back
      as it was stored ([validation_reads_back]), pages list a table once and whole
      ([evaluation_pages_complete]), and a request fails only with a documented answer
      ([requests_answered]).
    - Previews show what the tables say: the candidates of a description are exactly its
      identifiers ([candidates_exact]), inference adds them once and touches nothing else
      ([inference_once]), a preview shows only confirmed bindings, resolved facts and planned
      candidates ([preview_confirmed]), and every request is answered with a documented code
      ([previews_answered]).
    - Findings rest on evidence: whatever transactions interleave, a stored row of evidence
      is never changed ([evidence_written_once]), every finding has all of its evidence and
      the rows agree ([findings_evidenced]); an analysis stores exactly what the analyzer
      found, for a valid pair of runs, and leaves a review alone ([analysis_stored]), again without a change
      ([reanalysis_unchanged]), and always answers ([analysis_answered]). Reviews decide for
      good when they do not overlap ([review_decides]; [overlapping_reviews] shows what
      happens when they do), reports are of confirmed findings, numbered without gaps and
      free of secrets ([reports_redacted]), and an observation, made of a successful owner
      baseline only, never counts as a fact before a review ([observation_is_candidate]).
    - Tokens and deadlines hold: what was stored for an identity, at its creation or later, is
      what its requests carry, and nobody else's token changes ([token_roundtrip]); an envelope opens only for its
      binding and key ([envelope_bound]). A request that has seen a deadline never passes it
      ([freshness_kept]); an intent whose end a clock has seen is fenced for good
      ([fault_fences]), though only the first of two ends ([second_window_unfenced]). A
      response counts only for exactly the expected members ([response_exact]).
    - The audit takes what the services write: the table refuses a record only for a text
      that is too long or a row that is not there, and a decision of the policy has such a
      text only in two of its denials ([audit_records_valid]; [long_host_unrecorded]).
    - Bounds and concurrency: admissions never exceed the limit, permits are never lost,
      slots of the rate table are disjoint, bodies are read whole or not at all.
    - The results are what they claim: the analyzer's verdicts, redaction, generated cases,
      resolutions of access facts and reviews are characterised exactly.

    ** Arguments, assumptions and bounds

    Code outside the repository is an argument: the hash, [json.loads], the decompressor of
    zlib, the resolver, the [idna] codec, the connector, and [httpcore], which is any
    interactive program. The
    database is PostgreSQL: a transaction of Coordination and RateLimit is atomic, a
    statement may fail or lose its answer, and clock readings are arguments. In
    PlanExecution every call may be answered by any value or exception, including what
    another worker left behind; a read of a session is a function of an arbitrary snapshot.
    Hypotheses of this kind are written in the theorems that use them (an integer column
    that stores what is written, identifiers that are unique, a JSON column that preserves
    the canonical text). TestExecution assumes that the collaborators of the executor raise
    only their documented exceptions where it says so ([documented], [own_exception]), and
    OpenApiImport compares stored rows up to Python's equality of JSON values.

    The transactions of the budget lock the rows of their balances and of their call before
    they read them, so each is one step over the tables; [uuid4] may look at the tables and
    the hash is any function. Deadlines, commits, the observer and the authority are
    environments of an operation; the mutation of the writer around an operation counts as
    the opening and the commit of its transaction. The keys that operations receive are
    decoded records, as the code only makes them by [make] and [decode].

    The registry takes row locks in one order, so a request is one step over its tables; a
    DNS validation is two, and what its first transaction read is an argument of the
    request. New primary keys are arguments too. The conversion of a name that is not ASCII,
    the search of a note that is not, and the answers of the DNS client are arguments.
    Pydantic's reading of JSON is not modelled: a payload has its types, and the checks of
    its schema are made. The lifecycle writer around the routes is in its default state, in
    which it calls them. Times of creation are left out.

    An analysis of a run and a review are two steps each over the tables of findings, with
    anything in between; a report is one, under its lock. Rows of runs, cases, endpoints and
    resources may be any rows at every step. [RunTables] has the columns that only advice and
    reports read. A JSON column returns the document that was stored, up to the order of its
    members.

    The cipher AES-GCM is a pair of arguments with its law ([aead]); nonces are arguments.
    A research clock reads its two clocks from arguments, which also say which fences fail
    to be written; an instant is in microseconds, and the documents it checks have their
    types.

    The classes of non-ASCII characters that a selector may have are an argument of
    BindingRules, and the length of an encoded answer one of PreviewRoute.

    Strings are the UTF-8 encodings of Python's; case, white space and the
    digits of regular expressions are those of ASCII.
    Integers are [Z] as Python's are unbounded; floats are binary64, computed by the
    executable specification of the Standard Library. Recursion that is not structural
    takes fuel: the parsers of PyStr, PyIp and PyUrl take the length of their text and each
    step consumes a character, and [strip_qualifiers] likewise, which [secret_key_spec]
    shows to be enough. The parser of Codec takes twice the length of its text
    ([parser_sound]); the layouts of Records nest less deep than [schema_fuel]
    ([schema_checked]). The retry loops take the number of attempts of the code.

    ** What is not modelled

    - The research workflow (services/research_*.py) beyond its clock and its interpreter of
      responses, and its typed dispatch in [_execute]: a product of its own with its own
      tables, which the gate of Database keeps apart from everything modelled here. A plan or
      case of it is refused ([new_plan], [new_case]).
    - The composition of executions with Credentials: a resolved token is an argument of
      TestExecution and PlanExecution.
    - The rest of ai/w2 and ai/w3 and the proposal transport (ai/proposals): child
      processes, pipes, sockets, sandboxes and file systems, whose effects are the operating
      system's. What they decide on, the records, deadlines and budgets, is modelled.
    - The routes that only store or list a row as it was given (scopes, resources,
      identities, test cases and runs), the constructors of sessions and engines,
      configuration, migrations and scripts. *)

From Stdlib Require Export ZArith Ascii String Lia.
From stdpp Require Export base option list gmap strings sorting.

#[export] Set Default Goal Selector "!".

(** * Errors as values

    A Python function that may raise is a function into [result E A]: [Ok a] is a
    normal return, [Raise e] an exception [e]. *)

Inductive result (E A : Type) : Type :=
| Ok (a : A)
| Raise (e : E).
Arguments Ok {E A} a.
Arguments Raise {E A} e.

#[export] Instance result_ret {E} : MRet (result E) := fun A a => Ok a.
#[export] Instance result_bind {E} : MBind (result E) :=
  fun A B f m => match m with Ok a => f a | Raise e => Raise e end.
#[export] Instance result_fmap {E} : FMap (result E) :=
  fun A B f m => match m with Ok a => Ok (f a) | Raise e => Raise e end.

#[export] Instance result_eq_dec {E A} `{EqDecision E, EqDecision A} :
  EqDecision (result E A).
Proof. solve_decision. Defined.

(** [try m except e: h e] *)
Definition catch {E F A} (m : result E A) (h : E -> result F A) : result F A :=
  match m with Ok a => Ok a | Raise e => h e end.

(** [raise e] unless the condition holds. *)
Definition guard_or {E} (b : bool) (e : E) : result E unit :=
  if b then Ok tt else Raise e.

Definition is_ok {E A} (m : result E A) : bool :=
  match m with Ok _ => true | Raise _ => false end.

(** An optional value that is required: [raise e] on [None]. *)
Definition require {E A} (o : option A) (e : E) : result E A :=
  match o with Some a => Ok a | None => Raise e end.

Definition ok_option {E A} (m : result E A) : option A :=
  match m with Ok a => Some a | Raise _ => None end.

(** * Booleans and options *)

Definition is_none {A} (o : option A) : bool :=
  match o with None => true | Some _ => false end.

Definition opt_eqb {A} `{EqDecision A} (x y : option A) : bool :=
  bool_decide (x = y).

(** [l.index]-style search: the first element satisfying a test. *)
Fixpoint find_first {A} (p : A -> bool) (l : list A) : option A :=
  match l with
  | [] => None
  | x :: l' => if p x then Some x else find_first p l'
  end.

Fixpoint count_if {A} (p : A -> bool) (l : list A) : nat :=
  match l with
  | [] => 0
  | x :: l' => (if p x then 1 else 0) + count_if p l'
  end.

(** Map a fallible function over a list, stopping at the first exception. *)
Fixpoint map_result {E A B} (f : A -> result E B) (l : list A) : result E (list B) :=
  match l with
  | [] => Ok []
  | x :: l' => y ← f x; ys ← map_result f l'; Ok (y :: ys)
  end.

(** * Automation *)

Create HintDb platform.

(** Split the boolean connectives of hypotheses and goals into propositions. *)
Ltac bool_simpl :=
  repeat match goal with
  | H : (_ && _)%bool = true |- _ => apply andb_prop in H as [? ?]
  | H : (_ || _)%bool = false |- _ => apply orb_false_elim in H as [? ?]
  | H : negb _ = true |- _ => apply negb_true_iff in H
  | H : negb _ = false |- _ => apply negb_false_iff in H
  | H : bool_decide _ = true |- _ => apply bool_decide_eq_true in H
  | H : bool_decide _ = false |- _ => apply bool_decide_eq_false in H
  | H : (_ =? _)%Z = true |- _ => apply Z.eqb_eq in H
  | H : (_ =? _)%Z = false |- _ => apply Z.eqb_neq in H
  | H : (_ <=? _)%Z = true |- _ => apply Z.leb_le in H
  | H : (_ <=? _)%Z = false |- _ => apply Z.leb_gt in H
  | H : (_ <? _)%Z = true |- _ => apply Z.ltb_lt in H
  | H : (_ <? _)%Z = false |- _ => apply Z.ltb_ge in H
  end.

(** Invert an equation on a sequence of fallible steps. *)
Ltac result_inv :=
  repeat match goal with
  | H : mbind _ ?m = Ok _ |- _ =>
      let E := fresh "E" in
      destruct m eqn:E; [cbn [mbind result_bind] in H | discriminate H]
  | H : guard_or ?b _ = Ok _ |- _ =>
      let E := fresh "E" in
      unfold guard_or in H; destruct b eqn:E; [clear H | discriminate H]
  | H : require ?o _ = Ok _ |- _ =>
      let E := fresh "E" in
      unfold require in H; destruct o eqn:E; [| discriminate H]
  | H : Ok _ = Ok _ |- _ => injection H as H; try subst
  | H : Raise _ = Ok _ |- _ => discriminate H
  | H : Ok _ = Raise _ |- _ => discriminate H
  | H : Raise _ = Raise _ |- _ => injection H as H; try subst
  end.

(** Walk down a chain of early returns: case on the scrutinee at the head. *)
Ltac case_if :=
  match goal with
  | |- context [if ?b then _ else _] => let E := fresh "E" in destruct b eqn:E
  end.
Ltac case_if_in H :=
  match type of H with
  | context [if ?b then _ else _] => let E := fresh "E" in destruct b eqn:E
  end.

(** Only the outermost condition: early returns in program order. *)
Ltac head_if H :=
  match type of H with
  | (if ?b then _ else _) = _ => let E := fresh "E" in destruct b eqn:E
  end.

(** * Shared lemmas *)

Lemma bind_ok {E A B} (m : result E A) (f : A -> result E B) b :
  (m ≫= f) = Ok b <-> exists a, m = Ok a /\ f a = Ok b.
Proof. destruct m; cbn; split; intros; naive_solver. Qed.

Lemma find_first_some {A} (p : A -> bool) l x :
  find_first p l = Some x <->
  exists l1 l2, l = l1 ++ x :: l2 /\ p x = true /\ Forall (fun y => p y = false) l1.
Proof.
  split.
  - induction l as [|y l IH]; [done|]. cbn. destruct (p y) eqn:E.
    + intros [= ->]. exists [], l. done.
    + intros (l1 & l2 & -> & ? & ?)%IH. exists (y :: l1), l2. eauto.
  - intros (l1 & l2 & -> & Hx & Hall). induction Hall as [|y l1 Hy _ IH]; cbn.
    + by rewrite Hx.
    + by rewrite Hy.
Qed.

Lemma find_first_none {A} (p : A -> bool) l :
  find_first p l = None <-> forall x, x ∈ l -> p x = false.
Proof.
  induction l as [|y l IH]; cbn.
  - split; [intros _ x Hx; by apply elem_of_nil in Hx | done].
  - destruct (p y) eqn:E.
    + split; [done|]. intros H. rewrite H in E; [done|]. left.
    + rewrite IH. split.
      * intros H x [->|Hx]%elem_of_cons; eauto.
      * intros H x Hx. apply H. by right.
Qed.

Lemma find_first_elem {A} (p : A -> bool) l x :
  find_first p l = Some x -> x ∈ l /\ p x = true.
Proof.
  intros (l1 & l2 & -> & Hx & _)%find_first_some. split; [|done].
  apply elem_of_app. right. left.
Qed.

Lemma count_if_app {A} (p : A -> bool) l1 l2 :
  count_if p (l1 ++ l2) = count_if p l1 + count_if p l2.
Proof. induction l1 as [|x l1 IH]; cbn; [done|]. rewrite IH. lia. Qed.

Lemma count_if_zero {A} (p : A -> bool) l :
  count_if p l = 0 <-> Forall (fun x => p x = false) l.
Proof.
  induction l as [|x l IH]; cbn; [done|].
  rewrite Forall_cons, <- IH. destruct (p x); split; intros; naive_solver lia.
Qed.

Lemma count_if_insert {A} (p : A -> bool) l i x y : l !! i = Some x ->
  count_if p (<[i := y]> l) + (if p x then 1 else 0) = count_if p l + (if p y then 1 else 0).
Proof.
  revert i. induction l as [|z l IH]; intros [|i] H; cbn in *; [done|done| |].
  - injection H as ->. lia.
  - specialize (IH i H). unfold insert in IH. rewrite <- !Nat.add_assoc. by f_equal.
Qed.

Lemma map_result_ok {E A B} (f : A -> result E B) l ys :
  map_result f l = Ok ys <-> Forall2 (fun x y => f x = Ok y) l ys.
Proof.
  revert ys. induction l as [|x l IH]; intros ys; cbn.
  - split; [intros [= <-]; constructor | by inversion 1].
  - rewrite bind_ok. split.
    + intros (y & Hy & (zs & Hzs & [= <-])%bind_ok). constructor; [done|]. by apply IH.
    + inversion 1 as [|? y ? zs Hy Hzs]; subst. exists y. split; [done|].
      apply bind_ok. exists zs. split; [by apply IH | done].
Qed.

#[export] Hint Resolve find_first_elem : platform.

Lemma guard_bind_ok {E A} b (e : E) (f : unit -> result E A) a :
  (guard_or b e ≫= f) = Ok a <-> b = true /\ f tt = Ok a.
Proof. destruct b; cbn; naive_solver. Qed.

Lemma require_bind_ok {E A B} (o : option A) (e : E) (f : A -> result E B) b :
  (require o e ≫= f) = Ok b <-> exists a, o = Some a /\ f a = Ok b.
Proof. destruct o; cbn; naive_solver. Qed.

(** A Boolean test evaluated on every integer of a range. *)
Lemma range_check (p : Z -> bool) lo n : forallb p (seqZ lo n) = true ->
  forall k, (lo <= k < lo + n)%Z -> p k = true.
Proof.
  rewrite forallb_forall. intros H k Hk. apply H, list_elem_of_In, elem_of_seqZ. lia.
Qed.

Lemma elem_of_concat {A} (x : A) (ls : list (list A)) : x ∈ concat ls <-> exists k, x ∈ k /\ k ∈ ls.
Proof.
  rewrite list_elem_of_In, in_concat. split; intros (k & H1 & H2); exists k; rewrite ?list_elem_of_In in *; done.
Qed.

(** ** Exceptions

    [raises P m]: if [m] raises anything, it satisfies [P]. *)

Definition raises {E A} (P : E -> Prop) (m : result E A) : Prop :=
  match m with Ok _ => True | Raise e => P e end.

Section raises.
Context {E : Type} (P : E -> Prop).

Lemma raises_ok {A} (a : A) : raises P (Ok a).
Proof. done. Qed.
Lemma raises_bind {A B} (m : result E A) (f : A -> result E B) :
  raises P m -> (forall a, m = Ok a -> raises P (f a)) -> raises P (m ≫= f).
Proof. destruct m; cbn; auto. Qed.
Lemma raises_fmap {A B} (f : A -> B) (m : result E A) : raises P m -> raises P (f <$> m).
Proof. by destruct m. Qed.
Lemma raises_guard b e : (b = false -> P e) -> raises P (guard_or b e).
Proof. destruct b; cbn; auto. Qed.
Lemma raises_require {A} (o : option A) e : (o = None -> P e) -> raises P (require o e).
Proof. destruct o; cbn; auto. Qed.
Lemma raises_catch {F A} (Q : F -> Prop) (m : result F A) (h : F -> result E A) :
  raises Q m -> (forall e, Q e -> raises P (h e)) -> raises P (catch m h).
Proof. destruct m; cbn; auto. Qed.
Lemma raises_catch_all {F A} (m : result F A) e : P e -> raises P (catch m (fun _ => Raise e)).
Proof. by destruct m. Qed.
Lemma raises_map_result {A B} (f : A -> result E B) l : (forall x, x ∈ l -> raises P (f x)) -> raises P (map_result f l).
Proof.
  induction l as [|x l IH]; intros H; [done|]. cbn [map_result]. apply raises_bind; [apply H; left|].
  intros y _. apply raises_bind; [|done]. apply IH. intros z Hz. apply H. by right.
Qed.
End raises.
