(* ===== verification/PyStr.v ===== *)
(** The [str] operations of Python that the platform's code uses.

    A Python [str] is represented by its UTF-8 encoding, a [string] of 8-bit
    characters: equality, concatenation, prefixes, splitting on an ASCII
    character and substring tests of the two agree.  [lower], [upper], [strip] and
    [isspace] are those of the ASCII range (a non-ASCII letter has no case here and
    is not white space); [str_len] counts code points. *)

From S2P Require Import Prelude.

Open Scope Z_scope.

#[global] Arguments String.append !_ _ / : simpl nomatch.

Definition ord (c : ascii) : Z := Z.of_N (N_of_ascii c).
Definition chr (n : Z) : ascii := ascii_of_N (Z.to_N n).
Definition str1 (c : ascii) : string := String c EmptyString.

Definition dquote : ascii := chr 34.
Definition squote : ascii := chr 39.
Definition backslash : ascii := chr 92.

(** * Character classes *)

Definition between (lo hi : Z) (c : ascii) : bool := (lo <=? ord c) && (ord c <=? hi).
Definition is_ascii (c : ascii) : bool := ord c <? 128.
Definition is_upper (c : ascii) : bool := between 65 90 c.
Definition is_lower (c : ascii) : bool := between 97 122 c.
Definition is_alpha (c : ascii) : bool := is_upper c || is_lower c.
Definition is_digit (c : ascii) : bool := between 48 57 c.
Definition is_alnum (c : ascii) : bool := is_alpha c || is_digit c.
Definition is_hex (c : ascii) : bool := is_digit c || between 65 70 c || between 97 102 c.
(** [str.isspace] on the ASCII range: HT LF VT FF CR, FS GS RS US and space. *)
Definition is_space (c : ascii) : bool := between 9 13 c || between 28 32 c.

Definition lower_char (c : ascii) : ascii := if is_upper c then chr (ord c + 32) else c.
Definition upper_char (c : ascii) : ascii := if is_lower c then chr (ord c - 32) else c.

Definition hex_value (c : ascii) : Z :=
  if is_digit c then ord c - 48
  else if between 65 70 c then ord c - 55
  else ord c - 87.
Definition hex_digit (n : Z) : ascii := if n <? 10 then chr (48 + n) else chr (87 + n).
Definition hex_digit_upper (n : Z) : ascii := if n <? 10 then chr (48 + n) else chr (55 + n).

(** * Strings as sequences *)

Fixpoint str_map (f : ascii -> ascii) (s : string) : string :=
  match s with EmptyString => EmptyString | String c t => String (f c) (str_map f t) end.
Fixpoint str_filter (p : ascii -> bool) (s : string) : string :=
  match s with
  | EmptyString => EmptyString
  | String c t => if p c then String c (str_filter p t) else str_filter p t
  end.
Fixpoint str_forall (p : ascii -> bool) (s : string) : bool :=
  match s with EmptyString => true | String c t => p c && str_forall p t end.
Definition str_exists (p : ascii -> bool) (s : string) : bool :=
  negb (str_forall (fun c => negb (p c)) s).

Definition lower : string -> string := str_map lower_char.
Definition upper : string -> string := str_map upper_char.
Definition is_ascii_str : string -> bool := str_forall is_ascii.

Definition is_empty (s : string) : bool :=
  match s with EmptyString => true | String _ _ => false end.

Fixpoint lstrip_by (p : ascii -> bool) (s : string) : string :=
  match s with
  | EmptyString => EmptyString
  | String c t => if p c then lstrip_by p t else s
  end.
Fixpoint rstrip_by (p : ascii -> bool) (s : string) : string :=
  match s with
  | EmptyString => EmptyString
  | String c t =>
      let t' := rstrip_by p t in
      if is_empty t' && p c then EmptyString else String c t'
  end.
(** [s.strip()] *)
Definition strip (s : string) : string := rstrip_by is_space (lstrip_by is_space s).

(** The bytes that start a code point: [len(s)] counts them. *)
Definition is_utf8_start (c : ascii) : bool := negb (between 128 191 c).
Fixpoint str_len (s : string) : Z :=
  match s with
  | EmptyString => 0
  | String c t => (if is_utf8_start c then 1 else 0) + str_len t
  end.
(** [len(s.encode("utf-8"))] *)
Fixpoint byte_len (s : string) : Z :=
  match s with EmptyString => 0 | String _ t => 1 + byte_len t end.

Definition startswith (p s : string) : bool := String.prefix p s.
#[global] Arguments startswith : simpl never.
Fixpoint endswith (suffix s : string) : bool :=
  bool_decide (s = suffix) ||
  match s with EmptyString => false | String _ t => endswith suffix t end.

Fixpoint str_drop (n : nat) (s : string) : string :=
  match n, s with
  | O, _ => s
  | S n', String _ t => str_drop n' t
  | S _, EmptyString => EmptyString
  end.
Fixpoint str_take (n : nat) (s : string) : string :=
  match n, s with
  | S n', String c t => String c (str_take n' t)
  | _, _ => EmptyString
  end.

(** [sub in s] *)
Fixpoint contains (sub s : string) : bool :=
  startswith sub s ||
  match s with EmptyString => false | String _ t => contains sub t end.
Definition contains_char (c : ascii) : string -> bool := str_exists (fun d => bool_decide (d = c)).

(** [s.count(c)] for a single character *)
Fixpoint count_char (c : ascii) (s : string) : Z :=
  match s with
  | EmptyString => 0
  | String d t => (if bool_decide (d = c) then 1 else 0) + count_char c t
  end.

(** [s.replace(old, new, 1)] for a non-empty [old] *)
Fixpoint replace_first (old new s : string) : string :=
  if startswith old s then new +:+ str_drop (String.length old) s
  else match s with EmptyString => EmptyString | String c t => String c (replace_first old new t) end.

(** [s.split(c)] for a single character *)
Fixpoint split_char (c : ascii) (s : string) : list string :=
  match s with
  | EmptyString => [EmptyString]
  | String d t =>
      if bool_decide (d = c) then EmptyString :: split_char c t
      else match split_char c t with
           | h :: r => String d h :: r
           | [] => [String d EmptyString]
           end
  end.

(** [s.partition(c)]: the middle component says whether [c] was found *)
Fixpoint partition (c : ascii) (s : string) : string * bool * string :=
  match s with
  | EmptyString => (EmptyString, false, EmptyString)
  | String d t =>
      if bool_decide (d = c) then (EmptyString, true, t)
      else let '(a, f, b) := partition c t in (String d a, f, b)
  end.

(** [s.rpartition(c)]: without [c], everything is in the last component *)
Fixpoint rpartition (c : ascii) (s : string) : string * bool * string :=
  match s with
  | EmptyString => (EmptyString, false, EmptyString)
  | String d t =>
      let '(a, f, b) := rpartition c t in
      if f then (String d a, true, b)
      else if bool_decide (d = c) then (EmptyString, true, t)
      else (EmptyString, false, String d t)
  end.

Fixpoint join (sep : string) (l : list string) : string :=
  match l with
  | [] => EmptyString
  | [s] => s
  | s :: l' => s +:+ sep +:+ join sep l'
  end.

Fixpoint concat_str (l : list string) : string :=
  match l with [] => EmptyString | s :: l' => s +:+ concat_str l' end.

(** [sorted(l)] of strings: code point order, which is the byte order of UTF-8 *)
Fixpoint insert_sorted (x : string) (l : list string) : list string :=
  match l with
  | [] => [x]
  | y :: l' => if String.leb x y then x :: l else y :: insert_sorted x l'
  end.
Fixpoint sort_strings (l : list string) : list string :=
  match l with [] => [] | x :: l' => insert_sorted x (sort_strings l') end.

(** * Numbers as text *)

Fixpoint parse_nat_aux (acc : Z) (s : string) : Z :=
  match s with
  | EmptyString => acc
  | String c t => parse_nat_aux (acc * 10 + (ord c - 48)) t
  end.
(** [int(s)] of a non-empty string of ASCII digits *)
Definition parse_nat (s : string) : Z := parse_nat_aux 0 s.

Fixpoint parse_hex_aux (acc : Z) (s : string) : Z :=
  match s with
  | EmptyString => acc
  | String c t => parse_hex_aux (acc * 16 + hex_value c) t
  end.
Definition parse_hex (s : string) : Z := parse_hex_aux 0 s.

Fixpoint decimal_aux (fuel : nat) (n : Z) (acc : string) : string :=
  match fuel with
  | O => acc
  | S f =>
      let acc' := String (chr (48 + n mod 10)) acc in
      if n <? 10 then acc' else decimal_aux f (n / 10) acc'
  end.
(** [str(n)] of an integer; one unit of fuel per binary digit is more than the
    number of decimal digits. *)
Definition str_of_Z (n : Z) : string :=
  if n <? 0 then String "-" (decimal_aux (S (Z.to_nat (Z.log2 (- n)))) (- n) EmptyString)
  else decimal_aux (S (Z.to_nat (Z.log2 n))) n EmptyString.

Fixpoint hex_aux (fuel : nat) (n : Z) (acc : string) : string :=
  match fuel with
  | O => acc
  | S f =>
      let acc' := String (hex_digit (n mod 16)) acc in
      if n <? 16 then acc' else hex_aux f (n / 16) acc'
  end.
(** ["%x" % n] for a non-negative [n] *)
Definition hex_of_Z (n : Z) : string := hex_aux (S (Z.to_nat (Z.log2 n))) n EmptyString.

(** [repr(s)]: quotes chosen and escapes written as CPython does for ASCII text;
    a non-ASCII character is taken to be printable. *)
Definition repr_char (q c : ascii) : string :=
  if bool_decide (c = q) || bool_decide (c = backslash) then String backslash (str1 c)
  else if bool_decide (c = chr 10) then String backslash "n"
  else if bool_decide (c = chr 13) then String backslash "r"
  else if bool_decide (c = chr 9) then String backslash "t"
  else if (ord c <? 32) || (ord c =? 127) then
    String backslash (String "x" (String (hex_digit (ord c / 16)) (str1 (hex_digit (ord c mod 16)))))
  else str1 c.
Fixpoint repr_body (q : ascii) (s : string) : string :=
  match s with EmptyString => EmptyString | String c t => repr_char q c +:+ repr_body q t end.
Definition repr (s : string) : string :=
  let q := if contains_char squote s && negb (contains_char dquote s) then dquote else squote in
  String q (repr_body q s +:+ str1 q).
#[global] Arguments repr : simpl never.

(** * Lemmas *)

Lemma ord_range c : 0 <= ord c < 256.
Proof. unfold ord. pose proof (N_ascii_bounded c). lia. Qed.

Lemma chr_ord c : chr (ord c) = c.
Proof. unfold chr, ord. by rewrite N2Z.id, ascii_N_embedding. Qed.

Lemma ord_chr n : 0 <= n < 256 -> ord (chr n) = n.
Proof.
  intros H. unfold chr, ord. rewrite N_ascii_embedding; lia.
Qed.

(** Case on a character by computation over the 256 of them. *)
Ltac char_cases c := destruct c as [[] [] [] [] [] [] [] []]; vm_compute; try done.

Lemma lower_char_idemp c : lower_char (lower_char c) = lower_char c.
Proof. char_cases c. Qed.
Lemma upper_char_idemp c : upper_char (upper_char c) = upper_char c.
Proof. char_cases c. Qed.
Lemma lower_char_space c : is_space (lower_char c) = is_space c.
Proof. char_cases c. Qed.

Lemma lower_idemp s : lower (lower s) = lower s.
Proof. induction s as [|c s IH]; cbn; [done|]. by rewrite lower_char_idemp, IH. Qed.
Lemma upper_idemp s : upper (upper s) = upper s.
Proof. induction s as [|c s IH]; cbn; [done|]. by rewrite upper_char_idemp, IH. Qed.

Lemma str_forall_app p s t : str_forall p (s +:+ t) = str_forall p s && str_forall p t.
Proof. induction s as [|c s IH]; cbn; [done|]. by rewrite IH, andb_assoc. Qed.

Lemma str_exists_app p s t : str_exists p (s +:+ t) = str_exists p s || str_exists p t.
Proof. unfold str_exists. by rewrite str_forall_app, negb_andb. Qed.

Lemma str_exists_cons p c s : str_exists p (String c s) = p c || str_exists p s.
Proof. unfold str_exists. cbn. by rewrite negb_andb, negb_involutive. Qed.

Lemma str_app_nil_r s : s +:+ EmptyString = s.
Proof. induction s as [|c s IH]; cbn; [done|]. by rewrite IH. Qed.

Lemma str_app_assoc s t u : (s +:+ t) +:+ u = s +:+ (t +:+ u).
Proof. induction s as [|c s IH]; cbn; [done|]. by rewrite IH. Qed.

Lemma startswith_app p s : startswith p s = true <-> exists t, s = p +:+ t.
Proof.
  unfold startswith. revert s. induction p as [|c p IH]; intros s; cbn.
  - split; intros _; [by exists s | by destruct s].
  - destruct s as [|d s]; cbn; [split; [done | by intros [? [=]]]|].
    destruct (ascii_dec c d) as [->|Hne].
    + rewrite IH. split; intros [t Ht]; exists t; naive_solver.
    + split; [done | intros [t [= ]]; naive_solver].
Qed.

Lemma endswith_app p s : endswith p s = true <-> exists t, s = t +:+ p.
Proof.
  induction s as [|c s IH]; cbn; rewrite orb_true_iff, bool_decide_eq_true.
  - split.
    + intros [<-|?]; [by exists EmptyString | done].
    + intros [[|? ?] Ht]; [by left | done].
  - rewrite IH. split.
    + intros [<-|[t ->]]; [by exists EmptyString | by exists (String c t)].
    + intros [[|d t] Ht]; cbn in Ht; [by left | right; exists t; naive_solver].
Qed.

Lemma contains_app sub s : contains sub s = true <-> exists a b, s = a +:+ sub +:+ b.
Proof.
  induction s as [|c s IH]; cbn; rewrite orb_true_iff, startswith_app.
  - split.
    + intros [[t Ht]|?]; [exists EmptyString, t; done | done].
    + intros ([|] & b & Hab); [by left; exists b | done].
  - rewrite IH. split.
    + intros [[t Ht]|(a & b & ->)]; [exists EmptyString, t; done | exists (String c a), b; done].
    + intros ([|d a] & b & Hab); [left; by exists b|].
      right. exists a, b. cbn in Hab. naive_solver.
Qed.

Lemma str_drop_app p s : str_drop (String.length p) (p +:+ s) = s.
Proof. induction p; cbn; done. Qed.

Lemma split_char_not_nil c s : split_char c s <> [].
Proof.
  induction s as [|d s IH]; cbn; [done|]. case_bool_decide; [done|].
  by destruct (split_char c s).
Qed.

Lemma split_char_cons_ne c d s : d <> c ->
  exists h r, split_char c s = h :: r /\ split_char c (String d s) = String d h :: r.
Proof.
  intros Hne. cbn. rewrite bool_decide_eq_false_2 by done.
  pose proof (split_char_not_nil c s). destruct (split_char c s) as [|h r]; [done|]. eauto.
Qed.

Lemma split_char_sep c s : split_char c (String c s) = EmptyString :: split_char c s.
Proof. cbn. by rewrite bool_decide_eq_true_2. Qed.

Lemma split_char_app_sep c s t :
  split_char c (s +:+ String c t) = split_char c s ++ split_char c t.
Proof.
  induction s as [|d s IH].
  - change (EmptyString +:+ String c t) with (String c t). by rewrite split_char_sep.
  - change (String d s +:+ String c t) with (String d (s +:+ String c t)).
    destruct (decide (d = c)) as [->|Hne].
    + by rewrite !split_char_sep, IH.
    + destruct (split_char_cons_ne c d s Hne) as (h & r & E1 & E2).
      destruct (split_char_cons_ne c d (s +:+ String c t) Hne) as (h' & r' & E1' & E2').
      rewrite E2, E2'. rewrite IH, E1 in E1'. cbn in E1'. by injection E1' as <- <-.
Qed.

(** Splitting and joining again is the identity. *)
Lemma join_split c s : join (str1 c) (split_char c s) = s.
Proof.
  induction s as [|d s IH]; [done|].
  destruct (decide (d = c)) as [->|Hne].
  - rewrite split_char_sep. pose proof (split_char_not_nil c s).
    destruct (split_char c s) as [|h r] eqn:E; [done|].
    change (join (str1 c) (EmptyString :: h :: r)) with (str1 c +:+ join (str1 c) (h :: r)).
    by rewrite IH.
  - destruct (split_char_cons_ne c d s Hne) as (h & r & E1 & E2).
    rewrite E2. rewrite E1 in IH. rewrite <- IH. by destruct r.
Qed.

Lemma split_char_inj c s t : split_char c s = split_char c t -> s = t.
Proof. intros H. by rewrite <- (join_split c s), <- (join_split c t), H. Qed.

(** No piece of a split contains the separator. *)
Lemma split_char_pieces c s :
  Forall (fun piece => contains_char c piece = false) (split_char c s).
Proof.
  induction s as [|d s IH]; [by constructor|].
  destruct (decide (d = c)) as [->|Hne].
  - rewrite split_char_sep. constructor; done.
  - destruct (split_char_cons_ne c d s Hne) as (h & r & E1 & E2).
    rewrite E2. rewrite E1 in IH. inversion IH as [|? ? Hh Hr]; subst.
    constructor; [|done]. unfold contains_char in *. rewrite str_exists_cons, Hh.
    by rewrite bool_decide_eq_false_2.
Qed.

Lemma split_char_single c s : contains_char c s = false -> split_char c s = [s].
Proof.
  induction s as [|d s IH]; [done|]. unfold contains_char in *.
  rewrite str_exists_cons. intros [Hd Hs]%orb_false_elim. apply bool_decide_eq_false in Hd.
  destruct (split_char_cons_ne c d s Hd) as (h & r & E1 & E2).
  rewrite E2. rewrite IH in E1 by done. by injection E1 as <- <-.
Qed.

Lemma str_length_app s t : String.length (s +:+ t) = (String.length s + String.length t)%nat.
Proof. induction s as [|c s IH]; cbn; [done|]. by rewrite IH. Qed.

Lemma str_take_app s t : str_take (String.length s) (s +:+ t) = s.
Proof. induction s as [|c s IH]; cbn; [by destruct t|]. by rewrite IH. Qed.

Lemma join_app sep l k : l <> [] -> k <> [] ->
  join sep (l ++ k) = join sep l +:+ sep +:+ join sep k.
Proof.
  intros Hl Hk. induction l as [|x [|y l] IH]; [done| |].
  - by destruct k.
  - change (join sep ((x :: y :: l) ++ k)) with (x +:+ sep +:+ join sep ((y :: l) ++ k)).
    rewrite IH by done.
    change (join sep (x :: y :: l)) with (x +:+ sep +:+ join sep (y :: l)).
    by rewrite !str_app_assoc.
Qed.

(** A string extends [base] by whole pieces exactly when it is [base] or starts with
    [base] followed by the separator. *)
Lemma split_char_prefix c base s :
  split_char c base `prefix_of` split_char c s <->
  s = base \/ startswith (base +:+ str1 c) s = true.
Proof.
  rewrite startswith_app. split.
  - intros [[|h r] Hk].
    + left. rewrite app_nil_r in Hk. by apply split_char_inj in Hk.
    + right. exists (join (str1 c) (h :: r)). rewrite <- (join_split c s), Hk.
      rewrite join_app by (done || apply split_char_not_nil).
      by rewrite join_split, str_app_assoc.
  - intros [->|[t ->]]; [done|]. rewrite str_app_assoc. cbn.
    rewrite split_char_app_sep. by eexists.
Qed.

Lemma join_cons sep x l : l <> [] -> join sep (x :: l) = x +:+ sep +:+ join sep l.
Proof. by destruct l. Qed.

(** Without a doubled separator, only the first and last pieces can be empty. *)
Lemma split_char_no_double c s l1 l2 :
  contains (String c (str1 c)) s = false ->
  split_char c s = l1 ++ EmptyString :: l2 -> l1 = [] \/ l2 = [].
Proof.
  intros Hno Hs. destruct l1 as [|x l1]; [by left|]. destruct l2 as [|y l2]; [by right|].
  exfalso. apply not_true_iff_false in Hno. apply Hno. apply contains_app.
  exists (join (str1 c) (x :: l1)), (join (str1 c) (y :: l2)).
  rewrite <- (join_split c s), Hs, join_app by done. f_equal.
Qed.

Lemma split_char_lacks c d s :
  contains_char d s = false -> Forall (fun p => contains_char d p = false) (split_char c s).
Proof.
  induction s as [|e s IH]; [by constructor|]. unfold contains_char in *.
  rewrite str_exists_cons. intros [He Hs]%orb_false_elim.
  destruct (decide (e = c)) as [->|Hne].
  - rewrite split_char_sep. constructor; [done | by apply IH].
  - destruct (split_char_cons_ne c e s Hne) as (h & r & E1 & E2). rewrite E2.
    specialize (IH Hs). rewrite E1 in IH. inversion IH; subst. constructor; [|done].
    rewrite str_exists_cons. by rewrite He.
Qed.

Lemma contains_char_true c s : contains_char c s = true <-> exists a b, s = a +:+ String c b.
Proof.
  unfold contains_char. induction s as [|d s IH].
  - split; [done | intros ([|] & b & Hb); done].
  - rewrite str_exists_cons, orb_true_iff, bool_decide_eq_true, IH. split.
    + intros [->|(a & b & ->)]; [by exists EmptyString, s | by exists (String d a), b].
    + intros ([|e a] & b & Hab); cbn in Hab; injection Hab as -> ->; [by left | right; eauto].
Qed.

Lemma split_join c l : l <> [] -> Forall (fun p => contains_char c p = false) l ->
  split_char c (join (str1 c) l) = l.
Proof.
  intros Hne Hall. induction Hall as [|x l Hx Hall IH]; [done|].
  destruct l as [|y l]; [by apply split_char_single|].
  rewrite join_cons by done.
  change (str1 c +:+ join (str1 c) (y :: l)) with (String c (join (str1 c) (y :: l))).
  rewrite split_char_app_sep, IH by done. by rewrite split_char_single.
Qed.

Lemma str_forall_lacks p c s : str_forall p s = true -> p c = false -> contains_char c s = false.
Proof.
  intros Hs Hc. unfold contains_char. induction s as [|d s IH]; [done|]. cbn in Hs. bool_simpl.
  rewrite str_exists_cons, IH by done. rewrite bool_decide_eq_false_2; [done | congruence].
Qed.

Lemma contains_char_join c sep l :
  contains_char c (join sep l) = existsb (contains_char c) l
    || (contains_char c sep && Nat.ltb 1 (length l)).
Proof.
  induction l as [|x l IH]; [by rewrite andb_false_r|].
  destruct l as [|y l]; [cbn; by rewrite andb_false_r, !orb_false_r|].
  rewrite join_cons by done. unfold contains_char in *. rewrite !str_exists_app, IH.
  cbn [existsb length]. change (Nat.ltb 1 (S (S (length l)))) with true.
  destruct (str_exists _ x), (str_exists _ sep), (str_exists _ y), (existsb _ l),
    (Nat.ltb 1 (S (length l))); done.
Qed.

Lemma partition_lacks c s : contains_char c s = false -> partition c s = (s, false, EmptyString).
Proof.
  unfold contains_char. induction s as [|d s IH]; [done|]. rewrite str_exists_cons.
  intros [Hd Hs]%orb_false_elim. cbn. rewrite Hd, IH by done. done.
Qed.

(** ** Numbers as text *)

Lemma byte_len_nonneg s : 0 <= byte_len s.
Proof. induction s; cbn; lia. Qed.

Lemma byte_len_app s t : byte_len (s +:+ t) = byte_len s + byte_len t.
Proof. induction s as [|c s IH]; cbn; [done|]. rewrite IH. lia. Qed.

Lemma hex_digit_ok n : 0 <= n < 16 -> hex_value (hex_digit n) = n /\ is_hex (hex_digit n) = true.
Proof.
  intros H. pose proof (range_check (fun n => (hex_value (hex_digit n) =? n) && is_hex (hex_digit n)) 0 16
    eq_refl n H) as E. cbn beta in E. bool_simpl. done.
Qed.

Lemma dec_digit_ok n : 0 <= n < 10 ->
  ord (chr (48 + n)) - 48 = n /\ is_digit (chr (48 + n)) = true.
Proof.
  intros H. rewrite ord_chr by lia. split; [lia|]. unfold is_digit, between.
  rewrite ord_chr by lia. apply andb_true_intro. rewrite !Z.leb_le. lia.
Qed.

Lemma fuel_enough base n : 2 <= base -> 0 <= n -> n < base ^ Z.of_nat (S (Z.to_nat (Z.log2 n))).
Proof.
  intros Hb Hn. rewrite Nat2Z.inj_succ, Z2Nat.id by apply Z.log2_nonneg.
  destruct (decide (n = 0)) as [->|Hne]; [apply Z.pow_pos_nonneg; [lia | done]|].
  apply Z.lt_le_trans with (2 ^ Z.succ (Z.log2 n)); [apply Z.log2_spec; lia|].
  apply Z.pow_le_mono_l. lia.
Qed.

Lemma hex_aux_parse fuel n acc : 0 <= n < 16 ^ Z.of_nat fuel ->
  parse_hex_aux 0 (hex_aux fuel n acc) = parse_hex_aux n acc.
Proof.
  revert n acc. induction fuel as [|f IH]; intros n acc Hn;
    [change (_ ^ Z.of_nat 0) with 1 in Hn; replace n with 0 by lia; done|].
  cbn [hex_aux]. destruct (n <? 16) eqn:Hlt; bool_simpl.
  - rewrite Z.mod_small by lia. cbn. by rewrite (proj1 (hex_digit_ok n ltac:(lia))).
  - rewrite IH.
    2: { rewrite Nat2Z.inj_succ, Z.pow_succ_r in Hn by lia.
         split; [apply Z.div_pos; lia | apply Z.div_lt_upper_bound; lia]. }
    cbn. rewrite (proj1 (hex_digit_ok _ (Z.mod_pos_bound n 16 ltac:(lia)))).
    f_equal. pose proof (Z.div_mod n 16 ltac:(lia)). lia.
Qed.

Lemma hex_aux_chars fuel n acc : 0 <= n -> str_forall is_hex acc = true ->
  str_forall is_hex (hex_aux fuel n acc) = true.
Proof.
  revert n acc. induction fuel as [|f IH]; intros n acc Hn Hacc; [done|]. cbn [hex_aux].
  assert (Hd : str_forall is_hex (String (hex_digit (n mod 16)) acc) = true).
  { cbn. by rewrite (proj2 (hex_digit_ok _ (Z.mod_pos_bound n 16 ltac:(lia)))). }
  case_if; [done|]. apply IH; [apply Z.div_pos; lia | done].
Qed.

Lemma hex_aux_len fuel k n acc : 0 <= n < 16 ^ Z.of_nat (S k) ->
  byte_len (hex_aux fuel n acc) <= Z.of_nat (S k) + byte_len acc.
Proof.
  revert k n acc. induction fuel as [|f IH]; intros k n acc Hn; cbn [hex_aux]; [lia|].
  case_if; [cbn [byte_len]; lia|]. bool_simpl. destruct k as [|k]; [cbn in Hn; lia|].
  etrans; [apply (IH k)|cbn [byte_len]; lia].
  rewrite Nat2Z.inj_succ, Z.pow_succ_r in Hn by lia.
  split; [apply Z.div_pos; lia | apply Z.div_lt_upper_bound; lia].
Qed.

Lemma hex_aux_nonempty fuel n c acc : is_empty (hex_aux fuel n (String c acc)) = false.
Proof. revert n c acc. induction fuel; intros; cbn [hex_aux]; [done|]. by case_if. Qed.

(** Printing in base 16 and reading back. *)
Lemma hex_roundtrip n : 0 <= n -> parse_hex (hex_of_Z n) = n.
Proof. intros Hn. unfold parse_hex, hex_of_Z. rewrite hex_aux_parse; [done|]. split; [done|]. by apply fuel_enough. Qed.

Lemma hex_of_Z_facts n : 0 <= n < 65536 ->
  str_forall is_hex (hex_of_Z n) = true /\ byte_len (hex_of_Z n) <= 4 /\ is_empty (hex_of_Z n) = false.
Proof.
  intros Hn. unfold hex_of_Z. split; [apply hex_aux_chars; [lia | done]|]. split.
  - etrans; [apply (hex_aux_len _ 3); change (16 ^ Z.of_nat 4) with 65536; lia | cbn; lia].
  - cbn [hex_aux]. case_if; [done | apply hex_aux_nonempty].
Qed.

Lemma decimal_aux_parse fuel n acc : 0 <= n < 10 ^ Z.of_nat fuel ->
  parse_nat_aux 0 (decimal_aux fuel n acc) = parse_nat_aux n acc.
Proof.
  revert n acc. induction fuel as [|f IH]; intros n acc Hn;
    [change (_ ^ Z.of_nat 0) with 1 in Hn; replace n with 0 by lia; done|].
  cbn [decimal_aux]. destruct (n <? 10) eqn:Hlt; bool_simpl.
  - rewrite Z.mod_small by lia. cbn [parse_nat_aux]. by rewrite (proj1 (dec_digit_ok n ltac:(lia))).
  - rewrite IH.
    2: { rewrite Nat2Z.inj_succ, Z.pow_succ_r in Hn by lia.
         split; [apply Z.div_pos; lia | apply Z.div_lt_upper_bound; lia]. }
    cbn [parse_nat_aux]. rewrite (proj1 (dec_digit_ok _ (Z.mod_pos_bound n 10 ltac:(lia)))).
    f_equal. pose proof (Z.div_mod n 10 ltac:(lia)). lia.
Qed.

Lemma decimal_aux_chars fuel n acc : 0 <= n -> str_forall is_digit acc = true ->
  str_forall is_digit (decimal_aux fuel n acc) = true.
Proof.
  revert n acc. induction fuel as [|f IH]; intros n acc Hn Hacc; [done|]. cbn [decimal_aux].
  assert (Hd : str_forall is_digit (String (chr (48 + n mod 10)) acc) = true).
  { cbn [str_forall]. by rewrite (proj2 (dec_digit_ok _ (Z.mod_pos_bound n 10 ltac:(lia)))). }
  case_if; [done|]. apply IH; [apply Z.div_pos; lia | done].
Qed.

Lemma decimal_roundtrip n : 0 <= n -> parse_nat (str_of_Z n) = n.
Proof.
  intros Hn. unfold parse_nat, str_of_Z. rewrite (proj2 (Z.ltb_ge n 0)) by done.
  rewrite decimal_aux_parse; [done|]. split; [done|]. by apply fuel_enough.
Qed.

Lemma decimal_digits n : 0 <= n -> str_forall is_digit (str_of_Z n) = true.
Proof.
  intros Hn. unfold str_of_Z. rewrite (proj2 (Z.ltb_ge n 0)) by done. by apply decimal_aux_chars.
Qed.

(** ** Characters that stay absent *)

Lemma lower_lacks c s : is_alpha c = false -> contains_char c s = false -> contains_char c (lower s) = false.
Proof.
  intros Hc. unfold contains_char, lower. induction s as [|d s IH]; [done|].
  cbn [str_map]. rewrite !str_exists_cons. intros [Hd Hs]%orb_false_elim. rewrite IH by done.
  rewrite orb_false_r. apply bool_decide_eq_false in Hd. apply bool_decide_eq_false_2.
  unfold lower_char. case_if; [|done]. intros <-.
  unfold is_alpha, is_upper, is_lower, between in *. bool_simpl.
  rewrite ord_chr in * by lia. lia.
Qed.

Lemma rstrip_lacks c p s : contains_char c s = false -> contains_char c (rstrip_by p s) = false.
Proof.
  unfold contains_char. induction s as [|d s IH]; [done|]. rewrite str_exists_cons.
  intros [Hd Hs]%orb_false_elim. cbn [rstrip_by]. specialize (IH Hs).
  case_if; [done|]. by rewrite str_exists_cons, Hd, IH.
Qed.

Lemma str_exists_not p s : str_exists (fun c => negb (p c)) s = negb (str_forall p s).
Proof. induction s as [|c s IH]; [done|]. rewrite str_exists_cons, IH. cbn. by destruct (p c). Qed.

(** ** Sorting *)

Lemma elem_of_insert_sorted x y l : x ∈ insert_sorted y l <-> x = y \/ x ∈ l.
Proof.
  induction l as [|z l IH]; cbn; [by rewrite list_elem_of_singleton, elem_of_nil; naive_solver|].
  case_if; rewrite ?elem_of_cons; [done|]. rewrite IH. tauto.
Qed.
Lemma elem_of_sort_strings x l : x ∈ sort_strings l <-> x ∈ l.
Proof. induction l as [|y l IH]; cbn; [done|]. by rewrite elem_of_insert_sorted, elem_of_cons, IH. Qed.
