(* ===== verification/PyIp.v ===== *)
(** Python's [ipaddress] module, as far as the platform uses it: parsing and
    printing of IPv4 and IPv6 addresses (CPython 3.12), membership in a network,
    and the [is_*] attributes with the tables of CPython 3.12.4 and later. *)

From S2P Require Import Prelude.
From S2P Require Import PyStr.

Open Scope Z_scope.

(** [IPv4Address] and [IPv6Address]: the integer [_ip], and the scope id of v6 *)
Inductive ip_address : Type :=
| V4 (n : Z)
| V6 (n : Z) (scope_id : option string).

#[export] Instance ip_address_eq_dec : EqDecision ip_address.
Proof. solve_decision. Defined.

Definition ip_version (a : ip_address) : Z := match a with V4 _ => 4 | V6 _ _ => 6 end.
Definition ip_int (a : ip_address) : Z := match a with V4 n => n | V6 n _ => n end.

Definition ip_wf (a : ip_address) : Prop :=
  match a with V4 n => 0 <= n < 2 ^ 32 | V6 n _ => 0 <= n < 2 ^ 128 end.

(** * Parsing *)

Definition parse_octet (s : string) : option Z :=
  if is_empty s then None
  else if negb (str_forall is_digit s) then None
  else if 3 <? byte_len s then None
  else if negb (bool_decide (s = "0")) && startswith "0" s then None
  else let n := parse_nat s in if 255 <? n then None else Some n.

Definition parse_ipv4 (s : string) : option Z :=
  match split_char "." s with
  | [a; b; c; d] =>
      a ← parse_octet a; b ← parse_octet b; c ← parse_octet c; d ← parse_octet d;
      Some (((a * 256 + b) * 256 + c) * 256 + d)
  | _ => None
  end.

Definition parse_hextet (s : string) : option Z :=
  if is_empty s then None
  else if negb (str_forall is_hex s) then None
  else if 4 <? byte_len s then None
  else Some (parse_hex s).

Fixpoint parse_hextets (acc : Z) (l : list string) : option Z :=
  match l with
  | [] => Some acc
  | s :: l' => h ← parse_hextet s; parse_hextets (acc * 65536 + h) l'
  end.

(** The index of the only empty part strictly inside the list: [Some None] when
    there is none, [None] (an error) when there are two. *)
Fixpoint skip_index (i : nat) (inner : list string) (found : option nat) : option (option nat) :=
  match inner with
  | [] => Some found
  | s :: l =>
      if is_empty s then
        match found with Some _ => None | None => skip_index (S i) l (Some i) end
      else skip_index (S i) l found
  end.

Definition hd_empty (l : list string) : bool :=
  match l with s :: _ => is_empty s | [] => true end.
Definition last_empty (l : list string) : bool :=
  match last l with Some s => is_empty s | None => true end.

(** [IPv6Address._ip_int_from_string] *)
Definition parse_ipv6_parts (parts : list string) : option Z :=
  let len := length parts in
  if (9 <? Z.of_nat len) then None
  else
    found ← skip_index 1 (take (len - 2) (drop 1 parts)) None;
    match found with
    | Some skip =>
        let hi := if hd_empty parts then pred skip else skip in
        if hd_empty parts && negb (Nat.eqb hi 0) then None
        else
          let lo0 := (len - skip - 1)%nat in
          let lo := if last_empty parts then pred lo0 else lo0 in
          if last_empty parts && negb (Nat.eqb lo 0) then None
          else if (8 <=? Z.of_nat (hi + lo)) then None
          else
            h ← parse_hextets 0 (take hi parts);
            parse_hextets (h * 65536 ^ Z.of_nat (8 - (hi + lo))) (drop (len - lo) parts)
    | None =>
        if negb (Nat.eqb len 8) then None
        else if hd_empty parts || last_empty parts then None
        else parse_hextets 0 parts
    end.

Definition parse_ipv6 (s : string) : option Z :=
  let parts := split_char ":" s in
  if (Z.of_nat (length parts) <? 3) then None
  else
    match last parts with
    | Some tail =>
        if contains_char "." tail then
          v4 ← parse_ipv4 tail;
          parse_ipv6_parts
            (take (length parts - 1) parts ++
             [hex_of_Z (Z.land (Z.shiftr v4 16) 65535); hex_of_Z (Z.land v4 65535)])
        else parse_ipv6_parts parts
    | None => None
    end.

(** [ipaddress.ip_address(s)]; [None] is the [ValueError]. *)
Definition parse_ip (s : string) : option ip_address :=
  match parse_ipv4 s with
  | Some n => Some (V4 n)
  | None =>
      if contains_char "/" s then None
      else
        let '(addr, sep, scope) := partition "%" s in
        if sep && (is_empty scope || contains_char "%" scope) then None
        else
          n ← parse_ipv6 addr;
          Some (V6 n (if sep then Some scope else None))
  end.

(** * Printing: the attribute [compressed] *)

Definition ipv4_string (n : Z) : string :=
  join "." (str_of_Z <$> [n / 16777216; n / 65536 mod 256; n / 256 mod 256; n mod 256]).

Fixpoint hextets_of (k : nat) (n : Z) : list string :=
  match k with
  | O => []
  | S k' => hextets_of k' (n / 65536) ++ [hex_of_Z (n mod 65536)]
  end.

(** The longest run of zero hextets: (best start, best length) *)
Fixpoint zero_run (i : nat) (l : list string) (cur : option nat) (cur_len : nat)
    (best : nat) (best_len : nat) : nat * nat :=
  match l with
  | [] => (best, best_len)
  | h :: l' =>
      if bool_decide (h = "0") then
        let start := match cur with Some s => s | None => i end in
        let len := S cur_len in
        if Nat.ltb best_len len then zero_run (S i) l' (Some start) len start len
        else zero_run (S i) l' (Some start) len best best_len
      else zero_run (S i) l' None 0 best best_len
  end.

Definition compress_hextets (l : list string) : list string :=
  let '(start, len) := zero_run 0 l None 0 0 0 in
  if Nat.ltb 1 len then
    let stop := (start + len)%nat in
    let mid := take start l ++ [EmptyString] ++ drop stop l in
    let mid := if Nat.eqb stop (length l) then mid ++ [EmptyString] else mid in
    if Nat.eqb start 0 then EmptyString :: mid else mid
  else l.

Definition ipv6_string (n : Z) : string := join ":" (compress_hextets (hextets_of 8 n)).

Definition compressed (a : ip_address) : string :=
  match a with
  | V4 n => ipv4_string n
  | V6 n None => ipv6_string n
  | V6 n (Some scope) =>
      if is_empty scope then ipv6_string n else ipv6_string n +:+ "%" +:+ scope
  end.

(** * Networks and attributes *)

Definition ipv4_mapped (a : ip_address) : option Z :=
  match a with
  | V4 _ => None
  | V6 n _ => if Z.shiftr n 32 =? 65535 then Some (Z.land n 4294967295) else None
  end.

(** [ip in network] for the network [base/len] of a [width]-bit family *)
Definition in_net (width base len n : Z) : bool :=
  Z.shiftr n (width - len) =? Z.shiftr base (width - len).

Definition octets (a b c d : Z) : Z := ((a * 256 + b) * 256 + c) * 256 + d.
Definition in_net4 (a b c d len n : Z) : bool := in_net 32 (octets a b c d) len n.
(** an IPv6 network given by its first two hextets and the rest *)
Definition in_net6 (h0 h1 rest len n : Z) : bool :=
  in_net 128 (h0 * 2 ^ 112 + h1 * 2 ^ 96 + rest) len n.

Definition v4_private (n : Z) : bool :=
  (in_net4 0 0 0 0 8 n || in_net4 10 0 0 0 8 n || in_net4 127 0 0 0 8 n
   || in_net4 169 254 0 0 16 n || in_net4 172 16 0 0 12 n || in_net4 192 0 0 0 24 n
   || in_net4 192 0 0 170 31 n || in_net4 192 0 2 0 24 n || in_net4 192 168 0 0 16 n
   || in_net4 198 18 0 0 15 n || in_net4 198 51 100 0 24 n || in_net4 203 0 113 0 24 n
   || in_net4 240 0 0 0 4 n || in_net4 255 255 255 255 32 n)
  && negb (in_net4 192 0 0 9 32 n || in_net4 192 0 0 10 32 n).
Definition v4_global (n : Z) : bool := negb (in_net4 100 64 0 0 10 n) && negb (v4_private n).

Definition v6_private (n : Z) : bool :=
  (in_net6 0 0 1 128 n || in_net6 0 0 0 128 n
   || in_net6 0 0 (65535 * 2 ^ 32) 96 n || in_net6 100 65435 (2 ^ 80) 48 n
   || in_net6 256 0 0 64 n || in_net6 8193 0 0 23 n || in_net6 8193 3512 0 32 n
   || in_net6 8194 0 0 16 n || in_net6 16383 0 0 20 n
   || in_net6 64512 0 0 7 n || in_net6 65152 0 0 10 n)
  && negb (in_net6 8193 1 1 128 n || in_net6 8193 1 2 128 n || in_net6 8193 3 0 32 n
           || in_net6 8193 4 (274 * 2 ^ 80) 48 n || in_net6 8193 32 0 28 n
           || in_net6 8193 48 0 28 n).

Definition v6_reserved (n : Z) : bool :=
  in_net6 0 0 0 8 n || in_net6 256 0 0 8 n || in_net6 512 0 0 7 n || in_net6 1024 0 0 6 n
  || in_net6 2048 0 0 5 n || in_net6 4096 0 0 4 n || in_net6 16384 0 0 3 n
  || in_net6 24576 0 0 3 n || in_net6 32768 0 0 3 n || in_net6 40960 0 0 3 n
  || in_net6 49152 0 0 3 n || in_net6 57344 0 0 4 n || in_net6 61440 0 0 5 n
  || in_net6 63488 0 0 6 n || in_net6 65024 0 0 9 n.

Definition is_loopback (a : ip_address) : bool :=
  match a with V4 n => in_net4 127 0 0 0 8 n | V6 n _ => n =? 1 end.
Definition is_link_local (a : ip_address) : bool :=
  match a with V4 n => in_net4 169 254 0 0 16 n | V6 n _ => in_net6 65152 0 0 10 n end.
Definition is_unspecified (a : ip_address) : bool := ip_int a =? 0.
Definition is_multicast (a : ip_address) : bool :=
  match a with V4 n => in_net4 224 0 0 0 4 n | V6 n _ => in_net6 65280 0 0 8 n end.
Definition is_reserved (a : ip_address) : bool :=
  match a with V4 n => in_net4 240 0 0 0 4 n | V6 n _ => v6_reserved n end.
Definition is_global (a : ip_address) : bool :=
  match a with V4 n => v4_global n | V6 n _ => negb (v6_private n) end.

(** * Lemmas *)

(** Membership in a network is membership in an interval. *)
Lemma in_net_interval width base len n : 0 <= len <= width -> base mod 2 ^ (width - len) = 0 ->
  in_net width base len n = true <-> base <= n < base + 2 ^ (width - len).
Proof.
  intros Hlen Hal. unfold in_net. set (k := width - len) in *.
  assert (Hk : 0 <= k) by lia. rewrite !Z.shiftr_div_pow2 by done.
  assert (Hp : 0 < 2 ^ k) by (apply Z.pow_pos_nonneg; lia).
  rewrite Z.eqb_eq. apply Z.mod_divide in Hal as [q ->]; [|lia].
  rewrite Z.div_mul by lia. split.
  - intros <-. pose proof (Z.div_mod n (2 ^ k)). pose proof (Z.mod_pos_bound n (2 ^ k)). lia.
  - intros H. symmetry. apply (Z.div_unique_pos _ _ _ (n - q * 2 ^ k)); lia.
Qed.

(** Interval forms of the network tests in the hypotheses and the goal. *)
Ltac net_intervals :=
  unfold in_net4, in_net6, octets in *;
  repeat match goal with
  | H : in_net ?w ?b ?l ?n = true |- _ => apply in_net_interval in H; [|lia|reflexivity]
  | H : in_net ?w ?b ?l ?n = false |- _ =>
      apply not_true_iff_false in H; rewrite in_net_interval in H; [|lia|reflexivity]
  | |- in_net ?w ?b ?l ?n = true => apply in_net_interval; [lia|reflexivity|]
  end.

(** ** Printing and parsing again *)

Lemma parse_octet_print k : 0 <= k < 256 -> parse_octet (str_of_Z k) = Some k.
Proof.
  intros Hk. pose proof (range_check (fun k => bool_decide (parse_octet (str_of_Z k) = Some k)) 0 256
    eq_refl k Hk) as E. cbn beta in E. by apply bool_decide_eq_true in E.
Qed.

Lemma octet_lacks k c : 0 <= k -> is_digit c = false -> contains_char c (str_of_Z k) = false.
Proof. intros Hk Hc. apply (str_forall_lacks is_digit); [by apply decimal_digits | done]. Qed.

Lemma ipv4_octets n : 0 <= n < 2 ^ 32 ->
  (0 <= n / 16777216 < 256) /\ (0 <= n / 65536 mod 256 < 256) /\ (0 <= n / 256 mod 256 < 256)
  /\ (0 <= n mod 256 < 256)
  /\ ((n / 16777216 * 256 + n / 65536 mod 256) * 256 + n / 256 mod 256) * 256 + n mod 256 = n.
Proof.
  intros Hn. repeat split; try apply Z.mod_pos_bound; try lia.
  all: try (apply Z.div_pos; lia); try (apply Z.div_lt_upper_bound; lia).
  replace (n / 16777216) with (n / 256 / 256 / 256) by (rewrite !Z.div_div by lia; done).
  replace (n / 65536) with (n / 256 / 256) by (rewrite Z.div_div by lia; done).
  pose proof (Z.div_mod n 256). pose proof (Z.div_mod (n / 256) 256).
  pose proof (Z.div_mod (n / 256 / 256) 256). lia.
Qed.

Lemma parse_ipv4_print n : 0 <= n < 2 ^ 32 -> parse_ipv4 (ipv4_string n) = Some n.
Proof.
  intros Hn. destruct (ipv4_octets n Hn) as (Ha & Hb & Hc & Hd & Hsum).
  unfold parse_ipv4, ipv4_string. change "." with (str1 "."). rewrite split_join; [|done|].
  - cbn [fmap list_fmap]. rewrite !parse_octet_print by done. cbn [mbind option_bind]. by rewrite Hsum.
  - cbn [fmap list_fmap]. repeat constructor; apply octet_lacks; first [done | lia].
Qed.

(** A list of hextets with their texts *)
Definition hextet_text (h : Z) (s : string) : Prop :=
  parse_hextet s = Some h /\ is_empty s = false /\ (s = "0" -> h = 0)
  /\ str_forall is_hex s = true.

Lemma hextet_text_print h : 0 <= h < 65536 -> hextet_text h (hex_of_Z h).
Proof.
  intros Hh. destruct (hex_of_Z_facts h Hh) as (Hx & Hl & He). repeat split; try done.
  - unfold parse_hextet. rewrite He, Hx. cbn [negb].
    rewrite (proj2 (Z.ltb_ge 4 _)) by done. by rewrite hex_roundtrip by lia.
  - intros H0. pose proof (hex_roundtrip h ltac:(lia)) as Hr. by rewrite H0 in Hr.
Qed.

(** [zero_run] returns a range of zero hextets. *)
Definition zeros_at (l : list string) (b n : nat) : Prop :=
  forall k, (b <= k < b + n)%nat -> l !! k = Some "0".

Lemma zero_run_spec l pre cur cl b bl start len :
  (match cur with Some s => (s + cl = length pre)%nat /\ zeros_at (pre ++ l) s cl | None => cl = 0%nat end) ->
  (b + bl <= length pre)%nat -> zeros_at (pre ++ l) b bl ->
  zero_run (length pre) l cur cl b bl = (start, len) ->
  (start + len <= length (pre ++ l))%nat /\ zeros_at (pre ++ l) start len.
Proof.
  revert pre cur cl b bl. induction l as [|h l IH]; intros pre cur cl b bl Hcur Hb Hz Hrun; cbn in Hrun.
  - injection Hrun as <- <-. rewrite length_app. cbn. split; [lia | done].
  - assert (Happ : pre ++ h :: l = (pre ++ [h]) ++ l) by by rewrite <- app_assoc.
    assert (Hlen : length (pre ++ [h]) = S (length pre)) by (rewrite length_app; cbn; lia).
    rewrite <- Hlen in Hrun. rewrite Happ in *.
    destruct (bool_decide (h = "0")) eqn:Eh.
    + apply bool_decide_eq_true in Eh. cbv zeta in Hrun.
      set (s := match cur with Some s => s | None => length pre end) in *.
      assert (Hs : (s + cl = length pre)%nat /\ zeros_at ((pre ++ [h]) ++ l) s (S cl)).
      { assert (Hk : ((pre ++ [h]) ++ l) !! length pre = Some "0").
        { rewrite <- Happ, lookup_app_r, Nat.sub_diag by lia. by subst h. }
        destruct cur as [s0|]; subst s; [destruct Hcur as [Hsum Hzs] | subst cl].
        - split; [lia|]. intros k Hkr. destruct (decide (k = length pre)) as [->|]; [done|].
          apply Hzs. lia.
        - split; [lia|]. intros k Hkr. by replace k with (length pre) by lia. }
      destruct Hs as [Hsum Hzs].
      case_if_in Hrun; apply IH in Hrun; try done; try lia; split; first [done | lia].
    + apply IH in Hrun; done || lia.
Qed.

Definition combine_hextets (l : list Z) : Z := fold_left (fun acc h => acc * 65536 + h) l 0.


(** Evaluate the parser on a list of known shape: the facts about the texts decide
    every test. *)
Ltac run_parts :=
  unfold parse_ipv6_parts; cbn -[parse_hextet is_empty Z.mul Z.add Z.pow];
  repeat (match goal with
          | H : is_empty ?s = false |- context [is_empty ?s] => rewrite H
          | |- context [is_empty EmptyString] => change (is_empty EmptyString) with true
          | H : parse_hextet ?s = Some _ |- context [parse_hextet ?s] => rewrite H
          end; cbn -[parse_hextet is_empty Z.mul Z.add Z.pow]).

Lemma parse_compress_at hs ss start len :
  length hs = 8%nat -> Forall2 hextet_text hs ss ->
  (start + len <= 8)%nat -> (1 < len)%nat -> zeros_at ss start len ->
  let mid := take start ss ++ [EmptyString] ++ drop (start + len) ss in
  let mid := if Nat.eqb (start + len) 8 then mid ++ [EmptyString] else mid in
  let parts := if Nat.eqb start 0 then EmptyString :: mid else mid in
  parse_ipv6_parts parts = Some (combine_hextets hs)
  /\ (3 <= length parts)%nat
  /\ Forall (fun s => str_forall is_hex s = true) parts.
Proof.
  intros Hlen Hall Hle Hl Hz.
  do 8 (destruct hs as [|? hs]; [done|]). destruct hs; [|done]. clear Hlen.
  repeat match goal with H : Forall2 _ (_ :: _) _ |- _ => inversion H; clear H; subst end.
  match goal with H : Forall2 _ [] _ |- _ => inversion H; clear H; subst end.
  unfold hextet_text in *. destruct_and!.
  assert (Hs : (start = 0 \/ start = 1 \/ start = 2 \/ start = 3 \/ start = 4 \/ start = 5 \/ start = 6)%nat)
    by lia.
  assert (Hn : (len = 2 \/ len = 3 \/ len = 4 \/ len = 5 \/ len = 6 \/ len = 7 \/ len = 8)%nat) by lia.
  destruct_or! Hs; subst start; destruct_or! Hn; subst len; try lia.
  all: repeat match goal with
       | Hz : zeros_at ?l ?b (S ?n) |- _ =>
           let Hk := fresh "Hk" in
           pose proof (Hz b ltac:(lia)) as Hk; cbn in Hk; injection Hk as Hk;
           assert (zeros_at l (S b) n) by (intros k Hkr; apply Hz; lia); clear Hz
       end.
  all: subst; repeat match goal with H : "0" = "0" -> ?h = 0 |- _ => specialize (H eq_refl); subst h end.
  all: cbn [Nat.eqb Nat.add take drop app length].
  all: split; [run_parts | split; [lia | repeat constructor; done]].
  all: unfold combine_hextets; cbn [fold_left]; f_equal; lia.
Qed.

Lemma parse_uncompressed hs ss :
  length hs = 8%nat -> Forall2 hextet_text hs ss ->
  parse_ipv6_parts ss = Some (combine_hextets hs)
  /\ (3 <= length ss)%nat /\ Forall (fun s => str_forall is_hex s = true) ss.
Proof.
  intros Hlen Hall.
  do 8 (destruct hs as [|? hs]; [done|]). destruct hs; [|done]. clear Hlen.
  repeat match goal with H : Forall2 _ (_ :: _) _ |- _ => inversion H; clear H; subst end.
  match goal with H : Forall2 _ [] _ |- _ => inversion H; clear H; subst end.
  unfold hextet_text in *. destruct_and!.
  split; [run_parts; done | split; [cbn; lia | repeat constructor; done]].
Qed.

Lemma parse_compress hs ss :
  length hs = 8%nat -> Forall2 hextet_text hs ss ->
  parse_ipv6_parts (compress_hextets ss) = Some (combine_hextets hs)
  /\ (3 <= length (compress_hextets ss))%nat
  /\ Forall (fun s => str_forall is_hex s = true) (compress_hextets ss).
Proof.
  intros Hlen Hall. assert (Hs8 : length ss = 8%nat) by by rewrite <- (Forall2_length _ _ _ Hall).
  unfold compress_hextets. destruct (zero_run 0 ss None 0 0 0) as [start len] eqn:Hrun.
  apply (zero_run_spec ss []) in Hrun as [Hle Hz]; [|done|cbn; lia|intros k Hk; lia].
  cbn [app] in Hle, Hz. rewrite Hs8 in *.
  destruct (Nat.ltb 1 len) eqn:Hl; [|by apply parse_uncompressed].
  apply Nat.ltb_lt in Hl. by apply parse_compress_at.
Qed.

Lemma hextets_of_spec n : 0 <= n < 2 ^ 128 ->
  exists hs, length hs = 8%nat /\ Forall2 hextet_text hs (hextets_of 8 n) /\ combine_hextets hs = n.
Proof.
  intros Hn. cbn [hextets_of app].
  pose (q := fix q k := match k with O => n | S k' => q k' / 65536 end : Z).
  exists [q 7%nat mod 65536; q 6%nat mod 65536; q 5%nat mod 65536; q 4%nat mod 65536;
     q 3%nat mod 65536; q 2%nat mod 65536; q 1%nat mod 65536; q 0%nat mod 65536].
  split; [done|]. split.
  - repeat constructor; apply hextet_text_print, Z.mod_pos_bound; lia.
  - unfold combine_hextets. cbn [fold_left].
    assert (Hq : forall k, q k = q (S k) * 65536 + q k mod 65536).
    { intros k. cbn [q]. pose proof (Z.div_mod (q k) 65536 ltac:(lia)). lia. }
    assert (Hb : forall k, 0 <= q k < 2 ^ (128 - 16 * Z.of_nat k) \/ (8 < k)%nat).
    { induction k as [|k IH]; [left; cbn; lia|]. destruct (decide (8 < S k)%nat); [by right|].
      left. destruct IH as [IH|?]; [|lia]. cbn [q].
      split; [apply Z.div_pos; lia|]. apply Z.div_lt_upper_bound; [lia|].
      replace (65536 * _) with (2 ^ (128 - 16 * Z.of_nat k)); [lia|].
      change 65536 with (2 ^ 16). rewrite <- Z.pow_add_r by lia. f_equal. lia. }
    assert (H8 : q 8%nat = 0) by (destruct (Hb 8%nat) as [H8|]; [cbn [Z.of_nat] in H8; change (2 ^ _) with 1 in H8 | ]; lia).
    pose proof (Hq 0%nat) as H0. pose proof (Hq 1%nat). pose proof (Hq 2%nat). pose proof (Hq 3%nat).
    pose proof (Hq 4%nat). pose proof (Hq 5%nat). pose proof (Hq 6%nat). pose proof (Hq 7%nat).
    change n with (q 0%nat). rewrite H8 in *. clearbody q. lia.
Qed.

Lemma parse_ipv6_print n : 0 <= n < 2 ^ 128 ->
  parse_ipv6 (ipv6_string n) = Some n
  /\ (forall c, is_hex c = false -> c <> ":"%char -> contains_char c (ipv6_string n) = false).
Proof.
  intros Hn. destruct (hextets_of_spec n Hn) as (hs & Hlen & Hall & Hsum).
  destruct (parse_compress _ _ Hlen Hall) as (Hp & H3 & Hhex).
  unfold ipv6_string. set (parts := compress_hextets (hextets_of 8 n)) in *.
  assert (Hlack : forall c, is_hex c = false -> Forall (fun p => contains_char c p = false) parts).
  { intros c Hc. eapply Forall_impl; [exact Hhex|]. intros s Hs. by apply (str_forall_lacks is_hex). }
  split.
  - unfold parse_ipv6. change ":" with (str1 ":"). rewrite split_join.
    2: { intros ->. cbn in H3. lia. } 2: { by apply Hlack. }
    rewrite (proj2 (Z.ltb_ge _ 3)) by lia.
    destruct (last parts) as [tail|] eqn:Hlast; [|apply last_None in Hlast; rewrite Hlast in H3; cbn in H3; lia].
    apply last_Some in Hlast as [l' Hl']. pose proof (Hlack "."%char eq_refl) as Hdot.
    rewrite Hl', Forall_app, Forall_singleton in Hdot. destruct Hdot as [_ ->].
    by rewrite Hp, Hsum.
  - intros c Hc Hne. rewrite contains_char_join. specialize (Hlack c Hc).
    apply orb_false_iff. split.
    + apply not_true_iff_false. rewrite existsb_exists. intros (p & Hin & Hcp).
      rewrite Forall_forall in Hlack. rewrite Hlack in Hcp; [done|]. by apply list_elem_of_In.
    + unfold contains_char, str_exists. cbn. rewrite bool_decide_eq_false_2 by congruence. done.
Qed.

(** The text of an address reads back as the address. *)
Lemma parse_ip_compressed a : ip_wf a -> (match a with V6 _ (Some _) => False | _ => True end) ->
  parse_ip (compressed a) = Some a.
Proof.
  destruct a as [n|n [s|]]; cbn [ip_wf compressed]; [|done|]; intros Hn _; unfold parse_ip.
  - by rewrite parse_ipv4_print.
  - destruct (parse_ipv6_print n Hn) as [Hp Hlack].
    assert (parse_ipv4 (ipv6_string n) = None) as ->.
    { unfold parse_ipv4. rewrite split_char_single; [done|]. by apply Hlack. }
    rewrite Hlack by done. rewrite partition_lacks by (by apply Hlack). cbn. by rewrite Hp.
Qed.

(** ** Parsed addresses are in range *)

Lemma parse_octet_range s n : parse_octet s = Some n -> 0 <= n < 256.
Proof.
  unfold parse_octet. intros H. repeat case_if_in H; try done. injection H as <-. bool_simpl.
  split; [|lia]. unfold parse_nat.
  assert (G : forall acc, 0 <= acc -> 0 <= parse_nat_aux acc s); [|by apply G].
  clear -E0. induction s as [|c s IH]; cbn; intros acc Ha; [done|].
  cbn in E0. bool_simpl. apply IH; [done|]. unfold is_digit, between in *. bool_simpl. lia.
Qed.

Lemma parse_ipv4_range s n : parse_ipv4 s = Some n -> 0 <= n < 2 ^ 32.
Proof.
  unfold parse_ipv4. intros H. destruct (split_char "." s) as [|a [|b [|c [|d [|]]]]]; try done.
  apply bind_Some in H as (x & Hx & H). apply bind_Some in H as (y & Hy & H).
  apply bind_Some in H as (z & Hz & H). apply bind_Some in H as (w & Hw & [= <-]).
  apply parse_octet_range in Hx, Hy, Hz, Hw. lia.
Qed.

Lemma parse_hextet_range s n : parse_hextet s = Some n -> 0 <= n < 65536.
Proof.
  unfold parse_hextet. intros H. repeat case_if_in H; try done. injection H as <-. bool_simpl.
  unfold parse_hex.
  assert (G : forall acc, 0 <= acc ->
    0 <= parse_hex_aux acc s < (acc + 1) * 16 ^ byte_len s).
  { clear -E0. induction s as [|c s IH]; intros acc Ha; cbn [parse_hex_aux byte_len].
    - change (16 ^ 0) with 1. lia.
    - cbn in E0. bool_simpl. pose proof (byte_len_nonneg s).
      assert (Hc : 0 <= hex_value c < 16).
      { unfold is_hex, hex_value in *. destruct (is_digit c) eqn:Ed; [unfold is_digit, between in Ed; bool_simpl; lia|].
        destruct (between 65 70 c) eqn:Eb; unfold between in *; cbn in H; bool_simpl; lia. }
      specialize (IH ltac:(done) (acc * 16 + hex_value c) ltac:(lia)).
      rewrite Z.pow_add_r by lia. change (16 ^ 1) with 16.
      assert (0 < 16 ^ byte_len s) by (apply Z.pow_pos_nonneg; lia). nia. }
  specialize (G 0 ltac:(lia)). pose proof (byte_len_nonneg s).
  assert (16 ^ byte_len s <= 16 ^ 4) by (apply Z.pow_le_mono_r; lia). lia.
Qed.

Lemma parse_hextets_range l acc r : 0 <= acc -> parse_hextets acc l = Some r ->
  0 <= r < (acc + 1) * 65536 ^ Z.of_nat (length l).
Proof.
  revert acc. induction l as [|s l IH]; intros acc Ha; cbn [parse_hextets length].
  - intros [= <-]. change (65536 ^ Z.of_nat 0) with 1. lia.
  - intros (h & Hh & Hr)%bind_Some. apply parse_hextet_range in Hh.
    apply IH in Hr; [|lia]. rewrite Nat2Z.inj_succ, Z.pow_succ_r by lia.
    assert (0 < 65536 ^ Z.of_nat (length l)) by (apply Z.pow_pos_nonneg; lia). nia.
Qed.

Lemma parse_ipv6_parts_range parts n : parse_ipv6_parts parts = Some n -> 0 <= n < 2 ^ 128.
Proof.
  unfold parse_ipv6_parts. case_if; [done|]. intros (found & _ & H)%bind_Some.
  change (2 ^ 128) with (65536 ^ 8). destruct found as [skip|].
  - set (hi := if hd_empty parts then pred skip else skip) in *.
    set (lo := if last_empty parts then pred (length parts - skip - 1) else (length parts - skip - 1)%nat) in *.
    assert (Hlo : (lo <= length parts)%nat) by (unfold lo; destruct (last_empty parts); lia).
    do 3 (case_if_in H; [done|]). clear E0 E1. bool_simpl.
    apply bind_Some in H as (h & Hh & Hn).
    apply parse_hextets_range in Hh; [|lia].
    set (k := Z.of_nat (8 - (hi + lo))) in *. assert (Hk : 0 <= k) by lia.
    assert (0 < 65536 ^ k) by (apply Z.pow_pos_nonneg; lia).
    apply parse_hextets_range in Hn; [|nia]. rewrite length_drop in Hn.
    replace (length parts - (length parts - lo))%nat with lo in Hn by lia.
    assert (Hhi : 65536 ^ Z.of_nat (length (take hi parts)) <= 65536 ^ Z.of_nat hi).
    { apply Z.pow_le_mono_r; [lia|]. rewrite length_take. lia. }
    assert (0 < 65536 ^ Z.of_nat lo) by (apply Z.pow_pos_nonneg; lia).
    replace (65536 ^ 8) with (65536 ^ Z.of_nat hi * 65536 ^ k * 65536 ^ Z.of_nat lo)
      by (rewrite <- !Z.pow_add_r by lia; f_equal; lia).
    assert (h * 65536 ^ k + 1 <= 65536 ^ Z.of_nat hi * 65536 ^ k) by nia.
    split; [lia|]. eapply Z.lt_le_trans; [apply Hn|]. by apply Z.mul_le_mono_nonneg_r; [lia|].
  - do 2 (case_if_in H; [done|]). apply parse_hextets_range in H; [|lia].
    apply negb_false_iff, Nat.eqb_eq in E0. rewrite E0 in H. done.
Qed.

(** Every address that [ip_address] accepts is in the range of its family. *)
Lemma parse_ip_wf s a : parse_ip s = Some a -> ip_wf a.
Proof.
  unfold parse_ip. destruct (parse_ipv4 s) as [n|] eqn:E4.
  - intros [= <-]. by apply parse_ipv4_range in E4.
  - case_if; [done|]. destruct (partition "%" s) as [[addr sep] scope]. case_if; [done|].
    intros (n & Hn & [= <-])%bind_Some. cbn [ip_wf]. unfold parse_ipv6 in Hn. case_if_in Hn; [done|].
    destruct (last (split_char ":" addr)); [|done]. case_if_in Hn.
    + apply bind_Some in Hn as (v & _ & Hn). by apply parse_ipv6_parts_range in Hn.
    + by apply parse_ipv6_parts_range in Hn.
Qed.

(** ** An address with a scope id reads back with the same family and number *)

Lemma parse_octet_digits s n : parse_octet s = Some n -> str_forall is_digit s = true.
Proof.
  unfold parse_octet. case_if; [done|]. destruct (str_forall is_digit s); [done|]. done.
Qed.

Lemma parse_ipv4_lacks c s n : is_digit c = false -> c <> "."%char ->
  parse_ipv4 s = Some n -> contains_char c s = false.
Proof.
  intros Hc Hne H. rewrite <- (join_split "." s). unfold parse_ipv4 in H.
  destruct (split_char "." s) as [|p1 [|p2 [|p3 [|p4 [|? ?]]]]]; try done.
  apply bind_Some in H as (n1 & H1 & H). apply bind_Some in H as (n2 & H2 & H).
  apply bind_Some in H as (n3 & H3 & H). apply bind_Some in H as (n4 & H4 & _).
  apply parse_octet_digits in H1, H2, H3, H4.
  rewrite contains_char_join. cbn [existsb].
  rewrite !(str_forall_lacks is_digit) by done. cbn [orb].
  unfold contains_char, str1. rewrite str_exists_cons, bool_decide_eq_false_2 by congruence. done.
Qed.

Lemma partition_app c s t : contains_char c s = false -> partition c (s +:+ String c t) = (s, true, t).
Proof.
  unfold contains_char. induction s as [|d s IH].
  - intros _. cbn. by rewrite bool_decide_eq_true_2.
  - rewrite str_exists_cons. intros [Hd Hs]%orb_false_elim. cbn. by rewrite Hd, IH.
Qed.

Definition same_number (a b : ip_address) : Prop := ip_version a = ip_version b /\ ip_int a = ip_int b.

Lemma parse_ip_compressed_number a b :
  ip_wf a -> parse_ip (compressed a) = Some b -> same_number a b.
Proof.
  intros Hwf H.
  assert (Hfree : forall x, ip_wf x -> match x with V6 _ (Some _) => False | _ => True end ->
    parse_ip (compressed x) = Some b -> same_number x b).
  { intros x Hx Hs Hp. rewrite parse_ip_compressed in Hp by done. by simplify_eq. }
  destruct a as [n|n [s|]]; [by apply (Hfree (V4 n)) | | by apply (Hfree (V6 n None))].
  cbn [compressed] in H. destruct s as [|c s]; [by apply (Hfree (V6 n None))|].
  cbn [is_empty] in H. destruct (parse_ipv6_print n Hwf) as [Hp Hlack].
  unfold parse_ip in H. destruct (parse_ipv4 _) as [k|] eqn:E4.
  { apply (parse_ipv4_lacks "%") in E4; [|done|done].
    unfold contains_char in E4. rewrite !str_exists_app in E4. cbn in E4.
    by rewrite orb_true_r in E4. }
  case_if_in H; [done|]. change ("%" +:+ String c s) with (String "%" (String c s)) in H.
  rewrite partition_app in H by (by apply Hlack). case_if_in H; [done|].
  rewrite Hp in H. cbn in H. by simplify_eq.
Qed.
