(* ===== verification/PyUrl.v ===== *)
(** [urllib.parse] of CPython 3.12 as the platform uses it: [urlsplit] with the
    derived attributes of its result, [quote], [unquote] and [parse_qsl]; and the
    lossy UTF-8 decoding [bytes.decode("utf-8", errors="replace")].

    The NFKC check of a non-ASCII network location is not modelled: such a
    location is passed on as it is. *)

From S2P Require Import Prelude.
From S2P Require Import PyStr.
From S2P Require Import PyIp.

Open Scope Z_scope.

(** * UTF-8 with replacement of malformed sequences *)

Definition is_cont (c : ascii) : bool := between 128 191 c.
(** U+FFFD *)
Definition replacement_char : string := String (chr 239) (String (chr 191) (str1 (chr 189))).

(** The range of the second byte of a sequence that starts with [b0]. *)
Definition second_byte_ok (b0 b1 : ascii) : bool :=
  if ord b0 =? 224 then between 160 191 b1
  else if ord b0 =? 237 then between 128 159 b1
  else if ord b0 =? 240 then between 144 191 b1
  else if ord b0 =? 244 then between 128 143 b1
  else is_cont b1.

Fixpoint utf8_replace (s : string) : string :=
  match s with
  | EmptyString => EmptyString
  | String b0 t0 =>
      if is_ascii b0 then String b0 (utf8_replace t0)
      else
        match t0 with
        | EmptyString => replacement_char
        | String b1 t1 =>
            if negb (between 194 244 b0) || negb (second_byte_ok b0 b1) then
              replacement_char +:+ utf8_replace t0
            else if ord b0 <=? 223 then String b0 (String b1 (utf8_replace t1))
            else
              match t1 with
              | EmptyString => replacement_char
              | String b2 t2 =>
                  if negb (is_cont b2) then replacement_char +:+ utf8_replace t1
                  else if ord b0 <=? 239 then
                    String b0 (String b1 (String b2 (utf8_replace t2)))
                  else
                    match t2 with
                    | EmptyString => replacement_char
                    | String b3 t3 =>
                        if negb (is_cont b3) then replacement_char +:+ utf8_replace t2
                        else String b0 (String b1 (String b2 (String b3 (utf8_replace t3))))
                    end
              end
        end
  end.

(** * Percent encoding *)

(** [unquote_to_bytes] *)
Fixpoint percent_decode (s : string) : string :=
  match s with
  | EmptyString => EmptyString
  | String c t =>
      if bool_decide (c = "%"%char) then
        match t with
        | String h1 (String h2 t2) =>
            if is_hex h1 && is_hex h2 then
              String (chr (hex_value h1 * 16 + hex_value h2)) (percent_decode t2)
            else String c (percent_decode t)
        | _ => String c (percent_decode t)
        end
      else String c (percent_decode t)
  end.

(** The maximal runs of ASCII and of non-ASCII characters. *)
Fixpoint ascii_runs (s : string) : list (bool * string) :=
  match s with
  | EmptyString => []
  | String c t =>
      match ascii_runs t with
      | (b, r) :: l =>
          if Bool.eqb b (is_ascii c) then (b, String c r) :: l
          else (is_ascii c, str1 c) :: (b, r) :: l
      | [] => [(is_ascii c, str1 c)]
      end
  end.

(** [unquote(s)]: each ASCII run is decoded on its own. *)
Definition unquote (s : string) : string :=
  if contains_char "%" s then
    concat_str ((fun '(b, r) => if b : bool then utf8_replace (percent_decode r) else r)
                <$> ascii_runs s)
  else s.

Definition always_safe (c : ascii) : bool :=
  is_alnum c || bool_decide (c = "_"%char) || bool_decide (c = "."%char)
  || bool_decide (c = "-"%char) || bool_decide (c = "~"%char).

(** [quote(s, safe="")] *)
Definition quote_char (c : ascii) : string :=
  if always_safe c then str1 c
  else String "%" (String (hex_digit_upper (ord c / 16)) (str1 (hex_digit_upper (ord c mod 16)))).
Fixpoint quote (s : string) : string :=
  match s with EmptyString => EmptyString | String c t => quote_char c +:+ quote t end.

(** * [urlsplit] *)

Record SplitResult := mkSplit {
  scheme : string;
  netloc : string;
  url_path : string;
  query : string;
  fragment : string
}.

Definition is_c0_or_space (c : ascii) : bool := ord c <=? 32.
Definition is_unsafe_url_byte (c : ascii) : bool :=
  (ord c =? 9) || (ord c =? 13) || (ord c =? 10).
Definition is_scheme_char (c : ascii) : bool :=
  is_alnum c || bool_decide (c = "+"%char) || bool_decide (c = "-"%char)
  || bool_decide (c = "."%char).

Definition split_scheme (url : string) : string * string :=
  let '(pre, found, post) := partition ":" url in
  match pre with
  | String c _ =>
      if found && is_alpha c && str_forall is_scheme_char pre then (lower pre, post)
      else (EmptyString, url)
  | EmptyString => (EmptyString, url)
  end.

(** [_splitnetloc]: up to the first of [/?#] *)
Fixpoint split_netloc (s : string) : string * string :=
  match s with
  | EmptyString => (EmptyString, EmptyString)
  | String c t =>
      if bool_decide (c = "/"%char) || bool_decide (c = "?"%char) || bool_decide (c = "#"%char)
      then (EmptyString, s)
      else let '(a, b) := split_netloc t in (String c a, b)
  end.

(** the regular expression [\Av[a-fA-F0-9]+\..+\Z]; line ends have been removed *)
Definition is_ipvfuture (host : string) : bool :=
  match host with
  | String c t =>
      let '(version, dot, rest) := partition "." t in
      bool_decide (c = "v"%char) && dot && negb (is_empty version)
      && str_forall is_hex version && negb (is_empty rest)
  | EmptyString => false
  end.

Definition check_bracketed_host (host : string) : bool :=
  if startswith "v" host then is_ipvfuture host
  else match parse_ip host with Some (V6 _ _) => true | _ => false end.

Definition check_bracketed_netloc (netloc : string) : bool :=
  let '(_, _, hostname_and_port) := rpartition "@" netloc in
  let '(before, open, bracketed) := partition "[" hostname_and_port in
  if open then
    let '(host, _, port) := partition "]" bracketed in
    is_empty before && (is_empty port || startswith ":" port) && check_bracketed_host host
  else
    let '(host, _, _) := partition ":" hostname_and_port in check_bracketed_host host.

(** [urlsplit(url)]; [None] is the [ValueError]. *)
Definition urlsplit (url : string) : option SplitResult :=
  let url := str_filter (fun c => negb (is_unsafe_url_byte c)) (lstrip_by is_c0_or_space url) in
  let '(scheme, url) := split_scheme url in
  let '(netloc, url) :=
    if startswith "//" url then split_netloc (str_drop 2 url) else (EmptyString, url) in
  let open := contains_char "[" netloc in
  let close := contains_char "]" netloc in
  if negb (Bool.eqb open close) then None
  else if open && close && negb (check_bracketed_netloc netloc) then None
  else
    let '(url, _, fragment) := partition "#" url in
    let '(path, _, query) := partition "?" url in
    Some (mkSplit scheme netloc path query fragment).

(** * Attributes of the result *)

Definition userinfo (r : SplitResult) : option string :=
  let '(info, found, _) := rpartition "@" (netloc r) in if found then Some info else None.
Definition username (r : SplitResult) : option string :=
  info ← userinfo r; let '(user, _, _) := partition ":" info in Some user.
Definition password (r : SplitResult) : option string :=
  info ← userinfo r; let '(_, found, pass) := partition ":" info in
  if found then Some pass else None.

Definition hostinfo (r : SplitResult) : string * option string :=
  let '(_, _, info) := rpartition "@" (netloc r) in
  let '(_, open, bracketed) := partition "[" info in
  let '(host, port) :=
    if open then
      let '(host, _, port) := partition "]" bracketed in
      let '(_, _, port) := partition ":" port in (host, port)
    else let '(host, _, port) := partition ":" info in (host, port) in
  (host, if is_empty port then None else Some port).

Definition hostname (r : SplitResult) : option string :=
  let host := (hostinfo r).1 in
  if is_empty host then None
  else let '(name, percent, zone) := partition "%" host in
       Some (lower name +:+ (if percent : bool then "%" else EmptyString) +:+ zone).

(** [Raise tt] is the [ValueError] of an ill-formed or too large port. *)
Definition port (r : SplitResult) : result unit (option Z) :=
  match (hostinfo r).2 with
  | None => Ok None
  | Some p =>
      if str_forall is_digit p then
        let n := parse_nat p in if n <=? 65535 then Ok (Some n) else Raise tt
      else Raise tt
  end.

(** [parse_qsl(query, keep_blank_values=True)] *)
Definition plus_to_space : string -> string :=
  str_map (fun c => if bool_decide (c = "+"%char) then " "%char else c).
Definition parse_qsl (qs : string) : list (string * string) :=
  if is_empty qs then []
  else
    (fun name_value =>
       let '(name, _, value) := partition "=" name_value in
       (unquote (plus_to_space name), unquote (plus_to_space value)))
    <$> filter (fun s => is_empty s = false) (split_char "&" qs).

(** * Lemmas *)

Lemma port_range r n : port r = Ok (Some n) -> 0 <= n <= 65535.
Proof.
  unfold port. destruct (hostinfo r).2 as [p|]; [|done].
  destruct (str_forall is_digit p) eqn:Hd; [|done].
  destruct (parse_nat p <=? 65535) eqn:Hle; [|done].
  intros [= <-]. bool_simpl. split; [|done]. clear Hle. unfold parse_nat.
  assert (H : forall acc, 0 <= acc -> 0 <= parse_nat_aux acc p); [|by apply H].
  induction p as [|c p IH]; cbn; intros acc Hacc; [done|].
  cbn in Hd. bool_simpl. unfold is_digit, between in *. bool_simpl.
  apply IH; [done|]. lia.
Qed.

Lemma quote_char_clean c d :
  bool_decide (d = "/"%char) || bool_decide (d = "?"%char) || bool_decide (d = "#"%char)
  || bool_decide (d = "{"%char) || bool_decide (d = "}"%char) = true ->
  contains_char d (quote_char c) = false.
Proof.
  intros H. repeat rewrite orb_true_iff in H. repeat rewrite bool_decide_eq_true in H.
  destruct H as [[[[->| ->]| ->]| ->]| ->];
    destruct c as [[] [] [] [] [] [] [] []]; vm_compute; done.
Qed.

Lemma contains_char_app d s t : contains_char d (s +:+ t) = contains_char d s || contains_char d t.
Proof. apply str_exists_app. Qed.

(** A quoted string has no path separator, query or fragment delimiter, or brace. *)
Lemma quote_clean s d :
  bool_decide (d = "/"%char) || bool_decide (d = "?"%char) || bool_decide (d = "#"%char)
  || bool_decide (d = "{"%char) || bool_decide (d = "}"%char) = true ->
  contains_char d (quote s) = false.
Proof.
  intros H. induction s as [|c s IH]; [done|]. cbn [quote].
  by rewrite contains_char_app, quote_char_clean, IH.
Qed.
