(* ===== verification/PyFloat.v ===== *)
(** Python's [float]: IEEE-754 binary64 with round-to-nearest-even, computed by the
    Standard Library's executable specification [SpecFloat]; and [repr(float)]. *)

From Stdlib Require Import SpecFloat.
From S2P Require Import Prelude.
From S2P Require Import PyStr.

Open Scope Z_scope.

Definition prec : Z := 53.
Definition emax : Z := 1024.

Definition float : Type := spec_float.

#[export] Instance float_eq_dec : EqDecision float.
Proof. unfold float. solve_decision. Defined.

Definition fadd : float -> float -> float := SFadd prec emax.
Definition fsub : float -> float -> float := SFsub prec emax.
Definition fdiv : float -> float -> float := SFdiv prec emax.
Definition fltb : float -> float -> bool := SFltb.
Definition fleb : float -> float -> bool := SFleb.
Definition feqb : float -> float -> bool := SFeqb.

(** [float(n)] of an integer *)
Definition float_of_Z (n : Z) : float := binary_normalize prec emax n 0 false.
Definition f0 : float := S754_zero false.
Definition f1 : float := float_of_Z 1.

Definition isfinite (f : float) : bool :=
  match f with S754_zero _ | S754_finite _ _ _ => true | _ => false end.
Definition isnan (f : float) : bool := match f with S754_nan => true | _ => false end.

(** [min(a, b)] and [max(a, b)] of two arguments: the first unless the second is
    strictly smaller (greater). *)
Definition pymin (a b : float) : float := if fltb b a then b else a.
Definition pymax (a b : float) : float := if fltb a b then b else a.

(** [p / 10^k] and [p * 10^k], correctly rounded: the value of a decimal literal *)
Definition float_of_decimal (neg : bool) (p : Z) (e10 : Z) : float :=
  match p with
  | Zpos m =>
      if 0 <=? e10 then binary_normalize prec emax ((if neg then -1 else 1) * p * 10 ^ e10) 0 neg
      else match 10 ^ (- e10) with
           | Zpos d => SFdiv prec emax (S754_finite neg m 0) (S754_finite false d 0)
           | _ => S754_nan
           end
  | _ => S754_zero neg
  end.

(** [math.ceil(f * 1000)] style: the least integer not below a finite [f] *)
Definition ceil (f : float) : Z :=
  match f with
  | S754_finite s m e =>
      let v := if s then Zneg m else Zpos m in
      if 0 <=? e then v * 2 ^ e else - ((- v) / 2 ^ (- e))
  | _ => 0
  end.

(** [int(f)]: truncation towards zero; [int] raises on infinities and nans, which the
    callers do not pass. *)
Definition int_of_float (f : float) : Z :=
  match f with
  | S754_finite s m e =>
      let v := if 0 <=? e then Zpos m * 2 ^ e else Zpos m / 2 ^ (- e) in
      if s then - v else v
  | _ => 0
  end.
Definition fmul : float -> float -> float := SFmul prec emax.

(** [f == n] for an integer [n], exact as in Python *)
Definition float_eq_int (f : float) (n : Z) : bool :=
  match f with
  | S754_zero _ => n =? 0
  | S754_finite s m e =>
      let v := if s then Zneg m else Zpos m in
      if 0 <=? e then v * 2 ^ e =? n else v =? n * 2 ^ (- e)
  | _ => false
  end.

(** * [repr] *)

(** The rational [m * 2^e] as a fraction. *)
Definition frac (m : positive) (e : Z) : Z * Z :=
  if 0 <=? e then (Zpos m * 2 ^ e, 1) else (Zpos m, 2 ^ (- e)).

(** [(d, k)]: the number of [p]-digit decimals [d * 10^k <= n/den < (d+1) * 10^k]
    where [x10] is the decimal exponent of the leading digit. *)
Definition floor_digits (n den : Z) (x10 p : Z) : Z * Z :=
  let k := x10 - p + 1 in
  (if 0 <=? k then n / (den * 10 ^ k) else n * 10 ^ (- k) / den, k).

(** decimal exponent of the leading digit, by descending search from an upper bound *)
Fixpoint lead_exp (fuel : nat) (x n den : Z) : Z :=
  match fuel with
  | O => x
  | S f =>
      let ge := if 0 <=? x then den * 10 ^ x <=? n else den <=? n * 10 ^ (- x) in
      if ge then x else lead_exp f (x - 1) n den
  end.

(** Of two candidates that read back as [f], the nearer one. *)
Definition pick (n den d k : Z) (lo hi : bool) : option Z :=
  match lo, hi with
  | false, false => None
  | true, false => Some d
  | false, true => Some (d + 1)
  | true, true =>
      let num := if 0 <=? k then n else n * 10 ^ (- k) in
      let unit := if 0 <=? k then den * 10 ^ k else den in
      match Z.compare (2 * (num - d * unit)) unit with
      | Lt => Some d
      | Gt => Some (d + 1)
      | Eq => Some (if Z.even d then d else d + 1)
      end
  end.

(** The shortest decimal that reads back as [f]: 17 digits always do. *)
Fixpoint shortest (fuel : nat) (f : float) (n den x10 p : Z) : Z * Z :=
  let '(d, k) := floor_digits n den x10 p in
  match fuel with
  | O => (d, k)
  | S g =>
      let back d := bool_decide (float_of_decimal false d k = f) in
      match pick n den d k (back d) (back (d + 1)) with
      | Some d => (d, k)
      | None => shortest g f n den x10 (p + 1)
      end
  end.

Fixpoint strip_zeros (fuel : nat) (d k : Z) : Z * Z :=
  match fuel with
  | O => (d, k)
  | S f => if (d mod 10 =? 0) && (0 <? d) then strip_zeros f (d / 10) (k + 1) else (d, k)
  end.

Fixpoint zeros (n : nat) : string :=
  match n with O => EmptyString | S n' => String "0" (zeros n') end.

(** Exponents from -4 to 15 are written positionally, the others as [d.ddde+XX]. *)
Definition format_repr (d k : Z) : string :=
  let s := str_of_Z d in
  let nd := byte_len s in
  let x10 := k + nd - 1 in
  if (-4 <=? x10) && (x10 <? 16) then
    if 0 <=? k then s +:+ zeros (Z.to_nat k) +:+ ".0"
    else if 0 <=? x10 then
      str_take (Z.to_nat (x10 + 1)) s +:+ "." +:+ str_drop (Z.to_nat (x10 + 1)) s
    else "0." +:+ zeros (Z.to_nat (- x10 - 1)) +:+ s
  else
    let mant := if nd =? 1 then s else str_take 1 s +:+ "." +:+ str_drop 1 s in
    let ax := Z.abs x10 in
    mant +:+ (if x10 <? 0 then "e-" else "e+") +:+ (if ax <? 10 then "0" else EmptyString)
    +:+ str_of_Z ax.

Definition float_repr (f : float) : string :=
  match f with
  | S754_nan => "nan"
  | S754_infinity s => if s then "-inf" else "inf"
  | S754_zero s => if s then "-0.0" else "0.0"
  | S754_finite s m e =>
      let '(n, den) := frac m e in
      let x10 := lead_exp 700 309 n den in
      let '(d, k) := shortest 16 (S754_finite false m e) n den x10 1 in
      let '(d, k) := strip_zeros 17 d k in
      (if s then "-" else EmptyString) +:+ format_repr d k
  end.

(** * Lemmas *)

Lemma fltb_irrefl a : fltb a a = false.
Proof.
  unfold fltb, SFltb, SFcompare. destruct a as [s|s| |s m e]; try done; [by destruct s|].
  destruct s; rewrite Z.compare_refl, Pos.compare_cont_refl; done.
Qed.

Lemma fltb_asym a b : fltb a b = true -> fltb b a = false.
Proof.
  unfold fltb, SFltb, SFcompare.
  destruct a as [[]|[]| |[] m e], b as [[]|[]| |[] m' e']; try done;
    rewrite (Z.compare_antisym e e');
    pose proof (Pos.compare_cont_antisym m m' Eq) as Hm; cbn in Hm; rewrite <- Hm;
    destruct (Z.compare e e') eqn:E; try done; cbn;
    destruct (Pos.compare_cont Eq m m'); done.
Qed.

Lemma pymax_ge_l a b : fltb (pymax a b) a = false.
Proof. unfold pymax. case_if; [by apply fltb_asym | apply fltb_irrefl]. Qed.

Lemma pymax_ge_r a b : fltb (pymax a b) b = false.
Proof. unfold pymax. case_if; [apply fltb_irrefl | done]. Qed.

Lemma pymin_le_l a b : fltb a (pymin a b) = false.
Proof. unfold pymin. case_if; [by apply fltb_asym | apply fltb_irrefl]. Qed.

Lemma pymin_le_r a b : fltb b (pymin a b) = false.
Proof. unfold pymin. case_if; [apply fltb_irrefl | done]. Qed.

(** ** Validation of a number passed by a caller *)

(** The dynamic type of an argument that should be a number. *)
Inductive pynum : Type :=
| PyBool (b : bool)
| PyInt (n : Z)
| PyFloat (f : float)
| PyOther.

(** [float(n)] raises [OverflowError] beyond the largest finite float; so does
    [math.isfinite(n)]. *)
Definition int_overflows (n : Z) : bool := negb (isfinite (float_of_Z n)).

(** The idiom [isinstance(v, bool) or not isinstance(v, (int, float)) or not
    math.isfinite(v) or v <= 0], then [float(v)]: [Ok None] when one of the tests
    holds, [Raise tt] on the [OverflowError]. *)
Definition finite_positive (v : pynum) : result unit (option float) :=
  match v with
  | PyBool _ | PyOther => Ok None
  | PyInt n =>
      if int_overflows n then Raise tt
      else if n <=? 0 then Ok None else Ok (Some (float_of_Z n))
  | PyFloat f => if negb (isfinite f) || fleb f f0 then Ok None else Ok (Some f)
  end.

Lemma finite_positive_float f g :
  finite_positive (PyFloat f) = Ok (Some g) -> g = f /\ isfinite f = true /\ fltb f0 f = true.
Proof.
  cbn. case_if; [done|]. intros [= <-]. apply orb_false_iff in E as [E1 E2].
  apply negb_false_iff in E1. split; [done|]. split; [done|].
  destruct f as [s|s| |s m e]; try done. by destruct s.
Qed.
