(* ===== verification/PyJson.v ===== *)
(** Values of Python's [json] module and its encoder [json.dumps].

    An object keeps the insertion order of its keys, as a Python [dict] does; the
    decoder and every [dict] have distinct keys ([json_wf]). *)

From Stdlib Require Import SpecFloat.
From S2P Require Import Prelude.
From S2P Require Import PyStr.
From S2P Require Import PyFloat.

Open Scope Z_scope.

Inductive json : Type :=
| JNull
| JBool (b : bool)
| JInt (n : Z)
| JFloat (f : float)
| JStr (s : string)
| JArr (l : list json)
| JObj (o : list (string * json)).

Section json_induction.
Context (P : json -> Prop).
Context (Hnull : P JNull) (Hbool : forall b, P (JBool b)) (Hint : forall n, P (JInt n))
  (Hfloat : forall f, P (JFloat f)) (Hstr : forall s, P (JStr s))
  (Harr : forall l, Forall P l -> P (JArr l))
  (Hobj : forall o, Forall (fun kv => P kv.2) o -> P (JObj o)).

(** Induction with the hypothesis for every element of an array and every member
    of an object. *)
Fixpoint json_rect_nested (j : json) : P j :=
  match j with
  | JNull => Hnull
  | JBool b => Hbool b
  | JInt n => Hint n
  | JFloat f => Hfloat f
  | JStr s => Hstr s
  | JArr l => Harr l ((fix go l := match l return Forall P l with
                       | [] => Forall_nil_2 _
                       | x :: l' => Forall_cons_2 _ _ _ (json_rect_nested x) (go l')
                       end) l)
  | JObj o => Hobj o ((fix go o := match o return Forall (fun kv => P kv.2) o with
                       | [] => Forall_nil_2 _
                       | x :: o' => Forall_cons_2 (fun kv => P kv.2) _ _ (json_rect_nested x.2) (go o')
                       end) o)
  end.
End json_induction.

#[export] Instance json_eq_dec : EqDecision json.
Proof.
  refine (fix go (x y : json) : Decision (x = y) :=
    match x, y with
    | JNull, JNull => left eq_refl
    | JBool a, JBool b => cast_if (decide (a = b))
    | JInt a, JInt b => cast_if (decide (a = b))
    | JFloat a, JFloat b => cast_if (decide (a = b))
    | JStr a, JStr b => cast_if (decide (a = b))
    | JArr a, JArr b => cast_if (@list_eq_dec _ go a b)
    | JObj a, JObj b => cast_if (@list_eq_dec _ (@prod_eq_dec _ _ _ go) a b)
    | _, _ => right _
    end); try congruence.
Defined.

(** [obj.get(key)] *)
Fixpoint assoc {A} (k : string) (o : list (string * A)) : option A :=
  match o with
  | [] => None
  | (k', v) :: o' => if bool_decide (k' = k) then Some v else assoc k o'
  end.

(** [d[k] = v] of a dict: an existing key keeps its place *)
Fixpoint assoc_set {A} (k : string) (v : A) (o : list (string * A)) : list (string * A) :=
  match o with
  | [] => [(k, v)]
  | (k', v') :: o' => if bool_decide (k' = k) then (k, v) :: o' else (k', v') :: assoc_set k v o'
  end.

(** Distinct keys, everywhere. *)
Fixpoint json_wf (j : json) : bool :=
  match j with
  | JArr l => forallb json_wf l
  | JObj o => bool_decide (NoDup o.*1) && forallb (fun kv => json_wf kv.2) o
  | _ => true
  end.

Fixpoint json_size (j : json) : nat :=
  match j with
  | JArr l => S (fold_right (fun x n => json_size x + n)%nat 0%nat l)
  | JObj o => S (fold_right (fun kv n => json_size kv.2 + n)%nat 0%nat o)
  | _ => 1%nat
  end.

Fixpoint json_depth (j : json) : nat :=
  match j with
  | JArr l => S (fold_right (fun x n => Nat.max (json_depth x) n) 0%nat l)
  | JObj o => S (fold_right (fun kv n => Nat.max (json_depth kv.2) n) 0%nat o)
  | _ => 1%nat
  end.

(** * Python equality of decoded values

    [==] compares numbers by value ([True == 1 == 1.0]) and objects as mappings. The
    decoder makes every NaN from one shared object, which containers compare by
    identity, so NaNs inside documents are equal. *)
Definition num_of (j : json) : option (Z + float) :=
  match j with
  | JBool b => Some (inl (if b then 1 else 0))
  | JInt n => Some (inl n)
  | JFloat f => Some (inr f)
  | _ => None
  end.
Definition num_eqb (x y : Z + float) : bool :=
  match x, y with
  | inl a, inl b => a =? b
  | inl a, inr g => float_eq_int g a
  | inr f, inl b => float_eq_int f b
  | inr f, inr g => feqb f g || (isnan f && isnan g)
  end.

Fixpoint py_eqb (x y : json) : bool :=
  match x with
  | JNull => match y with JNull => true | _ => false end
  | JStr a => match y with JStr b => bool_decide (a = b) | _ => false end
  | JArr a =>
      match y with
      | JArr b =>
          (fix go a b := match a, b with
           | [], [] => true
           | u :: a', v :: b' => py_eqb u v && go a' b'
           | _, _ => false
           end) a b
      | _ => false
      end
  | JObj a =>
      match y with
      | JObj b =>
          Nat.eqb (length a) (length b) &&
          (fix go a := match a with
           | [] => true
           | kv :: a' =>
               match assoc kv.1 b with Some v => py_eqb kv.2 v | None => false end && go a'
           end) a
      | _ => false
      end
  | _ => match num_of x, num_of y with Some u, Some v => num_eqb u v | _, _ => false end
  end.

(** * [json.dumps] with [ensure_ascii=False] *)

Definition esc (c : ascii) : string := String backslash (str1 c).
Definition escape_char (c : ascii) : string :=
  if bool_decide (c = dquote) || bool_decide (c = backslash) then esc c
  else if ord c =? 8 then esc "b"
  else if ord c =? 9 then esc "t"
  else if ord c =? 10 then esc "n"
  else if ord c =? 12 then esc "f"
  else if ord c =? 13 then esc "r"
  else if ord c <? 32 then
    esc "u" +:+ "00" +:+ String (hex_digit (ord c / 16)) (str1 (hex_digit (ord c mod 16)))
  else str1 c.
Fixpoint escape (s : string) : string :=
  match s with EmptyString => EmptyString | String c t => escape_char c +:+ escape t end.
Definition json_string (s : string) : string := String dquote (escape s +:+ str1 dquote).

Definition json_float (allow_nan : bool) (f : float) : option string :=
  if isfinite f then Some (float_repr f)
  else if allow_nan then
    Some match f with
         | S754_infinity true => "-Infinity"
         | S754_infinity false => "Infinity"
         | _ => "NaN"
         end
  else None.

Record dump_options := mkDump {
  sort_keys : bool;
  item_separator : string;
  key_separator : string;
  allow_nan : bool
}.
(** [separators=(",", ":")] and the defaults [(", ", ": ")] *)
Definition compact : dump_options := mkDump false "," ":" true.
Definition default_dump : dump_options := mkDump false ", " ": " true.
Definition canonical : dump_options := mkDump true "," ":" false.

(** [sorted(dct.items())]: keys are distinct, so they decide the order *)
Fixpoint insert_member {A} (x : string * A) (l : list (string * A)) : list (string * A) :=
  match l with
  | [] => [x]
  | y :: l' => if String.leb x.1 y.1 then x :: l else y :: insert_member x l'
  end.
Fixpoint sort_members {A} (l : list (string * A)) : list (string * A) :=
  match l with [] => [] | x :: l' => insert_member x (sort_members l') end.

Definition str_bool (b : bool) : string := if b then "true" else "false".

(** [None] is the [ValueError] of a non-finite float under [allow_nan=False]. *)
Fixpoint dumps (opts : dump_options) (j : json) : option string :=
  match j with
  | JNull => Some "null"
  | JBool b => Some (str_bool b)
  | JInt n => Some (str_of_Z n)
  | JFloat f => json_float (allow_nan opts) f
  | JStr s => Some (json_string s)
  | JArr l =>
      items ← (fix go l := match l with
               | [] => Some []
               | x :: l' => s ← dumps opts x; r ← go l'; Some (s :: r)
               end) l;
      Some ("[" +:+ join (item_separator opts) items +:+ "]")
  | JObj o =>
      members ← (fix go o := match o with
                 | [] => Some []
                 | kv :: o' => s ← dumps opts kv.2; r ← go o'; Some ((kv.1, s) :: r)
                 end) o;
      let members := if sort_keys opts then sort_members members else members in
      Some ("{" +:+
            join (item_separator opts)
              ((fun m => json_string m.1 +:+ key_separator opts +:+ m.2) <$> members)
            +:+ "}")
  end.

(** * Lemmas *)

Lemma assoc_elem {A} k (o : list (string * A)) v : assoc k o = Some v -> (k, v) ∈ o.
Proof.
  induction o as [|[k' v'] o IH]; cbn; [done|]. case_bool_decide as E.
  - intros [= ->]. subst. left.
  - intros H. right. by apply IH.
Qed.

Lemma assoc_none {A} k (o : list (string * A)) : assoc k o = None <-> k ∉ o.*1.
Proof.
  induction o as [|[k' v'] o IH]; cbn; [set_solver|]. case_bool_decide as E.
  - subst. set_solver.
  - rewrite IH. set_solver.
Qed.

Lemma assoc_set_keys {A} k (v : A) o :
  (assoc_set k v o).*1 = if bool_decide (k ∈ o.*1) then o.*1 else o.*1 ++ [k].
Proof.
  induction o as [|[k' v'] o IH]; [done|]. cbn [assoc_set fmap list_fmap fst].
  destruct (decide (k' = k)) as [->|Hne].
  - rewrite bool_decide_eq_true_2 by done. rewrite bool_decide_eq_true_2; [done | left].
  - rewrite (bool_decide_eq_false_2 (k' = k)) by done. cbn. rewrite IH.
    repeat case_bool_decide; set_solver.
Qed.

Lemma assoc_set_lookup {A} k (v : A) o : assoc k (assoc_set k v o) = Some v.
Proof.
  induction o as [|[k' v'] o IH]; cbn; [by rewrite bool_decide_eq_true_2|].
  case_bool_decide; cbn; [by rewrite bool_decide_eq_true_2 | by rewrite bool_decide_eq_false_2].
Qed.

(** A found member of a dictionary with distinct keys is the one that is looked up. *)
Lemma assoc_distinct {A} k (v : A) o : NoDup o.*1 -> (k, v) ∈ o -> assoc k o = Some v.
Proof.
  induction o as [|[k' v'] o IH]; cbn; intros Hnd Hin; [by apply elem_of_nil in Hin|].
  apply NoDup_cons in Hnd as [Hnew Hnd]. apply elem_of_cons in Hin as [[= -> ->]|Hin]; [by rewrite bool_decide_eq_true_2|].
  rewrite bool_decide_eq_false_2; [by apply IH|]. intros ->. apply Hnew. by apply (list_elem_of_fmap_2 fst) in Hin.
Qed.

Lemma forallb_elem {A} (f : A -> bool) l x : forallb f l = true -> x ∈ l -> f x = true.
Proof. rewrite forallb_forall. intros H Hin. by apply H, list_elem_of_In. Qed.

Lemma json_wf_member k v o : json_wf (JObj o) = true -> assoc k o = Some v -> json_wf v = true.
Proof. cbn. intros [_ H]%andb_prop Ha%assoc_elem. exact (forallb_elem _ _ _ H Ha). Qed.

(** [==] is reflexive on the decoder's values. *)
Lemma py_eqb_refl j : json_wf j = true -> py_eqb j j = true.
Proof.
  induction j as [|b|n|f|s|l IH|o IH] using json_rect_nested; intros Hwf; cbn [py_eqb num_of num_eqb].
  - done.
  - destruct b; done.
  - apply Z.eqb_refl.
  - destruct f as [s|s| |s m e]; cbn; try done; unfold feqb, SFeqb, SFcompare; [by destruct s|].
    destruct s; by rewrite Z.compare_refl, Pos.compare_cont_refl.
  - by rewrite bool_decide_eq_true_2.
  - cbn in Hwf. induction IH as [|x l Hx _ IHl]; [done|]. cbn in *. bool_simpl.
    apply andb_true_intro. split; [by apply Hx | by apply IHl].
  - cbn in Hwf. bool_simpl. rewrite Nat.eqb_refl. cbn [andb].
    change (forallb (fun kv => match assoc kv.1 o with Some v => py_eqb kv.2 v | None => false end) o = true).
    apply forallb_forall. intros [k v] Hin%list_elem_of_In. rewrite (assoc_distinct k v) by done. cbn.
    rewrite Forall_forall in IH. apply (IH _ Hin). by eapply (forallb_elem (fun kv => json_wf kv.2)) in Hin.
Qed.
