(* ===== verification/PyJsonText.v ===== *)
(** The text written by [json.dumps] determines the document.

    [doc_of] is what the text carries of a value: the literals of its scalars, and its
    members in the order written.  [dumps] is the printing of [doc_of] ([dumps_print]),
    and printing is injective ([print_inj]): two values with the same text are the same
    document, up to the order of members and the spelling of floats. *)

From Stdlib Require Import SpecFloat.
From S2P Require Import Prelude.
From S2P Require Import PyStr.
From S2P Require Import PyFloat.
From S2P Require Import PyJson.

Open Scope Z_scope.

Inductive doc : Type :=
| DAtom (literal : string)
| DStr (s : string)
| DArr (l : list doc)
| DObj (o : list (string * doc)).

Section doc_induction.
Context (P : doc -> Prop) (Hatom : forall s, P (DAtom s)) (Hstr : forall s, P (DStr s))
  (Harr : forall l, Forall P l -> P (DArr l))
  (Hobj : forall o, Forall (fun kv => P kv.2) o -> P (DObj o)).
Fixpoint doc_rect_nested (d : doc) : P d :=
  match d with
  | DAtom s => Hatom s
  | DStr s => Hstr s
  | DArr l => Harr l ((fix go l := match l return Forall P l with
                       | [] => Forall_nil_2 _
                       | x :: l' => Forall_cons_2 _ _ _ (doc_rect_nested x) (go l')
                       end) l)
  | DObj o => Hobj o ((fix go o := match o return Forall (fun kv => P kv.2) o with
                       | [] => Forall_nil_2 _
                       | x :: o' => Forall_cons_2 (fun kv => P kv.2) _ _ (doc_rect_nested x.2) (go o')
                       end) o)
  end.
End doc_induction.

(** The characters of the literals of numbers, [true], [false] and [null]. *)
Definition atom_char (c : ascii) : bool :=
  is_alnum c || bool_decide (c = "-"%char) || bool_decide (c = "+"%char) || bool_decide (c = "."%char).
Definition atom_text (s : string) : bool := negb (is_empty s) && str_forall atom_char s.

Fixpoint doc_ok (d : doc) : bool :=
  match d with
  | DAtom s => atom_text s
  | DStr _ => true
  | DArr l => forallb doc_ok l
  | DObj o => forallb (fun kv => doc_ok kv.2) o
  end.

Section printing.
Context (opts : dump_options).

Fixpoint doc_of (j : json) : doc :=
  match j with
  | JNull => DAtom "null"
  | JBool b => DAtom (str_bool b)
  | JInt n => DAtom (str_of_Z n)
  | JFloat f => DAtom (default EmptyString (json_float (allow_nan opts) f))
  | JStr s => DStr s
  | JArr l => DArr (map doc_of l)
  | JObj o =>
      let o := map (fun kv => (kv.1, doc_of kv.2)) o in
      DObj (if sort_keys opts then sort_members o else o)
  end.

Fixpoint print_doc (d : doc) : string :=
  match d with
  | DAtom s => s
  | DStr s => json_string s
  | DArr l => "[" +:+ join (item_separator opts) (map print_doc l) +:+ "]"
  | DObj o =>
      "{" +:+ join (item_separator opts)
                (map (fun kv => json_string kv.1 +:+ key_separator opts +:+ print_doc kv.2) o) +:+ "}"
  end.
End printing.

(** What may follow a value in a compact document. *)
Definition ends (r : string) : bool :=
  match r with
  | EmptyString => true
  | String c _ => bool_decide (c = ","%char) || bool_decide (c = "]"%char) || bool_decide (c = "}"%char)
  end.

(** * Strings *)

(** Reading back one escaped character. *)
Definition unescape_char (s : string) : option (ascii * string) :=
  match s with
  | EmptyString => None
  | String c t =>
      if bool_decide (c = dquote) then None
      else if bool_decide (c = backslash) then
        match t with
        | String "b" u => Some (chr 8, u)
        | String "t" u => Some (chr 9, u)
        | String "n" u => Some (chr 10, u)
        | String "f" u => Some (chr 12, u)
        | String "r" u => Some (chr 13, u)
        | String "u" (String _ (String _ (String a (String b u)))) =>
            Some (chr (hex_value a * 16 + hex_value b), u)
        | String d u => Some (d, u)
        | EmptyString => None
        end
      else Some (c, t)
  end.

Lemma unescape_escape c r : unescape_char (escape_char c +:+ r) = Some (c, r).
Proof. char_cases c. Qed.

Lemma escape_inj s1 s2 r1 r2 :
  escape s1 +:+ String dquote r1 = escape s2 +:+ String dquote r2 -> s1 = s2 /\ r1 = r2.
Proof.
  revert s2. induction s1 as [|c s1 IH]; intros [|d s2] H.
  - by injection H.
  - apply (f_equal unescape_char) in H. cbn [escape] in H.
    by rewrite str_app_assoc, unescape_escape in H.
  - apply (f_equal unescape_char) in H. cbn [escape] in H.
    by rewrite str_app_assoc, unescape_escape in H.
  - apply (f_equal unescape_char) in H. cbn [escape] in H.
    rewrite !str_app_assoc, !unescape_escape in H. injection H as -> H.
    by destruct (IH _ H) as [-> ->].
Qed.

Lemma json_string_inj s1 s2 r1 r2 :
  json_string s1 +:+ r1 = json_string s2 +:+ r2 -> s1 = s2 /\ r1 = r2.
Proof.
  unfold json_string. cbn [String.append]. intros [= H]. rewrite !str_app_assoc in H.
  by apply escape_inj.
Qed.

(** * Literals *)

Lemma atom_inj a b r1 r2 : str_forall atom_char a = true -> str_forall atom_char b = true ->
  ends r1 = true -> ends r2 = true -> a +:+ r1 = b +:+ r2 -> a = b /\ r1 = r2.
Proof.
  assert (Hstop : forall c r, ends (String c r) = true -> atom_char c = false).
  { intros c r. cbn [ends]. intros H. destruct (atom_char c) eqn:E; [|done].
    revert H E. char_cases c. }
  revert b. induction a as [|c a IH]; intros [|d b] Ha Hb H1 H2 H; cbn in H, Ha, Hb.
  - done.
  - subst r1. apply andb_prop in Hb as [Hd _]. by rewrite (Hstop _ _ H1) in Hd.
  - subst r2. apply andb_prop in Ha as [Hd _]. by rewrite (Hstop _ _ H2) in Hd.
  - injection H as -> H. apply andb_prop in Ha as [_ Ha], Hb as [_ Hb].
    by destruct (IH b Ha Hb H1 H2 H) as [-> ->].
Qed.

Lemma str_of_Z_nonempty n : is_empty (str_of_Z n) = false.
Proof.
  unfold str_of_Z. case_if; [done|]. generalize (Z.to_nat (Z.log2 n)). intros f.
  assert (H : forall fuel m c acc, is_empty (decimal_aux fuel m (String c acc)) = false).
  { induction fuel as [|g IH]; intros m c acc; [done|]. cbn [decimal_aux]. case_if; [done|]. apply IH. }
  cbn [decimal_aux]. case_if; [done | apply H].
Qed.

Lemma atom_digit s : str_forall is_digit s = true -> str_forall atom_char s = true.
Proof.
  induction s as [|c s IH]; cbn; [done|]. intros [Hc Hs]%andb_prop. rewrite (IH Hs), andb_true_r.
  unfold atom_char, is_alnum. rewrite Hc. by rewrite orb_true_r.
Qed.

Lemma str_of_Z_neg n : n < 0 -> str_of_Z n = String "-" (str_of_Z (- n)).
Proof.
  intros H. unfold str_of_Z. rewrite (proj2 (Z.ltb_lt _ _)) by done.
  by rewrite (proj2 (Z.ltb_ge (- n) 0)) by lia.
Qed.

Lemma str_of_Z_atom n : str_forall atom_char (str_of_Z n) = true.
Proof.
  destruct (Z.lt_ge_cases n 0) as [Hn|Hn].
  - rewrite str_of_Z_neg by done. cbn. apply atom_digit, decimal_digits. lia.
  - by apply atom_digit, decimal_digits.
Qed.

Lemma str_of_Z_inj n m : str_of_Z n = str_of_Z m -> n = m.
Proof.
  assert (Hdash : forall k t, 0 <= k -> str_of_Z k <> String "-" t).
  { intros k t Hk H. pose proof (decimal_digits k Hk) as Hd. rewrite H in Hd. done. }
  assert (Hpos : forall a b, 0 <= a -> 0 <= b -> str_of_Z a = str_of_Z b -> a = b).
  { intros a b Ha Hb H. rewrite <- (decimal_roundtrip a Ha), <- (decimal_roundtrip b Hb). by rewrite H. }
  destruct (Z.lt_ge_cases n 0) as [Hn|Hn], (Z.lt_ge_cases m 0) as [Hm|Hm];
    rewrite ?(str_of_Z_neg n), ?(str_of_Z_neg m) by done; intros H.
  - injection H as H. apply Hpos in H; lia.
  - by destruct (Hdash m _ Hm (eq_sym H)).
  - by destruct (Hdash n _ Hn H).
  - by apply Hpos.
Qed.

Lemma str_forall_take p n s : str_forall p s = true -> str_forall p (str_take n s) = true.
Proof.
  revert n. induction s as [|c s IH]; intros [|n]; cbn; try done.
  intros [-> Hs]%andb_prop. by apply IH.
Qed.
Lemma str_forall_drop p n s : str_forall p s = true -> str_forall p (str_drop n s) = true.
Proof.
  revert n. induction s as [|c s IH]; intros [|n]; cbn; try done. intros [_ Hs]%andb_prop. by apply IH.
Qed.
Lemma zeros_atom n : str_forall atom_char (zeros n) = true.
Proof. induction n as [|n IH]; [done | exact IH]. Qed.
Lemma is_empty_app s t : is_empty (s +:+ t) = is_empty s && is_empty t.
Proof. by destruct s. Qed.

Lemma format_repr_atom d k : atom_text (format_repr d k) = true.
Proof.
  pose proof (str_of_Z_atom d) as Hs. pose proof (str_of_Z_nonempty d) as He.
  assert (Hm : forall b, atom_text (if b : bool then str_of_Z d
                            else str_take 1 (str_of_Z d) +:+ "." +:+ str_drop 1 (str_of_Z d)) = true).
  { intros []; unfold atom_text; [by rewrite He, Hs|]. rewrite is_empty_app, andb_false_r, !str_forall_app.
    by rewrite str_forall_take, str_forall_drop. }
  unfold format_repr. cbv zeta. case_if.
  - repeat case_if; unfold atom_text; rewrite ?is_empty_app, ?andb_false_r, ?He, !str_forall_app;
      by rewrite ?Hs, ?zeros_atom, ?str_forall_take, ?str_forall_drop.
  - specialize (Hm (byte_len (str_of_Z d) =? 1)). unfold atom_text in Hm |- *.
    apply andb_prop in Hm as [Hm1 Hm2].
    rewrite is_empty_app, negb_andb, Hm1, !str_forall_app, Hm2, str_of_Z_atom. by repeat case_if.
Qed.

Lemma float_repr_atom f : isfinite f = true -> atom_text (float_repr f) = true.
Proof.
  destruct f as [s|s| |s m e]; try done; [by destruct s|]. intros _. unfold float_repr.
  destruct (frac m e) as [n den]. cbv zeta. destruct (shortest _ _ _ _ _ _) as [d k].
  destruct (strip_zeros 17 d k) as [d' k'].
  pose proof (format_repr_atom d' k') as H. destruct s; [|exact H].
  unfold atom_text in *. by apply andb_prop in H as [_ H].
Qed.

Lemma json_float_atom b f s : json_float b f = Some s -> atom_text s = true.
Proof.
  unfold json_float. case_if; [intros [= <-]; by apply float_repr_atom|].
  destruct b; [|done]. intros [= <-]. by destruct f as [|[]| |].
Qed.

(** * [dumps] prints the document *)

Lemma insert_member_map {A B} (f : A -> B) x l :
  map (fun kv => (kv.1, f kv.2)) (insert_member x l) =
  insert_member (x.1, f x.2) (map (fun kv => (kv.1, f kv.2)) l).
Proof. induction l as [|y l IH]; cbn; [done|]. case_if; cbn; [done | by rewrite IH]. Qed.
Lemma sort_members_map {A B} (f : A -> B) l :
  map (fun kv => (kv.1, f kv.2)) (sort_members l) = sort_members (map (fun kv => (kv.1, f kv.2)) l).
Proof. induction l as [|x l IH]; cbn; [done|]. by rewrite insert_member_map, IH. Qed.
Lemma insert_member_perm {A} (x : string * A) l : insert_member x l ≡ₚ x :: l.
Proof. induction l as [|y l IH]; cbn; [done|]. case_if; [done|]. rewrite IH. apply Permutation_swap. Qed.
Lemma sort_members_perm {A} (l : list (string * A)) : sort_members l ≡ₚ l.
Proof. induction l as [|x l IH]; cbn; [done|]. by rewrite insert_member_perm, IH. Qed.

Lemma fmap_map {A B} (f : A -> B) (l : list A) : f <$> l = map f l.
Proof. done. Qed.

(** The text of a value is the printing of its document, whose literals are proper. *)
Lemma dumps_print opts j t : dumps opts j = Some t ->
  t = print_doc opts (doc_of opts j) /\ doc_ok (doc_of opts j) = true.
Proof.
  revert t. induction j as [| | | | |l IH|o IH] using json_rect_nested; intros t.
  - by intros [= <-].
  - destruct b; by intros [= <-].
  - intros [= <-]. split; [done|]. cbn. unfold atom_text. by rewrite str_of_Z_nonempty, str_of_Z_atom.
  - cbn. intros H. rewrite H. by apply json_float_atom in H.
  - by intros [= <-].
  - cbn. set (go := fix go l := match l with [] => Some [] | _ => _ end).
    assert (Hgo : forall ts, go l = Some ts ->
      ts = map (print_doc opts) (map (doc_of opts) l) /\ forallb doc_ok (map (doc_of opts) l) = true).
    { induction IH as [|j l Hj _ IH']; cbn; [by intros ? [= <-]|]. intros ts.
      destruct (dumps opts j) as [s|] eqn:E; [|done]. cbn. destruct (go l) as [ts'|]; [|done].
      intros [= <-]. destruct (Hj _ eq_refl) as [-> ->]. by destruct (IH' _ eq_refl) as [-> ->]. }
    destruct (go l) as [ts|]; [|done]. intros [= <-]. by destruct (Hgo _ eq_refl) as [-> ->].
  - cbn. set (go := fix go o := match o with [] => Some [] | _ => _ end).
    set (docs := map (fun kv => (kv.1, doc_of opts kv.2)) o).
    assert (Hgo : forall ts, go o = Some ts ->
      ts = map (fun kv => (kv.1, print_doc opts kv.2)) docs /\ forallb (fun kv => doc_ok kv.2) docs = true).
    { subst docs. induction IH as [|j o Hj _ IH']; cbn; [by intros ? [= <-]|]. intros ts.
      destruct (dumps opts j.2) as [s|] eqn:E; [|done]. cbn. destruct (go o) as [ts'|]; [|done].
      intros [= <-]. destruct (Hj _ eq_refl) as [-> ->]. by destruct (IH' _ eq_refl) as [-> ->]. }
    destruct (go o) as [ts|]; [|done]. intros [= <-]. destruct (Hgo _ eq_refl) as [-> Hok].
    destruct (sort_keys opts).
    + rewrite <- sort_members_map, fmap_map, map_map. split; [done|].
      rewrite forallb_forall in Hok |- *. intros x Hx. apply Hok.
      revert Hx. rewrite <- !list_elem_of_In. by rewrite sort_members_perm.
    + by rewrite fmap_map, map_map.
Qed.

(** * Printing is injective *)

(** The text after the first element of a sequence. *)
Fixpoint more_items {A} (pr : A -> string) (close : ascii) (l : list A) (r : string) : string :=
  match l with
  | [] => String close r
  | x :: l' => String "," (pr x +:+ more_items pr close l' r)
  end.

Lemma join_items {A} (pr : A -> string) close x l r :
  join "," (map pr (x :: l)) +:+ String close r = pr x +:+ more_items pr close l r.
Proof.
  revert x. induction l as [|y l IH]; intros x; [done|].
  change (map pr (x :: y :: l)) with (pr x :: map pr (y :: l)). rewrite join_cons by done.
  rewrite !str_app_assoc, IH. done.
Qed.

Section items.
Context {A : Type} (ok : A -> bool) (pr : A -> string) (close : ascii).
Context (Hclose : close = "]"%char \/ close = "}"%char).
Context (Hstart : forall x, ok x = true -> exists c t, pr x = String c t /\ ends (String c t) = false).

Definition reads_back (x : A) : Prop := forall y r1 r2, ok x = true -> ok y = true ->
  ends r1 = true -> ends r2 = true -> pr x +:+ r1 = pr y +:+ r2 -> x = y /\ r1 = r2.

Lemma more_items_ends l r : ends (more_items pr close l r) = true.
Proof. destruct l; [|done]. by destruct Hclose as [-> | ->]. Qed.

Lemma more_items_inj l1 l2 r1 r2 : Forall reads_back l1 -> forallb ok l1 = true -> forallb ok l2 = true ->
  more_items pr close l1 r1 = more_items pr close l2 r2 -> l1 = l2 /\ r1 = r2.
Proof.
  intros HF. revert l2. induction HF as [|x l1 Hx _ IH]; intros [|y l2] H1 H2 H; cbn in *.
  - by injection H.
  - injection H as Hc _. by destruct Hclose; subst.
  - injection H as Hc _. by destruct Hclose; subst.
  - injection H as H. apply andb_prop in H1 as [Hx1 H1], H2 as [Hy2 H2].
    apply Hx in H as [-> H]; [|done|done|apply more_items_ends|apply more_items_ends].
    by destruct (IH _ H1 H2 H) as [-> ->].
Qed.

Lemma join_inj l1 l2 r1 r2 : Forall reads_back l1 -> forallb ok l1 = true -> forallb ok l2 = true ->
  join "," (map pr l1) +:+ String close r1 = join "," (map pr l2) +:+ String close r2 ->
  l1 = l2 /\ r1 = r2.
Proof.
  assert (Hstop : forall x l r s, ok x = true -> pr x +:+ more_items pr close l r <> String close s).
  { intros x l r s Hx. destruct (Hstart x Hx) as (c & t & -> & E). intros [= -> _].
    by destruct Hclose as [-> | ->]. }
  intros HF H1 H2. destruct l1 as [|x l1], l2 as [|y l2]; rewrite ?join_items; cbn in *.
  - by intros [= ->].
  - intros H. apply andb_prop in H2 as [Hy _]. by destruct (Hstop y l2 r2 r1 Hy).
  - intros H. apply andb_prop in H1 as [Hx _]. by destruct (Hstop x l1 r1 r2 Hx).
  - inversion HF as [|? ? Hx HF']; subst. apply andb_prop in H1 as [Hx1 H1], H2 as [Hy2 H2].
    intros H. apply Hx in H as [-> H]; [|done|done|apply more_items_ends|apply more_items_ends].
    by destruct (more_items_inj _ _ _ _ HF' H1 H2 H) as [-> ->].
Qed.
End items.

Section compact.
Context (opts : dump_options) (Hitem : item_separator opts = ",") (Hkey : key_separator opts = ":").

Definition kind (d : doc) : nat := match d with DAtom _ => 0 | DStr _ => 1 | DArr _ => 2 | DObj _ => 3 end.
Definition start_kind (s : string) : nat :=
  match s with
  | String c _ =>
      if bool_decide (c = dquote) then 1
      else if bool_decide (c = "["%char) then 2
      else if bool_decide (c = "{"%char) then 3 else 0
  | _ => 4
  end%nat.

Lemma print_start d r : doc_ok d = true -> start_kind (print_doc opts d +:+ r) = kind d
  /\ exists c t, print_doc opts d = String c t /\ ends (String c t) = false.
Proof.
  destruct d as [s|s|l|o]; intros Hok.
  - cbn in Hok. unfold atom_text in Hok. apply andb_prop in Hok as [He Ha].
    destruct s as [|c s]; [done|]. apply andb_prop in Ha as [Hc _]. cbn [print_doc String.append].
    assert (H : start_kind (String c (s +:+ r)) = 0%nat /\ ends (String c s) = false).
    { cbn [ends start_kind]. revert Hc. char_cases c. }
    destruct H as [H1 H2]. split; [done|]. by exists c, s.
  - split; [done|]. by eexists _, _.
  - split; [done|]. by eexists _, _.
  - split; [done|]. by eexists _, _.
Qed.

Definition member_text (kv : string * doc) : string := json_string kv.1 +:+ ":" +:+ print_doc opts kv.2.

Lemma print_inj d1 : reads_back doc_ok (print_doc opts) d1.
Proof.
  induction d1 as [a|a|l IH|o IH] using doc_rect_nested; intros d2 r1 r2 H1 H2 E1 E2 H.
  all: pose proof (f_equal start_kind H) as Hk;
    rewrite (proj1 (print_start _ r1 H1)), (proj1 (print_start _ r2 H2)) in Hk.
  all: destruct d2 as [b|b|l2|o2]; try discriminate Hk; clear Hk; cbn [print_doc] in H.
  - cbn in H1, H2. unfold atom_text in *. apply andb_prop in H1 as [_ H1], H2 as [_ H2].
    by destruct (atom_inj _ _ _ _ H1 H2 E1 E2 H) as [-> ->].
  - by destruct (json_string_inj _ _ _ _ H) as [-> ->].
  - rewrite Hitem, !str_app_assoc in H. apply (f_equal (str_drop 1)) in H. cbn [str_drop String.append] in H.
    apply (join_inj doc_ok) in H as [-> ->]; [done|by left| |done|done|done].
    intros x Hx. apply (print_start x EmptyString Hx).
  - rewrite Hitem, Hkey, !str_app_assoc in H. apply (f_equal (str_drop 1)) in H.
    cbn [str_drop String.append] in H.
    apply (join_inj (fun kv => doc_ok kv.2) member_text) in H as [-> ->]; [done|by right| | |done|done].
    + intros x _. by eexists _, _.
    + eapply Forall_impl; [exact IH|]. intros [k d] Hd [k' d'] s1 s2 K1 K2 S1 S2 K.
      unfold member_text in K. rewrite !str_app_assoc in K.
      apply json_string_inj in K as [K K']. cbn in K. subst k'. injection K' as K'.
      destruct (Hd d' s1 s2 K1 K2 S1 S2 K') as [Hdd ->]. cbn in Hdd. by subst.
Qed.

Lemma dumps_inj j1 j2 t : dumps opts j1 = Some t -> dumps opts j2 = Some t -> doc_of opts j1 = doc_of opts j2.
Proof.
  intros H1 H2. apply dumps_print in H1 as [-> K1], H2 as [H2 K2].
  apply (f_equal (fun s => s +:+ EmptyString)) in H2.
  by apply print_inj in H2 as [H2 _].
Qed.
End compact.

(** ** Reading a document back *)

Lemma doc_of_int opts n m : doc_of opts (JInt n) = doc_of opts (JInt m) -> n = m.
Proof. cbn. intros [= H]. by apply str_of_Z_inj. Qed.
