(* ===== verification/Codec.v ===== *)
(** The bounded JSON codec of the AI components, src/backend/app/ai/proposals/codec.py:
    [canonical] and the parser [bounded_json].

    A Python string is its UTF-8 encoding, so the parser works on bytes: every character
    that it looks at is ASCII. *)

From Stdlib Require Import SpecFloat.
From S2P Require Import Prelude.
From S2P Require Import PyStr.
From S2P Require Import PyUrl.
From S2P Require Import PyFloat.
From S2P Require Import PyJson.
From S2P Require Import PyJsonText.

Open Scope Z_scope.

Definition CODES : list string :=
  ["PROVIDER_DISABLED"; "CONFIG_UNAPPROVED"; "DATA_INELIGIBLE"; "SOURCE_UNAVAILABLE"; "INPUT_LIMIT"; "OUTPUT_LIMIT";
   "MALFORMED_OUTPUT"; "VERSION_UNSUPPORTED"; "REQUEST_MISMATCH"; "REFERENCE_UNAVAILABLE"; "SUGGESTION_UNSUPPORTED";
   "CONTEXT_CHANGED"; "PROVIDER_REFUSAL"; "PROVIDER_INCOMPLETE"; "TRANSPORT_DENIED"; "PROVIDER_TIMEOUT";
   "PROVIDER_FAILURE"; "CREDENTIAL_UNAVAILABLE"; "USAGE_UNKNOWN"; "USAGE_INVALID"; "BUDGET_UNAVAILABLE"; "CANCELLED";
   "AUDIT_UNAVAILABLE"].

(** [NoFuel] is not an exception of the code: it never happens ([bounded_json_bounds]). *)
Inductive codec_error : Type :=
| ProposalRejected (code : string)
| NoFuel.
#[export] Instance codec_error_eq_dec : EqDecision codec_error.
Proof. solve_decision. Defined.

(** The constructor of [ProposalRejected], and [require]. *)
Definition rejected (code : string) : codec_error :=
  ProposalRejected (if bool_decide (code ∈ CODES) then code else "PROVIDER_FAILURE").
Definition malformed : codec_error := rejected "MALFORMED_OUTPUT".
Definition codec_require (b : bool) (code : string) : result codec_error unit := guard_or b (rejected code).

(** Python converts an integer of more than 4300 digits to no text: [ValueError]. *)
Definition int_printable (n : Z) : bool := if Z.abs n <? 2 ^ 64 then true else Z.abs n <? 10 ^ 4300.
#[global] Arguments int_printable : simpl never.
Fixpoint ints_printable (j : json) : bool :=
  match j with
  | JInt n => int_printable n
  | JArr l => forallb ints_printable l
  | JObj o => forallb (fun kv => ints_printable kv.2) o
  | _ => true
  end.

(** [canonical] *)
Definition canonical_text (value : json) : result codec_error string :=
  _ ← guard_or (ints_printable value) malformed;
  require (dumps canonical value) malformed.

(** * Strings *)

(** [bytes.decode("utf-8", errors="strict")] succeeds. *)
Fixpoint utf8_valid (s : string) : bool :=
  match s with
  | EmptyString => true
  | String b0 t0 =>
      if is_ascii b0 then utf8_valid t0
      else
        match t0 with
        | EmptyString => false
        | String b1 t1 =>
            between 194 244 b0 && second_byte_ok b0 b1 &&
            if ord b0 <=? 223 then utf8_valid t1
            else
              match t1 with
              | EmptyString => false
              | String b2 t2 =>
                  is_cont b2 &&
                  if ord b0 <=? 239 then utf8_valid t2
                  else match t2 with EmptyString => false | String b3 t3 => is_cont b3 && utf8_valid t3 end
              end
        end
  end.

(** The UTF-8 encoding of a code point. *)
Definition utf8_encode (n : Z) : string :=
  if n <? 128 then str1 (chr n)
  else if n <? 2048 then String (chr (192 + n / 64)) (str1 (chr (128 + n mod 64)))
  else if n <? 65536 then
    String (chr (224 + n / 4096)) (String (chr (128 + n / 64 mod 64)) (str1 (chr (128 + n mod 64))))
  else
    String (chr (240 + n / 262144)) (String (chr (128 + n / 4096 mod 64))
      (String (chr (128 + n / 64 mod 64)) (str1 (chr (128 + n mod 64))))).

Definition hex4 (a b c d : ascii) : option Z :=
  if is_hex a && is_hex b && is_hex c && is_hex d then
    Some (((hex_value a * 16 + hex_value b) * 16 + hex_value c) * 16 + hex_value d)
  else None.
Definition is_high_surrogate (n : Z) : bool := (55296 <=? n) && (n <=? 56319).
Definition is_low_surrogate (n : Z) : bool := (56320 <=? n) && (n <=? 57343).

Definition simple_escape (c : ascii) : option ascii :=
  if bool_decide (c = dquote) || bool_decide (c = backslash) || bool_decide (c = "/"%char) then Some c
  else if bool_decide (c = "b"%char) then Some (chr 8)
  else if bool_decide (c = "f"%char) then Some (chr 12)
  else if bool_decide (c = "n"%char) then Some (chr 10)
  else if bool_decide (c = "r"%char) then Some (chr 13)
  else if bool_decide (c = "t"%char) then Some (chr 9)
  else None.

(** [scanstring(text, pos, True)] after the opening quote, and the encoding of its value,
    which fails on a lone surrogate: the value and what follows the closing quote. *)
Fixpoint scan_string (s : string) : option (string * string) :=
  match s with
  | EmptyString => None
  | String c t =>
      if bool_decide (c = dquote) then Some (EmptyString, t)
      else if ord c <? 32 then None
      else if bool_decide (c = backslash) then
        match t with
        | EmptyString => None
        | String e u =>
            if bool_decide (e = "u"%char) then
              match u with
              | String h1 (String h2 (String h3 (String h4 v))) =>
                  match hex4 h1 h2 h3 h4 with
                  | None => None
                  | Some n =>
                      if is_high_surrogate n then
                        match v with
                        | String b1 (String b2 (String l1 (String l2 (String l3 (String l4 w))))) =>
                            match hex4 l1 l2 l3 l4 with
                            | Some m =>
                                if bool_decide (b1 = backslash) && bool_decide (b2 = "u"%char) && is_low_surrogate m then
                                  '(value, rest) ← scan_string w;
                                  Some (utf8_encode (65536 + (n - 55296) * 1024 + (m - 56320)) +:+ value, rest)
                                else None
                            | None => None
                            end
                        | _ => None
                        end
                      else if is_low_surrogate n then None
                      else '(value, rest) ← scan_string v; Some (utf8_encode n +:+ value, rest)
                  end
              | _ => None
              end
            else
              match simple_escape e with
              | None => None
              | Some d => '(value, rest) ← scan_string u; Some (String d value, rest)
              end
        end
      else '(value, rest) ← scan_string t; Some (String c value, rest)
  end.

(** * Numbers *)

(** The longest prefix of characters of a class, and the rest. *)
Fixpoint span (p : ascii -> bool) (s : string) : string * string :=
  match s with
  | EmptyString => (EmptyString, EmptyString)
  | String c t => if p c then let '(a, b) := span p t in (String c a, b) else (EmptyString, s)
  end.

(** The match of the number pattern: sign, integer digits, digits after the point, exponent
    letter with its sign, exponent digits. *)
Record number_token := mkToken {
  token_sign : string;
  token_int : string;
  token_frac : string;
  token_exp : string;
  token_exp_digits : string
}.
Definition token_text (n : number_token) : string :=
  token_sign n +:+ token_int n +:+ (if is_empty (token_frac n) then EmptyString else String "." (token_frac n))
  +:+ token_exp n +:+ token_exp_digits n.

Definition take_sign (s : string) : string * string :=
  match s with String c t => if bool_decide (c = "-"%char) then (str1 c, t) else (EmptyString, s) | _ => (EmptyString, s) end.
Definition take_int (s : string) : option (string * string) :=
  match s with
  | String c t => if bool_decide (c = "0"%char) then Some (str1 c, t) else if is_digit c then Some (span is_digit s) else None
  | EmptyString => None
  end.
Definition take_frac (s : string) : string * string :=
  match s with
  | String c t =>
      if bool_decide (c = "."%char) then
        let '(digits, r) := span is_digit t in if is_empty digits then (EmptyString, s) else (digits, r)
      else (EmptyString, s)
  | EmptyString => (EmptyString, s)
  end.
Definition take_exp (s : string) : string * string * string :=
  match s with
  | String c t =>
      if bool_decide (c = "e"%char) || bool_decide (c = "E"%char) then
        let '(sign, t1) := match t with
                           | String d u => if bool_decide (d = "-"%char) || bool_decide (d = "+"%char) then (str1 d, u)
                                           else (EmptyString, t)
                           | EmptyString => (EmptyString, t)
                           end in
        let '(digits, r) := span is_digit t1 in
        if is_empty digits then (EmptyString, EmptyString, s) else (String c sign, digits, r)
      else (EmptyString, EmptyString, s)
  | EmptyString => (EmptyString, EmptyString, s)
  end.
Definition take_number (s : string) : option (number_token * string) :=
  let '(sign, s1) := take_sign s in
  '(digits, s2) ← take_int s1;
  let '(frac, s3) := take_frac s2 in
  let '(exp, exp_digits, s4) := take_exp s3 in
  Some (mkToken sign digits frac exp exp_digits, s4).

(** [float(token)], correctly rounded; [None] is an infinity. The token has at most 64
    characters, so beyond the two exponents it overflows and vanishes. *)
Definition float_of_token (n : number_token) : option float :=
  let neg := negb (is_empty (token_sign n)) in
  let mantissa := parse_nat (token_int n +:+ token_frac n) in
  let exponent := (if contains_char "-" (token_exp n) then -1 else 1) * parse_nat (token_exp_digits n)
                  - byte_len (token_frac n) in
  let f := if mantissa =? 0 then S754_zero neg
           else if 400 <? exponent then S754_infinity neg
           else if exponent <? -500 then S754_zero neg
           else float_of_decimal neg mantissa exponent in
  if isfinite f then Some f else None.

Definition number_value (n : number_token) : result codec_error json :=
  _ ← codec_require (byte_len (token_text n) <=? 64) "MALFORMED_OUTPUT";
  if is_empty (token_frac n) && is_empty (token_exp n) then
    Ok (JInt ((if is_empty (token_sign n) then 1 else -1) * parse_nat (token_int n)))
  else
    f ← require (float_of_token n) malformed;
    Ok (JFloat f).

(** * The parser *)

Definition is_json_space (c : ascii) : bool :=
  bool_decide (c = chr 32) || bool_decide (c = chr 9) || bool_decide (c = chr 13) || bool_decide (c = chr 10).
Definition whitespace (s : string) : string := lstrip_by is_json_space s.

(** [string()] *)
Definition parse_string (s : string) : result codec_error (string * string) :=
  match s with
  | String c t => if bool_decide (c = dquote) then require (scan_string t) malformed else Raise malformed
  | EmptyString => Raise malformed
  end.

(** The literals and the numbers. *)
Definition parse_scalar (s : string) : result codec_error (json * string) :=
  if startswith "true" s then Ok (JBool true, str_drop 4 s)
  else if startswith "false" s then Ok (JBool false, str_drop 5 s)
  else if startswith "null" s then Ok (JNull, str_drop 4 s)
  else
    '(token, r) ← require (take_number s) malformed;
    v ← number_value token;
    Ok (v, r).

(** The character that separates two elements or closes them. *)
Definition separator (close : ascii) (s : string) : result codec_error (bool * string) :=
  match s with
  | String c t => if bool_decide (c = close) then Ok (true, t)
                  else if bool_decide (c = ","%char) then Ok (false, t) else Raise malformed
  | EmptyString => Raise malformed
  end.

Section parser.
Variable depth nodes : Z.
Variable limit_code : string.

(** [value(level)], the loop over the members of an object and the one over the items of an
    array; [count] is the number of values seen, threaded with the rest of the text. *)
Fixpoint parse_value (fuel : nat) (level count : Z) (s : string) : result codec_error (json * string * Z) :=
  match fuel with
  | O => Raise NoFuel
  | S fuel' =>
      _ ← codec_require ((level <=? depth) && (count + 1 <=? nodes)) limit_code;
      match whitespace s with
      | EmptyString => Raise malformed
      | String c t as s1 =>
          if bool_decide (c = dquote) then
            '(v, r) ← parse_string s1; Ok (JStr v, r, count + 1)
          else if bool_decide (c = "{"%char) then
            match whitespace t with
            | String "}" r => Ok (JObj [], r, count + 1)
            | s2 => '(o, r, count') ← parse_members fuel' level (count + 1) s2 []; Ok (JObj o, r, count')
            end
          else if bool_decide (c = "["%char) then
            match whitespace t with
            | String "]" r => Ok (JArr [], r, count + 1)
            | s2 => '(l, r, count') ← parse_items fuel' level (count + 1) s2 []; Ok (JArr l, r, count')
            end
          else '(v, r) ← parse_scalar s1; Ok (v, r, count + 1)
      end
  end
with parse_members (fuel : nat) (level count : Z) (s : string) (obj : list (string * json))
    : result codec_error (list (string * json) * string * Z) :=
  match fuel with
  | O => Raise NoFuel
  | S fuel' =>
      '(key, s1) ← parse_string (whitespace s);
      _ ← codec_require (negb (bool_decide (key ∈ obj.*1))) "MALFORMED_OUTPUT";
      match whitespace s1 with
      | String ":" s2 =>
          '(v, s3, count') ← parse_value fuel' (level + 1) count s2;
          '(closed, s4) ← separator "}" (whitespace s3);
          if closed : bool then Ok (obj ++ [(key, v)], s4, count')
          else parse_members fuel' level count' s4 (obj ++ [(key, v)])
      | _ => Raise malformed
      end
  end
with parse_items (fuel : nat) (level count : Z) (s : string) (items : list json)
    : result codec_error (list json * string * Z) :=
  match fuel with
  | O => Raise NoFuel
  | S fuel' =>
      '(v, s1, count') ← parse_value fuel' (level + 1) count (whitespace s);
      '(closed, s2) ← separator "]" (whitespace s1);
      if closed : bool then Ok (items ++ [v], s2, count') else parse_items fuel' level count' s2 (items ++ [v])
  end.

(** Enough for any text: a call that does not consume a character calls one that does. *)
Definition parse_fuel (s : string) : nat := 2 * String.length s + 2.
End parser.

(** [bounded_json] *)
Definition bounded_json (raw : string) (maximum depth nodes : Z) (limit_code : string)
    : result codec_error (list (string * json)) :=
  _ ← codec_require (byte_len raw <=? maximum) limit_code;
  _ ← codec_require (utf8_valid raw) "MALFORMED_OUTPUT";
  '(v, rest, _) ← parse_value depth nodes limit_code (parse_fuel raw) 0 0 raw;
  match v with
  | JObj o => _ ← codec_require (is_empty (whitespace rest)) "MALFORMED_OUTPUT"; Ok o
  | _ => Raise malformed
  end.

(** * The checks on decoded values *)

Definition same_names (a b : list string) : bool := forallb (fun k => bool_decide (k ∈ b)) a && forallb (fun k => bool_decide (k ∈ a)) b.
(** [fields]; the names are already split. *)
Definition fields (value : json) (names : list string) : result codec_error unit :=
  codec_require (match value with JObj o => same_names o.*1 names | _ => false end) "MALFORMED_OUTPUT".
Definition choice (value : json) (choices : list string) (code : string) : result codec_error unit :=
  codec_require (match value with JStr s => bool_decide (s ∈ choices) | _ => false end) code.
Definition array (value : json) (maximum minimum : Z) : result codec_error unit :=
  codec_require (match value with JArr l => (minimum <=? Z.of_nat (length l)) && (Z.of_nat (length l) <=? maximum) | _ => false end)
    "MALFORMED_OUTPUT".
Definition str_of (v : json) : option string := match v with JStr s => Some s | _ => None end.
Definition unique_strings (value : json) (maximum minimum : Z) : result codec_error unit :=
  _ ← array value maximum minimum;
  let l := match value with JArr l => l | _ => [] end in
  _ ← codec_require (forallb (fun v => negb (is_none (str_of v))) l) "MALFORMED_OUTPUT";
  codec_require (bool_decide (NoDup (omap str_of l))) "MALFORMED_OUTPUT".

(** * Lemmas *)

(** ** Lengths *)

Lemma whitespace_length s : (String.length (whitespace s) <= String.length s)%nat.
Proof. unfold whitespace. induction s as [|c s IH]; cbn; [done|]. destruct (is_json_space c); cbn; lia. Qed.
Lemma str_drop_length n s : (String.length (str_drop n s) = String.length s - n)%nat.
Proof. revert s. induction n as [|n IH]; intros [|c s]; cbn; try lia. apply IH. Qed.
Lemma span_length p s a b : span p s = (a, b) -> (String.length s = String.length a + String.length b)%nat.
Proof.
  revert a b. induction s as [|c s IH]; intros a b; cbn; [by intros [= <- <-]|].
  destruct (p c); [|by intros [= <- <-]]. destruct (span p s) as [a' b']. intros [= <- <-]. cbn. by rewrite (IH a' b').
Qed.

Lemma scan_string_length s v r : scan_string s = Some (v, r) -> (String.length r < String.length s)%nat.
Proof.
  revert v r. induction s as [s IH] using (induction_ltof1 _ String.length); unfold ltof in IH. intros v r.
  destruct s as [|c t]; [done|]. cbn [scan_string]. case_bool_decide; [intros [= <- <-]; cbn; lia|].
  destruct (ord c <? 32); [done|]. case_bool_decide.
  - destruct t as [|e u]; [done|]. case_bool_decide.
    + destruct u as [|h1 [|h2 [|h3 [|h4 v4]]]]; try done. destruct (hex4 h1 h2 h3 h4) as [n|]; [|done].
      destruct (is_high_surrogate n).
      * destruct v4 as [|b1 [|b2 [|l1 [|l2 [|l3 [|l4 w]]]]]]; try done. destruct (hex4 l1 l2 l3 l4); [|done].
        destruct (_ && _); [|done]. intros ([v' r'] & Hs & [= <- <-])%bind_Some. apply IH in Hs; cbn in *; lia.
      * destruct (is_low_surrogate n); [done|]. intros ([v' r'] & Hs & [= <- <-])%bind_Some. apply IH in Hs; cbn in *; lia.
    + destruct (simple_escape e); [|done]. intros ([v' r'] & Hs & [= <- <-])%bind_Some. apply IH in Hs; cbn in *; lia.
  - intros ([v' r'] & Hs & [= <- <-])%bind_Some. apply IH in Hs; cbn in *; lia.
Qed.

Lemma take_int_length s d r : take_int s = Some (d, r) -> (String.length r < String.length s)%nat.
Proof.
  destruct s as [|c t]; [done|]. cbn [take_int]. case_bool_decide; [intros [= <- <-]; cbn; lia|].
  destruct (is_digit c) eqn:E; [|done]. intros [= Hs]. cbn [span] in Hs. rewrite E in Hs.
  destruct (span is_digit t) as [a b] eqn:Es. injection Hs as <- <-. apply span_length in Es. cbn. lia.
Qed.
Lemma take_number_length s n r : take_number s = Some (n, r) -> (String.length r < String.length s)%nat.
Proof.
  unfold take_number. destruct (take_sign s) as [sign s1] eqn:E1. intros ([d s2] & H2%take_int_length & H)%bind_Some.
  assert (String.length s1 <= String.length s)%nat.
  { destruct s as [|c t]; cbn in E1; [by simplify_eq|]. case_bool_decide; simplify_eq; cbn; lia. }
  destruct (take_frac s2) as [f s3] eqn:E3.
  assert (String.length s3 <= String.length s2)%nat.
  { destruct s2 as [|c t]; cbn in E3; [by simplify_eq|]. case_bool_decide; [|by simplify_eq].
    destruct (span is_digit t) as [a b] eqn:Es. apply span_length in Es. destruct (is_empty a); simplify_eq; cbn; lia. }
  destruct (take_exp s3) as [[e ed] s4] eqn:E4.
  enough (String.length s4 <= String.length s3)%nat by (injection H as <- <-; lia).
  destruct s3 as [|c t]; cbn in E4; [by simplify_eq|]. destruct (_ || _); [|by simplify_eq].
  assert (Ht : forall t1 (sign' : string), (String.length t1 <= String.length t)%nat ->
    (let '(digits, r0) := span is_digit t1 in
     if is_empty digits then (EmptyString, EmptyString, String c t) else (String c sign', digits, r0)) = (e, ed, s4) ->
    (String.length s4 <= String.length (String c t))%nat).
  { intros t1 sign' Hle. destruct (span is_digit t1) as [a b] eqn:Es. apply span_length in Es.
    destruct (is_empty a); intros Heq; simplify_eq; cbn; lia. }
  destruct t as [|d' u]; [exact (Ht EmptyString EmptyString (le_n _) E4)|].
  destruct (_ || _); [apply (Ht u (str1 d')) | apply (Ht (String d' u) EmptyString)]; try exact E4; cbn; lia.
Qed.

Lemma parse_string_length s v r : parse_string s = Ok (v, r) -> (String.length r < String.length s)%nat.
Proof.
  destruct s as [|c t]; [done|]. cbn. case_bool_decide; [|done]. destruct (scan_string t) as [[v' r']|] eqn:E; [|done].
  intros [= <- <-]. apply scan_string_length in E. lia.
Qed.
Lemma startswith_length p s : startswith p s = true -> (String.length p <= String.length s)%nat.
Proof. intros [t ->]%startswith_app. rewrite str_length_app. lia. Qed.
Lemma parse_scalar_length s v r : parse_scalar s = Ok (v, r) -> (String.length r < String.length s)%nat.
Proof.
  unfold parse_scalar. assert (Hlit : forall p w, startswith p s = true -> (1 <= String.length p)%nat ->
    Ok (w, str_drop (String.length p) s) = (Ok (v, r) : result codec_error _) -> (String.length r < String.length s)%nat).
  { intros p w Hp%startswith_length H1 [= _ <-]. rewrite str_drop_length. lia. }
  destruct (startswith "true" s) eqn:E1; [apply (Hlit _ (JBool true) E1); cbn; lia|].
  destruct (startswith "false" s) eqn:E2; [apply (Hlit _ (JBool false) E2); cbn; lia|].
  destruct (startswith "null" s) eqn:E3; [apply (Hlit _ JNull E3); cbn; lia|].
  intros ([n r'] & Hn & H)%bind_ok. apply bind_ok in H as (v' & _ & [= <- <-]).
  destruct (take_number s) as [[n' r'']|] eqn:E'; [|done]. injection Hn as <- <-. by apply take_number_length in E'.
Qed.
Lemma separator_length c s b r : separator c s = Ok (b, r) -> (String.length r < String.length s)%nat.
Proof. destruct s as [|d t]; [done|]. cbn. repeat case_bool_decide; try done; intros [= <- <-]; lia. Qed.

(** ** What the parser returns *)

(** No infinity and no NaN. *)
Fixpoint json_finite (j : json) : bool :=
  match j with
  | JFloat f => isfinite f
  | JArr l => forallb json_finite l
  | JObj o => forallb (fun kv => json_finite kv.2) o
  | _ => true
  end.

Definition sizes (l : list json) : Z := Z.of_nat (sum_list_with json_size l).
Lemma json_size_arr l : Z.of_nat (json_size (JArr l)) = 1 + sizes l.
Proof.
  unfold sizes. cbn [json_size]. rewrite Nat2Z.inj_succ. enough (H : fold_right (fun x n => (json_size x + n)%nat) 0%nat l = sum_list_with json_size l) by lia.
  by induction l as [|x l IH]; cbn; [|rewrite IH].
Qed.
Lemma json_size_obj o : Z.of_nat (json_size (JObj o)) = 1 + sizes o.*2.
Proof.
  unfold sizes. cbn [json_size]. rewrite Nat2Z.inj_succ. enough (H : fold_right (fun kv n => (json_size kv.2 + n)%nat) 0%nat o = sum_list_with json_size o.*2) by lia.
  by induction o as [|x o IH]; cbn; [|rewrite IH].
Qed.
Lemma sizes_app a b : sizes (a ++ b) = sizes a + sizes b.
Proof. unfold sizes. rewrite sum_list_with_app. lia. Qed.
Lemma sizes_one v : sizes [v] = Z.of_nat (json_size v).
Proof. unfold sizes. cbn. lia. Qed.
Lemma json_size_pos v : 1 <= Z.of_nat (json_size v).
Proof. destruct v; cbn; lia. Qed.

Lemma max_depth_le (l : list json) m : (fold_right (fun x n => Nat.max (json_depth x) n) 0%nat l <= m)%nat <->
  Forall (fun v => (json_depth v <= m)%nat) l.
Proof. induction l as [|x l IH]; cbn; [split; [constructor | lia]|]. by rewrite Nat.max_lub_iff, Forall_cons, IH. Qed.
Lemma json_depth_arr l level bound : 0 <= level <= bound -> Forall (fun v => level + Z.of_nat (json_depth v) <= bound) l ->
  level + Z.of_nat (json_depth (JArr l)) <= bound + 1.
Proof.
  intros Hb H. enough (json_depth (JArr l) <= S (Z.to_nat (bound - level)))%nat by lia. cbn [json_depth].
  apply le_n_S, max_depth_le. eapply Forall_impl; [exact H|]. cbn. lia.
Qed.
Lemma json_depth_obj o : json_depth (JObj o) = json_depth (JArr o.*2).
Proof. cbn. f_equal. by induction o as [|x o IH]; cbn; [|rewrite IH]. Qed.

Section soundness.
Variable depth nodes : Z.
Variable limit_code : string.

Definition codec_failure (e : codec_error) : Prop := e = malformed \/ e = rejected limit_code.
Definition element_ok (level : Z) (v : json) : Prop :=
  level + Z.of_nat (json_depth v) <= depth + 1 /\ json_wf v = true /\ json_finite v = true.

Definition value_sound (level count : Z) (s : string) (res : result codec_error (json * string * Z)) : Prop :=
  match res with
  | Ok (v, r, c) => (String.length r < String.length s)%nat /\ c = count + Z.of_nat (json_size v) /\ c <= nodes /\ element_ok level v
  | Raise e => codec_failure e
  end.
Definition items_sound (level count : Z) (s : string) (items : list json)
    (res : result codec_error (list json * string * Z)) : Prop :=
  match res with
  | Ok (l, r, c) => (String.length r < String.length s)%nat /\ exists l', l = items ++ l' /\ c = count + sizes l' /\ c <= nodes /\
      Forall (element_ok (level + 1)) l'
  | Raise e => codec_failure e
  end.
Definition members_sound (level count : Z) (s : string) (obj : list (string * json))
    (res : result codec_error (list (string * json) * string * Z)) : Prop :=
  match res with
  | Ok (o, r, c) => (String.length r < String.length s)%nat /\ exists o', o = obj ++ o' /\ c = count + sizes o'.*2 /\ c <= nodes /\
      Forall (element_ok (level + 1)) o'.*2 /\ (NoDup obj.*1 -> NoDup o.*1)
  | Raise e => codec_failure e
  end.

Lemma parse_string_failure s e : parse_string s = Raise e -> e = malformed.
Proof. destruct s as [|c t]; cbn; [by intros [= <-]|]. case_bool_decide; [|by intros [= <-]]. destruct (scan_string t); [done | by intros [= <-]]. Qed.
Lemma separator_failure c s e : separator c s = Raise e -> e = malformed.
Proof. destruct s as [|d t]; cbn; [by intros [= <-]|]. repeat case_bool_decide; try done; by intros [= <-]. Qed.
Lemma parse_scalar_sound s : match parse_scalar s with
  | Ok (v, r) => json_size v = 1%nat /\ json_depth v = 1%nat /\ json_wf v = true /\ json_finite v = true
  | Raise e => e = malformed
  end.
Proof.
  unfold parse_scalar. repeat (case_if; [done|]). destruct (take_number s) as [[n r]|]; [|done]. cbn [require mbind result_bind].
  unfold number_value, codec_require. destruct (guard_or _ _) eqn:Eg; cbn [mbind result_bind].
  2: { unfold guard_or in Eg. case_if_in Eg; [done|]. by injection Eg as <-. }
  case_if; [done|]. destruct (float_of_token n) as [f|] eqn:Ef; cbn [require mbind result_bind]; [|done].
  unfold float_of_token in Ef. case_if_in Ef; [|done]. injection Ef as <-. by split_and!.
Qed.

Lemma guard_cases {E A} (b : bool) (e : E) (f : unit -> result E A) : (guard_or b e ≫= f) = if b then f tt else Raise e.
Proof. by destruct b. Qed.

(** One step of each loop. *)
Lemma parse_members_S fuel level count s obj :
  parse_members depth nodes limit_code (S fuel) level count s obj =
    ('(key, s1) ← parse_string (whitespace s);
     _ ← codec_require (negb (bool_decide (key ∈ obj.*1))) "MALFORMED_OUTPUT";
     match whitespace s1 with
     | String ":" s2 =>
         '(v, s3, count') ← parse_value depth nodes limit_code fuel (level + 1) count s2;
         '(closed, s4) ← separator "}" (whitespace s3);
         if closed : bool then Ok (obj ++ [(key, v)], s4, count')
         else parse_members depth nodes limit_code fuel level count' s4 (obj ++ [(key, v)])
     | _ => Raise malformed
     end).
Proof. done. Qed.
Lemma parse_items_S fuel level count s items :
  parse_items depth nodes limit_code (S fuel) level count s items =
    ('(v, s1, count') ← parse_value depth nodes limit_code fuel (level + 1) count (whitespace s);
     '(closed, s2) ← separator "]" (whitespace s1);
     if closed : bool then Ok (items ++ [v], s2, count')
     else parse_items depth nodes limit_code fuel level count' s2 (items ++ [v])).
Proof. done. Qed.

Lemma parse_value_S fuel level count s :
  parse_value depth nodes limit_code (S fuel) level count s =
    (_ ← codec_require ((level <=? depth) && (count + 1 <=? nodes)) limit_code;
     match whitespace s with
     | EmptyString => Raise malformed
     | String c t as s1 =>
         if bool_decide (c = dquote) then '(v, r) ← parse_string s1; Ok (JStr v, r, count + 1)
         else if bool_decide (c = "{"%char) then
           match whitespace t with
           | String "}" r => Ok (JObj [], r, count + 1)
           | s2 => '(o, r, count') ← parse_members depth nodes limit_code fuel level (count + 1) s2 []; Ok (JObj o, r, count')
           end
         else if bool_decide (c = "["%char) then
           match whitespace t with
           | String "]" r => Ok (JArr [], r, count + 1)
           | s2 => '(l, r, count') ← parse_items depth nodes limit_code fuel level (count + 1) s2 []; Ok (JArr l, r, count')
           end
         else '(v, r) ← parse_scalar s1; Ok (v, r, count + 1)
     end).
Proof. done. Qed.

Lemma parser_sound fuel :
  (forall level count s, (2 * String.length s + 1 <= fuel)%nat -> 0 <= level ->
     value_sound level count s (parse_value depth nodes limit_code fuel level count s)) /\
  (forall level count s obj, (2 * String.length s + 2 <= fuel)%nat -> 0 <= level ->
     members_sound level count s obj (parse_members depth nodes limit_code fuel level count s obj)) /\
  (forall level count s items, (2 * String.length s + 2 <= fuel)%nat -> 0 <= level ->
     items_sound level count s items (parse_items depth nodes limit_code fuel level count s items)).
Proof.
  induction fuel as [|fuel (IHv & IHm & IHi)]; [split_and!; intros; lia|]. split_and!.
  - intros level count s Hf Hl. cbn [parse_value]. unfold codec_require. rewrite guard_cases.
    destruct ((level <=? depth) && (count + 1 <=? nodes)) eqn:Hg; [|by right]. bool_simpl.
    pose proof (whitespace_length s) as Hw. destruct (whitespace s) as [|c t] eqn:Hs; [by left|].
    cbn [String.length] in Hw.
    assert (Hscalar : forall v r, (String.length r < String.length (String c t))%nat -> json_size v = 1%nat -> json_depth v = 1%nat ->
      json_wf v = true -> json_finite v = true -> value_sound level count s (Ok (v, r, count + 1))).
    { intros v r Hr H1 H2 H3 H4. unfold value_sound, element_ok. rewrite H1, H2. cbn [String.length] in Hr. split_and!; try done; lia. }
    destruct (bool_decide (c = dquote)).
    { destruct (parse_string (String c t)) as [[v r]|e] eqn:E; cbn [mbind result_bind].
      - apply parse_string_length in E. by apply Hscalar.
      - left. by eapply parse_string_failure. }
    pose proof (whitespace_length t) as Hwt.
    destruct (bool_decide (c = "{"%char)).
    { assert (Hobj : forall s2, (String.length s2 <= String.length t)%nat -> value_sound level count s
        ('(o, r, count') ← parse_members depth nodes limit_code fuel level (count + 1) s2 []; Ok (JObj o, r, count'))).
      { intros s2 H2. specialize (IHm level (count + 1) s2 [] ltac:(lia) Hl). unfold members_sound in IHm.
        destruct (parse_members _ _ _ _ _ _ _ _) as [[[o r] c']|e]; cbn [mbind result_bind]; [|done].
        destruct IHm as (Hr & o' & -> & -> & Hn & Ho & Hnd). cbn [app] in *. unfold value_sound, element_ok.
        rewrite json_size_obj, json_depth_obj. split_and!; [lia..| | |].
        - rewrite Forall_forall in Ho. apply json_depth_arr; [lia|]. apply Forall_forall. intros v Hv. specialize (Ho v Hv).
          unfold element_ok in Ho. lia.
        - cbn. rewrite bool_decide_eq_true_2 by (apply Hnd; constructor). apply forallb_forall. intros kv Hkv%list_elem_of_In.
          rewrite Forall_fmap, Forall_forall in Ho. apply (Ho kv Hkv).
        - cbn. apply forallb_forall. intros kv Hkv%list_elem_of_In. rewrite Forall_fmap, Forall_forall in Ho. apply (Ho kv Hkv). }
      destruct (whitespace t) as [|d u] eqn:Et; [by apply Hobj|].
      assert (Hd : value_sound level count s (Ok (JObj [], u, count + 1))) by (apply Hscalar; cbn in *; [lia|done..]).
      destruct d as [[] [] [] [] [] [] [] []]; try (by apply Hobj); exact Hd. }
    destruct (bool_decide (c = "["%char)).
    { assert (Harr : forall s2, (String.length s2 <= String.length t)%nat -> value_sound level count s
        ('(l, r, count') ← parse_items depth nodes limit_code fuel level (count + 1) s2 []; Ok (JArr l, r, count'))).
      { intros s2 H2. specialize (IHi level (count + 1) s2 [] ltac:(lia) Hl). unfold items_sound in IHi.
        destruct (parse_items _ _ _ _ _ _ _ _) as [[[l r] c']|e]; cbn [mbind result_bind]; [|done].
        destruct IHi as (Hr & l' & -> & -> & Hn & Ho). cbn [app] in *. unfold value_sound, element_ok.
        rewrite json_size_arr. rewrite Forall_forall in Ho. split_and!; [lia..| | |].
        - apply json_depth_arr; [lia|]. apply Forall_forall. intros v Hv. specialize (Ho v Hv). unfold element_ok in Ho. lia.
        - cbn. apply forallb_forall. intros v Hv%list_elem_of_In. apply (Ho v Hv).
        - cbn. apply forallb_forall. intros v Hv%list_elem_of_In. apply (Ho v Hv). }
      destruct (whitespace t) as [|d u] eqn:Et; [by apply Harr|].
      assert (Hd : value_sound level count s (Ok (JArr [], u, count + 1))) by (apply Hscalar; cbn in *; [lia|done..]).
      destruct d as [[] [] [] [] [] [] [] []]; try (by apply Harr); exact Hd. }
    pose proof (parse_scalar_sound (String c t)) as Hsc. destruct (parse_scalar (String c t)) as [[v r]|e] eqn:E; cbn [mbind result_bind].
    + apply parse_scalar_length in E. destruct Hsc as (H1 & H2 & H3 & H4). by apply Hscalar.
    + left. exact Hsc.
  - intros level count s obj Hf Hl. rewrite parse_members_S. pose proof (whitespace_length s) as Hw.
    destruct (parse_string (whitespace s)) as [[key s1]|e] eqn:Ek; cbn [mbind result_bind]; [|left; by eapply parse_string_failure].
    apply parse_string_length in Ek. unfold codec_require. rewrite guard_cases. destruct (negb _) eqn:Hnew; [|by left]. bool_simpl.
    pose proof (whitespace_length s1) as Hw1. destruct (whitespace s1) as [|d s2] eqn:E1; [by left|]. cbn [String.length] in Hw1.
    assert (Hrest : members_sound level count s obj
      ('(v, s3, count') ← parse_value depth nodes limit_code fuel (level + 1) count s2;
       '(closed, s4) ← separator "}" (whitespace s3);
       if closed : bool then Ok (obj ++ [(key, v)], s4, count')
       else parse_members depth nodes limit_code fuel level count' s4 (obj ++ [(key, v)]))).
    { specialize (IHv (level + 1) count s2 ltac:(lia) ltac:(lia)). destruct (parse_value _ _ _ _ _ _ _) as [[[v s3] c']|e]; cbn [mbind result_bind]; [|exact IHv].
      destruct IHv as (Hr & -> & Hn & Hv). pose proof (whitespace_length s3).
      destruct (separator _ _) as [[[] s4]|e] eqn:Es; cbn [mbind result_bind]; [| |left; by eapply separator_failure].
      - apply separator_length in Es. split; [lia|]. exists [(key, v)]. cbn [fmap list_fmap snd]. rewrite sizes_one. split_and!; [done|lia|lia|by constructor|].
        rewrite fmap_app. intros Hnd. apply NoDup_app. split_and!; [done | | by repeat constructor; apply not_elem_of_nil].
        intros k Hk ->%list_elem_of_singleton. done.
      - apply separator_length in Es. specialize (IHm level (count + Z.of_nat (json_size v)) s4 (obj ++ [(key, v)]) ltac:(lia) Hl).
        unfold members_sound in *. destruct (parse_members _ _ _ _ _ _ _ _) as [[[o r] c']|e]; [|exact IHm].
        destruct IHm as (Hr' & o' & -> & -> & Hn' & Ho & Hnd). split; [lia|]. exists ((key, v) :: o'). rewrite <- app_assoc. cbn [app fmap list_fmap snd].
        change (v :: o'.*2) with ([v] ++ o'.*2). rewrite sizes_app, sizes_one. split_and!; [done|lia|lia|by constructor|].
        intros H0. rewrite <- app_assoc in Hnd. apply Hnd. rewrite fmap_app. apply NoDup_app. split_and!; [done | | by repeat constructor; apply not_elem_of_nil].
        intros k Hk ->%list_elem_of_singleton. done. }
    destruct d as [[] [] [] [] [] [] [] []]; try (by left); exact Hrest.
  - intros level count s items Hf Hl. rewrite parse_items_S. pose proof (whitespace_length s) as Hw.
    specialize (IHv (level + 1) count (whitespace s) ltac:(lia) ltac:(lia)).
    destruct (parse_value _ _ _ _ _ _ _) as [[[v s1] c']|e]; cbn [mbind result_bind]; [|exact IHv].
    destruct IHv as (Hr & -> & Hn & Hv). pose proof (whitespace_length s1).
    destruct (separator _ _) as [[[] s2]|e] eqn:Es; cbn [mbind result_bind]; [| |left; by eapply separator_failure].
    + apply separator_length in Es. split; [lia|]. exists [v]. rewrite sizes_one. split_and!; [done|lia|lia|by constructor].
    + apply separator_length in Es. specialize (IHi level (count + Z.of_nat (json_size v)) s2 (items ++ [v]) ltac:(lia) Hl).
      unfold items_sound in *. destruct (parse_items _ _ _ _ _ _ _ _) as [[[l r] c']|e]; [|exact IHi].
      destruct IHi as (Hr' & l' & -> & -> & Hn' & Ho). split; [lia|]. exists (v :: l'). rewrite <- app_assoc. cbn [app].
      change (v :: l') with ([v] ++ l'). rewrite sizes_app, sizes_one. split_and!; [done|lia|lia|by constructor].
Qed.
End soundness.

(** ** Reading back what was written *)

(** The value that the canonical text denotes: members in the order of their keys. *)
Fixpoint sort_json (j : json) : json :=
  match j with
  | JArr l => JArr (map sort_json l)
  | JObj o => JObj (sort_members (map (fun kv => (kv.1, sort_json kv.2)) o))
  | _ => j
  end.

(** The values whose text the parser gives back as they are: no floats, and integers of at
    most 64 characters. *)
Fixpoint codec_exact (j : json) : bool :=
  match j with
  | JFloat _ => false
  | JInt n => byte_len (str_of_Z n) <=? 64
  | JArr l => forallb codec_exact l
  | JObj o => forallb (fun kv => codec_exact kv.2) o
  | _ => true
  end.

Definition plain : dump_options := mkDump false "," ":" false.
Definition text (j : json) : string := print_doc plain (doc_of plain j).

Lemma doc_of_sorted j : doc_of canonical j = doc_of plain (sort_json j).
Proof.
  induction j as [| | | | |l IH|o IH] using json_rect_nested; try done; cbn.
  - f_equal. rewrite map_map. induction IH as [|x l Hx _ IHl]; cbn; [done|]. by rewrite Hx, IHl.
  - f_equal. rewrite (sort_members_map (doc_of plain)), map_map. f_equal.
    induction IH as [|x o Hx _ IHo]; cbn; [done|]. by rewrite Hx, IHo.
Qed.
Lemma canonical_is_text j t : dumps canonical j = Some t -> t = text (sort_json j).
Proof. intros H. apply dumps_print in H as [-> _]. unfold text. by rewrite doc_of_sorted. Qed.

Lemma span_app p a r : str_forall p a = true -> match r with String c _ => p c = false | EmptyString => True end ->
  span p (a +:+ r) = (a, r).
Proof.
  intros Ha Hr. induction a as [|c a IH]; cbn in *.
  - destruct r as [|d r]; cbn; [done|]. by rewrite Hr.
  - apply andb_prop in Ha as [-> Ha]. by rewrite IH.
Qed.

(** The decimal of a positive number has no leading zero. *)
Lemma decimal_aux_head fuel n acc : 0 < n < 10 ^ Z.of_nat fuel -> exists c t, decimal_aux fuel n acc = String c t /\ between 49 57 c = true.
Proof.
  revert n acc. induction fuel as [|f IH]; intros n acc Hn; [change (10 ^ Z.of_nat 0) with 1 in Hn; lia|]. cbn [decimal_aux].
  destruct (n <? 10) eqn:E; bool_simpl.
  - eexists _, _. split; [done|]. rewrite Z.mod_small by lia. unfold between. rewrite ord_chr by lia. apply andb_true_intro. split; lia.
  - apply IH. rewrite Nat2Z.inj_succ, Z.pow_succ_r in Hn by lia.
    split; [apply Z.div_str_pos; lia | apply Z.div_lt_upper_bound; lia].
Qed.
Lemma str_of_Z_head n : 0 < n -> exists c t, str_of_Z n = String c t /\ between 49 57 c = true.
Proof.
  intros Hn. unfold str_of_Z. rewrite (proj2 (Z.ltb_ge n 0)) by lia. apply decimal_aux_head. split; [done|]. apply (fuel_enough 10); lia.
Qed.

Definition stops (r : string) : Prop := match r with String c _ => c = ","%char \/ c = "]"%char \/ c = "}"%char | EmptyString => True end.

Lemma take_int_app n r : 0 <= n -> stops r -> take_int (str_of_Z n +:+ r) = Some (str_of_Z n, r).
Proof.
  intros Hn Hr. destruct (Z.eq_dec n 0) as [->|Hne]; [done|].
  destruct (str_of_Z_head n ltac:(lia)) as (c & t & Hs & Hc). pose proof (decimal_digits n Hn) as Hd.
  assert (Hstop : match r with String c _ => is_digit c = false | EmptyString => True end).
  { destruct r as [|d r]; [done|]. by destruct Hr as [->|[->| ->]]. }
  pose proof (span_app is_digit (str_of_Z n) r Hd Hstop) as Hspan. rewrite Hs in *. cbn [String.append] in *. cbn [take_int].
  rewrite bool_decide_eq_false_2 by (intros ->; done). cbn in Hd. apply andb_prop in Hd as [-> _]. by rewrite Hspan.
Qed.

Lemma take_number_int n r : stops r -> take_number (str_of_Z n +:+ r) =
  Some (mkToken (if n <? 0 then "-" else "") (str_of_Z (Z.abs n)) "" "" "", r).
Proof.
  intros Hr. assert (Hfrac : take_frac r = (EmptyString, r)) by (destruct r as [|d r]; [done|]; by destruct Hr as [->|[->| ->]]).
  assert (Hexp : take_exp r = (EmptyString, EmptyString, r)) by (destruct r as [|d r]; [done|]; by destruct Hr as [->|[->| ->]]).
  unfold take_number. destruct (Z.ltb_spec n 0) as [Hn|Hn].
  - rewrite str_of_Z_neg by done. cbn [String.append take_sign]. rewrite bool_decide_eq_true_2 by done.
    rewrite take_int_app by (done || lia). cbn [mbind option_bind]. rewrite Hfrac, Hexp. by rewrite Z.abs_neq by lia.
  - assert (Hs : take_sign (str_of_Z n +:+ r) = (EmptyString, str_of_Z n +:+ r)).
    { destruct (Z.eq_dec n 0) as [->|Hne]; [done|]. destruct (str_of_Z_head n ltac:(lia)) as (c & t & -> & Hc). cbn.
      by rewrite bool_decide_eq_false_2 by (intros ->; done). }
    rewrite Hs, take_int_app by done. cbn [mbind option_bind]. rewrite Hfrac, Hexp. by rewrite Z.abs_eq by lia.
Qed.

Lemma str_of_Z_token n : token_text (mkToken (if n <? 0 then "-" else "") (str_of_Z (Z.abs n)) "" "" "") = str_of_Z n.
Proof.
  unfold token_text. cbn. rewrite !str_app_nil_r. destruct (Z.ltb_spec n 0) as [Hn|Hn].
  - rewrite Z.abs_neq by lia. by rewrite (str_of_Z_neg n).
  - by rewrite Z.abs_eq.
Qed.

(** The first character of a value. *)
Lemma int_text_start n : exists c t, str_of_Z n = String c t /\ (c = "-"%char \/ is_digit c = true).
Proof.
  destruct (Z.lt_ge_cases n 0) as [Hn|Hn].
  - rewrite str_of_Z_neg by done. eexists _, _. split; [done | by left].
  - pose proof (decimal_digits n Hn) as Hd. pose proof (str_of_Z_nonempty n) as He. destruct (str_of_Z n) as [|c t]; [done|].
    exists c, t. split; [done|]. right. cbn in Hd. by apply andb_prop in Hd as [-> _].
Qed.
Lemma parse_scalar_int n r : byte_len (str_of_Z n) <= 64 -> stops r -> parse_scalar (str_of_Z n +:+ r) = Ok (JInt n, r).
Proof.
  intros Hlen Hr. unfold parse_scalar. rewrite (take_number_int n r Hr). cbn [require mbind result_bind].
  assert (Hlit : forall c p, startswith (String c p) (str_of_Z n +:+ r) = true -> c = "-"%char \/ is_digit c = true).
  { intros c p [t Ht]%startswith_app. destruct (int_text_start n) as (c' & t' & Hs & Hc). rewrite Hs in Ht. by injection Ht as <- _. }
  destruct (startswith "true" _) eqn:E1; [by apply Hlit in E1 as [?|?]|].
  destruct (startswith "false" _) eqn:E2; [by apply Hlit in E2 as [?|?]|].
  destruct (startswith "null" _) eqn:E3; [by apply Hlit in E3 as [?|?]|].
  unfold number_value, codec_require. rewrite str_of_Z_token, (proj2 (Z.leb_le _ _) Hlen). cbn [guard_or mbind result_bind is_empty token_frac token_exp token_sign token_int andb].
  rewrite decimal_roundtrip by lia. do 3 f_equal. destruct (Z.ltb_spec n 0); cbn; lia.
Qed.

(** The three shapes of an escaped character, and what the scanner does with each. *)
Definition escape_shape (c : ascii) : bool :=
  match escape_char c with
  | String d EmptyString => bool_decide (d = c) && negb (bool_decide (c = dquote)) && negb (ord c <? 32) && negb (bool_decide (c = backslash))
  | String b (String e EmptyString) =>
      bool_decide (b = backslash) && negb (bool_decide (e = "u"%char)) && bool_decide (simple_escape e = Some c)
  | String b (String u (String h1 (String h2 (String h3 (String h4 EmptyString))))) =>
      bool_decide (b = backslash) && bool_decide (u = "u"%char) && bool_decide (hex4 h1 h2 h3 h4 = Some (ord c)) &&
      negb (is_high_surrogate (ord c)) && negb (is_low_surrogate (ord c)) && bool_decide (utf8_encode (ord c) = str1 c)
  | _ => false
  end.
Lemma escape_shape_ok c : escape_shape c = true.
Proof. char_cases c. Qed.

Lemma scan_string_char c t : scan_string (escape_char c +:+ t) = ('(v, r) ← scan_string t; Some (String c v, r)).
Proof.
  pose proof (escape_shape_ok c) as H. unfold escape_shape in H.
  destruct (escape_char c) as [|b [|e [|h1 [|h2 [|h3 [|h4 [|? ?]]]]]]]; try done; bool_simpl; cbn [String.append scan_string].
  - subst. rewrite (bool_decide_eq_false_2 (c = dquote)), (bool_decide_eq_false_2 (c = backslash)) by done.
    by rewrite (proj2 (Z.ltb_ge _ _)).
  - subst. rewrite (bool_decide_eq_false_2 (e = _)) by done. by rewrite H0.
  - subst. rewrite H3, H2, H1, H0. done.
Qed.
Lemma scan_string_escape s r : scan_string (escape s +:+ String dquote r) = Some (s, r).
Proof. induction s as [|c s IH]; [done|]. cbn [escape]. by rewrite str_app_assoc, scan_string_char, IH. Qed.
Lemma parse_string_json s r : parse_string (json_string s +:+ r) = Ok (s, r).
Proof. unfold json_string. cbn [String.append parse_string]. rewrite bool_decide_eq_true_2 by done. rewrite str_app_assoc. cbn [str1 String.append]. by rewrite scan_string_escape. Qed.

(** The first character of a text of a value: neither a space nor one that closes or separates. *)
Definition starts (s : string) : Prop :=
  exists c t, s = String c t /\ is_json_space c = false /\ c <> ","%char /\ c <> "]"%char /\ c <> "}"%char /\ c <> ":"%char.
Lemma starts_char c t : negb (is_json_space c || existsb (fun d => bool_decide (c = d)) [","%char; "]"%char; "}"%char; ":"%char]) = true ->
  starts (String c t).
Proof.
  intros H. bool_simpl. cbn in H0. exists c, t. split_and!; try done; intros ->; done.
Qed.
Lemma text_starts j : codec_exact j = true -> starts (text j).
Proof.
  destruct j as [|b|n|f|s|l|o]; intros He; try done; try (by apply starts_char).
  - destruct b; by apply starts_char.
  - change (text (JInt n)) with (str_of_Z n). destruct (int_text_start n) as (c & t & -> & [-> | Hc]); apply starts_char; [done|].
    revert Hc. char_cases c.
Qed.
Lemma whitespace_starts s r : starts s -> whitespace (s +:+ r) = s +:+ r.
Proof. intros (c & t & -> & Hc & _). unfold whitespace. cbn. by rewrite Hc. Qed.
Lemma starts_nonempty s : starts s -> (1 <= String.length s)%nat.
Proof. intros (c & t & -> & _). cbn. lia. Qed.
Lemma whitespace_stop c r : is_json_space c = false -> whitespace (String c r) = String c r.
Proof. intros H. unfold whitespace. cbn. by rewrite H. Qed.
Lemma starts_app s r : starts s -> exists c t, s +:+ r = String c t /\ is_json_space c = false /\ c <> "]"%char.
Proof. intros (c & t & -> & Hc & _ & Hb & _). by exists c, (t +:+ r). Qed.

Definition member_print (kv : string * json) : string := json_string kv.1 +:+ ":" +:+ text kv.2.

Lemma text_arr x l r : text (JArr (x :: l)) +:+ r = String "[" (text x +:+ more_items text "]" l r).
Proof.
  rewrite <- join_items, <- (str_app_nil_r (String _ _)). unfold text at 1. cbn [doc_of print_doc]. rewrite map_map, !str_app_assoc. by rewrite str_app_nil_r.
Qed.
Lemma text_obj x o r : text (JObj (x :: o)) +:+ r = String "{" (member_print x +:+ more_items member_print "}" o r).
Proof.
  rewrite <- join_items, <- (str_app_nil_r (String _ _)). unfold text at 1. cbn [doc_of print_doc sort_keys plain]. rewrite map_map, !str_app_assoc. by rewrite str_app_nil_r.
Qed.
Lemma more_items_stops {A} (pr : A -> string) c l r : c = "]"%char \/ c = "}"%char -> stops (more_items pr c l r).
Proof. destruct l; cbn; intuition. Qed.

Section printing.
Variable depth nodes : Z.
Variable limit_code : string.

Definition fits (level : Z) (v : json) : Prop := level + Z.of_nat (json_depth v) <= depth + 1.
Definition parses (j : json) : Prop := forall fuel level count r, stops r -> (2 * String.length (text j +:+ r) + 1 <= fuel)%nat ->
  fits level j -> count + Z.of_nat (json_size j) <= nodes ->
  parse_value depth nodes limit_code fuel level count (text j +:+ r) = Ok (j, r, count + Z.of_nat (json_size j)).

Lemma separator_more {A} (pr : A -> string) close l r : close = "]"%char \/ close = "}"%char ->
  separator close (whitespace (more_items pr close l r)) =
  Ok (match l with [] => (true, r) | x :: l' => (false, pr x +:+ more_items pr close l' r) end).
Proof. intros [-> | ->]; by destruct l. Qed.

Lemma parse_items_text x l : Forall (fun v => parses v /\ codec_exact v = true) (x :: l) ->
  forall fuel level count items r, (2 * String.length (text x +:+ more_items text "]" l r) + 2 <= fuel)%nat ->
    Forall (fits (level + 1)) (x :: l) -> count + sizes (x :: l) <= nodes ->
    parse_items depth nodes limit_code fuel level count (text x +:+ more_items text "]" l r) items =
      Ok (items ++ x :: l, r, count + sizes (x :: l)).
Proof.
  intros HF. remember (x :: l) as l0 eqn:Hl0. revert x l Hl0.
  induction HF as [|x0 l0 [Hx Hex] HF IH]; intros x l [= -> ->] fuel level count items r Hf Hd Hs.
  destruct fuel as [|fuel]; [lia|]. rewrite parse_items_S, whitespace_starts by by apply text_starts.
  change (x :: l) with ([x] ++ l) in Hs |- *. rewrite sizes_app, sizes_one in Hs |- *.
  apply Forall_cons in Hd as [Hdx Hd]. assert (Hpos : 0 <= sizes l) by (unfold sizes; lia).
  rewrite Hx by (done || lia || by apply more_items_stops; left). cbn [mbind result_bind]. rewrite separator_more by by left. cbn [mbind result_bind].
  destruct l as [|y l]; [by rewrite Z.add_0_r|]. pose proof (starts_nonempty _ (text_starts x Hex)).
  cbn [more_items] in Hf. rewrite str_length_app in Hf. cbn [String.length] in Hf.
  rewrite (IH y l eq_refl) by (done || lia). by rewrite <- app_assoc, Z.add_assoc.
Qed.

Lemma parse_members_text x o : Forall (fun kv => parses kv.2 /\ codec_exact kv.2 = true) (x :: o) ->
  forall fuel level count obj r, (2 * String.length (member_print x +:+ more_items member_print "}" o r) + 2 <= fuel)%nat ->
    Forall (fun kv => fits (level + 1) kv.2) (x :: o) -> count + sizes (x :: o).*2 <= nodes -> NoDup (obj ++ x :: o).*1 ->
    parse_members depth nodes limit_code fuel level count (member_print x +:+ more_items member_print "}" o r) obj =
      Ok (obj ++ x :: o, r, count + sizes (x :: o).*2).
Proof.
  intros HF. remember (x :: o) as o0 eqn:Ho0. revert x o Ho0.
  induction HF as [|x0 o0 [Hx Hex] HF IH]; intros [k v] o [= -> ->] fuel level count obj r Hf Hd Hs Hnd.
  destruct fuel as [|fuel]; [lia|]. rewrite parse_members_S. unfold member_print at 1 in Hf. unfold member_print at 1. cbn [fst snd] in *.
  rewrite !str_app_assoc in Hf |- *. rewrite (whitespace_starts (json_string k)) by by apply starts_char.
  rewrite parse_string_json. cbn [mbind result_bind]. unfold codec_require. rewrite guard_cases.
  rewrite bool_decide_eq_false_2.
  2: { rewrite fmap_app in Hnd. apply NoDup_app in Hnd as (_ & Hnd & _). intros Hk. apply (Hnd k Hk). left. }
  cbn [negb String.append]. rewrite whitespace_stop by done.
  change ((k, v) :: o) with ([(k, v)] ++ o) in *. rewrite fmap_app in *. cbn [fmap list_fmap snd] in *. rewrite sizes_app, sizes_one in *.
  apply Forall_cons in Hd as [Hdx Hd]. assert (Hpos : 0 <= sizes o.*2) by (unfold sizes; lia).
  rewrite str_length_app in Hf. cbn [String.append String.length] in Hf.
  rewrite Hx by (done || lia || by apply more_items_stops; right). cbn [mbind result_bind].
  rewrite separator_more by by right. cbn [mbind result_bind].
  destruct o as [|y o]; [by rewrite Z.add_0_r|]. cbn [more_items] in Hf. rewrite str_length_app in Hf. cbn [String.length] in Hf.
  rewrite (IH y o eq_refl); [by rewrite <- app_assoc, Z.add_assoc | lia | done | lia |].
  rewrite <- app_assoc. exact Hnd.
Qed.

Lemma fits_items level l : fits level (JArr l) -> Forall (fits (level + 1)) l.
Proof.
  unfold fits. intros H. assert (Hm : (json_depth (JArr l) <= S (Nat.pred (json_depth (JArr l))))%nat) by lia.
  cbn [json_depth] in Hm. apply le_S_n, max_depth_le in Hm. eapply Forall_impl; [exact Hm|]. cbn [json_depth Nat.pred] in *. lia.
Qed.
Lemma level_guard level count v : fits level v -> count + Z.of_nat (json_size v) <= nodes ->
  (level <=? depth) && (count + 1 <=? nodes) = true.
Proof.
  unfold fits. pose proof (json_size_pos v). assert (1 <= Z.of_nat (json_depth v)) by (destruct v; cbn; lia).
  intros. apply andb_true_intro. split; lia.
Qed.

Lemma parse_text j : codec_exact j = true -> json_wf j = true -> parses j.
Proof.
  induction j as [|b|n|f|s|l IH|o IH] using json_rect_nested; intros He Hw fuel level count r Hr Hf Hd Hs;
    (destruct fuel as [|fuel]; [lia|]); rewrite parse_value_S, whitespace_starts by by apply text_starts.
  all: unfold codec_require; rewrite guard_cases, (level_guard _ _ _ Hd Hs).
  - cbn [text print_doc doc_of plain String.append]. rewrite !bool_decide_eq_false_2 by done. by destruct r.
  - destruct b; cbn [text print_doc doc_of plain str_bool String.append]; rewrite !bool_decide_eq_false_2 by done; by destruct r.
  - pose proof (parse_scalar_int n r (proj1 (Z.leb_le _ _) He) Hr) as Hp. change (text (JInt n)) with (str_of_Z n).
    destruct (int_text_start n) as (c & t & Hs0 & Hc). rewrite Hs0 in *. cbn [String.append] in *.
    rewrite !bool_decide_eq_false_2 by (intros ->; by destruct Hc). by rewrite Hp.
  - done.
  - change (text (JStr s)) with (json_string s). pose proof (parse_string_json s r) as Hp. unfold json_string in *.
    cbn [String.append] in *. rewrite bool_decide_eq_true_2 by done. by rewrite Hp.
  - destruct l as [|x l]; [done|]. rewrite json_size_arr in Hs |- *. rewrite text_arr in Hf |- *. cbn [String.length] in Hf.
    rewrite bool_decide_eq_false_2, bool_decide_eq_false_2, bool_decide_eq_true_2 by done.
    assert (HF : Forall (fun v => parses v /\ codec_exact v = true) (x :: l)).
    { cbn [codec_exact json_wf] in He, Hw. rewrite forallb_forall in He, Hw. rewrite Forall_forall in IH |- *. intros v Hv.
      apply list_elem_of_In in Hv as Hin. split; [apply IH; auto | auto]. }
    pose proof (parse_items_text x l HF fuel level (count + 1) [] r ltac:(lia)) as Hp.
    rewrite Z.add_assoc in Hs |- *. specialize (Hp (fits_items _ _ Hd) Hs).
    apply Forall_cons in HF as [[_ Hex] _]. rewrite whitespace_starts by by apply text_starts.
    destruct (starts_app (text x) (more_items text "]" l r) (text_starts x Hex)) as (c & t & Hc & _ & Hne). rewrite Hc in Hp |- *.
    destruct c as [[] [] [] [] [] [] [] []]; try done; by rewrite Hp.
  - destruct o as [|x o]; [done|]. rewrite json_size_obj in Hs |- *. rewrite text_obj in Hf |- *. cbn [String.length] in Hf.
    rewrite bool_decide_eq_false_2, bool_decide_eq_true_2 by done.
    cbn [json_wf] in Hw. apply andb_prop in Hw as [Hnd Hw]. bool_simpl.
    assert (HF : Forall (fun kv => parses kv.2 /\ codec_exact kv.2 = true) (x :: o)).
    { cbn [codec_exact] in He. rewrite forallb_forall in He, Hw. rewrite Forall_forall in IH |- *. intros v Hv.
      apply list_elem_of_In in Hv as Hin. split; [apply IH; auto | auto]. }
    unfold fits in Hd. rewrite json_depth_obj in Hd.
    pose proof (parse_members_text x o HF fuel level (count + 1) [] r ltac:(lia)) as Hp.
    rewrite Z.add_assoc in Hs |- *. specialize (Hp (proj1 (Forall_fmap _ _ _) (fits_items _ _ Hd)) Hs Hnd).
    rewrite whitespace_starts by by apply starts_char.
    destruct (member_print x +:+ more_items member_print "}" o r) as [|c t] eqn:Hc; [done|].
    assert (Hne : c <> "}"%char) by (injection Hc as <- _; done). destruct c as [[] [] [] [] [] [] [] []]; try done; by rewrite Hp.
Qed.
End printing.

(** ** UTF-8 *)

(** Every string of a value, keys included, is the encoding of a text: so is every Python
    string that [encode] accepts. *)
Fixpoint json_utf8 (j : json) : bool :=
  match j with
  | JStr s => utf8_valid s
  | JArr l => forallb json_utf8 l
  | JObj o => forallb (fun kv => utf8_valid kv.1 && json_utf8 kv.2) o
  | _ => true
  end.

Lemma utf8_app a b : utf8_valid a = true -> utf8_valid (a +:+ b) = utf8_valid b.
Proof.
  induction a as [a IH] using (induction_ltof1 _ String.length); unfold ltof in IH. destruct a as [|c0 t0]; [done|].
  cbn [utf8_valid String.append]. destruct (is_ascii c0); [by apply IH; cbn; lia|]. destruct t0 as [|c1 t1]; [done|]. cbn [String.append].
  intros [-> H]%andb_prop. cbn [andb]. destruct (ord c0 <=? 223); [by apply IH; [cbn; lia|]|].
  destruct t1 as [|c2 t2]; [done|]. cbn [String.append]. apply andb_prop in H as [-> H]. cbn [andb].
  destruct (ord c0 <=? 239); [by apply IH; [cbn; lia|]|].
  destruct t2 as [|c3 t3]; [done|]. cbn [String.append]. apply andb_prop in H as [-> H]. cbn [andb]. by apply IH; [cbn; lia|].
Qed.
Lemma utf8_valid_app a b : utf8_valid a = true -> utf8_valid b = true -> utf8_valid (a +:+ b) = true.
Proof. intros Ha Hb. by rewrite utf8_app. Qed.
Lemma utf8_ascii a : str_forall is_ascii a = true -> utf8_valid a = true.
Proof. induction a as [|c a IH]; cbn; [done|]. intros [-> H]%andb_prop. by apply IH. Qed.

Lemma escape_char_ascii c t : is_ascii c = true -> utf8_valid (escape_char c +:+ t) = utf8_valid t.
Proof. intros H. apply utf8_app. revert H. char_cases c. Qed.
Lemma escape_char_plain c : is_ascii c = false -> escape_char c = str1 c.
Proof. char_cases c. Qed.
Lemma cont_plain c : is_cont c = true -> escape_char c = str1 c.
Proof. intros H. apply escape_char_plain. revert H. char_cases c. Qed.
Lemma second_cont b0 b1 : second_byte_ok b0 b1 = true -> is_cont b1 = true.
Proof. unfold second_byte_ok, is_cont, between. repeat case_if; intros; bool_simpl; try done; apply andb_true_intro; split; lia. Qed.
Lemma utf8_escape s r : utf8_valid s = true -> utf8_valid (escape s +:+ r) = utf8_valid r.
Proof.
  induction s as [s IH] using (induction_ltof1 _ String.length); unfold ltof in IH. destruct s as [|c0 t0]; [done|].
  cbn [utf8_valid escape]. rewrite str_app_assoc. destruct (is_ascii c0) eqn:E0.
  { rewrite escape_char_ascii by done. by apply IH; cbn; lia. }
  destruct t0 as [|c1 t1]; [done|]. intros [[H0 H1]%andb_prop H]%andb_prop. rewrite escape_char_plain by done.
  cbn [escape]. rewrite (cont_plain c1) by by eapply second_cont. cbn [str1 String.append utf8_valid]. rewrite E0, H0, H1. cbn [andb].
  destruct (ord c0 <=? 223); [by apply IH; [cbn; lia|]|].
  destruct t1 as [|c2 t2]; [done|]. apply andb_prop in H as [H2 H]. cbn [escape]. rewrite (cont_plain c2) by done.
  cbn [str1 String.append]. rewrite H2. cbn [andb]. destruct (ord c0 <=? 239); [by apply IH; [cbn; lia|]|].
  destruct t2 as [|c3 t3]; [done|]. apply andb_prop in H as [H3 H]. cbn [escape]. rewrite (cont_plain c3) by done.
  cbn [str1 String.append]. rewrite H3. cbn [andb]. by apply IH; [cbn; lia|].
Qed.
Lemma utf8_json_string s : utf8_valid s = true -> utf8_valid (json_string s) = true.
Proof. intros H. unfold json_string. cbn. by rewrite utf8_escape. Qed.
Lemma utf8_str_of_Z n : utf8_valid (str_of_Z n) = true.
Proof.
  assert (H : forall s, str_forall is_digit s = true -> utf8_valid s = true).
  { intros s. induction s as [|c s IH]; cbn; [done|]. intros [Hc Hs]%andb_prop.
    replace (is_ascii c) with true; [by apply IH|]. revert Hc. char_cases c. }
  destruct (Z.lt_ge_cases n 0); [rewrite str_of_Z_neg by done; cbn|]; apply H, decimal_digits; lia.
Qed.
Lemma utf8_join {A} (pr : A -> string) l : Forall (fun x => utf8_valid (pr x) = true) l -> utf8_valid (join "," (map pr l)) = true.
Proof.
  induction 1 as [|x l Hx Hl IH]; [done|]. destruct l as [|y l]; [done|]. change (map pr (x :: y :: l)) with (pr x :: map pr (y :: l)).
  rewrite join_cons by done. apply utf8_valid_app; [done|]. exact IH.
Qed.
Lemma text_utf8 j : codec_exact j = true -> json_utf8 j = true -> utf8_valid (text j) = true.
Proof.
  induction j as [|b|n|f|s|l IH|o IH] using json_rect_nested; intros He Hu; try done.
  - by destruct b.
  - apply utf8_str_of_Z.
  - by apply utf8_json_string.
  - unfold text. cbn [doc_of print_doc]. rewrite map_map. cbn [String.append utf8_valid]. apply utf8_valid_app; [|done]. apply utf8_join.
    cbn in He, Hu. rewrite forallb_forall in He, Hu. rewrite Forall_forall in IH |- *. intros v Hv. apply list_elem_of_In in Hv as Hin. apply IH; auto.
  - unfold text. cbn [doc_of print_doc sort_keys plain]. rewrite map_map. cbn [String.append utf8_valid fst snd]. apply utf8_valid_app; [|done]. apply utf8_join.
    cbn in He, Hu. rewrite forallb_forall in He, Hu. rewrite Forall_forall in IH |- *. intros v Hv. apply list_elem_of_In in Hv as Hin.
    pose proof (Hu _ Hin) as [Hk Hv']%andb_prop. apply utf8_valid_app; [by apply utf8_json_string|]. cbn. apply IH; auto.
Qed.

(** ** Sorting the members keeps everything else *)

Lemma sorted_members o : (sort_members (map (fun kv => (kv.1, sort_json kv.2)) o)) ≡ₚ map (fun kv => (kv.1, sort_json kv.2)) o.
Proof. apply sort_members_perm. Qed.
Lemma sorted_forallb (p : string * json -> bool) o :
  Forall (fun kv => p kv = true -> p (kv.1, sort_json kv.2) = true) o -> forallb p o = true ->
  forallb p (sort_members (map (fun kv => (kv.1, sort_json kv.2)) o)) = true.
Proof.
  rewrite Forall_forall, !forallb_forall. intros H Hp x Hx%list_elem_of_In. rewrite sorted_members in Hx.
  apply list_elem_of_In, in_map_iff in Hx as (kv & <- & Hkv). apply H; [by apply list_elem_of_In | auto].
Qed.
Lemma map_forallb (p : json -> bool) l : Forall (fun v => p v = true -> p (sort_json v) = true) l -> forallb p l = true ->
  forallb p (map sort_json l) = true.
Proof. induction 1 as [|v l Hv _ IH]; cbn; [done|]. intros [H1 H2]%andb_prop. by rewrite Hv, IH. Qed.

Lemma sort_json_exact j : codec_exact j = true -> codec_exact (sort_json j) = true.
Proof.
  induction j as [| | | | |l IH|o IH] using json_rect_nested; try done; cbn; [by apply map_forallb|].
  apply (sorted_forallb (fun kv => codec_exact kv.2)). eapply Forall_impl; [exact IH|]. done.
Qed.
Lemma sort_json_utf8 j : json_utf8 j = true -> json_utf8 (sort_json j) = true.
Proof.
  induction j as [| | | | |l IH|o IH] using json_rect_nested; try done; cbn; [by apply map_forallb|].
  apply (sorted_forallb (fun kv => utf8_valid kv.1 && json_utf8 kv.2)). eapply Forall_impl; [exact IH|]. cbn.
  intros kv H [-> Hv]%andb_prop. by apply H.
Qed.
Lemma sort_json_wf j : json_wf j = true -> json_wf (sort_json j) = true.
Proof.
  induction j as [| | | | |l IH|o IH] using json_rect_nested; try done; cbn; [by apply map_forallb|].
  intros [Hnd Hv]%andb_prop. apply andb_true_intro. split.
  - apply bool_decide_eq_true in Hnd. apply bool_decide_eq_true_2. rewrite sorted_members, fmap_map, map_map. exact Hnd.
  - apply (sorted_forallb (fun kv => json_wf kv.2)); [|done]. eapply Forall_impl; [exact IH|]. done.
Qed.

#[export] Instance sizes_perm : Proper ((≡ₚ) ==> eq) sizes.
Proof. intros l l' H. unfold sizes. by rewrite H. Qed.
Lemma sizes_map l : Forall (fun v => json_size (sort_json v) = json_size v) l -> sizes (map sort_json l) = sizes l.
Proof. unfold sizes. induction 1 as [|v l Hv _ IH]; cbn; [done|]. lia. Qed.
Lemma sorted_values o : (sort_members (map (fun kv => (kv.1, sort_json kv.2)) o)).*2 ≡ₚ map sort_json o.*2.
Proof. by rewrite sorted_members, !fmap_map, !map_map. Qed.
Lemma sort_json_size j : json_size (sort_json j) = json_size j.
Proof.
  induction j as [| | | | |l IH|o IH] using json_rect_nested; try done; apply Nat2Z.inj; cbn [sort_json].
  - by rewrite !json_size_arr, sizes_map.
  - rewrite !json_size_obj, sorted_values, sizes_map; [done|]. by apply Forall_fmap.
Qed.
Lemma json_depth_le l m : (json_depth (JArr l) <= S m)%nat <-> Forall (fun v => (json_depth v <= m)%nat) l.
Proof. cbn [json_depth]. rewrite <- Nat.succ_le_mono. apply max_depth_le. Qed.
Lemma json_depth_values l l' : l' ≡ₚ map sort_json l -> Forall (fun v => (json_depth (sort_json v) <= json_depth v)%nat) l ->
  (json_depth (JArr l') <= json_depth (JArr l))%nat.
Proof.
  intros Hl H. assert (Hd : exists m, json_depth (JArr l) = S m) by (by eexists). destruct Hd as [m Hm]. rewrite Hm. apply json_depth_le.
  rewrite Hl. assert (Hl' : Forall (fun v => (json_depth v <= m)%nat) l) by (apply json_depth_le; lia). apply Forall_map.
  rewrite Forall_forall in *. intros v Hv. cbn. etrans; [by apply H | auto].
Qed.
Lemma sort_json_depth j : (json_depth (sort_json j) <= json_depth j)%nat.
Proof.
  induction j as [| | | | |l IH|o IH] using json_rect_nested; try done; cbn [sort_json].
  - by apply json_depth_values.
  - rewrite !json_depth_obj. apply json_depth_values; [apply sorted_values | by apply Forall_fmap].
Qed.

(** * What the codec promises *)

Definition decoded_ok (raw : string) (maximum depth nodes : Z) (limit_code : string) (res : result codec_error (list (string * json))) : Prop :=
  match res with
  | Ok o => byte_len raw <= maximum /\ Z.of_nat (json_depth (JObj o)) <= depth + 1 /\ Z.of_nat (json_size (JObj o)) <= nodes /\
      json_wf (JObj o) = true /\ json_finite (JObj o) = true
  | Raise e => e = ProposalRejected "MALFORMED_OUTPUT" \/ e = rejected limit_code
  end.
Lemma bounded_json_sound raw maximum depth nodes limit_code :
  decoded_ok raw maximum depth nodes limit_code (bounded_json raw maximum depth nodes limit_code).
Proof.
  unfold bounded_json, codec_require, decoded_ok. rewrite !guard_cases. destruct (byte_len raw <=? maximum) eqn:Hm; [|by right].
  destruct (utf8_valid raw); [|by left]. pose proof (proj1 (parser_sound depth nodes limit_code (parse_fuel raw)) 0 0 raw) as H.
  unfold value_sound, parse_fuel in *. specialize (H ltac:(lia) ltac:(lia)).
  destruct (parse_value _ _ _ _ _ _ _) as [[[v r] c]|e]; cbn [mbind result_bind]; [|exact H].
  destruct H as (Hr & Hc & Hn & Hd & Hwf & Hfin). destruct v; try (by left). rewrite guard_cases. case_if; [|by left].
  bool_simpl. split_and!; (done || lia).
Qed.

Lemma codec_reads_back o raw maximum depth nodes limit_code :
  canonical_text (JObj o) = Ok raw -> json_wf (JObj o) = true -> codec_exact (JObj o) = true -> json_utf8 (JObj o) = true ->
  byte_len raw <= maximum -> Z.of_nat (json_depth (JObj o)) <= depth + 1 -> Z.of_nat (json_size (JObj o)) <= nodes ->
  exists o', sort_json (JObj o) = JObj o' /\ bounded_json raw maximum depth nodes limit_code = Ok o'.
Proof.
  intros Hraw Hwf Hex Hu Hm Hd Hn. unfold canonical_text in Hraw. rewrite guard_cases in Hraw.
  destruct (ints_printable _); [|done]. destruct (dumps canonical (JObj o)) as [t|] eqn:Ht; [|done].
  injection Hraw as <-. apply canonical_is_text in Ht as ->. eexists. split; [reflexivity|].
  pose proof (sort_json_size (JObj o)) as Hsize. pose proof (sort_json_depth (JObj o)) as Hdepth.
  pose proof (text_utf8 _ (sort_json_exact _ Hex) (sort_json_utf8 _ Hu)) as Hvalid.
  pose proof (parse_text depth nodes limit_code _ (sort_json_exact _ Hex) (sort_json_wf _ Hwf)) as Hp.
  cbn [sort_json] in *. unfold bounded_json, codec_require. rewrite !guard_cases, (proj2 (Z.leb_le _ _) Hm), Hvalid.
  unfold parses, fits in Hp. specialize (Hp (parse_fuel (text (JObj (sort_members (map (fun kv => (kv.1, sort_json kv.2)) o))))) 0 0 EmptyString).
  rewrite str_app_nil_r in Hp. unfold parse_fuel in *. rewrite Hp by (done || lia). done.
Qed.

(** ** Wider limits *)

Section wider.
Variables depth nodes depth' nodes' : Z.
Variables limit_code limit_code' : string.
Hypothesis (Hdepth : depth <= depth') (Hnodes : nodes <= nodes').

Lemma parser_wider fuel :
  (forall level count s x, parse_value depth nodes limit_code fuel level count s = Ok x ->
     parse_value depth' nodes' limit_code' fuel level count s = Ok x) /\
  (forall level count s obj x, parse_members depth nodes limit_code fuel level count s obj = Ok x ->
     parse_members depth' nodes' limit_code' fuel level count s obj = Ok x) /\
  (forall level count s l x, parse_items depth nodes limit_code fuel level count s l = Ok x ->
     parse_items depth' nodes' limit_code' fuel level count s l = Ok x).
Proof.
  induction fuel as [|fuel (IHv & IHm & IHi)]; [done|]. split_and!.
  - intros level count s x. rewrite !parse_value_S. unfold codec_require. rewrite !guard_cases.
    destruct ((level <=? depth) && (count + 1 <=? nodes)) eqn:Hg; [|done]. bool_simpl.
    replace ((level <=? depth') && (count + 1 <=? nodes')) with true by (symmetry; apply andb_true_intro; split; lia).
    destruct (whitespace s) as [|c t]; [done|]. destruct (bool_decide (c = dquote)); [done|].
    destruct (bool_decide (c = "{"%char)).
    { assert (Hstep : forall s2, ('(o, r, count') ← parse_members depth nodes limit_code fuel level (count + 1) s2 []; Ok (JObj o, r, count')) = Ok x ->
        ('(o, r, count') ← parse_members depth' nodes' limit_code' fuel level (count + 1) s2 []; Ok (JObj o, r, count')) = Ok x).
      { intros s2 ([[o r] c'] & Ho & Hk)%bind_ok. by rewrite (IHm _ _ _ _ _ Ho). }
      destruct (whitespace t) as [|d u]; [apply Hstep|]. destruct d as [[] [] [] [] [] [] [] []]; (apply Hstep || done). }
    destruct (bool_decide (c = "["%char)); [|done].
    assert (Hstep : forall s2, ('(l, r, count') ← parse_items depth nodes limit_code fuel level (count + 1) s2 []; Ok (JArr l, r, count')) = Ok x ->
      ('(l, r, count') ← parse_items depth' nodes' limit_code' fuel level (count + 1) s2 []; Ok (JArr l, r, count')) = Ok x).
    { intros s2 ([[l r] c'] & Ho & Hk)%bind_ok. by rewrite (IHi _ _ _ _ _ Ho). }
    destruct (whitespace t) as [|d u]; [apply Hstep|]. destruct d as [[] [] [] [] [] [] [] []]; (apply Hstep || done).
  - intros level count s obj x. rewrite !parse_members_S. destruct (parse_string (whitespace s)) as [[key s1]|]; [|done]. cbn [mbind result_bind].
    unfold codec_require. rewrite !guard_cases. destruct (negb _); [|done]. destruct (whitespace s1) as [|d s2]; [done|].
    assert (H : ('(v, s3, count') ← parse_value depth nodes limit_code fuel (level + 1) count s2;
       '(closed, s4) ← separator "}" (whitespace s3);
       if closed : bool then Ok (obj ++ [(key, v)], s4, count') else parse_members depth nodes limit_code fuel level count' s4 (obj ++ [(key, v)])) = Ok x ->
      ('(v, s3, count') ← parse_value depth' nodes' limit_code' fuel (level + 1) count s2;
       '(closed, s4) ← separator "}" (whitespace s3);
       if closed : bool then Ok (obj ++ [(key, v)], s4, count') else parse_members depth' nodes' limit_code' fuel level count' s4 (obj ++ [(key, v)])) = Ok x).
    { intros ([[v s3] c'] & Hv & H)%bind_ok. rewrite (IHv _ _ _ _ Hv). cbn [mbind result_bind] in *.
      destruct (separator _ _) as [[[] s4]|]; cbn [mbind result_bind] in *; [done | by apply IHm | done]. }
    destruct d as [[] [] [] [] [] [] [] []]; (apply H || done).
  - intros level count s l x. rewrite !parse_items_S. intros ([[v s1] c'] & Hv & H)%bind_ok. rewrite (IHv _ _ _ _ Hv). cbn [mbind result_bind] in *.
    destruct (separator _ _) as [[[] s2]|]; cbn [mbind result_bind] in *; [done | by apply IHi | done].
Qed.
End wider.

Lemma bounded_json_wider raw maximum depth nodes limit_code maximum' depth' nodes' limit_code' o :
  maximum <= maximum' -> depth <= depth' -> nodes <= nodes' ->
  bounded_json raw maximum depth nodes limit_code = Ok o -> bounded_json raw maximum' depth' nodes' limit_code' = Ok o.
Proof.
  intros Hm Hd Hn. unfold bounded_json, codec_require. rewrite !guard_cases. destruct (byte_len raw <=? maximum) eqn:E; [|done]. bool_simpl.
  rewrite (proj2 (Z.leb_le _ _)) by lia. destruct (utf8_valid raw); [|done]. intros ([[v r] c] & Hv & H)%bind_ok.
  by rewrite (proj1 (parser_wider _ _ _ _ _ limit_code' Hd Hn _) _ _ _ _ Hv).
Qed.

(** What [canonical] writes is read back whenever it is read at all. *)
Lemma codec_reads_same o raw maximum depth nodes limit_code o' :
  canonical_text (JObj o) = Ok raw -> json_wf (JObj o) = true -> codec_exact (JObj o) = true -> json_utf8 (JObj o) = true ->
  bounded_json raw maximum depth nodes limit_code = Ok o' -> sort_json (JObj o) = JObj o'.
Proof.
  intros Hraw Hw He Hu H. pose proof (bounded_json_sound raw maximum depth nodes limit_code) as Hs. rewrite H in Hs. destruct Hs as (Hm & _).
  set (d := Z.max depth (Z.of_nat (json_depth (JObj o)))). set (n := Z.max nodes (Z.of_nat (json_size (JObj o)))).
  destruct (codec_reads_back o raw maximum d n limit_code) as (o'' & Ho & Hb); [done..|lia|lia|].
  rewrite (bounded_json_wider _ _ _ _ _ maximum d n limit_code _ (Z.le_refl _) (Z.le_max_l _ _) (Z.le_max_l _ _) H) in Hb. by injection Hb as ->.
Qed.

(** ** The text of a sorted value *)

Lemma str_leb_total a b : String.leb a b = true \/ String.leb b a = true.
Proof. unfold String.leb. rewrite (String.compare_antisym a b). destruct (String.compare b a); cbn; auto. Qed.

Abbreviation key_le := (fun x y : string * _ => String.leb x.1 y.1 = true) (only parsing).
Lemma insert_member_sorted {A} (x : string * A) l : Sorted key_le l -> Sorted key_le (insert_member x l).
Proof.
  induction 1 as [|y l Hs IH Hy]; cbn; [by repeat constructor|]. destruct (String.leb x.1 y.1) eqn:E; [by repeat constructor|].
  constructor; [done|]. assert (Hyx : String.leb y.1 x.1 = true) by (destruct (str_leb_total x.1 y.1); congruence).
  destruct l as [|z l]; cbn; [by constructor|]. destruct (String.leb x.1 z.1); constructor; [done|]. by inversion Hy.
Qed.
Lemma sort_members_sorted {A} (l : list (string * A)) : Sorted key_le (sort_members l).
Proof. induction l as [|x l IH]; cbn; [constructor|]. by apply insert_member_sorted. Qed.
Lemma sorted_fixed {A} (l : list (string * A)) : Sorted key_le l -> sort_members l = l.
Proof. induction 1 as [|x l Hs IH Hx]; cbn; [done|]. rewrite IH. destruct Hx as [|y l Hy]; cbn; [done|]. by rewrite Hy. Qed.
Lemma sort_json_idemp j : sort_json (sort_json j) = sort_json j.
Proof.
  induction j as [| | | | |l IH|o IH] using json_rect_nested; try done; cbn; f_equal.
  - rewrite map_map. induction IH as [|x l Hx _ IH]; cbn; [done|]. by rewrite Hx, IH.
  - rewrite (sort_members_map sort_json), (sorted_fixed (sort_members _)) by apply sort_members_sorted.
    f_equal. rewrite map_map. induction IH as [|x l Hx _ IH]; cbn; [done|]. rewrite Hx. f_equal. exact IH.
Qed.
Lemma ints_printable_sorted j : ints_printable j = true -> ints_printable (sort_json j) = true.
Proof.
  induction j as [| | | | |l IH|o IH] using json_rect_nested; try done; cbn; [by apply map_forallb|].
  apply (sorted_forallb (fun kv => ints_printable kv.2)). eapply Forall_impl; [exact IH|]. done.
Qed.
(** A decoded object is its own canonical order, so writing it again gives the same text. *)
Lemma dumps_exact opts j : codec_exact j = true -> dumps opts j = Some (print_doc opts (doc_of opts j)).
Proof.
  intros H. destruct (dumps opts j) as [t|] eqn:E; [by apply dumps_print in E as [-> _]|]. exfalso. revert H E.
  induction j as [| | | | |l IH|o IH] using json_rect_nested; try done; cbn; intros H.
  - set (go := fix go l := match l with [] => Some [] | _ => _ end). enough (Hgo : is_Some (go l)) by (destruct Hgo as [? ->]; done).
    induction IH as [|x l Hx _ IH]; cbn; [by eexists|]. apply andb_prop in H as [H1 H2]. destruct (dumps opts x); [|by destruct (Hx H1)].
    destruct (IH H2) as [ts Hts]. cbn. fold go. rewrite Hts. by eexists.
  - set (go := fix go o := match o with [] => Some [] | _ => _ end). enough (Hgo : is_Some (go o)) by (destruct Hgo as [? ->]; done).
    induction IH as [|x o Hx _ IH]; cbn; [by eexists|]. apply andb_prop in H as [H1 H2]. destruct (dumps opts x.2); [|by destruct (Hx H1)].
    destruct (IH H2) as [ts Hts]. cbn. fold go. rewrite Hts. by eexists.
Qed.
Lemma canonical_again j raw : codec_exact j = true -> canonical_text j = Ok raw -> canonical_text (sort_json j) = Ok raw.
Proof.
  unfold canonical_text. rewrite !guard_cases. intros He. destruct (ints_printable j) eqn:Hp; [|done]. rewrite ints_printable_sorted by done.
  rewrite !dumps_exact by (done || by apply sort_json_exact). by rewrite !doc_of_sorted, sort_json_idemp.
Qed.

(** [bounded_json] always returns: an object, or [ProposalRejected] with the code
    MALFORMED_OUTPUT or the caller's limit code. An object that it returns came from at most
    [maximum] bytes, is nested at most [depth] levels below the root and has at most [nodes]
    values, no duplicate key anywhere and no infinity or NaN. *)
Theorem bounded_json_bounds raw maximum depth nodes limit_code :
  match bounded_json raw maximum depth nodes limit_code with
  | Ok o => byte_len raw <= maximum /\ Z.of_nat (json_depth (JObj o)) <= depth + 1 /\ Z.of_nat (json_size (JObj o)) <= nodes /\
      json_wf (JObj o) = true /\ json_finite (JObj o) = true
  | Raise e => e = ProposalRejected "MALFORMED_OUTPUT" \/ e = rejected limit_code
  end.
Proof. apply bounded_json_sound. Qed.

(** C37: What [canonical] writes, [bounded_json] reads back: for an object without floats,
    with integers of at most 64 characters, within the limits of the call, decoding gives
    the same object with the members of every object in the order of their keys. *)
Theorem codec_roundtrip o raw maximum depth nodes limit_code :
  canonical_text (JObj o) = Ok raw -> json_wf (JObj o) = true -> codec_exact (JObj o) = true -> json_utf8 (JObj o) = true ->
  byte_len raw <= maximum -> Z.of_nat (json_depth (JObj o)) <= depth + 1 -> Z.of_nat (json_size (JObj o)) <= nodes ->
  exists o', sort_json (JObj o) = JObj o' /\ bounded_json raw maximum depth nodes limit_code = Ok o'.
Proof. apply codec_reads_back. Qed.

(** An object out of order with an escaped string and an array. *)
Definition sample_object : list (string * json) :=
  [("b", JArr [JInt (-7); JNull; JObj []]); ("a", JStr (String dquote (String (chr 1) "x")))].
Definition sample_text : string :=
  Eval vm_compute in default EmptyString (dumps canonical (JObj sample_object)).
Lemma codec_roundtrip_witness :
  canonical_text (JObj sample_object) = Ok sample_text /\
  exists o', sort_json (JObj sample_object) = JObj o' /\ bounded_json sample_text 64 2 6 "OUTPUT_LIMIT" = Ok o'.
Proof. split; [reflexivity|]. apply (codec_roundtrip sample_object sample_text 64 2 6 "OUTPUT_LIMIT"); (reflexivity || (vm_compute; discriminate)). Defined.
