(* ===== verification/PyTime.v ===== *)
(** The calendar of Python's [datetime] and the text of an instant, src/backend/app/ai/w2/records.py
    ([utc] and [stamp]).

    An instant is the number of microseconds since 1970-01-01T00:00:00Z. *)

From S2P Require Import Prelude.
From S2P Require Import PyStr.

Open Scope Z_scope.

Abbreviation instant := Z (only parsing).

(** * The proleptic Gregorian calendar *)

Definition is_leap (y : Z) : bool := (y mod 4 =? 0) && (negb (y mod 100 =? 0) || (y mod 400 =? 0)).
Definition month_lengths (leap : bool) : list Z := [31; if leap then 29 else 28; 31; 30; 31; 30; 31; 31; 30; 31; 30; 31].
Definition days_before_year (y : Z) : Z := let p := y - 1 in p * 365 + p / 4 - p / 100 + p / 400.

(** The days of the months before the [m]th, and the month and day of a day of the year. *)
Fixpoint days_before (lengths : list Z) (m : nat) : Z :=
  match m, lengths with
  | S m', n :: l => n + days_before l m'
  | _, _ => 0
  end.
Fixpoint month_day (lengths : list Z) (n : Z) : nat * Z :=
  match lengths with
  | [] => (0%nat, n)
  | k :: l => if n <? k then (0%nat, n) else let '(m, d) := month_day l (n - k) in (S m, d)
  end.

Record date := mkDate { year : Z; month : Z; day : Z }.
Definition date_valid (d : date) : bool :=
  (1 <=? year d) && (year d <=? 9999) && (1 <=? month d) && (month d <=? 12) && (1 <=? day d) &&
  match month_lengths (is_leap (year d)) !! Z.to_nat (month d - 1) with Some n => day d <=? n | None => false end.

(** Days since 0001-01-01, and back ([_ord2ymd]). *)
Definition days_of_date (d : date) : Z :=
  days_before_year (year d) + days_before (month_lengths (is_leap (year d))) (Z.to_nat (month d - 1)) + (day d - 1).
Definition year_of_days (n : Z) : Z :=
  let a := n / 146097 in
  let n1 := n mod 146097 in
  let b := n1 / 36524 in
  let n2 := n1 mod 36524 in
  let c := n2 / 1461 in
  let n3 := n2 mod 1461 in
  let e := n3 / 365 in
  let y := a * 400 + b * 100 + c * 4 + e + 1 in
  if (e =? 4) || (b =? 4) then y - 1 else y.
Definition date_of_days (n : Z) : date :=
  let y := year_of_days n in
  let '(m, d) := month_day (month_lengths (is_leap y)) (n - days_before_year y) in
  mkDate y (Z.of_nat m + 1) (d + 1).

(** * Text *)

(** [n] in [w] digits. *)
Fixpoint padded (w : nat) (n : Z) : string :=
  match w with
  | O => EmptyString
  | S w' => padded w' (n / 10) +:+ str1 (chr (48 + n mod 10))
  end.

Definition day_us : Z := 86400000000.
(** 1970-01-01 in days since 0001-01-01, and the instants of the years 1 to 9999. *)
Definition epoch_days : Z := 719162.
Definition instant_valid (t : instant) : bool := (- epoch_days * day_us <=? t) && (t <? (3652059 - epoch_days) * day_us).

(** [value.isoformat(timespec='microseconds')] of an instant in UTC, with its Z. *)
Definition stamp (t : instant) : string :=
  let d := date_of_days (epoch_days + t / day_us) in
  let r := t mod day_us in
  padded 4 (year d) +:+ "-" +:+ padded 2 (month d) +:+ "-" +:+ padded 2 (day d) +:+ "T" +:+
  padded 2 (r / 3600000000) +:+ ":" +:+ padded 2 (r / 60000000 mod 60) +:+ ":" +:+ padded 2 (r / 1000000 mod 60) +:+ "." +:+
  padded 6 (r mod 1000000) +:+ "Z".

(** The text matches a template, where [d] stands for a digit. *)
Fixpoint matches (template s : string) : bool :=
  match template, s with
  | EmptyString, EmptyString => true
  | String c t, String d u => (if bool_decide (c = "d"%char) then is_digit d else bool_decide (c = d)) && matches t u
  | _, _ => false
  end.
Definition number_at (from len : nat) (s : string) : Z := parse_nat (str_take len (str_drop from s)).

(** [utc]: [None] is the [PortError]. The digits of a regular expression are those of ASCII. *)
Definition utc (s : string) : option instant :=
  if matches "dddd-dd-ddTdd:dd:dd.ddddddZ" s then
    let d := mkDate (number_at 0 4 s) (number_at 5 2 s) (number_at 8 2 s) in
    let h := number_at 11 2 s in
    let m := number_at 14 2 s in
    let sec := number_at 17 2 s in
    if date_valid d && (h <=? 23) && (m <=? 59) && (sec <=? 59) then
      Some ((days_of_date d - epoch_days) * day_us + ((h * 60 + m) * 60 + sec) * 1000000 + number_at 20 6 s)
    else None
  else None.

(** * Lemmas *)

Ltac divlia := Z.to_euclidean_division_equations; lia.

(** Years in cycles of 400, 100, 4 and 1. *)
Lemma year_cycles a b c e : 0 <= b <= 3 -> 0 <= c <= 24 -> 0 <= e <= 3 ->
  let y := a * 400 + b * 100 + c * 4 + e + 1 in
  days_before_year y = 146097 * a + 36524 * b + 1461 * c + 365 * e /\
  is_leap y = (e =? 3) && (negb (c =? 24) || (b =? 3)).
Proof.
  intros Hb Hc He. cbv zeta. unfold days_before_year, is_leap. split; [divlia|].
  assert (H4 : (a * 400 + b * 100 + c * 4 + e + 1) mod 4 = (e + 1) mod 4) by divlia.
  assert (H100 : (a * 400 + b * 100 + c * 4 + e + 1) mod 100 = (c * 4 + e + 1) mod 100) by divlia.
  assert (H400 : (a * 400 + b * 100 + c * 4 + e + 1) mod 400 = (b * 100 + c * 4 + e + 1) mod 400) by divlia.
  rewrite H4, H100, H400. clear H4 H100 H400.
  destruct (e =? 3) eqn:E1, (c =? 24) eqn:E2, (b =? 3) eqn:E3, ((e + 1) mod 4 =? 0) eqn:E4, ((c * 4 + e + 1) mod 100 =? 0) eqn:E5,
    ((b * 100 + c * 4 + e + 1) mod 400 =? 0) eqn:E6; bool_simpl; try done; divlia.
Qed.

Lemma year_of_days_bounds n : 0 <= n ->
  1 <= year_of_days n /\ 0 <= n - days_before_year (year_of_days n) < (if is_leap (year_of_days n) then 366 else 365).
Proof.
  intros Hn. unfold year_of_days. cbv zeta.
  assert (H1 : n = 146097 * (n / 146097) + n mod 146097 /\ 0 <= n mod 146097 < 146097 /\ 0 <= n / 146097) by divlia.
  generalize dependent (n mod 146097). generalize dependent (n / 146097). intros a n1 (-> & H1 & Ha). clear Hn.
  assert (H2 : n1 = 36524 * (n1 / 36524) + n1 mod 36524 /\ 0 <= n1 mod 36524 < 36524 /\ 0 <= n1 / 36524 <= 4) by divlia.
  generalize dependent (n1 mod 36524). generalize dependent (n1 / 36524). intros b n2 (-> & H2 & Hb).
  assert (H3 : n2 = 1461 * (n2 / 1461) + n2 mod 1461 /\ 0 <= n2 mod 1461 < 1461 /\ 0 <= n2 / 1461 <= 24) by divlia.
  generalize dependent (n2 mod 1461). generalize dependent (n2 / 1461). intros c n3 (-> & H3 & Hc).
  assert (H4 : n3 = 365 * (n3 / 365) + n3 mod 365 /\ 0 <= n3 mod 365 < 365 /\ 0 <= n3 / 365 <= 4) by divlia.
  generalize dependent (n3 mod 365). generalize dependent (n3 / 365). intros e r (-> & H4 & He).
  destruct (e =? 4) eqn:E4; bool_simpl.
  - subst e. destruct (year_cycles a b c 3) as [Hd Hl]; [lia..|]. cbn [orb].
    replace (a * 400 + b * 100 + c * 4 + 4 + 1 - 1) with (a * 400 + b * 100 + c * 4 + 3 + 1) by lia. rewrite Hd, Hl.
    destruct (c =? 24) eqn:E2, (b =? 3) eqn:E3; bool_simpl; cbn; lia.
  - destruct (b =? 4) eqn:E5; bool_simpl; cbn [orb].
    + subst b. destruct (year_cycles a 3 24 3) as [Hd Hl]; [lia..|].
      replace (a * 400 + 4 * 100 + c * 4 + e + 1 - 1) with (a * 400 + 3 * 100 + 24 * 4 + 3 + 1) by lia. rewrite Hd, Hl. cbn. lia.
    + destruct (year_cycles a b c e) as [Hd Hl]; [lia..|]. rewrite Hd, Hl.
      destruct (e =? 3) eqn:E1, (c =? 24) eqn:E2, (b =? 3) eqn:E3; bool_simpl; cbn; lia.
Qed.

Lemma days_before_year_mono y z : y < z -> days_before_year y + (if is_leap y then 366 else 365) <= days_before_year z.
Proof.
  intros H. assert (Hs : days_before_year (y + 1) = days_before_year y + (if is_leap y then 366 else 365)).
  { unfold days_before_year, is_leap. destruct (y mod 4 =? 0) eqn:E1, (y mod 100 =? 0) eqn:E2, (y mod 400 =? 0) eqn:E3; bool_simpl; cbn; divlia. }
  rewrite <- Hs. unfold days_before_year. divlia.
Qed.
Lemma year_10000 y : 9999 < y -> 3652059 <= days_before_year y.
Proof. unfold days_before_year. divlia. Qed.
(** A day of a year belongs to that year only. *)
Lemma year_of_days_unique n y : 0 <= n -> 0 <= n - days_before_year y < (if is_leap y then 366 else 365) -> year_of_days n = y.
Proof.
  intros Hn H. destruct (year_of_days_bounds n Hn) as [_ H'].
  destruct (Z.lt_trichotomy (year_of_days n) y) as [Hlt | [-> | Hlt]]; [|done|]; apply days_before_year_mono in Hlt; lia.
Qed.

Lemma month_day_days lengths n m d : month_day lengths n = (m, d) -> (m < length lengths)%nat -> 0 <= n ->
  n = days_before lengths m + d /\ 0 <= d /\ exists k, lengths !! m = Some k /\ d < k.
Proof.
  revert n m d. induction lengths as [|k l IH]; intros n m d; cbn; [lia|]. destruct (n <? k) eqn:E; bool_simpl.
  - intros [= <- <-] _ Hn. split_and!; [lia..|]. by exists k.
  - destruct (month_day l (n - k)) as [m' d'] eqn:E'. intros [= <- <-] Hm Hn. destruct (IH _ _ _ E') as (H1 & H2 & H3); [lia..|].
    split_and!; [lia..|done].
Qed.
Lemma month_day_inside lengths n : 0 <= n < days_before lengths (length lengths) -> ((month_day lengths n).1 < length lengths)%nat.
Proof.
  revert n. induction lengths as [|k l IH]; intros n; cbn; [lia|]. destruct (n <? k) eqn:E; cbn; [lia|]; intros H; bool_simpl.
  specialize (IH (n - k) ltac:(lia)). destruct (month_day l (n - k)). cbn in *. lia.
Qed.
Lemma month_day_unique lengths m d k : Forall (fun k => 0 <= k) lengths -> lengths !! m = Some k -> 0 <= d < k ->
  month_day lengths (days_before lengths m + d) = (m, d).
Proof.
  intros H. revert m. induction H as [|k' l Hk H IH]; intros [|m]; cbn; try done.
  - intros [= ->] Hd. rewrite (proj2 (Z.ltb_lt _ _)) by lia. f_equal. 
  - intros Hm Hd. assert (Hpos : 0 <= days_before l m) by (clear - H; revert m; induction H; intros [|m]; cbn; [lia..|]; specialize (IHForall m); lia).
    rewrite (proj2 (Z.ltb_ge _ _)) by lia. replace (k' + days_before l m + d - k') with (days_before l m + d) by lia. by rewrite IH.
Qed.
Lemma month_lengths_total leap : days_before (month_lengths leap) 12 = if leap then 366 else 365.
Proof. by destruct leap. Qed.
Lemma month_lengths_pos leap : Forall (fun k => 0 <= k) (month_lengths leap).
Proof. apply Forall_forall. intros k Hk. destruct leap; cbn in Hk; repeat (apply elem_of_cons in Hk as [->|Hk]; [lia|]); by apply elem_of_nil in Hk. Qed.
Lemma date_of_days_valid n : 0 <= n < 3652059 -> date_valid (date_of_days n) = true /\ days_of_date (date_of_days n) = n.
Proof.
  intros Hn. destruct (year_of_days_bounds n ltac:(lia)) as [Hy Hd]. unfold date_of_days.
  set (y := year_of_days n) in *. set (lengths := month_lengths (is_leap y)) in *. set (r := n - days_before_year y) in *.
  destruct (month_day lengths r) as [m d] eqn:E.
  assert (Hm : (m < 12)%nat).
  { change m with (m, d).1. rewrite <- E. apply month_day_inside. change (length lengths) with 12%nat. unfold lengths. rewrite month_lengths_total. lia. }
  destruct (month_day_days _ _ _ _ E Hm ltac:(lia)) as (Hr & Hd0 & k & Hk & Hdk).
  assert (Hy9 : y <= 9999).
  { destruct (Z.le_gt_cases y 9999) as [|Hgt]; [done|]. apply year_10000 in Hgt. subst r. destruct (is_leap y); lia. }
  unfold date_valid, days_of_date. cbn [year month day]. replace (Z.to_nat (Z.of_nat m + 1 - 1)) with m by lia.
  fold lengths. rewrite Hk. split; [|subst r; lia]. repeat (apply andb_true_intro; split); lia.
Qed.
Lemma days_before_le lengths m k : Forall (fun k => 0 <= k) lengths -> lengths !! m = Some k ->
  0 <= days_before lengths m /\ days_before lengths m + k <= days_before lengths (length lengths).
Proof.
  intros H. revert m. induction H as [|k' l Hk H IH]; intros [|m]; cbn; try done.
  - intros [= ->]. assert (Hpos : 0 <= days_before l (length l)) by (clear - H; induction H; cbn; lia). lia.
  - intros Hm. destruct (IH _ Hm). lia.
Qed.
Lemma date_of_days_of_date d : date_valid d = true -> date_of_days (days_of_date d) = d /\ 0 <= days_of_date d < 3652059.
Proof.
  destruct d as [y m d]. unfold date_valid, days_of_date. cbn [year month day]. intros H.
  destruct (month_lengths (is_leap y) !! Z.to_nat (m - 1)) as [k|] eqn:Hk; [|by rewrite andb_false_r in H]. bool_simpl.
  pose proof (days_before_le _ _ _ (month_lengths_pos (is_leap y)) Hk) as [Hlo Hhi].
  change (length (month_lengths (is_leap y))) with 12%nat in Hhi. rewrite month_lengths_total in Hhi.
  assert (Hy0 : 0 <= days_before_year y) by (unfold days_before_year; divlia).
  set (n := days_before_year y + _ + _).
  assert (Hn : 0 <= n - days_before_year y < (if is_leap y then 366 else 365)) by (subst n; destruct (is_leap y); lia).
  assert (Hy : year_of_days n = y) by (apply year_of_days_unique; [lia | done]).
  split.
  - unfold date_of_days. rewrite Hy. replace (n - days_before_year y) with (days_before (month_lengths (is_leap y)) (Z.to_nat (m - 1)) + (d - 1)) by (subst n; lia).
    rewrite (month_day_unique _ _ _ k); [f_equal; lia | apply month_lengths_pos | done | lia].
  - destruct (Z.le_gt_cases 3652059 n) as [Hbig|]; [|lia].
    exfalso. assert (Hmono : days_before_year y + (if is_leap y then 366 else 365) <= days_before_year 10000) by (apply days_before_year_mono; lia).
    change (days_before_year 10000) with 3652059 in Hmono. lia.
Qed.

Lemma parse_nat_aux_snoc acc s c : parse_nat_aux acc (s +:+ str1 c) = 10 * parse_nat_aux acc s + (ord c - 48).
Proof. revert acc. induction s as [|d s IH]; intros acc; cbn; [lia | apply IH]. Qed.
Lemma padded_parse w n : 0 <= n < 10 ^ Z.of_nat w -> parse_nat (padded w n) = n.
Proof.
  unfold parse_nat. revert n. induction w as [|w IH]; intros n Hn; [change (10 ^ Z.of_nat 0) with 1 in Hn; cbn; lia|].
  rewrite Nat2Z.inj_succ, Z.pow_succ_r in Hn by lia. cbn [padded]. rewrite parse_nat_aux_snoc, IH, ord_chr by divlia. divlia.
Qed.
Lemma padded_digits w n : str_forall is_digit (padded w n) = true.
Proof.
  revert n. induction w as [|w IH]; intros n; [done|]. cbn [padded]. rewrite str_forall_app, IH. cbn. rewrite andb_true_r.
  unfold is_digit, between. rewrite ord_chr by divlia. apply andb_true_intro. split; divlia.
Qed.
Lemma string_snoc s w : String.length s = S w -> exists t c, s = t +:+ str1 c /\ String.length t = w.
Proof.
  revert w. induction s as [|c s IH]; intros w; [done|]. cbn. intros [= Hs]. destruct w as [|w].
  - destruct s; [|done]. by exists EmptyString, c.
  - destruct (IH w Hs) as (t & d & -> & Ht). exists (String c t), d. cbn. by rewrite Ht.
Qed.
Lemma padded_of_parse w s : String.length s = w -> str_forall is_digit s = true -> padded w (parse_nat s) = s /\ 0 <= parse_nat s < 10 ^ Z.of_nat w.
Proof.
  revert s. induction w as [|w IH]; intros s Hl Hd.
  - destruct s; [|done]. split; [done|]. change (10 ^ Z.of_nat 0) with 1. cbn. lia.
  - destruct (string_snoc s w Hl) as (t & c & -> & Ht). rewrite str_forall_app in Hd. apply andb_prop in Hd as [Hdt Hc].
    destruct (IH t Ht Hdt) as [Hp Hr]. unfold parse_nat in *. rewrite parse_nat_aux_snoc.
    cbn in Hc. rewrite andb_true_r in Hc. unfold is_digit, between in Hc. bool_simpl.
    rewrite Nat2Z.inj_succ, Z.pow_succ_r by lia. split; [|lia]. cbn [padded].
    replace ((10 * parse_nat_aux 0 t + (ord c - 48)) / 10) with (parse_nat_aux 0 t) by divlia.
    replace (48 + (10 * parse_nat_aux 0 t + (ord c - 48)) mod 10) with (ord c) by divlia. by rewrite Hp, chr_ord.
Qed.

Lemma matches_app p q s t : matches p s = true -> matches (p +:+ q) (s +:+ t) = matches q t.
Proof. revert s. induction p as [|c p IH]; intros [|d s]; cbn; try done. intros [-> H]%andb_prop. by apply IH. Qed.

Lemma digit_char n : is_digit (chr (48 + n mod 10)) = true.
Proof. unfold is_digit, between. rewrite ord_chr by divlia. apply andb_true_intro. split; divlia. Qed.
Lemma month_lengths_le leap i k : month_lengths leap !! i = Some k -> k <= 31.
Proof. intros Hk. apply list_elem_of_lookup_2 in Hk. destruct leap; cbn in Hk; repeat (apply elem_of_cons in Hk as [->|Hk]; [lia|]); by apply elem_of_nil in Hk. Qed.

(** The parts of an instant in microseconds since midnight. *)
Lemma clock_parts r : 0 <= r < day_us ->
  0 <= r / 3600000000 <= 23 /\ 0 <= r / 60000000 mod 60 <= 59 /\ 0 <= r / 1000000 mod 60 <= 59 /\ 0 <= r mod 1000000 < 1000000 /\
  ((r / 3600000000 * 60 + r / 60000000 mod 60) * 60 + r / 1000000 mod 60) * 1000000 + r mod 1000000 = r.
Proof. unfold day_us. intros H. divlia. Qed.

(** Writing an instant of the years 1 to 9999 and reading it back gives the same instant. *)
Theorem stamp_utc t : instant_valid t = true -> utc (stamp t) = Some t.
Proof.
  unfold instant_valid. intros H. bool_simpl.
  destruct (date_of_days_valid (epoch_days + t / day_us)) as [Hv Hd]; [unfold epoch_days, day_us in *; divlia|].
  unfold utc, stamp. set (d := date_of_days (epoch_days + t / day_us)) in *. 
  assert (Hr : 0 <= t mod day_us < day_us) by (unfold day_us; divlia). destruct (clock_parts _ Hr) as (Hh & Hm & Hs & Hu & Hsum).
  set (s := padded 4 (year d) +:+ _).
  assert (Hmatch : matches "dddd-dd-ddTdd:dd:dd.ddddddZ" s = true) by (subst s; cbn; by rewrite !digit_char).
  pose proof Hv as Hv'. unfold date_valid in Hv'.
  destruct (month_lengths (is_leap (year d)) !! Z.to_nat (month d - 1)) as [k|] eqn:Hk; [|by rewrite andb_false_r in Hv'].
  apply month_lengths_le in Hk. bool_simpl.
  assert (HY : number_at 0 4 s = year d) by (apply (padded_parse 4); lia).
  assert (HM : number_at 5 2 s = month d) by (apply (padded_parse 2); lia).
  assert (HD : number_at 8 2 s = day d) by (apply (padded_parse 2); lia).
  assert (Hhh : number_at 11 2 s = t mod day_us / 3600000000) by (apply (padded_parse 2); lia).
  assert (Hmm : number_at 14 2 s = t mod day_us / 60000000 mod 60) by (apply (padded_parse 2); lia).
  assert (Hss : number_at 17 2 s = t mod day_us / 1000000 mod 60) by (apply (padded_parse 2); lia).
  assert (Huu : number_at 20 6 s = t mod day_us mod 1000000) by (apply (padded_parse 6); lia).
  rewrite Hmatch, HY, HM, HD, Hhh, Hmm, Hss, Huu. replace (mkDate (year d) (month d) (day d)) with d by by destruct d.
  rewrite Hv. cbn [andb]. rewrite (proj2 (Z.leb_le _ _)), (proj2 (Z.leb_le _ _)), (proj2 (Z.leb_le _ _)) by lia. cbn [andb].
  rewrite Hd, <- Z.add_assoc, Hsum. f_equal. unfold day_us. divlia.
Qed.

Lemma matches_cons c t s : matches (String c t) s = true ->
  exists d u, s = String d u /\ (if bool_decide (c = "d"%char) then is_digit d else bool_decide (c = d)) = true /\ matches t u = true.
Proof. destruct s as [|d u]; [done|]. cbn. intros [H1 H2]%andb_prop. by exists d, u. Qed.
Lemma matches_digits w t s : matches (Nat.iter w (String "d") t) s = true ->
  exists a u, s = a +:+ u /\ String.length a = w /\ str_forall is_digit a = true /\ matches t u = true.
Proof.
  revert s. induction w as [|w IH]; intros s H; [by exists EmptyString, s|]. cbn in H. apply matches_cons in H as (d & u & -> & Hd & H).
  rewrite bool_decide_eq_true_2 in Hd by done. apply IH in H as (a & v & -> & Hl & Ha & H). exists (String d a), v. cbn. by rewrite Hd, Ha, Hl.
Qed.
Lemma matches_char c t s : c <> "d"%char -> matches (String c t) s = true -> exists u, s = String c u /\ matches t u = true.
Proof. intros Hc (d & u & -> & H & Hu)%matches_cons. rewrite bool_decide_eq_false_2 in H by done. apply bool_decide_eq_true in H as ->. by exists u. Qed.

Definition template_text (y mo d h mi se us : string) : string :=
  y +:+ "-" +:+ mo +:+ "-" +:+ d +:+ "T" +:+ h +:+ ":" +:+ mi +:+ ":" +:+ se +:+ "." +:+ us +:+ "Z".
Lemma matches_template s : matches "dddd-dd-ddTdd:dd:dd.ddddddZ" s = true -> exists y mo d h mi se us,
  s = template_text y mo d h mi se us /\ (String.length y = 4 /\ String.length mo = 2 /\ String.length d = 2 /\ String.length h = 2 /\
    String.length mi = 2 /\ String.length se = 2 /\ String.length us = 6)%nat /\
  Forall (fun p => str_forall is_digit p = true) [y; mo; d; h; mi; se; us].
Proof.
  intros H. apply (matches_digits 4) in H as (y & u1 & -> & Ly & Dy & H). apply matches_char in H as (u2 & -> & H); [|done].
  apply (matches_digits 2) in H as (mo & u3 & -> & Lm & Dm & H). apply matches_char in H as (u4 & -> & H); [|done].
  apply (matches_digits 2) in H as (d & u5 & -> & Ld & Dd & H). apply matches_char in H as (u6 & -> & H); [|done].
  apply (matches_digits 2) in H as (h & u7 & -> & Lh & Dh & H). apply matches_char in H as (u8 & -> & H); [|done].
  apply (matches_digits 2) in H as (mi & u9 & -> & Li & Di & H). apply matches_char in H as (u10 & -> & H); [|done].
  apply (matches_digits 2) in H as (se & u11 & -> & Ls & Ds & H). apply matches_char in H as (u12 & -> & H); [|done].
  apply (matches_digits 6) in H as (us & u13 & -> & Lu & Du & H). apply matches_char in H as (u14 & -> & H); [|done].
  destruct u14; [|done]. exists y, mo, d, h, mi, se, us. split_and!; try done. repeat (constructor; [done|]). constructor.
Qed.

Lemma number_here s a b c i w : s = a +:+ (b +:+ c) -> String.length a = i -> String.length b = w -> number_at i w s = parse_nat b.
Proof. intros -> <- <-. unfold number_at. by rewrite str_drop_app, str_take_app. Qed.
Lemma clock_unique dd h m sec us : 0 <= h <= 23 -> 0 <= m <= 59 -> 0 <= sec <= 59 -> 0 <= us < 1000000 ->
  let t := dd * day_us + ((h * 60 + m) * 60 + sec) * 1000000 + us in
  t / day_us = dd /\ t mod day_us / 3600000000 = h /\ t mod day_us / 60000000 mod 60 = m /\ t mod day_us / 1000000 mod 60 = sec /\
  t mod day_us mod 1000000 = us.
Proof.
  intros Hh Hm Hs Hu. cbv zeta. set (r := ((h * 60 + m) * 60 + sec) * 1000000 + us).
  assert (Hr : 0 <= r < day_us) by (subst r; unfold day_us; lia).
  replace (dd * day_us + ((h * 60 + m) * 60 + sec) * 1000000 + us) with (r + dd * day_us) by (subst r; lia).
  rewrite Z.div_add, Z.mod_add, Z.div_small, (Z.mod_small r) by (done || unfold day_us; lia). subst r. split_and!; divlia.
Qed.

Ltac template_field Hs Hf a b :=
  eapply (Hf _ _ a b); [rewrite Hs; unfold template_text; rewrite ?str_app_assoc; cbn [String.append]; reflexivity
    | rewrite ?str_length_app; cbn [String.length]; lia | done].

(** The text of an instant is the only one that reads as it. *)
Lemma utc_stamp s t : utc s = Some t -> stamp t = s /\ instant_valid t = true.
Proof.
  unfold utc. destruct (matches _ s) eqn:Hm; [|done]. cbv zeta.
  apply matches_template in Hm as (y & mo & d & h & mi & se & us & Hs & (Ly & Lm & Ld & Lh & Li & Ls & Lu) & HD).
  repeat (apply Forall_cons in HD as [? HD]). clear HD.
  assert (Hf : forall i w a b c, s = a +:+ (b +:+ c) -> String.length a = i -> String.length b = w -> number_at i w s = parse_nat b)
    by (intros; by eapply number_here).
  assert (HY : number_at 0 4 s = parse_nat y) by (eapply (Hf _ _ EmptyString); done).
  assert (HM : number_at 5 2 s = parse_nat mo) by template_field Hs Hf (y +:+ "-") mo.
  assert (HD : number_at 8 2 s = parse_nat d) by template_field Hs Hf (y +:+ "-" +:+ mo +:+ "-") d.
  assert (Hh : number_at 11 2 s = parse_nat h) by template_field Hs Hf (y +:+ "-" +:+ mo +:+ "-" +:+ d +:+ "T") h.
  assert (Hi : number_at 14 2 s = parse_nat mi) by template_field Hs Hf (y +:+ "-" +:+ mo +:+ "-" +:+ d +:+ "T" +:+ h +:+ ":") mi.
  assert (He : number_at 17 2 s = parse_nat se) by template_field Hs Hf (y +:+ "-" +:+ mo +:+ "-" +:+ d +:+ "T" +:+ h +:+ ":" +:+ mi +:+ ":") se.
  assert (Hu : number_at 20 6 s = parse_nat us) by template_field Hs Hf (y +:+ "-" +:+ mo +:+ "-" +:+ d +:+ "T" +:+ h +:+ ":" +:+ mi +:+ ":" +:+ se +:+ ".") us.
  rewrite HY, HM, HD, Hh, Hi, He, Hu. clear HY HM HD Hh Hi He Hu Hf.
  destruct (_ && _) eqn:Hok; [|done]. intros [= <-].
  destruct (padded_of_parse 4 y) as [Py Ry], (padded_of_parse 2 mo) as [Pmo Rmo], (padded_of_parse 2 d) as [Pd Rd],
    (padded_of_parse 2 h) as [Ph Rh], (padded_of_parse 2 mi) as [Pmi Rmi], (padded_of_parse 2 se) as [Pse Rse],
    (padded_of_parse 6 us) as [Pus Rus]; try done.
  apply andb_prop in Hok as [[[Hv Hh]%andb_prop Hm]%andb_prop Hsec]. bool_simpl.
  destruct (date_of_days_of_date _ Hv) as [Hdate Hrange].
  destruct (clock_unique (days_of_date (mkDate (parse_nat y) (parse_nat mo) (parse_nat d)) - epoch_days) (parse_nat h) (parse_nat mi) (parse_nat se) (parse_nat us))
    as (E1 & E2 & E3 & E4 & E5); [lia..|]. split.
  - unfold stamp. rewrite E1, E2, E3, E4, E5, Zplus_minus, Hdate. cbn [year month day]. by rewrite Py, Pmo, Pd, Ph, Pmi, Pse, Pus.
  - unfold instant_valid. unfold day_us in *. apply andb_true_intro. split; lia.
Qed.

(** The text of an instant has 27 printable characters. *)
Lemma matches_printable template s : str_forall (between 32 126) template = true -> matches template s = true ->
  byte_len s = byte_len template /\ str_forall (between 32 126) s = true.
Proof.
  revert s. induction template as [|c t IH]; intros [|d s]; cbn; try done. intros [Hc Ht]%andb_prop [Hd Hm]%andb_prop.
  destruct (IH s Ht Hm) as [-> ->]. split; [done|]. rewrite andb_true_r. case_bool_decide as E; [|by bool_simpl; subst].
  revert Hd. char_cases d.
Qed.
Lemma utc_text s t : utc s = Some t -> byte_len s = 27 /\ str_forall (between 32 126) s = true.
Proof. unfold utc. destruct (matches _ s) eqn:Hm; [|done]. intros _. by apply matches_printable in Hm. Qed.

Lemma stamp_utc_witness : instant_valid 1767225599123456 = true /\ stamp 1767225599123456 = "2025-12-31T23:59:59.123456Z" /\ utc (stamp 1767225599123456) = Some 1767225599123456.
Proof. split; [reflexivity|]. split; [vm_compute; reflexivity|]. apply (stamp_utc 1767225599123456). reflexivity. Defined.
