(* ===== verification/Records.v ===== *)
(** The records of the AI budget protocol, src/backend/app/ai/w2/records.py: the layouts,
    their validation, [decode] and [make].

    A [Record] is its document, a [json] value: [_freeze] and [document] only change the
    container types. *)

From S2P Require Import Prelude.
From S2P Require Import PyStr.
From S2P Require Import PyJson.
From S2P Require Import Codec.
From S2P Require Import PyTime.

Open Scope Z_scope.

Definition MAX_N : Z := 2 ^ 63 - 1.
Definition MISSING : list string :=
  ["POLICY_PROOF_MISSING"; "SOURCE_BINDING_MISSING"; "PROJECTION_APPROVAL_MISSING"; "SYNTHETIC_REVIEW_MISSING";
   "ACTOR_MODE_MISSING"; "INDEPENDENT_FACTS_MISSING"; "INDEPENDENT_EXPECTATION_MISSING"; "SHAPE_MISSING"].
Definition STATES : list string :=
  ["RULES_SUFFICIENT"; "RETRIEVAL_SUFFICIENT"; "PRIORITY_UNRESOLVED"; "NEEDS_INPUT"; "NO_ELIGIBLE_RULE";
   "AWAITING_APPROVAL"; "UNSUPPORTED"; "LIMIT_EXCEEDED"].
Definition STAGES : list string :=
  ["before_input"; "after_input"; "after_wait"; "before_secret"; "after_secret"; "after_dns"; "after_connect"; "after_tls";
   "final_send"; "sending"; "before_write"; "write_ready"; "after_send"; "before_consume"; "before_return"; "final_return";
   "complete"].
Definition KINDS : list string :=
  ["PERMIT_ISSUED"; "WRITE_ACCEPTED"; "STREAM_CLOSED"; "FINAL_USAGE"; "ZERO_PROVEN"; "COVERAGE_GAP"; "CONFLICT"].
Definition TERMINALS : list string := ["NONE"; "COMPLETED"; "INCOMPLETE"; "FAILED"; "CANCELLED"; "UNKNOWN"].
Definition PORT_CODES : list string :=
  ["VERSION_UNSUPPORTED"; "INVALID_RECORD"; "LIMIT_EXCEEDED"; "SOURCE_UNAVAILABLE"; "CONTEXT_CHANGED"; "CANCELLED";
   "DEADLINE_EXCEEDED"; "AUTHORITY_UNAVAILABLE"; "RESERVATION_UNAVAILABLE"; "OWNER_LOST"; "OBSERVER_UNAVAILABLE";
   "COMMIT_UNKNOWN"; "CONFLICT"].
Definition RATE_CARD : string := "openai-terra-usd-standard-2026-09-11/1".
Definition USAGE_MAPPING : string := "openai-responses-2026-09-11/1".

(** Besides [PortError]: a [ProposalRejected] that escapes, the [RuntimeError] of an unknown
    kind, and recursion beyond the fuel. None of the three happens ([decode_errors]). *)
Inductive record_error : Type :=
| PortError (code : string) (key_digest : option string)
| Escaped (e : codec_error)
| SchemaInvalid
| OutOfFuel.
#[export] Instance record_error_eq_dec : EqDecision record_error.
Proof. solve_decision. Defined.

(** The constructor of [PortError], and [require]. *)
Definition port_error (code : string) (key_digest : option string) : record_error :=
  PortError (if bool_decide (code ∈ PORT_CODES) then code else "INVALID_RECORD") key_digest.
Definition port_require (b : bool) (code : string) : result record_error unit := guard_or b (port_error code None).
Definition invalid : record_error := port_error "INVALID_RECORD" None.

(** [BRIDGE]: the code that W1 sees *)
Definition BRIDGE : list (string * string) :=
  zip PORT_CODES
    ["VERSION_UNSUPPORTED"; "MALFORMED_OUTPUT"; "INPUT_LIMIT"; "SOURCE_UNAVAILABLE"; "CONTEXT_CHANGED"; "CANCELLED";
     "PROVIDER_TIMEOUT"; "CONFIG_UNAPPROVED"; "BUDGET_UNAVAILABLE"; "BUDGET_UNAVAILABLE"; "AUDIT_UNAVAILABLE";
     "AUDIT_UNAVAILABLE"; "AUDIT_UNAVAILABLE"].

(** * Layouts *)

Definition LAYOUTS : list (string * string) := [
   ("Scope", "task_id:Id case_id:Id project_ref:Id context_ref:Id context_version:Ver context_generation:Gen account_ref:Id deployment_ref:Id policy_id:Id policy_version:Ver");
   ("ReadContext", "scope:Scope process_epoch:Id deadline_at:Time mono_deadline_ns:N cancellation_id:Id");
   ("RunContext", "scope:Scope call_ref:Call attempt:=1 owner_id:Id owner_generation:Gen process_epoch:Id started_at:Time deadline_at:Time mono_start_ns:N mono_deadline_ns:N cancellation_id:Id");
   ("RecoveryContext", "read:ReadContext key:ReservationKey recovery_decision_id:Id owner_id:Id owner_generation:Gen");
   ("ExactSource", "scope:=reusable_synthetic knowledge_id:Knowledge version:Ver digest:Hash");
   ("ProjectionBinding", "source:ExactSource projection_digest:Hash template_digest:Hash template:=sharing-complete/1 decision_refs:Id[7:7] validation_id:Positive validation_digest:Hash review_event_id:Positive reuse_event_id:Positive publication_event_id:Positive valid_from:Time expires_at:Time");
   ("CandidateRef", "source_id:Id source_version:Ver source_digest:Hash");
   ("SyntheticCandidateCertificate", "source_id:Id source_version:Ver source_digest:Hash shape:=single_resource_path_get_json_object actor_mode:Actor scenario_manifest_digest:Hash missing:Missing[0:8] decision_refs:Id[7:7] valid_from:Time expires_at:Time");
   ("QuestionManifest", "scope:Scope question_id:Id entry:Entry policy_version:=ra-w2-necessity/1 template:Label initial_rule:Bool local_policy_ref:Id? rule:ExactSource? projection:ProjectionBinding? candidate_refs:CandidateRef[0:2] synthetic_review_refs:Id[0:2] missing:Missing[0:8] valid_from:Time expires_at:Time");
   ("RetrievalRequest", "question_digest:Hash purpose:=offline_context_explanation keywords:Word[0:8] tags:Tag[0:8] selected:ExactSource[1:32] top_k:=4");
   ("RetrievalResult", "question_digest:Hash bindings:ProjectionBinding[0:4] projection_refs:Hash[0:4] scores:Score[0:4] evaluated_at:Time expires_at:Time audit_id:Id");
   ("Preparation", "question_digest:Hash state:PreparationState missing:Missing[0:8] template:Label? references:Id[0:4] prepared_ref:Id? core_digest:Hash? evaluated_at:Time expires_at:Time");
   ("BindingCore", "scope:Scope question_id:Id question_digest:Hash call_ref:Call attempt:=1 w1_binding_digest:Hash payload_digest:Hash body_digest:Hash registry_digest:Hash configuration_digest:Hash config_revision:Id secret_ref:Id secret_version:Id necessity_version:=ra-w2-necessity/1 retrieval_version:=ra-w2-retrieval/1 projections:ProjectionBinding[0:4] candidates:SyntheticCandidateCertificate[0:2] prompt_digest:Hash schema_digest:Hash model:=gpt-5.6-terra profile:=ra-openai-responses/1 destination:=https://api.openai.com:443/v1/responses method:=POST reasoning:=low input_limit:=4096 output_limit:=1024 reserved_tokens:N reserved_microusd:N rate_card:Rate usage_mapping:Mapping currency:=USD token_bound_evidence_ref:Id measurement_kind:=synthetic valid_from:Time expires_at:Time");
   ("ReservationKey", "scope:Scope call_ref:Call attempt:=1 core_digest:Hash");
   ("Reservation", "key:ReservationKey reservation_id:Id owner_id:Id owner_generation:Gen input_limit:=4096 output_limit:=1024 reserved_tokens:N reserved_microusd:N currency:=USD rate_card:Rate usage_mapping:Mapping expires_at:Time measurement_kind:=synthetic");
   ("PreparationAuthorityRead", "read:ReadContext question_digest:Hash stage:PreparationStage");
   ("PreparationAuthorityView", "scope:Scope question_digest:Hash registry_revision:Gen policy_binding_ref:Id? projections:ProjectionBinding[0:4] candidates:SyntheticCandidateCertificate[0:2] missing:Missing[0:8] valid_from:Time expires_at:Time observed_cancel_generation:Gen");
   ("AuthorityRead", "run:RunContext key:ReservationKey stage:Stage expected_w1_digest:Hash expected_config_revision:Id");
   ("AuthorityView", "key:ReservationKey owner_generation:Gen snapshot_ref:Id snapshot_digest:Hash valid_from:Time expires_at:Time observed_cancel_generation:Gen");
   ("Admission", "key:ReservationKey admission_id:Id owner_generation:Gen admitted_at:Time expires_at:Time");
   ("AcceptanceTicket", "ticket_id:Id key_digest:Hash deployment_ref:Id authority_epoch:Id acceptance_generation:Gen owner_generation:Gen body_digest:Hash expires_at:Time");
   ("InvalidationContext", "deployment_ref:Id writer_id:Id process_epoch:Id deadline_at:Time mono_deadline_ns:N cancellation_id:Id");
   ("InvalidationRequest", "operation_id:Id operation_digest:Hash deployment_ref:Id writer_id:Id action:=INVALIDATE_DEPLOYMENT reason:InvalidationReason deadline_at:Time");
   ("InvalidationAck", "operation_id:Id operation_digest:Hash deployment_ref:Id authority_epoch:Id acceptance_generation:Gen barrier_sequence:Positive state:=CLOSED disposition:Disposition event_digest:Hash");
   ("InvalidationResolution", "operation_id:Id operation_digest:Hash deployment_ref:Id barrier_digest:Hash database_outcome:DatabaseOutcome transaction_evidence_ref:Id?");
   ("ReopenRequest", "deployment_ref:Id recovery_decision_id:Id expected_authority_epoch:Id expected_acceptance_generation:Gen pending_set_digest:Hash transaction_evidence_digest:Hash qualification_digest:Hash stream_closure_evidence_digest:Hash");
   ("WriterFence", "deployment_ref:Id recovery_decision_id:Id authority_epoch:Id acceptance_generation:Gen");
   ("GateAck", "deployment_ref:Id authority_epoch:Id acceptance_generation:Gen barrier_sequence:Positive state:=OPEN event_digest:Hash");
   ("SendPermit", "key:ReservationKey permit_id:Id admission_id:Id owner_generation:Gen guard_epoch:Id authority_epoch:Id acceptance_generation:Gen ticket_id:Id body_digest:Hash marker_event_id:Id observer_epoch:Id expires_at:Time");
   ("Observation", "key_digest:Hash call_ref:Call event_id:Id observer_epoch:Id authority_epoch:Id acceptance_generation:Gen sequence:Positive owner_generation:Gen kind:ObservationKind permit_id:Id? body_digest:Hash observed_at:Time terminal:Terminal usage:UsageView evidence_digest:Hash");
   ("UsageView", "state:UsageState input_tokens:N? output_tokens:N? cached_input_tokens:N? cache_write_tokens:N? reasoning_tokens:N? total_tokens:N? mapping:Mapping");
   ("Settlement", "key_digest:Hash settlement_id:Id final_event_id:Id revision:Gen state:SettlementState settled_tokens:N settled_microusd:N held_tokens:N held_microusd:N refund_tokens:N refund_microusd:N overrun_tokens:N overrun_microusd:N accounting_digest:Hash");
   ("Completion", "key_digest:Hash completion_id:Id outcome_code:W1Code? delivery:Delivery usage:UsageView settlement_ref:Id? display_state:DisplayState evaluated_at:Time expires_at:Time");
   ("WriteAck", "permit_id:Id event_id:Id sequence:Positive accepted_at:Time");
   ("ObservationAck", "event_id:Id sequence:Positive event_digest:Hash");
   ("CallEvidence", "key_digest:Hash evidence_digest:Hash");
   ("CancelAck", "key_digest:Hash cancellation_generation:Gen state:=CANCELLED");
   ("Error", "code:PortCode key_digest:Hash?");
   ("ScopeMapping", "scope:Scope project_number:Positive context_id:Positive valid_from:Time expires_at:Time");
   ("Decision", "decision_id:Id role:DecisionRole source_id:Id source_version:Ver source_digest:Hash projection_digest:Hash actor:=local_operator evidence:=independent_synthetic_reviewed valid_from:Time expires_at:Time");
   ("ProjectionReview", "binding:ProjectionBinding content_digest:Hash examples_digest:Hash counterexamples_digest:Hash reviewer_decision:Id valid_from:Time expires_at:Time");
   ("SyntheticScenario", "source_id:Id source_version:Ver shape:=single_resource_path_get_json_object actor_mode:Actor relationship:Relationship expected_access:ExpectedAccess facts_ref:Id? expectation_ref:Id? authorship:=independent_synthetic valid_from:Time expires_at:Time");
   ("LocalPolicy", "policy_ref:Id policy_version:=ra-w2-necessity/1 rule:=explicit_access_facts template:=access-basis/1 review_ref:Id valid_from:Time expires_at:Time");
   ("ModelPermission", "permission_id:Id scope:Scope config_revision:Id account_ref:Id secret_ref:Id secret_version:Id enabled:Bool permissions:Permission[7:7] token_bound_evidence_ref:Id valid_from:Time expires_at:Time measurement_kind:=synthetic");
   ("TokenCertificate", "evidence_id:Id config_revision:Id model:=gpt-5.6-terra profile:=ra-openai-responses/1 prompt_digest:Hash schema_digest:Hash projection_digest:Hash counting_version:=synthetic-fixture/1 input_limit:=4096 output_limit:=1024 measurement_kind:=synthetic valid_from:Time expires_at:Time");
   ("TaskManifest", "scope:Scope questions:QuestionManifest[1:64] review_ref:Id valid_from:Time expires_at:Time")].

Definition COMPOSITE : list string :=
  split_char " " "ReadContext RunContext RecoveryContext QuestionManifest RetrievalRequest RetrievalResult BindingCore ReservationKey Reservation PreparationAuthorityRead PreparationAuthorityView AuthorityRead AuthorityView Admission SendPermit ScopeMapping ProjectionReview ModelPermission TaskManifest".
Definition ENUMS : list (string * list string) :=
  [("Missing", MISSING); ("PreparationState", STATES); ("Stage", STAGES); ("ObservationKind", KINDS);
   ("Terminal", TERMINALS); ("PortCode", PORT_CODES); ("Actor", ["anonymous"; "bearer"]);
   ("Entry", ["Q1"; "Q2"; "Q3"; "Q4"]); ("UsageState", ["known"; "unknown"; "invalid"]);
   ("PreparationStage", ["before_rules"; "before_retrieval"; "after_retrieval"; "after_render"]);
   ("Tag", ["access"; "ownership"; "sharing"; "uncertainty"; "session"; "synthetic"; "bola"; "scope"]);
   ("Disposition", ["PENDING"; "COMMITTED"; "ROLLED_BACK"; "UNKNOWN"]);
   ("DatabaseOutcome", ["COMMITTED"; "ROLLED_BACK"; "UNKNOWN"]);
   ("InvalidationReason", ["LIFECYCLE"; "CONFIGURATION"; "CANCELLATION"; "RECOVERY"]);
   ("SettlementState", ["ZERO"; "KNOWN"; "UNKNOWN"; "CONFLICT"]);
   ("Delivery", ["not_sent"; "unknown"; "responded"]); ("DisplayState", ["SUPPRESSED"; "ELIGIBLE_NOW"]);
   ("DecisionRole", ["possession"; "use"; "reuse"; "review"; "validation"; "publish"; "egress"]);
   ("Permission", ["protocol"; "transport"; "model"; "data"; "retention"; "account"; "budget"]);
   ("Relationship", ["owner"; "non_owner"; "shared"; "unspecified"]);
   ("ExpectedAccess", ["allowed"; "denied"; "unspecified"])].

(** [PATTERNS]: a prefix, then between two numbers of characters of a class; the first of
    them may have a class of its own. *)
Record pattern := mkPattern { prefix : string; first_class : ascii -> bool; class : ascii -> bool; shortest_run : Z; longest_run : Z }.
Definition in_set (extra : string) (c : ascii) : bool := is_alnum c || contains_char c extra.
Definition lower_hex (c : ascii) : bool := is_digit c || between 97 102 c.
Definition PATTERNS : list (string * pattern) :=
  [("Id", mkPattern "" (in_set "_-") (in_set "_-") 1 64);
   ("Label", mkPattern "" (in_set "_./-") (in_set "_./-") 1 96);
   ("Hash", mkPattern "" lower_hex lower_hex 64 64);
   ("Call", mkPattern "q_" lower_hex lower_hex 32 32);
   ("Knowledge", mkPattern "knowledge-" (between 49 57) is_digit 1 6);
   ("Word", mkPattern "" is_lower is_lower 1 32)].
Definition fullmatch (p : pattern) (s : string) : bool :=
  startswith (prefix p) s &&
  let run := str_drop (String.length (prefix p)) s in
  (shortest_run p <=? byte_len run) && (byte_len run <=? longest_run p) && str_forall (class p) run &&
  match run with String c _ => first_class p c | EmptyString => true end.

(** The integer kinds. *)
Definition RANGES : list (string * (Z * Z)) :=
  [("N", (0, MAX_N)); ("Positive", (1, MAX_N)); ("Gen", (1, 2147483647)); ("Ver", (1, 10000)); ("Score", (1, 24))].

(** [format_for] *)
Fixpoint hyphenate (s : string) : string :=
  match s with
  | EmptyString => EmptyString
  | String c t => (if is_upper c then "-" else EmptyString) +:+ String c (hyphenate t)
  end.
Definition format_for (name : string) : string :=
  match name with
  | EmptyString => "ra-w2-/1"
  | String c t => "ra-w2-" +:+ lower (String c (hyphenate t)) +:+ "/1"
  end.

(** The fields of a layout with their kinds. *)
Definition fields_of (layout : string) : list (string * string) :=
  map (fun item => let '(k, _, kind) := partition ":" item in (k, kind)) (split_char " " layout).

Fixpoint drop_last (s : string) : string :=
  match s with
  | EmptyString | String _ EmptyString => EmptyString
  | String c t => String c (drop_last t)
  end.
(** [re.fullmatch(r'(.+)\[(\d+):(\d+)\]', kind)] *)
Definition array_kind (kind : string) : option (string * Z * Z) :=
  if endswith "]" kind then
    let '(element, found, bounds) := rpartition "[" (drop_last kind) in
    let '(lower, colon, upper) := partition ":" bounds in
    if found && colon && negb (is_empty element) && negb (is_empty lower) && negb (is_empty upper) &&
       str_forall is_digit lower && str_forall is_digit upper then Some (element, parse_nat lower, parse_nat upper) else None
  else None.

(** * Validation *)

(** [value[key]] of an object that has the key. *)
Definition item (o : list (string * json)) (key : string) : json := default JNull (assoc key o).
Definition int_of (v : json) : Z := match v with JInt n => n | _ => 0 end.
Definition list_of (v : json) : list json := match v with JArr l => l | _ => [] end.
Definition is_null (v : json) : bool := match v with JNull => true | _ => false end.
Definition str_is (v : json) (s : string) : bool := match v with JStr t => bool_decide (t = s) | _ => false end.

(** [utc] of any value *)
Definition time_of (v : json) : result record_error instant :=
  match v with JStr s => require (utc s) invalid | _ => Raise invalid end.

Definition canonical_of (v : json) : result record_error string :=
  match canonical_text v with Ok s => Ok s | Raise e => Raise (Escaped e) end.

Fixpoint require_all {A} (f : A -> result record_error bool) (l : list A) : result record_error unit :=
  match l with
  | [] => Ok tt
  | x :: l' => b ← f x; _ ← port_require b "INVALID_RECORD"; require_all f l'
  end.

(** The conditions that relate the fields of a record. *)
Definition window_ok (has : string -> bool) (o : list (string * json)) : result record_error unit :=
  if has "valid_from" then
    f ← time_of (item o "valid_from");
    e ← time_of (item o "expires_at");
    port_require (f <? e) "INVALID_RECORD"
  else Ok tt.
Definition run_ok (name : string) (o : list (string * json)) : result record_error unit :=
  if bool_decide (name = "RunContext") then
    d ← time_of (item o "deadline_at");
    s ← time_of (item o "started_at");
    _ ← port_require ((0 <? d - s) && (d - s <=? 30000000)) "INVALID_RECORD";
    let ns := int_of (item o "mono_deadline_ns") - int_of (item o "mono_start_ns") in
    port_require ((0 <? ns) && (ns <=? 30000000000)) "INVALID_RECORD"
  else Ok tt.
Definition reserve_ok (name : string) (o : list (string * json)) : bool :=
  negb (bool_decide (name ∈ ["Reservation"; "BindingCore"])) ||
  ((5120 <=? int_of (item o "reserved_tokens")) && (22528 <=? int_of (item o "reserved_microusd"))).
Definition usage_ok (name : string) (o : list (string * json)) : bool :=
  negb (bool_decide (name = "UsageView")) ||
  let counts := map (item o) ["input_tokens"; "output_tokens"; "cached_input_tokens"; "cache_write_tokens"; "reasoning_tokens"; "total_tokens"] in
  if str_is (item o "state") "known" then
    forallb (fun k => negb (is_null (item o k))) ["input_tokens"; "output_tokens"; "cached_input_tokens"; "cache_write_tokens"; "total_tokens"] &&
    (int_of (item o "cached_input_tokens") + int_of (item o "cache_write_tokens") <=? int_of (item o "input_tokens")) &&
    (int_of (item o "input_tokens") + int_of (item o "output_tokens") =? int_of (item o "total_tokens")) &&
    (is_null (item o "reasoning_tokens") || (int_of (item o "reasoning_tokens") <=? int_of (item o "output_tokens")))
  else forallb is_null counts.
Definition retrieval_ok (name : string) (o : list (string * json)) : bool :=
  negb (bool_decide (name = "RetrievalResult")) ||
  let n := length (list_of (item o "bindings")) in
  Nat.eqb n (length (list_of (item o "projection_refs"))) && Nat.eqb n (length (list_of (item o "scores"))).
Definition preparation_ok (name : string) (o : list (string * json)) : bool :=
  negb (bool_decide (name = "Preparation")) ||
  (Bool.eqb (is_null (item o "prepared_ref")) (is_null (item o "core_digest")) &&
   (is_null (item o "prepared_ref") || str_is (item o "state") "PRIORITY_UNRESOLVED")).
Definition missing_ok (has : string -> bool) (o : list (string * json)) : bool :=
  negb (has "missing") ||
  let missing := omap str_of (list_of (item o "missing")) in bool_decide (missing = sort_strings missing).

(** [_validate], given the check of a field. *)
Definition validate_with (check : string -> json -> result record_error bool) (name layout : string) (value : json)
    : result record_error unit :=
  match value with
  | JObj o =>
      _ ← port_require (str_is (item o "format") (format_for name)) "VERSION_UNSUPPORTED";
      let fields := fields_of layout in
      let has := fun k => bool_decide (k ∈ fields.*1) in
      _ ← port_require (same_names o.*1 ("format" :: fields.*1)) "INVALID_RECORD";
      _ ← require_all (fun f => check f.2 (item o f.1)) fields;
      _ ← window_ok has o;
      _ ← run_ok name o;
      _ ← port_require (reserve_ok name o) "INVALID_RECORD";
      _ ← port_require (usage_ok name o) "INVALID_RECORD";
      _ ← port_require (retrieval_ok name o) "INVALID_RECORD";
      _ ← port_require (preparation_ok name o) "INVALID_RECORD";
      port_require (missing_ok has o) "INVALID_RECORD"
  | _ => Raise invalid
  end.

(** The kinds that are neither optional, arrays nor records. *)
Definition leaf (kind : string) (value : json) : result record_error bool :=
  match kind with
  | String "=" expected =>
      Ok (if negb (is_empty expected) && str_forall is_digit expected
          then match value with JInt n => n =? parse_nat expected | _ => false end
          else str_is value expected)
  | _ =>
      match assoc kind PATTERNS, assoc kind ENUMS, assoc kind RANGES with
      | Some p, _, _ => Ok (match value with JStr s => fullmatch p s | _ => false end)
      | None, Some choices, _ => Ok (match value with JStr s => bool_decide (s ∈ choices) | _ => false end)
      | None, None, Some (lower, upper) => Ok (match value with JInt n => (lower <=? n) && (n <=? upper) | _ => false end)
      | None, None, None =>
          if bool_decide (kind = "Bool") then Ok (match value with JBool _ => true | _ => false end)
          else if bool_decide (kind = "Time") then _ ← time_of value; Ok true
          else if bool_decide (kind = "Rate") then Ok (str_is value RATE_CARD)
          else if bool_decide (kind = "Mapping") then Ok (str_is value USAGE_MAPPING)
          else if bool_decide (kind = "W1Code") then
            Ok (match value with JStr s => bool_decide (s ∈ CODES) | _ => false end)
          else Raise SchemaInvalid
      end
  end.

(** [_scalar] *)
Fixpoint scalar (fuel : nat) (kind : string) (value : json) : result record_error bool :=
  match fuel with
  | O => Raise OutOfFuel
  | S fuel' =>
      if endswith "?" kind then if is_null value then Ok true else scalar fuel' (drop_last kind) value
      else
        match array_kind kind with
        | Some (element, lower, upper) =>
            match value with
            | JArr l =>
                _ ← port_require ((lower <=? Z.of_nat (length l)) && (Z.of_nat (length l) <=? upper)) "LIMIT_EXCEEDED";
                _ ← require_all (scalar fuel' element) l;
                if bool_decide (element = "Score") then Ok true
                else
                  texts ← map_result canonical_of l;
                  _ ← port_require (bool_decide (NoDup texts)) "INVALID_RECORD";
                  Ok true
            | _ => Raise (port_error "LIMIT_EXCEEDED" None)
            end
        | None =>
            match assoc kind LAYOUTS with
            | Some layout => _ ← validate_with (scalar fuel') kind layout value; Ok true
            | None => leaf kind value
            end
        end
  end.
(** Deeper than any nesting of the layouts ([schema_checked]). *)
Definition schema_fuel : nat := 16.
Definition validate (name layout : string) (value : json) : result record_error unit :=
  validate_with (scalar schema_fuel) name layout value.

(** * Encoding *)

Definition record_limits (name : string) : Z * Z * Z :=
  if bool_decide (name ∈ COMPOSITE) then (32768, 8, 4096) else (4096, 6, 512).

(** [kind.rstrip('?').split('[')[0]] *)
Definition nested_kind (kind : string) : string := let '(k, _, _) := partition "[" (rstrip_by (fun c => bool_decide (c = "?"%char)) kind) in k.

(** [decode] *)
Fixpoint decode_with (fuel : nat) (name raw : string) : result record_error json :=
  match fuel with
  | O => Raise OutOfFuel
  | S fuel' =>
      layout ← require (assoc name LAYOUTS) (port_error "VERSION_UNSUPPORTED" None);
      let '(maximum, depth, nodes) := record_limits name in
      match bounded_json raw maximum depth nodes "OUTPUT_LIMIT" with
      | Raise (ProposalRejected code) =>
          Raise (port_error (if bool_decide (code = "OUTPUT_LIMIT") then "LIMIT_EXCEEDED" else "INVALID_RECORD") None)
      | Raise NoFuel => Raise OutOfFuel
      | Ok o =>
          _ ← validate name layout (JObj o);
          let decode_child := fun kind child => text ← canonical_of child; decode_with fuel' (nested_kind kind) text in
          _ ← map_result (fun f : string * string =>
                if is_none (assoc (nested_kind f.2) LAYOUTS) || is_null (item o f.1) then Ok []
                else map_result (decode_child f.2) (if contains_char "[" f.2 then list_of (item o f.1) else [item o f.1]))
                (fields_of layout);
          Ok (JObj o)
      end
  end.
Definition decode (name raw : string) : result record_error json := decode_with schema_fuel name raw.

(** The bounds of [thaw]. *)
Fixpoint thaw_ok (j : json) : bool :=
  match j with
  | JStr s => str_len s <=? 32768
  | JArr l => (Z.of_nat (length l) <=? 512) && forallb thaw_ok l
  | JObj o => (Z.of_nat (length o) <=? 512) && forallb (fun kv => thaw_ok kv.2) o
  | _ => true
  end.
(** [make] *)
Definition make (name : string) (values : list (string * json)) : result record_error json :=
  let doc := JObj (("format", JStr (format_for name)) :: values) in
  _ ← port_require ((Z.of_nat (json_size doc) <=? 4096) && (Z.of_nat (json_depth doc) <=? 9) && thaw_ok doc) "LIMIT_EXCEEDED";
  match (text ← canonical_of doc; decode name text) with
  | Raise (Escaped _) => Raise invalid
  | r => r
  end.

(** [Record.encode], [Record.fingerprint] *)
Definition encode (r : json) : result record_error string := canonical_of r.
Definition rec_format (r : json) : string := match r with JObj o => default EmptyString (str_of (item o "format")) | _ => EmptyString end.
Definition fingerprint (hash : string -> string) (r : json) : result record_error string :=
  text ← encode r;
  Ok (hash ((if bool_decide (rec_format r = format_for "BindingCore") then "ra-ai-budget/1" else rec_format r) +:+ String (chr 10) text)).

(** * What the layouts allow *)

(** A short string of printable ASCII. *)
Definition printable (c : ascii) : bool := between 32 126 c.
Definition plain_str (s : string) : bool := (byte_len s <=? 96) && str_forall printable s.
(** Integers of a signed 64-bit column, short strings, no floats. *)
Fixpoint plain_json (j : json) : bool :=
  match j with
  | JFloat _ => false
  | JInt n => (0 <=? n) && (n <=? MAX_N)
  | JStr s => plain_str s
  | JArr l => forallb plain_json l
  | JObj o => forallb (fun kv => plain_str kv.1 && plain_json kv.2) o
  | _ => true
  end.

Definition pattern_ok (p : pattern) : Prop :=
  str_forall printable (prefix p) = true /\ byte_len (prefix p) + longest_run p <= 96 /\ forall c, class p c = true -> printable c = true.

Definition leaf_ok (kind : string) : bool :=
  match kind with
  | String "=" expected => plain_str expected && (negb (str_forall is_digit expected) || (parse_nat expected <=? MAX_N))
  | _ => bool_decide (kind ∈ (PATTERNS.*1 ++ ENUMS.*1 ++ RANGES.*1 ++ ["Bool"; "Time"; "Rate"; "Mapping"; "W1Code"]))
  end.
(** The check of a kind can only end as documented, and what it accepts is plain. *)
Fixpoint kind_ok (fuel : nat) (kind : string) : bool :=
  match fuel with
  | O => false
  | S fuel' =>
      if endswith "?" kind then kind_ok fuel' (drop_last kind)
      else
        match array_kind kind with
        | Some (element, _, _) => kind_ok fuel' element
        | None =>
            match assoc kind LAYOUTS with
            | Some layout => plain_str (format_for kind) && forallb (fun f => plain_str f.1 && kind_ok fuel' f.2) (fields_of layout)
            | None => leaf_ok kind
            end
        end
  end.
Fixpoint nesting_ok (fuel : nat) (name : string) : bool :=
  match fuel, assoc name LAYOUTS with
  | S fuel', Some layout =>
      forallb (fun f => is_none (assoc (nested_kind f.2) LAYOUTS) || nesting_ok fuel' (nested_kind f.2)) (fields_of layout)
  | _, _ => false
  end.

Lemma schema_checked : forallb (fun l => plain_str (format_for l.1) && forallb (fun f => plain_str f.1 && kind_ok schema_fuel f.2) (fields_of l.2) && nesting_ok schema_fuel l.1) LAYOUTS = true.
Proof. vm_compute. reflexivity. Qed.

Definition port_failure (e : record_error) : Prop :=
  e = PortError "INVALID_RECORD" None \/ e = PortError "LIMIT_EXCEEDED" None \/ e = PortError "VERSION_UNSUPPORTED" None.

Lemma pattern_table : Forall (fun p => pattern_ok p.2) PATTERNS.
Proof.
  repeat (constructor; [split_and!; [done | vm_compute; discriminate | cbn [class snd]; intros c; char_cases c]|]). constructor.
Qed.
Lemma enum_table : forallb (fun e => forallb plain_str e.2) ENUMS = true.
Proof. vm_compute. reflexivity. Qed.
Lemma codes_plain : forallb plain_str CODES = true.
Proof. vm_compute. reflexivity. Qed.
Lemma range_table : forallb (fun r : string * (Z * Z) => (0 <=? r.2.1) && (r.2.2 <=? MAX_N)) RANGES = true.
Proof. done. Qed.

(** Plain values have a canonical text. *)
Lemma plain_str_utf8 s : plain_str s = true -> utf8_valid s = true.
Proof.
  unfold plain_str. intros [_ H]%andb_prop. apply utf8_ascii. induction s as [|c s IH]; cbn in *; [done|].
  apply andb_prop in H as [Hc Hs]. rewrite (IH Hs), andb_true_r. revert Hc. char_cases c.
Qed.
Lemma decimal_aux_len fuel n acc : byte_len (decimal_aux fuel n acc) <= Z.of_nat fuel + byte_len acc.
Proof.
  revert n acc. induction fuel as [|f IH]; intros n acc; cbn [decimal_aux]; [lia|]. case_if; [cbn [byte_len]; lia|].
  etrans; [apply IH|]. cbn [byte_len]. lia.
Qed.
Lemma plain_int n : 0 <= n <= MAX_N -> int_printable n = true /\ byte_len (str_of_Z n) <= 64.
Proof.
  intros Hn. split.
  - unfold int_printable. rewrite (proj2 (Z.ltb_lt _ _)); [done|]. apply Z.le_lt_trans with MAX_N; [lia | done].
  - unfold str_of_Z. rewrite (proj2 (Z.ltb_ge n 0)) by lia. etrans; [apply decimal_aux_len|]. cbn [byte_len].
    assert (Hlog : Z.log2 n <= Z.log2 MAX_N) by (apply Z.log2_le_mono; lia). change (Z.log2 MAX_N) with 62 in Hlog.
    pose proof (Z.log2_nonneg n). lia.
Qed.
Lemma plain_sound j : plain_json j = true -> codec_exact j = true /\ ints_printable j = true /\ json_utf8 j = true.
Proof.
  induction j as [|b|n|f|s|l IH|o IH] using json_rect_nested; try done; cbn.
  - intros H. bool_simpl. destruct (plain_int n) as [H1 H2]; [lia|]. split_and!; [by apply Z.leb_le|done|done].
  - intros H. split_and!; [done|done|by apply plain_str_utf8].
  - intros H. rewrite !forallb_forall in *. rewrite Forall_forall in IH.
    split_and!; intros v Hv; specialize (IH v (proj2 (list_elem_of_In _ _) Hv) (H v Hv)); by destruct IH as (? & ? & ?).
  - intros H. rewrite !forallb_forall in *. rewrite Forall_forall in IH.
    split_and!; intros v Hv; pose proof (H v Hv) as [Hk Hp]%andb_prop; destruct (IH v (proj2 (list_elem_of_In _ _) Hv) Hp) as (? & ? & ?); [done..|].
    by rewrite plain_str_utf8.
Qed.
Lemma plain_canonical j : plain_json j = true -> exists t, canonical_of j = Ok t.
Proof.
  intros (He & Hp & _)%plain_sound. unfold canonical_of, canonical_text. rewrite Hp, dumps_exact by done. by eexists.
Qed.

Lemma port_bind {A} (b : bool) code (f : unit -> result record_error A) :
  (port_require b code ≫= f) = if b then f tt else Raise (port_error code None).
Proof. by destruct b. Qed.
Lemma require_all_sound {A} (f : A -> result record_error bool) l :
  (forall x e, x ∈ l -> f x = Raise e -> port_failure e) ->
  match require_all f l with Ok _ => forall x, x ∈ l -> f x = Ok true | Raise e => port_failure e end.
Proof.
  induction l as [|x l IH]; intros H; cbn; [intros x Hx; by apply elem_of_nil in Hx|].
  destruct (f x) as [b|e] eqn:E; cbn; [|by eapply H; [left | exact E]]. rewrite port_bind. destruct b; [|by left].
  specialize (IH ltac:(intros y e Hy; apply H; by right)). destruct (require_all f l); [|done].
  intros y [-> | Hy]%elem_of_cons; [done | by apply IH].
Qed.
Lemma map_result_sound {A B} (f : A -> result record_error B) l :
  (forall x e, x ∈ l -> f x = Raise e -> port_failure e) ->
  match map_result f l with Ok _ => forall x, x ∈ l -> exists y, f x = Ok y | Raise e => port_failure e end.
Proof.
  induction l as [|x l IH]; intros H; cbn; [intros x Hx; by apply elem_of_nil in Hx|].
  destruct (f x) as [b|e] eqn:E; cbn; [|by eapply H; [left | exact E]].
  specialize (IH ltac:(intros y e Hy; apply H; by right)). destruct (map_result f l); [|done].
  intros y [-> | Hy]%elem_of_cons; [by eexists | by apply IH].
Qed.

Lemma time_of_sound v : match time_of v with Ok _ => plain_json v = true | Raise e => port_failure e end.
Proof.
  destruct v; try by left. cbn. destruct (utc s) as [t|] eqn:E; cbn; [|by left]. apply utc_text in E as [Hlen Hp]. unfold plain_str.
  apply andb_true_intro. split; [lia|]. exact Hp.
Qed.

(** The conditions between fields fail as documented. *)
Lemma window_sound has o e : window_ok has o = Raise e -> port_failure e.
Proof.
  unfold window_ok. case_if; [|done]. pose proof (time_of_sound (item o "valid_from")) as H1. pose proof (time_of_sound (item o "expires_at")) as H2.
  destruct (time_of _); [|by intros [= <-]]. destruct (time_of _); [|by intros [= <-]]. cbn. unfold port_require, guard_or. case_if; [done|]. intros [= <-]. by left.
Qed.
Lemma run_sound name o e : run_ok name o = Raise e -> port_failure e.
Proof.
  unfold run_ok. case_if; [|done]. pose proof (time_of_sound (item o "deadline_at")) as H1. pose proof (time_of_sound (item o "started_at")) as H2.
  destruct (time_of _); [|by intros [= <-]]. destruct (time_of _); [|by intros [= <-]]. cbn [mbind result_bind]. rewrite port_bind. case_if; [|intros [= <-]; by left].
  unfold port_require, guard_or. case_if; [done|]. intros [= <-]. by left.
Qed.

Definition plain_members (fields : list (string * string)) (o : list (string * json)) : Prop :=
  forall f, f ∈ fields -> plain_json (item o f.1) = true.

Lemma validate_sound check name layout v : json_wf v = true -> plain_str (format_for name) = true ->
  (forall f w, f ∈ fields_of layout -> json_wf w = true ->
     match check f.2 w with Ok true => plain_json w = true | Ok false => True | Raise e => port_failure e end) ->
  forallb (fun f => plain_str f.1) (fields_of layout) = true ->
  match validate_with check name layout v with Ok _ => plain_json v = true | Raise e => port_failure e end.
Proof.
  intros Hw Hf Hc Hk. unfold validate_with. destruct v as [| | | | | |o]; try by left. rewrite port_bind.
  destruct (str_is _ _) eqn:Hformat; [|by right; right]. cbv zeta. rewrite port_bind. destruct (same_names _ _) eqn:Hnames; [|by left].
  assert (Hitem : forall f, f ∈ fields_of layout -> json_wf (item o f.1) = true).
  { intros f _. unfold item. destruct (assoc f.1 o) eqn:E; [|done]. by eapply json_wf_member. }
  pose proof (require_all_sound (fun f => check f.2 (item o f.1)) (fields_of layout)) as Hall.
  specialize (Hall ltac:(intros f e Hin He; specialize (Hc f _ Hin (Hitem f Hin)); by rewrite He in Hc)).
  destruct (require_all _ _); cbn [mbind result_bind]; [|done].
  destruct (window_ok _ _) eqn:Ewin; cbn [mbind result_bind]; [|by apply window_sound in Ewin].
  destruct (run_ok _ _) eqn:Erun; cbn [mbind result_bind]; [|by apply run_sound in Erun].
  rewrite !port_bind. repeat (case_if; [|by left]). unfold port_require, guard_or. case_if; [|by left].
  cbn [plain_json]. apply forallb_forall. intros [k v] Hkv%list_elem_of_In. cbn [fst snd].
  cbn [json_wf] in Hw. apply andb_prop in Hw as [Hnd%bool_decide_eq_true _].
  assert (Hv : item o k = v) by (unfold item; by rewrite (assoc_distinct k v o)).
  unfold same_names in Hnames. apply andb_prop in Hnames as [Hnames _].
  pose proof (forallb_elem _ _ k Hnames) as Hin. specialize (Hin ltac:(apply list_elem_of_fmap; by exists (k, v))).
  apply bool_decide_eq_true in Hin. apply elem_of_cons in Hin as [-> | Hin].
  - rewrite Hv in Hformat. destruct v; try done. cbn in Hformat. apply bool_decide_eq_true in Hformat as ->. cbn. by rewrite Hf.
  - apply list_elem_of_fmap in Hin as ([k' kind] & -> & Hin). cbn [fst] in *.
    pose proof (forallb_elem _ _ _ Hk Hin) as Hpk. cbn [fst] in Hpk. rewrite Hpk. cbn [andb].
    specialize (Hc (k', kind) _ Hin (Hitem _ Hin)). cbn [snd fst] in *. specialize (Hall _ Hin). cbn [snd fst] in Hall. rewrite Hall, Hv in Hc. exact Hc.
Qed.

Lemma assoc_table {A} (p : string * A -> bool) k l v : forallb p l = true -> assoc k l = Some v -> p (k, v) = true.
Proof. intros H Ha%assoc_elem. exact (forallb_elem _ _ _ H Ha). Qed.
Lemma fullmatch_plain p s : pattern_ok p -> fullmatch p s = true -> plain_str s = true.
Proof.
  intros (Hp & Hlen & Hclass) H. unfold fullmatch in H. apply andb_prop in H as [[t ->]%startswith_app H].
  rewrite str_drop_app in H. cbv zeta in H. bool_simpl. unfold plain_str. rewrite byte_len_app, str_forall_app, Hp. cbn [andb].
  apply andb_true_intro. split; [lia|]. match goal with Hc : str_forall (class p) t = true |- _ => revert Hc end.
  clear - Hclass. induction t as [|c t IH]; cbn; [done|]. intros [Hc Ht]%andb_prop. by rewrite (Hclass c Hc), IH.
Qed.

Definition checked (v : json) (r : result record_error bool) : Prop :=
  match r with Ok true => plain_json v = true | Ok false => True | Raise e => port_failure e end.
Lemma checked_bool v (b : bool) : (b = true -> plain_json v = true) -> checked v (Ok b).
Proof. destruct b; cbn; auto. Qed.
Lemma parse_nat_pos s acc : 0 <= acc -> str_forall is_digit s = true -> 0 <= parse_nat_aux acc s.
Proof.
  revert acc. induction s as [|c s IH]; intros acc Ha; cbn; [lia|]. intros [Hc Hs]%andb_prop. apply IH; [|done].
  unfold is_digit, between in Hc. bool_simpl. lia.
Qed.
Lemma str_is_plain v s : plain_str s = true -> str_is v s = true -> plain_json v = true.
Proof. intros Hs. destruct v; try done. cbn. by intros ->%bool_decide_eq_true. Qed.
Lemma leaf_sound kind v : leaf_ok kind = true -> checked v (leaf kind v).
Proof.
  unfold leaf, leaf_ok. intros Hk.
  assert (Hchoice : forall choices, forallb plain_str choices = true ->
    checked v (Ok (match v with JStr s => bool_decide (s ∈ choices) | _ => false end))).
  { intros choices H. apply checked_bool. destruct v; try done. intros Hin%bool_decide_eq_true. exact (forallb_elem _ _ _ H Hin). }
  assert (Hrest : bool_decide (kind ∈ (PATTERNS.*1 ++ ENUMS.*1 ++ RANGES.*1 ++ ["Bool"; "Time"; "Rate"; "Mapping"; "W1Code"])) = true ->
    checked v match assoc kind PATTERNS, assoc kind ENUMS, assoc kind RANGES with
      | Some p, _, _ => Ok (match v with JStr s => fullmatch p s | _ => false end)
      | None, Some choices, _ => Ok (match v with JStr s => bool_decide (s ∈ choices) | _ => false end)
      | None, None, Some (lower, upper) => Ok (match v with JInt n => (lower <=? n) && (n <=? upper) | _ => false end)
      | None, None, None =>
          if bool_decide (kind = "Bool") then Ok (match v with JBool _ => true | _ => false end)
          else if bool_decide (kind = "Time") then _ ← time_of v; Ok true
          else if bool_decide (kind = "Rate") then Ok (str_is v RATE_CARD)
          else if bool_decide (kind = "Mapping") then Ok (str_is v USAGE_MAPPING)
          else if bool_decide (kind = "W1Code") then Ok (match v with JStr s => bool_decide (s ∈ CODES) | _ => false end)
          else Raise SchemaInvalid
      end).
  { intros Hin%bool_decide_eq_true. rewrite !elem_of_app in Hin.
    destruct (assoc kind PATTERNS) as [p|] eqn:Ep.
    { apply checked_bool. destruct v; try done. apply fullmatch_plain.
      exact (proj1 (Forall_forall _ _) pattern_table _ (assoc_elem _ _ _ Ep)). }
    destruct (assoc kind ENUMS) as [choices|] eqn:Ee.
    { apply Hchoice. exact (assoc_table (fun e => forallb plain_str e.2) _ _ _ enum_table Ee). }
    destruct (assoc kind RANGES) as [[lo hi]|] eqn:Er.
    { apply (assoc_table _ _ _ _ range_table) in Er. cbn [fst snd] in Er. apply checked_bool. destruct v; try done. cbn. intros. bool_simpl.
      apply andb_true_intro. split; lia. }
    apply assoc_none in Ep, Ee, Er. destruct Hin as [?|[?|[?|Hin]]]; try done.
    repeat (apply elem_of_cons in Hin as [-> | Hin]); cbn [bool_decide]; [..|by apply elem_of_nil in Hin].
    - apply checked_bool. by destruct v.
    - pose proof (time_of_sound v) as Ht. unfold checked. cbn. by destruct (time_of v).
    - apply checked_bool. by apply str_is_plain.
    - apply checked_bool. by apply str_is_plain.
    - apply (Hchoice CODES), codes_plain. }
  destruct kind as [|c t]; [by apply Hrest|].
  destruct c as [[] [] [] [] [] [] [] []]; try (by apply Hrest).
  apply checked_bool. apply andb_prop in Hk as [Hp Hn]. destruct (negb (is_empty t) && str_forall is_digit t) eqn:Hd; [|by apply str_is_plain].
  apply andb_prop in Hd as [_ Hd]. rewrite Hd in Hn. cbn [negb orb] in Hn. destruct v; try done. intros ->%Z.eqb_eq. cbn [plain_json].
  pose proof (parse_nat_pos t 0 ltac:(lia) Hd). apply andb_true_intro. split; [by apply Z.leb_le | done].
Qed.

Lemma scalar_sound fuel kind v : kind_ok fuel kind = true -> json_wf v = true ->
  match scalar fuel kind v with Ok true => plain_json v = true | Ok false => True | Raise e => port_failure e end.
Proof.
  revert kind v. induction fuel as [|fuel IH]; intros kind v Hk Hw; [done|]. cbn [kind_ok scalar] in *.
  destruct (endswith "?" kind); [destruct v; by try apply IH|].
  destruct (array_kind kind) as [[[element lower] upper]|].
  { destruct v as [| | | | |l|]; try (by right; left). rewrite port_bind. case_if; [|by right; left].
    cbn [json_wf] in Hw. rewrite forallb_forall in Hw.
    pose proof (require_all_sound (scalar fuel element) l) as Hall.
    specialize (Hall ltac:(intros x e Hx He; specialize (IH element x Hk (Hw x (proj1 (list_elem_of_In _ _) Hx))); by rewrite He in IH)).
    destruct (require_all _ l) as [u|e]; cbn [mbind result_bind]; [|done].
    assert (Hpl : forall x, x ∈ l -> plain_json x = true).
    { intros x Hx. specialize (IH element x Hk (Hw x (proj1 (list_elem_of_In _ _) Hx))). by rewrite Hall in IH. }
    assert (Hp : plain_json (JArr l) = true) by (cbn; apply forallb_forall; intros x Hx; apply Hpl; by apply list_elem_of_In).
    case_if; [done|]. pose proof (map_result_sound canonical_of l) as Hmap.
    specialize (Hmap ltac:(intros x e Hx He; destruct (plain_canonical x (Hpl x Hx)) as [t Ht]; congruence)).
    destruct (map_result _ _); cbn [mbind result_bind]; [|done]. rewrite port_bind. case_if; [done | by left]. }
  destruct (assoc kind LAYOUTS) as [layout|] eqn:El.
  { apply andb_prop in Hk as [Hf Hfields]. pose proof (validate_sound (scalar fuel) kind layout v Hw Hf) as Hv.
    rewrite forallb_forall in Hfields.
    specialize (Hv ltac:(intros f w Hin Hww; apply IH; [|done]; by apply (andb_prop _ _ (Hfields f (proj1 (list_elem_of_In _ _) Hin))))).
    specialize (Hv ltac:(apply forallb_forall; intros f Hin; by apply (andb_prop _ _ (Hfields f Hin)))).
    destruct (validate_with _ _ _ _); cbn; done. }
  by apply leaf_sound.
Qed.

Lemma layout_checked name layout : assoc name LAYOUTS = Some layout ->
  plain_str (format_for name) = true /\ forallb (fun f => plain_str f.1 && kind_ok schema_fuel f.2) (fields_of layout) = true /\
  nesting_ok schema_fuel name = true.
Proof. intros H. pose proof (assoc_table _ _ _ _ schema_checked H) as Hc. cbn [fst snd] in Hc. by bool_simpl. Qed.

Lemma validate_plain name layout o : assoc name LAYOUTS = Some layout -> json_wf (JObj o) = true ->
  match validate name layout (JObj o) with Ok _ => plain_json (JObj o) = true | Raise e => port_failure e end.
Proof.
  intros (Hf & Hk & _)%layout_checked Hw. unfold validate. apply validate_sound; [done|done| |].
  - intros f w Hin Hww. apply scalar_sound; [|done]. pose proof (forallb_elem _ _ _ Hk Hin) as Hb. by apply andb_prop in Hb as [_ Hb].
  - apply forallb_forall. intros f Hin%list_elem_of_In. pose proof (forallb_elem _ _ _ Hk Hin) as Hb. by apply andb_prop in Hb as [Hb _].
Qed.

Definition decoded (name : string) (r : json) : Prop :=
  exists o layout, r = JObj o /\ assoc name LAYOUTS = Some layout /\ validate name layout r = Ok tt /\ json_wf r = true /\ plain_json r = true.

Lemma plain_item o k : plain_json (JObj o) = true -> plain_json (item o k) = true.
Proof.
  cbn. intros H. unfold item. destruct (assoc k o) as [v|] eqn:E; [|done]. apply (assoc_table _ _ _ _ H) in E. by apply andb_prop in E as [_ E].
Qed.
Lemma plain_list v x : plain_json v = true -> x ∈ list_of v -> plain_json x = true.
Proof. destruct v; cbn; intros H Hx; try (by apply elem_of_nil in Hx). exact (forallb_elem _ _ _ H Hx). Qed.

Lemma decode_unknown fuel name raw : assoc name LAYOUTS = None -> decode_with (S fuel) name raw = Raise (port_error "VERSION_UNSUPPORTED" None).
Proof. intros H. cbn [decode_with]. by rewrite H. Qed.
Lemma decode_ok fuel name raw r : decode_with (S fuel) name raw = Ok r -> exists o,
  let '(maximum, depth, nodes) := record_limits name in r = JObj o /\ bounded_json raw maximum depth nodes "OUTPUT_LIMIT" = Ok o.
Proof.
  cbn [decode_with]. destruct (assoc name LAYOUTS); [|done]. cbn [require mbind result_bind].
  destruct (record_limits name) as [[maximum depth] nodes].
  destruct (bounded_json raw maximum depth nodes "OUTPUT_LIMIT") as [o|[]]; [|done..].
  intros (u & _ & Hd)%bind_ok. apply bind_ok in Hd as (u' & _ & [= <-]). by exists o.
Qed.
Lemma decode_sound fuel name raw : nesting_ok fuel name = true ->
  match decode_with fuel name raw with Ok r => decoded name r | Raise e => port_failure e end.
Proof.
  revert name raw. induction fuel as [|fuel IH]; intros name raw Hn; [done|]. cbn [nesting_ok decode_with] in *.
  destruct (assoc name LAYOUTS) as [layout|] eqn:El; [|done]. cbn [require mbind result_bind].
  destruct (record_limits name) as [[maximum depth] nodes].
  pose proof (bounded_json_sound raw maximum depth nodes "OUTPUT_LIMIT") as Hb.
  destruct (bounded_json _ _ _ _ _) as [o|e]; [|destruct Hb as [-> | ->]; [by left | by right; left]].
  destruct Hb as (_ & _ & _ & Hw & _). pose proof (validate_plain name layout o El Hw) as Hv.
  destruct (validate name layout (JObj o)) as [[]|] eqn:Ev; cbn [mbind result_bind]; [|done].
  match goal with |- context [map_result ?f (fields_of layout)] => pose proof (map_result_sound f (fields_of layout)) as Hm end.
  match type of Hm with ?A -> _ => assert (HA : A) end.
  2: { specialize (Hm HA). destruct (map_result _ (fields_of layout)); cbn [mbind result_bind]; [|done]. by exists o, layout. }
  intros [k kind] e Hin. cbn [fst snd]. pose proof (forallb_elem _ _ _ Hn Hin) as Hnest. cbn [snd] in Hnest.
  destruct (is_none (assoc (nested_kind kind) LAYOUTS)); [done|]. cbn [orb] in *. destruct (is_null (item o k)); [done|].
  pose proof (plain_item o k Hv) as Hpk.
  set (children := if contains_char "[" kind then _ else _).
  assert (Hpl : forall x, x ∈ children -> plain_json x = true).
  { subst children. case_if; [intros x; by apply plain_list | by intros x ->%list_elem_of_singleton]. }
  match goal with |- map_result ?g children = _ -> _ => pose proof (map_result_sound g children) as Hc end.
  match type of Hc with ?A -> _ => assert (HA : A) end.
  2: { specialize (Hc HA). destruct (map_result _ children); [done|]. by intros [= <-]. }
  intros x e' Hx. destruct (plain_canonical x (Hpl x Hx)) as [t ->]. cbn [mbind result_bind]. specialize (IH _ t Hnest).
  destruct (decode_with _ _ _); [done|]. by intros [= <-].
Qed.
Lemma decode_outcome name raw : match decode name raw with Ok r => decoded name r | Raise e => port_failure e end.
Proof.
  destruct (assoc name LAYOUTS) as [layout|] eqn:E; [|unfold decode, schema_fuel; rewrite decode_unknown by done; by right; right].
  apply decode_sound. by apply layout_checked in E as (_ & _ & ?).
Qed.

(** * What records promise *)

(** [decode] either refuses with one of three [PortError] codes, and never with another
    exception, or returns a record with exactly the fields of its layout, without duplicate
    keys or floats, whose integers fit in a signed 64-bit column and whose strings are
    printable ASCII of at most 96 characters. *)
Theorem decode_documented name raw :
  match decode name raw with
  | Ok r => exists o layout, r = JObj o /\ assoc name LAYOUTS = Some layout /\
      item o "format" = JStr (format_for name) /\ same_names o.*1 ("format" :: (fields_of layout).*1) = true /\
      json_wf r = true /\ plain_json r = true
  | Raise e => port_failure e
  end.
Proof.
  pose proof (decode_outcome name raw) as H. destruct (decode name raw) as [r|e]; [|done].
  destruct H as (o & layout & -> & El & Hv & Hw & Hp). exists o, layout. unfold validate, validate_with in Hv. rewrite port_bind in Hv.
  destruct (str_is _ _) eqn:Hs; [|done]. cbv zeta in Hv. rewrite port_bind in Hv. destruct (same_names _ _) eqn:Hn; [|done].
  split_and!; try done. destruct (item o "format"); try done. cbn in Hs. by apply bool_decide_eq_true in Hs as ->.
Qed.

(** A record that [make] returns is the document of its values in canonical order: it
    encodes, and [decode] gives the same record back from its encoding. *)
Theorem make_roundtrip name values r :
  let doc := JObj (("format", JStr (format_for name)) :: values) in
  make name values = Ok r -> json_wf doc = true -> codec_exact doc = true -> json_utf8 doc = true ->
  r = sort_json doc /\ exists raw, encode r = Ok raw /\ decode name raw = Ok r.
Proof.
  intros doc Hmake Hw He Hu. unfold make in Hmake. fold doc in Hmake. rewrite port_bind in Hmake. case_if_in Hmake; [|done].
  unfold canonical_of in Hmake. destruct (canonical_text doc) as [raw|] eqn:Hraw; [|done]. cbn [mbind result_bind] in Hmake.
  assert (Hd : decode name raw = Ok r) by (destruct (decode name raw) as [|[]]; congruence).
  assert (Hr : r = sort_json doc).
  { apply decode_ok in Hd as (o & Hd). destruct (record_limits name) as [[maximum depth] nodes]. destruct Hd as [-> Hb].
    symmetry. by eapply codec_reads_same. }
  split; [done|]. exists raw. split; [|done]. subst r. unfold encode, canonical_of. by rewrite (canonical_again doc raw He Hraw).
Qed.

(** A reservation key with its scope. *)
Definition sample_scope : list (string * json) :=
  [("format", JStr "ra-w2-scope/1"); ("task_id", JStr "task-1"); ("case_id", JStr "case-1"); ("project_ref", JStr "project-1");
   ("context_ref", JStr "context-1"); ("context_version", JInt 1); ("context_generation", JInt 1);
   ("account_ref", JStr "account-1"); ("deployment_ref", JStr "deployment-1"); ("policy_id", JStr "policy-1"); ("policy_version", JInt 1)].
Definition sample_call : string := "q_00000000000000000000000000000001".
Definition sample_digest : string := "0000000000000000000000000000000000000000000000000000000000000001".
Definition sample_key_values : list (string * json) :=
  [("scope", JObj sample_scope); ("call_ref", JStr sample_call); ("attempt", JInt 1); ("core_digest", JStr sample_digest)].
Definition sample_key : json :=
  Eval vm_compute in match make "ReservationKey" sample_key_values with Ok r => r | Raise _ => JNull end.

Lemma make_roundtrip_witness :
  make "ReservationKey" sample_key_values = Ok sample_key /\ exists raw, encode sample_key = Ok raw /\ decode "ReservationKey" raw = Ok sample_key.
Proof.
  assert (H : make "ReservationKey" sample_key_values = Ok sample_key) by (vm_compute; reflexivity).
  split; [exact H|]. apply (make_roundtrip "ReservationKey" sample_key_values sample_key H); vm_compute; reflexivity.
Defined.
