(* ===== verification/Deadline.v ===== *)
(** The absolute bounds of an operation, src/backend/app/ai/w2/time.py.

    A check reads both clocks and the cancellation flag, so their values are arguments of it.
    The object is changed before a check fails: a failing check also returns a state. *)

From S2P Require Import Prelude.
From S2P Require Import PyFloat.
From S2P Require Import PyJson.
From S2P Require Import Codec.
From S2P Require Import PyTime.
From S2P Require Import Records.

Open Scope Z_scope.

(** The fields of a context that a deadline reads. *)
Record bounds := mkBounds {
  process_epoch : string;
  deadline_at : string;
  mono_deadline_ns : Z;
  cancellation_id : string
}.
Definition bounds_of (context : json) : bounds :=
  match context with
  | JObj o =>
      let text k := default EmptyString (str_of (item o k)) in
      mkBounds (text "process_epoch") (text "deadline_at") (int_of (item o "mono_deadline_ns")) (text "cancellation_id")
  | _ => mkBounds EmptyString EmptyString 0 EmptyString
  end.

(** [Deadline]; [last_ns] and [last_wall] are set together. *)
Record Deadline := mkDeadline {
  context : bounds;
  last_read : option (Z * instant);
  valid_from : option instant;
  expires_at : option instant
}.

Definition last_ns (d : Deadline) : Z := match last_read d with Some (ns, _) => ns | None => 0 end.
Definition last_wall (d : Deadline) : instant := match last_read d with Some (_, wall) => wall | None => 0 end.

(** What the clocks and the flag answer: [None] is a value of another type (a naive time,
    for the wall clock). [active] is [cancelled(id) is False]. *)
Record reading := mkReading { monotonic_ns : option Z; utcnow : option instant; active : bool }.

(** A check with its windows. *)
Record request := mkRequest { windows : list (string * string); cleanup : bool; now : reading }.

(** The intersection with the windows, up to one that is no pair of times. *)
Fixpoint narrow (d : Deadline) (l : list (string * string)) : Deadline * result record_error unit :=
  match l with
  | [] => (d, Ok tt)
  | (s, e) :: l' =>
      match utc s, utc e with
      | Some s, Some e =>
          narrow (mkDeadline (context d) (last_read d)
            (Some (match valid_from d with Some v => Z.max v s | None => s end))
            (Some (match expires_at d with Some x => Z.min x e | None => e end))) l'
      | _, _ => (d, Raise invalid)
      end
  end.

(** [Deadline.check] *)
Definition check (d : Deadline) (r : request) : Deadline * result record_error instant :=
  match monotonic_ns (now r), utcnow (now r) with
  | Some ns, Some wall =>
      if negb (0 <=? ns) then (d, Raise (port_error "CONTEXT_CHANGED" None))
      else if match last_read d with Some (n, w) => negb ((n <=? ns) && (w <=? wall)) | None => false end
      then (d, Raise (port_error "CONTEXT_CHANGED" None))
      else
        let d := mkDeadline (context d) (Some (ns, wall)) (valid_from d) (expires_at d) in
        if cleanup r then (d, Ok wall)
        else if negb (active (now r)) then (d, Raise (port_error "CANCELLED" None))
        else if negb (ns <? mono_deadline_ns (context d)) then (d, Raise (port_error "DEADLINE_EXCEEDED" None))
        else
          match utc (deadline_at (context d)) with
          | None => (d, Raise invalid)
          | Some at_ =>
              if negb (wall <? at_) then (d, Raise (port_error "DEADLINE_EXCEEDED" None))
              else
                let '(d, narrowed) := narrow d (windows r) in
                match narrowed with
                | Raise e => (d, Raise e)
                | Ok _ =>
                    if match valid_from d with Some v => negb (v <=? wall) | None => false end
                    then (d, Raise (port_error "SOURCE_UNAVAILABLE" None))
                    else if match expires_at d with Some x => negb (wall <? x) | None => false end
                    then (d, Raise (port_error "SOURCE_UNAVAILABLE" None))
                    else (d, Ok wall)
                end
          end
  | _, _ => (d, Raise (port_error "CONTEXT_CHANGED" None))
  end.

(** The constructor of [Deadline]. *)
Definition new_deadline (c : bounds) (epoch : string) (first : reading) : result record_error Deadline :=
  _ ← port_require (bool_decide (process_epoch c = epoch)) "CONTEXT_CHANGED";
  let '(d, answer) := check (mkDeadline c None None None) (mkRequest [] false first) in
  _ ← answer;
  _ ← port_require (mono_deadline_ns c - last_ns d <=? 30000000000) "DEADLINE_EXCEEDED";
  at_ ← require (utc (deadline_at c)) invalid;
  _ ← port_require (at_ - last_wall d <=? 30000000) "DEADLINE_EXCEEDED";
  Ok d.

(** [Deadline.remaining], of a finite positive [cap]: seconds. *)
Definition remaining (d : Deadline) (cap : float) (r : reading) : Deadline * result record_error float :=
  let '(d, answer) := check d (mkRequest [] false r) in
  (d,
   _ ← answer;
   _ ← port_require (isfinite cap && fltb f0 cap) "INVALID_RECORD";
   at_ ← require (utc (deadline_at (context d))) invalid;
   let end_ := match expires_at d with Some x => Z.min at_ x | None => at_ end in
   let mono := fdiv (float_of_Z (mono_deadline_ns (context d) - last_ns d)) (float_of_Z 1000000000) in
   let wall := fdiv (float_of_Z (end_ - last_wall d)) (float_of_Z 1000000) in
   Ok (pymin (pymin cap mono) wall)).

(** [Deadline.sql_timeout]: the milliseconds that it sets as time limit of the statements. *)
Definition sql_timeout (d : Deadline) (before after : reading) : Deadline * result record_error Z :=
  let '(d, available) := remaining d (float_of_Z 30) before in
  match available with
  | Raise e => (d, Raise e)
  | Ok seconds =>
      let '(d, answer) := check d (mkRequest [] false after) in
      (d, _ ← answer; Ok (Z.max 1 (ceil (fmul seconds (float_of_Z 1000)))))
  end.

(** A deadline that is used for a sequence of checks. *)
Fixpoint checks (d : Deadline) (l : list request) : Deadline * list (request * result record_error instant) :=
  match l with
  | [] => (d, [])
  | r :: l' => let '(d, a) := check d r in let '(d, rest) := checks d l' in (d, (r, a) :: rest)
  end.

(** * Lemmas *)

Definition within (d : Deadline) (t : instant) : Prop :=
  (forall v, valid_from d = Some v -> v <= t) /\ (forall x, expires_at d = Some x -> t < x).
(** The windows of a state lie inside those of another. *)
Definition tighter (d d' : Deadline) : Prop := forall t, within d' t -> within d t.
Definition covers (t : instant) (w : string * string) : Prop :=
  exists s e, utc w.1 = Some s /\ utc w.2 = Some e /\ s <= t < e.

Lemma narrow_sound d l d' res : narrow d l = (d', res) ->
  context d' = context d /\ last_read d' = last_read d /\ tighter d d' /\
  (res = Ok tt -> forall t, within d' t -> Forall (covers t) l).
Proof.
  revert d. induction l as [|[s e] l IH]; intros d; cbn; [intros [= <- <-]; split_and!; [done|done|by intros t|intros; constructor]|].
  destruct (utc s) as [s'|] eqn:Es; [|intros [= <- <-]; split_and!; [done|done|by intros t|done]].
  destruct (utc e) as [e'|] eqn:Ee; [|intros [= <- <-]; split_and!; [done|done|by intros t|done]].
  intros H. destruct (IH _ H) as (Hc & Hn & Ht & Hl). cbn in *. split_and!; try done.
  - intros t [Hv Hx]%Ht. cbn in *. split.
    + intros v Ev. rewrite Ev in Hv. specialize (Hv _ eq_refl). lia.
    + intros x Ex. rewrite Ex in Hx. specialize (Hx _ eq_refl). lia.
  - intros Hres t Hwithin. constructor; [|by apply Hl]. exists s', e'. cbn. split_and!; try done.
    + destruct (Ht t Hwithin) as [Hv _]. cbn in Hv. specialize (Hv _ eq_refl). destruct (valid_from d); lia.
    + destruct (Ht t Hwithin) as [_ Hx]. cbn in Hx. specialize (Hx _ eq_refl). destruct (expires_at d); lia.
Qed.

(** What a check does to the state, and what its success means. *)
Definition later (d d' : Deadline) : Prop :=
  context d' = context d /\ tighter d d' /\
  (forall n w, last_read d = Some (n, w) -> exists n' w', last_read d' = Some (n', w') /\ n <= n' /\ w <= w').
Lemma later_refl d : later d d.
Proof. split_and!; [done | by intros t | intros n w H; exists n, w; split_and!; [done | lia..]]. Qed.
Lemma later_trans d e f : later d e -> later e f -> later d f.
Proof.
  intros (C1 & T1 & W1) (C2 & T2 & W2). split_and!; [congruence | intros t H; by apply T1, T2|].
  intros n w Hw. destruct (W1 n w Hw) as (n1 & w1 & H1 & L1 & M1). destruct (W2 n1 w1 H1) as (n2 & w2 & H2 & L2 & M2).
  exists n2, w2. split_and!; [done | lia..].
Qed.
Definition passed (d : Deadline) (r : request) (t : instant) : Prop :=
  (exists ns, last_read d = Some (ns, t) /\ monotonic_ns (now r) = Some ns /\ (cleanup r = false -> ns < mono_deadline_ns (context d))) /\
  utcnow (now r) = Some t /\
  (cleanup r = false ->
   within d t /\ (forall u, within d u -> Forall (covers u) (windows r)) /\ active (now r) = true /\
   exists bound, utc (deadline_at (context d)) = Some bound /\ t < bound).

Lemma check_sound d r d' a : check d r = (d', a) -> later d d' /\ (forall t, a = Ok t -> passed d' r t).
Proof.
  unfold check. destruct (monotonic_ns (now r)) as [ns|] eqn:Ens; [|intros [= <- <-]; split; [apply later_refl | done]].
  destruct (utcnow (now r)) as [wall|] eqn:Ewall; [|intros [= <- <-]; split; [apply later_refl | done]].
  case_if; [intros [= <- <-]; split; [apply later_refl | done]|].
  match goal with |- (if ?b then _ else _) = _ -> _ => destruct b eqn:Eback end; [intros [= <- <-]; split; [apply later_refl | done]|].
  cbv zeta. set (d1 := mkDeadline (context d) (Some (ns, wall)) (valid_from d) (expires_at d)).
  assert (H1 : later d d1).
  { split_and!; [done | by intros t|]. intros n w Hw. exists ns, wall. rewrite Hw in Eback. bool_simpl. split_and!; [done | lia..]. }
  destruct (cleanup r) eqn:Ec.
  { intros [= <- <-]. split; [done|]. intros t [= <-]. unfold passed. rewrite Ec. split_and!; [by exists ns | done..]. }
  destruct (active (now r)) eqn:Ea; [|by intros [= <- <-]]. cbn [negb]. case_if; [by intros [= <- <-]|].
  destruct (utc (deadline_at (context d1))) as [bound|] eqn:Eb; [|by intros [= <- <-]]. case_if; [by intros [= <- <-]|].
  destruct (narrow d1 (windows r)) as [d2 res] eqn:En. destruct (narrow_sound _ _ _ _ En) as (Hc & Hn & Ht & Hl).
  assert (H2 : later d d2).
  { apply (later_trans d d1 d2 H1). split_and!; [done|done|]. intros n w Hw. exists n, w. rewrite Hn. split_and!; [done | lia..]. }
  destruct res as [[]|e]; [|by intros [= <- <-]].
  destruct (match valid_from d2 with Some v => _ | None => false end) eqn:Ev; [by intros [= <- <-]|].
  destruct (match expires_at d2 with Some x => _ | None => false end) eqn:Ex; [by intros [= <- <-]|].
  intros [= <- <-]. split; [done|]. intros t [= <-]. bool_simpl. split_and!.
  - exists ns. rewrite Hn. split_and!; [done..|]. intros _. rewrite Hc. done.
  - done.
  - intros _. split_and!.
    + split; [intros v Hv; rewrite Hv in Ev; bool_simpl; lia | intros x Hx; rewrite Hx in Ex; bool_simpl; lia].
    + intros u Hu. by apply Hl.
    + done.
    + exists bound. rewrite Hc. split; [done | lia].
Qed.

(** An earlier answer, seen from a later check that succeeds at [t]. *)
Definition respected (t : instant) (qa : request * result record_error instant) : Prop :=
  forall u, qa.2 = Ok u -> u <= t /\ (cleanup qa.1 = false -> Forall (covers t) (windows qa.1)).
Lemma checks_confined l d before r t after : (checks d l).2 = before ++ (r, Ok t) :: after -> cleanup r = false ->
  exists d', later d d' /\ passed d' r t /\ Forall (respected t) before.
Proof.
  revert d l. induction before as [|[q a] before IH]; intros d [|r' l]; try done; cbn; destruct (check d r') as [d1 a'] eqn:E;
    apply check_sound in E as [H1 Hp]; destruct (checks d1 l) as [d2 rest] eqn:Er; cbn.
  - intros [= -> -> ->] _. exists d1. split_and!; [done | by apply Hp | constructor].
  - intros [= -> -> Hrest] Hc. destruct (IH d1 l) as (d' & H2 & Hd & HF); [by rewrite Er | done|].
    exists d'. split_and!; [by apply (later_trans d d1 d') | done|]. constructor; [|done].
    intros u Hu. cbn in Hu. destruct (Hp u Hu) as ((ns & Hr1 & _) & _ & Hw1). destruct H2 as (_ & Ht & Hm).
    destruct (Hm _ _ Hr1) as (n' & w' & Hr' & _ & Hle). destruct Hd as ((ns' & Hr2 & _) & _ & Hw2). destruct (Hw2 Hc) as (Hin & _).
    split; [rewrite Hr' in Hr2; injection Hr2 as _ ->; done|]. intros Hcq. destruct (Hw1 Hcq) as (_ & Hcov & _). by apply Hcov, Ht.
Qed.

(** A check of a deadline that succeeds does so at a time [t] before the deadline of the
    context, at most 30 seconds after the deadline was created and not before any earlier
    reading, while the operation is not cancelled. Every window of the check contains [t],
    and so does every window of every earlier check that succeeded: a later read cannot
    renew what an earlier one allowed. *)
Theorem deadline_confined c epoch first d l before r t after :
  new_deadline c epoch first = Ok d -> (checks d l).2 = before ++ (r, Ok t) :: after -> cleanup r = false ->
  process_epoch c = epoch /\ active (now r) = true /\ utcnow (now r) = Some t /\
  (exists start bound, utcnow first = Some start /\ utc (deadline_at c) = Some bound /\ start <= t < bound /\ bound <= start + 30000000) /\
  (exists start ns, monotonic_ns first = Some start /\ monotonic_ns (now r) = Some ns /\ start <= ns < mono_deadline_ns c /\
     mono_deadline_ns c <= start + 30000000000) /\
  Forall (covers t) (windows r) /\ Forall (respected t) before.
Proof.
  intros Hnew Hl Hc. unfold new_deadline in Hnew. rewrite port_bind in Hnew. destruct (bool_decide _) eqn:Hepoch; [|done].
  apply bool_decide_eq_true in Hepoch. destruct (check (mkDeadline c None None None) _) as [d0 a0] eqn:E0.
  apply check_sound in E0 as [(Hc0 & _) Hp0]. destruct a0 as [t0|]; [|done]. cbn [mbind result_bind] in Hnew.
  destruct (Hp0 _ eq_refl) as ((n0 & Hread & Hm0 & _) & Hu0 & _). unfold last_ns, last_wall in Hnew. rewrite Hread, port_bind in Hnew.
  case_if_in Hnew; [|done]. destruct (utc (deadline_at c)) as [bound|] eqn:Eb; [|done]. cbn [require mbind result_bind] in Hnew.
  rewrite port_bind in Hnew. case_if_in Hnew; [|done]. injection Hnew as <-. cbn [context] in Hc0.
  destruct (checks_confined _ _ _ _ _ _ Hl Hc) as (d' & (Hcd & _ & Hmono) & ((ns & Hr & Hns & Hlt) & Hwall & Hpass) & HF).
  destruct (Hmono _ _ Hread) as (n' & w' & Hr' & Hn' & Hw'). rewrite Hr in Hr'. injection Hr' as -> ->.
  destruct (Hpass Hc) as (Hin & Hcov & Ha & bound' & Hb' & Hlb). rewrite Hcd, Hc0 in *. rewrite Eb in Hb'. injection Hb' as <-.
  specialize (Hlt Hc). bool_simpl. split_and!; try done.
  - exists t0, bound. split_and!; (done || lia).
  - exists n0, n'. split_and!; (done || lia).
  - by apply Hcov.
Qed.

(** A deadline of twenty seconds, checked inside and after the window of a source. *)
Definition sample_bounds : bounds := mkBounds "epoch-1" "2026-01-01T00:00:20.000000Z" 20000000000 "cancel-1".
Definition sample_reading (s : Z) : reading := mkReading (Some (s * 1000000000)) (Some (1767225600000000 + s * 1000000)) true.
Definition sample_window : string * string := ("2026-01-01T00:00:00.000000Z", "2026-01-01T00:00:09.000000Z").
Definition sample_requests : list request :=
  [mkRequest [sample_window] false (sample_reading 1); mkRequest [] false (sample_reading 8); mkRequest [] false (sample_reading 10)].
Definition sample_deadline : Deadline :=
  Eval vm_compute in match new_deadline sample_bounds "epoch-1" (sample_reading 0) with Ok d => d | Raise _ => mkDeadline sample_bounds None None None end.

Lemma deadline_confined_witness :
  (checks sample_deadline sample_requests).2.*2 =
    [Ok 1767225601000000; Ok 1767225608000000; Raise (PortError "SOURCE_UNAVAILABLE" None)] /\
  Forall (respected 1767225608000000) [(mkRequest [sample_window] false (sample_reading 1), Ok 1767225601000000)].
Proof.
  split; [vm_compute; reflexivity|].
  apply (deadline_confined sample_bounds "epoch-1" (sample_reading 0) sample_deadline sample_requests
    [(mkRequest [sample_window] false (sample_reading 1), Ok 1767225601000000)] (mkRequest [] false (sample_reading 8)) 1767225608000000
    [(mkRequest [] false (sample_reading 10), Raise (PortError "SOURCE_UNAVAILABLE" None))]); vm_compute; reflexivity.
Defined.
