(* ===== verification/Ledger.v ===== *)
(** The tables of the AI budget, src/backend/app/ai/w2/schema.py, and the transactions over
    them.

    A transaction is a function of the tables that returns the new tables or an exception;
    an exception rolls back. The rows that the code locks are the tables themselves: two
    transactions on one budget do not interleave. *)

From S2P Require Import Prelude.
From S2P Require Import PyStr.
From S2P Require Import PyJson.
From S2P Require Import Codec.
From S2P Require Import PyTime.
From S2P Require Import Records.

Open Scope Z_scope.

(** * Rows *)

Record policy_row := mkPolicy {
  pol_balance_id : string; scope_kind : string; pol_account_ref : string; pol_task_id : string; policy_id : string;
  policy_version : Z; pol_scope : json; manifest_digest : string; decision_ref : string; rate_card : string; currency : string;
  token_cap : option Z; cost_cap : option Z; call_cap : option Z; wall_cap_ns : option Z;
  pol_valid_from : instant; pol_expires_at : instant
}.
Record balance_row := mkBalance {
  bal_id : string; settled_tokens : Z; settled_microusd : Z; held_tokens : Z; held_microusd : Z; calls : Z; wall_ns : Z;
  bal_state : string; cancel_generation : Z
}.
Record core_row := mkCore {
  key_bytes : string; core_bytes : string; core_task_id : string; core_case_id : string; core_question_id : string;
  core_call_ref : string; core_account_ref : string; core_deployment_ref : string; account_balance : string; task_balance : string
}.
Record reservation_row := mkReservation {
  row_digest : string; reservation_id : string; receipt : string; owner_id : string; owner_generation : Z; row_state : string;
  row_held_tokens : Z; row_held_microusd : Z; actual_tokens : Z; actual_microusd : Z; event_count : Z; row_closed : bool;
  cancelled : bool; revision : Z
}.
Record admission_row := mkAdmission {
  adm_id : string; adm_account_ref : string; adm_deployment_ref : string; adm_generation : Z; admitted_at : instant;
  adm_expires_at : instant; adm_closed : bool
}.
Record marker_row := mkMarker { marker_event_id : string; marker_generation : Z; marker_ticket : string; marker_body_digest : string }.
Record event_row := mkEvent {
  event_id : string; event_key : string; event_sequence : Z; event_kind : string; event_digest : string; event_record : string
}.
Record copy_row := mkCopy {
  copy_event_id : string; copy_key : string; copy_epoch : string; copy_sequence : Z; copy_digest : string; copy_record : string
}.
Record settlement_row := mkSettlement {
  settlement_id : string; settlement_key : string; final_event_id : string; settlement_revision : Z; settlement_record : string
}.
Record posting_row := mkPosting {
  posting_settlement : string; posting_kind : string; posting_dimension : string; posting_balance : string;
  settled_delta : Z; held_delta : Z
}.
Record completion_row := mkCompletion { completion_id : string; completion_key : string; completion_digest : string; completion_record : string }.
Record conflict_row := mkConflict {
  conflict_id : string; conflict_key : string; existing_digest : string; incoming_digest : string; conflict_reason : string
}.
Record recovery_row := mkRecovery {
  decision_id : string; recovery_deployment : string; recovery_key : string; recovery_generation : Z; evidence_digest : string;
  recovery_record : string
}.

(** The tables; the first four by primary key. *)
Record ledger := mkLedger {
  policies : gmap string policy_row;
  balances : gmap string balance_row;
  cores : gmap string core_row;
  reservations : gmap string reservation_row;
  admissions : gmap string admission_row;
  markers : gmap string marker_row;
  events : list event_row;
  copies : list copy_row;
  settlements : list settlement_row;
  postings : list posting_row;
  completions : list completion_row;
  conflicts : list conflict_row;
  recoveries : list recovery_row
}.
Definition empty_ledger : ledger := mkLedger ∅ ∅ ∅ ∅ ∅ ∅ [] [] [] [] [] [] [].

Definition set_policies f l := mkLedger (f (policies l)) (balances l) (cores l) (reservations l) (admissions l) (markers l) (events l) (copies l) (settlements l) (postings l) (completions l) (conflicts l) (recoveries l).
Definition set_balances f l := mkLedger (policies l) (f (balances l)) (cores l) (reservations l) (admissions l) (markers l) (events l) (copies l) (settlements l) (postings l) (completions l) (conflicts l) (recoveries l).
Definition set_cores f l := mkLedger (policies l) (balances l) (f (cores l)) (reservations l) (admissions l) (markers l) (events l) (copies l) (settlements l) (postings l) (completions l) (conflicts l) (recoveries l).
Definition set_reservations f l := mkLedger (policies l) (balances l) (cores l) (f (reservations l)) (admissions l) (markers l) (events l) (copies l) (settlements l) (postings l) (completions l) (conflicts l) (recoveries l).
Definition set_admissions f l := mkLedger (policies l) (balances l) (cores l) (reservations l) (f (admissions l)) (markers l) (events l) (copies l) (settlements l) (postings l) (completions l) (conflicts l) (recoveries l).
Definition set_markers f l := mkLedger (policies l) (balances l) (cores l) (reservations l) (admissions l) (f (markers l)) (events l) (copies l) (settlements l) (postings l) (completions l) (conflicts l) (recoveries l).
Definition set_events f l := mkLedger (policies l) (balances l) (cores l) (reservations l) (admissions l) (markers l) (f (events l)) (copies l) (settlements l) (postings l) (completions l) (conflicts l) (recoveries l).
Definition set_copies f l := mkLedger (policies l) (balances l) (cores l) (reservations l) (admissions l) (markers l) (events l) (f (copies l)) (settlements l) (postings l) (completions l) (conflicts l) (recoveries l).
Definition set_settlements f l := mkLedger (policies l) (balances l) (cores l) (reservations l) (admissions l) (markers l) (events l) (copies l) (f (settlements l)) (postings l) (completions l) (conflicts l) (recoveries l).
Definition set_postings f l := mkLedger (policies l) (balances l) (cores l) (reservations l) (admissions l) (markers l) (events l) (copies l) (settlements l) (f (postings l)) (completions l) (conflicts l) (recoveries l).
Definition set_completions f l := mkLedger (policies l) (balances l) (cores l) (reservations l) (admissions l) (markers l) (events l) (copies l) (settlements l) (postings l) (f (completions l)) (conflicts l) (recoveries l).
Definition set_conflicts f l := mkLedger (policies l) (balances l) (cores l) (reservations l) (admissions l) (markers l) (events l) (copies l) (settlements l) (postings l) (completions l) (f (conflicts l)) (recoveries l).
Definition set_recoveries f l := mkLedger (policies l) (balances l) (cores l) (reservations l) (admissions l) (markers l) (events l) (copies l) (settlements l) (postings l) (completions l) (conflicts l) (f (recoveries l)).

(** * Transactions *)

(** [Integrity] is a violated constraint; [WrongRowCount] a query for one row that finds none
    or several. *)
Inductive ledger_error : Type :=
| Refused (e : record_error)
| Integrity
| WrongRowCount.

Definition T (A : Type) : Type := ledger -> result ledger_error (A * ledger).
#[export] Instance T_ret : MRet T := fun A a db => Ok (a, db).
#[export] Instance T_bind : MBind T := fun A B f m db =>
  match m db with Ok (a, db') => f a db' | Raise e => Raise e end.

Definition fail {A} (e : ledger_error) : T A := fun _ => Raise e.
Definition tables : T ledger := fun db => Ok (db, db).
Definition modify (f : ledger -> ledger) : T unit := fun db => Ok (tt, f db).
Definition from_record {A} (r : result record_error A) : T A := fun db =>
  match r with Ok a => Ok (a, db) | Raise e => Raise (Refused e) end.
Definition demand (b : bool) (code : string) : T unit := from_record (port_require b code).
Definition demand_some {A} (o : option A) (code : string) : T A :=
  match o with Some a => mret a | None => fail (Refused (port_error code None)) end.
(** A constraint of the schema. *)
Definition constraint (b : bool) : T unit := if b then mret tt else fail Integrity.

(** * Constraints *)

Definition amount_ok (n : Z) : bool := (0 <=? n) && (n <=? MAX_N).
Definition balance_ok (b : balance_row) : bool :=
  amount_ok (settled_tokens b) && amount_ok (settled_microusd b) && amount_ok (held_tokens b) && amount_ok (held_microusd b) &&
  amount_ok (calls b) && amount_ok (wall_ns b) && (1 <=? cancel_generation b) && (cancel_generation b <=? 2147483647) &&
  bool_decide (bal_state b ∈ ["ACTIVE"; "PAUSED_UNKNOWN"; "CANCELLED"; "CLOSED"]).
Definition reservation_ok (r : reservation_row) : bool :=
  (1 <=? owner_generation r) && (owner_generation r <=? 2147483647) &&
  amount_ok (row_held_tokens r) && amount_ok (row_held_microusd r) && amount_ok (actual_tokens r) && amount_ok (actual_microusd r) &&
  (0 <=? event_count r) && (event_count r <=? 64) && (0 <=? revision r) && (revision r <=? 2147483647) &&
  bool_decide (row_state r ∈ ["RESERVED"; "ADMITTED"; "SEND_INTENT"; "IN_DOUBT"; "SETTLED"; "CONFLICT"]) && (byte_len (receipt r) <=? 32768).
Definition policy_ok (p : policy_row) : bool :=
  let cap o := match o with Some n => amount_ok n | None => true end in
  bool_decide (scope_kind p ∈ ["account"; "task"]) && bool_decide (currency p = "USD") && (1 <=? policy_version p) && (policy_version p <=? 10000) &&
  cap (token_cap p) && cap (cost_cap p) && cap (call_cap p) && cap (wall_cap_ns p) && (pol_valid_from p <? pol_expires_at p).

(** [UPDATE ... WHERE key] *)
Definition update_balance (bid : string) (f : balance_row -> balance_row) : T unit :=
  db ← tables;
  match balances db !! bid with
  | None => mret tt
  | Some b => _ ← constraint (balance_ok (f b)); modify (set_balances <[bid := f b]>)
  end.
Definition update_reservation (digest : string) (f : reservation_row -> reservation_row) : T unit :=
  db ← tables;
  match reservations db !! digest with
  | None => mret tt
  | Some r => _ ← constraint (reservation_ok (f r)); modify (set_reservations <[digest := f r]>)
  end.
Definition update_balances (f : string -> balance_row -> balance_row) : T unit :=
  db ← tables;
  _ ← constraint (forallb (fun q : string * balance_row => balance_ok (f q.1 q.2)) (map_to_list (balances db)));
  modify (set_balances (map_imap (fun k b => Some (f k b)))).
Definition update_reservations (f : string -> reservation_row -> reservation_row) : T unit :=
  db ← tables;
  _ ← constraint (forallb (fun q : string * reservation_row => reservation_ok (f q.1 q.2)) (map_to_list (reservations db)));
  modify (set_reservations (map_imap (fun k r => Some (f k r)))).
Definition update_admissions (f : string -> admission_row -> admission_row) : T unit :=
  modify (set_admissions (map_imap (fun k a => Some (f k a)))).

(** [INSERT], with the unique constraints. *)
Definition insert_policy (p : policy_row) : T unit :=
  db ← tables;
  _ ← constraint (policy_ok p && is_none (policies db !! pol_balance_id p) &&
    forallb (fun q : string * policy_row => negb (bool_decide (scope_kind q.2 = scope_kind p) && bool_decide (pol_account_ref q.2 = pol_account_ref p) &&
      bool_decide (pol_task_id q.2 = pol_task_id p) && bool_decide (policy_id q.2 = policy_id p) && (policy_version q.2 =? policy_version p)))
      (map_to_list (policies db)));
  modify (set_policies <[pol_balance_id p := p]>).
Definition insert_balance (b : balance_row) : T unit :=
  db ← tables;
  _ ← constraint (balance_ok b && is_none (balances db !! bal_id b) && negb (is_none (policies db !! bal_id b)));
  modify (set_balances <[bal_id b := b]>).
Definition insert_core (digest : string) (c : core_row) : T unit :=
  db ← tables;
  _ ← constraint (is_none (cores db !! digest) && (byte_len (key_bytes c) <=? 32768) && (byte_len (core_bytes c) <=? 32768) &&
    negb (is_none (policies db !! account_balance c)) && negb (is_none (policies db !! task_balance c)) &&
    forallb (fun d : string * core_row => negb (bool_decide (core_call_ref d.2 = core_call_ref c)) &&
      negb (bool_decide (core_task_id d.2 = core_task_id c) && bool_decide (core_case_id d.2 = core_case_id c) &&
            bool_decide (core_question_id d.2 = core_question_id c))) (map_to_list (cores db)));
  modify (set_cores <[digest := c]>).
Definition insert_reservation (r : reservation_row) : T unit :=
  db ← tables;
  _ ← constraint (reservation_ok r && is_none (reservations db !! row_digest r) && negb (is_none (cores db !! row_digest r)) &&
    forallb (fun q : string * reservation_row => negb (bool_decide (reservation_id q.2 = reservation_id r))) (map_to_list (reservations db)));
  modify (set_reservations <[row_digest r := r]>).
Definition insert_admission (digest : string) (a : admission_row) : T unit :=
  db ← tables;
  _ ← constraint (is_none (admissions db !! digest) && negb (is_none (cores db !! digest)) &&
    forallb (fun q : string * admission_row => negb (bool_decide (adm_id q.2 = adm_id a)) &&
      (adm_closed q.2 || adm_closed a ||
       negb (bool_decide (adm_account_ref q.2 = adm_account_ref a)) && negb (bool_decide (adm_deployment_ref q.2 = adm_deployment_ref a))))
      (map_to_list (admissions db)));
  modify (set_admissions <[digest := a]>).
Definition insert_marker (digest : string) (m : marker_row) : T unit :=
  db ← tables;
  _ ← constraint (is_none (markers db !! digest) && negb (is_none (cores db !! digest)) && (byte_len (marker_ticket m) <=? 4096) &&
    forallb (fun q : string * marker_row => negb (bool_decide (marker_event_id q.2 = marker_event_id m))) (map_to_list (markers db)));
  modify (set_markers <[digest := m]>).
Definition insert_event (e : event_row) : T unit :=
  db ← tables;
  _ ← constraint ((1 <=? event_sequence e) && (event_sequence e <=? 64) && (byte_len (event_record e) <=? 4096) &&
    forallb (fun q => negb (bool_decide (event_id q = event_id e)) &&
      negb (bool_decide (event_key q = event_key e) && (event_sequence q =? event_sequence e))) (events db));
  modify (set_events (fun l => l ++ [e])).
Definition insert_copy (c : copy_row) : T unit :=
  db ← tables;
  _ ← constraint ((0 <? copy_sequence c) && (byte_len (copy_record c) <=? 4096) &&
    forallb (fun q => negb (bool_decide (copy_event_id q = copy_event_id c)) &&
      negb (bool_decide (copy_epoch q = copy_epoch c) && (copy_sequence q =? copy_sequence c))) (copies db));
  modify (set_copies (fun l => l ++ [c])).
Definition insert_settlement (s : settlement_row) : T unit :=
  db ← tables;
  _ ← constraint ((1 <=? settlement_revision s) && (settlement_revision s <=? 2147483647) && (byte_len (settlement_record s) <=? 4096) &&
    forallb (fun q => negb (bool_decide (settlement_id q = settlement_id s)) &&
      negb (bool_decide (settlement_key q = settlement_key s) && (settlement_revision q =? settlement_revision s))) (settlements db));
  modify (set_settlements (fun l => l ++ [s])).
Definition insert_posting (p : posting_row) : T unit :=
  db ← tables;
  _ ← constraint (negb (is_none (balances db !! posting_balance p)) &&
    (- MAX_N - 1 <=? settled_delta p) && (settled_delta p <=? MAX_N) && (- MAX_N - 1 <=? held_delta p) && (held_delta p <=? MAX_N) &&
    forallb (fun q => negb (bool_decide (posting_settlement q = posting_settlement p) && bool_decide (posting_kind q = posting_kind p) &&
      bool_decide (posting_dimension q = posting_dimension p))) (postings db));
  modify (set_postings (fun l => l ++ [p])).
Definition insert_completion (c : completion_row) : T unit :=
  db ← tables;
  _ ← constraint ((byte_len (completion_record c) <=? 4096) &&
    forallb (fun q => negb (bool_decide (completion_id q = completion_id c)) && negb (bool_decide (completion_digest q = completion_digest c)))
      (completions db));
  modify (set_completions (fun l => l ++ [c])).
Definition insert_conflict (c : conflict_row) : T unit :=
  db ← tables;
  _ ← constraint (forallb (fun q => negb (bool_decide (conflict_id q = conflict_id c)) &&
      negb (bool_decide (conflict_key q = conflict_key c) && bool_decide (existing_digest q = existing_digest c) &&
            bool_decide (incoming_digest q = incoming_digest c) && bool_decide (conflict_reason q = conflict_reason c))) (conflicts db));
  modify (set_conflicts (fun l => l ++ [c])).
Definition insert_recovery (r : recovery_row) : T unit :=
  db ← tables;
  _ ← constraint ((1 <=? recovery_generation r) && (recovery_generation r <=? 2147483647) && (byte_len (recovery_record r) <=? 32768) &&
    forallb (fun q => negb (bool_decide (decision_id q = decision_id r))) (recoveries db));
  modify (set_recoveries (fun l => l ++ [r])).
