(* ===== verification/Accounting.v ===== *)
(** The budget store, src/backend/app/ai/w2/accounting.py, up to settlement: policies,
    reservation, admission, markers, and the conservative handling of doubt and conflict.

    The hash and [uuid4] are arguments; [uuid4] may look at the tables, so any sequence of
    identifiers is covered. Waiting, cancellation and the connection are the environment of
    an operation. The mutations of the writer around a policy are not part of the tables. *)

From S2P Require Import Prelude.
From S2P Require Import PyStr.
From S2P Require Import PyJson.
From S2P Require Import Codec.
From S2P Require Import PyTime.
From S2P Require Import Records.
From S2P Require Import Ledger.

Open Scope Z_scope.

(** * Records *)

Definition field (r : json) (k : string) : json := match r with JObj o => item o k | _ => JNull end.
Definition text_of (r : json) (k : string) : string := default EmptyString (str_of (field r k)).
Definition number_of (r : json) (k : string) : Z := int_of (field r k).
(** [_name] *)
Definition is_record (name : string) (r : json) : bool := bool_decide (rec_format r = format_for name).
(** [encode] of a record, which is plain and so has a text ([plain_canonical]). *)
Definition encoded (r : json) : string := default EmptyString (ok_option (encode r)).

(** [scope_document] *)
Definition scope_fields (kind : string) : list string :=
  ["account_ref"; "deployment_ref"; "policy_id"; "policy_version"] ++
  if bool_decide (kind = "task") then ["task_id"; "project_ref"; "context_ref"; "context_version"; "context_generation"] else [].
Definition scope_document (scope : json) (kind : string) : list (string * json) := map (fun k => (k, field scope k)) (scope_fields kind).

(** [actual]: tokens and micro-USD, rounded up once. *)
Definition actual (usage : json) : result record_error (Z * Z) :=
  _ ← port_require (str_is (field usage "state") "known") "COMMIT_UNKNOWN";
  let i := number_of usage "input_tokens" in
  let o := number_of usage "output_tokens" in
  let c := number_of usage "cached_input_tokens" in
  let w := number_of usage "cache_write_tokens" in
  let cost := (20 * (i - c - w) + 2 * c + 25 * w + 120 * o + 9) / 10 in
  _ ← port_require (cost <=? MAX_N) "LIMIT_EXCEEDED";
  Ok (number_of usage "total_tokens", cost).

(** The answers of the deadline and the connection during one operation: opening the
    transaction, the readings of the clock in order, and the check after the commit. *)
Record surroundings := mkSurroundings {
  opened : result ledger_error unit;
  clock : nat -> result record_error instant;
  after_commit : result ledger_error unit
}.

Section store.
Variable hash : string -> string.
Variable uuid4 : ledger -> string.

Definition fingerprint_of (r : json) : string := default EmptyString (ok_option (fingerprint hash r)).
(** [balance_id] *)
Definition balance_id (scope : json) (kind : string) : string :=
  hash (default EmptyString (ok_option (canonical_of (JObj (("kind", JStr kind) :: scope_document scope kind))))).

(** [BudgetStore.transaction]: a failure before the commit leaves the tables unchanged, one
    after it does not undo it. *)
Definition budget_transaction {A} (s : surroundings) (body : T A) (db : ledger) : ledger * result ledger_error A :=
  match opened s with
  | Raise e => (db, Raise e)
  | Ok _ =>
      match body db with
      | Raise e => (db, Raise e)
      | Ok (a, db') => (db', match after_commit s with Ok _ => Ok a | Raise e => Raise e end)
      end
  end.

(** What an operation requires before it opens its transaction. *)
Definition first {A B} (r : result record_error A) (k : A -> ledger -> ledger * result ledger_error B) (db : ledger)
    : ledger * result ledger_error B :=
  match r with Ok a => k a db | Raise e => (db, Raise (Refused e)) end.

Abbreviation budgets := (list (balance_row * policy_row)).

(** * The helpers *)

(** [_balances] *)
Definition within_caps (b : balance_row) (p : policy_row) (tokens microusd : Z) : bool :=
  match token_cap p, cost_cap p with
  | Some t, Some c => (settled_tokens b + held_tokens b + tokens <=? t) && (settled_microusd b + held_microusd b + microusd <=? c)
  | _, _ => false
  end.
Definition budget_active (b : balance_row) (p : policy_row) (at_ : instant) (core : option json) : T unit :=
  _ ← demand (bool_decide (bal_state b = "ACTIVE") && (pol_valid_from p <=? at_) && (at_ <? pol_expires_at p)) "RESERVATION_UNAVAILABLE";
  _ ← demand (bool_decide (currency p = "USD") && bool_decide (rate_card p = RATE_CARD)) "RESERVATION_UNAVAILABLE";
  _ ← demand (negb (is_none (token_cap p) || is_none (cost_cap p) || is_none (call_cap p) || is_none (wall_cap_ns p))) "RESERVATION_UNAVAILABLE";
  _ ← demand (within_caps b p 0 0) "RESERVATION_UNAVAILABLE";
  match core with
  | Some core => expires ← from_record (time_of (field core "expires_at")); demand (expires <=? pol_expires_at p) "RESERVATION_UNAVAILABLE"
  | None => mret tt
  end.
Definition load_budget (scope : json) (kind : string) (active : option instant) (core : option json) : T (balance_row * policy_row) :=
  db ← tables;
  let bid := balance_id scope kind in
  match balances db !! bid, policies db !! bid with
  | Some b, Some p =>
      _ ← demand (py_eqb (pol_scope p) (JObj (scope_document scope kind))) "RESERVATION_UNAVAILABLE";
      _ ← match active with Some at_ => budget_active b p at_ core | None => mret tt end;
      mret (b, p)
  | _, _ => fail (Refused (port_error "RESERVATION_UNAVAILABLE" None))
  end.
Definition load_budgets (scope : json) (active : option instant) (core : option json) : T budgets :=
  account ← load_budget scope "account" active core;
  task ← load_budget scope "task" active core;
  mret [account; task].

(** [_call] *)
Definition load_call (key : json) (ctx : option json) : T (reservation_row * json) :=
  _ ← demand (is_record "ReservationKey" key) "INVALID_RECORD";
  db ← tables;
  let digest := fingerprint_of key in
  core ← demand_some (cores db !! digest) "RESERVATION_UNAVAILABLE";
  _ ← demand (bool_decide (key_bytes core = encoded key)) "RESERVATION_UNAVAILABLE";
  record ← from_record (decode "BindingCore" (core_bytes core));
  _ ← demand (bool_decide (fingerprint_of record = text_of key "core_digest") && py_eqb (field record "scope") (field key "scope") &&
              bool_decide (text_of record "call_ref" = text_of key "call_ref")) "CONFLICT";
  row ← demand_some (reservations db !! digest) "RESERVATION_UNAVAILABLE";
  _ ← match ctx with
      | None => mret tt
      | Some ctx =>
          _ ← demand (bool_decide (owner_id row = text_of ctx "owner_id") && (owner_generation row =? number_of ctx "owner_generation")) "OWNER_LOST";
          let scoped := if is_record "RecoveryContext" ctx then field (field ctx "read") "scope" else field ctx "scope" in
          demand (py_eqb scoped (field key "scope")) "OWNER_LOST"
      end;
  mret (row, record).

(** Updates of the working copy of a row. *)
Definition with_state (s : string) (r : reservation_row) : reservation_row :=
  mkReservation (row_digest r) (reservation_id r) (receipt r) (owner_id r) (owner_generation r) s (row_held_tokens r) (row_held_microusd r)
    (actual_tokens r) (actual_microusd r) (event_count r) (row_closed r) (cancelled r) (revision r).
Definition with_events (n : Z) (r : reservation_row) : reservation_row :=
  mkReservation (row_digest r) (reservation_id r) (receipt r) (owner_id r) (owner_generation r) (row_state r) (row_held_tokens r) (row_held_microusd r)
    (actual_tokens r) (actual_microusd r) n (row_closed r) (cancelled r) (revision r).
Definition with_held (tokens microusd : Z) (r : reservation_row) : reservation_row :=
  mkReservation (row_digest r) (reservation_id r) (receipt r) (owner_id r) (owner_generation r) (row_state r) tokens microusd
    (actual_tokens r) (actual_microusd r) (event_count r) (row_closed r) (cancelled r) (revision r).
Definition with_closed (b : bool) (r : reservation_row) : reservation_row :=
  mkReservation (row_digest r) (reservation_id r) (receipt r) (owner_id r) (owner_generation r) (row_state r) (row_held_tokens r) (row_held_microusd r)
    (actual_tokens r) (actual_microusd r) (event_count r) b (cancelled r) (revision r).
Definition bal_with_state (s : string) (b : balance_row) : balance_row :=
  mkBalance (bal_id b) (settled_tokens b) (settled_microusd b) (held_tokens b) (held_microusd b) (calls b) (wall_ns b) s (cancel_generation b).
Definition bal_with_held (tokens microusd : Z) (b : balance_row) : balance_row :=
  mkBalance (bal_id b) (settled_tokens b) (settled_microusd b) tokens microusd (calls b) (wall_ns b) (bal_state b) (cancel_generation b).
Definition bal_reserve (tokens microusd calls wall : Z) (b : balance_row) : balance_row :=
  mkBalance (bal_id b) (settled_tokens b) (settled_microusd b) tokens microusd calls wall (bal_state b) (cancel_generation b).

(** [_event]; the record is given by its text. *)
Definition add_event (row : reservation_row) (kind raw : string) (id : option string) (recovery : bool) : T reservation_row :=
  _ ← demand (byte_len raw <=? 4096) "LIMIT_EXCEEDED";
  db ← tables;
  let eid := match id with Some eid => eid | None => uuid4 db end in
  match find_first (fun e => bool_decide (event_id e = eid)) (events db) with
  | Some prior =>
      _ ← demand (bool_decide (event_key prior = row_digest row) && bool_decide (event_record prior = raw)) "CONFLICT";
      mret row
  | None =>
      _ ← demand (event_count row <? (if recovery then 64 else 56)) "LIMIT_EXCEEDED";
      let row := with_events (event_count row + 1) row in
      _ ← insert_event (mkEvent eid (row_digest row) (event_count row) kind (hash raw) raw);
      _ ← update_reservation (row_digest row) (with_events (event_count row));
      mret row
  end.

(** [_pause] *)
Fixpoint pause_budgets (bals : budgets) : T budgets :=
  match bals with
  | [] => mret []
  | (b, p) :: rest =>
      let b := bal_with_state (if bool_decide (bal_state b = "CANCELLED") then "CANCELLED" else "PAUSED_UNKNOWN") b in
      _ ← update_balance (bal_id b) (bal_with_state (bal_state b));
      rest ← pause_budgets rest;
      mret ((b, p) :: rest)
  end.
Definition pause (key : json) (row : reservation_row) (bals : budgets) (state : string) : T (reservation_row * budgets) :=
  let row := with_state (if bool_decide (row_state row = "CONFLICT") then "CONFLICT" else state) row in
  _ ← update_reservation (fingerprint_of key) (with_state (row_state row));
  bals ← pause_budgets bals;
  mret (row, bals).

(** [_retain]: the amounts to hold, then what every counter can represent. *)
Definition held_amounts (row : reservation_row) (receipt : json) (incoming : option json) : Z * Z :=
  let t := Z.max (row_held_tokens row) (number_of receipt "reserved_tokens") in
  let c := Z.max (row_held_microusd row) (number_of receipt "reserved_microusd") in
  match incoming with
  | Some e =>
      if str_is (field (field e "usage") "state") "known" then
        match actual (field e "usage") with
        | Ok (tokens, cost) => (Z.max t (tokens - actual_tokens row), Z.max c (cost - actual_microusd row))
        | Raise _ => (t, c)
        end
      else (t, c)
  | None => (t, c)
  end.
Definition representable (counters : list Z) (old reserved wanted : Z) : Z :=
  let over x := existsb (fun n => MAX_N <? n + x - old) counters in
  if over wanted then let original := Z.max old reserved in if over original then old else original else wanted.
Fixpoint move_held (dt dc : Z) (bals : budgets) : T budgets :=
  match bals with
  | [] => mret []
  | (b, p) :: rest =>
      let b := bal_with_held (held_tokens b + dt) (held_microusd b + dc) b in
      _ ← update_balance (bal_id b) (bal_with_held (held_tokens b) (held_microusd b));
      rest ← move_held dt dc rest;
      mret ((b, p) :: rest)
  end.
Definition retain (key : json) (row : reservation_row) (bals : budgets) (incoming : option json) : T (reservation_row * budgets) :=
  receipt ← from_record (decode "Reservation" (receipt row));
  let '(t, c) := held_amounts row receipt incoming in
  let t := representable (map (fun b => held_tokens b.1) bals) (row_held_tokens row) (number_of receipt "reserved_tokens") t in
  let c := representable (map (fun b => held_microusd b.1) bals) (row_held_microusd row) (number_of receipt "reserved_microusd") c in
  bals ← move_held (t - row_held_tokens row) (c - row_held_microusd row) bals;
  _ ← update_reservation (fingerprint_of key) (with_held t c);
  mret (with_held t c row, bals).

(** [_conflict] *)
Definition conflict (key : json) (row : reservation_row) (bals : budgets) (existing incoming reason : string) (record : option json)
    : T (reservation_row * budgets) :=
  db ← tables;
  row ← (if is_none (find_first (fun q => bool_decide (conflict_key q = fingerprint_of key) && bool_decide (existing_digest q = existing) &&
                       bool_decide (incoming_digest q = incoming) && bool_decide (conflict_reason q = reason)) (conflicts db)) &&
            (event_count row <? 64)
         then
           let cid := uuid4 db in
           _ ← insert_conflict (mkConflict cid (fingerprint_of key) existing incoming reason);
           raw ← from_record (canonical_of (JObj [("existing_digest", JStr existing); ("incoming_digest", JStr incoming); ("reason", JStr reason);
                                                   ("incoming", default JNull record)]));
           add_event row "CONFLICT" raw (Some cid) true
         else mret row);
  '(row, bals) ← retain key row bals record;
  pause key row bals "CONFLICT".

(** * The operations *)

(** [dict(old) == body] *)
Definition policy_eqb (p q : policy_row) : bool :=
  bool_decide (pol_balance_id p = pol_balance_id q) && bool_decide (scope_kind p = scope_kind q) && bool_decide (pol_account_ref p = pol_account_ref q) &&
  bool_decide (pol_task_id p = pol_task_id q) && bool_decide (policy_id p = policy_id q) && (policy_version p =? policy_version q) &&
  py_eqb (pol_scope p) (pol_scope q) && bool_decide (manifest_digest p = manifest_digest q) && bool_decide (decision_ref p = decision_ref q) &&
  bool_decide (rate_card p = rate_card q) && bool_decide (currency p = currency q) && bool_decide (token_cap p = token_cap q) &&
  bool_decide (cost_cap p = cost_cap q) && bool_decide (call_cap p = call_cap q) && bool_decide (wall_cap_ns p = wall_cap_ns q) &&
  (pol_valid_from p =? pol_valid_from q) && (pol_expires_at p =? pol_expires_at q).

Record caps := mkCaps { cap_tokens : option Z; cap_microusd : option Z; cap_calls : option Z; cap_wall_ns : option Z }.

(** [install_policy] *)
Definition policy_checks (scope : json) (kind : string) (c : caps) (manifest decision valid_from expires_at : string) : result record_error policy_row :=
  _ ← port_require (bool_decide (kind ∈ ["task"; "account"])) "INVALID_RECORD";
  _ ← port_require (forallb (fun c => match c with Some n => amount_ok n | None => true end) [cap_tokens c; cap_microusd c; cap_calls c; cap_wall_ns c])
        "INVALID_RECORD";
  _ ← port_require (match assoc "Hash" PATTERNS, assoc "Id" PATTERNS with
                    | Some h, Some i => fullmatch h manifest && fullmatch i decision | _, _ => false end) "INVALID_RECORD";
  from ← time_of (JStr valid_from);
  until ← time_of (JStr expires_at);
  Ok (mkPolicy (balance_id scope kind) kind (text_of scope "account_ref") (if bool_decide (kind = "task") then text_of scope "task_id" else "")
        (text_of scope "policy_id") (number_of scope "policy_version") (JObj (scope_document scope kind)) manifest decision RATE_CARD "USD"
        (cap_tokens c) (cap_microusd c) (cap_calls c) (cap_wall_ns c) from until).
(** The balances of the account's own budgets. *)
Definition account_balances (account : string) (db : ledger) : list (string * balance_row) :=
  List.filter (fun q => match policies db !! q.1 with
                        | Some p => bool_decide (pol_account_ref p = account) && bool_decide (scope_kind p = "account") | None => false end)
    (map_to_list (balances db)).
Definition install_policy (s : surroundings) (scope : json) (kind : string) (c : caps) (manifest decision valid_from expires_at : string)
    : ledger -> ledger * result ledger_error string :=
  first (policy_checks scope kind c manifest decision valid_from expires_at) (fun body => budget_transaction s (
    db ← tables;
    let bid := pol_balance_id body in
    match policies db !! bid with
    | Some old => _ ← demand (policy_eqb old body) "CONFLICT"; mret bid
    | None =>
        _ ← demand (forallb (fun q : string * balance_row => (held_tokens q.2 =? 0) && (held_microusd q.2 =? 0) &&
                      negb (bool_decide (bal_state q.2 ∈ ["PAUSED_UNKNOWN"; "CANCELLED"])))
                      (account_balances (pol_account_ref body) db)) "RESERVATION_UNAVAILABLE";
        _ ← demand (negb (bool_decide (kind = "task")) ||
                    (Z.of_nat (length (filter (fun q : string * policy_row => pol_account_ref q.2 = pol_account_ref body /\ scope_kind q.2 = "task")
                       (map_to_list (policies db)))) <? 4096)) "LIMIT_EXCEEDED";
        _ ← insert_policy body;
        _ ← insert_balance (mkBalance bid 0 0 0 0 0 0 "ACTIVE" 1);
        mret bid
    end)).

(** What a successful preparation hands over. *)
Record prepared := mkPrepared { prep_key : json; prep_core : json; prep_manifest : string }.

Definition call_ns : Z := 30000000000.

(** The two loops over the balances. *)
Definition room (core : json) (manifest : string) (b : balance_row) (q : policy_row) : T unit :=
  _ ← demand (negb (bool_decide (scope_kind q = "task")) || bool_decide (manifest_digest q = manifest)) "RESERVATION_UNAVAILABLE";
  demand (within_caps b q (number_of core "reserved_tokens") (number_of core "reserved_microusd") &&
          match call_cap q, wall_cap_ns q with Some n, Some w => (calls b <? n) && (wall_ns b + call_ns <=? w) | _, _ => false end)
    "RESERVATION_UNAVAILABLE".
Fixpoint check_room (core : json) (manifest : string) (bals : budgets) : T unit :=
  match bals with
  | [] => mret tt
  | (b, q) :: rest => _ ← room core manifest b q; check_room core manifest rest
  end.
Fixpoint charge (tokens microusd : Z) (bals : budgets) : T unit :=
  match bals with
  | [] => mret tt
  | (b, _) :: rest =>
      _ ← update_balance (bal_id b) (bal_reserve (held_tokens b + tokens) (held_microusd b + microusd) (calls b + 1) (wall_ns b + call_ns));
      charge tokens microusd rest
  end.
(** The part of [reserve_v1] for a question without a reservation. *)
Definition new_reservation (run key : json) (p : prepared) (bals : budgets) : T json :=
  let core := prep_core p in
  let tokens := number_of core "reserved_tokens" in
  let microusd := number_of core "reserved_microusd" in
  let scope := field key "scope" in
  _ ← check_room core (prep_manifest p) bals;
  db ← tables;
  let same_task := filter (fun q : string * core_row => core_task_id q.2 = text_of scope "task_id") (map_to_list (cores db)) in
  let cases := filter (fun q : string * core_row => core_case_id q.2 = text_of scope "case_id" /\ is_Some (reservations db !! q.1)) same_task in
  _ ← demand (Z.of_nat (length cases) <? 2) "RESERVATION_UNAVAILABLE";
  _ ← demand (forallb (fun q : string * core_row => match reservations db !! q.1 with Some r => bool_decide (row_state r = "SETTLED") | None => false end) cases)
        "RESERVATION_UNAVAILABLE";
  _ ← demand ((Z.of_nat (size (list_to_set (C := gset string) (map (fun q => core_case_id q.2) same_task))) <? 32) ||
              negb (bool_decide (cases = []))) "LIMIT_EXCEEDED";
  receipt ← from_record (make "Reservation"
    [("key", key); ("reservation_id", JStr (uuid4 db)); ("owner_id", field run "owner_id"); ("owner_generation", field run "owner_generation");
     ("input_limit", JInt 4096); ("output_limit", JInt 1024); ("reserved_tokens", JInt tokens); ("reserved_microusd", JInt microusd);
     ("currency", JStr "USD"); ("rate_card", JStr RATE_CARD); ("usage_mapping", JStr USAGE_MAPPING); ("expires_at", field core "expires_at");
     ("measurement_kind", JStr "synthetic")]);
  let digest := fingerprint_of key in
  _ ← insert_core digest (mkCore (encoded key) (encoded core) (text_of scope "task_id") (text_of scope "case_id") (text_of core "question_id")
        (text_of key "call_ref") (text_of scope "account_ref") (text_of scope "deployment_ref") (balance_id scope "account") (balance_id scope "task"));
  let row := mkReservation digest (text_of receipt "reservation_id") (encoded receipt) (text_of run "owner_id") (number_of run "owner_generation")
               "RESERVED" tokens microusd 0 0 0 false false 0 in
  _ ← insert_reservation row;
  raw ← from_record (canonical_of (JObj [("key_digest", JStr digest); ("core_digest", field key "core_digest")]));
  _ ← add_event row "RESERVED" raw None false;
  _ ← charge tokens microusd bals;
  mret receipt.

(** [reserve_v1]; [None] is a conflict with an earlier reservation of the question, which is
    committed before it is raised. *)
Definition reserve_body (s : surroundings) (run key : json) (p : prepared) : T (option json) :=
  let core := prep_core p in
  let scope := field key "scope" in
  at_ ← from_record (clock s 1);
  bals ← load_budgets scope (Some at_) (Some core);
  db ← tables;
  if negb (is_none (cores db !! fingerprint_of key)) then
    '(row, old) ← load_call key (Some run);
    _ ← demand (py_eqb old core) "CONFLICT";
    r ← from_record (decode "Reservation" (receipt row));
    mret (Some r)
  else
    match find_first (fun q : string * core_row => bool_decide (core_task_id q.2 = text_of scope "task_id") && bool_decide (core_case_id q.2 = text_of scope "case_id") &&
            bool_decide (core_question_id q.2 = text_of core "question_id")) (map_to_list (cores db)) with
    | Some (_, existing) =>
        original ← from_record (decode "ReservationKey" (key_bytes existing));
        _ ← demand (py_eqb (field original "scope") scope) "RESERVATION_UNAVAILABLE";
        '(row, prior) ← load_call original None;
        _ ← conflict original row bals (fingerprint_of prior) (fingerprint_of core) "CORE_CONFLICT" None;
        mret None
    | None => r ← new_reservation run key p bals; mret (Some r)
    end.
Definition reserve_v1 (s : surroundings) (run key : json) (p : prepared) (db : ledger) : ledger * result ledger_error json :=
  let core := prep_core p in
  let allowed :=
    _ ← port_require (py_eqb (prep_key p) key && py_eqb (field run "scope") (field key "scope") &&
                      bool_decide (text_of run "call_ref" = text_of key "call_ref") && (number_of run "attempt" =? 1)) "RESERVATION_UNAVAILABLE";
    _ ← clock s 0;
    d ← time_of (field run "deadline_at");
    e ← time_of (field core "expires_at");
    port_require (d <=? e) "DEADLINE_EXCEEDED" in
  match allowed with
  | Raise e => (db, Raise (Refused e))
  | Ok _ =>
      let '(db', answer) := budget_transaction s (reserve_body s run key p) db in
      (db', match answer with
            | Ok (Some r) => Ok r
            | Ok None => Raise (Refused (port_error "CONFLICT" (Some (fingerprint_of key))))
            | Raise e => Raise e
            end)
  end.

(** [lookup_reservation_v1] *)
Definition lookup_reservation_v1 (s : surroundings) (read key : json) (db : ledger) : ledger * result ledger_error json :=
  first (port_require (py_eqb (field read "scope") (field key "scope")) "RESERVATION_UNAVAILABLE") (fun _ => budget_transaction s
    (_ ← load_budgets (field key "scope") None None;
     '(row, _) ← load_call key None;
     from_record (decode "Reservation" (receipt row)))) db.

(** [admit_v1] *)
Definition admit_v1 (s : surroundings) (run receipt_ : json) : ledger -> ledger * result ledger_error json :=
  let key := field receipt_ "key" in
  let scope := field key "scope" in
  budget_transaction s
    (at0 ← from_record (clock s 0);
     _ ← load_budgets scope (Some at0) None;
     '(row, core) ← load_call key (Some run);
     _ ← demand (bool_decide (row_state row = "RESERVED") && negb (cancelled row) && negb (row_closed row)) "RESERVATION_UNAVAILABLE";
     _ ← demand (bool_decide (receipt row = encoded receipt_)) "RESERVATION_UNAVAILABLE";
     db ← tables;
     let near := filter (fun q : string * admission_row => adm_account_ref q.2 = text_of scope "account_ref" \/ adm_deployment_ref q.2 = text_of scope "deployment_ref")
                   (map_to_list (admissions db)) in
     _ ← demand (forallb (fun q : string * admission_row => adm_closed q.2) near) "RESERVATION_UNAVAILABLE";
     at_ ← from_record (clock s 1);
     _ ← demand (forallb (fun q : string * admission_row => 1000000 <=? at_ - admitted_at q.2) near) "RESERVATION_UNAVAILABLE";
     let generation := number_of run "owner_generation" in
     admission ← from_record (make "Admission"
       [("key", key); ("admission_id", JStr (uuid4 db)); ("owner_generation", field run "owner_generation"); ("admitted_at", JStr (stamp at_));
        ("expires_at", field receipt_ "expires_at")]);
     expires ← from_record (time_of (field receipt_ "expires_at"));
     _ ← insert_admission (fingerprint_of key) (mkAdmission (text_of admission "admission_id") (text_of scope "account_ref") (text_of scope "deployment_ref")
           generation at_ expires false);
     _ ← update_reservation (fingerprint_of key) (with_state "ADMITTED");
     _ ← add_event row "ADMITTED" (encoded admission) None false;
     mret admission).

(** [marker] *)
Definition marker (s : surroundings) (run admission ticket : json) (db : ledger) : ledger * result ledger_error string :=
  let key := field admission "key" in
  let digest := fingerprint_of key in
  first (port_require (bool_decide (text_of ticket "key_digest" = digest) && (number_of ticket "owner_generation" =? number_of run "owner_generation")) "INVALID_RECORD")
    (fun _ => budget_transaction s
    (at_ ← from_record (clock s 0);
     _ ← load_budgets (field key "scope") (Some at_) None;
     '(row, core) ← load_call key (Some run);
     _ ← demand (bool_decide (row_state row = "ADMITTED") && negb (cancelled row)) "RESERVATION_UNAVAILABLE";
     db ← tables;
     stored ← match admissions db !! digest with Some a => mret a | None => fail WrongRowCount end;
     _ ← demand (negb (adm_closed stored) && bool_decide (adm_id stored = text_of admission "admission_id") &&
                 (adm_generation stored =? number_of run "owner_generation") && bool_decide (text_of ticket "body_digest" = text_of core "body_digest")) "OWNER_LOST";
     let eid := uuid4 db in
     _ ← insert_marker digest (mkMarker eid (number_of run "owner_generation") (encoded ticket) (text_of core "body_digest"));
     raw ← from_record (canonical_of (JObj [("key_digest", JStr digest); ("ticket_id", field ticket "ticket_id")]));
     _ ← add_event row "SEND_INTENT" raw (Some eid) false;
     _ ← update_reservation digest (with_state "SEND_INTENT");
     mret eid)) db.

(** [mark_unknown] *)
Definition mark_unknown (s : surroundings) (ctx key : json) : ledger -> ledger * result ledger_error unit :=
  budget_transaction s
    (bals ← load_budgets (field key "scope") None None;
     '(row, _) ← load_call key (Some ctx);
     '(row, bals) ← retain key row bals None;
     _ ← pause key row bals "IN_DOUBT";
     mret tt).

(** [terminal_projection]; [usage] is given by its text. *)
Definition projection_checks (ctx key : json) (terminal usage : string) : result record_error string :=
  _ ← port_require (bool_decide (terminal ∈ TERMINALS)) "INVALID_RECORD";
  usage ← decode "UsageView" usage;
  canonical_of (JObj [("key_digest", JStr (fingerprint_of key)); ("owner_generation", field ctx "owner_generation"); ("terminal", JStr terminal); ("usage", usage)]).
Definition terminal_projection (s : surroundings) (ctx key : json) (terminal usage : string) : ledger -> ledger * result ledger_error string :=
  first (projection_checks ctx key terminal usage) (fun raw => budget_transaction s
    (_ ← load_budgets (field key "scope") None None;
     '(row, _) ← load_call key None;
     _ ← demand (py_eqb (field ctx "scope") (field key "scope") && (number_of ctx "owner_generation" <=? owner_generation row)) "OWNER_LOST";
     _ ← add_event row "TERMINAL_PROJECTION" raw (Some (hash raw)) false;
     mret (hash raw))).

(** [finish]; [closed] is what the observer says of its coverage and of the stream. *)
Definition finish_call (s : surroundings) (ctx key : json) (closed : bool) : ledger -> ledger * result ledger_error unit :=
  first (port_require closed "OBSERVER_UNAVAILABLE") (fun _ => budget_transaction s
    (_ ← load_budgets (field key "scope") None None;
     _ ← load_call key (Some ctx);
     _ ← update_admissions (fun k a => if bool_decide (k = fingerprint_of key) && (adm_generation a =? number_of ctx "owner_generation")
           then mkAdmission (adm_id a) (adm_account_ref a) (adm_deployment_ref a) (adm_generation a) (admitted_at a) (adm_expires_at a) true else a);
     update_reservation (fingerprint_of key) (with_closed true))).

(** [persist_completion] *)
Definition persist_completion (s : surroundings) (ctx key completion : json) : ledger -> ledger * result ledger_error unit :=
  first (port_require (bool_decide (text_of completion "key_digest" = fingerprint_of key) && str_is (field completion "display_state") "SUPPRESSED") "INVALID_RECORD")
    (fun _ => budget_transaction s
    (_ ← load_budgets (field key "scope") None None;
     '(row, _) ← load_call key (Some ctx);
     db ← tables;
     if is_none (find_first (fun c => bool_decide (completion_digest c = fingerprint_of completion)) (completions db)) then
       _ ← add_event row "COMPLETION" (encoded completion) (Some (text_of completion "completion_id")) true;
       insert_completion (mkCompletion (text_of completion "completion_id") (fingerprint_of key) (fingerprint_of completion) (encoded completion))
     else mret tt)).

(** [current_settlement] *)
Definition latest_settlement (digest : string) (db : ledger) : option settlement_row :=
  foldr (fun q best => match best with
                       | Some b => if settlement_revision b <? settlement_revision q then Some q else best
                       | None => Some q end) None
    (filter (fun q => settlement_key q = digest) (settlements db)).
Definition current_settlement (s : surroundings) (key : json) : ledger -> ledger * result ledger_error json :=
  budget_transaction s
    (_ ← load_budgets (field key "scope") None None;
     '(row, _) ← load_call key None;
     db ← tables;
     let digest := fingerprint_of key in
     if bool_decide (row_state row = "SETTLED") then
       latest ← demand_some (latest_settlement digest db) "CONFLICT";
       from_record (decode "Settlement" (settlement_record latest))
     else
       raw ← from_record (canonical_of (JArr [JStr digest; JInt (revision row)]));
       from_record (make "Settlement"
         [("key_digest", JStr digest); ("settlement_id", JStr "unresolved"); ("final_event_id", JStr "unknown"); ("revision", JInt (Z.max 1 (revision row)));
          ("state", JStr (if bool_decide (row_state row = "CONFLICT") then "CONFLICT" else "UNKNOWN")); ("settled_tokens", JInt (actual_tokens row));
          ("settled_microusd", JInt (actual_microusd row)); ("held_tokens", JInt (row_held_tokens row)); ("held_microusd", JInt (row_held_microusd row));
          ("refund_tokens", JInt 0); ("refund_microusd", JInt 0); ("overrun_tokens", JInt 0); ("overrun_microusd", JInt 0);
          ("accounting_digest", JStr (hash raw))])).
End store.
