(* ===== verification/Keys.v ===== *)
(** What the stored text of a record determines: two records with one encoding are the same
    up to the order of members, and so a reservation key names the same balances wherever
    it is read. *)

From S2P Require Import Prelude.
From S2P Require Import PyStr.
From S2P Require Import PyJson.
From S2P Require Import PyJsonText.
From S2P Require Import Codec.
From S2P Require Import Records.
From S2P Require Import Accounting.

Open Scope Z_scope.

(** The values of identifiers and versions. *)
Definition atom (v : json) : Prop := match v with JStr _ | JInt _ => True | _ => False end.
Definition same_scope (s1 s2 : json) : Prop := forall k, k ∈ scope_fields "task" -> field s1 k = field s2 k.

(** * Sorted members *)

Lemma assoc_perm {A} (l1 l2 : list (string * A)) k : NoDup l1.*1 -> l1 ≡ₚ l2 -> assoc k l1 = assoc k l2.
Proof.
  intros Hnd Hp. assert (Hnd2 : NoDup l2.*1) by (by rewrite <- Hp). destruct (assoc k l1) as [v|] eqn:E.
  - apply assoc_elem in E. rewrite Hp in E. symmetry. by apply assoc_distinct.
  - destruct (assoc k l2) as [v|] eqn:E2; [|done]. apply assoc_elem in E2. rewrite <- Hp in E2. by rewrite (assoc_distinct k v l1) in E.
Qed.
Lemma sort_json_atom v : atom v -> sort_json v = v.
Proof. by destruct v. Qed.
Lemma atom_sorted v : atom (sort_json v) <-> atom v.
Proof. by destruct v. Qed.
Lemma field_sorted r k : json_wf r = true -> field (sort_json r) k = sort_json (field r k).
Proof.
  destruct r as [| | | | | |o]; try done. intros H. cbn [json_wf] in H. apply andb_prop in H as [Hnd _]. apply bool_decide_eq_true in Hnd. cbn [sort_json field]. unfold item.
  rewrite <- (assoc_perm (map (fun kv => (kv.1, sort_json kv.2)) o)).
  - induction o as [|[k' v] o IH]; cbn; [done|]. case_bool_decide; [done|]. apply IH. by inversion Hnd.
  - change (NoDup ((fun kv : string * json => (kv.1, sort_json kv.2)) <$> o).*1). by rewrite <- list_fmap_compose.
  - symmetry. apply sort_members_perm.
Qed.

(** * One text, one record *)

Lemma decoded_text name r : decoded name r -> exists o, r = JObj o /\ canonical_text r = Ok (encoded r) /\
  json_wf r = true /\ codec_exact r = true /\ json_utf8 r = true.
Proof.
  intros (o & layout & -> & _ & _ & Hw & Hp). exists o. destruct (plain_canonical _ Hp) as [t Ht]. apply plain_sound in Hp as (He & _ & Hu).
  split_and!; try done. unfold encoded, encode. rewrite Ht. cbn. unfold canonical_of in Ht. destruct (canonical_text _); [|done]. by injection Ht as ->.
Qed.
Lemma encoded_inj n1 n2 r1 r2 : decoded n1 r1 -> decoded n2 r2 -> encoded r1 = encoded r2 -> sort_json r1 = sort_json r2.
Proof.
  intros (o1 & -> & T1 & W1 & E1 & U1)%decoded_text (o2 & -> & T2 & W2 & E2 & U2)%decoded_text Heq. rewrite <- Heq in T2.
  set (raw := encoded (JObj o1)) in *. set (d := Z.of_nat (json_depth (JObj o1) + json_depth (JObj o2))). set (n := Z.of_nat (json_size (JObj o1) + json_size (JObj o2))).
  destruct (codec_reads_back o1 raw (byte_len raw) d n "") as (o' & -> & H1); [done..|lia|lia|lia|].
  destruct (codec_reads_back o2 raw (byte_len raw) d n "") as (o'' & -> & H2); [done..|lia|lia|lia|]. congruence.
Qed.

(** * What validation guarantees, and the scope of a key *)

Lemma require_all_elem {A} (f : A -> result record_error bool) l x : require_all f l = Ok tt -> x ∈ l -> f x = Ok true.
Proof.
  induction l as [|y l IH]; cbn; intros H Hin; [by apply elem_of_nil in Hin|].
  apply bind_ok in H as (b & Hb & H). rewrite port_bind in H. destruct b; [|done]. apply elem_of_cons in Hin as [->|Hin]; [done | by apply IH].
Qed.
Lemma validate_conditions check name layout o : validate_with check name layout (JObj o) = Ok tt ->
  (forall k kind, (k, kind) ∈ fields_of layout -> check kind (item o k) = Ok true) /\ reserve_ok name o = true /\ usage_ok name o = true.
Proof.
  cbn [validate_with]. intros H. rewrite port_bind in H. case_if_in H; [|done]. rewrite port_bind in H. case_if_in H; [|done].
  apply bind_ok in H as ([] & Hf & H). apply bind_ok in H as (? & _ & H). apply bind_ok in H as (? & _ & H).
  rewrite port_bind in H. case_if_in H; [|done]. rewrite port_bind in H. case_if_in H; [|done].
  split_and!; try done. intros k kind Hin. exact (require_all_elem _ _ _ Hf Hin).
Qed.
Lemma validate_field check name layout o k kind : validate_with check name layout (JObj o) = Ok tt -> (k, kind) ∈ fields_of layout ->
  check kind (item o k) = Ok true.
Proof. intros (H & _)%validate_conditions. apply H. Qed.
Lemma scalar_atom fuel kind v : kind ∈ ["Id"; "Ver"; "Gen"] -> scalar (S fuel) kind v = Ok true -> atom v.
Proof.
  intros Hk. assert (H : endswith "?" kind = false /\ array_kind kind = None /\ assoc kind LAYOUTS = None).
  { revert kind Hk. apply Forall_forall. repeat constructor. }
  destruct H as (Hq & Ha & Hl). cbn [scalar]. rewrite Hq, Ha, Hl. intros H.
  repeat (apply elem_of_cons in Hk as [->|Hk]; [destruct v; done|]). by apply elem_of_nil in Hk.
Qed.
Lemma scalar_scope fuel v : scalar (S fuel) "Scope" v = Ok true -> exists layout, assoc "Scope" LAYOUTS = Some layout /\ validate_with (scalar fuel) "Scope" layout v = Ok tt.
Proof.
  cbn [scalar]. change (endswith "?" "Scope") with false. change (array_kind "Scope") with (@None (string * Z * Z)).
  destruct (assoc "Scope" LAYOUTS) as [layout|] eqn:E; [|by vm_compute in E]. intros ([] & H & _)%bind_ok. by exists layout.
Qed.
Lemma scope_kinds : Forall (fun k => Exists (fun kind => Some (k, kind) ∈ map Some (fields_of (default "" (assoc "Scope" LAYOUTS)))) ["Id"; "Ver"; "Gen"]) (scope_fields "task").
Proof. apply (bool_decide_unpack _). by vm_compute. Qed.
Lemma key_scope key : decoded "ReservationKey" key -> forall k, k ∈ scope_fields "task" -> atom (field (field key "scope") k).
Proof.
  intros (o & layout & -> & El & Hv & _) k Hk. unfold validate in Hv.
  apply (validate_field _ _ _ _ "scope" "Scope") in Hv; [|revert El; vm_compute; intros [= <-]; vm_compute; left].
  apply scalar_scope in Hv as (sl & Es & Hv). cbn [field]. destruct (item o "scope") as [| | | | | |so]; try done.
  pose proof scope_kinds as Hkinds. rewrite Forall_forall in Hkinds. specialize (Hkinds k Hk). apply Exists_exists in Hkinds as (kind & Hkind & Hf).
  rewrite Es in Hf. cbn [default] in Hf. apply list_elem_of_fmap in Hf as (f & [= <-] & Hf). apply (validate_field _ _ _ _ k kind) in Hv; [|done].
  by eapply scalar_atom.
Qed.

Lemma same_encoded k1 k2 : decoded "ReservationKey" k1 -> decoded "ReservationKey" k2 -> encoded k1 = encoded k2 ->
  same_scope (field k1 "scope") (field k2 "scope").
Proof.
  intros D1 D2 Heq k Hk. pose proof (key_scope k1 D1 k Hk) as A1. pose proof (key_scope k2 D2 k Hk) as A2.
  pose proof (encoded_inj _ _ _ _ D1 D2 Heq) as Hs. destruct (decoded_text _ _ D1) as (o1 & E1 & _ & W1 & _). destruct (decoded_text _ _ D2) as (o2 & E2 & _ & W2 & _).
  assert (Hsc : sort_json (field k1 "scope") = sort_json (field k2 "scope")) by (rewrite <- !field_sorted by done; by rewrite Hs).
  assert (Hwf : forall r, json_wf r = true -> json_wf (field r "scope") = true).
  { intros r Hr. destruct r as [| | | | | |o]; try done. cbn. unfold item. destruct (assoc "scope" o) eqn:E; [|done]. by eapply json_wf_member. }
  rewrite <- (sort_json_atom _ A1), <- (sort_json_atom _ A2), <- (field_sorted (field k1 "scope")), <- (field_sorted (field k2 "scope")) by auto. by rewrite Hsc.
Qed.
Lemma py_eqb_atom u v : atom u -> atom v -> py_eqb u v = true -> u = v.
Proof. destruct u, v; try done; cbn; intros _ _ H; bool_simpl; by subst. Qed.
Lemma py_eqb_item a b k : py_eqb (JObj a) (JObj b) = true -> atom (item a k) -> py_eqb (item a k) (item b k) = true.
Proof.
  unfold item. destruct (assoc k a) as [v|] eqn:E; [|done]. apply assoc_elem in E. cbn [py_eqb]. intros [_ H]%andb_prop _. cbn.
  change (forallb (fun kv => match assoc kv.1 b with Some v => py_eqb kv.2 v | None => false end) a = true) in H.
  apply (forallb_elem _ _ _ H) in E. cbn in E. by destruct (assoc k b).
Qed.
Lemma same_eqb k1 k2 : decoded "ReservationKey" k1 -> decoded "ReservationKey" k2 -> py_eqb (field k1 "scope") (field k2 "scope") = true ->
  same_scope (field k1 "scope") (field k2 "scope").
Proof.
  intros D1 D2 Heq k Hk. pose proof (key_scope k1 D1 k Hk) as A1. pose proof (key_scope k2 D2 k Hk) as A2. apply py_eqb_atom; [done..|].
  destruct (field k1 "scope") as [| | | | | |a]; try done. destruct (field k2 "scope") as [| | | | | |b]; try done. by apply py_eqb_item.
Qed.
Lemma balance_id_same hash s1 s2 kind : same_scope s1 s2 -> balance_id hash s1 kind = balance_id hash s2 kind.
Proof.
  intros H. unfold balance_id, scope_document. do 6 f_equal. apply map_ext_in. intros k Hk%list_elem_of_In. rewrite H; [done|].
  revert Hk. unfold scope_fields. rewrite (bool_decide_eq_true_2 ("task" = "task")) by done. case_bool_decide; [done|]. set_solver.
Qed.
(** The scope of an account and of a task have different documents. *)
Lemma documents_differ p s1 s2 : py_eqb p (JObj (scope_document s1 "account")) = true -> py_eqb p (JObj (scope_document s2 "task")) = true -> False.
Proof. destruct p; try done. cbn [py_eqb]. intros [H1 _]%andb_prop [H2 _]%andb_prop. apply Nat.eqb_eq in H1, H2. rewrite H1 in H2. vm_compute in H2. discriminate. Qed.
Lemma document_kind s1 s2 k1 k2 : py_eqb (JObj (scope_document s1 k1)) (JObj (scope_document s2 k2)) = true -> (k1 = "task" <-> k2 = "task").
Proof.
  cbn [py_eqb]. intros [H _]%andb_prop. apply Nat.eqb_eq in H. unfold scope_document, scope_fields in H. rewrite !length_map, !length_app in H.
  revert H. do 2 case_bool_decide; cbn; intros; try lia; tauto.
Qed.

(** * Numbers *)

Lemma scalar_number fuel v : scalar (S fuel) "N" v = Ok true -> exists n, v = JInt n /\ 0 <= n.
Proof. cbn. destruct v; try done. cbn. intros [= H]. bool_simpl. by eexists. Qed.
Lemma scalar_optional fuel v : scalar (S (S fuel)) "N?" v = Ok true -> 0 <= int_of v.
Proof. destruct v as [| |n| | | |]; cbn; try lia; try discriminate. intros [= H]. by bool_simpl. Qed.
Lemma scalar_constant fuel s v : s ∈ ["4096"; "1024"] -> scalar (S fuel) (String "=" s) v = Ok true -> int_of v = parse_nat s.
Proof.
  intros Hs. repeat (apply elem_of_cons in Hs as [->|Hs]; [destruct v; try done; cbn; intros [= H]; by bool_simpl|]). by apply elem_of_nil in Hs.
Qed.
