(* ===== verification/Budgets.v ===== *)
(** The books of the budget: what every balance says is what the reservations charged to it
    add up to, and an active balance is within its caps. Every operation of the store keeps
    them.

    The operations are verified against a postcondition of their transactions ([after]);
    a transaction that fails changes nothing. *)

From S2P Require Import Prelude.
From S2P Require Import PyStr.
From S2P Require Import PyJson.
From S2P Require Import PyJsonText.
From S2P Require Import Codec.
From S2P Require Import PyTime.
From S2P Require Import Records.
From S2P Require Import Ledger.
From S2P Require Import Accounting.
From S2P Require Import Keys.

Open Scope Z_scope.

(** * The books *)

Inductive amount : Type := HeldTokens | HeldMicrousd | ActualTokens | ActualMicrousd.
Definition row_amount (a : amount) (r : reservation_row) : Z :=
  match a with
  | HeldTokens => row_held_tokens r | HeldMicrousd => row_held_microusd r
  | ActualTokens => actual_tokens r | ActualMicrousd => actual_microusd r
  end.
Definition bal_amount (a : amount) (b : balance_row) : Z :=
  match a with
  | HeldTokens => held_tokens b | HeldMicrousd => held_microusd b
  | ActualTokens => settled_tokens b | ActualMicrousd => settled_microusd b
  end.

(** The reservations charged to a balance, and a sum over them. *)
Definition charged (cs : gmap string core_row) (bid digest : string) : bool :=
  match cs !! digest with
  | Some c => bool_decide (account_balance c = bid) || bool_decide (task_balance c = bid)
  | None => false
  end.
Definition total (f : reservation_row -> Z) (cs : gmap string core_row) (bid : string) (rs : gmap string reservation_row) : Z :=
  map_fold (fun digest r z => (if charged cs bid digest then f r else 0) + z) 0 rs.

Definition balanced (db : ledger) (bid : string) (b : balance_row) : Prop :=
  bal_id b = bid /\ (forall a, bal_amount a b = total (row_amount a) (cores db) bid (reservations db)) /\
  calls b = total (fun _ => 1) (cores db) bid (reservations db) /\ wall_ns b = call_ns * calls b.

(** The caps of a policy, which bind a balance while it is active. *)
Record fits (b : balance_row) (p : policy_row) : Prop := mkFits {
  fits_tokens : forall t, token_cap p = Some t -> settled_tokens b + held_tokens b <= t;
  fits_cost : forall c, cost_cap p = Some c -> settled_microusd b + held_microusd b <= c;
  fits_calls : forall n, call_cap p = Some n -> calls b <= n;
  fits_wall : forall w, wall_cap_ns p = Some w -> wall_ns b <= w
}.
Definition capped (b : balance_row) (p : policy_row) : Prop := bal_state b = "ACTIVE" -> fits b p.

(** At most one call is admitted at a time for an account and for a deployment. *)
Definition open_once (db : ledger) : Prop := forall d1 d2 a1 a2,
  admissions db !! d1 = Some a1 -> admissions db !! d2 = Some a2 -> adm_closed a1 = false -> adm_closed a2 = false ->
  adm_account_ref a1 = adm_account_ref a2 \/ adm_deployment_ref a1 = adm_deployment_ref a2 -> d1 = d2.

Definition books (db : ledger) : Prop := forall bid b, balances db !! bid = Some b -> balanced db bid b.
Definition caps_kept (db : ledger) (exempt : list string) : Prop :=
  forall bid b p, bid ∉ exempt -> balances db !! bid = Some b -> policies db !! bid = Some p -> capped b p.

Section books.
Variable hash : string -> string.
Variable uuid4 : ledger -> string.

(** The stored key of a call names the balances that it is charged to. *)
Definition keyed (digest : string) (c : core_row) : Prop :=
  exists key, decoded "ReservationKey" key /\ key_bytes c = encoded key /\ digest = fingerprint_of hash key /\
    account_balance c = balance_id hash (field key "scope") "account" /\ task_balance c = balance_id hash (field key "scope") "task".

(** The policy of a balance, for an account or for a task. *)
Definition policy_kind (db : ledger) (bid kind : string) : Prop := exists p, policies db !! bid = Some p /\ (kind = "task" <-> scope_kind p = "task").
Record structured (db : ledger) : Prop := mkStructured {
  cores_keyed : forall digest c, cores db !! digest = Some c -> keyed digest c;
  cores_policies : forall digest c, cores db !! digest = Some c -> policy_kind db (account_balance c) "account" /\ policy_kind db (task_balance c) "task";
  rows_cores : forall digest r, reservations db !! digest = Some r -> row_digest r = digest /\ is_Some (cores db !! digest);
  balances_policies : forall bid b, balances db !! bid = Some b -> is_Some (policies db !! bid);
  policies_scoped : forall bid p, policies db !! bid = Some p ->
    scope_kind p ∈ ["account"; "task"] /\ exists scope, pol_scope p = JObj (scope_document scope (scope_kind p));
  opened_once : open_once db
}.

(** What every transaction keeps. *)
Record kept (db : ledger) : Prop := mkKept {
  kept_structured : structured db;
  kept_books : books db;
  kept_caps : caps_kept db []
}.

(** One call during its transaction: its row and the rows of its two balances are the ones in
    the tables; only these two may exceed their caps. *)
Record working (digest : string) (db : ledger) (row : reservation_row) (bals : list (balance_row * policy_row)) : Prop := mkWorking {
  working_structured : structured db;
  working_books : books db;
  working_row : reservations db !! digest = Some row;
  working_charged : forall bid, charged (cores db) bid digest = bool_decide (bid ∈ map (fun q => bal_id q.1) bals);
  working_balances : Forall (fun q : balance_row * policy_row => balances db !! bal_id q.1 = Some q.1 /\ policies db !! bal_id q.1 = Some q.2) bals;
  working_distinct : NoDup (map (fun q => bal_id q.1) bals);
  working_caps : caps_kept db (map (fun q => bal_id q.1) bals)
}.
Definition all_capped (bals : list (balance_row * policy_row)) : Prop := Forall (fun q => capped q.1 q.2) bals.

(** * Sums *)

Lemma total_insert_new f cs bid rs d r : rs !! d = None ->
  total f cs bid (<[d := r]> rs) = (if charged cs bid d then f r else 0) + total f cs bid rs.
Proof. intros H. unfold total. rewrite map_fold_insert_L; [done | intros; lia | done]. Qed.
Lemma total_delete f cs bid rs d r : rs !! d = Some r ->
  total f cs bid rs = (if charged cs bid d then f r else 0) + total f cs bid (delete d rs).
Proof. intros H. rewrite <- (insert_delete_id rs d r H) at 1. by rewrite total_insert_new by apply lookup_delete_eq. Qed.
Lemma total_insert f cs bid rs d r r' : rs !! d = Some r ->
  total f cs bid (<[d := r']> rs) = total f cs bid rs + (if charged cs bid d then f r' - f r else 0).
Proof.
  intros H. rewrite (total_delete f cs bid rs d r H), <- insert_delete_eq, total_insert_new by apply lookup_delete_eq.
  destruct (charged cs bid d); lia.
Qed.
Lemma total_ext f g cs ds bid rs : (forall d r, rs !! d = Some r -> charged cs bid d = charged ds bid d /\ f r = g r) -> total f cs bid rs = total g ds bid rs.
Proof.
  unfold total. induction rs as [|d r rs Hd IH] using map_ind; [done|]. intros H.
  rewrite !map_fold_insert_L by (done || intros; lia). rewrite IH.
  - destruct (H d r) as [-> ->]; [apply lookup_insert_eq | done].
  - intros d' r' Hr. apply H. rewrite lookup_insert_ne; [done|]. intros ->. congruence.
Qed.
Lemma total_none f cs bid rs : (forall d, charged cs bid d = false) -> total f cs bid rs = 0.
Proof.
  intros H. unfold total. induction rs as [|d r rs Hd IH] using map_ind; [done|].
  rewrite map_fold_insert_L by (done || intros; lia). by rewrite IH, H.
Qed.

(** * Transactions *)

Definition after {A} (m : T A) (db : ledger) (Q : A -> ledger -> Prop) : Prop :=
  match m db with Ok (a, db') => Q a db' | Raise _ => True end.

Lemma after_weaken {A} (m : T A) db (Q Q' : A -> ledger -> Prop) : after m db Q -> (forall a db', Q a db' -> Q' a db') -> after m db Q'.
Proof. unfold after. destruct (m db) as [[]|]; auto. Qed.
Lemma after_bind {A B} (m : T A) (f : A -> T B) db Q : after m db (fun a db' => after (f a) db' Q) -> after (m ≫= f) db Q.
Proof. unfold after, mbind, T_bind. destruct (m db) as [[]|]; done. Qed.
Lemma after_ret {A} (a : A) db (Q : A -> ledger -> Prop) : Q a db -> after (mret a) db Q.
Proof. done. Qed.
Lemma after_fail {A} e db (Q : A -> ledger -> Prop) : after (fail e) db Q.
Proof. done. Qed.
Lemma after_tables db (Q : ledger -> ledger -> Prop) : Q db db -> after tables db Q.
Proof. done. Qed.
Lemma after_execute f db (Q : unit -> ledger -> Prop) : Q tt (f db) -> after (modify f) db Q.
Proof. done. Qed.
Lemma after_record {A} (r : result record_error A) db (Q : A -> ledger -> Prop) : (forall a, r = Ok a -> Q a db) -> after (from_record r) db Q.
Proof. unfold after, from_record. destruct r; auto. Qed.
Lemma after_demand b code db (Q : unit -> ledger -> Prop) : (b = true -> Q tt db) -> after (demand b code) db Q.
Proof. intros H. apply after_record. intros []. destruct b; [auto | done]. Qed.
Lemma after_some {A} (o : option A) code db (Q : A -> ledger -> Prop) : (forall a, o = Some a -> Q a db) -> after (demand_some o code) db Q.
Proof. destruct o; cbn; [intros H; by apply H | done]. Qed.
Lemma after_constraint b db (Q : unit -> ledger -> Prop) : (b = true -> Q tt db) -> after (constraint b) db Q.
Proof. destruct b; cbn; [auto | done]. Qed.
End books.

(** One statement of a transaction. *)
Ltac statement :=
  lazymatch goal with
  | |- after (mbind _ _) _ _ => apply after_bind
  | |- after (mret _) _ _ => apply after_ret
  | |- after (fail _) _ _ => apply after_fail
  | |- after tables _ _ => apply after_tables
  | |- after (modify _) _ _ => apply after_execute
  | |- after (from_record _) _ _ => apply after_record; intros ? ?
  | |- after (demand _ _) _ _ => apply after_demand; intros ?
  | |- after (demand_some _ _) _ _ => apply after_some; intros ? ?
  | |- after (constraint _) _ _ => apply after_constraint; intros ?
  | |- after (match ?x with (_, _) => _ end) _ _ => destruct x
  | |- after ((fun _ => _) _) _ _ => cbv beta
  end.
Ltac statements := repeat (statement; cbv beta zeta; try done).

Section statements.
Variable hash : string -> string.
Variable uuid4 : ledger -> string.

Lemma transaction_keeps {A} (P : ledger -> Prop) s (body : T A) db : P db -> after body db (fun _ db' => P db') -> P (budget_transaction s body db).1.
Proof. unfold after, budget_transaction. destruct (opened s); [|done]. destruct (body db) as [[]|]; done. Qed.
Lemma first_keeps {A B} (P : ledger -> Prop) (r : result record_error A) (k : A -> ledger -> ledger * result ledger_error B) db :
  P db -> (forall a, r = Ok a -> P (k a db).1) -> P (first r k db).1.
Proof. unfold first. destruct r; auto. Qed.

Lemma after_update_balance bid f db b (Q : unit -> ledger -> Prop) : balances db !! bid = Some b -> Q tt (set_balances <[bid := f b]> db) ->
  after (update_balance bid f) db Q.
Proof. intros Hb H. unfold update_balance. statements. rewrite Hb. by statements. Qed.
Lemma after_update_reservation digest f db r (Q : unit -> ledger -> Prop) : reservations db !! digest = Some r ->
  Q tt (set_reservations <[digest := f r]> db) -> after (update_reservation digest f) db Q.
Proof. intros Hr H. unfold update_reservation. statements. rewrite Hr. by statements. Qed.

(** An event is added, and counted in the row and in the working copy. *)
Lemma after_event row kind raw id recovery db r (Q : reservation_row -> ledger -> Prop) : reservations db !! row_digest row = Some r ->
  Q row db ->
  (forall e n, Q (with_events n row) (set_reservations <[row_digest row := with_events n r]> (set_events (fun l => l ++ [e]) db))) ->
  after (add_event hash uuid4 row kind raw id recovery) db Q.
Proof.
  intros Hr H0 H1. unfold add_event. statements. destruct (find_first _ _); statements. unfold insert_event. statements.
  apply (after_update_reservation _ _ _ r); [done|]. by statements.
Qed.

(** * What the invariant depends on *)

(** The tables of the invariant. *)
Definition same_tables (db db' : ledger) : Prop :=
  policies db' = policies db /\ balances db' = balances db /\ cores db' = cores db /\ reservations db' = reservations db /\
  admissions db' = admissions db.
Lemma structured_ext db db' : same_tables db db' -> structured hash db -> structured hash db'.
Proof. intros (Ep & Eb & Ec & Er & Ea) []. constructor; unfold open_once, policy_kind in *; rewrite ?Ep, ?Eb, ?Ec, ?Er, ?Ea; done. Qed.
Lemma books_ext db db' : same_tables db db' -> books db -> books db'.
Proof. intros (Ep & Eb & Ec & Er & Ea) H bid b. rewrite Eb. intros Hb. unfold balanced. rewrite Ec, Er. by apply H. Qed.
Lemma caps_ext db db' l : same_tables db db' -> caps_kept db l -> caps_kept db' l.
Proof. intros (Ep & Eb & Ec & Er & Ea) H bid b p. rewrite Eb, Ep. apply H. Qed.
Lemma kept_ext db db' : same_tables db db' -> kept hash db -> kept hash db'.
Proof. intros E []. constructor; [by eapply structured_ext | by eapply books_ext | by eapply caps_ext]. Qed.
Lemma working_ext digest db db' row bals : same_tables db db' -> working hash digest db row bals -> working hash digest db' row bals.
Proof.
  intros E []. constructor; try done; [by eapply structured_ext | by eapply books_ext |..|by eapply caps_ext]; destruct E as (Ep & Eb & Ec & Er & Ea).
  - by rewrite Er.
  - by rewrite Ec.
  - by rewrite Ep, Eb.
Qed.

(** A row is replaced by one with the same amounts. *)
Definition same_amounts (r r' : reservation_row) : Prop := row_digest r' = row_digest r /\ forall a, row_amount a r' = row_amount a r.
Lemma same_amounts_held r r' : row_digest r' = row_digest r -> row_held_tokens r' = row_held_tokens r -> row_held_microusd r' = row_held_microusd r ->
  actual_tokens r' = actual_tokens r -> actual_microusd r' = actual_microusd r -> same_amounts r r'.
Proof. intros. split; [done|]. by intros []. Qed.
Lemma structured_row digest r r' db : row_digest r' = row_digest r -> reservations db !! digest = Some r -> structured hash db ->
  structured hash (set_reservations <[digest := r']> db).
Proof.
  intros Hd Hr []. constructor; cbn; try done. intros d x. destruct (decide (d = digest)) as [->|Hne].
  - rewrite lookup_insert_eq. intros [= <-]. rewrite Hd. by apply rows_cores0.
  - rewrite lookup_insert_ne by done. apply rows_cores0.
Qed.
Lemma books_row digest r r' db : same_amounts r r' -> reservations db !! digest = Some r -> books db -> books (set_reservations <[digest := r']> db).
Proof.
  intros [_ Ha] Hr H bid b Hb. destruct (H bid b Hb) as (H1 & H2 & H3 & H4). split_and!; cbn; try done.
  - intros a. rewrite (total_insert _ _ _ _ _ r r' Hr), H2, Ha. case_if; lia.
  - rewrite (total_insert _ _ _ _ _ r r' Hr), H3. case_if; lia.
Qed.
Lemma kept_row digest r r' db : same_amounts r r' -> reservations db !! digest = Some r -> kept hash db -> kept hash (set_reservations <[digest := r']> db).
Proof. intros Ha Hr []. constructor; [apply (structured_row _ r); [by apply Ha|done..] | by apply (books_row _ r) | done]. Qed.
Lemma working_neutral digest r r' db bals : same_amounts r r' -> working hash digest db r bals ->
  working hash digest (set_reservations <[digest := r']> db) r' bals.
Proof.
  intros Ha []. constructor; try done; [apply (structured_row _ r); [by apply Ha|done..] | by apply (books_row _ r) |]. cbn. apply lookup_insert_eq.
Qed.
End statements.
#[export] Hint Resolve same_amounts_held : platform.

(** * The loops over the two balances *)

Abbreviation bids := (map (fun q : balance_row * policy_row => bal_id q.1)).
(** A balance after a change of its amounts. *)
Definition shifted (delta : amount -> Z) (q q' : balance_row * policy_row) : Prop :=
  bal_id q'.1 = bal_id q.1 /\ q'.2 = q.2 /\ (forall a, bal_amount a q'.1 = bal_amount a q.1 + delta a) /\
  calls q'.1 = calls q.1 /\ wall_ns q'.1 = wall_ns q.1.
(** Only the rows of these balances change, to these. *)
Record balances_only (bals : list (balance_row * policy_row)) (db db' : ledger) : Prop := mkOnly {
  only_policies : policies db' = policies db;
  only_cores : cores db' = cores db;
  only_reservations : reservations db' = reservations db;
  only_admissions : admissions db' = admissions db;
  only_rows : Forall (fun q => balances db' !! bal_id q.1 = Some q.1) bals;
  only_others : forall bid, bid ∉ bids bals -> balances db' !! bid = balances db !! bid
}.

Lemma set_same db digest row : reservations db !! digest = Some row -> set_reservations <[digest := row]> db = db.
Proof. intros H. unfold set_reservations. rewrite insert_id by done. by destruct db. Qed.

Section loops.
Variable hash : string -> string.
Variable uuid4 : ledger -> string.

Lemma shifted_ids delta bals bals' : Forall2 (shifted delta) bals bals' -> bids bals' = bids bals.
Proof. induction 1 as [|q q' bals bals' Hq _ IH]; cbn; [done|]. destruct Hq as [-> _]. by rewrite IH. Qed.
Lemma balances_only_nil db : balances_only [] db db.
Proof. by constructor. Qed.
Lemma balances_only_cons q rest db db0 db' : bal_id q.1 ∉ bids rest -> same_tables db db0 ->
  balances_only rest (set_balances <[bal_id q.1 := q.1]> db0) db' -> balances_only (q :: rest) db db'.
Proof.
  intros Hq (Ep & Eb & Ec & Er & Ea) []. cbn in *. constructor; try congruence.
  - constructor; [|done]. rewrite only_others0 by done. by rewrite Eb, lookup_insert_eq.
  - intros bid Hbid. cbn in Hbid. apply not_elem_of_cons in Hbid as [H1 H2]. rewrite only_others0, Eb by done. by rewrite lookup_insert_ne.
Qed.

(** The rows that remain are not touched by the first one. *)
Lemma stored_rest b p rest db db0 (b' : balance_row) : NoDup (bids ((b, p) :: rest)) -> Forall (fun q => balances db !! bal_id q.1 = Some q.1) ((b, p) :: rest) ->
  same_tables db db0 -> bal_id b' = bal_id b ->
  (bal_id b' ∉ bids rest) /\ NoDup (bids rest) /\
  Forall (fun q => balances (set_balances <[bal_id b' := b']> db0) !! bal_id q.1 = Some q.1) rest.
Proof.
  intros Hnd Hst (_ & Eb & _) ->. cbn in Hnd. apply NoDup_cons in Hnd as [Hnew Hnd]. apply Forall_cons in Hst as [_ Hst]. split_and!; try done.
  cbn. rewrite Eb. apply Forall_forall. intros q Hq. rewrite Forall_forall in Hst. rewrite lookup_insert_ne; [by apply Hst|].
  intros E. apply Hnew. rewrite E. apply list_elem_of_fmap. by exists q.
Qed.

Lemma after_move_held dt dc bals : forall db, NoDup (bids bals) -> Forall (fun q => balances db !! bal_id q.1 = Some q.1) bals ->
  after (move_held dt dc bals) db (fun bals' db' =>
    Forall2 (shifted (fun a => match a with HeldTokens => dt | HeldMicrousd => dc | _ => 0 end)) bals bals' /\ balances_only bals' db db').
Proof.
  induction bals as [|[b p] rest IH]; intros db Hnd Hst; cbn [move_held]; [by statements|].
  statements. apply (after_update_balance _ _ _ b); [by apply Forall_cons in Hst as [Hb _]|]. statements.
  destruct (stored_rest b p rest db db (bal_with_held (held_tokens b + dt) (held_microusd b + dc) b)) as (H1 & H2 & H3); try done.
  eapply after_weaken; [by apply IH|]. cbv beta. intros rest' db' [Hs Ho]. statements. split.
  - constructor; [|done]. split_and!; cbn; try done. intros []; cbn; lia.
  - eapply (balances_only_cons _ _ _ db); [|done|exact Ho]. by rewrite (shifted_ids _ _ _ Hs).
Qed.
Lemma after_pause_budgets bals : forall db, NoDup (bids bals) -> Forall (fun q => balances db !! bal_id q.1 = Some q.1) bals ->
  after (pause_budgets bals) db (fun bals' db' =>
    Forall2 (shifted (fun _ => 0)) bals bals' /\ balances_only bals' db db' /\ Forall (fun q => bal_state q.1 <> "ACTIVE") bals').
Proof.
  induction bals as [|[b p] rest IH]; intros db Hnd Hst; cbn [pause_budgets]; [by statements|].
  statements. apply (after_update_balance _ _ _ b); [by apply Forall_cons in Hst as [Hb _]|]. statements.
  set (b' := bal_with_state (bal_state (bal_with_state (if bool_decide (bal_state b = "CANCELLED") then "CANCELLED" else "PAUSED_UNKNOWN") b)) b).
  destruct (stored_rest b p rest db db b') as (H1 & H2 & H3); try done.
  eapply after_weaken; [by apply IH|]. cbv beta. intros rest' db' (Hs & Ho & Hp). statements. split_and!.
  - constructor; [|done]. split_and!; cbn; try done. intros []; cbn; lia.
  - eapply (balances_only_cons _ _ _ db); [|done|exact Ho]. by rewrite (shifted_ids _ _ _ Hs).
  - constructor; [|done]. cbn. case_bool_decide; done.
Qed.

(** The amounts of a row and of its balances move together. *)
Lemma working_shift digest db db1 row row' bals bals' : working hash digest db row bals -> row_digest row' = row_digest row ->
  Forall2 (shifted (fun a => row_amount a row' - row_amount a row)) bals bals' -> balances_only bals' db db1 ->
  working hash digest (set_reservations <[digest := row']> db1) row' bals'.
Proof.
  intros [Hs Hb Hr Hc Hst Hnd Hcap] Hd Hsh [Ep Ec Er Ea Hrows Hoth]. pose proof (shifted_ids _ _ _ Hsh) as Hids.
  assert (Hin : forall bid b, balances db1 !! bid = Some b -> bid ∈ bids bals -> exists q q', q ∈ bals /\ q' ∈ bals' /\ bal_id q.1 = bid /\ b = q'.1 /\
    shifted (fun a => row_amount a row' - row_amount a row) q q').
  { intros bid b Hb1 Hbid. rewrite <- Hids in Hbid. apply list_elem_of_fmap in Hbid as (q' & -> & Hq'). pose proof Hrows as Hrow. rewrite Forall_forall in Hrow. rewrite (Hrow q' Hq') in Hb1.
    injection Hb1 as <-. apply list_elem_of_lookup in Hq' as [i Hi]. destruct (Forall2_lookup_r _ _ _ _ _ Hsh Hi) as (q & Hq & Hqq).
    exists q, q'. split_and!; try done; [by eapply list_elem_of_lookup_2 | by eapply list_elem_of_lookup_2 | by destruct Hqq]. }
  assert (Hpol : Forall (fun q => policies db !! bal_id q.1 = Some q.2) bals') by
    (apply Forall_forall; intros q' Hq'; apply list_elem_of_lookup in Hq' as [i Hi]; destruct (Forall2_lookup_r _ _ _ _ _ Hsh Hi) as (q & Hq & E1 & E2 & _);
     rewrite E1, E2; apply list_elem_of_lookup_2 in Hq; rewrite Forall_forall in Hst; by apply Hst).
  constructor.
  - destruct Hs. constructor; cbn; unfold open_once, policy_kind in *; cbn; rewrite ?Ep, ?Ec, ?Er, ?Ea; try done.
    + intros d r. destruct (decide (d = digest)) as [->|]; [rewrite lookup_insert_eq; intros [= <-]; rewrite Hd; by apply rows_cores0 | rewrite lookup_insert_ne by done; apply rows_cores0].
    + intros bid b H1. destruct (decide (bid ∈ bids bals)) as [Hi|Hi]; [|rewrite Hoth in H1 by (by rewrite Hids); by eapply balances_policies0].
      destruct (Hin bid b H1 Hi) as (q & q' & Hq & _ & <- & _). rewrite Forall_forall in Hst. by destruct (Hst q Hq) as [_ ->].
  - intros bid b H1. cbn in H1. unfold balanced. cbn. rewrite Ec, Er. destruct (decide (bid ∈ bids bals)) as [Hi|Hi].
    + destruct (Hin bid b H1 Hi) as (q & q' & Hq & Hq' & <- & -> & (E0 & _ & E1 & E2 & E3)). rewrite Forall_forall in Hst. destruct (Hst q Hq) as [E4 _].
      destruct (Hb _ _ E4) as (_ & B1 & B2 & B3). rewrite E0, E2, E3. split_and!; [done| |..].
      * intros a. rewrite (total_insert _ _ _ _ _ row row' Hr), Hc, bool_decide_eq_true_2 by done. by rewrite E1, B1.
      * rewrite (total_insert _ _ _ _ _ row row' Hr), Hc, bool_decide_eq_true_2 by done. lia.
      * done.
    + rewrite Hoth in H1 by (by rewrite Hids). destruct (Hb _ _ H1) as (B0 & B1 & B2 & B3). split_and!; [done| |..].
      * intros a. rewrite (total_insert _ _ _ _ _ row row' Hr), Hc, bool_decide_eq_false_2 by done. rewrite B1. lia.
      * rewrite (total_insert _ _ _ _ _ row row' Hr), Hc, bool_decide_eq_false_2 by done. lia.
      * done.
  - cbn. apply lookup_insert_eq.
  - cbn. by rewrite Ec, Hids.
  - cbn. rewrite Ep. rewrite Forall_forall in *. intros q Hq. split; [by apply Hrows | by apply Hpol].
  - by rewrite Hids.
  - intros bid b p Hbid. cbn. rewrite Ep, Hoth by done. apply Hcap. by rewrite <- Hids.
Qed.
End loops.

Section operations.
Variable hash : string -> string.
Variable uuid4 : ledger -> string.

(** * Doubt and conflict *)

Lemma working_stored digest db row bals : working hash digest db row bals -> Forall (fun q => balances db !! bal_id q.1 = Some q.1) bals.
Proof. intros H. eapply Forall_impl; [apply (working_balances _ _ _ _ _ H)|]. by intros q []. Qed.
Lemma working_digest digest db row bals : working hash digest db row bals -> row_digest row = digest.
Proof. intros []. by eapply (rows_cores _ _ working_structured0). Qed.

Lemma after_retain key db row bals incoming : working hash (fingerprint_of hash key) db row bals ->
  after (retain hash key row bals incoming) db (fun x db' => working hash (fingerprint_of hash key) db' x.1 x.2).
Proof.
  intros Hw. unfold retain. statements. eapply after_weaken; [apply after_move_held; [by eapply working_distinct | by eapply working_stored]|].
  cbv beta. intros bals' db1 [Hs Ho]. statements. apply (after_update_reservation _ _ _ row); [rewrite (only_reservations _ _ _ Ho); by eapply working_row|].
  statements. cbn [fst snd]. eapply working_shift; [exact Hw | done | | exact Ho]. eapply Forall2_impl; [exact Hs|]. intros q q' (E1 & E2 & E3 & E4 & E5).
  split_and!; try done. intros []; rewrite E3; cbn; lia.
Qed.
Lemma after_pause key db row bals state : working hash (fingerprint_of hash key) db row bals ->
  after (pause hash key row bals state) db (fun x db' => working hash (fingerprint_of hash key) db' x.1 x.2 /\ all_capped x.2).
Proof.
  intros Hw. unfold pause. statements. set (row' := with_state _ row). apply (after_update_reservation _ _ _ row); [by eapply working_row|]. statements.
  apply (working_neutral hash _ row row') in Hw; [|by apply same_amounts_held].
  eapply after_weaken; [apply after_pause_budgets; [by eapply working_distinct | by eapply working_stored]|].
  cbv beta. intros bals' db1 (Hs & Ho & Hp). statements. cbn [fst snd]. split.
  - rewrite <- (set_same db1 (fingerprint_of hash key) row') by (rewrite (only_reservations _ _ _ Ho); by eapply working_row).
    eapply working_shift; [exact Hw | done | | exact Ho]. eapply Forall2_impl; [exact Hs|]. intros q q' (E1 & E2 & E3 & E4 & E5).
    split_and!; try done. intros a. rewrite E3. lia.
  - eapply Forall_impl; [exact Hp|]. by intros q Hq ?.
Qed.
Lemma after_conflict key db row bals existing incoming reason record : working hash (fingerprint_of hash key) db row bals ->
  after (conflict hash uuid4 key row bals existing incoming reason record) db
    (fun x db' => working hash (fingerprint_of hash key) db' x.1 x.2 /\ all_capped x.2).
Proof.
  intros Hw. unfold conflict. statements.
  eapply (after_weaken _ _ (fun row' db' => working hash (fingerprint_of hash key) db' row' bals)).
  { destruct (_ && _); [|by statements]. statements. unfold insert_conflict. statements.
    assert (Hd : row_digest row = fingerprint_of hash key) by by eapply working_digest.
    eapply after_event; [rewrite Hd; cbn; by eapply working_row | (eapply working_ext; [|exact Hw]; done) |].
    intros e n. rewrite Hd. apply (working_neutral hash _ row); [by apply same_amounts_held|]. (eapply working_ext; [|exact Hw]; done). }
  cbv beta. intros row' db' Hw'. statements. eapply after_weaken; [by apply after_retain|]. cbv beta. intros [row1 bals1] db1 Hw1. by apply after_pause.
Qed.

(** A call that ends within its caps. *)
Lemma working_kept digest db row bals : working hash digest db row bals -> all_capped bals -> kept hash db.
Proof.
  intros [] Hc. constructor; [done..|]. intros bid b p _ Hb Hp. destruct (decide (bid ∈ bids bals)) as [Hi|Hi]; [|by eapply working_caps0].
  apply list_elem_of_fmap in Hi as (q & -> & Hq). rewrite Forall_forall in working_balances0. destruct (working_balances0 q Hq) as [E1 E2].
  unfold all_capped in Hc. rewrite Forall_forall in Hc. rewrite E1 in Hb. rewrite E2 in Hp. injection Hb as <-. injection Hp as <-. by apply Hc.
Qed.

(** * What the loads return *)

(** The two balances of a scope. *)
Definition loaded (scope : json) (db : ledger) (bals : list (balance_row * policy_row)) : Prop :=
  bids bals = [balance_id hash scope "account"; balance_id hash scope "task"] /\
  Forall (fun q => balances db !! bal_id q.1 = Some q.1 /\ policies db !! bal_id q.1 = Some q.2) bals /\ NoDup (bids bals) /\
  policy_kind db (balance_id hash scope "account") "account" /\ policy_kind db (balance_id hash scope "task") "task".
(** The call of a key, charged to the balances of its scope. *)
Definition stored_call (key : json) (db : ledger) (row : reservation_row) : Prop :=
  reservations db !! fingerprint_of hash key = Some row /\ exists c, cores db !! fingerprint_of hash key = Some c /\
    account_balance c = balance_id hash (field key "scope") "account" /\ task_balance c = balance_id hash (field key "scope") "task".

Lemma after_active b p at_ core db (Q : unit -> ledger -> Prop) : Q tt db -> after (budget_active b p at_ core) db Q.
Proof. intros H. unfold budget_active. statements. destruct core; by statements. Qed.
Lemma after_load_budget scope kind active core db (Q : balance_row * policy_row -> ledger -> Prop) :
  (forall b p, balances db !! balance_id hash scope kind = Some b -> policies db !! balance_id hash scope kind = Some p ->
     py_eqb (pol_scope p) (JObj (scope_document scope kind)) = true -> Q (b, p) db) ->
  after (load_budget hash scope kind active core) db Q.
Proof.
  intros H. unfold load_budget. statements. destruct (balances db !! _) as [b|] eqn:Eb; [|done]. destruct (policies db !! _) as [p|] eqn:Ep; [|done].
  statements. destruct active as [at_|]; [apply after_active|]; statements; by apply H.
Qed.
Lemma after_load_budgets scope active core db (Q : list (balance_row * policy_row) -> ledger -> Prop) : structured hash db -> books db ->
  (forall bals, loaded scope db bals -> Q bals db) -> after (load_budgets hash scope active core) db Q.
Proof.
  intros Hs Hb H. unfold load_budgets. statements. apply after_load_budget. intros b1 p1 B1 P1 E1. statements.
  apply after_load_budget. intros b2 p2 B2 P2 E2. statements. apply H.
  assert (Hkind : forall kind p, policies db !! balance_id hash scope kind = Some p -> py_eqb (pol_scope p) (JObj (scope_document scope kind)) = true ->
    policy_kind db (balance_id hash scope kind) kind).
  { intros kind p Hp E. exists p. split; [done|]. destruct (policies_scoped _ _ Hs _ _ Hp) as [_ [s Es]]. rewrite Es in E. symmetry. by eapply document_kind. }
  destruct (Hb _ _ B1) as [N1 _], (Hb _ _ B2) as [N2 _]. unfold loaded. cbn. rewrite N1, N2. split_and!; [done| | |by eapply Hkind..].
  - repeat constructor; cbn; by rewrite ?N1, ?N2.
  - repeat constructor; [|set_solver..]. rewrite list_elem_of_singleton. intros E. rewrite E, P2 in P1. injection P1 as ->. by eapply documents_differ.
Qed.
Lemma after_load_call key ctx db (Q : reservation_row * json -> ledger -> Prop) : structured hash db -> decoded "ReservationKey" key ->
  (forall row core, stored_call key db row -> Q (row, core) db) -> after (load_call hash key ctx) db Q.
Proof.
  intros Hs Hk H. unfold load_call. statements. destruct (cores_keyed _ _ Hs _ _ ltac:(eassumption)) as (key' & Hd & He & _ & Ha & Ht).
  assert (Hc : stored_call key db a1).
  { split; [done|]. exists a. split; [done|]. bool_simpl.
    assert (Hsame : same_scope (field key' "scope") (field key "scope")) by (apply same_encoded; [done..|congruence]).
    by rewrite Ha, Ht, !(balance_id_same _ _ _ _ Hsame). }
  destruct ctx; statements; by apply H.
Qed.

(** The start of a transaction on a call. *)
Lemma working_start key db row bals : kept hash db -> stored_call key db row -> loaded (field key "scope") db bals ->
  working hash (fingerprint_of hash key) db row bals /\ all_capped bals.
Proof.
  clear uuid4. intros [Hs Hb Hc] (Hr & c & Hcore & Ha & Ht) (Hids & Hst & Hnd & _). split.
  - constructor; try done.
    + intros bid. unfold charged. rewrite Hcore, Hids, Ha, Ht. rewrite <- bool_decide_or. apply bool_decide_ext. rewrite elem_of_cons, list_elem_of_singleton. intuition congruence.
    + intros bid b p _. by apply Hc, not_elem_of_nil.
  - eapply Forall_impl; [exact Hst|]. intros q [E1 E2]. eapply Hc; [apply not_elem_of_nil | done..].
Qed.
End operations.
