(* ===== verification/Reconcile.v ===== *)
(** Settlement, src/backend/app/ai/w2/accounting.py: [reconcile_v1] with the evidence it
    consults.

    The observer is the environment: what its inventory holds, whether it still holds the
    same at each point where the code asks again, what it acknowledges and what it proves. *)

From S2P Require Import Prelude.
From S2P Require Import PyStr.
From S2P Require Import PyJson.
From S2P Require Import Codec.
From S2P Require Import PyTime.
From S2P Require Import Records.
From S2P Require Import Ledger.
From S2P Require Import Accounting.

Open Scope Z_scope.

Section reconcile.
Variable hash : string -> string.
Variable uuid4 : ledger -> string.

(** * Evidence *)

Definition RESOLUTION_FIELDS : list string :=
  ["format"; "decision_id"; "settlement_id"; "final_event_id"; "observation_count"; "observation_digest"].
Definition from_codec {A} (r : result codec_error A) : T A := fun db =>
  match r with Ok a => Ok (a, db) | Raise e => Raise (Refused (Escaped e)) end.
Definition observation_digest (l : list json) : string := hash (default EmptyString (ok_option (canonical_of (JArr l)))).
Definition is_final (e : json) : bool := bool_decide (text_of e "kind" ∈ ["FINAL_USAGE"; "ZERO_PROVEN"]).

(** The event of a kind with the greatest sequence. *)
Definition latest_event (digest kind : string) (db : ledger) : option event_row :=
  foldr (fun q best => match best with
                       | Some b => if event_sequence b <? event_sequence q then Some q else best
                       | None => Some q end) None
    (filter (fun q => event_key q = digest /\ event_kind q = kind) (events db)).

(** [evidence_prefix] *)
Definition evidence_prefix (key : json) (l : list json) : T nat :=
  db ← tables;
  let digest := fingerprint_of hash key in
  match latest_event digest "RECOVERY_RESOLVED" db with
  | None => mret 0%nat
  | Some resolved =>
      record ← from_codec (bounded_json (event_record resolved) 4096 4 64 "OUTPUT_LIMIT");
      let record := JObj record in
      _ ← demand (match record with JObj o => same_names o.*1 RESOLUTION_FIELDS | _ => false end &&
                  str_is (field record "format") "ra-w2-recovery-resolution/1") "CONFLICT";
      count ← match field record "observation_count" with JInt n => mret n | _ => fail (Refused (port_error "CONFLICT" None)) end;
      let chosen := take (Z.to_nat count) l in
      _ ← demand ((1 <=? count) && (count <=? Z.of_nat (length l)) && (Z.of_nat (length l) <=? 64) &&
                  bool_decide (observation_digest chosen = text_of record "observation_digest")) "CONFLICT";
      let final_id := text_of record "final_event_id" in
      decision ← demand_some (find_first (fun r => bool_decide (decision_id r = text_of record "decision_id") && bool_decide (recovery_key r = digest))
                                (recoveries db)) "CONFLICT";
      settled ← demand_some (find_first (fun q => bool_decide (settlement_id q = text_of record "settlement_id") && bool_decide (settlement_key q = digest))
                               (settlements db)) "CONFLICT";
      _ ← demand (bool_decide (final_event_id settled = final_id)) "CONFLICT";
      event ← demand_some (find_first (fun e => bool_decide (text_of e "event_id" = final_id)) chosen) "CONFLICT";
      context ← from_record (decode "RecoveryContext" (recovery_record decision));
      _ ← demand (py_eqb (field context "key") key && (number_of context "owner_generation" =? recovery_generation decision)) "CONFLICT";
      final ← from_record (decode "Settlement" (settlement_record settled));
      _ ← demand (is_final event && str_is (field (field event "usage") "state") "known") "CONFLICT";
      amounts ← from_record (actual (field event "usage"));
      _ ← demand ((amounts.1 =? number_of final "settled_tokens") && (amounts.2 =? number_of final "settled_microusd") &&
                  bool_decide (text_of final "key_digest" = digest) && bool_decide (text_of final "final_event_id" = text_of event "event_id") &&
                  bool_decide (text_of final "settlement_id" = settlement_id settled) && (number_of final "revision" =? settlement_revision settled)) "CONFLICT";
      _ ← demand (match latest_settlement digest db with Some q => bool_decide (settlement_id q = settlement_id settled) | None => false end) "CONFLICT";
      let posted := filter (fun q => posting_settlement q = settlement_id settled) (postings db) in
      _ ← demand (Nat.eqb (length posted) 4 &&
                  forallb (fun x => existsb (fun q => bool_decide ((posting_kind q, posting_dimension q) = x)) posted)
                    [("account", "tokens"); ("account", "microusd"); ("task", "tokens"); ("task", "microusd")] &&
                  forallb (fun q => bool_decide (posting_balance q = balance_id hash (field key "scope") (posting_kind q))) posted) "CONFLICT";
      mret (Z.to_nat count)
  end.

(** [unresolved_conflict] *)
Definition unresolved_conflict (key : json) (db : ledger) : bool :=
  let digest := fingerprint_of hash key in
  let latest := match latest_event digest "RECOVERY_RESOLVED" db with Some e => event_sequence e | None => 0 end in
  existsb (fun q => bool_decide (event_key q = digest) && bool_decide (event_kind q = "CONFLICT") && (latest <? event_sequence q)) (events db).

(** [evidence_hazards] *)
Fixpoint hazards_from (known : option (Z * Z)) (l : list json) : list (string * json) :=
  match l with
  | [] => []
  | e :: l' =>
      if bool_decide (text_of e "kind" = "CONFLICT") then ("EVENT_CONFLICT", e) :: hazards_from known l'
      else if bool_decide (text_of e "kind" = "COVERAGE_GAP") then ("COVERAGE_GAP", e) :: hazards_from known l'
      else if bool_decide (text_of e "kind" = "FINAL_USAGE") then
        if negb (str_is (field (field e "usage") "state") "known") then ("USAGE_UNKNOWN", e) :: hazards_from known l'
        else
          match actual (field e "usage") with
          | Raise _ => ("USAGE_OVERFLOW", e) :: hazards_from known l'
          | Ok value =>
              (if match known with Some v => negb (bool_decide (v = value)) | None => false end then [("FINAL_CONFLICT", e)] else []) ++
              hazards_from (Some value) l'
          end
      else hazards_from known l'
  end.
Definition evidence_hazards (l : list json) (prefix : nat) (known : option (Z * Z)) : list (string * json) := hazards_from known (drop prefix l).

(** * The environment *)

Record observer := mkObserver {
  inventory : list json;
  acknowledged : nat -> result record_error (string * Z * string);
  unchanged : bool;
  stable : nat -> bool;
  proves : nat -> bool;
  still : bool
}.

(** * One selected event *)

(** The locals of the transaction. *)
Record recon := mkRecon {
  r_row : reservation_row;
  r_bals : list (balance_row * policy_row);
  conflict_found : bool;
  blocked : bool;
  resolving : bool;
  retired : list string;
  outcome : option json
}.
Definition moved (x : reservation_row * list (balance_row * policy_row)) (conflicting blocking : bool) (r : recon) : recon :=
  mkRecon x.1 x.2 (conflicting || conflict_found r) (blocking || blocked r) (resolving r) (retired r) (outcome r).
Definition with_row (row : reservation_row) (r : recon) : recon :=
  mkRecon row (r_bals r) (conflict_found r) (blocked r) (resolving r) (retired r) (outcome r).

Definition with_actual (tokens microusd revision : Z) (r : reservation_row) : reservation_row :=
  mkReservation (row_digest r) (reservation_id r) (receipt r) (owner_id r) (owner_generation r) "SETTLED" 0 0
    tokens microusd (event_count r) (row_closed r) (cancelled r) revision.
Definition bal_settle (state : string) (dt dc ht hc : Z) (b : balance_row) : balance_row :=
  mkBalance (bal_id b) (settled_tokens b + dt) (settled_microusd b + dc) (held_tokens b - ht) (held_microusd b - hc) (calls b) (wall_ns b)
    state (cancel_generation b).
Definition bal_amounts (from b : balance_row) : balance_row :=
  mkBalance (bal_id b) (settled_tokens from) (settled_microusd from) (held_tokens from) (held_microusd from) (calls b) (wall_ns b)
    (bal_state from) (cancel_generation b).

(** The postings and the balances of one settlement. *)
Fixpoint settle_budgets (sid : string) (dt dc ht hc : Z) (bals : list (balance_row * policy_row)) : T (list (balance_row * policy_row)) :=
  match bals with
  | [] => mret []
  | (b, p) :: rest =>
      _ ← insert_posting (mkPosting sid (scope_kind p) "tokens" (bal_id b) dt (- ht));
      _ ← insert_posting (mkPosting sid (scope_kind p) "microusd" (bal_id b) dc (- hc));
      let b := bal_settle (bal_state b) dt dc ht hc b in
      let over := match token_cap p with Some t => t <? settled_tokens b + held_tokens b | None => false end
                  || match cost_cap p with Some c => c <? settled_microusd b + held_microusd b | None => false end in
      let b := if over then bal_with_state (if bool_decide (bal_state b = "CANCELLED") then "CANCELLED" else "PAUSED_UNKNOWN") b else b in
      _ ← update_balance (bal_id b) (bal_amounts b);
      rest ← settle_budgets sid dt dc ht hc rest;
      mret ((b, p) :: rest)
  end.

Definition settle (key event : json) (ctx : json) (l : list json) (tokens cost : Z) (r : recon) : T recon :=
  let row := r_row r in
  let digest := fingerprint_of hash key in
  let ht := row_held_tokens row in
  let hc := row_held_microusd row in
  let dt := tokens - actual_tokens row in
  let dc := cost - actual_microusd row in
  let rev := revision row + 1 in
  db ← tables;
  let sid := uuid4 db in
  totals ← from_record (canonical_of (JObj [("key_digest", JStr digest); ("final_event_id", field event "event_id"); ("revision", JInt rev);
    ("tokens", JInt tokens); ("microusd", JInt cost); ("settled_delta", JArr [JInt dt; JInt dc]); ("held_delta", JArr [JInt (- ht); JInt (- hc)])]));
  result ← from_record (make "Settlement"
    [("key_digest", JStr digest); ("settlement_id", JStr sid); ("final_event_id", field event "event_id"); ("revision", JInt rev);
     ("state", JStr (if bool_decide (text_of event "kind" = "ZERO_PROVEN") then "ZERO" else "KNOWN")); ("settled_tokens", JInt tokens);
     ("settled_microusd", JInt cost); ("held_tokens", JInt 0); ("held_microusd", JInt 0);
     ("refund_tokens", JInt (Z.max (ht - dt) 0)); ("refund_microusd", JInt (Z.max (hc - dc) 0));
     ("overrun_tokens", JInt (Z.max (dt - ht) 0)); ("overrun_microusd", JInt (Z.max (dc - hc) 0)); ("accounting_digest", JStr (hash totals))]);
  _ ← insert_settlement (mkSettlement sid digest (text_of event "event_id") rev (encoded result));
  bals ← settle_budgets sid dt dc ht hc (r_bals r);
  let row := with_actual tokens cost rev row in
  _ ← update_reservation digest (fun r => mkReservation (row_digest r) (reservation_id r) (receipt r) (owner_id r) (owner_generation r) "SETTLED" 0 0
        tokens cost (event_count r) (row_closed r) (cancelled r) rev);
  if resolving r then
    raw ← from_record (canonical_of (JObj [("format", JStr "ra-w2-recovery-resolution/1"); ("decision_id", field ctx "recovery_decision_id");
      ("settlement_id", JStr sid); ("final_event_id", field event "event_id"); ("observation_count", JInt (Z.of_nat (length l)));
      ("observation_digest", JStr (observation_digest l))]));
    row ← add_event hash uuid4 row "RECOVERY_RESOLVED" raw None true;
    mret (mkRecon row bals (conflict_found r) (blocked r) false (retired r ++ map (fun e => text_of e "event_id") l) (Some result))
  else mret (mkRecon row bals (conflict_found r) (blocked r) (resolving r) (retired r) (Some result)).

(** A contradiction of an event: recorded, retained and paused. *)
Definition clash (key event : json) (existing reason : string) (blocking : bool) (r : recon) : T recon :=
  x ← conflict hash uuid4 key (r_row r) (r_bals r) existing (fingerprint_of hash event) reason (Some event);
  mret (moved x true blocking r).

(** The settlement, unless a balance would leave its range. *)
Definition apply_final (key event ctx : json) (l : list json) (tokens cost : Z) (r : recon) : T recon :=
  let dt := tokens - actual_tokens (r_row r) in
  let dc := cost - actual_microusd (r_row r) in
  if forallb (fun b : balance_row * policy_row => amount_ok (settled_tokens b.1 + dt) && amount_ok (settled_microusd b.1 + dc)) (r_bals r)
  then settle key event ctx l tokens cost r
  else clash key event (text_of event "evidence_digest") "BALANCE_OVERFLOW" true r.

(** A final event that nothing contradicts so far. *)
Definition final_event (key event ctx : json) (l : list json) (r : recon) : T recon :=
  let row := r_row r in
  if negb (str_is (field (field event "usage") "state") "known") then
    '(row, bals) ← retain hash key row (r_bals r) (Some event);
    x ← pause hash key row bals "IN_DOUBT";
    mret (moved x false false r)
  else
    match actual (field event "usage") with
    | Raise _ => clash key event (text_of event "evidence_digest") "USAGE_OVERFLOW" false r
    | Ok (tokens, cost) =>
        db ← tables;
        match latest_settlement (fingerprint_of hash key) db with
        | Some q =>
            previous ← from_record (decode "Settlement" (settlement_record q));
            if (tokens =? actual_tokens row) && (cost =? actual_microusd row) && bool_decide (row_state row = "SETTLED") && negb (resolving r) then
              mret (mkRecon row (r_bals r) (conflict_found r) (blocked r) (resolving r) (retired r) (Some previous))
            else if negb (resolving r) then clash key event (text_of previous "accounting_digest") "FINAL_CONFLICT" true r
            else apply_final key event ctx l tokens cost r
        | None =>
            if bool_decide (row_state row = "CONFLICT") && negb (resolving r) then mret (moved (row, r_bals r) true false r)
            else apply_final key event ctx l tokens cost r
        end
    end.

(** The copy of an event in the tables: [None] when the event contradicts what they hold or
    no longer fits, with the state after that. *)
Definition record_event (key event : json) (r : recon) : T (recon * bool) :=
  db ← tables;
  let raw := encoded event in
  let eid := text_of event "event_id" in
  let stop r := x ← r; mret (x, false) in
  match find_first (fun q => bool_decide (event_id q = eid) && negb (bool_decide (event_key q = fingerprint_of hash key) && bool_decide (event_record q = raw)))
          (events db) with
  | Some entry => stop (clash key event (event_digest entry) "EVENT_CONFLICT" true r)
  | None =>
      match filter (fun q => copy_event_id q = eid \/ (copy_epoch q = text_of event "observer_epoch" /\ copy_sequence q = number_of event "sequence")) (copies db) with
      | [prior] =>
          if bool_decide (copy_record prior = raw) then mret (r, true)
          else stop (clash key event (copy_digest prior) "EVENT_CONFLICT" true r)
      | [] =>
          if 64 <=? event_count (r_row r) then
            '(row, bals) ← retain hash key (r_row r) (r_bals r) (Some event);
            x ← pause hash key row bals "CONFLICT";
            mret (moved x true true r, false)
          else
            _ ← insert_copy (mkCopy eid (fingerprint_of hash key) (text_of event "observer_epoch") (number_of event "sequence") (fingerprint_of hash event) raw);
            row ← add_event hash uuid4 (r_row r) (text_of event "kind") raw (Some eid) true;
            mret (with_row row r, true)
      | _ => fail WrongRowCount
      end
  end.

(** The body of the loop over the selected events; [i] is the position of the event. *)
Definition select_event (obs : observer) (key core ctx : json) (recovery : bool) (i : nat) (event : json) (r : recon) : T recon :=
  _ ← demand (bool_decide (text_of event "key_digest" = fingerprint_of hash key) && bool_decide (text_of event "call_ref" = text_of key "call_ref") &&
              bool_decide (text_of event "body_digest" = text_of core "body_digest")) "CONFLICT";
  _ ← demand (recovery || (number_of event "owner_generation" =? number_of ctx "owner_generation")) "OWNER_LOST";
  if bool_decide (text_of event "event_id" ∈ retired r) && negb (resolving r) then mret r
  else
    '(r, recorded) ← record_event key event r;
    if negb recorded then mret r
    else
      r ← (if bool_decide (text_of event "kind" = "STREAM_CLOSED") then
             _ ← update_reservation (fingerprint_of hash key) (with_closed true); mret (with_row (with_closed true (r_row r)) r)
           else mret r);
      if negb (is_final event) then mret r
      else if blocked r then mret r
      else if negb (stable obs i) then clash key event (text_of event "evidence_digest") "COVERAGE_GAP" true r
      else _ ← demand (proves obs i) "OBSERVER_UNAVAILABLE"; final_event key event ctx (inventory obs) r.
Fixpoint select_events (obs : observer) (key core ctx : json) (recovery : bool) (i : nat) (l : list json) (r : recon) : T recon :=
  match l with
  | [] => mret r
  | event :: l' => r ← select_event obs key core ctx recovery i event r; select_events obs key core ctx recovery (S i) l' r
  end.

(** * The transaction *)

(** The hazards of the inventory, and the lower bounds behind a contradiction. *)
Fixpoint handle_hazards (key : json) (l : list (string * json)) (r : recon) : T recon :=
  match l with
  | [] => mret r
  | (reason, event) :: l' =>
      r ← (if bool_decide (reason = "USAGE_UNKNOWN") then
             if resolving r then mret r
             else
               '(row, bals) ← retain hash key (r_row r) (r_bals r) (Some event);
               x ← pause hash key row bals "IN_DOUBT";
               mret (moved x false false r)
           else
             x ← conflict hash uuid4 key (r_row r) (r_bals r) (text_of event "evidence_digest") (fingerprint_of hash event) reason (Some event);
             mret (mkRecon x.1 x.2 (negb (resolving r)) (blocked r) (resolving r) (retired r) (outcome r)));
      handle_hazards key l' r
  end.
Fixpoint retain_all (key : json) (l : list json) (r : recon) : T recon :=
  match l with
  | [] => mret r
  | event :: l' =>
      r ← (if bool_decide (text_of event "kind" ∈ ["FINAL_USAGE"; "CONFLICT"]) then
             x ← retain hash key (r_row r) (r_bals r) (Some event); mret (moved x false false r)
           else mret r);
      retain_all key l' r
  end.

(** Whether this recovery decision was used for a resolution before. *)
Fixpoint decision_used (decision : string) (l : list event_row) : T bool :=
  match l with
  | [] => mret false
  | e :: l' =>
      record ← from_codec (bounded_json (event_record e) 4096 4 64 "OUTPUT_LIMIT");
      if bool_decide (text_of (JObj record) "decision_id" = decision) then mret true else decision_used decision l'
  end.

Definition reconcile_body (obs : observer) (ctx key : json) (selected : list json) (recovery_decision : option string) : T (bool * reservation_row) :=
  bals ← load_budgets hash (field key "scope") None None;
  '(row, core) ← load_call hash key (Some ctx);
  let recovery := is_record "RecoveryContext" ctx in
  let decision := text_of ctx "recovery_decision_id" in
  db ← tables;
  _ ← (if recovery then
         d ← demand_some (find_first (fun q => bool_decide (decision_id q = decision)) (recoveries db)) "OWNER_LOST";
         demand (bool_decide (recovery_key d = fingerprint_of hash key) && (recovery_generation d =? number_of ctx "owner_generation")) "OWNER_LOST"
       else mret tt);
  prefix ← evidence_prefix key (inventory obs);
  let hazards := evidence_hazards (inventory obs) prefix (if revision row =? 0 then None else Some (actual_tokens row, actual_microusd row)) in
  let hard := bool_decide (row_state row = "CONFLICT") || unresolved_conflict key db || existsb (fun h => negb (bool_decide (h.1 = "USAGE_UNKNOWN"))) hazards in
  let wanted := recovery && (negb (bool_decide (hazards = [])) || hard || negb (bool_decide (row_state row = "SETTLED"))) &&
                (negb hard || match recovery_decision with Some d => bool_decide (d = decision) | None => false end) in
  resolving ← (if wanted : bool then
                 used ← decision_used decision (filter (fun q => event_key q = fingerprint_of hash key /\ event_kind q = "RECOVERY_RESOLVED") (events db));
                 mret (negb used)
               else mret false);
  r ← handle_hazards key hazards (mkRecon row bals false false resolving (map (fun e => text_of e "event_id") (take prefix (inventory obs))) None);
  let stopped := (negb (bool_decide (hazards = [])) || hard) && negb resolving in
  r ← (if stopped : bool then
         r ← retain_all key (drop prefix (inventory obs)) r;
         x ← pause hash key (r_row r) (r_bals r) (if hard then "CONFLICT" else "IN_DOUBT");
         mret (moved x false true r)
       else mret r);
  let r := mkRecon (r_row r) (r_bals r) (conflict_found r || bool_decide (row_state (r_row r) = "CONFLICT") && negb resolving) (blocked r) resolving
             (retired r) (outcome r) in
  _ ← demand (negb resolving || Nat.leb (length (filter (fun e => is_final e = true) selected)) 1) "CONFLICT";
  r ← select_events obs key core ctx recovery 0 selected r;
  x ← (if is_none (outcome r) && negb (conflict_found r) && negb (bool_decide (row_state (r_row r) = "SETTLED"))
       then pause hash key (r_row r) (r_bals r) "IN_DOUBT" else mret (r_row r, r_bals r));
  mret (conflict_found r, x.1).

(** [reconcile_v1]; each of the transactions has its surroundings. *)
Definition acknowledgements (obs : observer) : result record_error unit :=
  (fix each (i : nat) (l : list json) : result record_error unit :=
     match l with
     | [] => Ok tt
     | event :: l' =>
         ack ← acknowledged obs i;
         _ ← port_require (bool_decide (ack = (text_of event "event_id", number_of event "sequence", fingerprint_of hash event))) "OBSERVER_UNAVAILABLE";
         each (S i) l'
     end) 0%nat (inventory obs).
Definition select_observations (obs : observer) (ids : list string) : result record_error (list json) :=
  _ ← port_require ((1 <=? Z.of_nat (length ids)) && (Z.of_nat (length ids) <=? 8) && bool_decide (NoDup ids)) "LIMIT_EXCEEDED";
  _ ← port_require ((Z.of_nat (length (inventory obs)) <=? 64) && bool_decide (NoDup (map (fun e => text_of e "event_id") (inventory obs)))) "OBSERVER_UNAVAILABLE";
  found ← map_result (fun id => require (find_first (fun e => bool_decide (text_of e "event_id" = id)) (inventory obs)) (port_error "OBSERVER_UNAVAILABLE" None)) ids;
  map_result (fun e => decode "Observation" (encoded e)) found.
Definition read_context (ctx : json) : result record_error json :=
  if is_record "RecoveryContext" ctx then Ok (field ctx "read")
  else make "ReadContext" [("scope", field ctx "scope"); ("process_epoch", field ctx "process_epoch"); ("deadline_at", field ctx "deadline_at");
                           ("mono_deadline_ns", field ctx "mono_deadline_ns"); ("cancellation_id", field ctx "cancellation_id")].

Definition reconcile_v1 (s_main s_doubt s_read : surroundings) (obs : observer) (ctx key : json) (ids : list string) (recovery_decision : option string)
    (db : ledger) : ledger * result ledger_error json :=
  match (selected ← select_observations obs ids; _ ← read_context ctx; Ok selected) with
  | Raise e => (db, Raise (Refused e))
  | Ok selected =>
      let doubted e := let '(db', answer) := mark_unknown hash s_doubt ctx key db in
                       (db', match answer with Ok _ => Raise e | Raise e' => Raise e' end) in
      match acknowledgements obs with
      | Raise (PortError code digest) => doubted (Refused (PortError code digest))
      | Raise e => (db, Raise (Refused e))
      | Ok _ =>
          if negb (unchanged obs) then doubted (Refused (port_error "OBSERVER_UNAVAILABLE" (Some (fingerprint_of hash key))))
          else
            let '(db1, answer) := budget_transaction s_main (reconcile_body obs ctx key selected recovery_decision) db in
            match answer with
            | Raise e => (db1, Raise e)
            | Ok (true, _) => (db1, Raise (Refused (port_error "CONFLICT" (Some (fingerprint_of hash key)))))
            | Ok (false, _) =>
                if still obs then current_settlement hash s_read key db1
                else
                  let '(db2, doubt) := mark_unknown hash s_doubt ctx key db1 in
                  match doubt with Ok _ => current_settlement hash s_read key db2 | Raise e => (db2, Raise e) end
            end
      end
  end.
End reconcile.
