(* ===== verification/Conservation.v ===== *)
(** Every operation of the budget store keeps the books of Budgets, from the empty tables on. *)

From S2P Require Import Prelude.
From S2P Require Import PyStr.
From S2P Require Import PyJson.
From S2P Require Import Codec.
From S2P Require Import PyTime.
From S2P Require Import Records.
From S2P Require Import Ledger.
From S2P Require Import Accounting.
From S2P Require Import Keys.
From S2P Require Import Budgets.
From S2P Require Import Reconcile.

Open Scope Z_scope.

Section store.
Variable hash : string -> string.
Variable uuid4 : ledger -> string.

(** * Operations that move no amount *)

(** A loaded call whose row is then changed without its amounts. *)
Lemma kept_state key db row f (Q : unit -> ledger -> Prop) : kept hash db -> reservations db !! fingerprint_of hash key = Some row -> same_amounts row (f row) ->
  (forall db', kept hash db' -> reservations db' !! fingerprint_of hash key = Some (f row) -> Q tt db') -> after (update_reservation (fingerprint_of hash key) f) db Q.
Proof.
  intros Hk Hr Ha H. apply (after_update_reservation _ _ _ row); [done|]. apply H; [by apply (kept_row _ _ row) | apply lookup_insert_eq].
Qed.
(** An event of a stored row; the working copy may be older in other columns. *)
Lemma kept_event key db r row kind raw id recovery (Q : reservation_row -> ledger -> Prop) : kept hash db ->
  reservations db !! fingerprint_of hash key = Some r -> row_digest row = fingerprint_of hash key -> (forall row' db', kept hash db' -> (exists n, reservations db' !! fingerprint_of hash key = Some r \/
    reservations db' !! fingerprint_of hash key = Some (with_events n r)) -> Q row' db') ->
  after (add_event hash uuid4 row kind raw id recovery) db Q.
Proof.
  intros Hk Hr Hd H. eapply after_event; rewrite ?Hd; [exact Hr | apply H; [done | exists 0; by left] |]. intros e n. apply H.
  - apply (kept_row _ _ r); [by apply same_amounts_held | done |]. (eapply kept_ext; [|exact Hk]; done).
  - exists n. right. apply lookup_insert_eq.
Qed.
Lemma stored_digest key db row : kept hash db -> stored_call hash key db row -> row_digest row = fingerprint_of hash key.
Proof. intros [Hs] [Hr _]. by eapply (rows_cores _ _ Hs). Qed.

Lemma lookup_kept s read key db : kept hash db -> decoded "ReservationKey" key -> kept hash (lookup_reservation_v1 hash s read key db).1.
Proof.
  intros Hk Hd. apply (first_keeps (kept hash)); [done|]. intros _ _. apply (transaction_keeps (kept hash)); [done|]. statements. apply after_load_budgets; [apply Hk..|]. intros bals _.
  statements. apply after_load_call; [apply Hk | done |]. intros row core _. by statements.
Qed.
Lemma current_kept s key db : kept hash db -> decoded "ReservationKey" key -> kept hash (current_settlement hash s key db).1.
Proof.
  intros Hk Hd. apply (transaction_keeps (kept hash)); [done|]. statements. apply after_load_budgets; [apply Hk..|]. intros bals _.
  statements. apply after_load_call; [apply Hk | done |]. intros row core _. statements. case_if; by statements.
Qed.
Lemma terminal_kept s ctx key terminal usage db : kept hash db -> decoded "ReservationKey" key ->
  kept hash (terminal_projection hash uuid4 s ctx key terminal usage db).1.
Proof.
  intros Hk Hd. apply (first_keeps (kept hash)); [done|]. intros raw _. apply (transaction_keeps (kept hash)); [done|]. statements. apply after_load_budgets; [apply Hk..|]. intros bals _.
  statements. apply after_load_call; [apply Hk | done |]. intros row core Hc. statements.
  eapply kept_event; [done | apply Hc | by eapply stored_digest |]. intros row' db' Hk' _. by statements.
Qed.
Lemma completion_kept s ctx key completion db : kept hash db -> decoded "ReservationKey" key ->
  kept hash (persist_completion hash uuid4 s ctx key completion db).1.
Proof.
  intros Hk Hd. apply (first_keeps (kept hash)); [done|]. intros [] _. apply (transaction_keeps (kept hash)); [done|]. statements. apply after_load_budgets; [apply Hk..|]. intros bals _.
  statements. apply after_load_call; [apply Hk | done |]. intros row core Hc. statements. case_if; [|by statements]. statements.
  eapply kept_event; [done | apply Hc | by eapply stored_digest |]. intros row' db' Hk' _. unfold insert_completion. statements.
  (eapply kept_ext; [|exact Hk']; done).
Qed.
Lemma mark_unknown_kept s ctx key db : kept hash db -> decoded "ReservationKey" key -> kept hash (mark_unknown hash s ctx key db).1.
Proof.
  intros Hk Hd. apply (transaction_keeps (kept hash)); [done|]. statements. apply after_load_budgets; [apply Hk..|]. intros bals Hb.
  statements. apply after_load_call; [apply Hk | done |]. intros row core Hc. statements. destruct (working_start hash key db row bals) as [Hw _]; [done..|].
  eapply after_weaken; [by apply after_retain|]. intros [row1 bals1] db1 Hw1. statements.
  eapply after_weaken; [by apply after_pause|]. intros x db2 [Hw2 Hcap]. statements. by eapply working_kept.
Qed.
Lemma marker_kept s run admission ticket db : kept hash db -> decoded "ReservationKey" (field admission "key") ->
  kept hash (marker hash uuid4 s run admission ticket db).1.
Proof.
  intros Hk Hd. apply (first_keeps (kept hash)); [done|]. intros [] _. apply (transaction_keeps (kept hash)); [done|]. statements. apply after_load_budgets; [apply Hk..|]. intros bals _.
  statements. apply after_load_call; [apply Hk | done |]. intros row core Hc. statements. destruct (admissions db !! _); [|done]. statements.
  unfold insert_marker. statements. eapply kept_event; [| apply Hc | by eapply stored_digest |].
  { (eapply kept_ext; [|exact Hk]; done). }
  intros row' db' Hk' (n & Hr). statements. destruct Hr as [Hr|Hr]; (eapply kept_state; [done | exact Hr | by apply same_amounts_held |]; intros db'' Hk'' _; by statements).
Qed.

(** * Admission *)

Lemma kept_admissions f db : kept hash db -> open_once (set_admissions f db) -> kept hash (set_admissions f db).
Proof. intros [[] Hb Hc] Ho. constructor; [by constructor | done..]. Qed.
Lemma admit_kept s run receipt_ db : kept hash db -> decoded "ReservationKey" (field receipt_ "key") -> kept hash (admit_v1 hash uuid4 s run receipt_ db).1.
Proof.
  intros Hk Hd. apply (transaction_keeps (kept hash)); [done|]. statements. apply after_load_budgets; [apply Hk..|]. intros bals _.
  statements. apply after_load_call; [apply Hk | done |]. intros row core Hc. statements. unfold insert_admission. statements.
  set (adm := mkAdmission _ _ _ _ _ _ _) in *. eapply kept_state; [| apply Hc | by apply same_amounts_held |].
  { apply kept_admissions; [done|]. intros d1 d2 x1 x2. cbn. bool_simpl.
    assert (Hnew : forall d x, admissions db !! d = Some x -> adm_closed x = false -> ~ (adm_account_ref x = adm_account_ref adm \/ adm_deployment_ref x = adm_deployment_ref adm)).
    { intros d x Hx Ho. match goal with H : forallb _ (map_to_list (admissions db)) = true |- _ => eapply forallb_elem in H; [|by apply elem_of_map_to_list in Hx] end.
      cbn in *. bool_simpl. rewrite Ho in *. cbn in *. bool_simpl. tauto. }
    destruct (decide (d1 = fingerprint_of hash (field receipt_ "key"))) as [->|N1], (decide (d2 = fingerprint_of hash (field receipt_ "key"))) as [->|N2]; [done|..].
    - rewrite lookup_insert_eq, lookup_insert_ne by done. intros [= <-] Hx _ Ho E. destruct (Hnew _ _ Hx Ho). intuition.
    - rewrite lookup_insert_ne, lookup_insert_eq by done. intros Hx [= <-] Ho _ E. destruct (Hnew _ _ Hx Ho). intuition.
    - rewrite !lookup_insert_ne by done. apply (opened_once _ _ (kept_structured _ _ Hk)). }
  intros db' Hk' Hr. statements. eapply kept_event; [done | exact Hr | by apply (stored_digest _ db) |]. intros row' db'' Hk'' _. by statements.
Qed.
(** Admissions only close. *)
Lemma after_closing f db (Q : unit -> ledger -> Prop) : kept hash db -> (forall k a, f k a = a \/ adm_closed (f k a) = true) ->
  (forall db', kept hash db' -> reservations db' = reservations db -> Q tt db') -> after (update_admissions f) db Q.
Proof.
  intros Hk Hf H. unfold update_admissions. statements. apply H; [|done]. apply kept_admissions; [done|]. intros d1 d2 x1 x2. cbn. rewrite !map_lookup_imap.
  assert (Hopen : forall d x, (admissions db !! d ≫= fun a => Some (f d a)) = Some x -> adm_closed x = false -> admissions db !! d = Some x).
  { intros d x Hx Ho. destruct (admissions db !! d) as [a|]; [|done]. cbn in Hx. injection Hx as <-. destruct (Hf d a) as [->|E]; [done | congruence]. }
  intros H1 H2 O1 O2. apply (opened_once _ _ (kept_structured _ _ Hk)); auto.
Qed.
Lemma finish_kept s ctx key closed db : kept hash db -> decoded "ReservationKey" key -> kept hash (finish_call hash s ctx key closed db).1.
Proof.
  intros Hk Hd. apply (first_keeps (kept hash)); [done|]. intros [] _. apply (transaction_keeps (kept hash)); [done|]. statements. apply after_load_budgets; [apply Hk..|]. intros bals _.
  statements. apply after_load_call; [apply Hk | done |]. intros row core Hc. statements. apply after_closing; [done | intros k a; case_if; auto |].
  intros db' Hk' Hr. statements. eapply kept_state; [done | rewrite Hr; apply Hc | by apply same_amounts_held | done].
Qed.

(** * Policies *)

Lemma uncharged db bid d : structured hash db -> policies db !! bid = None -> charged (cores db) bid d = false.
Proof.
  intros Hs Hp. unfold charged. destruct (cores db !! d) as [c|] eqn:E; [|done]. destruct (cores_policies _ _ Hs _ _ E) as [(p & Ep & _) (q & Eq & _)].
  apply orb_false_iff. split; apply bool_decide_eq_false_2; congruence.
Qed.
Lemma installed_kept db bid body : kept hash db -> policies db !! bid = None -> policy_ok body = true ->
  (exists scope, pol_scope body = JObj (scope_document scope (scope_kind body))) ->
  kept hash (set_balances <[bid := mkBalance bid 0 0 0 0 0 0 "ACTIVE" 1]> (set_policies <[bid := body]> db)).
Proof.
  intros [Hs Hb Hc] Hp Hok Hscope.
  assert (Hnew : forall i p, policies db !! i = Some p -> <[bid := body]> (policies db) !! i = Some p) by
    (intros i p Hi; rewrite lookup_insert_ne; [done|]; intros ->; congruence).
  assert (Hother : forall i b, balances db !! i = Some b -> i <> bid) by (intros i b Hi ->; destruct (balances_policies _ _ Hs _ _ Hi); congruence).
  assert (Hcap : forall o n, match o with Some n => amount_ok n | None => true end = true -> o = Some n -> 0 <= n) by
    (intros o n Ho ->; unfold amount_ok in Ho; bool_simpl; done).
  unfold policy_ok in Hok. bool_simpl. constructor.
  - constructor; cbn; try apply Hs.
    + intros d c Hd. destruct (cores_policies _ _ Hs d c Hd) as [(p1 & E1 & K1) (p2 & E2 & K2)].
      split; [exists p1 | exists p2]; (split; [by apply Hnew | done]).
    + intros i b. destruct (decide (i = bid)) as [->|Hne]; [by rewrite !lookup_insert_eq|]. rewrite !lookup_insert_ne by done. apply Hs.
    + intros i p. destruct (decide (i = bid)) as [->|Hne]; [by rewrite lookup_insert_eq; intros [= <-]|]. rewrite lookup_insert_ne by done. apply Hs.
  - intros i b. unfold balanced. cbn. destruct (decide (i = bid)) as [->|Hne]; [|rewrite lookup_insert_ne by done; apply Hb].
    rewrite lookup_insert_eq. intros [= <-]. pose proof (fun d => uncharged db bid d Hs Hp) as Hu.
    split_and!; cbn; rewrite ?total_none by done; try done. intros []; by rewrite total_none.
  - intros i b p _. cbn. destruct (decide (i = bid)) as [->|Hne]; [|rewrite !lookup_insert_ne by done; apply Hc, not_elem_of_nil].
    rewrite !lookup_insert_eq. intros [= <-] [= <-] _. split; cbn; intros n; by apply Hcap.
Qed.
Lemma install_kept s scope kind c manifest decision valid_from expires_at db : kept hash db ->
  kept hash (install_policy hash s scope kind c manifest decision valid_from expires_at db).1.
Proof.
  intros Hk. apply (first_keeps (kept hash)); [done|]. intros body Hbody. apply (transaction_keeps (kept hash)); [done|]. statements.
  destruct (policies db !! _) eqn:Ep; [by statements|]. statements. unfold insert_policy. statements. unfold insert_balance. statements.
  bool_simpl. apply installed_kept; [done..|]. unfold policy_checks in Hbody. repeat (rewrite port_bind in Hbody; case_if_in Hbody; [|done]).
  apply bind_ok in Hbody as (f & _ & (u & _ & [= <-])%bind_ok). by exists scope.
Qed.

(** * Reservations *)

Definition roomy (tokens microusd : Z) (q : balance_row * policy_row) : Prop :=
  within_caps q.1 q.2 tokens microusd = true /\ exists n w, call_cap q.2 = Some n /\ wall_cap_ns q.2 = Some w /\ calls q.1 < n /\ wall_ns q.1 + call_ns <= w.
Definition charged_to (tokens microusd : Z) (q q' : balance_row * policy_row) : Prop :=
  bal_id q'.1 = bal_id q.1 /\ q'.2 = q.2 /\
  (forall a, bal_amount a q'.1 = bal_amount a q.1 + match a with HeldTokens => tokens | HeldMicrousd => microusd | _ => 0 end) /\
  calls q'.1 = calls q.1 + 1 /\ wall_ns q'.1 = wall_ns q.1 + call_ns.

Lemma after_check_room core manifest bals db (Q : unit -> ledger -> Prop) :
  (Forall (roomy (number_of core "reserved_tokens") (number_of core "reserved_microusd")) bals -> Q tt db) -> after (check_room core manifest bals) db Q.
Proof.
  revert Q. induction bals as [|[b q] rest IH]; intros Q H; cbn [check_room]; [statements; apply H; constructor|].
  unfold room. statements. apply IH. intros Hr. apply H. constructor; [|done]. bool_simpl. destruct (call_cap q) as [n|] eqn:En; [|done].
  destruct (wall_cap_ns q) as [w|] eqn:Ew; [|done]. bool_simpl. split; [done|]. by exists n, w.
Qed.
Lemma charged_ids tokens microusd bals bals' : Forall2 (charged_to tokens microusd) bals bals' -> bids bals' = bids bals.
Proof. induction 1 as [|q q' l l' Hq _ IH]; cbn; [done|]. destruct Hq as [-> _]. by rewrite IH. Qed.
Lemma after_charge tokens microusd bals : forall db, NoDup (bids bals) -> Forall (fun q => balances db !! bal_id q.1 = Some q.1) bals ->
  after (charge tokens microusd bals) db (fun _ db' => exists bals', Forall2 (charged_to tokens microusd) bals bals' /\ balances_only bals' db db').
Proof.
  induction bals as [|[b p] rest IH]; intros db Hnd Hst; cbn [charge]; [statements; exists []; split; [constructor | apply balances_only_nil]|].
  statements. apply (after_update_balance _ _ _ b); [by apply Forall_cons in Hst as [Hb _]|]. statements.
  set (b' := bal_reserve _ _ _ _ b). destruct (stored_rest b p rest db db b') as (H1 & H2 & H3); try done.
  eapply after_weaken; [by apply IH|]. cbv beta. intros _ db' (rest' & Hs & Ho). exists ((b', p) :: rest'). split.
  - constructor; [|done]. split_and!; cbn; try done. intros []; cbn; lia.
  - eapply (balances_only_cons _ _ _ db); [|done|exact Ho].
    by rewrite (charged_ids _ _ _ _ Hs).
Qed.

(** A call that is new to the tables. *)
Section reserved.
Variable key : json.
Variable db dbx db' : ledger.
Variable c : core_row.
Variable row : reservation_row.
Variable bals bals' : list (balance_row * policy_row).
Variable tokens microusd : Z.
Hypothesis Hkept : kept hash db.
Hypothesis Hkey : decoded "ReservationKey" key.
Hypothesis Hload : loaded hash (field key "scope") db bals.
Hypothesis Hcapped : all_capped bals'.
Hypothesis Hnone : reservations db !! fingerprint_of hash key = None.
Hypothesis Hcore : key_bytes c = encoded key /\ account_balance c = balance_id hash (field key "scope") "account" /\
  task_balance c = balance_id hash (field key "scope") "task".
Hypothesis Hrow : row_digest row = fingerprint_of hash key /\ forall a, row_amount a row = match a with HeldTokens => tokens | HeldMicrousd => microusd | _ => 0 end.
Hypothesis Hx : policies dbx = policies db /\ balances dbx = balances db /\ admissions dbx = admissions db /\
  reservations dbx = <[fingerprint_of hash key := row]> (reservations db) /\ cores dbx !! fingerprint_of hash key = Some c /\
  forall d, d <> fingerprint_of hash key -> cores dbx !! d = cores db !! d.
Hypothesis Hs : Forall2 (charged_to tokens microusd) bals bals'.
Hypothesis Ho : balances_only bals' dbx db'.

Lemma reserved_ids : bids bals' = bids bals.
Proof. by apply (charged_ids tokens microusd). Qed.
Lemma reserved_balance bid b : balances db' !! bid = Some b ->
  ((bid ∉ bids bals) /\ balances db !! bid = Some b) \/
  exists q q', bid ∈ bids bals /\ bid = bal_id q.1 /\ b = q'.1 /\ balances db !! bid = Some q.1 /\ policies db !! bid = Some q.2 /\
    charged_to tokens microusd q q' /\ capped q'.1 q'.2.
Proof.
  intros Hb. destruct Hx as (_ & Eb & _). destruct (decide (bid ∈ bids bals)) as [Hi|Hi].
  - right. pose proof Hi as Hi'. rewrite <- reserved_ids in Hi'. apply list_elem_of_fmap in Hi' as (q' & -> & Hq'). pose proof (only_rows _ _ _ Ho) as Hrows.
    rewrite Forall_forall in Hrows. rewrite (Hrows q' Hq') in Hb. injection Hb as <-.
    pose proof Hq' as Hq2. apply list_elem_of_lookup in Hq' as [i Hi2]. destruct (Forall2_lookup_r _ _ _ _ _ Hs Hi2) as (q & Hq%list_elem_of_lookup_2 & Hqq). exists q, q'.
    destruct Hload as (_ & Hst & _). unfold all_capped in Hcapped. rewrite Forall_forall in Hst, Hcapped. destruct (Hst q Hq) as [E1 E2]. pose proof Hqq as (E & _). rewrite E. split_and!; try done; [by rewrite <- E | by apply Hcapped].
  - left. split; [done|]. by rewrite (only_others _ _ _ Ho), Eb in Hb by (by rewrite reserved_ids).
Qed.
Lemma reserved_total f bid : total f (cores db') bid (reservations db') = (if bool_decide (bid ∈ bids bals) then f row else 0) + total f (cores db) bid (reservations db).
Proof.
  clear uuid4. destruct Hx as (_ & _ & _ & Er & Ec & Eo). rewrite (only_cores _ _ _ Ho), (only_reservations _ _ _ Ho), Er, total_insert_new by done. f_equal.
  - unfold charged. rewrite Ec. destruct Hcore as (_ & -> & ->). destruct Hload as (-> & _). rewrite <- bool_decide_or.
    erewrite bool_decide_ext; [done|]. rewrite elem_of_cons, list_elem_of_singleton. intuition congruence.
  - apply total_ext. intros d r Hr. split; [|done]. unfold charged. rewrite Eo; [done|]. intros ->. congruence.
Qed.
Lemma reserved_structured : structured hash db'.
Proof.
  destruct Hkept as [Hst _ _]. destruct Hx as (Ep & _ & Ea & Er & Ec & Eo). pose proof (only_policies _ _ _ Ho) as Op. pose proof (only_cores _ _ _ Ho) as Oc.
  pose proof (only_reservations _ _ _ Ho) as Or. pose proof (only_admissions _ _ _ Ho) as Oa.
  constructor; unfold open_once, policy_kind; rewrite ?Op, ?Oc, ?Or, ?Oa, ?Ep, ?Er, ?Ea; try apply Hst.
  - intros d x. destruct (decide (d = fingerprint_of hash key)) as [->|Hne]; [|rewrite Eo by done; apply Hst].
    rewrite Ec. intros [= <-]. exists key. destruct Hcore as (? & ? & ?). done.
  - intros d x. destruct (decide (d = fingerprint_of hash key)) as [->|Hne]; [|rewrite Eo by done; apply Hst].
    rewrite Ec. intros [= <-]. destruct Hcore as (_ & -> & ->). by destruct Hload as (_ & _ & _ & ? & ?).
  - intros d x. destruct (decide (d = fingerprint_of hash key)) as [->|Hne]; [|rewrite lookup_insert_ne, Eo by done; apply Hst].
    rewrite lookup_insert_eq, Ec. intros [= <-]. by destruct Hrow as [-> _].
  - intros bid b Hb. apply reserved_balance in Hb as [[_ Hb]|(q & q' & _ & -> & -> & _ & -> & _)]; [by eapply Hst | done].
Qed.
Lemma reserved_kept : kept hash db'.
Proof.
  constructor; [apply reserved_structured|..].
  - destruct Hkept as [_ Hbooks _]. intros bid b Hb. unfold balanced. setoid_rewrite reserved_total.
    apply reserved_balance in Hb as [[Hi Hb]|(q & q' & Hi & Eid & -> & Hq & _ & (E0 & _ & E1 & E2 & E3) & _)].
    + destruct (Hbooks _ _ Hb) as (B0 & B1 & B2 & B3). rewrite bool_decide_eq_false_2 by done. split_and!; try done.
    + destruct (Hbooks _ _ Hq) as (B0 & B1 & B2 & B3). rewrite bool_decide_eq_true_2, E0, E2, E3 by done. split_and!; [done| |lia|lia].
      intros a. rewrite E1, B1. destruct Hrow as [_ ->]. destruct a; lia.
  - destruct Hkept as [_ _ Hcaps]. intros bid b p _ Hb Hp. destruct Hx as (Ep & _). rewrite (only_policies _ _ _ Ho), Ep in Hp.
    apply reserved_balance in Hb as [[_ Hb]|(q & q' & _ & Eid & -> & Hq & Hp' & (_ & E2 & _) & Hcap)]; [by eapply Hcaps; [apply not_elem_of_nil|..]|].
    rewrite Hp in Hp'. injection Hp' as ->. by rewrite <- E2.
Qed.
End reserved.

Lemma roomy_capped tokens microusd bals bals' : Forall (roomy tokens microusd) bals -> Forall2 (charged_to tokens microusd) bals bals' -> all_capped bals'.
Proof.
  intros Hroom Hs. unfold all_capped. apply Forall_forall. intros q' Hq'. apply list_elem_of_lookup in Hq' as [i Hi].
  destruct (Forall2_lookup_r _ _ _ _ _ Hs Hi) as (q & Hq%list_elem_of_lookup_2 & (_ & -> & E1 & E2 & E3)). rewrite Forall_forall in Hroom.
  destruct (Hroom q Hq) as (Hcap & n & w & En & Ew & ? & ?). intros _. unfold within_caps in Hcap. pose proof (E1 HeldTokens) as A1. pose proof (E1 HeldMicrousd) as A2.
  pose proof (E1 ActualTokens) as A3. pose proof (E1 ActualMicrousd) as A4. cbn in *. destruct (token_cap q.2) eqn:Et; [|done]. destruct (cost_cap q.2) eqn:Ec; [|done]. bool_simpl.
  constructor; intros ?; rewrite ?Et, ?Ec, ?En, ?Ew; intros [= <-]; lia.
Qed.
Lemma loaded_same s1 s2 db bals : same_scope s1 s2 -> loaded hash s1 db bals -> loaded hash s2 db bals.
Proof. intros H. unfold loaded. by rewrite !(balance_id_same hash s1 s2 _ H). Qed.
Lemma new_reservation_kept run key p bals db : kept hash db -> decoded "ReservationKey" key -> loaded hash (field key "scope") db bals ->
  after (new_reservation hash uuid4 run key p bals) db (fun _ db' => kept hash db').
Proof.
  intros Hk Hd Hl. unfold new_reservation. statements. apply after_check_room. intros Hroom. statements.
  unfold insert_core. statements. unfold insert_reservation. statements. bool_simpl. cbn [cores reservations set_cores set_reservations row_digest] in *.
  assert (Hc : cores db !! fingerprint_of hash key = None) by (by destruct (cores db !! _)).
  assert (Hr : reservations db !! fingerprint_of hash key = None) by (by destruct (reservations db !! _)).
  set (row := mkReservation _ _ _ _ _ _ _ _ _ _ _ _ _ _) in *. set (c := mkCore _ _ _ _ _ _ _ _ _ _) in *.
  assert (Hend : forall row' dbx, row_digest row' = fingerprint_of hash key -> (forall a, row_amount a row' = row_amount a row) ->
    policies dbx = policies db /\ balances dbx = balances db /\ admissions dbx = admissions db /\
      reservations dbx = <[fingerprint_of hash key := row']> (reservations db) /\ cores dbx !! fingerprint_of hash key = Some c /\
      (forall d, d <> fingerprint_of hash key -> cores dbx !! d = cores db !! d) ->
    after (_ ← charge (number_of (prep_core p) "reserved_tokens") (number_of (prep_core p) "reserved_microusd") bals; mret a) dbx (fun _ db' => kept hash db')).
  { intros row' dbx Hd' Ha Hx. statements. eapply after_weaken.
    - apply after_charge; [apply Hl|]. destruct Hx as (_ & -> & _). destruct Hl as (_ & Hst & _). eapply Forall_impl; [exact Hst|]. by intros q [].
    - intros _ db' (bals' & Hs & Ho). statements. eapply (reserved_kept key db dbx db' c row' bals bals'); try done. by eapply roomy_capped. }
  assert (Hcores : forall d, d <> fingerprint_of hash key -> <[fingerprint_of hash key := c]> (cores db) !! d = cores db !! d) by (intros; by apply lookup_insert_ne).
  eapply (after_event _ _ _ _ _ _ _ _ row); [apply lookup_insert_eq | apply (Hend row); [done..|]; cbn; split_and!; try done; apply lookup_insert_eq |].
  intros e n. apply (Hend (with_events n row)); [done | by intros [] |]. cbn. rewrite insert_insert_eq. split_and!; try done. apply lookup_insert_eq.
Qed.
Lemma reserve_kept s run key p db : kept hash db -> decoded "ReservationKey" key -> kept hash (reserve_v1 hash uuid4 s run key p db).1.
Proof.
  intros Hk Hd. unfold reserve_v1. destruct (_ ≫= _); [|done].
  assert (H : kept hash (budget_transaction s (reserve_body hash uuid4 s run key p) db).1); [|by destruct (budget_transaction _ _ _)].
  apply (transaction_keeps (kept hash)); [done|]. unfold reserve_body. statements. apply after_load_budgets; [apply Hk..|]. intros bals Hl. statements.
  case_if.
  { statements. apply after_load_call; [apply Hk | done |]. intros row core _. by statements. }
  destruct (find_first _ _) as [[d existing]|].
  - statements. match goal with H : decode "ReservationKey" _ = Ok ?k |- _ => pose proof (decode_outcome "ReservationKey" (key_bytes existing)) as Ho; rewrite H in Ho; rename k into original end.
    apply after_load_call; [apply Hk | done |]. intros row core Hc. statements.
    destruct (working_start hash original db row bals) as [Hw _]; [done..| |].
    { eapply loaded_same; [|exact Hl]. intros k Hk'. symmetry. by apply (same_eqb original key). }
    eapply after_weaken; [by apply after_conflict|]. intros x db' [Hw' Hcap]. statements. by eapply working_kept.
  - statements. eapply after_weaken; [by apply new_reservation_kept|]. intros r db' Hk'. by statements.
Qed.
End store.
