(* ===== verification/Settlement.v ===== *)
(** Settlement keeps the books: [reconcile_v1] and its recovery of contradictions. *)

From S2P Require Import Prelude.
From S2P Require Import PyStr.
From S2P Require Import PyJson.
From S2P Require Import Codec.
From S2P Require Import PyTime.
From S2P Require Import Records.
From S2P Require Import Ledger.
From S2P Require Import Accounting.
From S2P Require Import Keys.
From S2P Require Import Budgets.
From S2P Require Import Reconcile.
From S2P Require Import Conservation.

Open Scope Z_scope.

Section store.
Variable hash : string -> string.
Variable uuid4 : ledger -> string.

(** The state of the loop: the call of the key, and its balances within their caps. *)
Definition sound (key : json) (r : recon) (db : ledger) : Prop :=
  working hash (fingerprint_of hash key) db (r_row r) (r_bals r) /\ all_capped (r_bals r).
(** In between, the two balances may exceed their caps. *)
Definition open_sound (key : json) (r : recon) (db : ledger) : Prop := working hash (fingerprint_of hash key) db (r_row r) (r_bals r).

Lemma after_codec {A} (r : result codec_error A) db (Q : A -> ledger -> Prop) : (forall a, r = Ok a -> Q a db) -> after (from_codec r) db Q.
Proof. unfold after, from_codec. destruct r; auto. Qed.
Lemma working_event key db row bals kind raw id recovery : working hash (fingerprint_of hash key) db row bals ->
  after (add_event hash uuid4 row kind raw id recovery) db (fun row' db' => working hash (fingerprint_of hash key) db' row' bals).
Proof.
  intros Hw. pose proof (working_digest _ _ _ _ _ Hw) as Hd. eapply after_event; [rewrite Hd; by eapply working_row | done |].
  intros e n. rewrite Hd. apply (working_neutral hash _ row); [by apply same_amounts_held|]. by apply (working_ext hash _ db).
Qed.
Lemma after_clash key event existing reason blocking r db : sound key r db ->
  after (clash hash uuid4 key event existing reason blocking r) db (sound key).
Proof. intros [Hw _]. unfold clash. statements. eapply after_weaken; [by apply after_conflict|]. intros x db' Hx. by statements. Qed.
(** A lower bound retained, and the call in doubt. *)
Lemma after_doubt key incoming state (f : reservation_row * list (balance_row * policy_row) -> recon) r db :
  (forall x, r_row (f x) = x.1 /\ r_bals (f x) = x.2) -> open_sound key r db ->
  after ('(row, bals) ← retain hash key (r_row r) (r_bals r) incoming; x ← pause hash key row bals state; mret (f x)) db (sound key).
Proof.
  intros Hf Hw. statements. eapply after_weaken; [by apply after_retain|]. intros [row1 bals1] db1 Hw1. statements.
  eapply after_weaken; [by apply after_pause|]. intros x db2 Hx. statements. unfold sound. by destruct (Hf x) as [-> ->].
Qed.

(** * The settlement of one event *)

Lemma after_posting p db (Q : unit -> ledger -> Prop) : Q tt (set_postings (fun l => l ++ [p]) db) -> after (insert_posting p) db Q.
Proof. intros H. unfold insert_posting. by statements. Qed.
Lemma after_settle_budgets sid dt dc ht hc bals : forall db, NoDup (bids bals) -> Forall (fun q => balances db !! bal_id q.1 = Some q.1) bals -> all_capped bals ->
  after (settle_budgets sid dt dc ht hc bals) db (fun bals' db' =>
    Forall2 (shifted (fun a => match a with HeldTokens => - ht | HeldMicrousd => - hc | ActualTokens => dt | ActualMicrousd => dc end)) bals bals' /\
    balances_only bals' db db' /\ all_capped bals').
Proof.
  induction bals as [|[b p] rest IH]; intros db Hnd Hst Hcapped; cbn [settle_budgets].
  { by statements. }
  statements. apply after_posting. statements. apply after_posting. statements.
  set (b1 := bal_settle (bal_state b) dt dc ht hc b). set (over := _ || _). set (b2 := if over then _ else b1).
  assert (E2 : bal_amounts b2 b = b2) by (subst b2; by destruct over).
  assert (Hid : bal_id b2 = bal_id b) by (subst b2; by destruct over).
  apply (after_update_balance _ _ _ b); [rewrite Hid; by apply Forall_cons in Hst as [Hb _]|]. rewrite E2.
  statements. destruct (stored_rest b p rest db (set_postings (fun l => l ++ [mkPosting sid (scope_kind p) "microusd" (bal_id b) dc (- hc)])
    (set_postings (fun l => l ++ [mkPosting sid (scope_kind p) "tokens" (bal_id b) dt (- ht)]) db)) b2) as (H1 & H2 & H3); try done.
  apply Forall_cons in Hcapped as [Hb Hrest].
  eapply after_weaken; [by apply IH|]. cbv beta. intros rest' db' (Hs & Ho & Hcap). statements. split_and!.
  - constructor; [|done]. split_and!; [done | done | intros []; subst b2; destruct over; cbn; lia | subst b2; by destruct over | subst b2; by destruct over].
  - eapply (balances_only_cons (b2, p) _ _ _); [| |exact Ho]; [by rewrite (shifted_ids _ _ _ Hs) | done].
  - constructor; [|done]. cbn [fst snd]. intros Hact. subst b2 over. destruct (_ || _) eqn:E; [cbn in Hact; destruct (bool_decide _); discriminate|].
    destruct (Hb Hact) as [_ _ H4 H5]. bool_simpl. constructor; intros n En; rewrite ?En in *; bool_simpl; auto.
Qed.
Lemma after_settle key event ctx l tokens cost r db : sound key r db -> after (settle hash uuid4 key event ctx l tokens cost r) db (sound key).
Proof.
  intros [Hw Hcapped]. unfold settle. statements. unfold insert_settlement. statements.
  match goal with |- after _ ?d _ => apply (working_ext hash _ _ d) in Hw; [|done] end.
  eapply after_weaken; [apply after_settle_budgets; [by eapply working_distinct | by eapply working_stored | done]|].
  cbv beta. intros bals' db1 (Hs & Ho & Hcap). statements.
  apply (after_update_reservation _ _ _ (r_row r)); [rewrite (only_reservations _ _ _ Ho); by eapply working_row|]. statements.
  set (row' := with_actual tokens cost (revision (r_row r) + 1) (r_row r)).
  assert (Hw' : working hash (fingerprint_of hash key) (set_reservations <[fingerprint_of hash key := row']> db1) row' bals').
  { eapply working_shift; [exact Hw | done | | exact Ho]. eapply Forall2_impl; [exact Hs|]. intros q q' (E1 & E2 & E3 & E4 & E5).
    split_and!; try done. intros []; rewrite E3; cbn; lia. }
  case_if; [|by statements]. statements. eapply after_weaken; [by apply working_event|]. intros row2 db2 Hw2. by statements.
Qed.

Lemma after_apply_final key event ctx l tokens cost r db : sound key r db -> after (apply_final hash uuid4 key event ctx l tokens cost r) db (sound key).
Proof. intros Hw. unfold apply_final. case_if; [by apply after_settle | by apply after_clash]. Qed.
Lemma after_final_event key event ctx l r db : sound key r db -> after (final_event hash uuid4 key event ctx l r) db (sound key).
Proof.
  intros Hw. unfold final_event. case_if; [apply (after_doubt key _ _ (fun x => moved x false false r) r); [done | apply Hw]|].
  destruct (actual _) as [[tokens cost]|]; [|by apply after_clash]. statements. destruct (latest_settlement _ _) as [q|].
  - statements. case_if; [by statements|]. case_if; [by apply after_clash | by apply after_apply_final].
  - case_if; [by statements | by apply after_apply_final].
Qed.

(** * The loop over the selected events *)

Lemma after_stop key (m : T recon) db : after m db (sound key) -> after (x ← m; mret (x, false)) db (fun x db' => sound key x.1 db').
Proof. intros H. by apply after_bind. Qed.
Lemma after_record_event key event r db : sound key r db -> after (record_event hash uuid4 key event r) db (fun x db' => sound key x.1 db').
Proof.
  intros Hw. unfold record_event. statements. destruct (find_first _ _) as [entry|]; [by apply after_stop, after_clash|].
  destruct (filter _ _) as [|prior [|? ?]]; [|case_if; [by statements | by apply after_stop, after_clash]|by statements].
  case_if.
  - statements. eapply after_weaken; [apply after_retain; apply Hw|]. intros [row1 bals1] db1 Hw1. statements.
    eapply after_weaken; [by apply after_pause|]. intros x db2 Hx. by statements.
  - statements. unfold insert_copy. statements. destruct Hw as [Hw Hc].
    match goal with |- after _ ?d _ => apply (working_ext hash _ _ d) in Hw; [|done] end.
    eapply after_weaken; [by apply working_event|]. intros row' db' Hw'. by statements.
Qed.
Lemma after_select_event obs key core ctx recovery i event r db : sound key r db ->
  after (select_event hash uuid4 obs key core ctx recovery i event r) db (sound key).
Proof.
  intros Hw. unfold select_event. statements. case_if; [by statements|]. statements.
  eapply after_weaken; [by apply after_record_event|]. intros [r1 recorded] db1 Hw1. statements. cbn [fst] in Hw1. case_if; [by statements|]. statements.
  eapply (after_weaken _ _ (sound key)).
  { case_if; [|by statements]. statements. destruct Hw1 as [Hw1 Hc]. apply (after_update_reservation _ _ _ (r_row r1)); [by eapply working_row|]. statements.
    split; [|done]. by apply (working_neutral hash _ (r_row r1)); [apply same_amounts_held|]. }
  intros r2 db2 Hw2. statements. case_if; [by statements|]. case_if; [by statements|]. case_if; [by apply after_clash|]. statements. by apply after_final_event.
Qed.
Lemma after_select_events obs key core ctx recovery l : forall i r db, sound key r db ->
  after (select_events hash uuid4 obs key core ctx recovery i l r) db (sound key).
Proof.
  induction l as [|event l IH]; intros i r db Hw; cbn [select_events]; [by statements|]. statements.
  eapply after_weaken; [by apply after_select_event|]. intros r1 db1 Hw1. by apply IH.
Qed.

(** * The transaction *)

Lemma after_hazards key l : forall r db, sound key r db -> after (handle_hazards hash uuid4 key l r) db (sound key).
Proof.
  induction l as [|[reason event] l IH]; intros r db Hw; cbn [handle_hazards]; [by statements|]. statements.
  eapply (after_weaken _ _ (sound key)); [|intros r1 db1 Hw1; by apply IH]. case_if.
  - case_if; [by statements|]. apply (after_doubt key _ _ (fun x => moved x false false r) r); [done | apply Hw].
  - statements. eapply after_weaken; [apply after_conflict; apply Hw|]. intros x db1 Hx. by statements.
Qed.
Lemma after_retain_all key l : forall r db, open_sound key r db -> after (retain_all hash key l r) db (open_sound key).
Proof.
  induction l as [|event l IH]; intros r db Hw; cbn [retain_all]; [by statements|]. statements.
  eapply (after_weaken _ _ (open_sound key)); [|intros r1 db1 Hw1; by apply IH]. case_if; [|by statements].
  statements. eapply after_weaken; [by apply after_retain|]. intros x db1 Hx. by statements.
Qed.
(** A step that only reads. *)
Definition reads {A} (m : T A) : Prop := forall db, after m db (fun _ db' => db' = db).
Lemma reads_decision decision l : reads (decision_used decision l).
Proof.
  induction l as [|e l IH]; intros db; cbn [decision_used]; [by statements|]. statements. apply after_codec. intros o _. statements. case_if; [by statements | apply IH].
Qed.
Lemma reads_prefix key l : reads (evidence_prefix hash key l).
Proof.
  intros db. unfold evidence_prefix. statements. destruct (latest_event _ _ _); [|by statements]. statements. apply after_codec. intros o _. statements.
  destruct (field _ "observation_count"); by statements.
Qed.
Lemma after_reads {A} (m : T A) db (Q : A -> ledger -> Prop) : reads m -> (forall a, Q a db) -> after m db Q.
Proof. intros Hm H. eapply after_weaken; [apply Hm|]. by intros a db' ->. Qed.

Lemma reconcile_body_kept obs ctx key selected recovery_decision db : kept hash db -> decoded "ReservationKey" key ->
  after (reconcile_body hash uuid4 obs ctx key selected recovery_decision) db (fun _ db' => kept hash db').
Proof.
  intros Hk Hd. unfold reconcile_body. statements. apply after_load_budgets; [apply Hk..|]. intros bals Hl. statements.
  apply after_load_call; [apply Hk | done |]. intros row core Hc. statements. destruct (working_start hash key db row bals) as [Hw Hcap]; [done..|].
  eapply (after_weaken _ _ (fun _ db' => db' = db)); [case_if; by statements|]. intros _ ? ->. statements.
  apply after_reads; [apply reads_prefix|]. intros prefix. statements.
  eapply (after_weaken _ _ (fun _ db' => db' = db)); [case_if; [|by statements]; statements; apply after_reads; [apply reads_decision|]; by intros used; statements|].
  intros resolving ? ->. statements. eapply after_weaken; [by apply after_hazards|]. intros r1 db1 Hr1. statements.
  eapply (after_weaken _ _ (sound key)).
  { case_if; [|by statements]. statements. eapply after_weaken; [apply after_retain_all; apply Hr1|]. intros r2 db2 Hr2. statements.
    eapply after_weaken; [by apply after_pause|]. intros x db3 Hx. by statements. }
  intros r2 db2 Hr2. statements. eapply after_weaken; [by apply after_select_events|]. intros r3 db3 Hr3. statements.
  eapply (after_weaken _ _ (fun _ db' => kept hash db')); [|intros x db4 H4; by statements]. case_if.
  - eapply after_weaken; [apply after_pause; apply Hr3|]. intros x db4 [H4 H5]. by eapply working_kept.
  - statements. destruct Hr3 as [H4 H5]. by eapply working_kept.
Qed.
Lemma doubted_kept s ctx key e db : kept hash db -> decoded "ReservationKey" key ->
  kept hash (let '(db', answer) := mark_unknown hash s ctx key db in
             (db', match answer with Ok _ => Raise e | Raise e' => Raise e' end : result ledger_error json)).1.
Proof. intros Hk Hd. pose proof (mark_unknown_kept hash s ctx key db Hk Hd) as H. by destruct (mark_unknown _ _ _ _ _). Qed.
Lemma reconcile_kept s_main s_doubt s_read obs ctx key ids recovery_decision db : kept hash db -> decoded "ReservationKey" key ->
  kept hash (reconcile_v1 hash uuid4 s_main s_doubt s_read obs ctx key ids recovery_decision db).1.
Proof.
  intros Hk Hd. unfold reconcile_v1. destruct (_ ≫= _) as [selected|]; [|done].
  destruct (acknowledgements _ _) as [[]|[]]; [|by apply doubted_kept|done..]. case_if; [by apply doubted_kept|].
  assert (Hm : kept hash (budget_transaction s_main (reconcile_body hash uuid4 obs ctx key selected recovery_decision) db).1).
  { apply (transaction_keeps (kept hash)); [done|]. by apply reconcile_body_kept. }
  destruct (budget_transaction _ _ _) as [db1 [[[] ?]|]]; cbn [fst] in *; [done| |done]. case_if; [by apply current_kept|].
  pose proof (mark_unknown_kept hash s_doubt ctx key db1 Hm Hd) as H2. destruct (mark_unknown _ _ _ _ _) as [db2 []]; [by apply current_kept | done].
Qed.
End store.
