(* ===== verification/Recovery.v ===== *)
(** Recovery of the budget, src/backend/app/ai/w2/recovery.py: the inventory against the
    independent record of the calls, resumption, the repair of calls and their liability, and
    cancellation; and [pause_admission] of ai/w2/guard.py.

    The authority is the environment: what it knows of the calls and whether it is complete.
    The mutation of the writer around an operation is the opening of its transaction. *)

From S2P Require Import Prelude.
From S2P Require Import PyStr.
From S2P Require Import PyJson.
From S2P Require Import Codec.
From S2P Require Import PyTime.
From S2P Require Import Records.
From S2P Require Import Ledger.
From S2P Require Import Accounting.
From S2P Require Import Reconcile.

Open Scope Z_scope.

(** What the authority answers: its calls with their marker and expiry, the evidence of
    their cores ([core], [key], [reservation]), their observations, whether it covers all
    calls, and the closing of a call's stream. *)
Record authority := mkAuthority {
  call_marked : gmap string (bool * instant);
  core_evidence : gmap string json;
  observations : json -> list json;
  coverage : bool;
  close_call : result record_error (list json)
}.

Section recovery.
Variable hash : string -> string.
Variable uuid4 : ledger -> string.

(** * The inventory *)

Definition scope_kinds : list string := ["account"; "task"].
Definition balance_column (kind : string) (c : core_row) : string := if bool_decide (kind = "account") then account_balance c else task_balance c.
(** [core JOIN reservation] *)
Definition joined (db : ledger) : list (string * core_row * reservation_row) :=
  omap (fun q : string * reservation_row => c ← cores db !! q.1; Some (q.1, c, q.2)) (map_to_list (reservations db)).
(** [balance JOIN policy] *)
Definition budget_rows (db : ledger) : list (string * balance_row * policy_row) :=
  omap (fun q : string * balance_row => p ← policies db !! q.1; Some (q.1, q.2, p)) (map_to_list (balances db)).

(** [except PortError] *)
Definition catch_port {A} (m : T A) : T (option A) := fun db =>
  match m db with
  | Ok (a, db') => Ok (Some a, db')
  | Raise (Refused (PortError _ _)) => Ok (None, db)
  | Raise e => Raise e
  end.
Definition NINETY_DAYS : Z := 90 * day_us.
Definition sum_by {A} (f : A -> Z) (l : list A) : Z := foldr (fun x z => f x + z) 0 l.

(** Whether the postings of a call are complete and add up to its row. *)
Definition postings_mismatch (digest : string) (c : core_row) (r : reservation_row) (db : ledger) : bool :=
  let posts q := filter (fun p => posting_settlement p = settlement_id q) (postings db) in
  let mine := filter (fun q => settlement_key q = digest) (settlements db) in
  existsb (fun q =>
    negb (Nat.eqb (length (posts q)) 4 && forallb (fun x => existsb (fun p => bool_decide ((posting_kind p, posting_dimension p) = x)) (posts q))
            [("account", "tokens"); ("account", "microusd"); ("task", "tokens"); ("task", "microusd")]) ||
    existsb (fun p => negb (bool_decide (posting_balance p = balance_column (posting_kind p) c))) (posts q)) mine ||
  existsb (fun kind =>
    let posted dimension := sum_by settled_delta (filter (fun p => posting_kind p = kind /\ posting_dimension p = dimension) (mjoin (map posts mine))) in
    negb ((posted "tokens" =? actual_tokens r) && (posted "microusd" =? actual_microusd r))) scope_kinds.

(** One call: whether it contradicts the authority, and whether it is unresolved. *)
Definition inventory_row (a : authority) (reading : result record_error instant) (q : string * core_row * reservation_row) : T (bool * bool) :=
  let '(digest, c, r) := q in
  key ← from_record (decode "ReservationKey" (key_bytes c));
  call ← demand_some (call_marked a !! digest) "OBSERVER_UNAVAILABLE";
  evidence ← demand_some (core_evidence a !! digest) "OBSERVER_UNAVAILABLE";
  core_text ← from_record (canonical_of (field evidence "core"));
  differs ← (if negb (bool_decide (core_text = core_bytes c)) then mret true
             else key_text ← from_record (canonical_of (field evidence "key"));
                  mret (negb (bool_decide (key_text = encoded key)) || negb (bool_decide (fingerprint_of hash key = digest))));
  db ← tables;
  let unmarked := call.1 && is_none (markers db !! digest) && is_none (find_first (fun d => bool_decide (recovery_key d = digest)) (recoveries db)) in
  at_ ← from_record reading;
  let expired := call.2 + NINETY_DAYS <=? at_ in
  let unposted := postings_mismatch digest c r db in
  unsettled ← (if bool_decide (row_state r = "SETTLED") then
                 match latest_settlement digest db with
                 | None => mret true
                 | Some q =>
                     final ← from_record (decode "Settlement" (settlement_record q));
                     mret (negb ((number_of final "settled_tokens" =? actual_tokens r) && (number_of final "settled_microusd" =? actual_microusd r)))
                 end
               else mret false);
  prefix ← catch_port (evidence_prefix hash key (observations a key));
  let '(contradicted, unresolved) :=
    match prefix with
    | None => (true, true)
    | Some prefix =>
        (false, negb (bool_decide (row_state r = "SETTLED")) ||
                negb (bool_decide (evidence_hazards (observations a key) prefix (Some (actual_tokens r, actual_microusd r)) = [])) ||
                unresolved_conflict hash key db)
    end in
  _ ← demand (forallb (fun kind => negb (is_none (balances db !! balance_column kind c) || is_none (policies db !! balance_column kind c))) scope_kinds) "CONFLICT";
  mret (differs || unmarked || expired || unposted || unsettled || contradicted, unresolved).
(** All calls, with the balances of the unresolved ones. *)
Fixpoint inventory_rows (a : authority) (clock : nat -> result record_error instant) (i : nat) (l : list (string * core_row * reservation_row)) : T (bool * list string) :=
  match l with
  | [] => mret (false, [])
  | q :: l' =>
      '(mismatch, unresolved) ← inventory_row a (clock i) q;
      '(mismatch', paused) ← inventory_rows a clock (S i) l';
      mret (mismatch || mismatch', (if unresolved : bool then map (fun kind => balance_column kind q.1.2) scope_kinds else []) ++ paused)
  end.

(** [totals[bid]]: each call counts for its account and for its task. *)
Definition inventory_total (f : reservation_row -> Z) (bid : string) (rows : list (string * core_row * reservation_row)) : Z :=
  sum_by (fun q => sum_by (fun kind => if bool_decide (balance_column kind q.1.2 = bid) then f q.2 else 0) scope_kinds) rows.
Definition conserved (rows : list (string * core_row * reservation_row)) (bid : string) (b : balance_row) : bool :=
  let n := inventory_total (fun _ => 1) bid rows in
  (inventory_total actual_tokens bid rows =? settled_tokens b) && (inventory_total actual_microusd bid rows =? settled_microusd b) &&
  (inventory_total row_held_tokens bid rows =? held_tokens b) && (inventory_total row_held_microusd bid rows =? held_microusd b) &&
  (n <=? calls b) && (n * call_ns <=? wall_ns b).

(** [WHERE balance_id IN paused AND state != 'CANCELLED'] *)
Definition pause_all (paused : string -> bool) : T unit :=
  update_balances (fun bid b => if paused bid && negb (bool_decide (bal_state b = "CANCELLED")) then bal_with_state "PAUSED_UNKNOWN" b else b).
Definition inventory_body (a : authority) (s : surroundings) : T (bool * list (string * core_row)) :=
  db ← tables;
  let bals := budget_rows db in
  let rows := joined db in
  _ ← demand (Z.of_nat (length bals) <=? 8192) "LIMIT_EXCEEDED";
  _ ← demand (Z.of_nat (length rows) <=? 4096 * 64) "LIMIT_EXCEEDED";
  '(contradicted, paused) ← inventory_rows a (clock s) 0 rows;
  let known : gset string := dom (call_marked a) in
  let mismatch := contradicted || negb (bool_decide (known = (list_to_set (map (fun q : string * core_row * reservation_row => q.1.1) rows) : gset string))) ||
                  negb (forallb (fun q : string * balance_row * policy_row => conserved rows q.1.1 q.1.2) bals) in
  _ ← pause_all (fun bid => if mismatch then negb (is_none (policies db !! bid)) else bool_decide (bid ∈ paused));
  mret (mismatch, map fst rows).
(** [_inventory] *)
Definition inventory (a : authority) (s : surroundings) (db : ledger) : ledger * result ledger_error (list (string * core_row)) :=
  let '(db', answer) := budget_transaction s (inventory_body a s) db in
  (db', match answer with
        | Ok (mismatch, rows) => if mismatch : bool then Raise (Refused (port_error "OBSERVER_UNAVAILABLE" None)) else Ok rows
        | Raise e => Raise e
        end).

(** * Resumption *)

Fixpoint resume_calls (a : authority) (kind bid : string) (rows : list (string * core_row)) : T unit :=
  match rows with
  | [] => mret tt
  | (_, c) :: rest =>
      _ ← (if negb (bool_decide (balance_column kind c = bid)) then mret tt
           else
             key ← from_record (decode "ReservationKey" (key_bytes c));
             '(current, _) ← load_call hash key None;
             prefix ← evidence_prefix hash key (observations a key);
             db ← tables;
             demand (bool_decide (evidence_hazards (observations a key) prefix (Some (actual_tokens current, actual_microusd current)) = []) &&
                     negb (unresolved_conflict hash key db)) "COMMIT_UNKNOWN");
      resume_calls a kind bid rest
  end.
(** Within the caps, with nothing held. *)
Definition resumable (b : balance_row) (p : policy_row) : bool :=
  match token_cap p, cost_cap p, call_cap p, wall_cap_ns p with
  | Some t, Some c, Some n, Some w => (settled_tokens b <=? t) && (settled_microusd b <=? c) && (calls b <=? n) && (wall_ns b <=? w)
  | _, _, _, _ => false
  end.
Definition resume_budget (a : authority) (at_ : result record_error instant) (rows : list (string * core_row)) (b : balance_row) (p : policy_row) : T unit :=
  let kind := scope_kind p in
  let bid := bal_id b in
  _ ← demand (bool_decide (bal_state b ∈ ["ACTIVE"; "PAUSED_UNKNOWN"]) && (held_tokens b =? 0) && (held_microusd b =? 0)) "RESERVATION_UNAVAILABLE";
  _ ← demand (resumable b p) "RESERVATION_UNAVAILABLE";
  at_ ← from_record at_;
  _ ← demand ((pol_valid_from p <=? at_) && (at_ <? pol_expires_at p)) "RESERVATION_UNAVAILABLE";
  db ← tables;
  _ ← demand (forallb (fun q : string * core_row * reservation_row => negb (bool_decide (balance_column kind q.1.2 = bid)) || bool_decide (row_state q.2 = "SETTLED"))
                (joined db)) "COMMIT_UNKNOWN";
  _ ← resume_calls a kind bid rows;
  _ ← demand (forallb (fun q : string * admission_row => adm_closed q.2 ||
                match cores db !! q.1 with Some c => negb (bool_decide (balance_column kind c = bid)) | None => true end) (map_to_list (admissions db))) "COMMIT_UNKNOWN";
  update_balance bid (bal_with_state "ACTIVE").
Fixpoint resume_each (a : authority) (clock : nat -> result record_error instant) (i : nat) (kinds : list string) (rows : list (string * core_row))
    (bals : list (balance_row * policy_row)) : T unit :=
  match bals with
  | [] => mret tt
  | (b, p) :: rest =>
      if negb (bool_decide (scope_kind p ∈ kinds)) then resume_each a clock i kinds rows rest
      else _ ← resume_budget a (clock i) rows b p; resume_each a clock (S i) kinds rows rest
  end.

Definition id_ok (s : string) : bool := match assoc "Id" PATTERNS with Some p => fullmatch p s | None => false end.
(** [resume_budgets] *)
Definition resume_body (a : authority) (s : surroundings) (scope : json) (decision : string) (kinds : list string) (digest text : string)
    (rows : list (string * core_row)) : T unit :=
  bals ← load_budgets hash scope None None;
  _ ← resume_each a (clock s) 0 kinds rows bals;
  insert_recovery (mkRecovery decision (text_of scope "deployment_ref") "0000000000000000000000000000000000000000000000000000000000000000"
    (number_of scope "context_generation") digest text).
Definition resume_budgets (a_inventory a : authority) (s_inventory s : surroundings) (read : json) (decision : string) (kinds : list string) (db : ledger)
    : ledger * result ledger_error unit :=
  let scope := field read "scope" in
  let record := _ ← port_require (id_ok decision && bool_decide (kinds ∈ [["account"]; ["task"]; ["account"; "task"]])) "INVALID_RECORD";
    canonical_of (JObj [("format", JStr "ra-w2-budget-resume/1"); ("scope", scope); ("decision_id", JStr decision); ("kinds", JArr (map JStr kinds))]) in
  first record (fun text db =>
    let '(db', rows) := inventory a_inventory s_inventory db in
    match rows with
    | Raise e => (db', Raise e)
    | Ok rows =>
        if negb (coverage a) then (db', Raise (Refused (port_error "OBSERVER_UNAVAILABLE" None)))
        else budget_transaction s (resume_body a s scope decision kinds (hash text) text rows) db'
    end) db.

(** * The repair of calls *)

(** [recover_call] *)
Definition with_owner (owner : string) (generation : Z) (r : reservation_row) : reservation_row :=
  mkReservation (row_digest r) (reservation_id r) (receipt r) owner generation (row_state r) (row_held_tokens r) (row_held_microusd r)
    (actual_tokens r) (actual_microusd r) (event_count r) true (cancelled r) (revision r).
Definition close_admission (digest : string) (generation : Z) : T unit :=
  update_admissions (fun k a => if bool_decide (k = digest) && (adm_generation a =? generation)
    then mkAdmission (adm_id a) (adm_account_ref a) (adm_deployment_ref a) (adm_generation a) (admitted_at a) (adm_expires_at a) true else a).
Definition recover_body (read key : json) (decision : string) (expected : Z) (owner evidence : string) : T json :=
  _ ← load_budgets hash (field key "scope") None None;
  '(row, _) ← load_call hash key None;
  _ ← demand ((owner_generation row =? expected) && (expected <? 2147483647)) "OWNER_LOST";
  db ← tables;
  _ ← demand (is_none (find_first (fun d => bool_decide (decision_id d = decision)) (recoveries db))) "CONFLICT";
  ctx ← from_record (make "RecoveryContext" [("read", read); ("key", key); ("recovery_decision_id", JStr decision); ("owner_id", JStr owner);
                                             ("owner_generation", JInt (expected + 1))]);
  _ ← insert_recovery (mkRecovery decision (text_of (field key "scope") "deployment_ref") (fingerprint_of hash key) (expected + 1) evidence (encoded ctx));
  _ ← update_reservation (fingerprint_of hash key) (fun r => if owner_generation r =? expected then with_owner owner (expected + 1) r else r);
  _ ← close_admission (fingerprint_of hash key) expected;
  mret ctx.
Definition recover_checks (a : authority) (read key : json) (decision : string) (expected : Z) (owner : string) : result record_error string :=
  _ ← port_require (id_ok decision && id_ok owner && py_eqb (field read "scope") (field key "scope")) "INVALID_RECORD";
  _ ← canonical_of (JArr [JStr decision; key; JInt expected; JStr owner]);
  observed ← close_call a;
  _ ← port_require (coverage a && existsb (fun e => bool_decide (text_of e "kind" = "STREAM_CLOSED")) observed) "OBSERVER_UNAVAILABLE";
  text ← canonical_of (JArr observed);
  Ok (hash text).
Definition recover_call (a : authority) (s : surroundings) (read key : json) (decision : string) (expected : Z) (owner : string)
    : ledger -> ledger * result ledger_error json :=
  first (recover_checks a read key decision expected owner) (fun evidence => budget_transaction s (recover_body read key decision expected owner evidence)).

(** [restore_liability]: [SELECT sum(...)] over the calls of a balance's column. *)
Definition column_sum (f : reservation_row -> Z) (kind bid : string) (db : ledger) : Z :=
  sum_by (fun q : string * core_row * reservation_row => if bool_decide (balance_column kind q.1.2 = bid) then f q.2 else 0) (joined db).
Definition bal_restore (tokens microusd n wall : Z) (b : balance_row) : balance_row :=
  mkBalance (bal_id b) (settled_tokens b) (settled_microusd b) tokens microusd n wall
    (if bool_decide (bal_state b = "CANCELLED") then "CANCELLED" else "PAUSED_UNKNOWN") (cancel_generation b).
Definition restore_budget (tokens microusd : Z) (b : balance_row) (p : policy_row) : T unit :=
  db ← tables;
  let total f := column_sum f (scope_kind p) (bal_id b) db in
  let ht := total row_held_tokens in
  let hc := total row_held_microusd in
  let n := total (fun _ => 1) in
  _ ← demand ((settled_tokens b =? total actual_tokens) && (settled_microusd b =? total actual_microusd)) "CONFLICT";
  _ ← demand (((held_tokens b =? ht) && (held_microusd b =? hc)) || ((held_tokens b =? ht + tokens) && (held_microusd b =? hc + microusd))) "CONFLICT";
  update_balance (bal_id b) (bal_restore (ht + tokens) (hc + microusd) (Z.max (calls b) (n + 1)) (Z.max (wall_ns b) ((n + 1) * call_ns))).
Fixpoint restore_each (tokens microusd : Z) (bals : list (balance_row * policy_row)) : T unit :=
  match bals with
  | [] => mret tt
  | (b, p) :: rest => _ ← restore_budget tokens microusd b p; restore_each tokens microusd rest
  end.
Definition restore_checks (a : authority) (read key : json) (decision owner : string) : result record_error (json * json * json * string) :=
  _ ← port_require (py_eqb (field read "scope") (field key "scope") && id_ok decision && id_ok owner) "INVALID_RECORD";
  evidence ← require (core_evidence a !! fingerprint_of hash key) (port_error "OBSERVER_UNAVAILABLE" None);
  _ ← port_require (coverage a) "OBSERVER_UNAVAILABLE";
  core_text ← canonical_of (field evidence "core");
  core ← decode "BindingCore" core_text;
  receipt_text ← canonical_of (field evidence "reservation");
  receipt ← decode "Reservation" receipt_text;
  _ ← port_require (bool_decide (fingerprint_of hash core = text_of key "core_digest") && py_eqb (field receipt "key") key) "CONFLICT";
  ctx ← make "RecoveryContext" [("read", read); ("key", key); ("recovery_decision_id", JStr decision); ("owner_id", JStr owner);
                                ("owner_generation", JInt (number_of receipt "owner_generation" + 1))];
  text ← canonical_of evidence;
  _ ← close_call a;
  Ok (core, receipt, ctx, hash text).
Definition restore_body (key : json) (decision owner : string) (x : json * json * json * string) : T json :=
  let '(core, receipt_, ctx, evidence) := x in
  let scope := field key "scope" in
  let digest := fingerprint_of hash key in
  let tokens := number_of receipt_ "reserved_tokens" in
  let microusd := number_of receipt_ "reserved_microusd" in
  bals ← load_budgets hash scope None None;
  db ← tables;
  let old := cores db !! digest in
  _ ← match old with Some c => demand (bool_decide (key_bytes c = encoded key) && bool_decide (core_bytes c = encoded core)) "CONFLICT" | None => mret tt end;
  _ ← demand (is_none (reservations db !! digest)) "CONFLICT";
  _ ← restore_each tokens microusd bals;
  _ ← (if is_none old then
         insert_core digest (mkCore (encoded key) (encoded core) (text_of scope "task_id") (text_of scope "case_id") (text_of core "question_id")
           (text_of key "call_ref") (text_of scope "account_ref") (text_of scope "deployment_ref") (balance_id hash scope "account") (balance_id hash scope "task"))
       else mret tt);
  let row := mkReservation digest (text_of receipt_ "reservation_id") (encoded receipt_) owner (number_of ctx "owner_generation") "IN_DOUBT"
               tokens microusd 0 0 0 true (match bals with [_; (b, _)] => bool_decide (bal_state b = "CANCELLED") | _ => false end) 0 in
  _ ← insert_reservation row;
  raw ← from_record (canonical_of (JObj [("evidence_digest", JStr evidence); ("decision_id", JStr decision)]));
  _ ← add_event hash uuid4 row "RESTORED_LIABILITY" raw None true;
  _ ← insert_recovery (mkRecovery decision (text_of scope "deployment_ref") digest (number_of ctx "owner_generation") evidence (encoded ctx));
  mret ctx.
Definition restore_liability (a : authority) (s : surroundings) (read key : json) (decision owner : string) : ledger -> ledger * result ledger_error json :=
  first (restore_checks a read key decision owner) (fun x => budget_transaction s (restore_body key decision owner x)).

(** * Cancellation *)

Definition bal_cancel (generation : Z) (b : balance_row) : balance_row :=
  mkBalance (bal_id b) (settled_tokens b) (settled_microusd b) (held_tokens b) (held_microusd b) (calls b) (wall_ns b) "CANCELLED" generation.
Definition with_cancelled (r : reservation_row) : reservation_row :=
  mkReservation (row_digest r) (reservation_id r) (receipt r) (owner_id r) (owner_generation r) (row_state r) (row_held_tokens r) (row_held_microusd r)
    (actual_tokens r) (actual_microusd r) (event_count r) (row_closed r) true (revision r).
Definition cancel_body (key : json) : T Z :=
  let scope := field key "scope" in
  bals ← load_budgets hash scope None None;
  _ ← load_call hash key None;
  let generation := match bals with [_; (b, _)] => cancel_generation b | _ => 0 end in
  _ ← demand (generation <? 2147483647) "LIMIT_EXCEEDED";
  _ ← update_balance (balance_id hash scope "task") (bal_cancel (generation + 1));
  db ← tables;
  _ ← update_reservations (fun digest r =>
        if match cores db !! digest with Some c => bool_decide (core_task_id c = text_of scope "task_id") | None => false end then with_cancelled r else r);
  mret (generation + 1).
(** [cancel_v1] *)
Definition cancel_v1 (s : surroundings) (read key : json) (decision : string) (db : ledger) : ledger * result ledger_error json :=
  let checks := _ ← port_require (py_eqb (field read "scope") (field key "scope") && id_ok decision) "INVALID_RECORD";
    _ ← canonical_of (JArr [key; JStr decision]); Ok tt in
  first checks (fun _ db =>
    let '(db', answer) := budget_transaction s (cancel_body key) db in
    (db', match answer with
          | Ok generation =>
              match make "CancelAck" [("key_digest", JStr (fingerprint_of hash key)); ("cancellation_generation", JInt generation); ("state", JStr "CANCELLED")] with
              | Ok ack => Ok ack
              | Raise e => Raise (Refused e)
              end
          | Raise e => Raise e
          end)) db.

(** [pause_admission] *)
Definition pause_admission (deployment : string) (s : surroundings) : ledger -> ledger * result ledger_error unit :=
  budget_transaction s
    (db ← tables;
     pause_all (fun bid => match policies db !! bid with Some p => bool_decide (text_of (pol_scope p) "deployment_ref" = deployment) | None => false end)).
End recovery.
