(* ===== verification/BudgetSamples.v ===== *)
(** A budget for the witnesses: a hash, one scope, its two policies and a call. *)

From S2P Require Import Prelude.
From S2P Require Import PyStr.
From S2P Require Import PyJson.
From S2P Require Import PyTime.
From S2P Require Import Records.
From S2P Require Import Ledger.
From S2P Require Import Accounting.
From S2P Require Import Reconcile.

Open Scope Z_scope.

(** 64 digits of a number; the hash is the length of the text, in 64 digits. *)
Fixpoint hex_text (w : nat) (n : Z) : string :=
  match w with O => EmptyString | S w' => hex_text w' (n / 16) +:+ str1 (hex_digit (n mod 16)) end.
Definition toy_hash (s : string) : string := hex_text 64 (byte_len s).
(** Fresh identifiers: a number for every event, settlement and conflict so far. *)
Definition toy_uuid (db : ledger) : string :=
  hex_text 32 (Z.of_nat (size (reservations db) + size (admissions db) + 10 * length (events db) + 100 * length (settlements db) + 1000 * length (conflicts db))).

Definition made (name : string) (values : list (string * json)) : json := match make name values with Ok r => r | Raise _ => JNull end.
Definition no_delay : surroundings := mkSurroundings (Ok tt) (fun i => Ok (1000000000000 + 2000000 * Z.of_nat i)) (Ok tt).
Definition toy_from : string := Eval vm_compute in stamp 0.
Definition toy_until : string := Eval vm_compute in stamp 100000000000000.
Definition toy_scope : json := JObj sample_scope.
Definition zeros : string := Eval vm_compute in hex_text 64 0.

Definition toy_core : json := Eval vm_compute in made "BindingCore"
  [("scope", toy_scope); ("question_id", JStr "question-1"); ("question_digest", JStr zeros); ("call_ref", JStr sample_call); ("attempt", JInt 1);
   ("w1_binding_digest", JStr zeros); ("payload_digest", JStr zeros); ("body_digest", JStr zeros); ("registry_digest", JStr zeros);
   ("configuration_digest", JStr zeros); ("config_revision", JStr "config-1"); ("secret_ref", JStr "secret-1"); ("secret_version", JStr "version-1");
   ("necessity_version", JStr "ra-w2-necessity/1"); ("retrieval_version", JStr "ra-w2-retrieval/1"); ("projections", JArr []); ("candidates", JArr []);
   ("prompt_digest", JStr zeros); ("schema_digest", JStr zeros); ("model", JStr "gpt-5.6-terra"); ("profile", JStr "ra-openai-responses/1");
   ("destination", JStr "https://api.openai.com:443/v1/responses"); ("method", JStr "POST"); ("reasoning", JStr "low"); ("input_limit", JInt 4096);
   ("output_limit", JInt 1024); ("reserved_tokens", JInt 5120); ("reserved_microusd", JInt 22528); ("rate_card", JStr RATE_CARD);
   ("usage_mapping", JStr USAGE_MAPPING); ("currency", JStr "USD"); ("token_bound_evidence_ref", JStr "evidence-1"); ("measurement_kind", JStr "synthetic");
   ("valid_from", JStr toy_from); ("expires_at", JStr (stamp 2000000000000))].
Definition toy_key : json := Eval vm_compute in made "ReservationKey"
  [("scope", toy_scope); ("call_ref", JStr sample_call); ("attempt", JInt 1); ("core_digest", JStr (fingerprint_of toy_hash toy_core))].
Definition toy_run : json := Eval vm_compute in made "RunContext"
  [("scope", toy_scope); ("call_ref", JStr sample_call); ("attempt", JInt 1); ("owner_id", JStr "owner-1"); ("owner_generation", JInt 1);
   ("process_epoch", JStr "epoch-1"); ("started_at", JStr (stamp 1000000000000)); ("deadline_at", JStr (stamp 1000020000000)); ("mono_start_ns", JInt 0);
   ("mono_deadline_ns", JInt 20000000000); ("cancellation_id", JStr "cancel-1")].
Definition toy_caps : caps := mkCaps (Some 10000) (Some 50000) (Some 3) (Some 90000000000).
Definition toy_prepared : prepared := mkPrepared toy_key toy_core zeros.

Definition install_toy (kind : string) (db : ledger) : ledger :=
  (install_policy toy_hash no_delay toy_scope kind toy_caps zeros "decision-1" toy_from toy_until db).1.
Definition toy_budget : ledger := install_toy "task" (install_toy "account" empty_ledger).
Definition answered {A} (x : ledger * result ledger_error A) (default : A) : A := match x.2 with Ok a => a | Raise _ => default end.

(** Reserved, admitted, marked, and settled by an observation of its usage. *)
Definition reserve_toy := reserve_v1 toy_hash toy_uuid no_delay toy_run toy_key toy_prepared toy_budget.
Definition reserved_budget : ledger := reserve_toy.1.
Definition toy_receipt : json := Eval vm_compute in answered reserve_toy JNull.
Definition admit_toy := admit_v1 toy_hash toy_uuid no_delay toy_run toy_receipt reserved_budget.
Definition admitted_budget : ledger := admit_toy.1.
Definition toy_admission : json := Eval vm_compute in answered admit_toy JNull.
Definition toy_ticket : json := Eval vm_compute in made "AcceptanceTicket"
  [("ticket_id", JStr "ticket-1"); ("key_digest", JStr (fingerprint_of toy_hash toy_key)); ("deployment_ref", JStr "deployment-1"); ("authority_epoch", JStr "epoch-1");
   ("acceptance_generation", JInt 1); ("owner_generation", JInt 1); ("body_digest", JStr zeros); ("expires_at", JStr toy_until)].
Definition mark_toy := marker toy_hash toy_uuid no_delay toy_run toy_admission toy_ticket admitted_budget.
Definition marked_budget : ledger := mark_toy.1.
Definition toy_observation : json := Eval vm_compute in made "Observation"
  [("key_digest", JStr (fingerprint_of toy_hash toy_key)); ("call_ref", JStr sample_call); ("event_id", JStr "event-1"); ("observer_epoch", JStr "epoch-1");
   ("authority_epoch", JStr "epoch-1"); ("acceptance_generation", JInt 1); ("sequence", JInt 1); ("owner_generation", JInt 1); ("kind", JStr "FINAL_USAGE");
   ("permit_id", JNull); ("body_digest", JStr zeros); ("observed_at", JStr toy_from); ("terminal", JStr "COMPLETED");
   ("usage", made "UsageView" [("state", JStr "known"); ("input_tokens", JInt 1000); ("output_tokens", JInt 200); ("cached_input_tokens", JInt 100);
      ("cache_write_tokens", JInt 0); ("reasoning_tokens", JNull); ("total_tokens", JInt 1200); ("mapping", JStr USAGE_MAPPING)]);
   ("evidence_digest", JStr zeros)].
Definition toy_observer : observer := mkObserver [toy_observation]
  (fun _ => Ok ("event-1", 1, fingerprint_of toy_hash toy_observation)) true (fun _ => true) (fun _ => true) true.
Definition settle_toy := reconcile_v1 toy_hash toy_uuid no_delay no_delay no_delay toy_observer toy_run toy_key ["event-1"] None marked_budget.
Definition settled_budget : ledger := settle_toy.1.
(** The state of the settlement when it has loaded the marked call. *)
Definition toy_recon : recon := Eval vm_compute in
  match reservations marked_budget !! fingerprint_of toy_hash toy_key, load_budgets toy_hash toy_scope None None marked_budget with
  | Some row, Ok (bals, _) => mkRecon row bals false false false [] None
  | _, _ => mkRecon (mkReservation "" "" "" "" 1 "" 0 0 0 0 0 false false 0) [] false false false [] None
  end.
Definition settle_once := settle toy_hash toy_uuid toy_key toy_observation toy_run [toy_observation] 1200 4220 toy_recon marked_budget.
