(* ===== verification/BudgetSafety.v ===== *)
(** The budget as a whole: recovery keeps the books too, and so they hold in every state that
    any sequence of the operations reaches. *)

From S2P Require Import Prelude.
From S2P Require Import PyStr.
From S2P Require Import PyJson.
From S2P Require Import Codec.
From S2P Require Import PyTime.
From S2P Require Import Records.
From S2P Require Import Ledger.
From S2P Require Import Accounting.
From S2P Require Import Keys.
From S2P Require Import Budgets.
From S2P Require Import Reconcile.
From S2P Require Import Conservation.
From S2P Require Import Settlement.
From S2P Require Import Recovery.
From S2P Require Import BudgetSamples.

Open Scope Z_scope.

(** * Rows rewritten by a query *)

Lemma total_imap f g cs bid rs : (forall k r, f (g k r) = f r) -> total f cs bid (map_imap (fun k r => Some (g k r)) rs) = total f cs bid rs.
Proof.
  intros H. induction rs as [|d r rs Hd IH] using map_ind; [done|]. rewrite map_imap_insert, !total_insert_new; [by rewrite H, IH | done|].
  rewrite map_lookup_imap. by rewrite Hd.
Qed.

Section store.
Variable hash : string -> string.
Variable uuid4 : ledger -> string.

(** Only states and generations of balances change, and an active one is within its caps. *)
Lemma kept_balances f db : kept hash db ->
  (forall bid b', f (balances db) !! bid = Some b' -> exists b, balances db !! bid = Some b /\ bal_id b' = bal_id b /\
     (forall a, bal_amount a b' = bal_amount a b) /\ calls b' = calls b /\ wall_ns b' = wall_ns b /\
     forall p, policies db !! bid = Some p -> capped b' p) ->
  kept hash (set_balances f db).
Proof.
  intros [Hs Hb Hc] H. constructor.
  - constructor; cbn; try apply Hs. intros bid b' Hb'. destruct (H bid b' Hb') as (b & E & _). by eapply Hs.
  - intros bid b' Hb'. destruct (H bid b' Hb') as (b & E & E0 & E1 & E2 & E3 & _). unfold balanced. cbn. rewrite E0, E2, E3. setoid_rewrite E1. by apply Hb.
  - intros bid b' p _ Hb' Hp. destruct (H bid b' Hb') as (b & _ & _ & _ & _ & _ & Hcap). by apply Hcap.
Qed.
Lemma after_pause_all paused db (Q : unit -> ledger -> Prop) : kept hash db -> (forall db', kept hash db' -> reservations db' = reservations db -> Q tt db') ->
  after (pause_all paused) db Q.
Proof.
  intros Hk H. unfold pause_all, update_balances. statements. apply H; [|done]. apply kept_balances; [done|]. intros bid b'. rewrite map_lookup_imap.
  destruct (balances db !! bid) as [b|] eqn:E; [|done]. cbn. intros [= <-]. exists b.
  destruct (_ && _); split_and!; try done. intros p Hp. by eapply (kept_caps _ _ Hk); [apply not_elem_of_nil|..].
Qed.
(** Only flags of reservations change. *)
Lemma kept_rows g db : kept hash db -> (forall k r, same_amounts r (g k r)) -> kept hash (set_reservations (map_imap (fun k r => Some (g k r))) db).
Proof.
  intros [Hs Hb Hc] Hg. constructor; [|..|done].
  - constructor; cbn; try apply Hs. intros d r'. rewrite map_lookup_imap. destruct (reservations db !! d) as [r|] eqn:E; [|done]. cbn. intros [= <-].
    destruct (Hg d r) as [-> _]. by apply Hs.
  - intros bid b Hbid. destruct (Hb bid b Hbid) as (H1 & H2 & H3 & H4). unfold balanced. cbn. split_and!; try done.
    + intros a. rewrite total_imap; [done|]. intros k r. apply Hg.
    + by rewrite total_imap.
Qed.

(** * Steps that only read *)

Lemma reads_load_call key ctx : reads (load_call hash key ctx).
Proof. intros db. unfold load_call. statements. destruct ctx; by statements. Qed.
Lemma reads_catch {A} (m : T A) : reads m -> reads (catch_port m).
Proof. intros H db. specialize (H db). unfold after, catch_port in *. destruct (m db) as [[]|[[]| |]]; done. Qed.
Lemma reads_bind {A B} (m : T A) (f : A -> T B) : reads m -> (forall a, reads (f a)) -> reads (m ≫= f).
Proof. intros Hm Hf db. apply after_bind. eapply after_reads; [exact Hm|]. intros a. apply Hf. Qed.
Lemma reads_inventory_row a reading q : reads (inventory_row hash a reading q).
Proof.
  destruct q as [[digest c] r]. intros db. unfold inventory_row. statements.
  eapply (after_weaken _ _ (fun _ db' => db' = db)); [case_if; by statements|]. intros differs ? ->. statements.
  eapply (after_weaken _ _ (fun _ db' => db' = db)); [case_if; [destruct (latest_settlement _ _)|]; by statements|]. intros unsettled ? ->. statements.
  apply after_reads; [apply reads_catch, reads_prefix|]. intros prefix. destruct (match prefix with Some _ => _ | None => _ end). by statements.
Qed.
Lemma reads_inventory_rows a clock l : forall i, reads (inventory_rows hash a clock i l).
Proof.
  induction l as [|q l IH]; intros i; cbn [inventory_rows]; [intros db; by statements|].
  apply reads_bind; [apply reads_inventory_row|]. intros [m u]. apply reads_bind; [apply IH|]. intros [m' p] db. by statements.
Qed.
Lemma reads_resume_calls a kind bid rows : reads (resume_calls hash a kind bid rows).
Proof.
  induction rows as [|[d c] rows IH]; cbn [resume_calls]; [intros db; by statements|]. apply reads_bind; [|intros _; apply IH].
  case_if; intros db; [by statements|]. statements. apply after_reads; [apply reads_load_call|]. intros [row core]. statements.
  apply after_reads; [apply reads_prefix|]. intros prefix. by statements.
Qed.

(** * Inventory and resumption *)

Lemma inventory_kept a s db : kept hash db -> kept hash (inventory hash a s db).1.
Proof.
  intros Hk. unfold inventory. assert (H : kept hash (budget_transaction s (inventory_body hash a s) db).1); [|by destruct (budget_transaction _ _ _)].
  apply (transaction_keeps (kept hash)); [done|]. unfold inventory_body. statements. apply after_reads; [apply reads_inventory_rows|].
  intros [m p]. statements. apply after_pause_all; [done|]. intros db' Hk' _. by statements.
Qed.
Lemma after_resume_budget a reading rows b p db (Q : unit -> ledger -> Prop) : kept hash db -> balances db !! bal_id b = Some b -> policies db !! bal_id b = Some p ->
  (forall db', kept hash db' -> policies db' = policies db -> (forall bid, bid <> bal_id b -> balances db' !! bid = balances db !! bid) -> Q tt db') ->
  after (resume_budget hash a reading rows b p) db Q.
Proof.
  intros Hk Hb Hp H. unfold resume_budget. statements. apply after_reads; [apply reads_resume_calls|]. intros []. statements.
  apply (after_update_balance _ _ _ b); [done|]. apply H; [|done|]; [|intros bid Hne; cbn; by rewrite lookup_insert_ne].
  apply kept_balances; [done|]. intros bid b'. destruct (decide (bid = bal_id b)) as [->|Hne].
  - rewrite lookup_insert_eq. intros [= <-]. exists b. split_and!; try done. intros q Hq _. rewrite Hp in Hq. injection Hq as <-. unfold resumable in *. bool_simpl.
    destruct (token_cap p) eqn:E1; [|done]. destruct (cost_cap p) eqn:E2; [|done]. destruct (call_cap p) eqn:E3; [|done]. destruct (wall_cap_ns p) eqn:E4; [|done].
    bool_simpl. constructor; intros ?; rewrite ?E1, ?E2, ?E3, ?E4; intros [= <-]; cbn; lia.
  - rewrite lookup_insert_ne by done. intros E. exists b'. split_and!; try done. intros q Hq. by eapply (kept_caps _ _ Hk); [apply not_elem_of_nil|..].
Qed.
Lemma after_resume_each a clock kinds rows bals : forall i db, kept hash db -> NoDup (bids bals) ->
  Forall (fun q => balances db !! bal_id q.1 = Some q.1 /\ policies db !! bal_id q.1 = Some q.2) bals ->
  after (resume_each hash a clock i kinds rows bals) db (fun _ db' => kept hash db').
Proof.
  induction bals as [|[b p] rest IH]; intros i db Hk Hnd Hst; cbn [resume_each]; [by statements|].
  cbn in Hnd. apply NoDup_cons in Hnd as [Hnew Hnd]. apply Forall_cons in Hst as [[Hb Hp] Hst]. case_if; [by apply IH|]. statements.
  apply (after_resume_budget _ _ _ _ p); [done..|]. intros db' Hk' Ep Eb. apply IH; [done..|]. rewrite Forall_forall in Hst |- *. intros q Hq.
  destruct (Hst q Hq) as [E1 E2]. rewrite Ep. split; [|done]. rewrite Eb; [done|]. intros Eq. apply Hnew. rewrite <- Eq. apply list_elem_of_fmap. by exists q.
Qed.
Lemma resume_kept a_inv a s_inv s read decision kinds db : kept hash db -> kept hash (resume_budgets hash a_inv a s_inv s read decision kinds db).1.
Proof.
  intros Hk. apply (first_keeps (kept hash)); [done|]. intros text _. pose proof (inventory_kept a_inv s_inv db Hk) as Hi.
  destruct (inventory _ _ _ _) as [db1 [rows|]]; cbn [fst] in Hi; [|done]. case_if; [done|]. apply (transaction_keeps (kept hash)); [done|].
  unfold resume_body. statements. apply after_load_budgets; [apply Hi..|]. intros bals (_ & Hst & Hnd & _). statements.
  eapply after_weaken; [by apply after_resume_each|]. intros ? db2 Hk2. unfold insert_recovery. statements. eapply kept_ext; [|exact Hk2]. done.
Qed.

(** * The repair of calls *)

Lemma recover_kept a s read key decision expected owner db : kept hash db -> decoded "ReservationKey" key ->
  kept hash (recover_call hash a s read key decision expected owner db).1.
Proof.
  intros Hk Hd. apply (first_keeps (kept hash)); [done|]. intros evidence _. apply (transaction_keeps (kept hash)); [done|]. unfold recover_body. statements.
  apply after_load_budgets; [apply Hk..|]. intros bals _. statements. apply after_load_call; [apply Hk | done |]. intros row core Hc. statements.
  unfold insert_recovery. statements. eapply kept_state; [eapply kept_ext; [|exact Hk]; done | apply Hc | case_if; [by apply same_amounts_held | done] |].
  intros db' Hk' _. statements. unfold close_admission. apply (after_closing hash); [done | intros k x; case_if; auto |]. intros db2 Hk2 _. by statements.
Qed.
Lemma cancel_kept s read key decision db : kept hash db -> decoded "ReservationKey" key -> kept hash (cancel_v1 hash s read key decision db).1.
Proof.
  intros Hk Hd. apply (first_keeps (kept hash)); [done|]. intros [] _.
  assert (H : kept hash (budget_transaction s (cancel_body hash key) db).1); [|by destruct (budget_transaction _ _ _)].
  apply (transaction_keeps (kept hash)); [done|]. unfold cancel_body. statements. apply after_load_budgets; [apply Hk..|]. intros bals _. statements.
  apply after_load_call; [apply Hk | done |]. intros row core Hc. statements. unfold update_balance. statements.
  destruct (balances db !! balance_id hash (field key "scope") "task") as [b|] eqn:Eb; [|statements; unfold update_reservations; statements; apply kept_rows; [done|]; intros k r; case_if; [by apply same_amounts_held | done]].
  statements. unfold update_reservations. statements. apply kept_rows; [|intros k r; case_if; [by apply same_amounts_held | done]].
  apply kept_balances; [done|]. intros bid b'. destruct (decide (bid = balance_id hash (field key "scope") "task")) as [->|Hne].
  - rewrite lookup_insert_eq. intros [= <-]. exists b. by split_and!.
  - rewrite lookup_insert_ne by done. intros E. exists b'. split_and!; try done. intros q Hq. by eapply (kept_caps _ _ Hk); [apply not_elem_of_nil|..].
Qed.
Lemma pause_admission_kept deployment s db : kept hash db -> kept hash (pause_admission deployment s db).1.
Proof.
  intros Hk. apply (transaction_keeps (kept hash)); [done|]. statements. apply after_pause_all; [done|]. by intros db' Hk' _.
Qed.

(** * Sums over joined rows *)

Lemma sum_joined (f : string * core_row * reservation_row -> Z) db :
  sum_by f (joined db) = map_fold (fun d r z => match cores db !! d with Some c => f (d, c, r) | None => 0 end + z) 0 (reservations db).
Proof.
  unfold joined. rewrite map_fold_foldr. induction (map_to_list (reservations db)) as [|[d r] l IH]; [done|]. cbn [foldr uncurry fst snd]. rewrite <- IH. cbn.
  by destruct (cores db !! d) as [c|].
Qed.
Lemma map_fold_total (g : string -> reservation_row -> Z) f cs bid rs : (forall d r, rs !! d = Some r -> g d r = if charged cs bid d then f r else 0) ->
  map_fold (fun d r z => g d r + z) 0 rs = total f cs bid rs.
Proof.
  unfold total. induction rs as [|d r rs Hd IH] using map_ind; [done|]. intros H. rewrite !map_fold_insert_L by (done || intros; lia).
  rewrite H by apply lookup_insert_eq. rewrite IH; [done|]. intros d' r' Hr. apply H. rewrite lookup_insert_ne; [done|]. intros ->. congruence.
Qed.
(** A balance of an account is the account's balance of its calls, one of a task the task's. *)
Lemma column_charged db bid p d c : structured hash db -> policies db !! bid = Some p -> cores db !! d = Some c ->
  bool_decide (balance_column (scope_kind p) c = bid) = charged (cores db) bid d.
Proof.
  intros Hs Hp Hc. destruct (cores_policies _ _ Hs _ _ Hc) as [(p1 & E1 & K1) (p2 & E2 & K2)]. unfold charged. rewrite Hc, <- bool_decide_or. apply bool_decide_ext.
  destruct (policies_scoped _ _ Hs _ _ Hp) as [Hkind _]. unfold balance_column. apply elem_of_cons in Hkind as [Hkind|Hkind%list_elem_of_singleton]; rewrite Hkind.
  - rewrite bool_decide_eq_true_2 by done. split; [by left|]. intros [?|E]; [done|]. exfalso. rewrite E in E2. rewrite Hp in E2. injection E2 as <-. rewrite Hkind in K2. by destruct K2 as [K2 _]; specialize (K2 eq_refl).
  - rewrite bool_decide_eq_false_2 by done. split; [by right|]. intros [E|?]; [|done]. exfalso. rewrite E in E1. rewrite Hp in E1. injection E1 as <-. rewrite Hkind in K1. by destruct K1 as [_ K1]; specialize (K1 eq_refl).
Qed.
Lemma column_total f db bid p : structured hash db -> policies db !! bid = Some p -> column_sum f (scope_kind p) bid db = total f (cores db) bid (reservations db).
Proof.
  intros Hs Hp. unfold column_sum. rewrite sum_joined. apply map_fold_total. intros d r Hr. destruct (rows_cores _ _ Hs _ _ Hr) as [_ [c Hc]]. rewrite Hc. cbn.
  by rewrite (column_charged _ _ _ _ _ Hs Hp Hc).
Qed.
Lemma inventory_total_total f db bid p : structured hash db -> policies db !! bid = Some p -> inventory_total f bid (joined db) = total f (cores db) bid (reservations db).
Proof.
  intros Hs Hp. unfold inventory_total. rewrite sum_joined. apply map_fold_total. intros d r Hr. destruct (rows_cores _ _ Hs _ _ Hr) as [_ [c Hc]]. rewrite Hc. cbn.
  destruct (cores_policies _ _ Hs _ _ Hc) as [(p1 & E1 & K1) (p2 & E2 & K2)]. unfold charged, balance_column, scope_kinds, sum_by. rewrite Hc. cbn [foldr fst snd].
  rewrite (bool_decide_eq_true_2 ("account" = "account")), (bool_decide_eq_false_2 ("task" = "account")) by done.
  destruct (bool_decide (account_balance c = bid)) eqn:A, (bool_decide (task_balance c = bid)) eqn:B; cbn; try lia. bool_simpl. exfalso. rewrite A in E1. rewrite B in E2.
  rewrite E1 in E2. injection E2 as <-. destruct K2 as [K2 _], K1 as [_ K1]. specialize (K1 (K2 eq_refl)). done.
Qed.
Lemma books_conserved db bid b p : kept hash db -> balances db !! bid = Some b -> policies db !! bid = Some p -> conserved (joined db) bid b = true.
Proof.
  intros [Hs Hb _] Hbid Hp. destruct (Hb bid b Hbid) as (_ & H1 & H2 & H3). unfold conserved.
  rewrite !(inventory_total_total _ _ _ _ Hs Hp). rewrite H3, H2. pose proof (H1 HeldTokens) as A1. pose proof (H1 HeldMicrousd) as A2. pose proof (H1 ActualTokens) as A3. pose proof (H1 ActualMicrousd) as A4.
  cbn in *. rewrite A1, A2, A3, A4, !Z.eqb_refl. cbn. apply andb_true_intro. split; apply Z.leb_le; lia.
Qed.

(** * The restoration of a liability *)

Lemma column_ext f kind bid db db' : cores db' = cores db -> reservations db' = reservations db -> column_sum f kind bid db' = column_sum f kind bid db.
Proof. intros Ec Er. unfold column_sum, joined. by rewrite Ec, Er. Qed.
Lemma after_restore_each tokens microusd db0 bals : kept hash db0 -> forall db, cores db = cores db0 -> reservations db = reservations db0 -> NoDup (bids bals) ->
  Forall (fun q => balances db0 !! bal_id q.1 = Some q.1 /\ policies db0 !! bal_id q.1 = Some q.2) bals ->
  Forall (fun q => balances db !! bal_id q.1 = Some q.1) bals ->
  after (restore_each tokens microusd bals) db (fun _ db' => exists bals', Forall2 (charged_to tokens microusd) bals bals' /\ balances_only bals' db db' /\ all_capped bals').
Proof.
  intros Hk. induction bals as [|[b p] rest IH]; intros db Ec Er Hnd Hst0 Hst; cbn [restore_each].
  { statements. exists []. split_and!; [constructor | apply balances_only_nil | constructor]. }
  apply Forall_cons in Hst0 as [[Hb Hp] Hst0]. cbn in Hb, Hp. destruct (kept_books _ _ Hk _ _ Hb) as (_ & B1 & B2 & B3).
  assert (Hsum : forall f, column_sum f (scope_kind p) (bal_id b) db = total f (cores db0) (bal_id b) (reservations db0)).
  { intros f. rewrite (column_ext _ _ _ db0 db) by done. eapply column_total; [apply Hk | done]. }
  statements. unfold restore_budget. statements. rewrite !Hsum in *. apply (after_update_balance _ _ _ b); [by apply Forall_cons in Hst as [? _]|].
  set (b' := bal_restore _ _ _ _ b). destruct (stored_rest b p rest db db b') as (H1 & H2 & H3); try done.
  eapply after_weaken; [by apply IH|]. cbv beta. intros _ db' (rest' & Hs & Ho & Hcap). exists ((b', p) :: rest').
  assert (Hsh : charged_to tokens microusd (b, p) (b', p)).
  { pose proof (B1 HeldTokens : held_tokens b = total row_held_tokens _ _ _) as A1. pose proof (B1 HeldMicrousd : held_microusd b = total row_held_microusd _ _ _) as A2. split_and!; try done.
    - intros []; cbn; lia.
    - cbn. lia.
    - cbn. rewrite B3 in *. unfold call_ns in *. lia. }
  split_and!; [by constructor | | constructor; [|done]].
  - eapply (balances_only_cons _ _ _ db); [|done|exact Ho]. by rewrite (charged_ids _ _ _ _ Hs).
  - intros Hact. cbn in Hact. destruct (bool_decide _); discriminate.
Qed.
Lemma after_restored key row dbx bals bals' db db' c tokens microusd : kept hash db -> decoded "ReservationKey" key -> loaded hash (field key "scope") db bals ->
  Forall2 (charged_to tokens microusd) bals bals' -> balances_only bals' db dbx -> all_capped bals' -> reservations db !! fingerprint_of hash key = None ->
  key_bytes c = encoded key /\ account_balance c = balance_id hash (field key "scope") "account" /\ task_balance c = balance_id hash (field key "scope") "task" ->
  row_digest row = fingerprint_of hash key /\ (forall a, row_amount a row = match a with HeldTokens => tokens | HeldMicrousd => microusd | _ => 0 end) ->
  policies db' = policies db /\ balances db' = balances dbx /\ admissions db' = admissions db /\
    reservations db' = <[fingerprint_of hash key := row]> (reservations db) /\ cores db' !! fingerprint_of hash key = Some c /\
    (forall d, d <> fingerprint_of hash key -> cores db' !! d = cores db !! d) ->
  kept hash db'.
Proof.
  intros Hk Hd Hl Hs Ho Hcap Hr Hc Hrow (Ep & Eb & Ea & Er & Ec & Eo).
  eapply (reserved_kept hash key db (set_balances (fun _ => balances db) db') db' c row bals bals'); try done.
  constructor; cbn; try done; rewrite Eb; apply Ho.
Qed.
Lemma restore_kept a s read key decision owner db : kept hash db -> decoded "ReservationKey" key ->
  kept hash (restore_liability hash uuid4 a s read key decision owner db).1.
Proof.
  intros Hk Hd. apply (first_keeps (kept hash)); [done|]. intros [[[core receipt_] ctx] evidence] _. apply (transaction_keeps (kept hash)); [done|]. unfold restore_body. statements.
  apply after_load_budgets; [apply Hk..|]. intros bals Hl. statements.
  eapply (after_weaken _ _ (fun _ db' => db' = db /\ match cores db !! fingerprint_of hash key with Some c => key_bytes c = encoded key | None => True end)).
  { destruct (cores db !! _) as [c|]; statements. by bool_simpl. }
  intros _ ? [-> Hold]. statements. bool_simpl. assert (Hr : reservations db !! fingerprint_of hash key = None) by (by destruct (reservations db !! _)).
  eapply after_weaken; [eapply (after_restore_each _ _ db); [done..| | |]; [apply Hl | apply Hl | eapply Forall_impl; [apply Hl|]; by intros q []]|].
  intros _ dbx (bals' & Hs & Ho & Hcap). statements.
  eapply (after_weaken _ _ (fun _ db' => policies db' = policies db /\ balances db' = balances dbx /\ admissions db' = admissions db /\ reservations db' = reservations db /\
    exists c, (key_bytes c = encoded key /\ account_balance c = balance_id hash (field key "scope") "account" /\ task_balance c = balance_id hash (field key "scope") "task") /\
      cores db' !! fingerprint_of hash key = Some c /\ (forall d, d <> fingerprint_of hash key -> cores db' !! d = cores db !! d))).
  { destruct (cores db !! fingerprint_of hash key) as [c|] eqn:Ec; cbn [is_none].
    - statements. split_and!; [apply Ho | done | apply Ho | apply Ho |]. exists c. split; [|by rewrite (only_cores _ _ _ Ho)].
      destruct (cores_keyed _ _ (kept_structured _ _ Hk) _ _ Ec) as (key' & D & E & _ & A1 & A2).
      assert (Hsame : same_scope (field key' "scope") (field key "scope")) by (apply same_encoded; [done..|congruence]).
      by rewrite A1, A2, !(balance_id_same _ _ _ _ Hsame).
    - unfold insert_core. statements. cbn. split_and!; [apply Ho | done | apply Ho | apply Ho |]. set (c := mkCore _ _ _ _ _ _ _ _ _ _). exists c.
      split; [done|]. split; [apply lookup_insert_eq|]. intros d Hne. rewrite lookup_insert_ne by done. by rewrite (only_cores _ _ _ Ho). }
  intros _ dby (Ep & Eb & Ea & Er & c & Hc & Ec & Eo). statements. unfold insert_reservation. statements. cbn [row_digest] in *.
  set (row := mkReservation _ _ _ _ _ _ _ _ _ _ _ _ _ _) in *.
  eapply (after_event _ _ _ _ _ _ _ _ row); [apply lookup_insert_eq | |].
  - statements. unfold insert_recovery. statements.
    eapply (after_restored key row dbx bals bals' db); try done. cbn. by rewrite Er.
  - intros e n. statements. unfold insert_recovery. statements.
    eapply (after_restored key (with_events n row) dbx bals bals' db); try done. cbn. by rewrite insert_insert_eq, Er.
Qed.
End store.

(** * The budget over time *)

(** One operation, with any environment and arguments; its keys are decoded records. *)
Inductive budget_step (hash : string -> string) : ledger -> ledger -> Prop :=
| step_install s scope kind c manifest decision valid_from expires_at db :
    budget_step hash db (install_policy hash s scope kind c manifest decision valid_from expires_at db).1
| step_reserve uuid4 s run key p db : decoded "ReservationKey" key -> budget_step hash db (reserve_v1 hash uuid4 s run key p db).1
| step_lookup s read key db : decoded "ReservationKey" key -> budget_step hash db (lookup_reservation_v1 hash s read key db).1
| step_admit uuid4 s run receipt_ db : decoded "ReservationKey" (field receipt_ "key") -> budget_step hash db (admit_v1 hash uuid4 s run receipt_ db).1
| step_marker uuid4 s run admission ticket db : decoded "ReservationKey" (field admission "key") ->
    budget_step hash db (marker hash uuid4 s run admission ticket db).1
| step_unknown s ctx key db : decoded "ReservationKey" key -> budget_step hash db (mark_unknown hash s ctx key db).1
| step_terminal uuid4 s ctx key terminal usage db : decoded "ReservationKey" key -> budget_step hash db (terminal_projection hash uuid4 s ctx key terminal usage db).1
| step_finish s ctx key closed db : decoded "ReservationKey" key -> budget_step hash db (finish_call hash s ctx key closed db).1
| step_completion uuid4 s ctx key completion db : decoded "ReservationKey" key -> budget_step hash db (persist_completion hash uuid4 s ctx key completion db).1
| step_reconcile uuid4 s_main s_doubt s_read obs ctx key ids decision db : decoded "ReservationKey" key ->
    budget_step hash db (reconcile_v1 hash uuid4 s_main s_doubt s_read obs ctx key ids decision db).1
| step_settlement s key db : decoded "ReservationKey" key -> budget_step hash db (current_settlement hash s key db).1
| step_inventory a s db : budget_step hash db (inventory hash a s db).1
| step_resume a_inventory a s_inventory s read decision kinds db :
    budget_step hash db (resume_budgets hash a_inventory a s_inventory s read decision kinds db).1
| step_recover a s read key decision expected owner db : decoded "ReservationKey" key -> budget_step hash db (recover_call hash a s read key decision expected owner db).1
| step_restore uuid4 a s read key decision owner db : decoded "ReservationKey" key ->
    budget_step hash db (restore_liability hash uuid4 a s read key decision owner db).1
| step_cancel s read key decision db : decoded "ReservationKey" key -> budget_step hash db (cancel_v1 hash s read key decision db).1
| step_pause deployment s db : budget_step hash db (pause_admission deployment s db).1.
Definition budget_reachable (hash : string -> string) (db : ledger) : Prop := rtc (budget_step hash) empty_ledger db.

Lemma step_kept hash db db' : kept hash db -> budget_step hash db db' -> kept hash db'.
Proof.
  intros Hk H. destruct H; eauto using install_kept, reserve_kept, lookup_kept, admit_kept, marker_kept, mark_unknown_kept, terminal_kept, finish_kept,
    completion_kept, reconcile_kept, current_kept, inventory_kept, resume_kept, recover_kept, restore_kept, cancel_kept, pause_admission_kept.
Qed.
Lemma empty_kept hash : kept hash empty_ledger.
Proof.
  constructor; [constructor|..]; unfold open_once, books, caps_kept; cbn; intros *; rewrite ?lookup_empty; try discriminate.
Qed.
Lemma reachable_kept hash db : budget_reachable hash db -> kept hash db.
Proof.
  unfold budget_reachable. intros H. pose proof (empty_kept hash) as Hk. induction H as [|x y z Hxy _ IH]; [done|]. apply IH. by eapply step_kept.
Qed.

(** C10: In every state that the operations of the budget reach, whatever their order and
    their failures, each balance is the books of its calls: what it holds, what it has
    settled and how many calls it counts are the sums over the reservations charged to it,
    and its wall time is thirty seconds for each of them. *)
Theorem ledger_conserved hash db bid b : budget_reachable hash db -> balances db !! bid = Some b ->
  (forall a, bal_amount a b = total (row_amount a) (cores db) bid (reservations db)) /\
  calls b = total (fun _ => 1) (cores db) bid (reservations db) /\ wall_ns b = call_ns * calls b.
Proof. intros H Hb. by destruct (kept_books _ _ (reachable_kept _ _ H) _ _ Hb) as [_ ?]. Qed.

(** C9: No reachable state overdraws an active budget: what the calls charged to it have
    settled and may still cost together stays within the token and cost caps of its policy,
    and the number of calls and their wall time within the others. *)
Theorem budget_never_overdrawn hash db bid b p : budget_reachable hash db -> balances db !! bid = Some b -> policies db !! bid = Some p -> bal_state b = "ACTIVE" ->
  let sum f := total f (cores db) bid (reservations db) in
  (forall t, token_cap p = Some t -> sum actual_tokens + sum row_held_tokens <= t) /\
  (forall c, cost_cap p = Some c -> sum actual_microusd + sum row_held_microusd <= c) /\
  (forall n, call_cap p = Some n -> sum (fun _ => 1) <= n) /\
  (forall w, wall_cap_ns p = Some w -> call_ns * sum (fun _ => 1) <= w).
Proof.
  intros H Hb Hp Ha. pose proof (reachable_kept _ _ H) as [_ Hbooks Hcaps]. destruct (Hbooks _ _ Hb) as (_ & B1 & B2 & B3).
  destruct (Hcaps _ _ _ (not_elem_of_nil _) Hb Hp Ha) as [F1 F2 F3 F4]. cbv beta zeta.
  pose proof (B1 HeldTokens : held_tokens b = total row_held_tokens _ _ _) as A1. pose proof (B1 HeldMicrousd : held_microusd b = total row_held_microusd _ _ _) as A2.
  pose proof (B1 ActualTokens : settled_tokens b = total actual_tokens _ _ _) as A3. pose proof (B1 ActualMicrousd : settled_microusd b = total actual_microusd _ _ _) as A4.
  rewrite <- A1, <- A2, <- A3, <- A4, <- B2, <- B3. split_and!; auto.
Qed.

(** At most one call is open at a time for an account, and for a deployment: in a
    reachable state two admissions that are not closed and share one of them are the same. *)
Theorem one_call_admitted hash db d1 d2 a1 a2 : budget_reachable hash db -> admissions db !! d1 = Some a1 -> admissions db !! d2 = Some a2 ->
  adm_closed a1 = false -> adm_closed a2 = false -> adm_account_ref a1 = adm_account_ref a2 \/ adm_deployment_ref a1 = adm_deployment_ref a2 -> d1 = d2.
Proof. intros H. apply (opened_once _ _ (kept_structured _ _ (reachable_kept _ _ H))). Qed.

(** The recovery's inventory raises no false alarm: in a reachable state the balances agree
    with the totals that it computes from the calls, for every budget. *)
Theorem inventory_agrees hash db : budget_reachable hash db ->
  forallb (fun q : string * balance_row * policy_row => conserved (joined db) q.1.1 q.1.2) (budget_rows db) = true.
Proof.
  intros H. apply forallb_forall. intros [[bid b] p] Hin%list_elem_of_In. unfold budget_rows in Hin. apply list_elem_of_omap in Hin as ([bid' b'] & Hin & E).
  apply elem_of_map_to_list in Hin. cbn in E. destruct (policies db !! bid') as [p'|] eqn:Ep; [|done]. injection E as -> -> ->.
  by apply (books_conserved hash _ _ _ p); [apply reachable_kept | |].
Qed.

(** * The price of a call *)

Lemma decoded_conditions name r : decoded name r -> exists o layout, r = JObj o /\ assoc name LAYOUTS = Some layout /\
  (forall k kind, (k, kind) ∈ fields_of layout -> scalar schema_fuel kind (item o k) = Ok true) /\ reserve_ok name o = true /\ usage_ok name o = true.
Proof. intros (o & layout & -> & El & Hv & _). apply validate_conditions in Hv as (H1 & H2 & H3). by exists o, layout. Qed.
(** The counts of a known usage. *)
Lemma usage_counts usage : decoded "UsageView" usage -> str_is (field usage "state") "known" = true ->
  let n := number_of usage in
  0 <= n "input_tokens" /\ 0 <= n "output_tokens" /\ 0 <= n "cached_input_tokens" /\ 0 <= n "cache_write_tokens" /\
  n "cached_input_tokens" + n "cache_write_tokens" <= n "input_tokens" /\ n "input_tokens" + n "output_tokens" = n "total_tokens".
Proof.
  intros (o & layout & -> & El & Hf & _ & Hu)%decoded_conditions Hs. unfold number_of. cbn [field] in *. unfold usage_ok in Hu. rewrite Hs, (bool_decide_eq_true_2 ("UsageView" = "UsageView")) in Hu by done.
  cbn [negb orb] in Hu. bool_simpl. assert (Hn : forall k, (k, "N?") ∈ fields_of layout -> 0 <= int_of (item o k)) by (intros k Hk; by apply (scalar_optional 14), Hf).
  injection El as <-. split_and!; try done; apply Hn; apply (bool_decide_unpack _); vm_compute; exact Logic.I.
Qed.

(** C36: The price of a call is exact and covered. A known usage costs its tokens at their four
    rates in tenths of a micro-dollar, rounded up once; and if it kept to the limits of the
    reservation, the tokens and the price are at most what was reserved, so that no call
    within its limits overruns. *)
Theorem reservation_covers receipt usage : decoded "Reservation" receipt -> decoded "UsageView" usage -> str_is (field usage "state") "known" = true ->
  number_of usage "input_tokens" <= number_of receipt "input_limit" -> number_of usage "output_tokens" <= number_of receipt "output_limit" ->
  exists cost, actual usage = Ok (number_of usage "total_tokens", cost) /\
    number_of usage "total_tokens" <= number_of receipt "reserved_tokens" /\ cost <= number_of receipt "reserved_microusd" /\
    let n := number_of usage in
    let tenths := 20 * (n "input_tokens" - n "cached_input_tokens" - n "cache_write_tokens") + 2 * n "cached_input_tokens" + 25 * n "cache_write_tokens" + 120 * n "output_tokens" in
    10 * (cost - 1) < tenths <= 10 * cost.
Proof.
  intros (o & layout & -> & El & Hf & Hr & _)%decoded_conditions Hu Hk. pose proof (usage_counts usage Hu Hk) as Hc. cbv zeta in *. injection El as <-.
  assert (Hi : number_of (JObj o) "input_limit" = 4096) by (apply (scalar_constant 15 "4096"); [left | apply Hf; apply (bool_decide_unpack _); vm_compute; exact Logic.I]).
  assert (Ho : number_of (JObj o) "output_limit" = 1024) by (apply (scalar_constant 15 "1024"); [right; left | apply Hf; apply (bool_decide_unpack _); vm_compute; exact Logic.I]).
  unfold reserve_ok in Hr. rewrite (bool_decide_eq_true_2 ("Reservation" ∈ _)) in Hr by left. cbn [negb orb] in Hr. bool_simpl. rewrite Hi, Ho. intros Hin Hout.
  change (int_of (item o "reserved_tokens")) with (number_of (JObj o) "reserved_tokens") in *. change (int_of (item o "reserved_microusd")) with (number_of (JObj o) "reserved_microusd") in *.
  set (tenths := 20 * _ + _ + _ + _). unfold actual. rewrite Hk. cbn [port_require guard_or mbind result_bind]. fold tenths.
  assert (Hp : 10 * ((tenths + 9) / 10 - 1) < tenths <= 10 * ((tenths + 9) / 10)) by divlia.
  rewrite (proj2 (Z.leb_le ((tenths + 9) / 10) MAX_N)) by (unfold MAX_N; lia). eexists. split; [done|]. split_and!; lia.
Qed.

(** * A settlement *)

(** The postings of a settlement: one for each dimension of each balance. *)
Definition posted (sid : string) (dt dc ht hc : Z) (bals : list (balance_row * policy_row)) : list posting_row :=
  concat (map (fun q => [mkPosting sid (scope_kind q.2) "tokens" (bal_id q.1) dt (- ht); mkPosting sid (scope_kind q.2) "microusd" (bal_id q.1) dc (- hc)]) bals).
Lemma after_and {A} (m : T A) db (Q1 Q2 : A -> ledger -> Prop) : after m db Q1 -> after m db Q2 -> after m db (fun a db' => Q1 a db' /\ Q2 a db').
Proof. unfold after. destruct (m db) as [[]|]; auto. Qed.
Lemma after_settle_postings sid dt dc ht hc bals : forall db,
  after (settle_budgets sid dt dc ht hc bals) db (fun _ db' => settlements db' = settlements db /\ postings db' = postings db ++ posted sid dt dc ht hc bals).
Proof.
  induction bals as [|[b p] rest IH]; intros db; cbn [settle_budgets]; [statements; split; [done | by rewrite app_nil_r]|].
  statements. apply after_posting. statements. apply after_posting. statements. unfold update_balance. statements.
  eapply (after_weaken _ _ (fun _ db' => settlements db' = settlements db /\ postings db' = (postings db ++ [mkPosting sid (scope_kind p) "tokens" (bal_id b) dt (- ht)]) ++
    [mkPosting sid (scope_kind p) "microusd" (bal_id b) dc (- hc)])); [destruct (_ !! _); by statements|].
  intros _ db1 [Es Ep]. statements. eapply after_weaken; [apply IH|]. intros rest' db2 [Es2 Ep2]. statements. rewrite Es2, Ep2, Es, Ep. split; [done|].
  unfold posted. cbn. by rewrite <- !app_assoc.
Qed.

(** A settlement moves exactly the call's amounts. The reservation holds nothing any more and
    records the actual tokens and price under the next revision; each of its balances gains
    the difference to what the call had settled before and releases all that it held; no
    other balance changes; and one settlement is recorded, with a posting for each dimension
    of each balance that states these differences. *)
Theorem settlement_posts hash uuid4 key event ctx l tokens cost r db :
  reservations db !! fingerprint_of hash key = Some (r_row r) -> row_digest (r_row r) = fingerprint_of hash key ->
  NoDup (bids (r_bals r)) -> Forall (fun q => balances db !! bal_id q.1 = Some q.1) (r_bals r) -> all_capped (r_bals r) ->
  let row := r_row r in
  let dt := tokens - actual_tokens row in
  let dc := cost - actual_microusd row in
  after (settle hash uuid4 key event ctx l tokens cost r) db (fun r' db' =>
    (exists row', reservations db' !! fingerprint_of hash key = Some row' /\ row_state row' = "SETTLED" /\ row_held_tokens row' = 0 /\ row_held_microusd row' = 0 /\
       actual_tokens row' = tokens /\ actual_microusd row' = cost /\ revision row' = revision row + 1) /\
    Forall (fun q => exists b', balances db' !! bal_id q.1 = Some b' /\ settled_tokens b' = settled_tokens q.1 + dt /\ settled_microusd b' = settled_microusd q.1 + dc /\
       held_tokens b' = held_tokens q.1 - row_held_tokens row /\ held_microusd b' = held_microusd q.1 - row_held_microusd row) (r_bals r) /\
    (forall bid, bid ∉ bids (r_bals r) -> balances db' !! bid = balances db !! bid) /\
    exists s record, settlements db' = settlements db ++ [s] /\ settlement_key s = fingerprint_of hash key /\ settlement_revision s = revision row + 1 /\
      outcome r' = Some record /\ settlement_record s = encoded record /\
      postings db' = postings db ++ posted (settlement_id s) dt dc (row_held_tokens row) (row_held_microusd row) (r_bals r)).
Proof.
  intros Hr Hd Hnd Hst Hcap row dt dc. fold row in Hr, Hd. unfold settle. fold row dt dc. statements. unfold insert_settlement. statements. set (s := mkSettlement _ _ _ _ _) in *.
  eapply after_weaken; [apply after_and; [apply (after_settle_budgets _ _ _ _ _ (r_bals r)); done | apply after_settle_postings]|].
  cbv beta. intros bals' db1 ((Hs & Ho & _) & Es & Ep). cbn [settlements postings set_settlements] in Es, Ep.
  assert (Hbals : Forall (fun q => exists b', balances db1 !! bal_id q.1 = Some b' /\ settled_tokens b' = settled_tokens q.1 + dt /\ settled_microusd b' = settled_microusd q.1 + dc /\
       held_tokens b' = held_tokens q.1 - row_held_tokens row /\ held_microusd b' = held_microusd q.1 - row_held_microusd row) (r_bals r)).
  { apply Forall_forall. intros q Hq. apply list_elem_of_lookup in Hq as [i Hi]. destruct (Forall2_lookup_l _ _ _ _ _ Hs Hi) as (q' & Hq'%list_elem_of_lookup_2 & (E0 & _ & E & _)).
    pose proof (only_rows _ _ _ Ho) as Hrows. rewrite Forall_forall in Hrows. exists q'.1. rewrite <- E0. split; [by apply Hrows|].
    pose proof (E ActualTokens) as A1. pose proof (E ActualMicrousd) as A2. pose proof (E HeldTokens) as A3. pose proof (E HeldMicrousd) as A4. cbn in *. lia. }
  assert (Hothers : forall bid, bid ∉ bids (r_bals r) -> balances db1 !! bid = balances db !! bid).
  { intros bid Hbid. by rewrite (only_others _ _ _ Ho) by (by rewrite (shifted_ids _ _ _ Hs)). }
  statements. apply (after_update_reservation _ _ _ row); [by rewrite (only_reservations _ _ _ Ho)|]. statements. case_if; statements.
  - eapply (after_event _ _ _ _ _ _ _ _ (with_actual tokens cost (revision row + 1) row)); [rewrite <- Hd; apply lookup_insert_eq | |].
    + statements. split_and!; [eexists; split; [apply lookup_insert_eq | done] | done | done | by exists s, a0].
    + intros e n. statements. split_and!; [eexists; split; [cbn; rewrite Hd; apply lookup_insert_eq | done] | done | done | by exists s, a0].
  - split_and!; [eexists; split; [apply lookup_insert_eq | done] | done | done | by exists s, a0].
Qed.

(** * Witnesses *)

Lemma decoded_reads name r : decode name (encoded r) = Ok r -> decoded name r.
Proof. intros H. pose proof (decode_outcome name (encoded r)) as Ho. by rewrite H in Ho. Qed.
Lemma toy_key_decoded : decoded "ReservationKey" toy_key.
Proof. apply decoded_reads. vm_compute. reflexivity. Qed.
Lemma toy_receipt_key : field toy_receipt "key" = toy_key.
Proof. vm_compute. reflexivity. Qed.
Lemma toy_admission_key : field toy_admission "key" = toy_key.
Proof. vm_compute. reflexivity. Qed.
Lemma install_toy_step kind db : budget_step toy_hash db (install_toy kind db).
Proof. unfold install_toy. apply step_install. Qed.
Lemma reserve_toy_step : budget_step toy_hash toy_budget reserved_budget.
Proof. unfold reserved_budget, reserve_toy. apply step_reserve. exact toy_key_decoded. Qed.
Lemma admit_toy_step : budget_step toy_hash reserved_budget admitted_budget.
Proof. unfold admitted_budget, admit_toy. apply step_admit. rewrite toy_receipt_key. exact toy_key_decoded. Qed.
Lemma mark_toy_step : budget_step toy_hash admitted_budget marked_budget.
Proof. unfold marked_budget, mark_toy. apply step_marker. rewrite toy_admission_key. exact toy_key_decoded. Qed.
Lemma settle_toy_step : budget_step toy_hash marked_budget settled_budget.
Proof. unfold settled_budget, settle_toy. apply step_reconcile. exact toy_key_decoded. Qed.
Lemma reserved_reachable : budget_reachable toy_hash reserved_budget.
Proof.
  exact (rtc_l _ _ _ _ (install_toy_step "account" empty_ledger) (rtc_l _ _ _ _ (install_toy_step "task" _) (rtc_once _ _ reserve_toy_step))).
Qed.
Lemma admitted_reachable : budget_reachable toy_hash admitted_budget.
Proof. exact (rtc_r _ _ _ reserved_reachable admit_toy_step). Qed.
Lemma settled_reachable : budget_reachable toy_hash settled_budget.
Proof. exact (rtc_r _ _ _ (rtc_r _ _ _ admitted_reachable mark_toy_step) settle_toy_step). Qed.

(** The account of the sample. *)
Definition toy_account : string := balance_id toy_hash toy_scope "account".
Definition settled_account : balance_row := mkBalance toy_account 1200 4220 0 0 1 30000000000 "ACTIVE" 1.
Definition held_account : balance_row := mkBalance toy_account 0 0 5120 22528 1 30000000000 "ACTIVE" 1.
Lemma ledger_conserved_witness : balances settled_budget !! toy_account = Some settled_account /\
  wall_ns settled_account = call_ns * calls settled_account /\
  bal_amount ActualMicrousd settled_account = total actual_microusd (cores settled_budget) toy_account (reservations settled_budget).
Proof.
  assert (H : balances settled_budget !! toy_account = Some settled_account) by (vm_compute; reflexivity). split; [exact H|].
  destruct (ledger_conserved toy_hash settled_budget toy_account settled_account settled_reachable H) as (H1 & H2 & H3). split; [exact H3 | exact (H1 ActualMicrousd)].
Defined.
Lemma budget_never_overdrawn_witness : exists p, policies reserved_budget !! toy_account = Some p /\ token_cap p = Some 10000 /\
  total actual_tokens (cores reserved_budget) toy_account (reservations reserved_budget) +
  total row_held_tokens (cores reserved_budget) toy_account (reservations reserved_budget) <= 10000.
Proof.
  assert (Hb : balances reserved_budget !! toy_account = Some held_account) by (vm_compute; reflexivity).
  assert (Hcap : option_map token_cap (policies reserved_budget !! toy_account) = Some (Some 10000)) by (vm_compute; reflexivity).
  destruct (policies reserved_budget !! toy_account) as [p|] eqn:Hp; [|discriminate Hcap]. exists p. split; [reflexivity|].
  assert (Ht : token_cap p = Some 10000) by (injection Hcap as ->; reflexivity). split; [exact Ht|].
  exact (proj1 (budget_never_overdrawn toy_hash reserved_budget toy_account held_account p reserved_reachable Hb Hp eq_refl) 10000 Ht).
Defined.
Lemma one_call_admitted_witness : exists a, admissions admitted_budget !! fingerprint_of toy_hash toy_key = Some a /\ adm_closed a = false /\ fingerprint_of toy_hash toy_key = fingerprint_of toy_hash toy_key.
Proof.
  assert (Hopen : option_map adm_closed (admissions admitted_budget !! fingerprint_of toy_hash toy_key) = Some false) by (vm_compute; reflexivity).
  destruct (admissions admitted_budget !! fingerprint_of toy_hash toy_key) as [a|] eqn:Ha; [|discriminate Hopen]. exists a. split; [reflexivity|].
  assert (Hc : adm_closed a = false) by (injection Hopen as ->; reflexivity). split; [exact Hc|].
  exact (one_call_admitted toy_hash admitted_budget _ _ a a admitted_reachable Ha Ha Hc Hc (or_introl eq_refl)).
Defined.
Lemma inventory_agrees_witness : length (budget_rows settled_budget) = 2%nat /\
  forallb (fun q : string * balance_row * policy_row => conserved (joined settled_budget) q.1.1 q.1.2) (budget_rows settled_budget) = true.
Proof. split; [vm_compute; reflexivity|]. exact (inventory_agrees toy_hash settled_budget settled_reachable). Defined.
Lemma reservation_covers_witness : number_of toy_receipt "reserved_microusd" = 22528 /\
  exists cost, actual (field toy_observation "usage") = Ok (number_of (field toy_observation "usage") "total_tokens", cost) /\
    cost <= number_of toy_receipt "reserved_microusd".
Proof.
  split; [vm_compute; reflexivity|].
  destruct (reservation_covers toy_receipt (field toy_observation "usage")) as (cost & H & _ & Hc & _).
  - apply decoded_reads. vm_compute. reflexivity.
  - apply decoded_reads. vm_compute. reflexivity.
  - vm_compute. reflexivity.
  - vm_compute. discriminate.
  - vm_compute. discriminate.
  - exists cost. exact (conj H Hc).
Defined.
Lemma settlement_posts_witness : is_ok settle_once = true /\
  after (settle toy_hash toy_uuid toy_key toy_observation toy_run [toy_observation] 1200 4220 toy_recon) marked_budget (fun r' db' =>
    exists s record, settlements db' = settlements marked_budget ++ [s] /\ outcome r' = Some record /\ settlement_record s = encoded record).
Proof.
  split; [vm_compute; reflexivity|]. eapply after_weaken.
  - apply (settlement_posts toy_hash toy_uuid toy_key toy_observation toy_run [toy_observation] 1200 4220 toy_recon marked_budget).
    + vm_compute. reflexivity.
    + vm_compute. reflexivity.
    + apply (bool_decide_unpack _). vm_compute. exact Logic.I.
    + repeat constructor; vm_compute; reflexivity.
    + repeat constructor; cbn; intros ? [= <-]; lia.
  - cbv beta. intros r' db' (_ & _ & _ & s & record & H1 & _ & _ & H2 & H3 & _). exists s, record. exact (conj H1 (conj H2 H3)).
Defined.
