(* ===== verification/Models.v ===== *)
(** The rows of the platform's tables (src/backend/app/db/models), with the columns
    the modelled code reads, and the CHECK constraints of the tables as Boolean
    predicates.  Timestamps are [timestamptz]: microseconds since the epoch in UTC. *)

From S2P Require Import Prelude.
From S2P Require Import PyStr.
From S2P Require Import PyFloat.
From S2P Require Import PyJson.

Open Scope Z_scope.

Abbreviation timestamp := Z.

(** A Python [datetime]: naive, or aware with the instant it denotes. *)
Inductive datetime : Type :=
| Naive (wall : Z)
| Aware (instant : timestamp).

Record Target := mkTarget {
  target_id : Z;
  target_authorization_profile_id : option Z;
  target_authorization_revision_id : option Z;
  base_url : string;
  network_mode : string;
  is_enabled : bool
}.

Definition ck_targets_network_mode (t : Target) : bool :=
  bool_decide (network_mode t = "private_local")
  || bool_decide (network_mode t = "external_public_authorized").

Record AuthorizationRevision := mkRevision {
  revision_id : Z;
  authorization_profile_id : Z;
  revision_number : Z;
  lifecycle_state : string;
  valid_from : option timestamp;
  valid_until : option timestamp;
  automation_allowed : bool;
  max_requests_per_second : float;
  allow_get : bool;
  allow_post : bool;
  allow_patch : bool;
  allow_put : bool;
  allow_delete : bool;
  require_human_execution_approval : bool
}.

Definition ck_revision_validity_window (r : AuthorizationRevision) : bool :=
  match valid_from r, valid_until r with
  | Some f, Some u => f <? u
  | _, _ => true
  end.
Definition ck_revision_lifecycle_state (r : AuthorizationRevision) : bool :=
  bool_decide (lifecycle_state r ∈ ["draft"; "active"; "superseded"; "revoked"]).
Definition ck_revision_rate_positive (r : AuthorizationRevision) : bool :=
  fltb f0 (max_requests_per_second r).

Record Scope := mkScope {
  scope_id : Z;
  scope_target_id : Z;
  scope_hostname : string;
  path_pattern : string;
  allowed_methods : list string;
  scope_is_active : bool
}.

Record TestIdentity := mkIdentity {
  identity_id : Z;
  identity_target_id : Z;
  identity_name : string;
  auth_type : string;
  identity_is_active : bool
}.

Record Resource := mkResource {
  resource_id : Z;
  resource_target_id : Z;
  resource_type : string;
  external_id : string;
  owner_identity_id : Z
}.

Record Endpoint := mkEndpoint {
  endpoint_id : Z;
  endpoint_target_id : Z;
  endpoint_path : string;
  endpoint_method : string
}.

Record TestCase := mkTestCase {
  test_case_id : Z;
  test_case_endpoint_id : Z;
  test_case_actor_identity_id : Z;
  test_case_resource_id : Z;
  test_type : string;
  test_case_status : string
}.

Record TestRun := mkTestRun {
  test_run_id : Z;
  run_test_case_id : Z;
  run_authorization_revision_id : option Z;
  run_execution_plan_id : option Z;
  response_status : option Z;
  response_body : option string;
  duration_ms : option Z;
  error_message : option string
}.

Record CredentialBinding := mkBinding {
  binding_id : Z;
  binding_test_identity_id : Z;
  binding_auth_type : string;
  source_type : string;
  binding_is_active : bool
}.

Record ExecutionPlan := mkPlan {
  plan_id : Z;
  plan_target_id : Z;
  plan_authorization_revision_id : Z;
  plan_actor_identity_id : Z;
  plan_credential_binding_id : option Z;
  digest_version : string;
  plan_digest : string;
  action_count : Z;
  policy_context : json
}.

Definition ck_execution_plans_action_count_bounded (p : ExecutionPlan) : bool :=
  (0 <? action_count p) && (action_count p <=? 100).

Record PlanAction := mkAction {
  action_id : Z;
  action_execution_plan_id : Z;
  ordinal : Z;
  action_method : string;
  action_url : string;
  action_test_case_id : option Z;
  action_resource_id : option Z
}.

Record ApprovalRecord := mkApproval {
  approval_id : Z;
  approval_execution_plan_id : Z;
  approval_digest_version : string;
  approval_plan_digest : string;
  approval_decision : string
}.

Record ResourceAccessAssertion := mkAssertion {
  assertion_id : Z;
  assertion_resource_id : Z;
  assertion_test_identity_id : Z;
  relationship : string;
  expected_access : string;
  provenance : string;
  confidence : Z;
  verification_state : string;
  asserted_at : timestamp;
  observed_at : option timestamp;
  assertion_valid_from : option timestamp;
  assertion_valid_until : option timestamp;
  source_test_run_id : option Z;
  reviewed_assertion_id : option Z
}.

Definition ck_assertion_relationship (a : ResourceAccessAssertion) : bool :=
  bool_decide (relationship a ∈ ["owner"; "shared"; "non_owner"; "unspecified"]).
Definition ck_assertion_expected_access (a : ResourceAccessAssertion) : bool :=
  bool_decide (expected_access a ∈ ["allowed"; "denied"; "unspecified"]).
Definition ck_assertion_meaningful (a : ResourceAccessAssertion) : bool :=
  negb (bool_decide (relationship a = "unspecified"))
  || negb (bool_decide (expected_access a = "unspecified")).
Definition ck_assertion_validity_window (a : ResourceAccessAssertion) : bool :=
  match assertion_valid_until a with
  | None => true
  | Some u => match assertion_valid_from a with Some f => f <? u | None => false end
  end.
Definition ck_assertion_review (a : ResourceAccessAssertion) : bool :=
  match reviewed_assertion_id a with
  | None => true
  | Some r =>
      negb (r =? assertion_id a) && bool_decide (provenance a = "human_verified")
      && bool_decide (verification_state a ∈ ["verified"; "rejected"])
      && is_none (source_test_run_id a)
  end.

Record SafetyDecisionRecord := mkSafetyRecord {
  stage : string;
  operation : string;
  outcome : string;
  record_target_id : Z;
  record_authorization_revision_id : option Z;
  record_execution_plan_id : option Z;
  record_plan_action_id : option Z;
  record_test_case_id : option Z;
  record_test_run_id : option Z;
  record_code : option string;
  record_reason : option string;
  record_matched_scope_id : option Z;
  record_policy_evaluated_at : option timestamp
}.

Definition ck_safety_stage_outcome (r : SafetyDecisionRecord) : bool :=
  (bool_decide (stage r = "plan") && bool_decide (outcome r = "created"))
  || (bool_decide (stage r = "policy") && bool_decide (outcome r ∈ ["allowed"; "blocked"]))
  || (bool_decide (stage r = "execution")
      && bool_decide (outcome r ∈ ["blocked"; "succeeded"; "failed"])).
Definition ck_safety_operation (r : SafetyDecisionRecord) : bool :=
  bool_decide (operation r ∈ ["testcase_plan"; "policy_check"; "test_execution"; "openapi_import"]).
Definition ck_safety_plan_identified (r : SafetyDecisionRecord) : bool :=
  negb (bool_decide (stage r = "plan")) || negb (is_none (record_execution_plan_id r)).
