(* ===== verification/Samples.v ===== *)
(** Concrete rows used by the witnesses: a local lab with one Target, one active
    revision, one scope, two identities and one resource. *)

From S2P Require Import Prelude.
From S2P Require Import PyFloat.
From S2P Require Import PyJson.
From S2P Require Import Models.

Open Scope Z_scope.

Definition lab_target : Target :=
  mkTarget 1 (Some 7) (Some 11) "http://localhost:8000" "private_local" true.
Definition lab_revision : AuthorizationRevision :=
  mkRevision 11 7 1 "active" (Some 1000) (Some 9000) true f1 true false false false false true.
Definition lab_scope : Scope := mkScope 3 1 "LOCALHOST." "/api/*" ["get"] true.
Definition lab_alice : TestIdentity := mkIdentity 21 1 "alice" "bearer" true.
Definition lab_bob : TestIdentity := mkIdentity 22 1 "bob" "bearer" true.
Definition lab_guest : TestIdentity := mkIdentity 23 1 "guest" "anonymous" true.
Definition lab_order : Resource := mkResource 31 1 "order" "42" 21.
Definition lab_endpoint : Endpoint := mkEndpoint 41 1 "/api/orders/{order_id}" "GET".
Definition lab_case : TestCase := mkTestCase 51 41 22 31 "bola_cross_owner" "pending".
