(* ===== verification/ScopePolicy.v ===== *)
(** The authorization and scope policy, src/backend/app/policies/scope_policy.py:
    canonical origins and paths, scope patterns, and [ScopePolicyEngine.evaluate]. *)

From S2P Require Import Prelude.
From S2P Require Import PyStr.
From S2P Require Import PyIp.
From S2P Require Import PyUrl.
From S2P Require Import Models.
From S2P Require Import Samples.

Open Scope Z_scope.

Definition MVP_HTTP_METHODS : list string := ["GET"; "POST"; "PATCH"; "DELETE"].

(** [getattr(revision, AUTHORIZATION_METHOD_FIELDS[method])] *)
Definition AUTHORIZATION_METHOD_FIELDS (method : string) (r : AuthorizationRevision) : bool :=
  if bool_decide (method = "GET") then allow_get r
  else if bool_decide (method = "POST") then allow_post r
  else if bool_decide (method = "PATCH") then allow_patch r
  else if bool_decide (method = "DELETE") then allow_delete r
  else false.

Record Origin := mkOrigin {
  origin_scheme : string;
  origin_hostname : string;
  origin_port : Z
}.
#[export] Instance Origin_eq_dec : EqDecision Origin.
Proof. solve_decision. Defined.

Record PolicyDecision := mkDecision {
  allowed : bool;
  code : string;
  reason : string;
  decision_profile_id : option Z;
  decision_revision_id : option Z;
  evaluated_at : timestamp;
  matched_scope_id : option Z
}.

(** [PolicyValidationError] is a [ValueError]; the other errors of this module are
    plain [ValueError]s, which no handler of the module catches. *)
Inductive policy_error : Type :=
| PolicyValidationError (message : string)
| PlainValueError (message : string).
#[export] Instance policy_error_eq_dec : EqDecision policy_error.
Proof. solve_decision. Defined.

Abbreviation policy_result := (result policy_error).

Definition normalize_hostname (hostname : string) : policy_result string :=
  let value := rstrip_by (fun c => bool_decide (c = "."%char)) (lower (strip hostname)) in
  if is_empty value then Raise (PolicyValidationError "hostname is empty")
  else match parse_ip value with
       | Some ip => Ok (compressed ip)
       | None => Ok value
       end.

Definition parse_origin (url : string) : policy_result Origin :=
  match urlsplit url with
  | None => Raise (PolicyValidationError "invalid URL")
  | Some parsed =>
      if negb (bool_decide (scheme parsed = "http") || bool_decide (scheme parsed = "https")) then
        Raise (PolicyValidationError "only http and https URLs are supported")
      else if negb (is_none (username parsed)) || negb (is_none (password parsed)) then
        Raise (PolicyValidationError "URL userinfo is not allowed")
      else
        match hostname parsed with
        | None => Raise (PolicyValidationError "URL hostname is missing")
        | Some host =>
            if is_empty host then Raise (PolicyValidationError "URL hostname is missing")
            else
              match port parsed with
              | Raise _ => Raise (PolicyValidationError "invalid URL port")
              | Ok explicit_port =>
                  let p := match explicit_port with
                           | Some p => p
                           | None => if bool_decide (scheme parsed = "http") then 80 else 443
                           end in
                  normalized ← normalize_hostname host;
                  Ok (mkOrigin (scheme parsed) normalized p)
              end
        end
  end.

Definition blocked_encodings : list string := ["%2f"; "%5c"; "%00"; "%25"].

Definition is_dot_segment (s : string) : bool :=
  bool_decide (s = ".") || bool_decide (s = "..").

Definition normalize_request_path (url : string) : policy_result string :=
  match urlsplit url with
  | None => Raise (PlainValueError "invalid URL")
  | Some parsed =>
      let raw_path := if is_empty (url_path parsed) then "/" else url_path parsed in
      let lower_path := lower raw_path in
      if existsb (fun item => contains item lower_path) blocked_encodings then
        Raise (PolicyValidationError "ambiguous encoded path is not allowed")
      else
        let decoded_path := unquote raw_path in
        if contains_char (chr 0) decoded_path then
          Raise (PolicyValidationError "null byte is not allowed in path")
        else if contains_char backslash decoded_path then
          Raise (PolicyValidationError "backslash is not allowed in path")
        else if contains "//" decoded_path then
          Raise (PolicyValidationError "double slash is not allowed in path")
        else if existsb is_dot_segment (split_char "/" decoded_path) then
          Raise (PolicyValidationError "dot path segments are not allowed")
        else if negb (startswith "/" decoded_path) then
          Raise (PolicyValidationError "path must start with '/'")
        else Ok decoded_path
  end.

Definition normalize_scope_path_pattern (pattern : string) : policy_result string :=
  let value := strip pattern in
  if negb (startswith "/" value) then
    Raise (PolicyValidationError "scope path must start with '/'")
  else if negb (contains_char "*" value) then Ok value
  else if negb (count_char "*" value =? 1) then
    Raise (PolicyValidationError "only one wildcard is allowed")
  else if negb (endswith "/*" value) then
    Raise (PolicyValidationError "wildcard is only supported as trailing /*")
  else Ok value.

Definition path_matches_scope (request_path scope_pattern : string) : policy_result bool :=
  pattern ← normalize_scope_path_pattern scope_pattern;
  if negb (contains_char "*" pattern) then Ok (bool_decide (request_path = pattern))
  else
    let base_path := str_take (String.length pattern - 2) pattern in
    if is_empty base_path then Ok true
    else Ok (bool_decide (request_path = base_path)
             || startswith (base_path +:+ "/") request_path).

(** [ScopePolicyEngine.__init__]: the normalized host allowlist *)
Definition ScopePolicyEngine (platform_allowed_hosts : list string) : policy_result (list string) :=
  map_result normalize_hostname platform_allowed_hosts.

(** The checks on the Target and its AuthorizationRevision, up to
    [automation_allowed]: [Raise (code, reason)] is the denial returned, [Ok] the
    revision that passed them. *)
Definition authorization_gate (target : Target) (revision : option AuthorizationRevision)
    (evaluated_at : timestamp) : result (string * string) AuthorizationRevision :=
  _ ← guard_or (is_enabled target) ("target_disabled", "Target is disabled.");
  bound ← require (target_authorization_revision_id target)
    ("authorization_revision_missing", "Target has no AuthorizationRevision binding.");
  r ← require revision
    ("authorization_revision_missing", "The bound AuthorizationRevision was not provided.");
  _ ← guard_or (revision_id r =? bound)
    ("authorization_revision_mismatch",
     "AuthorizationRevision does not match the Target binding.");
  _ ← guard_or (match target_authorization_profile_id target with
                | Some p => authorization_profile_id r =? p
                | None => true
                end)
    ("authorization_revision_profile_mismatch",
     "AuthorizationRevision does not belong to the Target profile.");
  _ ← guard_or (bool_decide (lifecycle_state r = "active"))
    ("authorization_revision_inactive", "AuthorizationRevision is not active.");
  _ ← guard_or (match valid_from r with Some f => f <=? evaluated_at | None => true end)
    ("authorization_not_yet_valid", "Authorization is not yet valid.");
  _ ← guard_or (match valid_until r with Some u => evaluated_at <? u | None => true end)
    ("authorization_expired", "Authorization has expired.");
  _ ← guard_or (automation_allowed r)
    ("automation_not_allowed", "AuthorizationRevision does not allow automation.");
  Ok r.

(** A [PolicyValidationError] of [m] becomes a denial; any other exception leaves
    [evaluate]. *)
Definition deny_invalid {A} (m : policy_result A) (denial : string)
    : result (policy_error + (string * string)) A :=
  match m with
  | Ok a => Ok a
  | Raise (PolicyValidationError message) => Raise (inr (denial, message))
  | Raise e => Raise (inl e)
  end.

Definition lift_denial {A} (m : result (string * string) A)
    : result (policy_error + (string * string)) A :=
  match m with Ok a => Ok a | Raise d => Raise (inr d) end.

(** The checks on the request: origin, allowlist, method, path. *)
Definition request_gate (hosts : list string) (target : Target) (r : AuthorizationRevision)
    (request_url method : string)
    : result (policy_error + (string * string)) (Origin * string * string) :=
  request_origin ← deny_invalid (parse_origin request_url) "invalid_request_url";
  _ ← lift_denial (guard_or (bool_decide (origin_hostname request_origin ∈ hosts))
    ("host_not_in_platform_allowlist",
     "Host " +:+ repr (origin_hostname request_origin) +:+ " is not in the platform allowlist."));
  target_origin ← deny_invalid (parse_origin (base_url target)) "invalid_target_url";
  _ ← lift_denial (guard_or (bool_decide (request_origin = target_origin))
    ("target_origin_mismatch", "Request origin does not match the configured target origin."));
  let normalized_method := upper (strip method) in
  _ ← lift_denial (guard_or (bool_decide (normalized_method ∈ MVP_HTTP_METHODS))
    ("unsupported_http_method",
     "HTTP method " +:+ repr normalized_method +:+ " is not supported by the MVP."));
  _ ← lift_denial (guard_or (AUTHORIZATION_METHOD_FIELDS normalized_method r)
    ("authorization_method_not_allowed",
     "AuthorizationRevision does not allow HTTP method " +:+ repr normalized_method +:+ "."));
  request_path ← deny_invalid (normalize_request_path request_url) "unsafe_request_path";
  Ok (request_origin, normalized_method, request_path).

(** One turn of the loop over the scopes: [false] is [continue]. *)
Definition scope_matches (origin : Origin) (method request_path : string) (s : Scope) : bool :=
  scope_is_active s
  && match normalize_hostname (scope_hostname s) with
     | Ok host => bool_decide (host = origin_hostname origin)
     | Raise _ => false
     end
  && existsb (fun item => bool_decide (upper (strip item) = method)) (allowed_methods s)
  && match path_matches_scope request_path (path_pattern s) with
     | Ok b => b
     | Raise _ => false
     end.

(** [ScopePolicyEngine.evaluate] *)
Definition evaluate (hosts : list string) (target : Target)
    (revision : option AuthorizationRevision) (scopes : list Scope)
    (request_url method : string) (evaluation_time : option datetime) (now : timestamp)
    : policy_result PolicyDecision :=
  match match evaluation_time with Some t => t | None => Aware now end with
  | Naive _ => Raise (PlainValueError "evaluation_time must be timezone-aware")
  | Aware evaluated_at =>
      let decision (allowed : bool) (code reason : string) (matched : option Z) :=
        mkDecision allowed code reason (authorization_profile_id <$> revision)
          (revision_id <$> revision) evaluated_at matched in
      match (r ← lift_denial (authorization_gate target revision evaluated_at);
             request_gate hosts target r request_url method) with
      | Raise (inl e) => Raise e
      | Raise (inr (code, reason)) => Ok (decision false code reason None)
      | Ok (origin, method, request_path) =>
          match find_first (scope_matches origin method request_path) scopes with
          | Some s =>
              Ok (decision true "allowed_by_scope" "Request matches an active scope."
                    (Some (scope_id s)))
          | None =>
              Ok (decision false "no_matching_scope"
                    "No active scope allows this hostname, path, and HTTP method." None)
          end
      end
  end.

(** * The declarative policy *)

(** The Target is currently authorized by revision [r] at time [t]. *)
Definition current_authorization (target : Target) (revision : option AuthorizationRevision)
    (t : timestamp) (r : AuthorizationRevision) : Prop :=
  revision = Some r /\ is_enabled target = true
  /\ target_authorization_revision_id target = Some (revision_id r)
  /\ (forall p, target_authorization_profile_id target = Some p -> authorization_profile_id r = p)
  /\ lifecycle_state r = "active"
  /\ (forall f, valid_from r = Some f -> f <= t)
  /\ (forall u, valid_until r = Some u -> t < u)
  /\ automation_allowed r = true.

(** The request is for the Target's own origin, an allowlisted host, a method the
    revision allows, and a canonical path. *)
Definition admissible_request (hosts : list string) (target : Target) (r : AuthorizationRevision)
    (url method : string) (o : Origin) (m p : string) : Prop :=
  parse_origin url = Ok o /\ origin_hostname o ∈ hosts /\ parse_origin (base_url target) = Ok o
  /\ m = upper (strip method) /\ m ∈ MVP_HTTP_METHODS /\ AUTHORIZATION_METHOD_FIELDS m r = true
  /\ normalize_request_path url = Ok p.

Definition in_scope (o : Origin) (m p : string) (s : Scope) : Prop :=
  scope_is_active s = true /\ normalize_hostname (scope_hostname s) = Ok (origin_hostname o)
  /\ (exists item, item ∈ allowed_methods s /\ upper (strip item) = m)
  /\ path_matches_scope p (path_pattern s) = Ok true.

(** [segs] are the segments of a scope pattern's base, [path] those of a path below it. *)
Definition pattern_covers (pattern path : string) : Prop :=
  exists value, normalize_scope_path_pattern pattern = Ok value /\
    ((contains_char "*" value = false /\ path = value)
     \/ exists base, value = base +:+ "/*" /\ split_char "/" base `prefix_of` split_char "/" path).

(** * Lemmas *)

Lemma authorization_gate_ok target revision t r :
  authorization_gate target revision t = Ok r <-> current_authorization target revision t r.
Proof.
  unfold authorization_gate, current_authorization. split.
  - intros H. result_inv. bool_simpl. repeat split; try done.
    + by subst.
    + intros p Hp. rewrite Hp in *. by bool_simpl.
    + intros f Hf. rewrite Hf in *. by bool_simpl.
    + intros u Hu. rewrite Hu in *. by bool_simpl.
  - intros (-> & He & Hb & Hp & Hl & Hf & Hu & Ha).
    rewrite guard_bind_ok. split; [done|]. rewrite Hb. cbn.
    repeat (rewrite guard_bind_ok; split); try done.
    + apply Z.eqb_refl.
    + destruct (target_authorization_profile_id target); [|done]. apply Z.eqb_eq. by apply Hp.
    + by apply bool_decide_eq_true.
    + destruct (valid_from r); [|done]. apply Z.leb_le. by apply Hf.
    + destruct (valid_until r); [|done]. apply Z.ltb_lt. by apply Hu.
Qed.

Lemma deny_invalid_ok {A} (m : policy_result A) d a : deny_invalid m d = Ok a <-> m = Ok a.
Proof. destruct m as [|[]]; cbn; naive_solver. Qed.

Lemma lift_guard_ok b d : lift_denial (guard_or b d) = Ok tt <-> b = true.
Proof. destruct b; cbn; naive_solver. Qed.

Lemma lift_guard_bind_exn {A} b d (f : unit -> result (policy_error + (string * string)) A) e :
  (lift_denial (guard_or b d) ≫= f) = Raise (inl e) -> f tt = Raise (inl e).
Proof. by destruct b. Qed.

Lemma request_gate_ok hosts target r url method o m p :
  request_gate hosts target r url method = Ok (o, m, p) <->
  admissible_request hosts target r url method o m p.
Proof.
  unfold request_gate, admissible_request. repeat setoid_rewrite bind_ok.
  setoid_rewrite deny_invalid_ok. split.
  - intros (o1 & H1 & [] & H2 & o2 & H3 & [] & H4 & [] & H5 & [] & H6 & p' & H7 & [= <- <- <-]).
    rewrite lift_guard_ok in *. bool_simpl. subst. repeat split; done.
  - intros (H1 & H2 & H3 & -> & H5 & H6 & H7).
    exists o; split; [done|]. exists tt. rewrite lift_guard_ok, bool_decide_eq_true. split; [done|].
    exists o; split; [done|]. exists tt. rewrite lift_guard_ok, bool_decide_eq_true. split; [done|].
    exists tt. rewrite lift_guard_ok, bool_decide_eq_true. split; [done|].
    exists tt. rewrite lift_guard_ok. split; [done|]. by exists p.
Qed.

Lemma normalize_hostname_error h e :
  normalize_hostname h = Raise e -> exists msg, e = PolicyValidationError msg.
Proof. unfold normalize_hostname. repeat case_if; try case_match; naive_solver. Qed.

Lemma parse_origin_error url e :
  parse_origin url = Raise e -> exists msg, e = PolicyValidationError msg.
Proof.
  unfold parse_origin. destruct (urlsplit url) as [r|]; [|naive_solver].
  repeat case_if; try naive_solver.
  all: destruct (hostname r) as [h|]; [|naive_solver].
  all: case_if; [naive_solver|]. all: destruct (port r); [|naive_solver].
  all: destruct (normalize_hostname h) eqn:Hn; [done|]; cbn; intros [= ->];
    by eapply normalize_hostname_error.
Qed.

Lemma normalize_request_path_error url e msg :
  normalize_request_path url = Raise e -> e = PlainValueError msg -> urlsplit url = None.
Proof.
  unfold normalize_request_path. destruct (urlsplit url); [|done].
  intros H ->. repeat case_if_in H; done.
Qed.

(** Inside [evaluate] no exception other than those of the clock check escapes. *)
Lemma request_gate_no_exception hosts target r url method e :
  request_gate hosts target r url method <> Raise (inl e).
Proof.
  unfold request_gate. intros H.
  destruct (parse_origin url) as [o|e1] eqn:E1; cbn in H.
  2: { destruct (parse_origin_error _ _ E1) as [? ->]. by cbn in H. }
  apply lift_guard_bind_exn in H.
  destruct (parse_origin (base_url target)) as [o2|e2] eqn:E2; cbn in H.
  2: { destruct (parse_origin_error _ _ E2) as [? ->]. by cbn in H. }
  do 3 apply lift_guard_bind_exn in H.
  destruct (normalize_request_path url) as [p|[msg|msg]] eqn:E3; cbn in H; try done.
  apply normalize_request_path_error with (msg := msg) in E3; [|done].
  unfold parse_origin in E1. by rewrite E3 in E1.
Qed.

Lemma scope_matches_true o m p s : scope_matches o m p s = true <-> in_scope o m p s.
Proof.
  unfold scope_matches, in_scope. rewrite !andb_true_iff, existsb_exists.
  destruct (normalize_hostname (scope_hostname s)) as [h|]; [|naive_solver].
  destruct (path_matches_scope p (path_pattern s)) as [b|]; [|naive_solver].
  setoid_rewrite bool_decide_eq_true. setoid_rewrite <- list_elem_of_In. naive_solver.
Qed.

(** The result of [evaluate] at an aware time, by cases on the three stages. *)
Lemma evaluate_cases hosts target revision scopes url method t now :
  exists d, evaluate hosts target revision scopes url method (Some (Aware t)) now = Ok d /\
    evaluated_at d = t /\
    ((exists r o m p s, current_authorization target revision t r /\
        admissible_request hosts target r url method o m p /\
        find_first (scope_matches o m p) scopes = Some s /\
        allowed d = true /\ code d = "allowed_by_scope" /\ matched_scope_id d = Some (scope_id s))
     \/ (allowed d = false /\ matched_scope_id d = None /\
         forall r o m p, current_authorization target revision t r ->
           admissible_request hosts target r url method o m p ->
           forall s, s ∈ scopes -> ~ in_scope o m p s)).
Proof.
  unfold evaluate. destruct (authorization_gate target revision t) as [r|[c msg]] eqn:Hg; cbn.
  - pose proof Hg as Hr. rewrite authorization_gate_ok in Hr.
    destruct (request_gate hosts target r url method) as [[[o m] p]|[e|[c msg]]] eqn:Hq; cbn.
    + pose proof Hq as Ha. rewrite request_gate_ok in Ha.
      destruct (find_first (scope_matches o m p) scopes) as [s|] eqn:Hs.
      * eexists; split; [done|]. split; [done|]. left. exists r, o, m, p, s. done.
      * eexists; split; [done|]. split; [done|]. right. split; [done|]. split; [done|].
        intros r' o' m' p' Hr' Ha' s Hin Hsc.
        apply authorization_gate_ok in Hr'. rewrite Hg in Hr'. injection Hr' as <-.
        apply request_gate_ok in Ha'. rewrite Hq in Ha'. injection Ha' as <- <- <-.
        rewrite find_first_none in Hs. apply scope_matches_true in Hsc.
        rewrite Hs in Hsc; done.
    + by apply request_gate_no_exception in Hq.
    + eexists; split; [done|]. split; [done|]. right. split; [done|]. split; [done|].
      intros r' o m p Hr' Ha'. apply authorization_gate_ok in Hr'. rewrite Hg in Hr'.
      injection Hr' as <-. apply request_gate_ok in Ha'. by rewrite Hq in Ha'.
  - eexists; split; [done|]. split; [done|]. right. split; [done|]. split; [done|].
    intros r o m p Hr. apply authorization_gate_ok in Hr. by rewrite Hg in Hr.
Qed.

Lemma normalize_wildcard_pattern pattern value :
  normalize_scope_path_pattern pattern = Ok value -> contains_char "*" value = true ->
  exists base, value = base +:+ "/*" /\ str_take (String.length value - 2) value = base.
Proof.
  unfold normalize_scope_path_pattern. intros H Hw.
  repeat case_if_in H; try done; injection H as <-; [by rewrite Hw in *|].
  apply negb_false_iff, endswith_app in E2 as [base Hb]. rewrite Hb. exists base.
  split; [done|]. rewrite str_length_app.
  replace (String.length base + String.length "/*" - 2)%nat with (String.length base) by (cbn; lia).
  apply str_take_app.
Qed.

Lemma wildcard_in_pattern base : contains_char "*" (base +:+ "/*") = true.
Proof. apply contains_char_true. exists (base +:+ "/"), EmptyString. by rewrite str_app_assoc. Qed.

Lemma split_root path : startswith "/" path = true ->
  exists segs, split_char "/" path = EmptyString :: segs /\ segs <> [].
Proof.
  intros [t ->]%startswith_app. exists (split_char "/" t).
  split; [apply split_char_sep | apply split_char_not_nil].
Qed.

(** [path_matches_scope] decides [pattern_covers] on absolute paths. *)
Lemma path_matches_scope_spec path pattern : startswith "/" path = true ->
  path_matches_scope path pattern = Ok true <-> pattern_covers pattern path.
Proof.
  intros Hroot. unfold path_matches_scope, pattern_covers. rewrite bind_ok.
  split; intros (value & Hn & H); exists value; (split; [done|]).
  - case_if_in H; [apply negb_true_iff in E | apply negb_false_iff in E].
    + left. split; [done|]. by injection H as H%bool_decide_eq_true.
    + right. destruct (normalize_wildcard_pattern _ _ Hn E) as (base & Hv & Ht).
      exists base. split; [done|]. rewrite Ht in H. case_if_in H.
      * destruct base; [|done]. destruct (split_root path Hroot) as (segs & -> & _).
        by exists segs.
      * injection H as H. apply split_char_prefix. apply orb_true_iff in H as [H|H]; [|by right].
        left. by apply bool_decide_eq_true in H.
  - destruct H as [[Hw ->]|(base & Hv & Hp)].
    + rewrite Hw. cbn. by rewrite bool_decide_eq_true_2.
    + assert (Hw : contains_char "*" value = true) by (rewrite Hv; apply wildcard_in_pattern).
      rewrite Hw. cbn. destruct (normalize_wildcard_pattern _ _ Hn Hw) as (base' & Hv' & ->).
      assert (base' = base) as ->.
      { rewrite Hv in Hv'. apply (f_equal (fun v => str_take (String.length v - 2) v)) in Hv'.
        rewrite !str_length_app in Hv'. cbn in Hv'. rewrite !Nat.add_sub, !str_take_app in Hv'. done. }
      case_if; [done|]. f_equal. apply split_char_prefix in Hp as [->|Hp].
      * by rewrite bool_decide_eq_true_2.
      * change "/" with (str1 "/"). rewrite Hp. apply orb_true_r.
Qed.

(** A path whose segments can be compared literally. *)
Definition canonical_path (path : string) : Prop :=
  exists segs, split_char "/" path = EmptyString :: segs /\ segs <> []
    /\ Forall (fun s => is_dot_segment s = false /\ contains_char backslash s = false
                        /\ contains_char (chr 0) s = false) segs
    /\ (forall l1 l2, segs = l1 ++ EmptyString :: l2 -> l2 = []).

Lemma normalize_request_path_canonical url path :
  normalize_request_path url = Ok path -> canonical_path path /\ startswith "/" path = true.
Proof.
  unfold normalize_request_path. destruct (urlsplit url) as [parsed|]; [|done]. cbv zeta.
  generalize (if is_empty (url_path parsed) then "/" else url_path parsed) as raw.
  intros raw H. repeat case_if_in H; try done.
  injection H as H. rewrite H in *. apply negb_false_iff in E4. split; [|done].
  destruct (split_root path E4) as (segs & Hsegs & Hne). exists segs. split; [done|]. split; [done|].
  split.
  - pose proof (split_char_lacks "/" _ _ E0) as Hnul. pose proof (split_char_lacks "/" _ _ E1) as Hbs.
    rewrite Hsegs in *. apply Forall_cons in Hnul as [_ Hnul], Hbs as [_ Hbs].
    rewrite Forall_forall in *. intros s Hs. split; [|split; [by apply Hbs | by apply Hnul]].
    apply not_true_iff_false. intros Hd. apply not_true_iff_false in E3. apply E3.
    apply existsb_exists. exists s. split; [|done]. right. by apply list_elem_of_In.
  - intros l1 l2 ->. by destruct (split_char_no_double _ _ (EmptyString :: l1) l2 E2 Hsegs).
Qed.

(** * Properties *)

(** C3: At an aware time [evaluate] always returns a decision, and the decision allows
    the request exactly when the Target is currently authorized by the bound
    revision, the request is admissible (own origin, allowlisted host, permitted
    method, canonical path) and some active scope contains it. *)
Theorem evaluate_allowed_iff hosts target revision scopes url method t now :
  exists d, evaluate hosts target revision scopes url method (Some (Aware t)) now = Ok d /\
    evaluated_at d = t /\
    (allowed d = true <->
     exists r o m p s, current_authorization target revision t r /\
       admissible_request hosts target r url method o m p /\ s ∈ scopes /\ in_scope o m p s).
Proof.
  destruct (evaluate_cases hosts target revision scopes url method t now)
    as (d & -> & Ht & [(r & o & m & p & s & Hr & Ha & Hs & Hd & _)|(Hd & _ & Hno)]);
    exists d; (split; [done|]); (split; [done|]).
  - split; [|done]. intros _. exists r, o, m, p, s.
    apply find_first_elem in Hs as [Hin Hsc]. by apply scope_matches_true in Hsc.
  - rewrite Hd. split; [done|]. intros (r & o & m & p & s & Hr & Ha & Hin & Hsc).
    by destruct (Hno r o m p Hr Ha s Hin).
Qed.

(** An allowed request has a canonical path (absolute, no dot segment, backslash or
    NUL, no empty segment but the last) and that path is covered, segment by
    segment, by the pattern of the scope named in the decision, which is the first
    scope of the list that contains the request. *)
Theorem evaluate_allowed_confined hosts target revision scopes url method time now d :
  evaluate hosts target revision scopes url method time now = Ok d -> allowed d = true ->
  exists path s, normalize_request_path url = Ok path /\ canonical_path path /\
    s ∈ scopes /\ matched_scope_id d = Some (scope_id s) /\ scope_is_active s = true /\
    pattern_covers (path_pattern s) path.
Proof.
  intros He Hd.
  assert (exists t, evaluate hosts target revision scopes url method (Some (Aware t)) now = Ok d)
    as [t He'].
  { destruct time as [[w|t]|]; [done | by exists t | by exists now]. }
  destruct (evaluate_cases hosts target revision scopes url method t now)
    as (d' & Hd' & _ & [(r & o & m & p & s & Hr & Ha & Hs & _ & _ & Hm)|(Hf & _)]);
    rewrite He' in Hd'; injection Hd' as <-; [|congruence].
  destruct Ha as (_ & _ & _ & _ & _ & _ & Hp).
  destruct (normalize_request_path_canonical _ _ Hp) as [Hc Hroot].
  apply find_first_elem in Hs as [Hin Hsc]. apply scope_matches_true in Hsc as (Hact & _ & _ & Hpm).
  exists p, s. repeat split; try done. by apply path_matches_scope_spec.
Qed.

(** On absolute paths [path_matches_scope] answers true exactly when the pattern is
    well formed and either equals the path or is [base/*] with the segments of
    [base] a prefix of the path's segments: a sibling such as [/apix] is never
    below [/api/*]. *)
Theorem path_matches_scope_iff path pattern : startswith "/" path = true ->
  path_matches_scope path pattern = Ok true <-> pattern_covers pattern path.
Proof. apply path_matches_scope_spec. Qed.

(** Authorization is an interval in time: a request allowed at two instants is
    allowed at every instant between them, under the same rows. *)
Theorem evaluate_window_convex hosts target revision scopes url method t1 t t2 n1 n n2 d1 d2 :
  t1 <= t <= t2 ->
  evaluate hosts target revision scopes url method (Some (Aware t1)) n1 = Ok d1 ->
  evaluate hosts target revision scopes url method (Some (Aware t2)) n2 = Ok d2 ->
  allowed d1 = true -> allowed d2 = true ->
  exists d, evaluate hosts target revision scopes url method (Some (Aware t)) n = Ok d
            /\ allowed d = true /\ matched_scope_id d = matched_scope_id d1.
Proof.
  intros Ht H1 H2 Ha1 Ha2.
  destruct (evaluate_cases hosts target revision scopes url method t1 n1)
    as (d1' & E1 & _ & [(r & o & m & p & s & Hr1 & Hq & Hs & _ & _ & Hm1)|(? & _)]);
    rewrite H1 in E1; injection E1 as <-; [|congruence].
  destruct (evaluate_cases hosts target revision scopes url method t2 n2)
    as (d2' & E2 & _ & [(r2 & o2 & m2 & p2 & s2 & Hr2 & _)|(? & _)]);
    rewrite H2 in E2; injection E2 as <-; [|congruence].
  assert (Hr : current_authorization target revision t r).
  { destruct Hr1 as (-> & He & Hb & Hp & Hl & Hf & Hu & Hau).
    destruct Hr2 as ([= <-] & _ & _ & _ & _ & _ & Hu2 & _).
    repeat split; try done.
    - intros f Hvf. specialize (Hf f Hvf). lia.
    - intros u Hvu. specialize (Hu2 u Hvu). lia. }
  destruct (evaluate_cases hosts target revision scopes url method t n)
    as (d & E & _ & [(r' & o' & m' & p' & s' & Hr' & Hq' & Hs' & Hd & _ & Hm')|(_ & _ & Hno)]).
  - exists d. split; [done|]. split; [done|]. rewrite Hm1, Hm'.
    apply authorization_gate_ok in Hr, Hr'. rewrite Hr in Hr'. injection Hr' as <-.
    apply request_gate_ok in Hq, Hq'. rewrite Hq in Hq'. injection Hq' as <- <- <-.
    rewrite Hs in Hs'. by injection Hs' as <-.
  - exfalso. apply find_first_elem in Hs as [Hin Hsc]. apply scope_matches_true in Hsc.
    by destruct (Hno r o m p Hr Hq s Hin).
Qed.

(** * Witnesses *)

Lemma evaluate_allowed_confined_witness :
  exists path s, normalize_request_path "http://localhost:8000/api/orders/42?x=1" = Ok path /\
    canonical_path path /\ s ∈ [lab_scope] /\ Some 3 = Some (scope_id s) /\
    scope_is_active s = true /\ pattern_covers (path_pattern s) path.
Proof.
  apply (evaluate_allowed_confined ["localhost"] lab_target (Some lab_revision) [lab_scope]
           "http://localhost:8000/api/orders/42?x=1" "get" (Some (Aware 2000)) 0
           (mkDecision true "allowed_by_scope" "Request matches an active scope."
              (Some 7) (Some 11) 2000 (Some 3))); vm_compute; reflexivity.
Defined.

Lemma path_matches_scope_iff_witness :
  startswith "/" "/api/v1" = true /\
  (path_matches_scope "/api/v1" "/api/*" = Ok true <-> pattern_covers "/api/*" "/api/v1").
Proof. split; [reflexivity | apply (path_matches_scope_iff "/api/v1" "/api/*"); reflexivity]. Defined.

Lemma evaluate_window_convex_witness :
  exists d, evaluate ["localhost"] lab_target (Some lab_revision) [lab_scope]
              "http://localhost:8000/api/orders/42" "GET" (Some (Aware 2000)) 0 = Ok d
            /\ allowed d = true /\ matched_scope_id d = Some 3.
Proof.
  apply (evaluate_window_convex ["localhost"] lab_target (Some lab_revision) [lab_scope]
           "http://localhost:8000/api/orders/42" "GET" 1000 2000 8999 0 0 0
           (mkDecision true "allowed_by_scope" "Request matches an active scope."
              (Some 7) (Some 11) 1000 (Some 3))
           (mkDecision true "allowed_by_scope" "Request matches an active scope."
              (Some 7) (Some 11) 8999 (Some 3)));
    first [lia | vm_compute; reflexivity].
Defined.
