(* ===== verification/Destination.v ===== *)
(** Destination policy, src/backend/app/network_safety/destination.py: canonical
    destinations, classification of addresses, and the decision over a resolution.

    The resolver is an argument: what it returns, or that it raised.  The [idna]
    codec of a non-ASCII host name is the argument [idna_encode]; the codec's ASCII
    fast path is modelled. *)

From S2P Require Import Prelude.
From S2P Require Import PyStr.
From S2P Require Import PyIp.
From S2P Require Import PyUrl.

Open Scope Z_scope.

Definition PRIVATE_LOCAL : string := "private_local".
Definition EXTERNAL_PUBLIC_AUTHORIZED : string := "external_public_authorized".
Definition NETWORK_MODES : list string := [PRIVATE_LOCAL; EXTERNAL_PUBLIC_AUTHORIZED].

Inductive AddressCategory : Type :=
| LOOPBACK | PRIVATE | LINK_LOCAL | UNSPECIFIED | MULTICAST | SPECIAL | PUBLIC.
#[export] Instance AddressCategory_eq_dec : EqDecision AddressCategory.
Proof. solve_decision. Defined.

(** [NetworkDestinationError] with its message *)
Inductive destination_error : Type := NetworkDestinationError (message : string).

Record CanonicalDestination := mkDestination {
  dest_scheme : string;
  dest_hostname : string;
  dest_port : Z;
  is_ip_literal : bool;
  dest_ip_address : option ip_address
}.

Record DestinationPolicyDecision := mkDestDecision {
  dest_allowed : bool;
  dest_code : string;
  dest_reason : string;
  dest_mode : string;
  dest_destination : option CanonicalDestination;
  resolved_addresses : list string;
  address_categories : list AddressCategory
}.

(** One resolver result, and the outcome of [resolver.resolve(hostname)]. *)
Inductive raw_address : Type :=
| RawIP (a : ip_address)
| RawText (s : string).
Inductive resolver_outcome : Type :=
| ResolverRaised
| ResolverText (s : string)
| ResolverValues (l : list raw_address).

(** [hostname.encode("idna")]: labels but the last have 1 to 63 bytes, the last at
    most 63. *)
Definition idna_ascii (host : string) : option string :=
  let labels := split_char "." host in
  let inner := take (length labels - 1) labels in
  if forallb (fun l => (0 <? byte_len l) && (byte_len l <? 64)) inner
     && match last labels with Some l => byte_len l <? 64 | None => true end
  then Some host else None.

Definition is_label_char (c : ascii) : bool :=
  is_lower c || is_digit c || bool_decide (c = "-"%char).

Definition bad_label (label : string) : bool :=
  is_empty label || (63 <? byte_len label) || startswith "-" label || endswith "-" label
  || negb (str_forall is_label_char label).

Definition encode_idna (idna_encode : string -> option string) (host : string) : option string :=
  if is_ascii_str host then idna_ascii host else idna_encode host.

Definition parse_canonical_destination (idna_encode : string -> option string) (url : string)
    : result destination_error CanonicalDestination :=
  let fail (msg : string) := Raise (NetworkDestinationError msg) in
  if is_empty url || contains_char backslash url then fail "destination URL is malformed"
  else if str_exists is_space url then fail "destination URL contains whitespace"
  else
    match urlsplit url with
    | None => fail "destination URL is malformed"
    | Some parsed =>
        let sch := lower (scheme parsed) in
        if negb (bool_decide (sch = "http") || bool_decide (sch = "https")) then
          fail "only http and https are supported"
        else if negb (is_none (username parsed)) || negb (is_none (password parsed)) then
          fail "destination userinfo is prohibited"
        else
          host ← require (hostname parsed) (NetworkDestinationError "destination hostname is missing");
          if is_empty host then fail "destination hostname is missing"
          else if contains_char "%" host then fail "scoped IP literals are unsupported"
          else
            explicit_port ← catch (port parsed)
              (fun _ => Raise (NetworkDestinationError "destination port is invalid"));
            let effective_port :=
              match explicit_port with
              | Some p => p
              | None => if bool_decide (sch = "http") then 80 else 443
              end in
            if negb ((1 <=? effective_port) && (effective_port <=? 65535)) then
              fail "destination port is invalid"
            else
              let raw_hostname := lower (rstrip_by (fun c => bool_decide (c = "."%char)) host) in
              if is_empty raw_hostname then fail "destination hostname is missing"
              else
                match parse_ip raw_hostname with
                | Some literal =>
                    Ok (mkDestination sch (compressed literal) effective_port true (Some literal))
                | None =>
                    name ← require (encode_idna idna_encode raw_hostname)
                      (NetworkDestinationError "destination hostname is invalid");
                    if (253 <? byte_len name) || existsb bad_label (split_char "." name) then
                      fail "destination hostname is invalid"
                    else Ok (mkDestination sch name effective_port false None)
                end
    end.

(** [169.254.169.254] *)
Definition METADATA_ADDRESS : Z := octets 169 254 169 254.

Definition classify_unmapped (a : ip_address) : AddressCategory :=
  if bool_decide (a = V4 METADATA_ADDRESS) then LINK_LOCAL
  else if is_loopback a then LOOPBACK
  else if is_link_local a then LINK_LOCAL
  else if is_unspecified a then UNSPECIFIED
  else if is_multicast a then MULTICAST
  else if match a with
          | V4 n => in_net4 10 0 0 0 8 n || in_net4 172 16 0 0 12 n || in_net4 192 168 0 0 16 n
          | V6 n _ => in_net6 64512 0 0 7 n
          end then PRIVATE
  else if is_reserved a then SPECIAL
  else if is_global a then PUBLIC
  else SPECIAL.

(** [classify_address] of a parsed address: the recursive call on the mapped IPv4
    address is the only one, so it is written out. *)
Definition classify_address (a : ip_address) : AddressCategory :=
  match ipv4_mapped a with
  | Some n => classify_unmapped (V4 n)
  | None => classify_unmapped a
  end.

Definition parse_raw (v : raw_address) : result destination_error ip_address :=
  match v with
  | RawIP a => Ok a
  | RawText s => require (parse_ip s) (NetworkDestinationError "resolver result is malformed")
  end.

(** The sort key [(address.version, int(address))] *)
Definition address_leb (a b : ip_address) : bool :=
  (ip_version a <? ip_version b)
  || ((ip_version a =? ip_version b) && (ip_int a <=? ip_int b)).

Fixpoint insert_address (a : ip_address) (l : list ip_address) : list ip_address :=
  match l with
  | [] => [a]
  | b :: l' => if address_leb a b then a :: l else b :: insert_address a l'
  end.
Fixpoint sort_addresses (l : list ip_address) : list ip_address :=
  match l with [] => [] | a :: l' => insert_address a (sort_addresses l') end.

(** [sorted(set(addresses), key=...)]; addresses that differ only in their scope id
    have equal keys and are listed in an unspecified order, here the list's. *)
Definition deduplicate_addresses (l : list ip_address) : list ip_address :=
  sort_addresses (remove_dups l).

Definition canonicalize_resolver_results (values : resolver_outcome)
    : result destination_error (list ip_address) :=
  match values with
  | ResolverRaised => Raise (NetworkDestinationError "DNS resolution failed")
  | ResolverText _ => Raise (NetworkDestinationError "resolver result is malformed")
  | ResolverValues l => parsed ← map_result parse_raw l; Ok (deduplicate_addresses parsed)
  end.

Definition denied (mode code reason : string) (destination : option CanonicalDestination)
    (addresses : list string) (categories : list AddressCategory) : DestinationPolicyDecision :=
  mkDestDecision false code reason mode destination addresses categories.

Definition all_in (allowed : list AddressCategory) (l : list AddressCategory) : bool :=
  forallb (fun c => bool_decide (c ∈ allowed)) l.

Definition evaluate_destination_policy (idna_encode : string -> option string)
    (mode url : string) (resolve : string -> resolver_outcome) : DestinationPolicyDecision :=
  if negb (bool_decide (mode ∈ NETWORK_MODES)) then
    denied mode "network_mode_invalid" "Target network mode is invalid." None [] []
  else
    match parse_canonical_destination idna_encode url with
    | Raise _ => denied mode "destination_invalid" "Destination URL is invalid." None [] []
    | Ok destination =>
        let raw := match dest_ip_address destination with
                   | Some a => ResolverValues [RawIP a]
                   | None => resolve (dest_hostname destination)
                   end in
        match canonicalize_resolver_results raw with
        | Raise _ =>
            denied mode "destination_resolution_failed" "Destination resolution failed closed."
              (Some destination) [] []
        | Ok [] =>
            denied mode "destination_resolution_empty" "Destination resolution returned no addresses."
              (Some destination) [] []
        | Ok addresses =>
            let categories := classify_address <$> addresses in
            let strings := compressed <$> addresses in
            if bool_decide (mode = PRIVATE_LOCAL) then
              if all_in [LOOPBACK; PRIVATE] categories then
                mkDestDecision true "private_destination_allowed"
                  "Resolution contains only loopback or private addresses." mode
                  (Some destination) strings categories
              else denied mode "private_destination_prohibited"
                     "Private/local mode prohibits any public or special address."
                     (Some destination) strings categories
            else if all_in [PUBLIC] categories then
              mkDestDecision true "public_destination_classified"
                "Resolution contains only public/global addresses." mode
                (Some destination) strings categories
            else denied mode "public_destination_prohibited"
                   "External mode classification requires only public addresses."
                   (Some destination) strings categories
        end
    end.

(** * Address ranges *)

Definition local_v4 (n : Z) : Prop :=
  octets 127 0 0 0 <= n <= octets 127 255 255 255
  \/ octets 10 0 0 0 <= n <= octets 10 255 255 255
  \/ octets 172 16 0 0 <= n <= octets 172 31 255 255
  \/ octets 192 168 0 0 <= n <= octets 192 168 255 255.

(** Loopback or private use: RFC 1918, [::1], fc00::/7, and the IPv4-mapped forms. *)
Definition local_address (a : ip_address) : Prop :=
  match ipv4_mapped a, a with
  | Some n, _ | None, V4 n => local_v4 n
  | None, V6 n _ => n = 1 \/ 64512 * 2 ^ 112 <= n < 65024 * 2 ^ 112
  end.

(** Unspecified, link-local (which holds the metadata address), multicast, the
    shared address space 100.64/10 and 240/4. *)
Definition special_v4 (n : Z) : Prop :=
  n = 0 \/ octets 169 254 0 0 <= n <= octets 169 254 255 255
  \/ octets 100 64 0 0 <= n <= octets 100 127 255 255
  \/ octets 224 0 0 0 <= n <= octets 255 255 255 255.
Definition special_address (a : ip_address) : Prop :=
  match ipv4_mapped a, a with
  | Some n, _ | None, V4 n => special_v4 n
  | None, V6 n _ => n = 0 \/ 65152 * 2 ^ 112 <= n < 65216 * 2 ^ 112 \/ 65280 * 2 ^ 112 <= n < 2 ^ 128
  end.

(** The metadata service, in either family. *)
Definition metadata_address (a : ip_address) : Prop :=
  match ipv4_mapped a, a with
  | Some n, _ | None, V4 n => n = METADATA_ADDRESS
  | None, V6 _ _ => False
  end.

(** * Lemmas *)

Ltac split_classify H := repeat case_if_in H; try discriminate H; bool_simpl.

Lemma classify_v4_local n :
  classify_unmapped (V4 n) = LOOPBACK \/ classify_unmapped (V4 n) = PRIVATE <-> local_v4 n.
Proof.
  unfold classify_unmapped, local_v4, is_loopback, is_link_local, is_unspecified, is_multicast,
    is_reserved, METADATA_ADDRESS. cbn [ip_int].
  split.
  - intros [H|H]; split_classify H.
    + net_intervals. lia.
    + repeat (apply orb_true_iff in E4 as [E4|E4]); net_intervals; lia.
  - intros H. assert (Hm : n <> octets 169 254 169 254) by (unfold octets in *; lia).
    rewrite bool_decide_eq_false_2 by congruence.
    case_if; [by left|]. case_if; [net_intervals; lia|].
    case_if; [bool_simpl; unfold octets in *; lia|]. case_if; [net_intervals; lia|].
    case_if; [by right|]. repeat (apply orb_false_iff in E3 as [E3 ?]). net_intervals; lia.
Qed.

Lemma classify_v6_local n s :
  classify_unmapped (V6 n s) = LOOPBACK \/ classify_unmapped (V6 n s) = PRIVATE <->
  n = 1 \/ 64512 * 2 ^ 112 <= n < 65024 * 2 ^ 112.
Proof.
  unfold classify_unmapped, is_loopback, is_link_local, is_unspecified, is_multicast.
  rewrite bool_decide_eq_false_2 by done. cbn [ip_int]. split.
  - intros [H|H]; split_classify H; [by left | right; net_intervals; lia].
  - intros H. case_if; [by left|]. bool_simpl. case_if; [net_intervals; lia|].
    case_if; [bool_simpl; lia|]. case_if; [net_intervals; lia|].
    case_if; [by right|]. net_intervals; lia.
Qed.

(** An address is classified loopback or private exactly when it is local. *)
Lemma classify_local a :
  classify_address a = LOOPBACK \/ classify_address a = PRIVATE <-> local_address a.
Proof.
  unfold classify_address, local_address. destruct (ipv4_mapped a) as [n|] eqn:E.
  - apply classify_v4_local.
  - destruct a as [n|n s]; [apply classify_v4_local | apply classify_v6_local].
Qed.

Lemma classify_v4_public n : classify_unmapped (V4 n) = PUBLIC -> ~ special_v4 n.
Proof.
  unfold classify_unmapped, special_v4, is_loopback, is_link_local, is_unspecified, is_multicast,
    is_reserved, is_global, v4_global. cbn [ip_int]. intros H. split_classify H.
  net_intervals. lia.
Qed.

Lemma classify_public a : classify_address a = PUBLIC -> ~ local_address a /\ ~ special_address a.
Proof.
  intros H. split.
  - intros Hl%classify_local. rewrite H in Hl. by destruct Hl.
  - unfold classify_address, special_address in *.
    destruct (ipv4_mapped a) as [n|]; [by apply classify_v4_public|].
    destruct a as [n|n s]; [by apply classify_v4_public|].
    unfold classify_unmapped, is_loopback, is_link_local, is_unspecified, is_multicast in H.
    rewrite bool_decide_eq_false_2 in H by done. cbn [ip_int] in H.
    split_classify H. net_intervals. lia.
Qed.

Lemma classify_metadata a : metadata_address a -> classify_address a = LINK_LOCAL.
Proof.
  unfold metadata_address, classify_address. destruct (ipv4_mapped a) as [n|].
  - intros ->. done.
  - destruct a as [n|n s]; [by intros -> | done].
Qed.

Lemma all_in_spec allowed l : all_in allowed l = true <-> Forall (fun c => c ∈ allowed) l.
Proof.
  unfold all_in. rewrite Forall_forall, forallb_forall. split.
  - intros H c Hc. apply list_elem_of_In, H in Hc. by apply bool_decide_eq_true in Hc.
  - intros H c Hc. apply bool_decide_eq_true, H. by apply list_elem_of_In.
Qed.

(** The resolution the decision is about: the literal of the URL, or the answer of
    the resolver. *)
Definition resolution (d : CanonicalDestination) (resolve : string -> resolver_outcome)
    : resolver_outcome :=
  match dest_ip_address d with
  | Some a => ResolverValues [RawIP a]
  | None => resolve (dest_hostname d)
  end.

(** The category of every address that the mode admits *)
Definition mode_admits (mode : string) (a : ip_address) : Prop :=
  if bool_decide (mode = PRIVATE_LOCAL) then
    classify_address a = LOOPBACK \/ classify_address a = PRIVATE
  else classify_address a = PUBLIC.

Lemma policy_allowed_inv idna mode url resolve :
  dest_allowed (evaluate_destination_policy idna mode url resolve) = true ->
  mode ∈ NETWORK_MODES /\
  exists d ips, parse_canonical_destination idna url = Ok d /\
    canonicalize_resolver_results (resolution d resolve) = Ok ips /\ ips <> [] /\
    dest_destination (evaluate_destination_policy idna mode url resolve) = Some d /\
    resolved_addresses (evaluate_destination_policy idna mode url resolve) = compressed <$> ips /\
    Forall (mode_admits mode) ips.
Proof.
  unfold evaluate_destination_policy, mode_admits, resolution.
  destruct (bool_decide (mode ∈ NETWORK_MODES)) eqn:Hmode; cbn [negb]; [|done].
  apply bool_decide_eq_true in Hmode. intros H. split; [done|].
  destruct (parse_canonical_destination idna url) as [d|]; [|done]. cbv zeta in *.
  destruct (canonicalize_resolver_results _) as [[|a l]|] eqn:Hc; try done.
  exists d, (a :: l). rewrite Hc.
  destruct (bool_decide (mode = PRIVATE_LOCAL)).
  - destruct (all_in [LOOPBACK; PRIVATE] _) eqn:Hall; [|done].
    apply all_in_spec, Forall_fmap in Hall. repeat split; try done.
    eapply Forall_impl; [exact Hall|]. intros x Hx. cbn in Hx.
    rewrite !elem_of_cons, elem_of_nil in Hx. tauto.
  - destruct (all_in [PUBLIC] _) eqn:Hall; [|done].
    apply all_in_spec, Forall_fmap in Hall. repeat split; try done.
    eapply Forall_impl; [exact Hall|]. intros x Hx. cbn in Hx.
    rewrite !elem_of_cons, elem_of_nil in Hx. tauto.
Qed.

(** What a canonical destination is: an http or https URL with a port in range, whose
    host is an address literal without scope id or a name of clean labels. *)
Lemma parse_canonical_destination_inv idna url d : parse_canonical_destination idna url = Ok d ->
  (dest_scheme d = "http" \/ dest_scheme d = "https") /\ 1 <= dest_port d <= 65535 /\
  exists raw, contains_char "%" raw = false /\
    ((exists lit, parse_ip raw = Some lit /\ dest_hostname d = compressed lit
                  /\ dest_ip_address d = Some lit)
     \/ (dest_ip_address d = None
         /\ existsb bad_label (split_char "." (dest_hostname d)) = false)).
Proof.
  unfold parse_canonical_destination. intros H. repeat (head_if H; [done|]).
  destruct (urlsplit url) as [p|]; [|done]. cbv zeta in H. do 2 (head_if H; [done|]).
  apply require_bind_ok in H as (host & _ & H). do 2 (head_if H; [done|]).
  apply bind_ok in H as (pt & _ & H). do 2 (head_if H; [done|]).
  apply negb_false_iff, orb_prop in E1. apply negb_false_iff in E5. bool_simpl.
  assert (Hs : lower (scheme p) = "http" \/ lower (scheme p) = "https")
    by (destruct E1; bool_simpl; auto).
  assert (Hpct : contains_char "%" (lower (rstrip_by (fun c => bool_decide (c = "."%char)) host)) = false).
  { apply lower_lacks; [done|]. by apply rstrip_lacks. }
  destruct (parse_ip _) as [lit|] eqn:Eip.
  - injection H as <-. cbn. split; [done|]. split; [lia|]. eexists. split; [exact Hpct|]. left. by exists lit.
  - apply require_bind_ok in H as (name & _ & H). head_if H; [done|]. injection H as <-. cbn.
    bool_simpl. split; [done|]. split; [lia|]. eexists. split; [exact Hpct|]. by right.
Qed.

(** ** Order and duplicates of the resolver's answer *)

Lemma address_leb_total a b : address_leb a b = true \/ address_leb b a = true.
Proof. unfold address_leb. destruct a, b; cbn; rewrite ?orb_true_iff, ?Z.leb_le; lia. Qed.

Lemma insert_address_perm a l : insert_address a l ≡ₚ a :: l.
Proof.
  induction l as [|b l IH]; cbn; [done|]. case_if; [done|]. rewrite IH. apply Permutation_swap.
Qed.
Lemma sort_addresses_perm l : sort_addresses l ≡ₚ l.
Proof. induction l as [|a l IH]; cbn; [done|]. by rewrite insert_address_perm, IH. Qed.

Lemma insert_address_sorted a l :
  Sorted (fun x y => address_leb x y = true) l ->
  Sorted (fun x y => address_leb x y = true) (insert_address a l).
Proof.
  induction 1 as [|b l Hs IH Hd]; cbn; [by repeat constructor|].
  case_if; [by repeat constructor|]. constructor; [done|].
  destruct (address_leb_total a b) as [?|Hba]; [congruence|].
  inversion Hd; subst; cbn; [by constructor|]. case_if; by constructor.
Qed.
Lemma sort_addresses_sorted l : Sorted (fun x y => address_leb x y = true) (sort_addresses l).
Proof. induction l; cbn; [constructor | by apply insert_address_sorted]. Qed.

#[export] Instance address_leb_trans : Transitive (fun x y => address_leb x y = true).
Proof.
  intros a b c. unfold address_leb.
  rewrite !orb_true_iff, !andb_true_iff, !Z.ltb_lt, !Z.eqb_eq, !Z.leb_le. lia.
Qed.

Definition scope_free (a : ip_address) : Prop := match a with V6 _ (Some _) => False | _ => True end.

Lemma address_leb_antisymm a b : scope_free a -> scope_free b ->
  address_leb a b = true -> address_leb b a = true -> a = b.
Proof.
  unfold address_leb. rewrite !orb_true_iff, !andb_true_iff, !Z.ltb_lt, !Z.eqb_eq, !Z.leb_le.
  destruct a as [n|n [s|]], b as [m|m [t|]]; cbn; try done; intros _ _ H1 H2; f_equal; lia.
Qed.

Lemma deduplicate_perm l1 l2 :
  (forall a, a ∈ l1 <-> a ∈ l2) -> Forall scope_free l1 ->
  deduplicate_addresses l1 = deduplicate_addresses l2.
Proof.
  intros Hset Hfree. unfold deduplicate_addresses. rewrite Forall_forall in Hfree.
  apply (Sorted_unique_strong (fun x y => address_leb x y = true)).
  - intros x y Hx Hy. rewrite sort_addresses_perm, elem_of_remove_dups in Hx, Hy.
    apply address_leb_antisymm; apply Hfree; [done | by apply Hset].
  - apply sort_addresses_sorted.
  - apply sort_addresses_sorted.
  - rewrite !sort_addresses_perm. apply NoDup_Permutation; try apply NoDup_remove_dups.
    intros a. rewrite !elem_of_remove_dups. apply Hset.
Qed.

Lemma map_parse_raw l : map_result parse_raw (RawIP <$> l) = Ok l.
Proof. apply map_result_ok. induction l; constructor; done. Qed.

(** * Properties *)

(** A destination allowed in private/local mode resolves to at least one address,
    and every address of the resolution is loopback or private use (127/8, 10/8,
    172.16/12, 192.168/16, [::1], fc00::/7 or an IPv4-mapped form of these). *)
Theorem private_mode_only_local idna url resolve :
  dest_allowed (evaluate_destination_policy idna PRIVATE_LOCAL url resolve) = true ->
  exists d ips, parse_canonical_destination idna url = Ok d /\
    canonicalize_resolver_results (resolution d resolve) = Ok ips /\ ips <> [] /\
    resolved_addresses (evaluate_destination_policy idna PRIVATE_LOCAL url resolve)
      = compressed <$> ips /\
    Forall local_address ips.
Proof.
  intros (_ & d & ips & Hd & Hc & Hne & _ & Hr & Hall)%policy_allowed_inv.
  exists d, ips. repeat split; try done. eapply Forall_impl; [exact Hall|].
  intros a. unfold mode_admits. rewrite bool_decide_eq_true_2 by done. apply classify_local.
Qed.

(** In whatever mode, an allowed resolution holds no metadata address
    (169.254.169.254 or its IPv4-mapped form), and in external mode it holds no
    local, link-local, unspecified, multicast, shared or reserved IPv4 address and
    no local, link-local, unspecified or multicast IPv6 address. *)
Theorem allowed_never_metadata idna mode url resolve :
  dest_allowed (evaluate_destination_policy idna mode url resolve) = true ->
  exists d ips, parse_canonical_destination idna url = Ok d /\
    canonicalize_resolver_results (resolution d resolve) = Ok ips /\ ips <> [] /\
    Forall (fun a => ~ metadata_address a) ips /\
    (mode = EXTERNAL_PUBLIC_AUTHORIZED ->
     Forall (fun a => ~ local_address a /\ ~ special_address a) ips).
Proof.
  intros (_ & d & ips & Hd & Hc & Hne & _ & _ & Hall)%policy_allowed_inv.
  exists d, ips. repeat split; try done.
  - eapply Forall_impl; [exact Hall|]. intros a Ha Hm%classify_metadata.
    unfold mode_admits in Ha. rewrite Hm in Ha. case_if_in Ha; naive_solver.
  - intros ->. eapply Forall_impl; [exact Hall|]. intros a. apply classify_public.
Qed.

(** The decision depends only on the set of addresses the resolver returns, not on
    their order or repetition (addresses without scope id): two resolutions with
    the same addresses get the same decision. *)
Theorem decision_order_independent idna mode url resolve1 resolve2 :
  (forall host, exists l1 l2, resolve1 host = ResolverValues (RawIP <$> l1) /\
     resolve2 host = ResolverValues (RawIP <$> l2) /\
     (forall a, a ∈ l1 <-> a ∈ l2) /\ Forall scope_free l1) ->
  evaluate_destination_policy idna mode url resolve1
  = evaluate_destination_policy idna mode url resolve2.
Proof.
  intros H. unfold evaluate_destination_policy.
  destruct (parse_canonical_destination idna url) as [d|]; [|done]. cbv zeta.
  destruct (dest_ip_address d) as [a|]; [done|].
  destruct (H (dest_hostname d)) as (l1 & l2 & -> & -> & Hset & Hfree).
  unfold canonicalize_resolver_results. rewrite !map_parse_raw. cbn.
  by rewrite (deduplicate_perm l1 l2 Hset Hfree).
Qed.

(** * Witnesses *)

Definition sample_resolver (l : list raw_address) (host : string) : resolver_outcome :=
  ResolverValues l.
Definition no_idna (host : string) : option string := None.

Lemma private_mode_only_local_witness :
  exists d ips, parse_canonical_destination no_idna "http://localhost:8000/api" = Ok d /\
    canonicalize_resolver_results
      (resolution d (sample_resolver [RawText "127.0.0.1"; RawText "::1"])) = Ok ips /\
    ips <> [] /\
    resolved_addresses (evaluate_destination_policy no_idna PRIVATE_LOCAL
      "http://localhost:8000/api" (sample_resolver [RawText "127.0.0.1"; RawText "::1"]))
      = compressed <$> ips /\
    Forall local_address ips.
Proof. apply private_mode_only_local. vm_compute. reflexivity. Defined.

Lemma allowed_never_metadata_witness :
  exists d ips, parse_canonical_destination no_idna "https://example.com/" = Ok d /\
    canonicalize_resolver_results
      (resolution d (sample_resolver [RawText "93.184.216.34"])) = Ok ips /\ ips <> [] /\
    Forall (fun a => ~ metadata_address a) ips /\
    (EXTERNAL_PUBLIC_AUTHORIZED = EXTERNAL_PUBLIC_AUTHORIZED ->
     Forall (fun a => ~ local_address a /\ ~ special_address a) ips).
Proof. apply allowed_never_metadata. vm_compute. reflexivity. Defined.

Lemma decision_order_independent_witness :
  evaluate_destination_policy no_idna PRIVATE_LOCAL "http://localhost:8000/api"
    (sample_resolver [RawIP (V4 2130706433); RawIP (V6 1 None)])
  = evaluate_destination_policy no_idna PRIVATE_LOCAL "http://localhost:8000/api"
    (sample_resolver [RawIP (V6 1 None); RawIP (V4 2130706433); RawIP (V6 1 None)]).
Proof.
  apply decision_order_independent. intros host.
  exists [V4 2130706433; V6 1 None], [V6 1 None; V4 2130706433; V6 1 None].
  repeat split; [set_solver | set_solver | repeat constructor].
Defined.
