(* ===== verification/RateLimit.v ===== *)
(** Request rate limits, src/backend/app/executors/rate_limit.py: the in-memory limiter
    over float seconds and the PostgreSQL limiter over shared timestamps. *)

From S2P Require Import Prelude.
From S2P Require Import PyStr.
From S2P Require Import PyFloat.
From S2P Require Import Models.

Open Scope Z_scope.

(** The errors of this module: [RateLimitConfigurationError] and the constructor's
    [ValueError]s carry a message; [math.ceil] and [float] may overflow. *)
Inductive rate_error : Type :=
| RateLimitConfigurationError (message : string)
| RateLimitCoordinationError (message : string)
| RateOverflowError.
#[export] Instance rate_error_eq_dec : EqDecision rate_error.
Proof. solve_decision. Defined.

Definition validate_requests_per_second (value : pynum) (field_name : string)
    : result rate_error float :=
  match finite_positive value with
  | Ok (Some f) => Ok f
  | Ok None =>
      Raise (RateLimitConfigurationError (field_name +:+ " must be finite and greater than zero"))
  | Raise _ => Raise RateOverflowError
  end.

(** [1.0 / min(platform, requested)] *)
Definition minimum_interval (platform requested : float) : float :=
  fdiv f1 (pymin platform requested).

(** * [InMemoryRateLimiter] *)

Record InMemoryRateLimiter := mkLimiter {
  platform_requests_per_second : float;
  last_reserved_at : gmap string float
}.

Definition new_limiter (requests_per_second : pynum) : result rate_error InMemoryRateLimiter :=
  rate ← validate_requests_per_second requests_per_second "requests_per_second";
  Ok (mkLimiter rate ∅).

(** The critical section of [wait] at clock reading [now]: the new state, the delay to
    sleep and the time reserved. *)
Definition reserve (interval : float) (key : string) (now : float) (l : InMemoryRateLimiter)
    : InMemoryRateLimiter * float * float :=
  let last_reserved := default (fsub now interval) (last_reserved_at l !! key) in
  let next_allowed := fadd last_reserved interval in
  let delay := pymax f0 (fsub next_allowed now) in
  let reserved_time := pymax now next_allowed in
  (mkLimiter (platform_requests_per_second l) (<[key := reserved_time]> (last_reserved_at l)),
   delay, reserved_time).

(** [wait]: [Some delay] is the argument of [sleep], [None] no sleep. *)
Definition wait (key : string) (requested : pynum) (now : float) (l : InMemoryRateLimiter)
    : result rate_error (InMemoryRateLimiter * option float) :=
  rate ← validate_requests_per_second requested "requested_requests_per_second";
  let '(l', delay, _) :=
    reserve (minimum_interval (platform_requests_per_second l) rate) key now l in
  Ok (l', if fltb f0 delay then Some delay else None).

(** A sequence of critical sections, in the order the lock admits them. *)
Record request := mkRequest { req_key : string; req_interval : float; req_now : float }.
Fixpoint serve (reqs : list request) (l : InMemoryRateLimiter)
    : InMemoryRateLimiter * list (string * float * float) :=
  match reqs with
  | [] => (l, [])
  | r :: reqs' =>
      let '(l1, _, reserved) := reserve (req_interval r) (req_key r) (req_now r) l in
      let '(l2, log) := serve reqs' l1 in
      (l2, (req_key r, req_interval r, reserved) :: log)
  end.

(** * [PostgresRateLimiter] *)

(** One attempt of a transaction: it fails without effect, it commits but the answer
    is lost, or it commits and answers. *)
Inductive attempt : Type := AttemptFails | AttemptLosesAnswer | AttemptSucceeds.

(** [for _ in range(max_retries): try: return transaction() except: continue]; the
    list gives the fate of each attempt with the clock readings it made. *)
Fixpoint retry {C S R : Type} (stmt : C -> S -> S * R) (env : list (attempt * C)) (s : S)
    : S * option R :=
  match env with
  | [] => (s, None)
  | (AttemptFails, _) :: env' => retry stmt env' s
  | (AttemptLosesAnswer, c) :: env' => retry stmt env' (stmt c s).1
  | (AttemptSucceeds, c) :: _ => let '(s', r) := stmt c s in (s', Some r)
  end.

(** [rate_reservation_states]: key to [next_allowed_at].  [clock_timestamp()] is read
    anew at each occurrence, so a statement has two readings. *)
Abbreviation reservations := (gmap string timestamp).

Definition reserve_stmt (key : string) (interval : Z) (clock : timestamp * timestamp)
    (t : reservations) : reservations * Z :=
  let '(now1, now2) := clock in
  let next := match t !! key with
              | None => now1 + interval
              | Some next_allowed_at => Z.max next_allowed_at now1 + interval
              end in
  (<[key := next]> t, Z.max 0 (next - interval - now2)).

(** The loop of [reserve_delay]: attempts of [_reserve_once], in microseconds. *)
Definition reserve_loop (key : string) (interval : Z)
    (env : list (attempt * (timestamp * timestamp))) (t : reservations)
    : reservations * result rate_error Z :=
  let '(t', r) := retry (reserve_stmt key interval) env t in
  (t', match r with
       | Some delay => Ok delay
       | None => Raise (RateLimitCoordinationError "Shared rate coordination failed.")
       end).

(** [reserve_delay]; [make_interval] is PostgreSQL's function, in microseconds. *)
Definition reserve_delay (make_interval : float -> Z) (platform : float) (key : string) (requested : pynum)
    (env : list (attempt * (timestamp * timestamp))) (t : reservations)
    : reservations * result rate_error Z :=
  match validate_requests_per_second requested "requested_requests_per_second" with
  | Raise e => (t, Raise e)
  | Ok rate => reserve_loop key (make_interval (minimum_interval platform rate)) env t
  end.

(** [PostgresRateLimiter.wait]: [Some delay] is the argument of [sleep]. *)
Definition postgres_wait (make_interval : float -> Z) (platform : float) (key : string) (requested : pynum)
    (env : list (attempt * (timestamp * timestamp))) (t : reservations)
    : reservations * result rate_error (option Z) :=
  let '(t', r) := reserve_delay make_interval platform key requested env t in
  (t', delay ← r; Ok (if 0 <? delay then Some delay else None)).

(** [PostgresRateLimiter.__init__]: the platform's rate, the attempts per call and the
    statement timeout in milliseconds. *)
Record PostgresRateLimiter := mkPostgresLimiter {
  pg_platform_requests_per_second : float;
  max_retries : Z;
  attempt_timeout_milliseconds : Z
}.

Definition new_postgres_limiter (requests_per_second retries attempt_timeout_seconds : pynum)
    : result rate_error PostgresRateLimiter :=
  rate ← validate_requests_per_second requests_per_second "requests_per_second";
  n ← require (match retries with PyInt n => if n <=? 0 then None else Some n | _ => None end)
        (RateLimitConfigurationError "max_retries must be a positive integer");
  match finite_positive attempt_timeout_seconds with
  | Raise _ => Raise RateOverflowError
  | Ok None => Raise (RateLimitConfigurationError "attempt_timeout_seconds must be finite and positive")
  | Ok (Some seconds) =>
      let ms := fmul seconds (float_of_Z 1000) in
      if isfinite ms then Ok (mkPostgresLimiter rate n (Z.max 1 (ceil ms))) else Raise RateOverflowError
  end.

(** The slot that a reservation grants: the caller sleeps until then at least. *)
Definition slot (key : string) (interval : Z) (clock : timestamp * timestamp) (t : reservations) : timestamp :=
  match t !! key with
  | None => clock.1
  | Some next_allowed_at => Z.max next_allowed_at clock.1
  end.

(** A history of committed reservations of one table: key, interval and clock. *)
Fixpoint slots_of (k : string) (history : list (string * Z * (timestamp * timestamp)))
    (t : reservations) : list (timestamp * Z) :=
  match history with
  | [] => []
  | (key, interval, clock) :: rest =>
      let t' := (reserve_stmt key interval clock t).1 in
      if bool_decide (key = k) then (slot key interval clock t, interval) :: slots_of k rest t'
      else slots_of k rest t'
  end.

(** Each slot starts no earlier than the end of the one before it. *)
Fixpoint spaced_from (free : option timestamp) (l : list (timestamp * Z)) : Prop :=
  match l with
  | [] => True
  | (s, i) :: l' =>
      match free with Some f => f <= s | None => True end /\ spaced_from (Some (s + i)) l'
  end.

(** Consecutive reservations of a key in the log of the in-memory limiter. *)
Fixpoint spaced_log (k : string) (last : option float) (log : list (string * float * float)) : Prop :=
  match log with
  | [] => True
  | (key, interval, reserved) :: log' =>
      if bool_decide (key = k) then
        match last with Some r => fltb reserved (fadd r interval) = false | None => True end
        /\ spaced_log k (Some reserved) log'
      else spaced_log k last log'
  end.

(** * Lemmas *)

Lemma reserve_stmt_slot key interval clock t :
  (reserve_stmt key interval clock t).1 = <[key := slot key interval clock t + interval]> t.
Proof. unfold reserve_stmt, slot. destruct clock as [now1 now2]. by destruct (t !! key). Qed.

Lemma slots_spaced k history t :
  spaced_from (t !! k) (slots_of k history t).
Proof.
  revert t. induction history as [|[[key i] clock] rest IH]; intros t; cbn; [done|].
  rewrite reserve_stmt_slot. case_bool_decide as E; cbn [spaced_from].
  - subst key. split.
    + unfold slot. destruct (t !! k); [lia | done].
    + specialize (IH (<[k := slot k i clock t + i]> t)). by rewrite lookup_insert_eq in IH.
  - specialize (IH (<[key := slot key i clock t + i]> t)). by rewrite lookup_insert_ne in IH.
Qed.

Lemma serve_spaced k reqs l : spaced_log k (last_reserved_at l !! k) (serve reqs l).2.
Proof.
  revert l. induction reqs as [|r reqs IH]; intros l; cbn [serve]; [done|]. unfold reserve.
  set (l1 := mkLimiter _ _). specialize (IH l1). destruct (serve reqs l1) as [l2 log]. cbn in *.
  case_bool_decide as E.
  - subst k. rewrite lookup_insert_eq in IH. split; [|done].
    destruct (last_reserved_at l !! req_key r); [|done]. apply pymax_ge_r.
  - by rewrite lookup_insert_ne in IH.
Qed.

Lemma reserve_loop_waits key interval env t t' r :
  reserve_loop key interval env t = (t', r) ->
  match r with
  | Ok delay => 0 <= delay /\ exists t0 now1 now2,
      (AttemptSucceeds, (now1, now2)) ∈ env /\
      slot key interval (now1, now2) t0 <= now2 + delay /\
      t' = <[key := slot key interval (now1, now2) t0 + interval]> t0
  | Raise e => e = RateLimitCoordinationError "Shared rate coordination failed." /\
      Forall (fun a => a.1 <> AttemptSucceeds) env
  end.
Proof.
  unfold reserve_loop. destruct (retry _ env t) as [t1 o] eqn:Hr. intros [= <- <-].
  revert t Hr. induction env as [|[a [now1 now2]] env IH]; intros t Hr; cbn in Hr.
  - by injection Hr as <- <-.
  - assert (Hcons : forall t2, retry (reserve_stmt key interval) env t2 = (t1, o) ->
      a <> AttemptSucceeds ->
      match match o with Some delay => Ok delay | None => Raise (RateLimitCoordinationError "Shared rate coordination failed.") end with
      | Ok delay => 0 <= delay /\ exists t0 n1 n2,
          (AttemptSucceeds, (n1, n2)) ∈ (a, (now1, now2)) :: env /\
          slot key interval (n1, n2) t0 <= n2 + delay /\
          t1 = <[key := slot key interval (n1, n2) t0 + interval]> t0
      | Raise e => e = RateLimitCoordinationError "Shared rate coordination failed." /\
          Forall (fun a => a.1 <> AttemptSucceeds) ((a, (now1, now2)) :: env)
      end).
    { intros t2 H2 Ha. specialize (IH t2 H2). destruct o as [delay|].
      - destruct IH as (? & t0 & n1 & n2 & Hin & ?). split; [done|]. exists t0, n1, n2.
        split; [by right | done].
      - destruct IH as [? Hall]. split; [done|]. by constructor. }
    destruct a; [by apply (Hcons t) | by eapply Hcons |].
    clear Hcons IH. destruct (reserve_stmt key interval (now1, now2) t) as [t2 delay] eqn:Hs.
    injection Hr as <- <-. pose proof (reserve_stmt_slot key interval (now1, now2) t) as H2.
    rewrite Hs in H2. cbn in H2. subst t2.
    unfold reserve_stmt in Hs. injection Hs as _ <-.
    split; [lia|]. exists t, now1, now2. split; [apply list_elem_of_here|].
    unfold slot. cbn [fst]. destruct (t !! key); (split; [lia|]); do 2 f_equal; lia.
Qed.

(** * Properties *)

(** In every sequence of admissions to the in-memory limiter, a reservation for a key
    is never earlier than the previous reservation of that key plus the minimum
    interval in force (float arithmetic), whatever the clock reads; other keys do
    not interfere. *)
Theorem in_memory_spacing k reqs platform :
  spaced_log k None (serve reqs (mkLimiter platform ∅)).2.
Proof.
  pose proof (serve_spaced k reqs (mkLimiter platform ∅)) as H.
  cbn [last_reserved_at] in H. by rewrite lookup_empty in H.
Qed.

(** In every history of committed reservations of the shared table, including those
    whose answer was lost and retried, the slots granted for a key are disjoint: a
    slot starts no earlier than the previous slot of the key plus its interval, for
    any clock readings. *)
Theorem shared_slots_disjoint k history : spaced_from None (slots_of k history ∅).
Proof. pose proof (slots_spaced k history ∅) as H. by rewrite lookup_empty in H. Qed.

(** A successful [reserve_delay] makes the caller wait at least until its slot: for
    the attempt that answered, the second clock reading plus the delay reaches the
    slot, and the row left behind is the end of the slot; a rejected rate leaves the
    table alone; when every attempt failed the call raises the coordination error and
    grants nothing. *)
Theorem reserve_delay_waits make_interval platform key requested env t t' r :
  reserve_delay make_interval platform key requested env t = (t', r) ->
  match validate_requests_per_second requested "requested_requests_per_second" with
  | Raise e => r = Raise e /\ t' = t
  | Ok rate =>
      let interval := make_interval (minimum_interval platform rate) in
      match r with
      | Ok delay => 0 <= delay /\ exists t0 now1 now2,
          (AttemptSucceeds, (now1, now2)) ∈ env /\
          slot key interval (now1, now2) t0 <= now2 + delay /\
          t' = <[key := slot key interval (now1, now2) t0 + interval]> t0
      | Raise e => e = RateLimitCoordinationError "Shared rate coordination failed." /\
          Forall (fun a => a.1 <> AttemptSucceeds) env
      end
  end.
Proof.
  unfold reserve_delay. destruct (validate_requests_per_second _ _) as [rate|e]; [|by intros [= <- <-]].
  cbv zeta. intros H. apply reserve_loop_waits in H. exact H.
Qed.

(** * Witness *)

Definition lab_interval (f : float) : Z := int_of_float (fmul f (float_of_Z 1000000)).

Lemma reserve_delay_waits_witness :
  0 <= 1400000 /\ exists t0 now1 now2,
    (AttemptSucceeds, (now1, now2))
      ∈ [(AttemptLosesAnswer, (100, 100)); (AttemptSucceeds, (500, 600000))] /\
    slot "target:1" 1000000 (now1, now2) t0 <= now2 + 1400000 /\
    {[ "target:1" := 3000000 ]} = <[ "target:1" := slot "target:1" 1000000 (now1, now2) t0 + 1000000]> t0.
Proof.
  apply (reserve_delay_waits lab_interval (float_of_Z 5) "target:1" (PyInt 1)
    [(AttemptLosesAnswer, (100, 100)); (AttemptSucceeds, (500, 600000))]
    {[ "target:1" := 1000000 ]} {[ "target:1" := 3000000 ]} (Ok 1400000)).
  vm_compute; reflexivity.
Defined.
