(* ===== verification/Controller.v ===== *)
(** Network admission: the process-local controller, src/backend/app/network_safety/
    controller.py, and the shared one, network_safety/postgres_controller.py.

    Each is a step function of one thread over the shared state; a system runs any
    number of threads in any interleaving, together with the operators' switches.
    A step is one critical section (a lock, a semaphore call, a SQL statement). *)

From S2P Require Import Prelude.
From S2P Require Import PyStr.
From S2P Require Import PyFloat.

Open Scope Z_scope.

(** [NetworkExecutionDenied], and the errors of the constructors. *)
Inductive network_error : Type :=
| NetworkExecutionDenied (code reason : string)
| ControllerValueError (message : string)
| ControllerOverflowError.
#[export] Instance network_error_eq_dec : EqDecision network_error.
Proof. solve_decision. Defined.

Definition network_global_disabled : network_error :=
  NetworkExecutionDenied "network_global_disabled" "Global network execution is disabled.".
Definition network_target_disabled : network_error :=
  NetworkExecutionDenied "network_target_disabled" "Network execution is disabled for this Target.".
Definition network_concurrency_timeout : network_error :=
  NetworkExecutionDenied "network_concurrency_timeout" "Network concurrency permit wait timed out.".

Definition validate_target_id (target_id : pynum) : result network_error Z :=
  let invalid :=
    Raise (NetworkExecutionDenied "network_target_invalid" "Network Target identifier is invalid.") in
  match target_id with
  | PyInt n => if n <=? 0 then invalid else Ok n
  | _ => invalid
  end.

(** How an admission ended: the body completed or raised, or admission was denied. *)
Inductive admission_outcome : Type :=
| Completed
| BodyRaised
| Denied (e : network_error).
#[export] Instance admission_outcome_eq_dec : EqDecision admission_outcome.
Proof. solve_decision. Defined.

(** * [NetworkExecutionController] *)

Record NetworkExecutionController := mkController {
  maximum_concurrency : Z;
  permit_wait_seconds : float;
  global_enabled : bool;
  disabled_target_ids : gset Z;
  permits : Z
}.

Definition new_controller (maximum : pynum) (wait_seconds : pynum)
    : result network_error NetworkExecutionController :=
  m ← require (match maximum with
               | PyInt n => if n <=? 0 then None else Some n
               | _ => None
               end)
    (ControllerValueError "maximum_concurrency must be a positive integer");
  match finite_positive wait_seconds with
  | Raise _ => Raise ControllerOverflowError
  | Ok None => Raise (ControllerValueError "permit_wait_seconds must be finite and positive")
  | Ok (Some w) => Ok (mkController m w true ∅ m)
  end.

Definition with_switches (g : bool) (d : gset Z) (c : NetworkExecutionController) :=
  mkController (maximum_concurrency c) (permit_wait_seconds c) g d (permits c).
Definition with_permits (p : Z) (c : NetworkExecutionController) :=
  mkController (maximum_concurrency c) (permit_wait_seconds c) (global_enabled c)
    (disabled_target_ids c) p.

Definition disable_global (c : NetworkExecutionController) : NetworkExecutionController :=
  with_switches false (disabled_target_ids c) c.
Definition enable_global (c : NetworkExecutionController) : NetworkExecutionController :=
  with_switches true (disabled_target_ids c) c.
Definition disable_target (target_id : pynum) (c : NetworkExecutionController)
    : result network_error NetworkExecutionController :=
  t ← validate_target_id target_id;
  Ok (with_switches (global_enabled c) ({[ t ]} ∪ disabled_target_ids c) c).
Definition enable_target (target_id : pynum) (c : NetworkExecutionController)
    : result network_error NetworkExecutionController :=
  t ← validate_target_id target_id;
  Ok (with_switches (global_enabled c) (disabled_target_ids c ∖ {[ t ]}) c).

Definition check_enabled (target_id : pynum) (c : NetworkExecutionController)
    : result network_error Z :=
  t ← validate_target_id target_id;
  _ ← guard_or (global_enabled c) network_global_disabled;
  _ ← guard_or (negb (bool_decide (t ∈ disabled_target_ids c))) network_target_disabled;
  Ok t.

(** [threading.BoundedSemaphore]: [acquire] takes a permit when there is one;
    [release] raises [ValueError] when all permits are there already. *)
Definition semaphore_acquire (c : NetworkExecutionController) : option NetworkExecutionController :=
  if 0 <? permits c then Some (with_permits (permits c - 1) c) else None.
Definition semaphore_release (c : NetworkExecutionController) : option NetworkExecutionController :=
  if permits c <? maximum_concurrency c then Some (with_permits (permits c + 1) c) else None.

(** A thread in [admission(target_id)]: before the first check, waiting for a permit,
    in the [try] before the second check, in the body, in the [finally], over. *)
Inductive phase : Type :=
| Requested (target_id : pynum)
| Waiting (target_id : pynum)
| Holding (target_id : pynum)
| Inside (target_id : pynum)
| Unwinding (o : admission_outcome)
| Finished (o : admission_outcome).

(** What the environment decides: whether the body raises. *)
Definition advance (body_raises : bool) (ph : phase) (c : NetworkExecutionController)
    : NetworkExecutionController * phase :=
  match ph with
  | Requested t =>
      match check_enabled t c with
      | Ok _ => (c, Waiting t)
      | Raise e => (c, Finished (Denied e))
      end
  | Waiting t =>
      match semaphore_acquire c with
      | Some c' => (c', Holding t)
      | None => (c, Finished (Denied network_concurrency_timeout))
      end
  | Holding t =>
      match check_enabled t c with
      | Ok _ => (c, Inside t)
      | Raise e => (c, Unwinding (Denied e))
      end
  | Inside t => (c, Unwinding (if body_raises then BodyRaised else Completed))
  | Unwinding o =>
      match semaphore_release c with
      | Some c' => (c', Finished o)
      | None => (c, Finished (Denied (ControllerValueError "Semaphore released too many times")))
      end
  | Finished o => (c, Finished o)
  end.

(** The system: the controller and its threads. A thread arrives, a thread advances,
    or an operator throws a switch; a thread that waits may go on waiting. *)
Inductive step : NetworkExecutionController * list phase -> NetworkExecutionController * list phase -> Prop :=
| step_arrive c ts t : step (c, ts) (c, ts ++ [Requested t])
| step_advance c ts i ph raises : ts !! i = Some ph ->
    step (c, ts) ((advance raises ph c).1, <[i := (advance raises ph c).2]> ts)
| step_global c ts b : step (c, ts) ((if b : bool then enable_global else disable_global) c, ts)
| step_target c ts c' t (b : bool) :
    (if b then enable_target else disable_target) t c = Ok c' -> step (c, ts) (c', ts).

Definition holds_permit (ph : phase) : bool :=
  match ph with Holding _ | Inside _ | Unwinding _ => true | _ => false end.

Definition enabled_for (t : pynum) (c : NetworkExecutionController) : Prop :=
  exists n, t = PyInt n /\ 0 < n /\ global_enabled c = true /\ n ∉ disabled_target_ids c.

(** Moves left before the thread is over. *)
Definition moves_left (ph : phase) : nat :=
  match ph with
  | Requested _ => 5 | Waiting _ => 4 | Holding _ => 3 | Inside _ => 2 | Unwinding _ => 1 | Finished _ => 0
  end%nat.

(** * Lemmas *)

Lemma check_enabled_ok t c n : check_enabled t c = Ok n <->
  t = PyInt n /\ 0 < n /\ global_enabled c = true /\ n ∉ disabled_target_ids c.
Proof.
  unfold check_enabled, validate_target_id. destruct t as [b|k|f|]; cbn; try naive_solver.
  destruct (Z.leb_spec k 0); cbn; [naive_solver lia|].
  rewrite !guard_bind_ok, negb_true_iff, bool_decide_eq_false. naive_solver lia.
Qed.

(** An admission is denied by [NetworkExecutionDenied] and nothing else; in particular
    the semaphore is never released too often. *)
Definition sound_outcome (o : admission_outcome) : Prop :=
  match o with Denied e => exists code reason, e = NetworkExecutionDenied code reason | _ => True end.
Definition sound_phase (ph : phase) : Prop :=
  match ph with Unwinding o | Finished o => sound_outcome o | _ => True end.

Definition permit_invariant (s : NetworkExecutionController * list phase) : Prop :=
  permits s.1 + Z.of_nat (count_if holds_permit s.2) = maximum_concurrency s.1 /\ 0 <= permits s.1
  /\ Forall sound_phase s.2.

Lemma advance_permits raises ph c : 0 <= permits c ->
  (holds_permit ph = true -> permits c < maximum_concurrency c) ->
  let '(c', ph') := advance raises ph c in
  permits c' + (if holds_permit ph' then 1 else 0) = permits c + (if holds_permit ph then 1 else 0)
  /\ maximum_concurrency c' = maximum_concurrency c /\ 0 <= permits c'.
Proof.
  intros H0 Hlt. destruct ph; cbn in *; try (destruct (check_enabled _ c)); cbn; try lia.
  - unfold semaphore_acquire. destruct (0 <? permits c) eqn:E; cbn; bool_simpl; lia.
  - unfold semaphore_release. specialize (Hlt eq_refl).
    destruct (permits c <? maximum_concurrency c) eqn:E; cbn; bool_simpl; lia.
Qed.


Lemma check_enabled_error t c e :
  check_enabled t c = Raise e -> exists code reason, e = NetworkExecutionDenied code reason.
Proof.
  unfold check_enabled, validate_target_id, guard_or.
  destruct t as [b|k|f|]; try destruct (k <=? 0); cbn; try naive_solver.
  destruct (global_enabled c); cbn; [|naive_solver]. case_bool_decide; cbn; naive_solver.
Qed.

Lemma advance_sound raises ph c : (holds_permit ph = true -> permits c < maximum_concurrency c) ->
  sound_phase ph -> sound_phase (advance raises ph c).2.
Proof.
  intros Hlt Hs. destruct ph as [t|t|t|t|o|o]; cbn in *; try done.
  - destruct (check_enabled t c) eqn:E; cbn; [done | by eapply check_enabled_error].
  - unfold semaphore_acquire. case_if; cbn; [done | by do 2 eexists].
  - destruct (check_enabled t c) eqn:E; cbn; [done | by eapply check_enabled_error].
  - by destruct raises.
  - unfold semaphore_release. specialize (Hlt eq_refl).
    destruct (Z.ltb_spec (permits c) (maximum_concurrency c)); cbn; [done | lia].
Qed.

Lemma holder_counted ts i ph : ts !! i = Some ph -> holds_permit ph = true ->
  (0 < count_if holds_permit ts)%nat.
Proof.
  intros Hi Hp. destruct (count_if holds_permit ts) eqn:E; [|lia].
  apply count_if_zero in E. rewrite Forall_lookup in E. specialize (E _ _ Hi). congruence.
Qed.

Lemma permit_invariant_step s s' : step s s' -> permit_invariant s -> permit_invariant s'.
Proof.
  intros Hstep (Hsum & H0 & Hs). destruct Hstep as [c ts t|c ts i ph raises Hi|c ts b|c ts c' t b Hc];
    unfold permit_invariant; cbn [fst snd] in *.
  - rewrite count_if_app. cbn. split; [lia|]. split; [done|].
    apply Forall_app. split; [done|]. by repeat constructor.
  - assert (Hlt : holds_permit ph = true -> permits c < maximum_concurrency c).
    { intros Hp. pose proof (holder_counted ts i ph Hi Hp). lia. }
    pose proof (advance_permits raises ph c H0 Hlt) as H.
    pose proof (Forall_lookup_1 _ _ _ _ Hs Hi) as Hph.
    pose proof (advance_sound raises ph c Hlt Hph) as Hph'.
    destruct (advance raises ph c) as [c' ph'] eqn:E. cbn [fst snd] in *.
    pose proof (count_if_insert holds_permit ts i ph ph' Hi) as Hcount.
    destruct H as (H1 & H2 & H3). split; [|split; [done | by apply Forall_insert]].
    destruct (holds_permit ph), (holds_permit ph'); lia.
  - by destruct b.
  - destruct b; unfold enable_target, disable_target in Hc; apply bind_ok in Hc as (? & _ & [= <-]); done.
Qed.

Lemma permit_invariant_reachable c ts :
  1 <= maximum_concurrency c -> permits c = maximum_concurrency c ->
  rtc step (c, []) ts -> permit_invariant ts /\ maximum_concurrency ts.1 = maximum_concurrency c.
Proof.
  intros Hm Hp H. remember (c, []) as s0 eqn:E. assert (Hi : permit_invariant s0).
  { subst. split; cbn; [lia|]. split; [lia | constructor]. }
  assert (maximum_concurrency s0.1 = maximum_concurrency c) as <- by (by subst).
  clear E Hm Hp. induction H as [s|s1 s2 s3 Hstep _ IH]; [done|].
  destruct (IH (permit_invariant_step _ _ Hstep Hi)) as [H1 H2]. split; [done|]. rewrite H2.
  destruct Hstep as [? ? ?|c' ts' i ph raises Hi'|? ? b|? ? ? ? b Hc]; cbn; try done; [| by destruct b|].
  - destruct ph; cbn; try done; try by destruct (check_enabled _ c').
    + unfold semaphore_acquire. by case_if.
    + unfold semaphore_release. by case_if.
  - destruct b; unfold enable_target, disable_target in Hc; apply bind_ok in Hc as (? & _ & [= <-]); done.
Qed.

Lemma holders_inside ts : (count_if (fun ph => match ph with Inside _ => true | _ => false end) ts
  <= count_if holds_permit ts)%nat.
Proof. induction ts as [|[] ts IH]; cbn; lia. Qed.

(** * Properties of the process-local controller *)

(** For every interleaving of any number of admissions with the operators'
    switches: permits in the semaphore and threads that hold one add up to the
    configured maximum (none is lost or made), so at most that many requests are
    inside the guarded body; every admission that ended did so by completing, by its
    body's exception or by a [NetworkExecutionDenied]; and when none holds a permit,
    all permits are back. *)
Theorem admission_permits maximum wait c c' ts :
  new_controller maximum wait = Ok c -> rtc step (c, []) (c', ts) ->
  permits c' + Z.of_nat (count_if holds_permit ts) = maximum_concurrency c
  /\ Z.of_nat (count_if (fun ph => match ph with Inside _ => true | _ => false end) ts)
     <= maximum_concurrency c
  /\ Forall sound_phase ts
  /\ (Forall (fun ph => holds_permit ph = false) ts -> permits c' = maximum_concurrency c).
Proof.
  intros Hnew Hr. unfold new_controller in Hnew. apply require_bind_ok in Hnew as (m & Hm & Hc).
  assert (1 <= m) by (destruct maximum; try done; case_if_in Hm; naive_solver lia).
  destruct (finite_positive wait) as [[w|]|]; simplify_eq.
  apply permit_invariant_reachable in Hr as [(H1 & H2 & H3) H4]; [|done|done].
  cbn [fst snd maximum_concurrency] in *. pose proof (holders_inside ts).
  repeat split; [lia | lia | done |]. intros Hnone%count_if_zero. lia.
Qed.

(** A thread enters the guarded body only by a check made while it holds a permit,
    which found the global switch on and the Target not disabled; a step of an
    admission that does not enter leaves the two switches alone. *)
Theorem admission_entry_checked raises ph c t :
  (advance raises ph c).2 = Inside t ->
  ph = Holding t /\ enabled_for t c /\ (advance raises ph c).1 = c.
Proof.
  destruct ph as [u|u|u|u|o|o]; cbn; try done.
  - by destruct (check_enabled u c).
  - by destruct (semaphore_acquire c).
  - destruct (check_enabled u c) eqn:E; cbn; [|done]. intros [= ->].
    apply check_enabled_ok in E. split; [done|]. split; [by eexists | done].
  - by destruct (semaphore_release c).
Qed.

(** An admission always ends: whatever the state and the body, each move of a
    thread brings it strictly closer to its end, so after at most five moves it is
    over, and a thread that is over stays so. *)
Theorem admission_terminates raises ph c :
  (moves_left (advance raises ph c).2 <= pred (moves_left ph))%nat
  /\ (moves_left ph = 0%nat -> advance raises ph c = (c, ph)).
Proof.
  destruct ph; cbn; try (destruct (check_enabled _ c)); cbn; try (split; [lia | done]).
  - destruct (semaphore_acquire c); cbn; split; (lia || done).
  - destruct (semaphore_release c); cbn; split; (lia || done).
Qed.

(** * Witnesses *)

(** A schedule of the threads, all bodies completing. *)
Fixpoint run_schedule (schedule : list nat) (st : NetworkExecutionController * list phase)
    : NetworkExecutionController * list phase :=
  match schedule with
  | [] => st
  | i :: rest =>
      match st.2 !! i with
      | Some ph => run_schedule rest ((advance false ph st.1).1, <[i := (advance false ph st.1).2]> st.2)
      | None => run_schedule rest st
      end
  end.

Lemma run_schedule_reachable schedule st : rtc step st (run_schedule schedule st).
Proof.
  revert st. induction schedule as [|i rest IH]; intros [c ts]; cbn; [done|].
  destruct (ts !! i) as [ph|] eqn:E; [|apply IH]. eapply rtc_l; [by apply step_advance | apply IH].
Qed.

Definition lab_controller : NetworkExecutionController := mkController 1 (float_of_Z 5) true ∅ 1.

(** One permit, two threads: one is inside, the other was denied for lack of a permit. *)
Lemma admission_permits_witness :
  permits (with_permits 0 lab_controller)
    + Z.of_nat (count_if holds_permit [Inside (PyInt 1); Finished (Denied network_concurrency_timeout)])
    = maximum_concurrency lab_controller
  /\ Z.of_nat (count_if (fun ph => match ph with Inside _ => true | _ => false end)
       [Inside (PyInt 1); Finished (Denied network_concurrency_timeout)])
     <= maximum_concurrency lab_controller
  /\ Forall sound_phase [Inside (PyInt 1); Finished (Denied network_concurrency_timeout)]
  /\ (Forall (fun ph => holds_permit ph = false)
        [Inside (PyInt 1); Finished (Denied network_concurrency_timeout)] ->
      permits (with_permits 0 lab_controller) = maximum_concurrency lab_controller).
Proof.
  apply (admission_permits (PyInt 1) (PyInt 5)); [vm_compute; reflexivity|].
  eapply rtc_l; [apply (step_arrive _ _ (PyInt 1))|].
  eapply rtc_l; [apply (step_arrive _ _ (PyInt 1))|].
  apply (run_schedule_reachable [0; 1; 0; 1; 0]%nat).
Defined.

Lemma admission_entry_checked_witness :
  Holding (PyInt 1) = Holding (PyInt 1) /\ enabled_for (PyInt 1) lab_controller
  /\ (advance false (Holding (PyInt 1)) lab_controller).1 = lab_controller.
Proof. apply (admission_entry_checked false (Holding (PyInt 1))). vm_compute. reflexivity. Defined.
