(* ===== verification/PgController.v ===== *)
(** The shared admission controller, src/backend/app/network_safety/
    postgres_controller.py: permits are PostgreSQL advisory locks, one per slot.

    A thread of [admission] runs over one database session, which its index names.
    Session-level advisory locks are PostgreSQL's: one session holds a slot, it may
    take it again, and the end of the session frees it. A step is one statement with
    the clock reading and commit that go with it; any statement may fail. *)

From S2P Require Import Prelude.
From S2P Require Import PyStr.
From S2P Require Import PyFloat.
From S2P Require Import Controller.

Open Scope Z_scope.

Definition MAXIMUM_CONCURRENCY_BOUND : Z := 1024.

(** [network_global_control] (row 1, if present), [network_disabled_targets], and the
    advisory locks of the namespace: slot to session. *)
Record coordination_state := mkCoordination {
  network_global_control : option (bool * Z);
  network_disabled_targets : gset Z;
  advisory_locks : gmap Z nat
}.
Definition with_locks (l : gmap Z nat) (s : coordination_state) : coordination_state :=
  mkCoordination (network_global_control s) (network_disabled_targets s) l.

Definition network_coordination_failed : network_error :=
  NetworkExecutionDenied "network_coordination_failed" "Shared network coordination failed.".

(** How the environment treats one step: the statement fails, the commit fails, the
    rollback fails, the deadline is found passed before or after the statement, the
    body raises. *)
Record answer := mkAnswer {
  call_fails : bool;
  commit_fails : bool;
  rollback_fails : bool;
  expired_before : bool;
  expired_after : bool;
  body_raises : bool
}.

(** The exceptions of the two readers: [RuntimeError] becomes a coordination failure. *)
Inductive read_error : Type := InvalidState | ReadDenied (e : network_error).

Definition read_limit (s : coordination_state) : result read_error Z :=
  match network_global_control s with
  | Some (_, maximum) =>
      if (1 <=? maximum) && (maximum <=? MAXIMUM_CONCURRENCY_BOUND) then Ok maximum
      else Raise InvalidState
  | None => Raise InvalidState
  end.

Definition read_enabled_and_limit (t : Z) (s : coordination_state) : result read_error Z :=
  maximum ← read_limit s;
  _ ← guard_or (match network_global_control s with Some (g, _) => g | None => false end)
        (ReadDenied network_global_disabled);
  _ ← guard_or (negb (bool_decide (t ∈ network_disabled_targets s)))
        (ReadDenied network_target_disabled);
  Ok maximum.

Definition coordination_error (e : read_error) : network_error :=
  match e with InvalidState => network_coordination_failed | ReadDenied d => d end.

(** [check_enabled]: on its own connection; every failure but a denial is a
    coordination failure. *)
Definition pg_check_enabled (a : answer) (target_id : pynum) (s : coordination_state)
    : result network_error unit :=
  t ← validate_target_id target_id;
  if call_fails a then Raise network_coordination_failed
  else match read_enabled_and_limit t s with
       | Raise e => Raise (coordination_error e)
       | Ok _ => if commit_fails a then Raise network_coordination_failed else Ok tt
       end.

(** [_execute_write] of the four switches. *)
Definition execute_write (a : answer) (write : coordination_state -> option coordination_state)
    (s : coordination_state) : coordination_state * result network_error unit :=
  if call_fails a then (s, Raise network_coordination_failed)
  else match write s with
       | None => (s, Raise network_coordination_failed)
       | Some s' => if commit_fails a then (s, Raise network_coordination_failed) else (s', Ok tt)
       end.

Definition update_global (enabled : bool) (a : answer) (s : coordination_state) :=
  execute_write a (fun s =>
    '(_, maximum) ← network_global_control s;
    Some (mkCoordination (Some (enabled, maximum)) (network_disabled_targets s) (advisory_locks s))) s.

Definition set_target (disabled : bool) (target_id : pynum) (a : answer) (s : coordination_state)
    : coordination_state * result network_error unit :=
  match validate_target_id target_id with
  | Raise e => (s, Raise e)
  | Ok t =>
      execute_write a (fun s => Some (mkCoordination (network_global_control s)
        (if disabled then {[ t ]} ∪ network_disabled_targets s
         else network_disabled_targets s ∖ {[ t ]}) (advisory_locks s))) s
  end.

(** [pg_try_advisory_lock], [pg_advisory_unlock], and the end of a session. *)
Definition try_lock (me : nat) (slot : Z) (s : coordination_state) : coordination_state * bool :=
  match advisory_locks s !! slot with
  | None => (with_locks (<[slot := me]> (advisory_locks s)) s, true)
  | Some owner => (s, bool_decide (owner = me))
  end.
Definition unlock (me : nat) (slot : Z) (s : coordination_state) : coordination_state * bool :=
  if bool_decide (advisory_locks s !! slot = Some me)
  then (with_locks (delete slot (advisory_locks s)) s, true) else (s, false).
Definition end_session (me : nat) (s : coordination_state) : coordination_state :=
  with_locks (filter (fun kv => kv.2 <> me) (advisory_locks s)) s.

(** A thread in [admission(target_id)]. [Scanning t slot maximum] is about to try
    [slot]; [Locked] holds its slot before the commit; [Verifying] before the second
    check; [Running] is the body; [Leaving] the [finally] block. *)
Inductive pg_phase : Type :=
| Arriving (target_id : pynum)
| Connecting (t : Z)
| Reading (t : Z)
| Scanning (t slot maximum : Z)
| Locked (t slot : Z)
| Verifying (t slot : Z)
| Running (t slot : Z)
| Leaving (slot : Z) (o : admission_outcome)
| Gone (o : admission_outcome).

(** The session is invalidated, then closed: what [finally] still tries has no effect. *)
Definition abandon (me : nat) (s : coordination_state) : coordination_state * pg_phase :=
  (end_session me s, Gone (Denied network_coordination_failed)).

(** A [NetworkExecutionDenied] inside the loop: roll back, then [finally], which
    unlocks the slot if there is one. *)
Definition deny (a : answer) (me : nat) (slot : option Z) (e : network_error)
    (s : coordination_state) : coordination_state * pg_phase :=
  if rollback_fails a then abandon me s
  else (s, match slot with Some l => Leaving l (Denied e) | None => Gone (Denied e) end).

Definition pg_advance (me : nat) (a : answer) (ph : pg_phase) (s : coordination_state)
    : coordination_state * pg_phase :=
  match ph with
  | Arriving target_id =>
      match validate_target_id target_id, pg_check_enabled a target_id s with
      | Ok t, Ok _ => (s, Connecting t)
      | Raise e, _ | _, Raise e => (s, Gone (Denied e))
      end
  | Connecting t =>
      if call_fails a then abandon me s
      else if expired_after a then (s, Gone (Denied network_concurrency_timeout))
      else (s, Reading t)
  | Reading t =>
      if call_fails a then abandon me s
      else match read_limit s with
           | Ok maximum => (s, Scanning t 1 maximum)
           | Raise _ => abandon me s
           end
  | Scanning t slot maximum =>
      if maximum <? slot then
        if commit_fails a then abandon me s
        else if expired_after a then (s, Gone (Denied network_concurrency_timeout))
        else (s, Reading t)
      else if expired_before a then deny a me None network_concurrency_timeout s
      else if call_fails a then abandon me s
      else let '(s', acquired) := try_lock me slot s in
           if expired_after a then
             deny a me (if acquired then Some slot else None) network_concurrency_timeout s'
           else (s', if acquired then Locked t slot else Scanning t (slot + 1) maximum)
  | Locked t slot =>
      if commit_fails a then abandon me s
      else if expired_after a then deny a me (Some slot) network_concurrency_timeout s
      else (s, Verifying t slot)
  | Verifying t slot =>
      if call_fails a then abandon me s
      else match read_enabled_and_limit t s with
           | Raise (ReadDenied e) => (s, Leaving slot (Denied e))
           | Raise InvalidState => abandon me s
           | Ok fresh_maximum =>
               if fresh_maximum <? slot then abandon me s
               else if commit_fails a then abandon me s
               else (s, Running t slot)
           end
  | Running t slot => (s, Leaving slot (if body_raises a then BodyRaised else Completed))
  | Leaving slot o =>
      if call_fails a then (end_session me s, Gone o)
      else let '(s', unlocked) := unlock me slot s in
           if commit_fails a || negb unlocked then (end_session me s', Gone o) else (s', Gone o)
  | Gone o => (s, Gone o)
  end.

(** The system: state and threads; thread [i] runs over session [i]. The operators
    keep the configured maximum at or below [bound] (the table's own CHECK keeps it
    at or below 1024). *)
Inductive pg_step (bound : Z) : coordination_state * list pg_phase -> coordination_state * list pg_phase -> Prop :=
| pg_arrive s ts t : pg_step bound (s, ts) (s, ts ++ [Arriving t])
| pg_move s ts i ph a : ts !! i = Some ph ->
    pg_step bound (s, ts) ((pg_advance i a ph s).1, <[i := (pg_advance i a ph s).2]> ts)
| pg_global s ts enabled a : pg_step bound (s, ts) ((update_global enabled a s).1, ts)
| pg_target s ts disabled t a : pg_step bound (s, ts) ((set_target disabled t a s).1, ts)
| pg_configure s ts control : (forall g m, control = Some (g, m) -> m <= bound) ->
    pg_step bound (s, ts)
      (mkCoordination control (network_disabled_targets s) (advisory_locks s), ts).

(** The slot a thread holds. *)
Definition slot_of (ph : pg_phase) : option Z :=
  match ph with
  | Locked _ l | Verifying _ l | Running _ l | Leaving l _ => Some l
  | _ => None
  end.
Definition running (ph : pg_phase) : bool := match ph with Running _ _ => true | _ => false end.

(** * Lemmas *)

Section invariant.
Variable bound : Z.

Definition phase_ok (ph : pg_phase) : Prop :=
  match ph with
  | Scanning _ slot maximum => 1 <= slot /\ maximum <= bound
  | _ => match slot_of ph with Some l => 1 <= l <= bound | None => True end
  end.

Definition control_ok (s : coordination_state) : Prop :=
  forall g m, network_global_control s = Some (g, m) -> m <= bound.

(** Locks and threads agree: a slot is locked by session [i] exactly when thread [i]
    holds it. *)
Definition agree (locks : gmap Z nat) (held : nat -> option Z) : Prop :=
  forall l i, locks !! l = Some i <-> held i = Some l.

Definition held_by (ts : list pg_phase) (i : nat) : option Z := ts !! i ≫= slot_of.

Definition pg_invariant (st : coordination_state * list pg_phase) : Prop :=
  control_ok st.1 /\ Forall phase_ok st.2 /\ agree (advisory_locks st.1) (held_by st.2).

Lemma agree_take locks held i l : agree locks held -> held i = None -> locks !! l = None ->
  agree (<[l := i]> locks) (fun j => if bool_decide (j = i) then Some l else held j).
Proof.
  unfold agree. intros H Hi Hl k j. rewrite lookup_insert. case_decide as E1; case_bool_decide as E2; subst.
  - naive_solver.
  - split; [naive_solver|]. intros Hj. apply H in Hj. congruence.
  - rewrite H, Hi. naive_solver.
  - apply H.
Qed.

Lemma agree_drop locks held i l : agree locks held -> held i = Some l ->
  agree (delete l locks) (fun j => if bool_decide (j = i) then None else held j).
Proof.
  unfold agree. intros H Hi k j. rewrite lookup_delete_Some. case_bool_decide as E; subst.
  - split; [|done]. intros [Hk Hj]. apply H in Hj. congruence.
  - rewrite H. split; [by intros [] | intros Hj; split; [|done]].
    intros <-. apply H in Hj, Hi. congruence.
Qed.

Lemma agree_end locks held i : agree locks held ->
  agree (filter (fun kv => kv.2 <> i) locks) (fun j => if bool_decide (j = i) then None else held j).
Proof.
  unfold agree. intros H k j. rewrite map_lookup_filter_Some. cbn. rewrite H. case_bool_decide; naive_solver.
Qed.

Lemma agree_ext locks held held' : agree locks held -> (forall j, held j = held' j) -> agree locks held'.
Proof. intros H E l i. rewrite <- E. apply (H l i). Qed.

Lemma held_insert ts i ph ph' j : ts !! i = Some ph ->
  held_by (<[i := ph']> ts) j = if bool_decide (j = i) then slot_of ph' else held_by ts j.
Proof.
  intros Hi. unfold held_by. case_bool_decide as E.
  - subst. rewrite list_lookup_insert_eq; [done|]. by eapply lookup_lt_Some.
  - by rewrite list_lookup_insert_ne.
Qed.

Lemma read_limit_ok s m : control_ok s -> read_limit s = Ok m -> 1 <= m <= bound.
Proof.
  unfold read_limit, control_ok. destruct (network_global_control s) as [[g k]|] eqn:E; [|done].
  intros H. case_if; [|done]. intros [= <-]. bool_simpl. specialize (H g k eq_refl). lia.
Qed.

(** What one move does to the thread's slot and to the locks. *)
Definition move_ok (i : nat) (ph : pg_phase) (s : coordination_state)
    (r : coordination_state * pg_phase) : Prop :=
  network_global_control r.1 = network_global_control s /\ phase_ok r.2 /\
  (forall held, agree (advisory_locks s) held -> held i = slot_of ph ->
   agree (advisory_locks r.1) (fun j => if bool_decide (j = i) then slot_of r.2 else held j)).

Lemma move_same i ph s ph' : phase_ok ph' -> slot_of ph' = slot_of ph -> move_ok i ph s (s, ph').
Proof.
  intros Hok Hs. split; [done|]. split; [done|]. intros held H Hi. eapply agree_ext; [exact H|].
  intros j. case_bool_decide; [|done]. subst. by rewrite Hi.
Qed.

Lemma move_end i ph s ph' : slot_of ph' = None -> phase_ok ph' -> move_ok i ph s (end_session i s, ph').
Proof.
  intros Hs Hok. split; [done|]. split; [done|]. intros held H Hi. cbn. rewrite Hs. by apply agree_end.
Qed.

Lemma move_abandon i ph s : move_ok i ph s (abandon i s).
Proof. by apply move_end. Qed.

Lemma move_take i ph s l ph' : slot_of ph = None -> slot_of ph' = Some l -> phase_ok ph' ->
  advisory_locks s !! l = None -> move_ok i ph s (with_locks (<[l := i]> (advisory_locks s)) s, ph').
Proof.
  intros H1 H2 Hok Hl. split; [done|]. split; [done|]. intros held H Hi. cbn. rewrite H2.
  apply agree_take; [done | congruence | done].
Qed.

Lemma deny_ok a i ph l e s : slot_of ph = l -> (forall k, l = Some k -> 1 <= k <= bound) ->
  move_ok i ph s (deny a i l e s).
Proof.
  intros Hl Hb. unfold deny. case_if; [apply move_abandon|].
  apply move_same; destruct l; cbn; auto.
Qed.

Lemma pg_advance_ok a i ph s : control_ok s -> phase_ok ph -> move_ok i ph s (pg_advance i a ph s).
Proof.
  intros Hc Hok.
  destruct ph as [t|t|t|t l m|t l|t l|t l|l o|o]; cbn [pg_advance phase_ok slot_of] in *.
  - destruct (validate_target_id t); [|by apply move_same].
    destruct (pg_check_enabled a t s); by apply move_same.
  - case_if; [apply move_abandon|]. case_if; by apply move_same.
  - case_if; [apply move_abandon|]. destruct (read_limit s) as [m|] eqn:Er; [|apply move_abandon].
    apply read_limit_ok in Er; [|done]. apply move_same; cbn; [lia|done].
  - destruct (m <? l) eqn:E1; bool_simpl.
    { case_if; [apply move_abandon|]. case_if; by apply move_same. }
    case_if; [by apply deny_ok|]. case_if; [apply move_abandon|]. unfold try_lock.
    destruct (advisory_locks s !! l) as [owner|] eqn:El.
    + case_bool_decide as Eo.
      * subst. unfold deny. split; [by repeat case_if|]. split; [repeat case_if; cbn; try done; lia|].
        intros held H Hi. apply H in El. cbn in Hi. congruence.
      * case_if; [by apply deny_ok|]. apply move_same; cbn; [lia|done].
    + case_if; [|apply move_take; cbn; [done..|lia|done]].
      unfold deny. case_if; [|apply move_take; cbn; [done..|lia|done]].
      split; [done|]. split; [done|]. intros held H Hi. cbn in *.
      eapply agree_ext; [apply agree_end; by apply agree_take|].
      intros j. by repeat case_bool_decide.
  - case_if; [apply move_abandon|]. case_if; [apply deny_ok; [done|]; naive_solver|]. by apply move_same.
  - case_if; [apply move_abandon|]. destruct (read_enabled_and_limit t s) as [m|[|e]].
    + case_if; [apply move_abandon|]. case_if; [apply move_abandon|]. by apply move_same.
    + apply move_abandon.
    + by apply move_same.
  - by apply move_same.
  - case_if; [by apply move_end|]. unfold unlock. case_bool_decide as El; cbn [negb orb].
    + split; [by repeat case_if|]. split; [by repeat case_if|]. intros held H Hi. cbn in Hi.
      pose proof (agree_drop _ _ _ _ H Hi) as Hd. rewrite orb_false_r. case_if; cbn [fst snd slot_of].
      * eapply agree_ext; [by apply agree_end|]. intros j. by repeat case_bool_decide.
      * done.
    + rewrite orb_true_r. by apply move_end.
  - by apply move_same.
Qed.

Lemma pg_invariant_step st st' : pg_step bound st st' -> pg_invariant st -> pg_invariant st'.
Proof.
  intros Hstep (Hc & Hok & Hag).
  destruct Hstep as [s ts t|s ts i ph a Hi|s ts enabled a|s ts disabled t a|s ts control Hm];
    unfold pg_invariant; cbn [fst snd] in *.
  - split; [done|]. split; [apply Forall_app; split; [done | by repeat constructor]|].
    eapply agree_ext; [exact Hag|]. intros j. unfold held_by.
    destruct (decide (j < length ts)%nat); [by rewrite lookup_app_l|].
    rewrite lookup_ge_None_2, lookup_app_r by lia. by destruct (j - length ts)%nat as [|[]].
  - destruct (pg_advance_ok a i ph s Hc (Forall_lookup_1 _ _ _ _ Hok Hi)) as (H1 & H2 & H3).
    split; [unfold control_ok; rewrite H1; exact Hc|]. split; [by apply Forall_insert|].
    eapply agree_ext; [apply H3; [exact Hag | unfold held_by; by rewrite Hi]|].
    intros j. by erewrite held_insert.
  - unfold update_global, execute_write. destruct s as [[[g m]|] d lk]; cbn in *; repeat case_if; cbn;
      (split; [|done]); unfold control_ok in *; cbn in *; naive_solver.
  - unfold set_target, execute_write. destruct (validate_target_id t); [|done].
    by repeat case_if.
  - split; [|done]. exact Hm.
Qed.

Lemma pg_invariant_reachable s st : control_ok s -> advisory_locks s = ∅ ->
  rtc (pg_step bound) (s, []) st -> pg_invariant st.
Proof.
  intros Hc Hl H. assert (Hi : pg_invariant (s, [])).
  { split; [done|]. split; [constructor|]. cbn. rewrite Hl. intros l i. rewrite lookup_empty.
    by destruct i. }
  remember (s, []) as s0. clear Heqs0. induction H; [done|]. eauto using pg_invariant_step.
Qed.
End invariant.
#[export] Hint Resolve move_same move_end move_abandon : platform.

(** At most [n] threads hold distinct slots of [1..n]. *)
Lemma omap_NoDup {A B} (f : A -> option B) l :
  (forall i j b, l !! i ≫= f = Some b -> l !! j ≫= f = Some b -> i = j) -> NoDup (omap f l).
Proof.
  induction l as [|x l IH]; intros H; [constructor|].
  assert (Hl : NoDup (omap f l)).
  { apply IH. intros i j b Hi Hj. by injection (H (S i) (S j) b Hi Hj). }
  cbn. destruct (f x) as [b|] eqn:E; [|done]. constructor; [|done].
  rewrite list_elem_of_omap. intros (y & Hy & Eb). apply list_elem_of_lookup in Hy as [j Hj].
  assert (Hj' : l !! j ≫= f = Some b) by (by rewrite Hj). discriminate (H 0%nat (S j) b E Hj').
Qed.

Lemma count_running ts : (count_if running ts <= length (omap slot_of ts))%nat.
Proof. induction ts as [|[] ts IH]; cbn; lia. Qed.

Lemma slots_bounded n (l : list Z) : NoDup l -> Forall (fun k => 1 <= k <= n) l -> Z.of_nat (length l) <= Z.max 0 n.
Proof.
  intros Hnd Hall. assert (Hsub : l ⊆+ seqZ 1 n).
  { apply NoDup_submseteq; [done|]. intros k Hk. rewrite Forall_forall in Hall.
    apply elem_of_seqZ. specialize (Hall k Hk). lia. }
  apply submseteq_length in Hsub. rewrite length_seqZ in Hsub. lia.
Qed.

Lemma omap_slots bound ts : Forall (phase_ok bound) ts -> Forall (fun k => 1 <= k <= bound) (omap slot_of ts).
Proof.
  intros H. apply Forall_forall. intros k. rewrite list_elem_of_omap. intros (ph & Hph & Hk).
  rewrite Forall_forall in H. specialize (H ph Hph). by destruct ph; cbn in *; simplify_eq.
Qed.

(** * Properties of the shared controller *)

(** C38: Across all processes, with any interleaving, any failures of statements,
    commits and rollbacks, and the operators changing the switches and the limit
    (never above [bound]) while requests run: two admissions never hold the same
    slot, slots lie in [1..bound], so at most [bound] requests run in the guarded
    body; a slot is locked in the database exactly while an admission holds it, so
    when none is left, no lock is. *)
Theorem shared_admission_bounded bound s ts s' :
  (forall g m, network_global_control s = Some (g, m) -> m <= bound) ->
  advisory_locks s = ∅ -> rtc (pg_step bound) (s, []) (s', ts) ->
  NoDup (omap slot_of ts)
  /\ Forall (fun l => 1 <= l <= bound) (omap slot_of ts)
  /\ Z.of_nat (count_if running ts) <= Z.max 0 bound
  /\ (forall l i, advisory_locks s' !! l = Some i <-> ts !! i ≫= slot_of = Some l)
  /\ (Forall (fun ph => slot_of ph = None) ts -> advisory_locks s' = ∅).
Proof.
  intros Hc Hl Hr. apply pg_invariant_reachable in Hr as (_ & Hok & Hag); [|done..]. cbn in *.
  assert (Hnd : NoDup (omap slot_of ts)).
  { apply omap_NoDup. intros i j b Hi Hj. apply Hag in Hi, Hj. congruence. }
  pose proof (omap_slots _ _ Hok) as Hsl. split; [done|]. split; [done|].
  split; [pose proof (slots_bounded bound _ Hnd Hsl); pose proof (count_running ts); lia|].
  split; [exact Hag|]. intros Hnone. apply map_empty. intros l.
  destruct (advisory_locks s' !! l) as [i|] eqn:E; [|done]. apply Hag in E. unfold held_by in E.
  destruct (ts !! i) as [ph|] eqn:Ei; [|done]. cbn in E.
  pose proof (Forall_lookup_1 _ _ _ _ Hnone Ei). cbn in *. congruence.
Qed.

(** An admission enters the guarded body only by a statement that, while it holds
    its slot, read a valid configuration row with the global switch on, the Target not
    disabled, and the slot within the limit then in force. *)
Theorem shared_entry_checked me a ph s t slot :
  (pg_advance me a ph s).2 = Running t slot ->
  ph = Verifying t slot /\ exists m, network_global_control s = Some (true, m) /\
    1 <= m <= MAXIMUM_CONCURRENCY_BOUND /\ slot <= m /\ t ∉ network_disabled_targets s.
Proof.
  intros H. destruct ph as [u|u|u|u l m|u l|u l|u l|l o|o]; cbn in H; unfold deny, abandon, try_lock, unlock in H;
    try by repeat (case_match; try done).
  destruct (call_fails a); [done|]. unfold read_enabled_and_limit, read_limit in H.
  destruct (network_global_control s) as [[g m]|] eqn:E; [|done].
  destruct ((1 <=? m) && (m <=? MAXIMUM_CONCURRENCY_BOUND)) eqn:Eb; [|done]. cbn in H.
  destruct g; [|done]. cbn in H. case_bool_decide; [done|]. cbn in H.
  destruct (m <? l) eqn:El; [done|]. destruct (commit_fails a); [done|]. injection H as <- <-.
  bool_simpl. split; [done|]. exists m. done.
Qed.

(** * Witnesses *)

Definition lab_coordination : coordination_state := mkCoordination (Some (true, 2)) ∅ ∅.
Definition calm : answer := mkAnswer false false false false false false.

(** A schedule: which thread moves next, and what it meets. *)
Fixpoint drive (schedule : list (nat * answer)) (st : coordination_state * list pg_phase)
    : coordination_state * list pg_phase :=
  match schedule with
  | [] => st
  | (i, a) :: rest =>
      match st.2 !! i with
      | Some ph => drive rest ((pg_advance i a ph st.1).1, <[i := (pg_advance i a ph st.1).2]> st.2)
      | None => drive rest st
      end
  end.

Lemma drive_reachable bound schedule st : rtc (pg_step bound) st (drive schedule st).
Proof.
  revert st. induction schedule as [|[i a] rest IH]; intros [s ts]; cbn; [done|].
  destruct (ts !! i) as [ph|] eqn:E; [|apply IH]. eapply rtc_l; [by apply pg_move | apply IH].
Qed.

(** Two admissions interleaved: the second finds slot 1 taken and takes slot 2. *)
Definition lab_schedule : list (nat * answer) :=
  (fun i => (i, calm)) <$> [0; 1; 0; 1; 0; 0; 1; 1; 0; 1; 1; 0; 1]%nat.
Definition lab_locks : gmap Z nat := {[ 1 := 0%nat; 2 := 1%nat ]}.

Lemma shared_admission_bounded_witness :
  NoDup (omap slot_of [Running 1 1; Running 1 2])
  /\ Forall (fun l => 1 <= l <= 2) (omap slot_of [Running 1 1; Running 1 2])
  /\ Z.of_nat (count_if running [Running 1 1; Running 1 2]) <= Z.max 0 2
  /\ (forall l i, advisory_locks (with_locks lab_locks lab_coordination) !! l = Some i
        <-> [Running 1 1; Running 1 2] !! i ≫= slot_of = Some l)
  /\ (Forall (fun ph => slot_of ph = None) [Running 1 1; Running 1 2] ->
        advisory_locks (with_locks lab_locks lab_coordination) = ∅).
Proof.
  apply (shared_admission_bounded 2 lab_coordination).
  - intros g m [= <- <-]. lia.
  - reflexivity.
  - eapply rtc_l; [apply (pg_arrive _ _ _ (PyInt 1))|].
    eapply rtc_l; [apply (pg_arrive _ _ _ (PyInt 1))|]. apply (drive_reachable 2 lab_schedule).
Defined.

Lemma shared_entry_checked_witness :
  Verifying 1 2 = Verifying 1 2 /\ exists m, network_global_control lab_coordination = Some (true, m) /\
    1 <= m <= MAXIMUM_CONCURRENCY_BOUND /\ 2 <= m /\ 1 ∉ network_disabled_targets lab_coordination.
Proof. apply (shared_entry_checked 0 calm). vm_compute. reflexivity. Defined.
