(* ===== verification/Gateway.v ===== *)
(** The network gateway, src/backend/app/network_safety/gateway.py: one admitted request
    to one approved address.

    [httpcore] is not part of the program: the gateway hands it a network backend and
    consumes its response. It is an interactive program [exchange] that may ask the
    backend to connect, any number of times, and then responds or raises; the
    theorems hold for every such program. The connector is an argument. *)

From S2P Require Import Prelude.
From S2P Require Import PyStr.
From S2P Require Import PyIp.
From S2P Require Import PyUrl.
From S2P Require Import PyFloat.
From S2P Require Import Destination.
From S2P Require Import Controller.

Open Scope Z_scope.

Definition DEFAULT_TIMEOUT_SECONDS : float := float_of_Z 5.
Definition DEFAULT_MAX_RESPONSE_BYTES : Z := 1000000.

(** [NetworkGatewayError], and what else may leave the gateway. *)
Inductive gateway_error : Type :=
| NetworkGatewayError (code reason : string)
| GatewayValueError
| GatewayUnicodeError.
#[export] Instance gateway_error_eq_dec : EqDecision gateway_error.
Proof. solve_decision. Defined.

Definition destination_connect_failed (reason : string) : gateway_error :=
  NetworkGatewayError "destination_connect_failed" reason.
Definition network_request_failed (reason : string) : gateway_error :=
  NetworkGatewayError "network_request_failed" reason.

Record NetworkGatewayResult := mkGatewayResult {
  status_code : Z;
  gateway_body : string;
  gateway_duration_ms : Z;
  gateway_destination : CanonicalDestination;
  selected_ip : string;
  peer_ip : string;
  content_encoding : option string;
  content_type : option string
}.

(** * Request headers *)

Definition HEADER_NAME_CHARACTERS (c : ascii) : bool :=
  is_alnum c || contains_char c "!#$%&'*+-.^_`|~".

(** [value.encode("latin-1")] of the code points up to 255 of UTF-8 text; [None] when a
    code point is above 255. *)
Fixpoint latin1 (s : string) : option string :=
  match s with
  | EmptyString => Some EmptyString
  | String c s' =>
      if is_ascii c then String c <$> latin1 s'
      else match s' with
           | String d s'' =>
               if ((ord c =? 194) || (ord c =? 195)) && between 128 191 d then
                 String (chr ((ord c - 192) * 64 + (ord d - 128))) <$> latin1 s''
               else None
           | EmptyString => None
           end
  end.

Definition bad_value_char (c : ascii) : bool :=
  ((ord c <? 32) && negb (ord c =? 9)) || (ord c =? 127).

Definition invalid_headers : gateway_error := network_request_failed "Request headers are invalid.".

Definition host_value (d : CanonicalDestination) : string :=
  let default_port := if bool_decide (dest_scheme d = "http") then 80 else 443 in
  let host := if contains_char ":" (dest_hostname d)
              then "[" +:+ dest_hostname d +:+ "]" else dest_hostname d in
  if dest_port d =? default_port then host else host +:+ ":" +:+ str_of_Z (dest_port d).

Fixpoint build_custom_headers (headers : list (string * string))
    : result gateway_error (list (string * string)) :=
  match headers with
  | [] => Ok []
  | (name, value) :: rest =>
      if is_empty name || str_exists (fun c => negb (HEADER_NAME_CHARACTERS c)) name
         || str_exists bad_value_char value then Raise invalid_headers
      else
        match latin1 value with
        | None => Raise invalid_headers
        | Some encoded =>
            others ← build_custom_headers rest;
            Ok (if bool_decide (lower name = "host") then others else (name, encoded) :: others)
        end
  end.

Definition build_headers (headers : list (string * string)) (d : CanonicalDestination)
    : result gateway_error (list (string * string)) :=
  custom ← build_custom_headers headers;
  if is_ascii_str (host_value d) then Ok (custom ++ [("Host", host_value d)])
  else Raise GatewayUnicodeError.

(** * The response *)

Definition header_value (headers : list (string * string)) (field : string) : option string :=
  match filter (fun h => lower h.1 = field) headers with
  | [] => None
  | values => Some (join "," (snd <$> values))
  end.

(** What [httpcore] may raise; any exception but a gateway error and a timeout is
    treated alike. *)
Inductive transport_error : Type :=
| TransportGateway (e : gateway_error)
| TransportTimeout
| TransportOther.

(** [_read_bounded]: the chunks arrive one at a time, and the iterator may raise after
    the last. *)
Fixpoint read_bounded (total : Z) (chunks : list string) (after : option transport_error) (maximum : Z)
    : result transport_error string :=
  match chunks with
  | [] => match after with None => Ok EmptyString | Some e => Raise e end
  | chunk :: rest =>
      let total := total + byte_len chunk in
      if maximum <? total then
        Raise (TransportGateway (NetworkGatewayError "response_too_large"
          "Network response exceeded the allowed size."))
      else
        body ← read_bounded total rest after maximum;
        Ok (chunk +:+ body)
  end.

(** * The peer *)

(** [stream.get_extra_info("server_addr")]: the first item of a non-empty tuple. *)
Definition extract_peer_ip (server_address : option string) : result gateway_error ip_address :=
  let unavailable :=
    NetworkGatewayError "destination_peer_unavailable" "Connected peer address was unavailable." in
  text ← require server_address unavailable;
  require (parse_ip text) unavailable.

Definition normalized_ip (a : ip_address) : ip_address :=
  match ipv4_mapped a with Some n => V4 n | None => a end.

Definition validate_peer (selected peer : ip_address) (mode : string) : result gateway_error unit :=
  let category := classify_address (normalized_ip peer) in
  _ ← guard_or (if bool_decide (mode = PRIVATE_LOCAL)
                then bool_decide (category = LOOPBACK) || bool_decide (category = PRIVATE)
                else bool_decide (mode = EXTERNAL_PUBLIC_AUTHORIZED) && bool_decide (category = PUBLIC))
        (NetworkGatewayError "destination_peer_prohibited"
          "Connected peer is prohibited by network mode policy.");
  guard_or (bool_decide (normalized_ip peer = normalized_ip selected))
    (NetworkGatewayError "destination_peer_mismatch"
      "Connected peer did not match the approved destination.").

(** * The backend *)

(** What the connector does with an address and a port. *)
Inductive connect_outcome : Type :=
| ConnectRaisesGateway (e : gateway_error)
| ConnectRaises
| Connected (server_address : option string).

Record backend := mkBackend {
  logical_hostname : string;
  selected_address : ip_address;
  backend_mode : string;
  (* the controller's answer to [check_enabled] at each connection attempt *)
  enabled_now : nat -> result network_error unit;
  connector : nat -> ip_address -> Z -> connect_outcome
}.

(** The backend's mutable part: the peer; and, to state what happened, the number of
    switch checks made, the connections asked of the connector (the newest first), and
    the peers of the streams handed to [httpcore]. *)
Record backend_state := mkBackendState {
  checks_made : nat;
  peer : option ip_address;
  dialled : list (ip_address * Z);
  handed_over : list ip_address
}.

(** [_check_network_enabled] *)
Definition check_network_enabled (answer : result network_error unit) : result gateway_error unit :=
  catch answer (fun e => match e with
                         | NetworkExecutionDenied code reason => Raise (NetworkGatewayError code reason)
                         | _ => Raise GatewayValueError
                         end).

(** [_BoundNetworkBackend.connect_tcp] *)
Definition connect_tcp (b : backend) (host : string) (port : Z) (local_address : option string)
    (st : backend_state) : backend_state * result gateway_error unit :=
  if negb (bool_decide (host = logical_hostname b)) || negb (is_none local_address) then
    (st, Raise (destination_connect_failed "Gateway connection binding was rejected."))
  else
    let n := S (checks_made st) in
    match check_network_enabled (enabled_now b (checks_made st)) with
    | Raise e => (mkBackendState n (peer st) (dialled st) (handed_over st), Raise e)
    | Ok _ =>
        let st1 := mkBackendState n (peer st) ((selected_address b, port) :: dialled st) (handed_over st) in
        match connector b (checks_made st) (selected_address b) port with
        | ConnectRaisesGateway e => (st1, Raise e)
        | ConnectRaises =>
            (st1, Raise (destination_connect_failed "Connection to the approved destination failed."))
        | Connected server_address =>
            match (p ← extract_peer_ip server_address;
                   _ ← validate_peer (selected_address b) p (backend_mode b); Ok p) with
            | Raise e => (st1, Raise e)
            | Ok p => (mkBackendState n (Some p) (dialled st1) (p :: handed_over st), Ok tt)
            end
        end
    end.

(** [connect_unix_socket] *)
Definition connect_unix_socket : result gateway_error unit :=
  Raise (destination_connect_failed "Unix socket connections are not supported.").

(** A run of [httpcore] over the backend. *)
Inductive exchange : Type :=
| AskTcp (host : string) (port : Z) (local_address : option string)
    (k : result gateway_error unit -> exchange)
| AskUnix (k : result gateway_error unit -> exchange)
| Respond (status : Z) (headers : list (string * string)) (chunks : list string)
    (after : option transport_error)
| RaiseTransport (e : transport_error).

(** [completed] is [request_boundary.completed], [None] without a boundary. *)
Fixpoint run_exchange (b : backend)
    (completed : option (Z -> string -> option string -> option string -> option transport_error))
    (max_response_bytes : Z) (x : exchange) (st : backend_state)
    : backend_state * result transport_error (Z * string * option string * option string) :=
  match x with
  | AskTcp host port local k =>
      let '(st', r) := connect_tcp b host port local st in
      run_exchange b completed max_response_bytes (k r) st'
  | AskUnix k => run_exchange b completed max_response_bytes (k connect_unix_socket) st
  | Respond status headers chunks after =>
      (st,
       body ← read_bounded 0 chunks after max_response_bytes;
       let encoding := header_value headers "content-encoding" in
       let type := header_value headers "content-type" in
       match completed with
       | Some f => match f status body type encoding with
                   | Some e => Raise e
                   | None => Ok (status, body, encoding, type)
                   end
       | None => Ok (status, body, encoding, type)
       end)
  | RaiseTransport e => (st, Raise e)
  end.

(** * Requests *)

(** What the gateway is built from, and what one request meets. *)
Record gateway_env := mkGatewayEnv {
  idna_encode : string -> option string;
  resolver : string -> resolver_outcome;
  tls_verified : bool;
  admission_answer : result network_error unit;
  switch_answers : nat -> result network_error unit;
  tcp_connector : nat -> ip_address -> Z -> connect_outcome;
  httpcore : string -> string -> list (string * string) -> float -> exchange;
  boundary_completed : option (Z -> string -> option string -> option string -> option transport_error);
  started_at : float;
  finished_at : float
}.

Definition gateway_reason (code : string) : string :=
  if bool_decide (code = "destination_invalid") then "Destination URL is invalid."
  else if bool_decide (code = "destination_resolution_failed") then "Destination resolution failed."
  else if bool_decide (code = "destination_resolution_empty") then
    "Destination resolution returned no addresses."
  else "Destination was denied by network policy.".

Definition gateway_code (code : string) : string :=
  if bool_decide (code ∈ ["destination_invalid"; "destination_resolution_failed";
                          "destination_resolution_empty"])
  then code else "destination_policy_denied".

Definition validate_ssl_context (verified : bool) : result gateway_error unit :=
  guard_or verified (NetworkGatewayError "tls_verification_required"
    "TLS certificate and hostname verification are required.").

Definition transport_exception (e : transport_error) : gateway_error :=
  match e with
  | TransportGateway e => e
  | TransportTimeout => network_request_failed "Network request timed out."
  | TransportOther => network_request_failed "Network request failed."
  end.

Definition no_connection : backend_state := mkBackendState 0 None [] [].

(** The destination decision, up to the selected address and the headers. *)
Definition prepare_request (env : gateway_env) (mode url : string) (headers : list (string * string))
    : result gateway_error (CanonicalDestination * ip_address * list (string * string)) :=
  let decision := evaluate_destination_policy (idna_encode env) mode url (resolver env) in
  match dest_allowed decision, dest_destination decision with
  | true, Some d =>
      _ ← (if bool_decide (dest_scheme d = "https") then validate_ssl_context (tls_verified env) else Ok tt);
      first ← require (head (resolved_addresses decision)) GatewayValueError;
      selected ← require (parse_ip first) GatewayValueError;
      request_headers ← build_headers headers d;
      Ok (d, selected, request_headers)
  | _, _ =>
      let code := gateway_code (dest_code decision) in
      Raise (NetworkGatewayError code (gateway_reason code))
  end.

Definition bind_backend (env : gateway_env) (mode : string) (d : CanonicalDestination)
    (selected : ip_address) : backend :=
  mkBackend (dest_hostname d) selected mode (switch_answers env) (tcp_connector env).

Definition request_admitted (env : gateway_env) (mode method url : string)
    (headers : list (string * string)) (max_response_bytes : Z) (timeout_seconds : float)
    : backend_state * result gateway_error NetworkGatewayResult :=
  match prepare_request env mode url headers with
  | Raise e => (no_connection, Raise e)
  | Ok (d, selected, request_headers) =>
      let '(st, r) :=
        run_exchange (bind_backend env mode d selected) (boundary_completed env) max_response_bytes
          (httpcore env method url request_headers timeout_seconds) no_connection in
      (st,
       '(status, body, encoding, type) ← catch r (fun e => Raise (transport_exception e));
       p ← require (peer st)
         (NetworkGatewayError "destination_peer_unavailable" "Connected peer address was unavailable.");
       Ok (mkGatewayResult status body
             (int_of_float (fmul (fsub (finished_at env) (started_at env)) (float_of_Z 1000)))
             d (compressed selected) (compressed p) encoding type))
  end.

(** [NetworkGateway.request] *)
Definition request (env : gateway_env) (mode method url : string) (headers : list (string * string))
    (max_response_bytes : Z) (timeout_seconds : float)
    : backend_state * result gateway_error NetworkGatewayResult :=
  if (max_response_bytes <=? 0) || fleb timeout_seconds f0 then
    (no_connection, Raise (network_request_failed "Gateway request bounds are invalid."))
  else
    match admission_answer env with
    | Raise (NetworkExecutionDenied code reason) => (no_connection, Raise (NetworkGatewayError code reason))
    | Raise _ => (no_connection, Raise GatewayValueError)
    | Ok _ => request_admitted env mode method url headers max_response_bytes timeout_seconds
    end.

(** * [_BoundaryStream]

    A request with a boundary: its first non-empty write happens inside
    [boundary.sending()] and starts an absolute deadline of at most five seconds. *)

Record boundary_state := mkBoundary { sent : bool; deadline : option float }.

Definition boundary_timeout (st : boundary_state) (now : float) (timeout : option float)
    : result gateway_error (option float) :=
  match deadline st with
  | None => Ok timeout
  | Some d =>
      let remaining := fsub d now in
      if fleb remaining f0 then
        Raise (NetworkGatewayError "response_deadline" "Response deadline reached.")
      else Ok (Some (match timeout with Some t => pymin t remaining | None => remaining end))
  end.

(** [write] and [read], with the clock readings they make; [remaining] is what
    [sending()] yields. The answer is the timeout given to the inner stream. *)
Inductive stream_op : Type :=
| WriteOp (buffer : string) (timeout : option float) (remaining now_set now_use : float)
| ReadOp (timeout : option float) (now_before now_after : float).

(** The new state, the answer, and whether bytes were sent inside the boundary. *)
Definition boundary_op (op : stream_op) (st : boundary_state)
    : boundary_state * result gateway_error (option float) * bool :=
  match op with
  | WriteOp buffer timeout remaining now_set now_use =>
      if negb (is_empty buffer) && negb (sent st) then
        if fleb remaining f0 then
          (st, Raise (NetworkGatewayError "request_deadline" "Request deadline reached."), false)
        else
          let st' := mkBoundary true (Some (fadd now_set (pymin (float_of_Z 5) remaining))) in
          match boundary_timeout st' now_use timeout with
          | Ok t => (st', Ok t, true)
          | Raise e => (st', Raise e, false)
          end
      else (st, boundary_timeout st now_use timeout, false)
  | ReadOp timeout now_before now_after =>
      (st, t ← boundary_timeout st now_before timeout;
           _ ← boundary_timeout st now_after None; Ok t, false)
  end.

Fixpoint boundary_run (ops : list stream_op) (st : boundary_state)
    : boundary_state * list (result gateway_error (option float) * bool) :=
  match ops with
  | [] => (st, [])
  | op :: rest =>
      let '(st1, answer, sending) := boundary_op op st in
      let '(st2, answers) := boundary_run rest st1 in
      (st2, (answer, sending) :: answers)
  end.

(** * Lemmas *)

Lemma classify_same_number a b : same_number a b -> classify_address a = classify_address b.
Proof.
  destruct a as [n|n s], b as [m|m t]; intros [Hv Hn]; cbn in Hv, Hn; try done; subst m; [done|].
  unfold classify_address, ipv4_mapped. by case_if.
Qed.

Lemma normalized_same_number a b :
  same_number a b -> same_number (normalized_ip a) (normalized_ip b).
Proof.
  destruct a as [n|n s], b as [m|m t]; intros [Hv Hn]; cbn in Hv, Hn; try done; subst m.
  unfold normalized_ip, ipv4_mapped. by case_if.
Qed.

Lemma classify_normalized a : classify_address (normalized_ip a) = classify_address a.
Proof.
  unfold normalized_ip, classify_address. destruct a as [n|n s]; [done|].
  destruct (ipv4_mapped (V6 n s)) as [m|] eqn:E; [done|]. by rewrite E.
Qed.

Lemma mode_admits_classify mode a b :
  classify_address a = classify_address b -> mode_admits mode a -> mode_admits mode b.
Proof. unfold mode_admits. by intros ->. Qed.

Lemma validate_peer_ok selected p mode : validate_peer selected p mode = Ok tt ->
  mode_admits mode p /\ normalized_ip p = normalized_ip selected.
Proof.
  unfold validate_peer, mode_admits. rewrite guard_bind_ok, classify_normalized.
  intros [Hm Hg]. unfold guard_or in Hg. case_if_in Hg; [|done]. bool_simpl. split; [|done].
  case_bool_decide; bool_simpl; [|done]. apply orb_prop in Hm as [Hm|Hm]; bool_simpl; auto.
Qed.

(** Every connection is to the selected address; every stream handed over has a peer
    that the mode admits and that is the selected address, mapped forms identified. *)
Definition backend_ok (b : backend) (st : backend_state) : Prop :=
  Forall (fun c => c.1 = selected_address b) (dialled st)
  /\ Forall (fun p => mode_admits (backend_mode b) p
                      /\ normalized_ip p = normalized_ip (selected_address b)) (handed_over st)
  /\ (forall p, peer st = Some p -> p ∈ handed_over st).

Lemma connect_tcp_ok b host port local st : backend_ok b st -> backend_ok b (connect_tcp b host port local st).1.
Proof.
  intros (H1 & H2 & H3). unfold connect_tcp. case_if; [done|].
  destruct (check_network_enabled _); [|done]. destruct (connector b _ _ _) as [e| |addr]; cbn.
  - split; [by constructor | done].
  - split; [by constructor | done].
  - destruct (extract_peer_ip addr) as [p|]; cbn; [|split; [by constructor | done]].
    destruct (validate_peer _ p _) as [[]|] eqn:Hv; cbn; (split; [by constructor|]); [|done].
    apply validate_peer_ok in Hv. split; [by constructor|]. intros q [= ->]. apply list_elem_of_here.
Qed.

Lemma run_exchange_ok b completed maximum x st :
  backend_ok b st -> backend_ok b (run_exchange b completed maximum x st).1.
Proof.
  revert st. induction x as [host port local k IH|k IH|? ? ? ?|e]; intros st H; cbn; try done.
  - pose proof (connect_tcp_ok b host port local st H) as Hc.
    destruct (connect_tcp b host port local st) as [st' r]. by apply IH.
  - by apply IH.
Qed.

Lemma read_bounded_spec chunks after maximum total : 0 <= total <= maximum ->
  read_bounded total chunks after maximum =
  if total + byte_len (concat_str chunks) <=? maximum then
    match after with None => Ok (concat_str chunks) | Some e => Raise e end
  else Raise (TransportGateway (NetworkGatewayError "response_too_large"
         "Network response exceeded the allowed size.")).
Proof.
  revert total. induction chunks as [|c chunks IH]; intros total Ht; cbn [read_bounded concat_str].
  - cbn [byte_len]. by rewrite (proj2 (Z.leb_le _ _)) by lia.
  - rewrite byte_len_app. pose proof (byte_len_nonneg c). pose proof (byte_len_nonneg (concat_str chunks)).
    destruct (Z.ltb_spec maximum (total + byte_len c)).
    + by rewrite (proj2 (Z.leb_gt _ _)) by lia.
    + rewrite IH by lia. replace (total + byte_len c + _) with (total + (byte_len c + byte_len (concat_str chunks))) by lia.
      case_if; [|done]. by destruct after.
Qed.

Lemma run_exchange_body b completed maximum x st st' status body enc ty : 0 <= maximum ->
  run_exchange b completed maximum x st = (st', Ok (status, body, enc, ty)) -> byte_len body <= maximum.
Proof.
  intros Hm. revert st. induction x as [host port local k IH|k IH|s h chunks after|e]; intros st; cbn.
  - destruct (connect_tcp b host port local st) as [st1 r]. apply IH.
  - apply IH.
  - intros [= _ H]. rewrite read_bounded_spec in H by lia.
    case_if_in H; bool_simpl; [|done]. destruct after; [done|]. cbn in H.
    destruct completed as [f|]; [case_match|]; simplify_eq; lia.
  - done.
Qed.

(** Addresses that a resolver returns as objects are addresses. *)
Definition resolver_wf (resolve : string -> resolver_outcome) : Prop :=
  forall host l a, resolve host = ResolverValues l -> RawIP a ∈ l -> ip_wf a.

Lemma canonicalize_wf raw ips : (forall l a, raw = ResolverValues l -> RawIP a ∈ l -> ip_wf a) ->
  canonicalize_resolver_results raw = Ok ips -> Forall ip_wf ips.
Proof.
  intros Hraw. destruct raw as [|s|l]; cbn; [done|done|].
  intros (parsed & Hp & [= <-])%bind_ok. apply map_result_ok in Hp.
  apply Forall_forall. intros a Ha. unfold deduplicate_addresses in Ha.
  rewrite sort_addresses_perm, elem_of_remove_dups in Ha.
  apply list_elem_of_lookup in Ha as [i Hi].
  destruct (Forall2_lookup_r _ _ _ _ _ Hp Hi) as (v & Hv & Hpv).
  destruct v as [b|s]; cbn in Hpv.
  - injection Hpv as <-. eapply Hraw; [done|]. by eapply list_elem_of_lookup_2.
  - unfold require in Hpv. destruct (parse_ip s) eqn:E; [|done]. injection Hpv as <-. by eapply parse_ip_wf.
Qed.

Lemma literal_wf idna url d a : parse_canonical_destination idna url = Ok d ->
  dest_ip_address d = Some a -> ip_wf a.
Proof.
  intros (_ & _ & raw & _ & [(lit & Hl & _ & E)|[E _]])%parse_canonical_destination_inv Ha;
    rewrite E in Ha; [|done]. injection Ha as <-. by eapply parse_ip_wf.
Qed.

Lemma prepare_request_ok env mode url headers d selected hs : resolver_wf (resolver env) ->
  prepare_request env mode url headers = Ok (d, selected, hs) ->
  mode ∈ NETWORK_MODES /\ parse_canonical_destination (idna_encode env) url = Ok d
  /\ mode_admits mode selected /\ build_headers headers d = Ok hs
  /\ (dest_scheme d = "https" -> tls_verified env = true)
  /\ exists first rest, canonicalize_resolver_results (resolution d (resolver env)) = Ok (first :: rest)
       /\ same_number first selected.
Proof.
  intros Hwf. unfold prepare_request.
  destruct (dest_allowed _) eqn:Hal; [|done].
  apply policy_allowed_inv in Hal as (Hmode & d' & ips & Hd & Hc & Hne & Hdest & Hres & Hall).
  rewrite Hdest. intros H. apply bind_ok in H as ([] & Htls & H).
  apply require_bind_ok in H as (f & Hf & H). apply require_bind_ok in H as (sel & Hsel & H).
  apply bind_ok in H as (hs' & Hhs & [= <- <- <-]).
  destruct ips as [|a ips]; [done|]. rewrite Hres in Hf. injection Hf as <-.
  assert (Hips : Forall ip_wf (a :: ips)).
  { apply (canonicalize_wf (resolution d' (resolver env))); [|done]. intros l b Hl Hb.
    unfold resolution in Hl. destruct (dest_ip_address d') as [lit|] eqn:E; [|by eapply Hwf].
    injection Hl as <-. apply list_elem_of_singleton in Hb as [= ->]. by eapply literal_wf. }
  apply Forall_cons in Hips as [Ha _]. apply Forall_cons in Hall as [Hadm _].
  pose proof (parse_ip_compressed_number _ _ Ha Hsel) as Hnum.
  split; [done|]. split; [done|]. split; [by eapply mode_admits_classify, Hadm; apply classify_same_number|].
  split; [done|]. split; [|by exists a, ips].
  intros Hs. by rewrite bool_decide_eq_true_2 in Htls; [destruct (tls_verified env)|].
Qed.

(** What a request did to the network. *)
Lemma request_network env mode method url headers maximum timeout st r : resolver_wf (resolver env) ->
  request env mode method url headers maximum timeout = (st, r) ->
  (st = no_connection /\ exists e, r = Raise e) \/
  (admission_answer env = Ok tt /\ exists d selected hs,
    prepare_request env mode url headers = Ok (d, selected, hs) /\ mode_admits mode selected /\
    backend_ok (bind_backend env mode d selected) st /\
    forall res, r = Ok res -> byte_len (gateway_body res) <= maximum /\ gateway_destination res = d /\
      selected_ip res = compressed selected /\
      exists p, p ∈ handed_over st /\ peer_ip res = compressed p).
Proof.
  intros Hwf. unfold request. case_if; [intros [= <- <-]; left; eauto|].
  destruct (admission_answer env) as [[]|[c m|m|]]; try (intros [= <- <-]; left; eauto).
  unfold request_admitted. destruct (prepare_request _ _ _ _) as [[[d sel] hs]|e] eqn:Hprep;
    [|intros [= <- <-]; left; eauto].
  destruct (run_exchange _ _ _ _ _) as [st' x] eqn:Hrun. intros [= -> <-]. right. split; [done|].
  exists d, sel, hs. split; [done|].
  split; [by apply prepare_request_ok in Hprep as (_ & _ & ? & _)|].
  assert (Hb : backend_ok (bind_backend env mode d sel) st).
  { change st with (st, x).1. rewrite <- Hrun. apply run_exchange_ok.
    split; [constructor|]. split; [constructor | done]. }
  split; [done|]. intros res Hres. apply bind_ok in Hres as ([[[status body] enc] ty] & Hx & Hres).
  destruct x as [[[[a1 a2] a3] a4]|]; [|done]. cbn in Hx. injection Hx as -> -> -> ->.
  apply require_bind_ok in Hres as (p & Hp & [= <-]). cbn.
  bool_simpl. split; [eapply run_exchange_body; [|exact Hrun]; lia|]. split; [done|]. split; [done|].
  exists p. split; [|done]. by apply Hb.
Qed.

(** ** Headers *)

Definition header_ok (h : string * string) : Prop :=
  h.1 <> EmptyString /\ str_forall HEADER_NAME_CHARACTERS h.1 = true
  /\ str_exists bad_value_char h.2 = false.

Lemma latin1_clean n v w : (String.length v <= n)%nat -> latin1 v = Some w ->
  str_exists bad_value_char v = false -> str_exists bad_value_char w = false.
Proof.
  revert v w. induction n as [|n IH]; intros v w Hn; (destruct v as [|c v]; [by intros [= <-]|]);
    cbn in Hn; [lia|]. cbn [latin1]. rewrite str_exists_cons. destruct (is_ascii c) eqn:Ea.
  - intros Hw [Hc Hv]%orb_false_elim. apply fmap_Some in Hw as (w' & Hw & ->).
    rewrite str_exists_cons, Hc. apply (IH v); [lia | done | done].
  - destruct v as [|d v]; [done|]. case_if; [|done].
    intros Hw [_ Hv]%orb_false_elim. apply fmap_Some in Hw as (w' & Hw & ->).
    rewrite str_exists_cons in *. apply orb_false_elim in Hv as [Hd Hv].
    rewrite (IH v w'); [|cbn in Hn; lia | done | done]. rewrite orb_false_r.
    apply andb_prop in E as [E1 E2]. unfold between in E2. bool_simpl.
    unfold bad_value_char. rewrite ord_chr by (apply orb_prop in E1 as [E1|E1]; bool_simpl; lia).
    apply orb_prop in E1 as [E1|E1]; bool_simpl; rewrite E1;
      apply orb_false_iff; (split; [apply andb_false_iff; left; apply Z.ltb_ge; lia | apply Z.eqb_neq; lia]).
Qed.

Lemma build_custom_ok headers l : build_custom_headers headers = Ok l ->
  Forall header_ok l /\ Forall (fun h => lower h.1 <> "host") l.
Proof.
  revert l. induction headers as [|[name value] rest IH]; intros l; cbn [build_custom_headers].
  - intros [= <-]. done.
  - case_if; [done|]. destruct (latin1 value) as [enc|] eqn:El; [|done].
    intros (others & Ho & H)%bind_ok. destruct (IH _ Ho) as [H1 H2].
    apply orb_false_elim in E as [[En1 En2]%orb_false_elim Ev].
    assert (Hok : header_ok (name, enc)).
    { split; [by destruct name|]. split; [|by eapply latin1_clean].
      rewrite str_exists_not in En2. by bool_simpl. }
    case_bool_decide; injection H as <-; [done|]. by split; constructor.
Qed.

(** Every character of a canonical host name is a label character, a dot or a colon. *)
Lemma bad_label_false l : bad_label l = false -> str_forall is_label_char l = true.
Proof. unfold bad_label. intros H. bool_simpl. done. Qed.

Lemma host_lacks idna url d c : parse_canonical_destination idna url = Ok d ->
  is_label_char c = false -> is_hex c = false -> c <> "."%char -> c <> ":"%char ->
  contains_char c (dest_hostname d) = false.
Proof.
  intros (_ & _ & raw & Hpct & [(lit & Hp & Hh & _)|[_ Hb]])%parse_canonical_destination_inv Hl Hx H1 H2.
  - rewrite Hh. pose proof (parse_ip_wf _ _ Hp) as Hwf. unfold parse_ip in Hp.
    destruct (parse_ipv4 raw) as [n|].
    + injection Hp as <-. apply parse_ipv4_lacks with n; [|done|by apply parse_ipv4_print].
      unfold is_hex in Hx. by bool_simpl.
    + case_if_in Hp; [done|]. rewrite partition_lacks in Hp by done. cbn in Hp.
      apply bind_Some in Hp as (n & _ & [= <-]). by apply parse_ipv6_print.
  - rewrite <- (join_split "." (dest_hostname d)), contains_char_join. apply orb_false_iff. split.
    + apply not_true_iff_false. rewrite existsb_exists. intros (p & Hin & Hc).
      apply not_true_iff_false in Hb. apply Hb, existsb_exists. exists p. split; [done|].
      apply not_false_iff_true. intros Hbad%bad_label_false.
      apply (str_forall_lacks _ c) in Hbad; [congruence | done].
    + unfold contains_char, str1. rewrite str_exists_cons, bool_decide_eq_false_2 by congruence. done.
Qed.

Lemma host_value_lacks idna url d c : parse_canonical_destination idna url = Ok d ->
  is_label_char c = false -> is_hex c = false ->
  c <> "."%char -> c <> ":"%char -> c <> "["%char -> c <> "]"%char ->
  contains_char c (host_value d) = false.
Proof.
  intros Hd Hl Hx H1 H2 H3 H4. pose proof (host_lacks _ _ _ _ Hd Hl Hx H1 H2) as Hh.
  destruct (parse_canonical_destination_inv _ _ _ Hd) as (_ & Hp & _).
  assert (Hw : contains_char c (if contains_char ":" (dest_hostname d)
            then "[" +:+ dest_hostname d +:+ "]" else dest_hostname d) = false).
  { case_if; [|done]. rewrite !contains_char_app, Hh.
    unfold contains_char. rewrite !str_exists_cons, !bool_decide_eq_false_2 by congruence. done. }
  unfold host_value. cbv zeta. destruct (_ =? _); [done|]. rewrite !contains_char_app, Hw.
  unfold contains_char at 1. rewrite str_exists_cons, bool_decide_eq_false_2 by congruence.
  assert (Hdig : is_digit c = false) by (unfold is_hex in Hx; by bool_simpl).
  rewrite (str_forall_lacks is_digit); [done | apply decimal_digits; lia | done].
Qed.

Lemma mode_admits_no_metadata mode a : mode_admits mode a -> ~ metadata_address a.
Proof.
  unfold mode_admits. intros H Hm%classify_metadata. case_if_in H; rewrite Hm in H; naive_solver.
Qed.

(** What a mode means for an address, by ranges. *)
Definition address_in_mode (mode : string) (a : ip_address) : Prop :=
  ~ metadata_address a
  /\ (mode = PRIVATE_LOCAL -> local_address a)
  /\ (mode = EXTERNAL_PUBLIC_AUTHORIZED -> ~ local_address a /\ ~ special_address a).

Lemma mode_admits_ranges mode a : mode_admits mode a -> address_in_mode mode a.
Proof.
  intros H. split; [by eapply mode_admits_no_metadata|]. unfold mode_admits in H. split; intros ->.
  - rewrite bool_decide_eq_true_2 in H by done. by apply classify_local.
  - rewrite bool_decide_eq_false_2 in H by done. by apply classify_public.
Qed.

(** A resolution that a mode admits: values, at least one, and each of them an
    address in the ranges of the mode. *)
Definition value_address (v : raw_address) (a : ip_address) : Prop :=
  v = RawIP a \/ exists s, v = RawText s /\ parse_ip s = Some a.
Definition resolution_in_mode (mode : string) (r : resolver_outcome) : Prop :=
  exists l, r = ResolverValues l /\ l <> [] /\
    Forall (fun v => exists a, value_address v a /\ address_in_mode mode a) l.

Lemma parse_raw_address v a : parse_raw v = Ok a -> value_address v a.
Proof.
  destruct v as [b|s]; cbn; [intros [= ->]; by left|]. unfold require.
  destruct (parse_ip s) eqn:E; [|done]. intros [= ->]. right. eauto.
Qed.

Lemma canonicalized_in_mode mode r ips : canonicalize_resolver_results r = Ok ips -> ips <> [] ->
  Forall (address_in_mode mode) ips -> resolution_in_mode mode r.
Proof.
  destruct r as [|s|l]; cbn; [done|done|]. intros (parsed & Hp & [= <-])%bind_ok Hne Hall.
  apply map_result_ok in Hp. exists l. split; [done|]. split.
  { intros ->. apply Forall2_nil_inv_l in Hp as ->. by apply Hne. }
  apply Forall_forall. intros v [i Hi]%list_elem_of_lookup.
  destruct (Forall2_lookup_l _ _ _ _ _ Hp Hi) as (a & Ha & Hv). exists a.
  split; [by apply parse_raw_address|]. rewrite Forall_forall in Hall. apply Hall.
  unfold deduplicate_addresses. rewrite sort_addresses_perm, elem_of_remove_dups.
  by eapply list_elem_of_lookup_2.
Qed.

(** A request is prepared only for a resolution that the mode admits as a whole. *)
Lemma prepare_request_approved env mode url headers d selected hs :
  prepare_request env mode url headers = Ok (d, selected, hs) ->
  resolution_in_mode mode (resolution d (resolver env))
  /\ (forall ips, canonicalize_resolver_results (resolution d (resolver env)) = Ok ips ->
       Forall (address_in_mode mode) ips).
Proof.
  unfold prepare_request. destruct (dest_allowed _) eqn:Hal; [|done].
  apply policy_allowed_inv in Hal as (_ & d' & ips & _ & Hc & Hne & Hdest & _ & Hall).
  rewrite Hdest. intros (? & _ & H)%bind_ok. apply require_bind_ok in H as (? & _ & H).
  apply require_bind_ok in H as (? & _ & H). apply bind_ok in H as (? & _ & [= <- _ _]).
  assert (Hin : Forall (address_in_mode mode) ips).
  { eapply Forall_impl; [exact Hall|]. intros a. apply mode_admits_ranges. }
  split; [by eapply canonicalized_in_mode|]. rewrite Hc. by intros ? [= <-].
Qed.

Lemma filter_none {A} (P : A -> Prop) `{!forall x, Decision (P x)} l : Forall (fun x => ~ P x) l -> filter P l = [].
Proof. induction 1 as [|x l Hx _ IH]; [done|]. by rewrite filter_cons_False. Qed.

Lemma boundary_run_sent ops st : sent st = true ->
  count_if snd (boundary_run ops st).2 = 0%nat /\ (boundary_run ops st).1 = st.
Proof.
  intros Hs. induction ops as [|op ops IH]; [done|]. cbn.
  assert (boundary_op op st = (st, (boundary_op op st).1.2, false)) as ->.
  { destruct op; cbn; [rewrite Hs, andb_false_r; done | done]. }
  destruct (boundary_run ops st) as [st2 l]. cbn in *. by destruct IH as [-> ->].
Qed.

Lemma boundary_timeout_positive st now t r : boundary_timeout st now t = Ok r ->
  match deadline st with
  | Some d => exists v, r = Some v /\ fltb (fsub d now) v = false
  | None => r = t
  end.
Proof.
  unfold boundary_timeout. destruct (deadline st) as [d|]; [|by intros [= ->]].
  case_if; [done|]. intros [= <-]. eexists. split; [done|]. destruct t; [apply pymin_le_r | apply fltb_irrefl].
Qed.

(** * Properties *)

(** C4: The destination policy rules the network. When admission is denied, the
    mode is unknown, the URL has no canonical destination, or some value of the
    resolution is malformed or outside the ranges of the Target's network mode (a
    metadata address beside a public one is enough, as is an empty or failed
    resolution), the request opens no connection and raises. So whatever [httpcore]
    does (any sequence of connection attempts, any response), a request with a
    connection, a stream or a result has every address of its resolution in those
    ranges; it connects only to one address, the first of that resolution; every
    stream it hands to [httpcore] has a peer in those ranges that equals the
    selected address (an IPv4-mapped address being its IPv4 address); and a result
    comes only over such a stream, with a body within the bound. *)
Theorem gateway_confined env mode method url headers maximum timeout st r :
  resolver_wf (resolver env) ->
  request env mode method url headers maximum timeout = (st, r) ->
  (admission_answer env <> Ok tt \/ mode ∉ NETWORK_MODES
   \/ (forall d, parse_canonical_destination (idna_encode env) url <> Ok d)
   \/ (exists d, parse_canonical_destination (idna_encode env) url = Ok d
         /\ ~ resolution_in_mode mode (resolution d (resolver env))) ->
   dialled st = [] /\ handed_over st = [] /\ exists e, r = Raise e)
  /\ (dialled st <> [] \/ handed_over st <> [] \/ (exists res, r = Ok res) ->
     admission_answer env = Ok tt /\ mode ∈ NETWORK_MODES /\
     exists d first rest, parse_canonical_destination (idna_encode env) url = Ok d /\
       resolution_in_mode mode (resolution d (resolver env)) /\
       canonicalize_resolver_results (resolution d (resolver env)) = Ok (first :: rest) /\
       Forall (address_in_mode mode) (first :: rest) /\
       Forall (fun c => same_number first c.1) (dialled st) /\
       Forall (fun p => same_number (normalized_ip first) (normalized_ip p)) (handed_over st))
  /\ Forall (fun c => address_in_mode mode c.1) (dialled st)
  /\ Forall (address_in_mode mode) (handed_over st)
  /\ (forall res, r = Ok res -> byte_len (gateway_body res) <= maximum /\
        exists p, p ∈ handed_over st /\ peer_ip res = compressed p).
Proof.
  intros Hwf H. apply request_network in H; [|done].
  destruct H as [[-> [e ->]]|(Ha & d & sel & hs & Hprep & Hadm & (H1 & H2 & H3) & H4)].
  { split; [by eauto|]. split; [by intros [?|[?|[? ?]]]|]. split; [constructor|]. by split; [constructor|]. }
  pose proof (prepare_request_approved _ _ _ _ _ _ _ Hprep) as [Hall Hmodes].
  apply prepare_request_ok in Hprep as (Hmode & Hd & _ & _ & _ & first & rest & Hres & Hnum); [|done].
  split; [|split; [|split; [|split]]].
  - intros [?|[?|[Hno|(d' & Hd' & Hno)]]]; [done | done | by destruct (Hno d)|].
    rewrite Hd in Hd'. by injection Hd' as <-.
  - intros _. split; [done|]. split; [done|]. exists d, first, rest. split; [done|]. split; [done|].
    split; [done|]. split; [by apply Hmodes|]. split.
    + eapply Forall_impl; [exact H1|]. intros [x y] Hx. cbn in *. by rewrite Hx.
    + eapply Forall_impl; [exact H2|]. intros p [_ ->]. by apply normalized_same_number.
  - eapply Forall_impl; [exact H1|]. intros c ->. by apply mode_admits_ranges.
  - eapply Forall_impl; [exact H2|]. intros p [Hp _]. by apply mode_admits_ranges.
  - intros res Hr. destruct (H4 res Hr) as (? & _ & _ & ?). done.
Qed.

(** The header list sent to an approved destination is well formed: exactly one
    Host header, the destination's, whatever Host headers the caller passed; every
    name is a non-empty token; and no value holds a control character, so no header
    can be injected through a name, a value or the host. *)
Theorem one_host_header env url headers d l :
  parse_canonical_destination env url = Ok d -> build_headers headers d = Ok l ->
  filter (fun h => lower h.1 = "host") l = [("Host", host_value d)]
  /\ Forall (fun h => h.1 <> EmptyString /\ str_forall HEADER_NAME_CHARACTERS h.1 = true
                      /\ contains_char (chr 13) h.2 = false /\ contains_char (chr 10) h.2 = false
                      /\ contains_char (chr 0) h.2 = false) l.
Proof.
  intros Hd. unfold build_headers. intros (custom & Hc & H)%bind_ok. case_if_in H; [|done].
  injection H as <-. apply build_custom_ok in Hc as [H1 H2]. split.
  - rewrite filter_app, filter_none by done. reflexivity.
  - apply Forall_app. split.
    + eapply Forall_impl; [exact H1|]. intros [name value] (Hn & Hch & Hv). cbn in *.
      split; [done|]. split; [done|].
      assert (Hlack : forall c, bad_value_char c = true -> contains_char c value = false).
      { intros c Hbad. apply (str_forall_lacks (fun x => negb (bad_value_char x))); [|by rewrite Hbad].
        unfold str_exists in Hv. by bool_simpl. }
      split; [|split]; by apply Hlack.
    + constructor; [|constructor]. cbn [fst snd]. split; [done|]. split; [done|].
      split; [|split]; by eapply host_value_lacks.
Qed.

(** A response body is read whole or not at all: for a bound [maximum >= 0], the
    chunks read back to their concatenation when that is within the bound, to
    [response_too_large] when it is not, and to the exception of the transport when
    it fails within the bound; no body over the bound is ever returned. *)
Theorem read_bounded_exact chunks after maximum : 0 <= maximum ->
  read_bounded 0 chunks after maximum =
  if byte_len (concat_str chunks) <=? maximum then
    match after with None => Ok (concat_str chunks) | Some e => Raise e end
  else Raise (TransportGateway (NetworkGatewayError "response_too_large"
         "Network response exceeded the allowed size.")).
Proof. intros H. by rewrite read_bounded_spec by lia. Qed.

(** A request with a boundary sends inside the boundary at most once, over any
    sequence of reads and writes; once it has, every operation that is let through
    gets a timeout no later than the deadline fixed then, which no later operation
    moves. *)
Theorem boundary_sends_once ops :
  let '(st, answers) := boundary_run ops (mkBoundary false None) in
  (count_if snd answers <= 1)%nat
  /\ (forall now t r d, deadline st = Some d -> boundary_timeout st now t = Ok r ->
        exists v, r = Some v /\ fltb (fsub d now) v = false)
  /\ (sent st = true -> forall more, (boundary_run more st).1 = st).
Proof.
  destruct (boundary_run ops (mkBoundary false None)) as [st answers] eqn:E. split; [|split].
  - assert (H : forall s l, (count_if snd (boundary_run l s).2 <= 1)%nat).
    { intros s l. revert s. induction l as [|op l IH]; intros s; [cbn; lia|]. cbn.
      destruct (boundary_op op s) as [[s1 r] b] eqn:Eop. destruct (boundary_run l s1) as [s2 k] eqn:Ek.
      cbn. destruct b.
      - assert (Hs : sent s1 = true).
        { destruct op; cbn in Eop; repeat (case_if_in Eop || case_match); simplify_eq; done. }
        pose proof (boundary_run_sent l s1 Hs) as [Hc _]. rewrite Ek in Hc. cbn in Hc. lia.
      - specialize (IH s1). rewrite Ek in IH. cbn in IH. lia. }
    specialize (H (mkBoundary false None) ops). by rewrite E in H.
  - intros now t r d Hd Hr. pose proof (boundary_timeout_positive _ _ _ _ Hr) as H. by rewrite Hd in H.
  - intros Hs more. by apply boundary_run_sent.
Qed.

(** * Witnesses *)

Definition lab_env : gateway_env :=
  mkGatewayEnv no_idna (sample_resolver [RawText "127.0.0.1"; RawText "10.0.0.7"]) true (Ok tt)
    (fun _ => Ok tt) (fun _ _ _ => Connected (Some "::ffff:10.0.0.7"))
    (fun _ _ _ _ => AskTcp "localhost" 8000 None (fun r =>
       match r with
       | Ok _ => Respond 200 [("Content-Type", "text/plain")] ["o"; "k"] None
       | Raise e => RaiseTransport (TransportGateway e)
       end))
    None f0 f1.

Lemma lab_resolver_wf : resolver_wf (resolver lab_env).
Proof.
  intros host l a [= <-] H. apply elem_of_cons in H as [|H]; [done|].
  by apply list_elem_of_singleton in H.
Qed.

(** The same resolver with a metadata address beside the private one *)
Definition mixed_env : gateway_env :=
  mkGatewayEnv no_idna (sample_resolver [RawText "10.0.0.7"; RawText "169.254.169.254"]) true (Ok tt)
    (fun _ => Ok tt) (fun _ _ _ => Connected (Some "::ffff:10.0.0.7")) (httpcore lab_env) None f0 f1.

Lemma mixed_refused : ~ resolution_in_mode PRIVATE_LOCAL
  (ResolverValues [RawText "10.0.0.7"; RawText "169.254.169.254"]).
Proof.
  intros (l & [= <-] & _ & [_ [(a & Ha & Hno & _) _]%Forall_cons]%Forall_cons).
  destruct Ha as [?|(s & [= <-] & Hp)]; [done|]. vm_compute in Hp. injection Hp as <-. by apply Hno.
Qed.

Lemma mixed_resolver_wf : resolver_wf (resolver mixed_env).
Proof.
  intros host l a [= <-] H. apply elem_of_cons in H as [|H]; [done|].
  by apply list_elem_of_singleton in H.
Qed.

Lemma gateway_confined_witness :
  (let '(st, r) := request lab_env PRIVATE_LOCAL "GET" "http://localhost:8000/api/orders/42" []
                     DEFAULT_MAX_RESPONSE_BYTES DEFAULT_TIMEOUT_SECONDS in
   dialled st <> [] /\ Forall (fun c => address_in_mode PRIVATE_LOCAL c.1) (dialled st)
   /\ Forall (address_in_mode PRIVATE_LOCAL) (handed_over st))
  /\ (let '(st, r) := request mixed_env PRIVATE_LOCAL "GET" "http://localhost:8000/api/orders/42" []
                        DEFAULT_MAX_RESPONSE_BYTES DEFAULT_TIMEOUT_SECONDS in
      dialled st = [] /\ handed_over st = [] /\ exists e, r = Raise e).
Proof.
  split.
  - destruct (request _ _ _ _ _ _ _) as [st r] eqn:E.
    destruct (gateway_confined _ _ _ _ _ _ _ _ _ lab_resolver_wf E) as (_ & _ & H1 & H2 & _).
    split; [|by split]. vm_compute in E. injection E as <- _. discriminate.
  - destruct (request _ _ _ _ _ _ _) as [st r] eqn:E.
    apply (gateway_confined _ _ _ _ _ _ _ _ _ mixed_resolver_wf E). right. right. right.
    exists (mkDestination "http" "localhost" 8000 false None).
    split; [vm_compute; reflexivity | exact mixed_refused].
Defined.

Lemma one_host_header_witness :
  filter (fun h => lower h.1 = "host")
    [("Accept", "application/json"); ("Host", "localhost:8000")] = [("Host", "localhost:8000")].
Proof.
  apply (one_host_header no_idna "http://localhost:8000/"
    [("Accept", "application/json"); ("HOST", "evil.example")]
    (mkDestination "http" "localhost" 8000 false None)); vm_compute; reflexivity.
Defined.

Lemma read_bounded_exact_witness :
  read_bounded 0 ["abc"; "de"] None 5 = Ok "abcde" /\ read_bounded 0 ["abc"; "def"] None 5
    = Raise (TransportGateway (NetworkGatewayError "response_too_large"
        "Network response exceeded the allowed size.")).
Proof. split; [apply (read_bounded_exact ["abc"; "de"]) | apply (read_bounded_exact ["abc"; "def"])]; lia. Defined.
