(* ===== verification/Coordination.v ===== *)
(** Coordination of ExecutionPlan executions across processes:
    src/backend/app/services/execution_plan_claim.py (leases with fencing generations),
    execution_plan_progress.py (the network boundary) and
    execution_plan_cancellation.py.

    The tables are finite maps keyed by plan id. A transaction is one function of the
    state, atomic because every one that writes takes the row locks it depends on: the
    plan row (network start and cancellation) or the claim row. Clock readings of the
    database are arguments. Service calls retry a transaction whose attempt failed or
    whose answer was lost. *)

From S2P Require Import Prelude.
From S2P Require Import PyStr.
From S2P Require Import PyFloat.
From S2P Require Import Models.
From S2P Require Import RateLimit.

Open Scope Z_scope.

(** * The tables *)

Record ClaimRow := mkClaim {
  claim_owner_id : option string;
  claim_generation : Z;
  lease_expires_at : timestamp
}.
Record ProgressRow := mkProgress {
  progress_generation : Z;
  progress_phase : string;
  progress_updated_at : timestamp
}.
#[export] Instance ClaimRow_eq_dec : EqDecision ClaimRow.
Proof. solve_decision. Defined.
#[export] Instance ProgressRow_eq_dec : EqDecision ProgressRow.
Proof. solve_decision. Defined.

(** [canonical_runs] are the plans that have a TestRun ([uq_test_runs_execution_plan_id]). *)
Record coordination := mkCoord {
  execution_plans : gset Z;
  execution_plan_claims : gmap Z ClaimRow;
  execution_plan_progress : gmap Z ProgressRow;
  execution_plan_cancellations : gmap Z timestamp;
  canonical_runs : gset Z
}.

Definition with_claim (p : Z) (row : ClaimRow) (c : coordination) : coordination :=
  mkCoord (execution_plans c) (<[p := row]> (execution_plan_claims c)) (execution_plan_progress c)
    (execution_plan_cancellations c) (canonical_runs c).
Definition with_progress (p : Z) (row : ProgressRow) (c : coordination) : coordination :=
  mkCoord (execution_plans c) (execution_plan_claims c) (<[p := row]> (execution_plan_progress c))
    (execution_plan_cancellations c) (canonical_runs c).
Definition with_cancellation (p : Z) (t : timestamp) (c : coordination) : coordination :=
  mkCoord (execution_plans c) (execution_plan_claims c) (execution_plan_progress c)
    (<[p := t]> (execution_plan_cancellations c)) (canonical_runs c).
Definition with_run (p : Z) (c : coordination) : coordination :=
  mkCoord (execution_plans c) (execution_plan_claims c) (execution_plan_progress c)
    (execution_plan_cancellations c) ({[ p ]} ∪ canonical_runs c).

Record ClaimHandle := mkHandle {
  handle_plan_id : Z;
  owner_id : string;
  fencing_generation : Z;
  handle_lease_expires_at : timestamp;
  database_now : timestamp
}.
#[export] Instance ClaimHandle_eq_dec : EqDecision ClaimHandle.
Proof. solve_decision. Defined.

Record ProgressState := mkProgressState {
  state_plan_id : Z;
  state_generation : Z;
  state_phase : string;
  state_updated_at : timestamp
}.
Record CancellationState := mkCancellationState {
  cancelled_plan_id : Z;
  requested_at : timestamp
}.
#[export] Instance ProgressState_eq_dec : EqDecision ProgressState.
Proof. solve_decision. Defined.
#[export] Instance CancellationState_eq_dec : EqDecision CancellationState.
Proof. solve_decision. Defined.

Inductive coordination_error : Type :=
| ClaimUnavailable
| ClaimLost
| ClaimCoordination
| InDoubt
| ProgressLost
| ProgressCancelled
| ProgressCoordination
| PlanNotFound
| AlreadyCompleted
| CancellationInDoubt
| CancellationCoordination
| BadArgument (message : string)
| ArgumentOverflow.
#[export] Instance coordination_error_eq_dec : EqDecision coordination_error.
Proof. solve_decision. Defined.

(** * Transactions *)

(** The row belongs to this owner and generation. *)
Definition owned_by (row : ClaimRow) (h : ClaimHandle) : bool :=
  bool_decide (claim_owner_id row = Some (owner_id h)) && (claim_generation row =? fencing_generation h).
(** ... and its lease is not over. *)
Definition current (row : ClaimRow) (h : ClaimHandle) (now : timestamp) : bool :=
  owned_by row h && (now <? lease_expires_at row).

Definition claim_of (h : ClaimHandle) (c : coordination) : option ClaimRow :=
  execution_plan_claims c !! handle_plan_id h.

(** The statement of [acquire]: [None] is the foreign key violation of an unknown plan. *)
Definition acquire_stmt (p : Z) (owner : string) (lease : Z) (now : timestamp) (c : coordination)
    : option (coordination * option ClaimHandle) :=
  match execution_plan_claims c !! p with
  | None =>
      if bool_decide (p ∈ execution_plans c) then
        Some (with_claim p (mkClaim (Some owner) 1 (now + lease)) c,
              Some (mkHandle p owner 1 (now + lease) now))
      else None
  | Some row =>
      if is_none (claim_owner_id row) || (lease_expires_at row <=? now) then
        let g := claim_generation row + 1 in
        Some (with_claim p (mkClaim (Some owner) g (now + lease)) c,
              Some (mkHandle p owner g (now + lease) now))
      else Some (c, None)
  end.

(** [assert_current]'s statement: whether the row is found. *)
Definition assert_stmt (h : ClaimHandle) (now : timestamp) (c : coordination) : bool :=
  match claim_of h c with Some row => current row h now | None => false end.

Definition renew_stmt (h : ClaimHandle) (lease : Z) (now : timestamp) (c : coordination)
    : coordination * option ClaimHandle :=
  match claim_of h c with
  | Some row =>
      if current row h now then
        (with_claim (handle_plan_id h) (mkClaim (claim_owner_id row) (claim_generation row) (now + lease)) c,
         Some (mkHandle (handle_plan_id h) (owner_id h) (fencing_generation h) (now + lease) now))
      else (c, None)
  | None => (c, None)
  end.

(** [release]'s UPDATE, and the SELECT that recognises a release already committed. *)
Definition release_stmt (h : ClaimHandle) (now : timestamp) (c : coordination) : coordination * bool :=
  match claim_of h c with
  | Some row =>
      if owned_by row h then
        (with_claim (handle_plan_id h) (mkClaim None (claim_generation row) now) c, true)
      else (c, false)
  | None => (c, false)
  end.
Definition released_stmt (h : ClaimHandle) (c : coordination) : bool :=
  match claim_of h c with
  | Some row => is_none (claim_owner_id row) && (claim_generation row =? fencing_generation h)
  | None => false
  end.

(** [prepare_attempt]'s statement with its two clock readings. *)
Definition prepare_stmt (h : ClaimHandle) (clock : timestamp * timestamp) (c : coordination)
    : coordination * result coordination_error ProgressState :=
  let p := handle_plan_id h in
  let prepared :=
    (with_progress p (mkProgress (fencing_generation h) "pre_network" clock.2) c,
     Ok (mkProgressState p (fencing_generation h) "pre_network" clock.2)) in
  if assert_stmt h clock.1 c then
    match execution_plan_progress c !! p with
    | None => prepared
    | Some row =>
        if bool_decide (progress_phase row = "pre_network")
           && (progress_generation row <=? fencing_generation h) then prepared
        else if bool_decide (progress_phase row = "network_started")
                || bool_decide (progress_phase row = "in_doubt") then (c, Raise InDoubt)
        else (c, Raise ProgressLost)
    end
  else (c, Raise ProgressLost).

(** The transaction of [mark_network_started]; [None] is the [NoResultFound] of an
    unknown plan, which is retried. *)
Definition mark_tx (h : ClaimHandle) (clock : timestamp * timestamp) (c : coordination)
    : option (coordination * result coordination_error ProgressState) :=
  let p := handle_plan_id h in
  if negb (bool_decide (p ∈ execution_plans c)) then None
  else if negb (assert_stmt h clock.1 c) then Some (c, Raise ProgressLost)
  else if negb (is_none (execution_plan_cancellations c !! p)) then Some (c, Raise ProgressCancelled)
  else match execution_plan_progress c !! p with
       | Some row =>
           if (progress_generation row =? fencing_generation h)
              && bool_decide (progress_phase row = "pre_network") then
             Some (with_progress p (mkProgress (progress_generation row) "network_started" clock.2) c,
                   Ok (mkProgressState p (progress_generation row) "network_started" clock.2))
           else Some (c, Raise ProgressLost)
       | None => Some (c, Raise ProgressLost)
       end.

(** The transaction of [request_cancel]. *)
Definition cancel_tx (p : Z) (now : timestamp) (c : coordination)
    : coordination * result coordination_error CancellationState :=
  if negb (bool_decide (p ∈ execution_plans c)) then (c, Raise PlanNotFound)
  else if bool_decide (p ∈ canonical_runs c) then (c, Raise AlreadyCompleted)
  else if match execution_plan_progress c !! p with
          | Some row => bool_decide (progress_phase row = "network_started")
                        || bool_decide (progress_phase row = "in_doubt")
          | None => false
          end then (c, Raise CancellationInDoubt)
  else match execution_plan_cancellations c !! p with
       | Some t => (c, Ok (mkCancellationState p t))
       | None => (with_cancellation p now c, Ok (mkCancellationState p now))
       end.

(** The transaction that persists the canonical result (plan_execution.py [_finish]):
    the claim is asserted under its row lock, then the run inserted; a second run of
    the plan violates the unique constraint. *)
Definition persist_tx (h : ClaimHandle) (now : timestamp) (c : coordination)
    : coordination * result coordination_error bool :=
  if negb (assert_stmt h now c) then (c, Raise ClaimLost)
  else if bool_decide (handle_plan_id h ∈ canonical_runs c) then (c, Ok false)
  else (with_run (handle_plan_id h) c, Ok true).

(** * Service calls *)

(** [for _ in range(max_retries)]: an attempt fails, or commits and loses its answer, or
    answers; a transaction that raises (other than the service's own errors, which
    are answers) is tried again. *)
Fixpoint run_tx {C S R} (tx : C -> S -> option (S * R)) (env : list (attempt * C)) (s : S)
    : S * option R :=
  match env with
  | [] => (s, None)
  | (AttemptFails, _) :: rest => run_tx tx rest s
  | (how, c) :: rest =>
      match tx c s with
      | None => run_tx tx rest s
      | Some (s', r) =>
          match how with AttemptSucceeds => (s', Some r) | _ => run_tx tx rest s' end
      end
  end.

(** [_validate]: the lease in seconds *)
Definition validate_lease (owner : string) (lease_seconds : pynum) : result coordination_error float :=
  _ ← guard_or (negb (is_empty (strip owner)) && (str_len owner <=? 128))
        (BadArgument "owner_id must be non-empty and bounded");
  match finite_positive lease_seconds with
  | Ok (Some f) =>
      if fleb f (float_of_Z 300) then Ok f
      else Raise (BadArgument "lease_seconds must be finite and bounded")
  | Ok None => Raise (BadArgument "lease_seconds must be finite and bounded")
  | Raise _ => Raise ArgumentOverflow
  end.

Section calls.
(** PostgreSQL's [make_interval(secs => ...)], in microseconds. *)
Variable make_interval : float -> Z.

Definition acquire (p : Z) (owner : string) (lease_seconds : pynum)
    (env : list (attempt * timestamp)) (c : coordination)
    : coordination * result coordination_error ClaimHandle :=
  match validate_lease owner lease_seconds with
  | Raise e => (c, Raise e)
  | Ok lease =>
      let '(c', r) := run_tx (acquire_stmt p owner (make_interval lease)) env c in
      (c', match r with
           | None => Raise ClaimCoordination
           | Some None => Raise ClaimUnavailable
           | Some (Some h) => Ok h
           end)
  end.

Definition renew (h : ClaimHandle) (lease_seconds : pynum) (env : list (attempt * timestamp))
    (c : coordination) : coordination * result coordination_error ClaimHandle :=
  match validate_lease (owner_id h) lease_seconds with
  | Raise e => (c, Raise e)
  | Ok lease =>
      let '(c', r) := run_tx (fun now c => Some (renew_stmt h (make_interval lease) now c)) env c in
      (c', match r with
           | None => Raise ClaimCoordination
           | Some None => Raise ClaimLost
           | Some (Some h') => Ok h'
           end)
  end.
End calls.

Definition assert_current (h : ClaimHandle) (env : list (attempt * timestamp)) (c : coordination)
    : result coordination_error unit :=
  match (run_tx (fun now c => Some (c, assert_stmt h now c)) env c).2 with
  | None => Raise ClaimCoordination
  | Some false => Raise ClaimLost
  | Some true => Ok tt
  end.

(** [env] are the attempts of the UPDATE, [env2] those of the SELECT. *)
Definition release (h : ClaimHandle) (env env2 : list (attempt * timestamp)) (c : coordination)
    : coordination * result coordination_error unit :=
  let '(c', r) := run_tx (fun now c => Some (release_stmt h now c)) env c in
  (c', match r with
       | None => Raise ClaimCoordination
       | Some true => Ok tt
       | Some false =>
           match (run_tx (fun _ c => Some (c, released_stmt h c)) env2 c').2 with
           | None => Raise ClaimCoordination
           | Some false => Raise ClaimLost
           | Some true => Ok tt
           end
       end).

Definition flatten {A} (e : coordination_error) (r : option (result coordination_error A))
    : result coordination_error A :=
  match r with Some r => r | None => Raise e end.

Definition prepare_attempt (h : ClaimHandle) (env : list (attempt * (timestamp * timestamp)))
    (c : coordination) : coordination * result coordination_error ProgressState :=
  let '(c', r) := run_tx (fun clock c => Some (prepare_stmt h clock c)) env c in
  (c', flatten ProgressCoordination r).

Definition mark_network_started (h : ClaimHandle) (env : list (attempt * (timestamp * timestamp)))
    (c : coordination) : coordination * result coordination_error ProgressState :=
  let '(c', r) := run_tx (mark_tx h) env c in (c', flatten ProgressCoordination r).

Definition request_cancel (p : Z) (env : list (attempt * timestamp)) (c : coordination)
    : coordination * result coordination_error CancellationState :=
  let '(c', r) := run_tx (fun now c => Some (cancel_tx p now c)) env c in
  (c', flatten CancellationCoordination r).

Definition get_cancellation (p : Z) (env : list (attempt * unit)) (c : coordination)
    : result coordination_error (option CancellationState) :=
  match (run_tx (fun _ c => Some (c, mkCancellationState p <$> execution_plan_cancellations c !! p)) env c).2 with
  | None => Raise CancellationCoordination
  | Some r => Ok r
  end.

(** * Histories

    Committed transactions of any number of processes, in the order they commit. *)

Inductive transaction : Type :=
| TxAcquire (p : Z) (owner : string) (lease : Z) (now : timestamp)
| TxRenew (h : ClaimHandle) (lease : Z) (now : timestamp)
| TxRelease (h : ClaimHandle) (now : timestamp)
| TxPrepare (h : ClaimHandle) (clock : timestamp * timestamp)
| TxMark (h : ClaimHandle) (clock : timestamp * timestamp)
| TxCancel (p : Z) (now : timestamp)
| TxPersist (h : ClaimHandle) (now : timestamp).

Inductive outcome : Type :=
| Acquired (h : option ClaimHandle)
| Renewed (h : option ClaimHandle)
| Released (b : bool)
| Prepared (r : result coordination_error ProgressState)
| Marked (r : result coordination_error ProgressState)
| Cancelled (r : result coordination_error CancellationState)
| Persisted (r : result coordination_error bool)
| RolledBack.

Definition exec (tx : transaction) (c : coordination) : coordination * outcome :=
  match tx with
  | TxAcquire p owner lease now =>
      match acquire_stmt p owner lease now c with
      | Some (c', h) => (c', Acquired h)
      | None => (c, RolledBack)
      end
  | TxRenew h lease now => let '(c', r) := renew_stmt h lease now c in (c', Renewed r)
  | TxRelease h now => let '(c', b) := release_stmt h now c in (c', Released b)
  | TxPrepare h clock => let '(c', r) := prepare_stmt h clock c in (c', Prepared r)
  | TxMark h clock =>
      match mark_tx h clock c with Some (c', r) => (c', Marked r) | None => (c, RolledBack) end
  | TxCancel p now => let '(c', r) := cancel_tx p now c in (c', Cancelled r)
  | TxPersist h now => let '(c', r) := persist_tx h now c in (c', Persisted r)
  end.

Fixpoint history (txs : list transaction) (c : coordination)
    : coordination * list (transaction * outcome) :=
  match txs with
  | [] => (c, [])
  | tx :: rest =>
      let '(c1, o) := exec tx c in
      let '(c2, log) := history rest c1 in
      (c2, (tx, o) :: log)
  end.

Definition no_rows (plans : gset Z) : coordination := mkCoord plans ∅ ∅ ∅ ∅.

(** Events of one plan in a log. *)
Definition network_start (p : Z) (e : transaction * outcome) : bool :=
  match e with
  | (TxMark h _, Marked (Ok _)) => bool_decide (handle_plan_id h = p)
  | _ => false
  end.
Definition cancellation (p : Z) (e : transaction * outcome) : bool :=
  match e with (TxCancel q _, Cancelled (Ok _)) => bool_decide (q = p) | _ => false end.
Definition result_written (p : Z) (e : transaction * outcome) : bool :=
  match e with
  | (TxPersist h _, Persisted (Ok true)) => bool_decide (handle_plan_id h = p)
  | _ => false
  end.
Definition acquired_handle (p : Z) (e : transaction * outcome) : option ClaimHandle :=
  match e with
  | (_, Acquired (Some h)) => if bool_decide (handle_plan_id h = p) then Some h else None
  | _ => None
  end.
(** The transaction presents handle [h] and has an effect or an affirmative answer. *)
Definition accepted (h : ClaimHandle) (e : transaction * outcome) : bool :=
  match e with
  | (TxRenew k _ _, Renewed (Some _)) => bool_decide (k = h)
  | (TxRelease k _, Released true) => bool_decide (k = h)
  | (TxPrepare k _, Prepared (Ok _)) => bool_decide (k = h)
  | (TxMark k _, Marked (Ok _)) => bool_decide (k = h)
  | (TxPersist k _, Persisted (Ok _)) => bool_decide (k = h)
  | _ => false
  end.

Definition started (p : Z) (c : coordination) : Prop :=
  exists row, execution_plan_progress c !! p = Some row /\ progress_phase row = "network_started".

(** * Lemmas *)

(** What a transaction may do to the claims: it leaves the row of every plan, or keeps
    its generation, or raises it by one through an acquisition. *)
Lemma assert_stmt_true h now c : assert_stmt h now c = true ->
  exists row, execution_plan_claims c !! handle_plan_id h = Some row /\
    claim_owner_id row = Some (owner_id h) /\ claim_generation row = fencing_generation h /\
    now < lease_expires_at row.
Proof.
  unfold assert_stmt, claim_of, current, owned_by.
  destruct (execution_plan_claims c !! handle_plan_id h) as [row|]; [|done].
  intros H. bool_simpl. by exists row.
Qed.

Definition generation_of (p : Z) (c : coordination) : Z :=
  match execution_plan_claims c !! p with Some row => claim_generation row | None => 0 end.

Lemma generation_with_claim q p row c :
  generation_of q (with_claim p row c) = if bool_decide (q = p) then claim_generation row else generation_of q c.
Proof.
  unfold generation_of. cbn. rewrite lookup_insert. case_decide; case_bool_decide; congruence.
Qed.

Lemma exec_generation tx c p :
  generation_of p (exec tx c).1 = generation_of p c
  \/ (exists owner lease now, tx = TxAcquire p owner lease now
      /\ generation_of p (exec tx c).1 = generation_of p c + 1
      /\ exists h, (exec tx c).2 = Acquired (Some h) /\ handle_plan_id h = p
                   /\ fencing_generation h = generation_of p c + 1).
Proof.
  destruct tx as [q owner lease now|h lease now|h now|h clock|h clock|q now|h now]; cbn.
  - unfold acquire_stmt. destruct (execution_plan_claims c !! q) as [row|] eqn:E.
    + destruct (is_none (claim_owner_id row) || (lease_expires_at row <=? now)); cbn; [|by left].
      rewrite generation_with_claim. case_bool_decide; [|by left]. subst q.
      right. exists owner, lease, now. unfold generation_of. rewrite E. cbn. split; [done|].
      split; [done|]. eexists. done.
    + case_bool_decide as Ein; cbn; [|by left].
      rewrite generation_with_claim. case_bool_decide; [|by left]. subst q.
      right. exists owner, lease, now. unfold generation_of. rewrite E. cbn. split; [done|].
      split; [done|]. eexists. done.
  - left. unfold renew_stmt, claim_of. destruct (execution_plan_claims c !! _) as [row|] eqn:E; [|done].
    case_if; [|done]. cbn. rewrite generation_with_claim. case_bool_decide; [|done]. subst.
    unfold generation_of. by rewrite E.
  - left. unfold release_stmt, claim_of. destruct (execution_plan_claims c !! _) as [row|] eqn:E; [|done].
    case_if; [|done]. cbn. rewrite generation_with_claim. case_bool_decide; [|done]. subst.
    unfold generation_of. by rewrite E.
  - left. unfold prepare_stmt. repeat (case_match || case_if); try done; by simplify_eq.
  - left. unfold mark_tx. repeat (case_match || case_if); try done; by simplify_eq.
  - left. unfold cancel_tx. repeat (case_match || case_if); try done; by simplify_eq.
  - left. unfold persist_tx. repeat (case_match || case_if); try done; by simplify_eq.
Qed.

Lemma history_cons tx txs c : history (tx :: txs) c =
  ((history txs (exec tx c).1).1, (tx, (exec tx c).2) :: (history txs (exec tx c).1).2).
Proof. cbn. destruct (exec tx c) as [c1 o]. cbn. by destruct (history txs c1). Qed.

Lemma history_app t1 t2 c : history (t1 ++ t2) c =
  ((history t2 (history t1 c).1).1, (history t1 c).2 ++ (history t2 (history t1 c).1).2).
Proof.
  revert c. induction t1 as [|tx t1 IH]; intros c; cbn [app].
  - cbn. by destruct (history t2 c).
  - by rewrite !history_cons, IH.
Qed.

(** An event of a log happened at some state, with a history before and one after. *)
Lemma history_split txs c l1 tx o l2 : (history txs c).2 = l1 ++ (tx, o) :: l2 ->
  exists txs1 txs2 c1, txs = txs1 ++ tx :: txs2 /\ history txs1 c = (c1, l1)
    /\ (exec tx c1).2 = o /\ (history txs2 (exec tx c1).1).2 = l2.
Proof.
  revert c l1. induction txs as [|t txs IH]; intros c l1 H.
  - by destruct l1.
  - rewrite history_cons in H. cbn [snd] in H. destruct l1 as [|e l1].
    + injection H as -> <- Hl. by exists [], txs, c.
    + injection H as <- H. destruct (IH _ _ H) as (txs1 & txs2 & c1 & -> & H1 & H2 & H3).
      exists (t :: txs1), txs2, c1. split; [done|]. split; [|done].
      rewrite history_cons, H1. done.
Qed.

(** A property of states that every transaction keeps, and that excludes an event,
    excludes it from every later log. *)
Lemma history_excludes (I : coordination -> Prop) (bad : transaction * outcome -> bool) txs c :
  (forall tx c, I c -> I (exec tx c).1) -> (forall tx c, I c -> bad (tx, (exec tx c).2) = false) ->
  I c -> Forall (fun e => bad e = false) (history txs c).2 /\ I (history txs c).1.
Proof.
  intros Hkeep Hbad. revert c. induction txs as [|tx txs IH]; intros c Hc; [done|].
  rewrite history_cons. cbn. destruct (IH (exec tx c).1) as [H1 H2]; [by apply Hkeep|].
  split; [|done]. constructor; [by apply Hbad | done].
Qed.

(** [I] holds after every event of kind [ev], is kept, and excludes events of kind
    [bad]: then none of kind [bad] follows one of kind [ev]. *)
Section order.
Variables (I : coordination -> Prop) (ev bad : transaction * outcome -> bool).
Hypothesis I_kept : forall tx c, I c -> I (exec tx c).1.
Hypothesis ev_I : forall tx c, ev (tx, (exec tx c).2) = true -> I (exec tx c).1.
Hypothesis I_bad : forall tx c, I c -> bad (tx, (exec tx c).2) = false.

Lemma none_after txs c l1 e l2 : (history txs c).2 = l1 ++ e :: l2 -> ev e = true ->
  Forall (fun e' => bad e' = false) l2.
Proof using I_kept ev_I I_bad.
  destruct e as [tx o]. intros (txs1 & txs2 & c1 & _ & _ & <- & <-)%history_split He.
  apply (history_excludes I); [done|done|]. by apply ev_I.
Qed.

Lemma none_before txs c l1 e l2 : (history txs c).2 = l1 ++ e :: l2 -> bad e = true ->
  Forall (fun e' => ev e' = false) l1.
Proof using I_kept ev_I I_bad.
  revert c l1. induction txs as [|t txs IH]; intros c l1 H He; [by destruct l1|].
  rewrite history_cons in H. destruct l1 as [|e1 l1]; [constructor|]. injection H as <- H.
  constructor; [|by eapply IH]. destruct (ev _) eqn:Ev; [|done]. exfalso.
  destruct (history_excludes I bad txs (exec t c).1 I_kept I_bad (ev_I _ _ Ev)) as [Hall _].
  cbn [snd] in H. rewrite H, Forall_app, Forall_cons in Hall. destruct Hall as (_ & He' & _). congruence.
Qed.
End order.

Lemma exec_generation_le tx c p : generation_of p c <= generation_of p (exec tx c).1.
Proof. destruct (exec_generation tx c p) as [->|(? & ? & ? & _ & -> & _)]; lia. Qed.

Lemma assert_generation h now c : assert_stmt h now c = true ->
  generation_of (handle_plan_id h) c = fencing_generation h.
Proof. unfold generation_of. by intros (row & -> & _ & -> & _)%assert_stmt_true. Qed.

Lemma accepted_generation h tx c : accepted h (tx, (exec tx c).2) = true ->
  generation_of (handle_plan_id h) c = fencing_generation h.
Proof.
  destruct tx as [q owner lease now|k lease now|k now|k clock|k clock|q now|k now]; cbn.
  - destruct (acquire_stmt q owner lease now c) as [[]|]; done.
  - unfold renew_stmt, claim_of, current. destruct (execution_plan_claims c !! _) as [row|] eqn:E; [|done].
    case_if; [|done]. cbn. unfold owned_by in E0. intros. bool_simpl. subst k.
    unfold generation_of. by rewrite E.
  - unfold release_stmt, claim_of. destruct (execution_plan_claims c !! _) as [row|] eqn:E; [|done].
    case_if; [|done]. cbn. unfold owned_by in E0. intros. bool_simpl. subst k.
    unfold generation_of. by rewrite E.
  - unfold prepare_stmt. destruct (assert_stmt k clock.1 c) eqn:E; [|done].
    apply assert_generation in E. intros H. repeat (case_match || case_if_in H); simplify_eq; cbn in H; bool_simpl; congruence.
  - unfold mark_tx. destruct (bool_decide (handle_plan_id k ∈ _)); cbn; [|done].
    destruct (assert_stmt k clock.1 c) eqn:E; cbn; [|done]. apply assert_generation in E. intros H.
    repeat (case_match || case_if_in H); simplify_eq; cbn in H; bool_simpl; congruence.
  - by destruct (cancel_tx q now c).
  - unfold persist_tx. destruct (assert_stmt k now c) eqn:E; cbn; [|done].
    apply assert_generation in E. intros H. repeat (case_match || case_if_in H); simplify_eq; cbn in H; bool_simpl; congruence.
Qed.

(** ** Progress and cancellations *)

Lemma exec_progress tx c p row : execution_plan_progress c !! p = Some row ->
  progress_phase row = "network_started" -> execution_plan_progress (exec tx c).1 !! p = Some row.
Proof.
  intros Hp Hs. destruct tx as [q owner lease now|k lease now|k now|k clock|k clock|q now|k now]; cbn.
  - unfold acquire_stmt. repeat case_match; cbn in *; by simplify_eq.
  - unfold renew_stmt. repeat case_match; cbn in *; by simplify_eq.
  - unfold release_stmt. repeat case_match; cbn in *; by simplify_eq.
  - unfold prepare_stmt. destruct (decide (handle_plan_id k = p)) as [->|Hne].
    + rewrite Hp, Hs. cbn. by case_if.
    + repeat case_match; cbn in *; simplify_eq; try done; cbn; by rewrite lookup_insert_ne.
  - unfold mark_tx. destruct (decide (handle_plan_id k = p)) as [->|Hne].
    + rewrite Hp, Hs, andb_false_r. by repeat (case_if; cbn).
    + repeat case_match; cbn in *; simplify_eq; try done; cbn; by rewrite lookup_insert_ne.
  - unfold cancel_tx. repeat case_match; cbn in *; by simplify_eq.
  - unfold persist_tx. repeat case_match; cbn in *; by simplify_eq.
Qed.

Lemma exec_started tx c p : started p c -> started p (exec tx c).1.
Proof. intros (row & Hp & Hs). exists row. split; [by apply exec_progress | done]. Qed.

Definition preparation (p : Z) (e : transaction * outcome) : bool :=
  match e with
  | (TxPrepare h _, Prepared (Ok _)) => bool_decide (handle_plan_id h = p)
  | _ => false
  end.

Lemma started_excludes tx c p : started p c ->
  network_start p (tx, (exec tx c).2) || cancellation p (tx, (exec tx c).2)
  || preparation p (tx, (exec tx c).2) = false.
Proof.
  intros (row & Hp & Hs). destruct tx as [q owner lease now|k lease now|k now|k clock|k clock|q now|k now];
    try done; cbn.
  - unfold prepare_stmt. destruct (decide (handle_plan_id k = p)) as [->|Hne].
    + rewrite Hp, Hs. cbn. by case_if.
    + rewrite (bool_decide_eq_false_2 (handle_plan_id k = p)) by done. by repeat case_match.
  - unfold mark_tx. destruct (decide (handle_plan_id k = p)) as [->|Hne].
    + rewrite Hp, Hs, andb_false_r. by repeat (case_if; cbn).
    + rewrite (bool_decide_eq_false_2 (handle_plan_id k = p)) by done. by repeat case_match.
  - unfold cancel_tx. destruct (decide (q = p)) as [->|Hne].
    + rewrite Hp, Hs. cbn. by repeat (case_if; cbn).
    + rewrite (bool_decide_eq_false_2 (q = p)) by done. by repeat case_match.
Qed.

Definition is_cancelled (p : Z) (c : coordination) : Prop := execution_plan_cancellations c !! p <> None.

Lemma exec_cancelled tx c p t : execution_plan_cancellations c !! p = Some t ->
  execution_plan_cancellations (exec tx c).1 !! p = Some t.
Proof.
  intros Hp. destruct tx as [q owner lease now|k lease now|k now|k clock|k clock|q now|k now]; cbn.
  - unfold acquire_stmt. repeat case_match; cbn in *; by simplify_eq.
  - unfold renew_stmt. repeat case_match; cbn in *; by simplify_eq.
  - unfold release_stmt. repeat case_match; cbn in *; by simplify_eq.
  - unfold prepare_stmt. repeat case_match; cbn in *; by simplify_eq.
  - unfold mark_tx. repeat case_match; cbn in *; by simplify_eq.
  - unfold cancel_tx. destruct (decide (q = p)) as [->|Hne].
    + rewrite Hp. by repeat (case_if; cbn).
    + repeat case_match; cbn in *; simplify_eq; try done; cbn; by rewrite lookup_insert_ne.
  - unfold persist_tx. repeat case_match; cbn in *; by simplify_eq.
Qed.

Lemma cancelled_excludes tx c p t : execution_plan_cancellations c !! p = Some t ->
  network_start p (tx, (exec tx c).2) = false.
Proof.
  intros Hp. destruct tx as [q owner lease now|k lease now|k now|k clock|k clock|q now|k now]; try done; cbn.
  unfold mark_tx. destruct (decide (handle_plan_id k = p)) as [->|Hne].
  - rewrite Hp. cbn. by repeat (case_if; cbn).
  - rewrite (bool_decide_eq_false_2 (handle_plan_id k = p)) by done. by repeat case_match.
Qed.

Lemma network_start_started tx c p : network_start p (tx, (exec tx c).2) = true -> started p (exec tx c).1.
Proof.
  destruct tx as [q owner lease now|k lease now|k now|k clock|k clock|q now|k now]; try done; cbn.
  unfold mark_tx. intros H. repeat (case_match; cbn in *; simplify_eq; try done). bool_simpl. subst.
  eexists. cbn. rewrite lookup_insert_eq. done.
Qed.

Lemma network_start_uncancelled tx c p : network_start p (tx, (exec tx c).2) = true ->
  execution_plan_cancellations (exec tx c).1 !! p = None.
Proof.
  destruct tx as [q owner lease now|k lease now|k now|k clock|k clock|q now|k now]; try done; cbn.
  unfold mark_tx. intros H. destruct (execution_plan_cancellations c !! handle_plan_id k) eqn:E;
    repeat (case_match; cbn in *; simplify_eq; try done); bool_simpl; by subst.
Qed.

Lemma cancellation_cancelled tx c p : cancellation p (tx, (exec tx c).2) = true ->
  exists t, execution_plan_cancellations (exec tx c).1 !! p = Some t.
Proof.
  destruct tx as [q owner lease now|k lease now|k now|k clock|k clock|q now|k now]; try done; cbn.
  unfold cancel_tx. intros H. do 3 (case_if_in H; [done|]).
  destruct (execution_plan_cancellations c !! q) as [t|] eqn:Eq; cbn in *; bool_simpl; subst q;
    eexists; [done | by rewrite lookup_insert_eq].
Qed.

Lemma exec_canonical tx c p : p ∈ canonical_runs c -> p ∈ canonical_runs (exec tx c).1.
Proof.
  intros Hp. destruct tx as [q owner lease now|k lease now|k now|k clock|k clock|q now|k now]; cbn.
  - unfold acquire_stmt. repeat case_match; cbn in *; by simplify_eq.
  - unfold renew_stmt. repeat case_match; cbn in *; by simplify_eq.
  - unfold release_stmt. repeat case_match; cbn in *; by simplify_eq.
  - unfold prepare_stmt. repeat case_match; cbn in *; by simplify_eq.
  - unfold mark_tx. repeat case_match; cbn in *; by simplify_eq.
  - unfold cancel_tx. repeat case_match; cbn in *; by simplify_eq.
  - unfold persist_tx. repeat case_match; cbn in *; simplify_eq; try done. apply elem_of_union. by right.
Qed.

Lemma canonical_excludes tx c p : p ∈ canonical_runs c ->
  result_written p (tx, (exec tx c).2)
  || (cancellation p (tx, (exec tx c).2)) = false.
Proof.
  intros Hp. destruct tx as [q owner lease now|k lease now|k now|k clock|k clock|q now|k now]; try done; cbn.
  - unfold cancel_tx. destruct (decide (q = p)) as [->|Hne].
    + case_if; [done|]. by rewrite bool_decide_eq_true_2.
    + rewrite (bool_decide_eq_false_2 (q = p)) by done. by repeat case_match.
  - unfold persist_tx. destruct (decide (handle_plan_id k = p)) as [->|Hne].
    + case_if; [done|]. by rewrite bool_decide_eq_true_2.
    + rewrite (bool_decide_eq_false_2 (handle_plan_id k = p)) by done. by repeat case_match.
Qed.

Lemma result_written_canonical tx c p : result_written p (tx, (exec tx c).2) = true ->
  p ∈ canonical_runs (exec tx c).1.
Proof.
  destruct tx as [q owner lease now|k lease now|k now|k clock|k clock|q now|k now]; try done; cbn.
  unfold persist_tx. intros H. do 2 (case_if_in H; [done|]). cbn in *. bool_simpl. subst.
  apply elem_of_union. left. by apply elem_of_singleton.
Qed.

(** ** Calls as histories *)

Lemma run_tx_history {C R} (tx : C -> transaction) (f : C -> coordination -> option (coordination * R))
    (wrap : R -> outcome) env c c' r :
  (forall k s, exec (tx k) s = match f k s with Some (s', x) => (s', wrap x) | None => (s, RolledBack) end) ->
  run_tx f env c = (c', r) ->
  exists ks, (history (tx <$> ks) c).1 = c' /\ (forall k, k ∈ ks -> k ∈ env.*2)
    /\ forall x, r = Some x -> exists l k, (history (tx <$> ks) c).2 = l ++ [(tx k, wrap x)].
Proof.
  intros Hexec. revert c. induction env as [|[how k] env IH]; intros c H.
  - injection H as <- <-. exists []. split; [done|]. split; [|done]. intros k Hk. by apply elem_of_nil in Hk.
  - assert (Hskip : forall s, run_tx f env s = (c', r) -> exists ks, (history (tx <$> ks) s).1 = c'
      /\ (forall k', k' ∈ ks -> k' ∈ ((how, k) :: env).*2)
      /\ forall x, r = Some x -> exists l k', (history (tx <$> ks) s).2 = l ++ [(tx k', wrap x)]).
    { intros s Hs. destruct (IH s Hs) as (ks & H1 & H2 & H3). exists ks. split; [done|].
      split; [|done]. intros k' Hk'. cbn. right. by apply H2. }
    cbn in H. specialize (Hexec k c). destruct how; [by apply Hskip| |];
      (destruct (f k c) as [[s' y]|]; [|by apply Hskip]).
    + destruct (IH s' H) as (ks & H1 & H2 & H3). exists (k :: ks). rewrite fmap_cons, history_cons, Hexec.
      split; [done|]. split; [intros k' [->|Hk']%elem_of_cons; cbn; [left | right; by apply H2]|].
      intros y' Hy'. destruct (H3 y' Hy') as (l & k' & Hl). exists ((tx k, wrap y) :: l), k'. cbn in *. by rewrite Hl.
    + injection H as <- <-. exists [k]. rewrite fmap_cons, history_cons, Hexec. split; [done|].
      split; [intros k' ->%list_elem_of_singleton; cbn; left|]. intros y' [= <-]. by exists [], k.
Qed.

Lemma mark_call h env c c' r : mark_network_started h env c = (c', r) ->
  exists clocks, (history (TxMark h <$> clocks) c).1 = c'
    /\ forall st, r = Ok st -> exists l clock,
         (history (TxMark h <$> clocks) c).2 = l ++ [(TxMark h clock, Marked (Ok st))].
Proof.
  unfold mark_network_started. destruct (run_tx _ env c) as [c1 r1] eqn:E. intros [= -> <-].
  apply (run_tx_history (TxMark h) _ Marked) in E; [|intros k s; cbn; by repeat case_match].
  destruct E as (ks & H1 & _ & H2). exists ks. split; [done|]. intros st Hst.
  destruct r1 as [[st'|]|]; try done. cbn in Hst. injection Hst as <-.
  destruct (H2 _ eq_refl) as (l & k & Hl). by exists l, k.
Qed.

Lemma acquired_spec tx c p k : acquired_handle p (tx, (exec tx c).2) = Some k ->
  handle_plan_id k = p /\ fencing_generation k = generation_of p c + 1
  /\ generation_of p (exec tx c).1 = generation_of p c + 1.
Proof.
  destruct tx as [q owner lease now|h lease now|h now|h clock|h clock|q now|h now]; cbn.
  - unfold acquire_stmt. destruct (execution_plan_claims c !! q) as [row|] eqn:E.
    + case_if; cbn; [|done]. case_bool_decide; [|done]. intros [= <-]. cbn. subst q.
      rewrite generation_with_claim, bool_decide_eq_true_2 by done. unfold generation_of. by rewrite E.
    + case_bool_decide; cbn; [|done]. case_bool_decide; [|done]. intros [= <-]. cbn. subst q.
      rewrite generation_with_claim, bool_decide_eq_true_2 by done. unfold generation_of. by rewrite E.
  - by destruct (renew_stmt h lease now c).
  - by destruct (release_stmt h now c).
  - by destruct (prepare_stmt h clock c).
  - by destruct (mark_tx h clock c) as [[]|].
  - by destruct (cancel_tx q now c).
  - by destruct (persist_tx h now c).
Qed.

Lemma generation_excludes p g l c : g <= generation_of p c ->
  Forall (fun e => (forall k, handle_plan_id k = p -> fencing_generation k < g -> accepted k e = false)
                   /\ (forall k, acquired_handle p e = Some k -> g < fencing_generation k)) (history l c).2.
Proof.
  revert c. induction l as [|tx l IH]; intros c Hc; [constructor|]. rewrite history_cons. cbn [snd].
  constructor; [|apply IH; pose proof (exec_generation_le tx c p); lia]. split.
  - intros k Hk Hlt. destruct (accepted k (tx, (exec tx c).2)) eqn:E; [|done].
    apply accepted_generation in E. rewrite Hk in E. lia.
  - intros k (_ & Hk & _)%acquired_spec. lia.
Qed.

(** * Properties *)

(** C7: Fencing. In every history of committed transactions, once a claim of a plan has
    been acquired with generation [g], every later acquisition of the plan gets a
    larger generation, and no handle of a smaller generation is ever accepted again:
    it cannot renew, release, prepare, cross the network boundary or persist a
    result. *)
Theorem fencing txs c l1 tx o l2 h :
  (history txs c).2 = l1 ++ (tx, o) :: l2 -> acquired_handle (handle_plan_id h) (tx, o) = Some h ->
  Forall (fun e => forall k, handle_plan_id k = handle_plan_id h ->
            fencing_generation k < fencing_generation h -> accepted k e = false) l2
  /\ Forall (fun e => forall k, acquired_handle (handle_plan_id h) e = Some k ->
              fencing_generation h < fencing_generation k) l2.
Proof.
  intros (txs1 & txs2 & c1 & _ & _ & Ho & <-)%history_split Hh. rewrite <- Ho in Hh.
  apply acquired_spec in Hh as (_ & Hg & Hg').
  assert (H : fencing_generation h <= generation_of (handle_plan_id h) (exec tx c1).1) by lia.
  pose proof (generation_excludes _ _ txs2 _ H) as Hall.
  split; (eapply Forall_impl; [exact Hall|]); naive_solver.
Qed.

(** The network boundary is crossed at most once per plan, and never for a cancelled
    plan. In every history: around the event that marks a plan's network start, no
    other event marks it, none cancels the plan before or after, and none prepares
    another attempt after it, whoever holds the claim. *)
Theorem network_start_once txs c l1 e l2 p :
  (history txs c).2 = l1 ++ e :: l2 -> network_start p e = true ->
  Forall (fun e' => (network_start p e' || cancellation p e') = false) l1
  /\ Forall (fun e' => (network_start p e' || cancellation p e' || preparation p e') = false) l2.
Proof.
  intros Hlog Hstart. split.
  - assert (H1 : Forall (fun e' => network_start p e' = false) l1).
    { eapply (none_before (started p) (network_start p) (network_start p)); eauto using exec_started, network_start_started.
      intros tx s Hs%(started_excludes tx). by bool_simpl. }
    assert (H2 : Forall (fun e' => cancellation p e' = false) l1).
    { eapply (none_before (fun s => exists t, execution_plan_cancellations s !! p = Some t) (cancellation p) (network_start p));
        eauto using cancellation_cancelled.
      - intros tx s [t Ht]. exists t. by apply exec_cancelled.
      - intros tx s [t Ht]. by eapply cancelled_excludes. }
    rewrite Forall_forall in *. intros e' He'. by rewrite H1, H2.
  - eapply (none_after (started p) (network_start p)); eauto using exec_started, network_start_started.
    intros tx s. apply started_excludes.
Qed.

(** C8: A plan gets at most one canonical result, written under a claim that is current
    when the result is inserted: in every history no second result is written, and
    no cancellation is granted once a result exists. *)
Theorem result_once txs c l1 h now o l2 :
  (history txs c).2 = l1 ++ (TxPersist h now, o) :: l2 ->
  result_written (handle_plan_id h) (TxPersist h now, o) = true ->
  Forall (fun e => result_written (handle_plan_id h) e = false) (l1 ++ l2)
  /\ Forall (fun e => cancellation (handle_plan_id h) e = false) l2
  /\ exists c1 row, (exists txs1, history txs1 c = (c1, l1)) /\
       execution_plan_claims c1 !! handle_plan_id h = Some row /\
       claim_owner_id row = Some (owner_id h) /\ claim_generation row = fencing_generation h /\
       now < lease_expires_at row.
Proof.
  set (p := handle_plan_id h). intros Hlog Hw.
  assert (Hex : forall tx s, p ∈ canonical_runs s -> result_written p (tx, (exec tx s).2) = false).
  { intros tx s Hs%(canonical_excludes tx). by bool_simpl. }
  split; [|split].
  - apply Forall_app. split.
    + eapply (none_before (fun s => p ∈ canonical_runs s) (result_written p) (result_written p));
        eauto using exec_canonical, result_written_canonical.
    + eapply (none_after (fun s => p ∈ canonical_runs s) (result_written p) (result_written p));
        eauto using exec_canonical, result_written_canonical.
  - eapply (none_after (fun s => p ∈ canonical_runs s) (result_written p) (cancellation p));
      eauto using exec_canonical, result_written_canonical.
    intros tx s Hs%(canonical_excludes tx). by bool_simpl.
  - destruct (history_split _ _ _ _ _ _ Hlog) as (txs1 & txs2 & c1 & _ & H1 & Ho & _). exists c1.
    cbn in Ho. unfold persist_tx in Ho. destruct (assert_stmt h now c1) eqn:E.
    + apply assert_stmt_true in E as (row & ? & ? & ? & ?). exists row. split; [by exists txs1 | done].
    + cbn in Ho. by subst o.
Qed.

(** The claim statement gives exactly what the lease protocol promises: a claim is
    granted if and only if the plan is unclaimed, released or its lease is over at the
    database's clock; the handle carries the next generation and the new expiry; a
    refused claim changes nothing; an unknown plan violates the foreign key. *)
Theorem acquire_exact p owner lease now c :
  match acquire_stmt p owner lease now c with
  | None => (p ∉ execution_plans c) /\ execution_plan_claims c !! p = None
  | Some (c', None) => c' = c /\ exists row o, execution_plan_claims c !! p = Some row /\
      claim_owner_id row = Some o /\ now < lease_expires_at row
  | Some (c', Some h) =>
      h = mkHandle p owner (generation_of p c + 1) (now + lease) now
      /\ c' = with_claim p (mkClaim (Some owner) (generation_of p c + 1) (now + lease)) c
      /\ (forall row o, execution_plan_claims c !! p = Some row -> claim_owner_id row = Some o ->
          lease_expires_at row <= now)
      /\ (0 < lease -> assert_stmt h now c' = true)
  end.
Proof.
  unfold acquire_stmt, generation_of.
  assert (Hcur : forall h row, execution_plan_claims c !! p = row -> handle_plan_id h = p ->
    0 < lease -> forall c', c' = with_claim p (mkClaim (Some (owner_id h)) (fencing_generation h) (now + lease)) c ->
    assert_stmt h now c' = true).
  { intros h row _ Hp Hl c' ->. unfold assert_stmt, claim_of, current, owned_by. cbn.
    rewrite Hp, lookup_insert_eq. cbn. rewrite bool_decide_eq_true_2, Z.eqb_refl by done. cbn.
    apply Z.ltb_lt. lia. }
  destruct (execution_plan_claims c !! p) as [row|] eqn:E.
  - destruct (is_none (claim_owner_id row) || (lease_expires_at row <=? now)) eqn:Ef.
    + split; [done|]. split; [done|]. split; [|intros Hl; by eapply Hcur].
      intros row' o [= <-] Ho. rewrite Ho in Ef. cbn in Ef. by bool_simpl.
    + bool_simpl. split; [done|]. destruct (claim_owner_id row) as [o|] eqn:Eo; [|done]. by exists row, o.
  - case_bool_decide; [|done]. split; [done|]. split; [done|]. split; [done|].
    intros Hl. by eapply Hcur.
Qed.

(** Over service calls with their retries and lost answers: a call of
    [mark_network_started] that returns found the plan not yet started and leaves it
    started and uncancelled, and after it no call for that plan, by any handle and with
    any retries, ever returns again: at most one caller is told to send the request. *)
Theorem mark_confirms_once h env c c' st :
  mark_network_started h env c = (c', Ok st) ->
  ~ started (handle_plan_id h) c /\ started (handle_plan_id h) c'
  /\ execution_plan_cancellations c' !! handle_plan_id h = None
  /\ forall txs h2 env2 st2, handle_plan_id h2 = handle_plan_id h ->
       (mark_network_started h2 env2 (history txs c').1).2 <> Ok st2.
Proof.
  intros H. destruct (mark_call _ _ _ _ _ H) as (clocks & <- & Hlog).
  destruct (Hlog st eq_refl) as (l & clock & Hl). set (p := handle_plan_id h) in *.
  assert (Hev : network_start p (TxMark h clock, Marked (Ok st)) = true) by (cbn; by apply bool_decide_eq_true).
  assert (Hst : started p (history (TxMark h <$> clocks) c).1 /\
    execution_plan_cancellations (history (TxMark h <$> clocks) c).1 !! p = None).
  { destruct (history_split _ _ _ _ _ _ Hl) as (t1 & t2 & c1 & -> & H1 & Ho & Hnil).
    destruct t2 as [|t t2]; [|rewrite history_cons in Hnil; done].
    rewrite history_app, history_cons, H1. cbn [fst]. rewrite <- Ho in Hev.
    split; [by apply network_start_started | by eapply network_start_uncancelled]. }
  destruct Hst as [Hst Hnc]. split; [|split; [done|split; [done|]]].
  - intros Hs. destruct (history_excludes (started p) (network_start p) (TxMark h <$> clocks) c) as [Hall _];
      [eauto using exec_started | | done |].
    + intros tx s Hs'%(started_excludes tx). by bool_simpl.
    + rewrite Hl, Forall_app, Forall_cons in Hall. destruct Hall as (_ & He & _). congruence.
  - intros txs h2 env2 st2 Hh2 Hr2.
    destruct (mark_network_started h2 env2 _) as [c2 r2] eqn:E2. cbn in Hr2. subst r2.
    destruct (mark_call _ _ _ _ _ E2) as (clocks2 & _ & Hlog2). destruct (Hlog2 st2 eq_refl) as (l2 & k2 & Hl2).
    set (c3 := (history txs (history (TxMark h <$> clocks) c).1).1) in *.
    assert (Hexcl : forall tx s, started p s -> network_start p (tx, (exec tx s).2) = false).
    { intros tx s Hs'%(started_excludes tx). by bool_simpl. }
    assert (H3 : started p c3).
    { apply (history_excludes (started p) (network_start p)); eauto using exec_started. }
    destruct (history_excludes (started p) (network_start p) (TxMark h2 <$> clocks2) c3) as [Hall _];
      [eauto using exec_started | done | done |].
    rewrite Hl2, Forall_app, Forall_cons in Hall. destruct Hall as (_ & He & _). cbn in He.
    rewrite Hh2 in He. by rewrite bool_decide_eq_true_2 in He.
Qed.

(** * Witnesses

    A and B race for plan 5: A's lease ends before it crosses the boundary. *)

Definition lab_plan_rows : coordination := no_rows {[ 5 ]}.
Definition handle_a : ClaimHandle := mkHandle 5 "A" 1 100 0.
Definition handle_b : ClaimHandle := mkHandle 5 "B" 2 300 200.
Definition lab_race : list transaction :=
  [TxAcquire 5 "A" 100 0; TxPrepare handle_a (1, 1); TxAcquire 5 "B" 100 50;
   TxAcquire 5 "B" 100 200; TxMark handle_a (210, 210); TxPrepare handle_b (220, 220);
   TxMark handle_b (230, 230); TxCancel 5 240; TxPersist handle_a 250; TxPersist handle_b 260;
   TxRelease handle_b 270; TxAcquire 5 "A" 100 280; TxPersist handle_b 290].

Lemma fencing_witness :
  Forall (fun e => forall k, handle_plan_id k = 5 -> fencing_generation k < 2 -> accepted k e = false)
    (drop 4 (history lab_race lab_plan_rows).2).
Proof.
  apply (fencing lab_race lab_plan_rows (take 3 (history lab_race lab_plan_rows).2)
    (TxAcquire 5 "B" 100 200) (Acquired (Some handle_b)) _ handle_b); vm_compute; reflexivity.
Defined.

Lemma network_start_once_witness :
  Forall (fun e => network_start 5 e || cancellation 5 e || preparation 5 e = false)
    (drop 7 (history lab_race lab_plan_rows).2).
Proof.
  apply (network_start_once lab_race lab_plan_rows (take 6 (history lab_race lab_plan_rows).2)
    (TxMark handle_b (230, 230), Marked (Ok (mkProgressState 5 2 "network_started" 230))));
    vm_compute; reflexivity.
Defined.

Lemma result_once_witness :
  Forall (fun e => result_written 5 e = false)
    (take 9 (history lab_race lab_plan_rows).2 ++ drop 10 (history lab_race lab_plan_rows).2).
Proof.
  apply (result_once lab_race lab_plan_rows _ handle_b 260 (Persisted (Ok true))); vm_compute; reflexivity.
Defined.

Lemma mark_confirms_once_witness :
  let c := (history (take 6 lab_race) lab_plan_rows).1 in
  ~ started 5 c /\ started 5 (mark_network_started handle_b [(AttemptFails, (0, 0)); (AttemptSucceeds, (230, 230))] c).1.
Proof.
  set (env := [(AttemptFails, (0, 0)); (AttemptSucceeds, (230, 230))]).
  set (c := (history (take 6 lab_race) lab_plan_rows).1).
  destruct (mark_confirms_once handle_b env c (mark_network_started handle_b env c).1
    (mkProgressState 5 2 "network_started" 230)) as (H1 & H2 & _); [vm_compute; reflexivity|]. by split.
Defined.
