(* ===== verification/AuthContext.v ===== *)
(** Authentication contexts, src/backend/app/auth/context.py, and the redaction of
    headers before they are stored, src/backend/app/services/test_execution.py. *)

From S2P Require Import Prelude.
From S2P Require Import PyStr.
From S2P Require Import PyUrl.
From S2P Require Import PyJson.
From S2P Require Import Models.
From S2P Require Import Samples.

Open Scope Z_scope.

(** [AuthenticationContextError] *)
Inductive context_error : Type := AuthenticationContextError (message : string).

Record AuthenticationContext := mkContext {
  context_identity_id : Z;
  context_identity_name : string;
  context_auth_type : string;
  context_headers : list (string * string)
}.

(** [bearer_token] is the secret's value. *)
Definition build_authentication_context (identity : TestIdentity) (bearer_token : option string)
    : result context_error AuthenticationContext :=
  let context (headers : list (string * string)) :=
    mkContext (identity_id identity) (identity_name identity) (auth_type identity) headers in
  if negb (identity_is_active identity) then
    Raise (AuthenticationContextError "test identity is inactive")
  else if bool_decide (auth_type identity = "none") || bool_decide (auth_type identity = "anonymous") then
    Ok (context [])
  else if bool_decide (auth_type identity = "bearer") then
    match bearer_token with
    | None => Raise (AuthenticationContextError "bearer identity has no valid access token")
    | Some token =>
        if is_empty (strip token) then
          Raise (AuthenticationContextError "bearer access token is empty")
        else if contains_char (chr 13) token || contains_char (chr 10) token then
          Raise (AuthenticationContextError "bearer access token contains invalid newline characters")
        else if startswith "bearer " (lower token) then
          Raise (AuthenticationContextError "bearer access token must be raw")
        else Ok (context [("Authorization", "Bearer " +:+ token)])
    end
  else Raise (AuthenticationContextError
         ("unsupported authentication type: " +:+ repr (auth_type identity))).

Definition is_authorization (name : string) : bool := bool_decide (lower (strip name) = "authorization").

(** [dict.update] *)
Definition dict_update {A} (d updates : list (string * A)) : list (string * A) :=
  fold_left (fun acc kv => assoc_set kv.1 kv.2 acc) updates d.

(** [request_headers] is a dict, or [None]. *)
Definition apply_authentication_context (request_headers : option (list (string * string)))
    (context : AuthenticationContext) : result context_error (list (string * string)) :=
  let headers := default [] request_headers in
  if existsb (fun h => is_authorization h.1) headers then
    Raise (AuthenticationContextError "request headers must not set Authorization directly")
  else Ok (dict_update headers (context_headers context)).

(** * Redaction *)

Definition SENSITIVE_HEADER_NAMES : list string := ["authorization"; "cookie"; "x-api-key"].
Definition is_sensitive (name : string) : bool := bool_decide (lower (strip name) ∈ SENSITIVE_HEADER_NAMES).

Definition redact_headers (headers : list (string * string)) : list (string * string) :=
  (fun h => (h.1, if is_sensitive h.1 then "[REDACTED]" else h.2)) <$> headers.

Definition MAX_STORED_RESPONSE_BYTES : Z := 64000.

(** [body[:64000].decode("utf-8", errors="replace")] of a body of bytes *)
Definition decode_response_body (body : string) : string :=
  utf8_replace (str_take (Z.to_nat MAX_STORED_RESPONSE_BYTES) body).

(** * Lemmas *)

Lemma assoc_set_elem {A} k (v : A) o n w : (n, w) ∈ assoc_set k v o -> (n, w) = (k, v) \/ (n, w) ∈ o.
Proof.
  induction o as [|[k' v'] o IH]; cbn.
  - intros H%list_elem_of_singleton. by left.
  - case_if.
    + intros [H|H]%elem_of_cons; [left | right; by right]. bool_simpl. by subst.
    + intros [H|H]%elem_of_cons; [right; rewrite H; left|]. destruct (IH H); [by left | right; by right].
Qed.

Lemma context_headers_shape identity token context :
  build_authentication_context identity token = Ok context ->
  identity_is_active identity = true /\
  (context_headers context = [] /\ (auth_type identity = "none" \/ auth_type identity = "anonymous")
   \/ exists t, token = Some t /\ auth_type identity = "bearer" /\ contains_char (chr 13) t = false
       /\ contains_char (chr 10) t = false
       /\ context_headers context = [("Authorization", "Bearer " +:+ t)]).
Proof.
  unfold build_authentication_context. intros H. head_if H; [done|]. apply negb_false_iff in E. split; [done|].
  head_if H.
  - injection H as <-. left. split; [done|]. apply orb_prop in E0 as [E0|E0]; bool_simpl; auto.
  - head_if H; [|done]. destruct token as [t|]; [|done]. do 3 (head_if H; [done|]). injection H as <-.
    right. exists t. bool_simpl. done.
Qed.

(** * Properties *)

(** The headers of an authenticated request carry exactly the credential of the
    acting identity: an active bearer identity's request has the one Authorization
    header of its own token, free of line breaks; an anonymous identity's request has
    none; and no header of the caller is kept that is an Authorization header in any
    spelling. *)
Theorem authenticated_headers identity token context request headers :
  build_authentication_context identity token = Ok context ->
  apply_authentication_context request context = Ok headers ->
  identity_is_active identity = true
  /\ (forall name value, (name, value) ∈ headers -> is_authorization name = true ->
      exists t, token = Some t /\ auth_type identity = "bearer" /\ name = "Authorization"
        /\ value = "Bearer " +:+ t /\ contains_char (chr 13) value = false
        /\ contains_char (chr 10) value = false)
  /\ (auth_type identity = "bearer" -> exists t, token = Some t /\
      assoc "Authorization" headers = Some ("Bearer " +:+ t)).
Proof.
  intros [Hact Hshape]%context_headers_shape. unfold apply_authentication_context.
  set (base := default [] request). case_if; [done|]. intros [= <-]. split; [done|].
  assert (Hbase : forall n v, (n, v) ∈ base -> is_authorization n = false).
  { intros n v Hin. apply not_true_iff_false. intros Ha. apply not_true_iff_false in E. apply E.
    apply existsb_exists. exists (n, v). split; [by apply list_elem_of_In | done]. }
  destruct Hshape as [[-> Ht]|(t & -> & Ht & H13 & H10 & ->)];
    unfold dict_update; cbn [fold_left fst snd].
  - split.
    + intros n v Hin Ha. by rewrite (Hbase n v Hin) in Ha.
    + intros Hb. rewrite Hb in Ht. by destruct Ht.
  - split.
    + intros n v Hin Ha. apply assoc_set_elem in Hin as [[= -> ->]|Hin].
      * assert (Hlack : forall c, contains_char c "Bearer " = false -> contains_char c t = false ->
          contains_char c ("Bearer " +:+ t) = false) by (intros c H1 H2; by rewrite contains_char_app, H1, H2).
        exists t. repeat split; try done; by apply Hlack.
      * by rewrite (Hbase n v Hin) in Ha.
    + intros _. exists t. split; [done|]. apply assoc_set_lookup.
Qed.

(** Redaction keeps the names and their order and every value that is not
    sensitive, and no sensitive value survives: the value of every header named
    Authorization, Cookie or X-API-Key, in any case and with surrounding blanks, is
    replaced. *)
Theorem redaction_complete headers :
  (redact_headers headers).*1 = headers.*1
  /\ (forall name value, (name, value) ∈ redact_headers headers ->
      if is_sensitive name then value = "[REDACTED]" else (name, value) ∈ headers)
  /\ redact_headers (redact_headers headers) = redact_headers headers.
Proof.
  unfold redact_headers. split; [|split].
  - rewrite <- list_fmap_compose. by apply list_fmap_ext.
  - intros name value (h & [= -> ->] & Hin)%list_elem_of_fmap. case_if; [done|]. by destruct h.
  - rewrite <- list_fmap_compose. apply list_fmap_ext. intros i [n v] _. cbn. by case_if.
Qed.

(** * Witness *)

Lemma authenticated_headers_witness :
  assoc "Authorization" [("Accept", "application/json"); ("Authorization", "Bearer s3cret")]
    = Some ("Bearer s3cret").
Proof.
  destruct (authenticated_headers lab_alice (Some "s3cret")
    (mkContext 21 "alice" "bearer" [("Authorization", "Bearer s3cret")])
    (Some [("Accept", "application/json")])
    [("Accept", "application/json"); ("Authorization", "Bearer s3cret")]) as (_ & _ & H);
    [vm_compute; reflexivity | vm_compute; reflexivity |].
  destruct (H eq_refl) as (t & [= <-] & Ht). exact Ht.
Defined.
