(* ===== verification/Generator.v ===== *)
(** Test case generation: src/backend/app/domain/ownership.py, generators/bola.py and
    generators/bola_matrix.py. *)

From S2P Require Import Prelude.
From S2P Require Import PyStr.
From S2P Require Import Models.
From S2P Require Import Samples.

Open Scope Z_scope.

(** * Ownership *)

Inductive OwnershipRelation : Type := OWNER | CROSS_OWNER | ANONYMOUS.
#[export] Instance OwnershipRelation_eq_dec : EqDecision OwnershipRelation.
Proof. solve_decision. Defined.

Definition relation_value (r : OwnershipRelation) : string :=
  match r with OWNER => "owner" | CROSS_OWNER => "cross_owner" | ANONYMOUS => "anonymous" end.

Inductive ownership_error : Type := OwnershipError (message : string).

Definition determine_ownership_relation (actor : TestIdentity) (resource : Resource)
    : result ownership_error OwnershipRelation :=
  if negb (identity_target_id actor =? resource_target_id resource) then
    Raise (OwnershipError "actor and resource belong to different targets")
  else if bool_decide (auth_type actor = "anonymous") then Ok ANONYMOUS
  else if identity_id actor =? owner_identity_id resource then Ok OWNER
  else Ok CROSS_OWNER.

(** * Resource bindings *)

Definition is_word (c : ascii) : bool := is_alnum c || bool_decide (c = "_"%char).

(** The longest run of word characters, and what follows. *)
Fixpoint word_run (s : string) : string * string :=
  match s with
  | EmptyString => (EmptyString, EmptyString)
  | String c s' =>
      if is_word c then let '(r, t) := word_run s' in (String c r, t) else (EmptyString, s)
  end.

(** [RESOURCE_ID_PARAMETER_PATTERN] at a position just after an opening brace: the
    group that it captures. The characters of the group and of the suffix are word
    characters, so the match ends at the first character that is none. *)
Definition match_parameter (s : string) : option string :=
  let '(word, rest) := word_run s in
  let base := str_take (String.length word - 3) word in
  if startswith "}" rest && endswith "_id" word
     && match base with String c _ => is_alpha c | EmptyString => false end
  then Some base else None.

(** [finditer]: the captured groups, left to right. A match contains no opening brace
    but its first character, so resuming one character on finds the same matches. *)
Fixpoint find_parameters (s : string) : list string :=
  match s with
  | EmptyString => []
  | String c s' =>
      match (if bool_decide (c = "{"%char) then match_parameter s' else None) with
      | Some base => base :: find_parameters s'
      | None => find_parameters s'
      end
  end.

Record EndpointResourceBinding := mkResourceBinding {
  parameter_name : string;
  binding_resource_type : string
}.

Definition detect_resource_binding (endpoint : Endpoint) : option EndpointResourceBinding :=
  match find_parameters (endpoint_path endpoint) with
  | [base] => Some (mkResourceBinding (base +:+ "_id") (lower base))
  | _ => None
  end.

(** * Test cases *)

Definition SUPPORTED_BOLA_METHODS : list string := ["GET"; "PATCH"; "DELETE"].
Definition OWNER_BASELINE : string := "owner_baseline".
Definition BOLA_CROSS_OWNER : string := "bola_cross_owner".
Definition ANONYMOUS_ACCESS : string := "anonymous_access".
Definition CROSS_OWNER_EXPECTED_STATUSES : list Z := [403; 404].
Definition ANONYMOUS_EXPECTED_STATUSES : list Z := [401; 403; 404].

(** [None] is the [KeyError]. *)
Definition OWNER_EXPECTED_STATUSES_BY_METHOD (method : string) : option (list Z) :=
  if bool_decide (method = "GET") then Some [200]
  else if bool_decide (method = "PATCH") || bool_decide (method = "DELETE") then Some [200; 204]
  else None.

Record GeneratedTestCase := mkGenerated {
  generated_endpoint_id : Z;
  generated_actor_identity_id : Z;
  generated_resource_id : Z;
  generated_test_type : string;
  generated_relation : string;
  expected_statuses : list Z
}.
#[export] Instance GeneratedTestCase_eq_dec : EqDecision GeneratedTestCase.
Proof. solve_decision. Defined.

Inductive generation_error : Type := GenerationOwnership (e : ownership_error) | GenerationKeyError.

(** One turn of the innermost loop. *)
Definition generate_case (endpoint : Endpoint) (actor : TestIdentity) (resource : Resource)
    : result generation_error GeneratedTestCase :=
  let case (test_type : string) (r : OwnershipRelation) (statuses : list Z) :=
    mkGenerated (endpoint_id endpoint) (identity_id actor) (resource_id resource) test_type
      (relation_value r) statuses in
  match determine_ownership_relation actor resource with
  | Raise e => Raise (GenerationOwnership e)
  | Ok OWNER =>
      statuses ← require (OWNER_EXPECTED_STATUSES_BY_METHOD (endpoint_method endpoint)) GenerationKeyError;
      Ok (case OWNER_BASELINE OWNER statuses)
  | Ok CROSS_OWNER => Ok (case BOLA_CROSS_OWNER CROSS_OWNER CROSS_OWNER_EXPECTED_STATUSES)
  | Ok ANONYMOUS => Ok (case ANONYMOUS_ACCESS ANONYMOUS ANONYMOUS_EXPECTED_STATUSES)
  end.

Definition matching_resources (endpoint : Endpoint) (binding : EndpointResourceBinding)
    (resources : list Resource) : list Resource :=
  filter (fun r => resource_target_id r = endpoint_target_id endpoint
                   /\ resource_type r = binding_resource_type binding) resources.
Definition matching_actors (endpoint : Endpoint) (actors : list TestIdentity) : list TestIdentity :=
  filter (fun a => identity_target_id a = endpoint_target_id endpoint /\ identity_is_active a = true) actors.

(** The body of the loop over the endpoints. *)
Definition generate_for_endpoint (actors : list TestIdentity) (resources : list Resource)
    (endpoint : Endpoint) : result generation_error (list GeneratedTestCase) :=
  if negb (bool_decide (endpoint_method endpoint ∈ SUPPORTED_BOLA_METHODS)) then Ok []
  else
    match detect_resource_binding endpoint with
    | None => Ok []
    | Some binding =>
        match matching_resources endpoint binding resources with
        | [] => Ok []
        | matching =>
            cases ← map_result
              (fun actor => map_result (fun resource => generate_case endpoint actor resource) matching)
              (matching_actors endpoint actors);
            Ok (concat cases)
        end
    end.

Definition generate_bola_test_cases (endpoints : list Endpoint) (actors : list TestIdentity)
    (resources : list Resource) : result generation_error (list GeneratedTestCase) :=
  cases ← map_result (generate_for_endpoint actors resources) endpoints;
  Ok (concat cases).

(** * The access matrix *)

Definition MAX_BOLA_MATRIX_FACTS : Z := 512.

Inductive planning_error : Type := FactLimitExceeded | DuplicateAccessFact | InvalidAccessFact.
#[export] Instance planning_error_eq_dec : EqDecision planning_error.
Proof. solve_decision. Defined.

Record BOLAMatrixAccessFact := mkFact {
  fact_endpoint_id : Z;
  fact_resource_id : Z;
  fact_test_identity_id : Z;
  identity_auth_type : string;
  resolution_state : string;
  fact_relationship : string;
  fact_expected_access : string;
  supporting_assertion_ids : list Z
}.

(** [__post_init__]: the field types are those of the record. *)
Definition fact_valid (f : BOLAMatrixAccessFact) : bool :=
  (0 <? fact_endpoint_id f) && (0 <? fact_resource_id f) && (0 <? fact_test_identity_id f)
  && bool_decide (resolution_state f ∈ ["resolved"; "insufficient"; "conflict"])
  && bool_decide (fact_relationship f ∈ ["owner"; "shared"; "non_owner"; "unspecified"])
  && bool_decide (fact_expected_access f ∈ ["allowed"; "denied"; "unspecified"])
  && forallb (fun i => 0 <? i) (supporting_assertion_ids f).
Definition new_fact (f : BOLAMatrixAccessFact) : result planning_error BOLAMatrixAccessFact :=
  if fact_valid f then Ok f else Raise InvalidAccessFact.

Record BOLAMatrixCandidate := mkCandidate {
  candidate_endpoint_id : Z;
  candidate_resource_id : Z;
  candidate_test_identity_id : Z;
  subject_kind : string;
  candidate_kind : string;
  candidate_relationship : string;
  candidate_expected_access : string;
  candidate_assertion_ids : list Z
}.
#[export] Instance BOLAMatrixCandidate_eq_dec : EqDecision BOLAMatrixCandidate.
Proof. solve_decision. Defined.

(** The candidate of one fact, [None] when the loop continues without one. *)
Definition candidate_of (f : BOLAMatrixAccessFact) : option BOLAMatrixCandidate :=
  let candidate (subject kind : string) :=
    mkCandidate (fact_endpoint_id f) (fact_resource_id f) (fact_test_identity_id f) subject kind
      (fact_relationship f) (fact_expected_access f) (supporting_assertion_ids f) in
  if negb (bool_decide (resolution_state f = "resolved"))
     || negb (bool_decide (fact_expected_access f = "allowed")
              || bool_decide (fact_expected_access f = "denied")) then None
  else if bool_decide (identity_auth_type f = "anonymous") then
    Some (candidate "anonymous" "anonymous_access")
  else if bool_decide (fact_relationship f = "owner") then Some (candidate "authenticated" "owner_access")
  else if bool_decide (fact_relationship f = "shared") then Some (candidate "authenticated" "shared_access")
  else if bool_decide (fact_relationship f = "non_owner") then
    Some (candidate "authenticated" "cross_subject_access")
  else None.

Definition fact_key (f : BOLAMatrixAccessFact) : Z * Z * Z :=
  (fact_endpoint_id f, fact_resource_id f, fact_test_identity_id f).

Fixpoint plan_matrix_from (index : Z) (seen : list (Z * Z * Z)) (facts : list BOLAMatrixAccessFact)
    : result planning_error (list BOLAMatrixCandidate) :=
  match facts with
  | [] => Ok []
  | fact :: rest =>
      if index =? MAX_BOLA_MATRIX_FACTS then Raise FactLimitExceeded
      else if bool_decide (fact_key fact ∈ seen) then Raise DuplicateAccessFact
      else
        others ← plan_matrix_from (index + 1) (fact_key fact :: seen) rest;
        Ok (match candidate_of fact with Some c => c :: others | None => others end)
  end.

Definition plan_bola_matrix (facts : list BOLAMatrixAccessFact)
    : result planning_error (list BOLAMatrixCandidate) := plan_matrix_from 0 [] facts.

(** * Lemmas *)

Lemma word_run_app s w r : word_run s = (w, r) ->
  s = w +:+ r /\ str_forall is_word w = true
  /\ match r with String c _ => is_word c = false | EmptyString => True end.
Proof.
  revert w. induction s as [|c s IH]; intros w; cbn.
  - by intros [= <- <-].
  - destruct (is_word c) eqn:Ec.
    + destruct (word_run s) as [w' t] eqn:Et. intros [= <- <-].
      destruct (IH w' eq_refl) as (-> & Hw & Hr). cbn. by rewrite Ec.
    + intros [= <- <-]. done.
Qed.

Lemma str_take_suffix w suf t : w = t +:+ suf ->
  str_take (String.length w - String.length suf) w = t.
Proof.
  intros ->. rewrite str_length_app.
  replace (String.length t + String.length suf - String.length suf)%nat with (String.length t) by lia.
  apply str_take_app.
Qed.

(** A captured group, with the text around it. *)
Definition parameter_base (base : string) : Prop :=
  str_forall is_word base = true /\ match base with String c _ => is_alpha c = true | EmptyString => False end.

Lemma match_parameter_spec s base : match_parameter s = Some base ->
  parameter_base base /\ exists post, s = base +:+ "_id}" +:+ post.
Proof.
  unfold match_parameter. destruct (word_run s) as [w r] eqn:E. apply word_run_app in E as (-> & Hw & _).
  destruct (startswith "}" r) eqn:Er; [|done]. destruct (endswith "_id" w) eqn:Ew; [|done].
  apply startswith_app in Er as [post ->]. apply endswith_app in Ew as [t Ht].
  rewrite (str_take_suffix w "_id" t Ht : str_take (String.length w - 3) w = t).
  subst w. rewrite str_forall_app in Hw. apply andb_prop in Hw as [Hw _].
  destruct t as [|c t]; [done|]. cbn [andb]. destruct (is_alpha c) eqn:Ec; [|done]. intros [= <-].
  split; [done|]. exists post. by rewrite str_app_assoc.
Qed.

Lemma find_parameters_elem s base : base ∈ find_parameters s ->
  parameter_base base /\ exists pre post, s = pre +:+ "{" +:+ base +:+ "_id}" +:+ post.
Proof.
  induction s as [|c s IH]; cbn [find_parameters]; [by intros ?%elem_of_nil|].
  assert (Hrest : base ∈ find_parameters s -> parameter_base base /\
    exists pre post, String c s = pre +:+ "{" +:+ base +:+ "_id}" +:+ post).
  { intros H. destruct (IH H) as (Hb & pre & post & ->). split; [done|]. by exists (String c pre), post. }
  case_bool_decide as Ec; [|done]. destruct (match_parameter s) as [b|] eqn:Em; [|done].
  intros [->|H]%elem_of_cons; [|by apply Hrest].
  apply match_parameter_spec in Em as (Hb & post & ->). split; [done|]. subst c. by exists EmptyString, post.
Qed.

Lemma detect_resource_binding_spec e b : detect_resource_binding e = Some b ->
  exists base pre post, parameter_base base /\ parameter_name b = base +:+ "_id"
    /\ binding_resource_type b = lower base
    /\ endpoint_path e = pre +:+ "{" +:+ parameter_name b +:+ "}" +:+ post.
Proof.
  unfold detect_resource_binding. destruct (find_parameters (endpoint_path e)) as [|base [|]] eqn:E; try done.
  intros [= <-]. destruct (find_parameters_elem (endpoint_path e) base) as (Hb & pre & post & Hp).
  { rewrite E. apply list_elem_of_here. }
  exists base, pre, post. repeat split; try done; try apply Hb. cbn. by rewrite Hp, str_app_assoc.
Qed.

Lemma map_result_total {E A B} (f : A -> result E B) (g : A -> B) l :
  (forall x, x ∈ l -> f x = Ok (g x)) -> map_result f l = Ok (g <$> l).
Proof.
  intros H. apply map_result_ok. induction l as [|x l IH]; constructor.
  - apply H, list_elem_of_here.
  - apply IH. intros y Hy. apply H. by right.
Qed.

(** The case that the loops make of an endpoint, an actor and a resource. *)
Definition case_of (e : Endpoint) (a : TestIdentity) (r : Resource) : GeneratedTestCase :=
  let statuses := default [] (OWNER_EXPECTED_STATUSES_BY_METHOD (endpoint_method e)) in
  if bool_decide (auth_type a = "anonymous") then
    mkGenerated (endpoint_id e) (identity_id a) (resource_id r) ANONYMOUS_ACCESS "anonymous"
      ANONYMOUS_EXPECTED_STATUSES
  else if identity_id a =? owner_identity_id r then
    mkGenerated (endpoint_id e) (identity_id a) (resource_id r) OWNER_BASELINE "owner" statuses
  else mkGenerated (endpoint_id e) (identity_id a) (resource_id r) BOLA_CROSS_OWNER "cross_owner"
         CROSS_OWNER_EXPECTED_STATUSES.

Lemma generate_case_total e a r : endpoint_method e ∈ SUPPORTED_BOLA_METHODS ->
  identity_target_id a = resource_target_id r -> generate_case e a r = Ok (case_of e a r).
Proof.
  intros Hm Ht. unfold generate_case, determine_ownership_relation, case_of.
  rewrite (proj2 (Z.eqb_eq _ _) Ht). cbn [negb]. case_if; [done|]. case_if; [|done].
  unfold SUPPORTED_BOLA_METHODS in Hm. rewrite !elem_of_cons, elem_of_nil in Hm.
  destruct Hm as [->|[->|[->|[]]]]; reflexivity.
Qed.

(** The admissible triples of an endpoint: the generator's filters. *)
Definition eligible (e : Endpoint) (a : TestIdentity) (r : Resource) : Prop :=
  endpoint_method e ∈ SUPPORTED_BOLA_METHODS
  /\ (exists b, detect_resource_binding e = Some b /\ resource_type r = binding_resource_type b)
  /\ resource_target_id r = endpoint_target_id e /\ identity_target_id a = endpoint_target_id e
  /\ identity_is_active a = true.

Lemma generate_for_endpoint_total actors resources e : exists l,
  generate_for_endpoint actors resources e = Ok l /\
  forall c, c ∈ l <-> exists a r, a ∈ actors /\ r ∈ resources /\ eligible e a r /\ c = case_of e a r.
Proof.
  unfold generate_for_endpoint, eligible. case_bool_decide as Hm; cbn [negb].
  2: { exists []. split; [done|]. intros c. rewrite elem_of_nil. split; [done|]. by intros (a & r & _ & _ & [] & _). }
  destruct (detect_resource_binding e) as [b|].
  2: { exists []. split; [done|]. intros c. rewrite elem_of_nil. split; [done|].
       by intros (a & r & _ & _ & (_ & (b & ? & _) & _) & _). }
  set (ms := matching_resources e b resources).
  assert (Hms : forall r, r ∈ ms <-> (resource_target_id r = endpoint_target_id e
      /\ resource_type r = binding_resource_type b) /\ r ∈ resources)
    by (intros r; unfold ms, matching_resources; by rewrite list_elem_of_filter).
  assert (Hma : forall a, a ∈ matching_actors e actors <-> (identity_target_id a = endpoint_target_id e
      /\ identity_is_active a = true) /\ a ∈ actors)
    by (intros a; unfold matching_actors; by rewrite list_elem_of_filter).
  assert (Hl : map_result (fun a => map_result (fun r => generate_case e a r) ms) (matching_actors e actors)
    = Ok ((fun a => case_of e a <$> ms) <$> matching_actors e actors)).
  { apply map_result_total. intros a Ha. apply map_result_total. intros r Hr.
    apply generate_case_total; [done|]. apply Hma in Ha as [[-> _] _]. by apply Hms in Hr as [[-> _] _]. }
  exists (concat ((fun a => case_of e a <$> ms) <$> matching_actors e actors)). split.
  { destruct ms as [|m0 ms'] eqn:Ems.
    - assert (forall k, concat ((fun a => case_of e a <$> []) <$> k) = []) as -> by (induction k; done). done.
    - rewrite Hl. done. }
  intros c. rewrite elem_of_concat. split.
  - intros (k & Hc & (a & -> & Ha)%list_elem_of_fmap). apply list_elem_of_fmap in Hc as (r & -> & Hr).
    apply Hma in Ha as [[? ?] ?]. apply Hms in Hr as [[? ?] ?]. exists a, r. naive_solver.
  - intros (a & r & Ha & Hr & (_ & (b' & [= <-] & ?) & ? & ? & ?) & ->).
    exists (case_of e a <$> ms). split; [apply list_elem_of_fmap; exists r; split; [done|]; by apply Hms|].
    apply list_elem_of_fmap. exists a. split; [done|]. by apply Hma.
Qed.

(** ** The matrix *)

(** Where the loop stops, as a function of the keys alone. *)
Lemma plan_matrix_from_spec facts index seen : 0 <= index <= MAX_BOLA_MATRIX_FACTS ->
  let room := Z.to_nat (MAX_BOLA_MATRIX_FACTS - index) in
  match plan_matrix_from index seen facts with
  | Ok cs => (length facts <= room)%nat /\ NoDup (fact_key <$> facts)
      /\ (forall f, f ∈ facts -> fact_key f ∉ seen) /\ cs = omap candidate_of facts
  | Raise FactLimitExceeded => (room < length facts)%nat /\ NoDup (fact_key <$> take room facts)
      /\ (forall f, f ∈ take room facts -> fact_key f ∉ seen)
  | Raise DuplicateAccessFact => ~ (NoDup (fact_key <$> take room facts)
      /\ (forall f, f ∈ take room facts -> fact_key f ∉ seen))
  | Raise InvalidAccessFact => False
  end.
Proof.
  cbv zeta. revert index seen. induction facts as [|f facts IH]; intros index seen Hi; cbn [plan_matrix_from].
  { split; [cbn; lia|]. split; [constructor|]. split; [intros g Hg; by apply elem_of_nil in Hg | done]. }
  destruct (Z.eqb_spec index MAX_BOLA_MATRIX_FACTS) as [->|Hne].
  { rewrite Z.sub_diag. cbn. split; [lia|]. split; [constructor | intros g Hg; by apply elem_of_nil in Hg]. }
  assert (Hroom : Z.to_nat (MAX_BOLA_MATRIX_FACTS - index)
    = S (Z.to_nat (MAX_BOLA_MATRIX_FACTS - (index + 1)))) by lia.
  rewrite Hroom. cbn [take length]. case_bool_decide as Hs.
  { intros [_ H]. apply (H f); [apply list_elem_of_here | done]. }
  specialize (IH (index + 1) (fact_key f :: seen) ltac:(lia)).
  assert (Hnew : forall l : list BOLAMatrixAccessFact, NoDup (fact_key <$> l) ->
    (forall g, g ∈ l -> fact_key g ∉ fact_key f :: seen) ->
    NoDup (fact_key <$> f :: l) /\ (forall g, g ∈ f :: l -> fact_key g ∉ seen)).
  { intros l Hl Hg. split.
    - constructor; [|done]. intros (g & Hk & Hin)%list_elem_of_fmap. apply (Hg g Hin). rewrite Hk. left.
    - intros g [->|Hin]%elem_of_cons; [done|]. intros Hk. apply (Hg g Hin). by right. }
  assert (Hold : forall l : list BOLAMatrixAccessFact, NoDup (fact_key <$> f :: l) ->
    (forall g, g ∈ f :: l -> fact_key g ∉ seen) ->
    NoDup (fact_key <$> l) /\ (forall g, g ∈ l -> fact_key g ∉ fact_key f :: seen)).
  { intros l Hl Hg. cbn in Hl. apply NoDup_cons in Hl as [Hf Hl]. split; [done|].
    intros g Hin [Hk|Hk]%elem_of_cons; [|by apply (Hg g); [right|]].
    apply Hf. rewrite <- Hk. apply list_elem_of_fmap. by exists g. }
  destruct (plan_matrix_from (index + 1) _ facts) as [cs|[]]; cbn.
  - destruct IH as (H1 & H2 & H3 & ->). destruct (Hnew facts H2 H3). split; [lia|]. split; [done|].
    split; [done|]. by destruct (candidate_of f).
  - destruct IH as (H1 & H2 & H3). destruct (Hnew _ H2 H3). split; [lia|]. done.
  - intros [H1 H2]. by apply IH, Hold.
  - done.
Qed.

Lemma generate_all endpoints actors resources : exists ls,
  map_result (generate_for_endpoint actors resources) endpoints = Ok ls /\
  forall c, c ∈ concat ls <-> exists e a r, e ∈ endpoints /\ a ∈ actors /\ r ∈ resources
    /\ eligible e a r /\ c = case_of e a r.
Proof.
  induction endpoints as [|e es (ls & Hls & IH)]; cbn [map_result].
  - exists []. split; [done|]. intros c. split; [by intros ?%elem_of_nil|].
    by intros (? & ? & ? & ?%elem_of_nil & _).
  - destruct (generate_for_endpoint_total actors resources e) as (l & -> & Hl). exists (l :: ls).
    rewrite Hls. split; [done|]. intros c. cbn [concat]. rewrite elem_of_app, Hl, IH. split.
    + intros [(a & r & ? & ? & ? & ->)|(e' & a & r & ? & ? & ? & ? & ->)].
      * exists e, a, r. split; [apply list_elem_of_here | done].
      * exists e', a, r. split; [by right | done].
    + intros (e' & a & r & [->|He]%elem_of_cons & ?); [left; by exists a, r | right; by exists e', a, r].
Qed.

(** * Properties *)

(** The BOLA generator never raises, and generates exactly one test case per eligible
    triple: an endpoint of a supported method whose path has one resource parameter, a
    resource of the parameter's type and an active identity, all of one Target. The
    case is the owner baseline when the identity owns the resource, an anonymous probe
    when it is anonymous, and a cross-owner probe otherwise, with the expected
    statuses of its kind. *)
Theorem generate_exact endpoints actors resources : exists cases,
  generate_bola_test_cases endpoints actors resources = Ok cases /\
  (forall c, c ∈ cases <-> exists e a r, e ∈ endpoints /\ a ∈ actors /\ r ∈ resources
     /\ eligible e a r /\ c = case_of e a r) /\
  (forall c, c ∈ cases -> generated_test_type c = BOLA_CROSS_OWNER ->
     exists a r, a ∈ actors /\ r ∈ resources /\ identity_id a = generated_actor_identity_id c
       /\ resource_id r = generated_resource_id c /\ identity_target_id a = resource_target_id r
       /\ auth_type a <> "anonymous" /\ identity_id a <> owner_identity_id r
       /\ expected_statuses c = [403; 404]).
Proof.
  destruct (generate_all endpoints actors resources) as (ls & Hls & Hc). exists (concat ls).
  unfold generate_bola_test_cases. rewrite Hls. split; [done|]. split; [done|].
  intros c (e & a & r & He & Ha & Hr & Hel & ->)%Hc. destruct Hel as (_ & _ & H1 & H2 & _).
  unfold case_of. case_bool_decide; [done|]. destruct (Z.eqb_spec (identity_id a) (owner_identity_id r)); [done|].
  intros _. exists a, r. cbn. repeat split; try done. congruence.
Qed.

(** The parameter that the detector finds really is in the path, as a whole
    placeholder, exactly one such parameter is there, and its name is the resource
    type (in some case) with the suffix the convention asks for. *)
Theorem detect_binding_sound e b : detect_resource_binding e = Some b ->
  exists base pre post, parameter_base base /\ find_parameters (endpoint_path e) = [base]
    /\ parameter_name b = base +:+ "_id" /\ binding_resource_type b = lower base
    /\ endpoint_path e = pre +:+ "{" +:+ parameter_name b +:+ "}" +:+ post.
Proof.
  intros H. destruct (detect_resource_binding_spec e b H) as (base & pre & post & Hb & Hn & Ht & Hp).
  exists base, pre, post. repeat split; try done; try apply Hb.
  unfold detect_resource_binding in H. destruct (find_parameters (endpoint_path e)) as [|base' [|]]; try done.
  injection H as <-. cbn in Hn. f_equal. clear -Hn.
  assert (Hlen : forall s t u : string, s +:+ u = t +:+ u -> s = t).
  { intros s t u E. assert (Hl : String.length s = String.length t).
    { apply (f_equal String.length) in E. rewrite !str_length_app in E. lia. }
    rewrite <- (str_take_app s u), <- (str_take_app t u), E, Hl. done. }
  by apply (Hlen _ _ "_id").
Qed.

(** The matrix planner is the filter it documents, with its two limits: without a
    repeated (endpoint, resource, identity) triple and with at most 512 facts it
    returns the candidates of the facts in their order; otherwise it returns no
    partial result, and the error is the one of the first offending fact: a
    duplicate among the first 512, or else the 513th fact. *)
Theorem plan_matrix_exact facts :
  match plan_bola_matrix facts with
  | Ok cs => (length facts <= 512)%nat /\ NoDup (fact_key <$> facts) /\ cs = omap candidate_of facts
  | Raise FactLimitExceeded => (512 < length facts)%nat /\ NoDup (fact_key <$> take 512 facts)
  | Raise DuplicateAccessFact => ~ NoDup (fact_key <$> take 512 facts)
  | Raise InvalidAccessFact => False
  end.
Proof.
  pose proof (plan_matrix_from_spec facts 0 []) as H. unfold plan_bola_matrix.
  specialize (H ltac:(unfold MAX_BOLA_MATRIX_FACTS; lia)). cbv zeta in H.
  change (Z.to_nat (MAX_BOLA_MATRIX_FACTS - 0)) with 512%nat in H.
  destruct (plan_matrix_from 0 [] facts) as [cs|[]].
  - by destruct H as (? & ? & _ & ?).
  - by destruct H as (? & ? & _).
  - intros Hn. apply H. split; [done|]. intros f _. apply not_elem_of_nil.
  - done.
Qed.

(** * Witness *)

Lemma detect_binding_sound_witness : exists base pre post,
  parameter_base base /\ find_parameters "/api/orders/{order_id}" = [base]
  /\ "order_id" = base +:+ "_id" /\ "order" = lower base
  /\ "/api/orders/{order_id}" = pre +:+ "{" +:+ "order_id" +:+ "}" +:+ post.
Proof. apply (detect_binding_sound lab_endpoint (mkResourceBinding "order_id" "order")). vm_compute. reflexivity. Defined.
