(* ===== verification/Access.v ===== *)
(** Access facts about resources: src/backend/app/services/resource_access_resolution.py
    and resource_access_assertion_review.py.

    A table of assertions is the list of its rows in increasing id, the order in which
    the queries read them. *)

From S2P Require Import Prelude.
From S2P Require Import PyStr.
From S2P Require Import Models.
From S2P Require Import Samples.

Open Scope Z_scope.

(** An error of these services: its code and HTTP status. *)
Inductive access_error : Type := AccessError (code : string) (status : Z).
#[export] Instance access_error_eq_dec : EqDecision access_error.
Proof. solve_decision. Defined.

(** * Resolution *)

Definition MAX_ASSERTIONS_SCANNED : Z := 256.

Record ResourceAccessResolution := mkResolution {
  resolved_resource_id : Z;
  resolved_identity_id : Z;
  resolved_at : timestamp;
  state : string;
  resolved_relationship : string;
  resolved_expected_access : string;
  supporting_ids : list Z
}.

(** The WHERE clause of the query *)
Definition applies (r i : Z) (t : timestamp) (a : ResourceAccessAssertion) : bool :=
  (assertion_resource_id a =? r) && (assertion_test_identity_id a =? i)
  && bool_decide (verification_state a = "verified")
  && (asserted_at a <=? t)
  && match assertion_valid_from a with None => true | Some f => f <=? t end
  && match assertion_valid_until a with None => true | Some u => t <? u end.

Definition applicable (rows : list ResourceAccessAssertion) (r i : Z) (t : timestamp)
    : list ResourceAccessAssertion := List.filter (applies r i t) rows.

(** The set of the specified values, and its only member if it has one. *)
Definition specified (values : list string) : list string :=
  remove_dups (List.filter (fun v => negb (bool_decide (v = "unspecified"))) values).
Definition single (values : list string) : string :=
  match specified values with [v] => v | _ => "unspecified" end.

Definition says_something (a : ResourceAccessAssertion) : bool :=
  negb (bool_decide (relationship a = "unspecified"))
  || negb (bool_decide (expected_access a = "unspecified")).

Definition resolve_resource_access (resource : option Resource) (identity : option TestIdentity)
    (rows : list ResourceAccessAssertion) (evaluation_time : datetime)
    : result access_error ResourceAccessResolution :=
  match evaluation_time with
  | Naive _ => Raise (AccessError "evaluation_time_timezone_required" 422)
  | Aware t =>
      r ← require resource (AccessError "resource_not_found" 404);
      i ← require identity (AccessError "test_identity_not_found" 404);
      _ ← guard_or (resource_target_id r =? identity_target_id i)
            (AccessError "resource_identity_target_mismatch" 409);
      let assertions :=
        take (Z.to_nat (MAX_ASSERTIONS_SCANNED + 1)) (applicable rows (resource_id r) (identity_id i) t) in
      if MAX_ASSERTIONS_SCANNED <? Z.of_nat (length assertions) then
        Raise (AccessError "resource_access_resolution_limit_exceeded" 409)
      else
        let relationships := relationship <$> assertions in
        let accesses := expected_access <$> assertions in
        let rel := single relationships in
        let acc := single accesses in
        let has_conflict := (1 <? Z.of_nat (length (specified relationships)))
                            || (1 <? Z.of_nat (length (specified accesses))) in
        let state := if has_conflict then "conflict"
                     else if bool_decide (rel = "unspecified") && bool_decide (acc = "unspecified")
                     then "insufficient" else "resolved" in
        Ok (mkResolution (resource_id r) (identity_id i) t state rel acc
              (assertion_id <$> List.filter says_something assertions))
  end.

(** * Review *)

(** [_validate_existing] *)
Definition validate_existing (review source : ResourceAccessAssertion) (state : string) (confidence : Z)
    : result access_error ResourceAccessAssertion :=
  if (assertion_resource_id review =? assertion_resource_id source)
     && (assertion_test_identity_id review =? assertion_test_identity_id source)
     && bool_decide (relationship review = relationship source)
     && bool_decide (expected_access review = expected_access source)
     && bool_decide (provenance review = "human_verified")
     && bool_decide (verification_state review = state)
     && (Models.confidence review =? confidence)
     && bool_decide (observed_at review = observed_at source)
     && bool_decide (assertion_valid_from review = assertion_valid_from source)
     && bool_decide (assertion_valid_until review = assertion_valid_until source)
     && is_none (source_test_run_id review)
     && bool_decide (reviewed_assertion_id review = Some (assertion_id source))
  then Ok review
  else Raise (AccessError "resource_access_assertion_already_reviewed" 409).

Definition review_of (source : ResourceAccessAssertion) (rows : list ResourceAccessAssertion)
    : option ResourceAccessAssertion :=
  find_first (fun a => bool_decide (reviewed_assertion_id a = Some (assertion_id source))) rows.

(** The row inserted by a review, with the id and time that the database gives it. *)
Definition review_row (source : ResourceAccessAssertion) (state : string) (confidence new_id : Z)
    (now : timestamp) : ResourceAccessAssertion :=
  mkAssertion new_id (assertion_resource_id source) (assertion_test_identity_id source)
    (relationship source) (expected_access source) "human_verified" confidence state now
    (observed_at source) (assertion_valid_from source) (assertion_valid_until source) None
    (Some (assertion_id source)).

(** [INSERT ... ON CONFLICT (reviewed_assertion_id) DO NOTHING] *)
Definition insert_review (row : ResourceAccessAssertion) (source : ResourceAccessAssertion)
    (rows : list ResourceAccessAssertion) : list ResourceAccessAssertion :=
  match review_of source rows with Some _ => rows | None => rows ++ [row] end.

(** The transaction, atomic under the lock it takes on the source row. [decision] is
    the caller's, any value but "verify" rejecting. *)
Definition review_resource_access_assertion (resource_exists : bool) (r a : Z) (decision : string)
    (confidence new_id : Z) (now : timestamp) (rows : list ResourceAccessAssertion)
    : result access_error (list ResourceAccessAssertion * ResourceAccessAssertion) :=
  _ ← guard_or resource_exists (AccessError "resource_not_found" 404);
  source ← require (find_first (fun x => (assertion_id x =? a) && (assertion_resource_id x =? r)) rows)
    (AccessError "resource_access_assertion_not_found" 404);
  _ ← guard_or (bool_decide (verification_state source = "candidate")
                && bool_decide (provenance source ∈ ["observed_baseline"; "inferred_candidate"]))
        (AccessError "resource_access_assertion_not_reviewable" 409);
  let state := if bool_decide (decision = "verify") then "verified" else "rejected" in
  match review_of source rows with
  | Some existing => review ← validate_existing existing source state confidence; Ok (rows, review)
  | None =>
      let rows' := insert_review (review_row source state confidence new_id now) source rows in
      review ← require (review_of source rows')
        (AccessError "resource_access_assertion_review_persistence_conflict" 409);
      review ← validate_existing review source state confidence;
      Ok (rows', review)
  end.

(** * Lemmas *)

Lemma specified_elem v values : v ∈ specified values <-> v ∈ values /\ v <> "unspecified".
Proof.
  unfold specified. rewrite elem_of_remove_dups, !list_elem_of_In, filter_In, negb_true_iff.
  by rewrite bool_decide_eq_false.
Qed.

Lemma specified_nodup values : NoDup (specified values).
Proof. apply NoDup_remove_dups. Qed.

Lemma single_spec v values : v <> "unspecified" ->
  single values = v <-> v ∈ values /\ forall w, w ∈ values -> w <> "unspecified" -> w = v.
Proof.
  intros Hv. unfold single. pose proof (specified_nodup values) as Hnd.
  pose proof (fun w => specified_elem w values) as He.
  destruct (specified values) as [|x [|y l]].
  - split; [congruence|]. intros [H _]. specialize (He v). rewrite elem_of_nil in He. tauto.
  - split.
    + intros ->. split; [apply He, list_elem_of_here|]. intros w Hw Hn.
      by apply list_elem_of_singleton, He.
    + intros [_ H]. apply H; apply He, list_elem_of_here.
  - split; [congruence|]. intros [_ H]. exfalso.
    assert (x = v) by (apply H; apply He; left). assert (y = v) by (apply H; apply He; right; left).
    apply NoDup_cons in Hnd as [Hx _]. apply Hx. subst. left.
Qed.

Lemma specified_conflict values : (1 < Z.of_nat (length (specified values))) <->
  exists v w, v ∈ values /\ w ∈ values /\ v <> "unspecified" /\ w <> "unspecified" /\ v <> w.
Proof.
  pose proof (specified_nodup values) as Hnd. pose proof (fun w => specified_elem w values) as He.
  destruct (specified values) as [|x [|y l]]; cbn [length].
  - split; [lia|]. intros (v & w & Hv & _ & Hn & _). specialize (He v). rewrite elem_of_nil in He. tauto.
  - split; [lia|]. intros (v & w & Hv & Hw & Hn & Hm & Hne). destruct Hne.
    assert (v ∈ [x]) as ->%list_elem_of_singleton by (by apply He).
    assert (w ∈ [x]) as ->%list_elem_of_singleton by (by apply He). done.
  - split; [|lia]. intros _. exists x, y. apply NoDup_cons in Hnd as [Hx _].
    destruct (proj1 (He x)) as [? ?]; [left|]. destruct (proj1 (He y)) as [? ?]; [right; left|].
    repeat split; try done. intros ->. apply Hx. left.
Qed.

(** The same for the values that a list of facts states. *)
Section facts.
Context {A : Type} (f : A -> string) (facts : list A).

Lemma single_map v : v <> "unspecified" -> single (f <$> facts) = v <->
  (exists a, a ∈ facts /\ f a = v) /\ forall b, b ∈ facts -> f b <> "unspecified" -> f b = v.
Proof.
  intros Hv. rewrite single_spec by done. rewrite list_elem_of_fmap. split.
  - intros [(a & -> & Ha) H]. split; [by exists a|]. intros b Hb Hn. apply H; [|done].
    apply list_elem_of_fmap. by exists b.
  - intros [(a & Ha & <-) H]. split; [by exists a|]. intros w (b & -> & Hb)%list_elem_of_fmap Hn. by apply H.
Qed.

Lemma conflict_map : (1 < Z.of_nat (length (specified (f <$> facts)))) <->
  exists a b, a ∈ facts /\ b ∈ facts /\ f a <> "unspecified" /\ f b <> "unspecified" /\ f a <> f b.
Proof.
  rewrite specified_conflict. split.
  - intros (v & w & (a & -> & ?)%list_elem_of_fmap & (b & -> & ?)%list_elem_of_fmap & ?). by exists a, b.
  - intros (a & b & Ha & Hb & ?). exists (f a), (f b). rewrite !list_elem_of_fmap. eauto 10.
Qed.

Lemma unanimous_unspecified a : a ∈ facts -> single (f <$> facts) = "unspecified" ->
  Z.of_nat (length (specified (f <$> facts))) <= 1 -> f a = "unspecified".
Proof.
  intros Ha Hs Hc. destruct (decide (f a = "unspecified")) as [|Hn]; [done|]. exfalso.
  apply Hn. rewrite <- Hs. symmetry. apply single_map; [done|]. split; [by exists a|].
  intros b Hb Hbn. destruct (decide (f b = f a)) as [|Hne]; [done|]. exfalso.
  assert (1 < Z.of_nat (length (specified (f <$> facts)))); [|lia]. apply conflict_map. by exists b, a.
Qed.
End facts.

Lemma find_first_app {A} (p : A -> bool) l1 l2 : find_first p (l1 ++ l2) =
  match find_first p l1 with Some x => Some x | None => find_first p l2 end.
Proof. induction l1 as [|x l1 IH]; cbn; [done|]. by destruct (p x). Qed.

Lemma validate_existing_ok review source s c x : validate_existing review source s c = Ok x ->
  x = review /\ verification_state review = s /\ confidence review = c
  /\ provenance review = "human_verified" /\ reviewed_assertion_id review = Some (assertion_id source).
Proof. unfold validate_existing. case_if; [|done]. intros [= <-]. bool_simpl. repeat split; done. Qed.

Lemma validate_existing_change review source s c s' c' : validate_existing review source s c = Ok review ->
  validate_existing review source s' c' =
  if bool_decide (s = s') && (c =? c') then Ok review
  else Raise (AccessError "resource_access_assertion_already_reviewed" 409).
Proof.
  unfold validate_existing. case_if; [|done]. intros _.
  repeat (apply andb_prop in E as [E ?]). bool_simpl. subst s c.
  case_if.
  - repeat (apply andb_prop in E0 as [E0 ?]). bool_simpl. rewrite bool_decide_eq_true_2 by done. 
    by rewrite (proj2 (Z.eqb_eq _ _)).
  - destruct (bool_decide (verification_state review = s') && (confidence review =? c')) eqn:Ec; [|done].
    exfalso. bool_simpl. repeat (apply andb_false_iff in E0 as [E0|E0]); bool_simpl; congruence.
Qed.

Lemma validate_new_row source s c n now : validate_existing (review_row source s c n now) source s c
  = Ok (review_row source s c n now).
Proof.
  unfold validate_existing, review_row. cbn. case_if; [done|].
  repeat (apply andb_false_iff in E as [E|E]); bool_simpl; done.
Qed.

(** * Properties *)

(** A resolution is the agreement of the applicable facts (verified, asserted by the
    evaluation time and valid at it), at most 256 of them. A relationship is resolved
    exactly when some applicable fact states it and none states another one, and so
    is the expected access; the state is a conflict exactly when two applicable facts
    disagree, and insufficient exactly when none states anything; every fact that
    states something is cited. *)
Theorem resolution_exact r i rows t res :
  resolve_resource_access (Some r) (Some i) rows (Aware t) = Ok res ->
  let facts := applicable rows (resource_id r) (identity_id i) t in
  let disagree (f : ResourceAccessAssertion -> string) := exists a b, a ∈ facts /\ b ∈ facts /\
    f a <> "unspecified" /\ f b <> "unspecified" /\ f a <> f b in
  Z.of_nat (length facts) <= 256 /\ resource_target_id r = identity_target_id i
  /\ (forall v, v <> "unspecified" -> resolved_relationship res = v <->
       (exists a, a ∈ facts /\ relationship a = v) /\
       forall b, b ∈ facts -> relationship b <> "unspecified" -> relationship b = v)
  /\ (forall v, v <> "unspecified" -> resolved_expected_access res = v <->
       (exists a, a ∈ facts /\ expected_access a = v) /\
       forall b, b ∈ facts -> expected_access b <> "unspecified" -> expected_access b = v)
  /\ (state res = "conflict" <-> disagree relationship \/ disagree expected_access)
  /\ (state res = "insufficient" -> forall a, a ∈ facts -> says_something a = false)
  /\ supporting_ids res = assertion_id <$> List.filter says_something facts.
Proof.
  unfold resolve_resource_access. cbn [require mbind result_bind]. rewrite guard_bind_ok. intros [Ht H].
  bool_simpl. set (facts := applicable rows (resource_id r) (identity_id i) t) in *. cbv zeta in H |- *.
  head_if H; [done|]. apply Z.ltb_ge in E. unfold MAX_ASSERTIONS_SCANNED in *. rewrite length_take in E.
  rewrite take_ge in H by lia. injection H as <-. cbn.
  split; [lia|]. split; [done|]. split; [intros v; apply single_map|]. split; [intros v; apply single_map|].
  split; [|split].
  - rewrite <- !conflict_map, <- !Z.ltb_lt, <- orb_true_iff. case_if; [done|]. split; [|done]. by case_if.
  - case_if; [done|]. case_if; [|done]. intros _ a Ha. bool_simpl. unfold says_something.
    rewrite !bool_decide_eq_true_2; [done | |]; by apply (unanimous_unspecified _ facts).
  - done.
Qed.

(** At most one review of each assertion: the unique index. *)
Definition reviews_unique (rows : list ResourceAccessAssertion) : Prop :=
  forall b, (count_if (fun x => bool_decide (reviewed_assertion_id x = Some b)) rows <= 1)%nat.

Definition verdict (decision : string) : string :=
  if bool_decide (decision = "verify") then "verified" else "rejected".

Lemma review_steps r a decision c n now rows rows' review :
  review_resource_access_assertion true r a decision c n now rows = Ok (rows', review) ->
  exists source, find_first (fun x => (assertion_id x =? a) && (assertion_resource_id x =? r)) rows = Some source
    /\ bool_decide (verification_state source = "candidate")
         && bool_decide (provenance source ∈ ["observed_baseline"; "inferred_candidate"]) = true
    /\ validate_existing review source (verdict decision) c = Ok review
    /\ (rows' = rows /\ review_of source rows = Some review
        \/ rows' = rows ++ [review] /\ review_of source rows = None /\ review_of source rows' = Some review).
Proof.
  unfold review_resource_access_assertion. cbn [guard_or mbind result_bind].
  intros (source & Hs & H)%require_bind_ok. apply guard_bind_ok in H as [Hc H].
  exists source. split; [done|]. split; [done|]. cbv zeta in H. fold (verdict decision) in H.
  destruct (review_of source rows) as [e|] eqn:Er.
  - apply bind_ok in H as (x & Hv & [= <- <-]). destruct (validate_existing_ok _ _ _ _ _ Hv) as (-> & _).
    split; [done|]. by left.
  - apply require_bind_ok in H as (x & Hx & H). apply bind_ok in H as (y & Hv & [= <- <-]).
    destruct (validate_existing_ok _ _ _ _ _ Hv) as (-> & _). split; [done|]. right.
    unfold insert_review in *. rewrite Er in *. unfold review_of in Hx, Er. rewrite find_first_app, Er in Hx.
    cbn in Hx. rewrite bool_decide_eq_true_2 in Hx by done. injection Hx as <-.
    split; [done|]. split; [done|]. unfold review_of. rewrite find_first_app, Er. cbn.
    by rewrite bool_decide_eq_true_2.
Qed.

(** A review is an append-only, final decision. When it succeeds, the table is
    unchanged and holds the review, or has the review as one more row: a human
    decision about the same fact, with the reviewer's confidence, pointing to the
    reviewed candidate; reviews stay unique. Repeating the request returns the same
    row and changes nothing; a request with another decision or confidence is
    refused. *)
Theorem review_final r a decision c n now rows rows' review :
  review_resource_access_assertion true r a decision c n now rows = Ok (rows', review) ->
  (rows' = rows /\ review ∈ rows \/ rows' = rows ++ [review])
  /\ reviewed_assertion_id review = Some a /\ provenance review = "human_verified" /\ confidence review = c
  /\ verification_state review = verdict decision
  /\ (reviews_unique rows -> reviews_unique rows')
  /\ forall decision' c' n' now', review_resource_access_assertion true r a decision' c' n' now' rows' =
       if bool_decide (verdict decision = verdict decision') && (c =? c') then Ok (rows', review)
       else Raise (AccessError "resource_access_assertion_already_reviewed" 409).
Proof.
  intros H. destruct (review_steps _ _ _ _ _ _ _ _ _ H) as (source & Hs & Hc & Hv & Hrows).
  destruct (validate_existing_ok _ _ _ _ _ Hv) as (_ & Hst & Hcf & Hp & Hid).
  assert (Ha : assertion_id source = a) by (apply find_first_elem in Hs as [_ Hs]; by bool_simpl).
  assert (Hs' : find_first (fun x => (assertion_id x =? a) && (assertion_resource_id x =? r)) rows' = Some source
    /\ review_of source rows' = Some review).
  { destruct Hrows as [[-> Hr]|(-> & _ & Hr)]; [done|]. by rewrite find_first_app, Hs. }
  split; [|split; [by rewrite Hid, Ha|split; [done|split; [done|split; [done|split]]]]].
  - destruct Hrows as [[-> Hr]|(-> & _ & _)]; [left | by right]. split; [done|]. by eapply find_first_elem.
  - intros Hu. destruct Hrows as [[-> _]|(-> & Hr & _)]; [done|]. intros b. rewrite count_if_app. cbn.
    destruct (bool_decide (reviewed_assertion_id review = Some b)) eqn:Eb; [|specialize (Hu b); lia].
    bool_simpl. assert (count_if (fun x => bool_decide (reviewed_assertion_id x = Some b)) rows = 0%nat) as ->; [|lia].
    apply count_if_zero, Forall_forall. intros x Hx. unfold review_of in Hr. rewrite find_first_none in Hr.
    replace b with (assertion_id source) by congruence. by apply Hr.
  - intros d' c' n' now'. destruct Hs' as [Hf Hr]. unfold review_resource_access_assertion.
    cbn [guard_or mbind result_bind]. rewrite Hf. cbn [require mbind result_bind]. rewrite Hc.
    cbn [guard_or mbind result_bind]. cbv zeta. rewrite Hr. fold (verdict d').
    rewrite (validate_existing_change _ _ _ _ (verdict d') c' Hv). by case_if.
Qed.

(** * Witnesses *)

Definition lab_candidate : ResourceAccessAssertion :=
  mkAssertion 61 31 22 "unspecified" "allowed" "observed_baseline" 50 "candidate" 100 (Some 90) None None (Some 71) None.
Definition lab_fact : ResourceAccessAssertion :=
  mkAssertion 62 31 22 "non_owner" "denied" "human_verified" 90 "verified" 150 None None None None None.

Lemma resolution_exact_witness :
  let facts := applicable [lab_candidate; lab_fact] 31 22 200 in
  Z.of_nat (length facts) <= 256 /\ ("denied" = "denied" <->
    (exists a, a ∈ facts /\ expected_access a = "denied") /\
    forall b, b ∈ facts -> expected_access b <> "unspecified" -> expected_access b = "denied").
Proof.
  destruct (resolution_exact lab_order lab_bob [lab_candidate; lab_fact] 200
    (mkResolution 31 22 200 "resolved" "non_owner" "denied" [62])) as (H1 & _ & _ & H2 & _);
    [vm_compute; reflexivity|]. split; [exact H1|]. apply (H2 "denied"). discriminate.
Defined.

Lemma review_final_witness :
  verification_state (review_row lab_candidate "verified" 80 63 300) = verdict "verify".
Proof.
  apply (review_final 31 61 "verify" 80 63 300 [lab_candidate; lab_fact]
    [lab_candidate; lab_fact; review_row lab_candidate "verified" 80 63 300]).
  vm_compute. reflexivity.
Defined.
