(* ===== verification/Analyzer.v ===== *)
(** The BOLA analyzer, src/backend/app/analyzers/bola.py, and the redaction of bodies for
    AI analysis, src/backend/app/ai/redaction.py.

    [sha256] (the hexadecimal digest of a text's UTF-8 bytes) and [json_loads] are
    arguments. *)

From S2P Require Import Prelude.
From S2P Require Import PyStr.
From S2P Require Import PyFloat.
From S2P Require Import PyJson.
From S2P Require Import Models.
From S2P Require Import Samples.
From S2P Require Import Generator.

Open Scope Z_scope.

(** What [json.loads] may raise: [JSONDecodeError], or another exception (the limit on
    the digits of an integer, the recursion limit). *)
Inductive json_error : Type := JSONDecodeError | JsonOtherError.
#[export] Instance json_error_eq_dec : EqDecision json_error.
Proof. solve_decision. Defined.

Inductive AnalysisOutcome : Type := PASS | POTENTIAL_BOLA | INCONCLUSIVE.
#[export] Instance AnalysisOutcome_eq_dec : EqDecision AnalysisOutcome.
Proof. solve_decision. Defined.

Record BOLAStructuredEvidence := mkEvidence {
  probe_test_run_id : Z;
  baseline_test_run_id : Z;
  baseline_status_code : Z;
  probe_status_code : Z;
  baseline_resource_identifier_present : bool;
  probe_resource_identifier_present : bool
}.
Record BOLARedactedExcerptEvidence := mkExcerpt { baseline_excerpt : string; probe_excerpt : string }.
Record BOLAResponseFingerprintEvidence := mkFingerprint {
  baseline_digest : string;
  probe_digest : string;
  baseline_body_bytes : Z;
  probe_body_bytes : Z
}.
Record BOLAResponseSimilarityEvidence := mkSimilarity {
  exact_digest_match : bool;
  length_similarity_bps : Z
}.
Record BOLAAnalysisResult := mkAnalysis {
  outcome_of : AnalysisOutcome;
  analysis_reason : string;
  analysis_confidence : option float;
  severity : option string;
  evidence : option BOLAStructuredEvidence;
  excerpt_evidence : option BOLARedactedExcerptEvidence;
  fingerprint_evidence : option BOLAResponseFingerprintEvidence;
  similarity_evidence : option BOLAResponseSimilarityEvidence
}.

Definition MATCHED_RESOURCE_IDENTIFIER : string := "[MATCHED_RESOURCE_IDENTIFIER]".
Definition MAX_EXCERPT_LENGTH : Z := 192.
Definition MATCHED_IDENTIFIER_FIELD : string := "[MATCHED_RESOURCE_IDENTIFIER_FIELD]".

Definition compare_response_fingerprints (f : BOLAResponseFingerprintEvidence)
    : BOLAResponseSimilarityEvidence :=
  let shorter := Z.min (baseline_body_bytes f) (probe_body_bytes f) in
  let longer := Z.max (baseline_body_bytes f) (probe_body_bytes f) in
  mkSimilarity (bool_decide (baseline_digest f = probe_digest f))
    (if longer =? 0 then 10000 else shorter * 10000 / longer).

Section analyzer.
Variable sha256 : string -> string.
Variable json_loads : string -> result json_error json.

Definition fingerprint_response_pair (baseline_body probe_body : option string)
    : BOLAResponseFingerprintEvidence :=
  let baseline := default EmptyString baseline_body in
  let probe := default EmptyString probe_body in
  mkFingerprint (sha256 baseline) (sha256 probe) (byte_len baseline) (byte_len probe).

(** [None] is Python's [None], as [JNull] is: [Ok JNull]. *)
Definition parse_json_body (body : option string) : result json_error json :=
  match body with
  | None => Ok JNull
  | Some text => catch (json_loads text) (fun e =>
      match e with JSONDecodeError => Ok JNull | _ => Raise e end)
  end.

Definition normalize_scalar (value : json) : option string :=
  match value with
  | JStr s => Some s
  | JInt n => Some (str_of_Z n)
  | JFloat f => Some (float_repr f)
  | _ => None
  end.

Definition allowed_key (resource : Resource) (key : string) : bool :=
  bool_decide (lower key = "id") || bool_decide (lower key = resource_type resource +:+ "_id").

(** The first matching key, depth first. *)
Fixpoint json_matching_resource_id_key (resource : Resource) (value : json) : option string :=
  match value with
  | JObj o =>
      (fix go o := match o with
       | [] => None
       | kv :: o' =>
           if allowed_key resource kv.1
              && bool_decide (normalize_scalar kv.2 = Some (external_id resource)) then Some kv.1
           else match json_matching_resource_id_key resource kv.2 with
                | Some k => Some k
                | None => go o'
                end
       end) o
  | JArr l =>
      (fix go l := match l with
       | [] => None
       | child :: l' =>
           match json_matching_resource_id_key resource child with
           | Some k => Some k
           | None => go l'
           end
       end) l
  | _ => None
  end.

Definition json_contains_resource_id (resource : Resource) (value : json) : bool :=
  negb (is_none (json_matching_resource_id_key resource value)).

(** [json.dumps({key: value}, separators=(",", ":"))] of two texts *)
Definition dump_pair (key value : string) : string := default EmptyString (dumps compact (JObj [(key, JStr value)])).

Definition redacted_identifier_excerpt (key : string) : string :=
  let excerpt := dump_pair key MATCHED_RESOURCE_IDENTIFIER in
  if MAX_EXCERPT_LENGTH <? str_len excerpt then
    dump_pair MATCHED_IDENTIFIER_FIELD MATCHED_RESOURCE_IDENTIFIER
  else excerpt.

Definition is_success_status (s : Z) : bool := (200 <=? s) && (s <? 300).

(** [if run.error_message:] *)
Definition failed (run : TestRun) : bool :=
  match error_message run with Some m => negb (is_empty m) | None => false end.

Definition inconclusive (reason : string) : BOLAAnalysisResult :=
  mkAnalysis INCONCLUSIVE reason None None None None None None.

(** The checks on the two runs: the reason of the early return, or the baseline run and
    the two statuses. *)
Definition runs_gate (test_case : TestCase) (cross : TestRun) (baseline : option TestRun)
    : result string (TestRun * Z * Z) :=
  _ ← guard_or (bool_decide (test_type test_case = BOLA_CROSS_OWNER))
        "TestCase is not a cross-owner BOLA test.";
  _ ← guard_or (negb (failed cross)) "Cross-owner request did not complete successfully.";
  cross_status ← require (response_status cross) "Cross-owner request has no HTTP response status.";
  owner ← require baseline "No owner baseline run is available.";
  _ ← guard_or (negb (failed owner)) "Owner baseline execution failed.";
  owner_status ← require (response_status owner) "Owner baseline has no HTTP response status.";
  _ ← guard_or (is_success_status owner_status) "Owner baseline did not return a successful response.";
  Ok (owner, owner_status, cross_status).

(** The comparison of the bodies of two successful responses. *)
Definition compare_bodies (cross owner : TestRun) (cross_status owner_status : Z) (resource : Resource)
    : result json_error BOLAAnalysisResult :=
  baseline_json ← parse_json_body (response_body owner);
  cross_json ← parse_json_body (response_body cross);
  if bool_decide (cross_json = JNull) then
    Ok (inconclusive "Cross-owner request returned a successful status, but the body cannot be validated as JSON.")
  else
    match json_matching_resource_id_key resource baseline_json,
          json_matching_resource_id_key resource cross_json with
    | Some baseline_key, Some cross_key =>
        Ok (mkAnalysis POTENTIAL_BOLA
          "The owner baseline succeeded, and a different authenticated identity also received a successful response containing the target resource identifier."
          (Some (if py_eqb baseline_json cross_json then float_of_decimal false 99 (-2)
                 else float_of_decimal false 95 (-2)))
          (Some "high")
          (Some (mkEvidence (test_run_id cross) (test_run_id owner) owner_status cross_status true true))
          (Some (mkExcerpt (redacted_identifier_excerpt baseline_key) (redacted_identifier_excerpt cross_key)))
          None None)
    | _, _ =>
        Ok (inconclusive "Cross-owner access returned a successful status, but the current rules cannot confirm that the target resource was disclosed.")
    end.

(** [_classify_bola_run] *)
Definition classify_bola_run (test_case : TestCase) (cross : TestRun) (baseline : option TestRun)
    (resource : Resource) : result json_error BOLAAnalysisResult :=
  match runs_gate test_case cross baseline with
  | Raise reason => Ok (inconclusive reason)
  | Ok (owner, owner_status, cross_status) =>
      if bool_decide (cross_status ∈ [401; 403; 404]) then
        Ok (mkAnalysis PASS "Cross-owner access was rejected while the owner baseline succeeded."
              None None None None None None)
      else if negb (is_success_status cross_status) then
        Ok (inconclusive "Cross-owner response is neither a normal success nor a standard authorization rejection.")
      else compare_bodies cross owner cross_status owner_status resource
  end.

Definition analyze_bola_run (test_case : TestCase) (cross : TestRun) (baseline : option TestRun)
    (resource : Resource) : result json_error BOLAAnalysisResult :=
  r ← classify_bola_run test_case cross baseline resource;
  match baseline with
  | None => Ok r
  | Some owner =>
      let fingerprint := fingerprint_response_pair (response_body owner) (response_body cross) in
      Ok (mkAnalysis (outcome_of r) (analysis_reason r) (analysis_confidence r) (severity r) (evidence r)
            (excerpt_evidence r) (Some fingerprint)
            (if bool_decide (outcome_of r = POTENTIAL_BOLA)
             then Some (compare_response_fingerprints fingerprint) else None))
  end.

(** * Redaction for AI analysis *)

Definition SENSITIVE_KEYS : list string :=
  ["authorization"; "password"; "passwd"; "access_token"; "refresh_token"; "token"; "api_key"; "apikey";
   "secret"; "client_secret"; "cookie"; "set-cookie"].
Definition REDACTED : string := "[REDACTED]".
Definition NON_JSON_RESPONSE_REDACTED : string := "[NON_JSON_RESPONSE_REDACTED]".

Definition is_sensitive_key (key : string) : bool := bool_decide (lower (strip key) ∈ SENSITIVE_KEYS).

Fixpoint redact_json_value (value : json) : json :=
  match value with
  | JObj o =>
      JObj ((fun kv => (kv.1, if is_sensitive_key kv.1 then JStr REDACTED else redact_json_value kv.2)) <$> o)
  | JArr l => JArr (redact_json_value <$> l)
  | v => v
  end.

(** The first [n] code points of UTF-8 text. *)
Fixpoint take_chars (n : nat) (s : string) : string :=
  match s with
  | EmptyString => EmptyString
  | String c s' =>
      if is_utf8_start c then
        match n with O => EmptyString | S n' => String c (take_chars n' s') end
      else String c (take_chars n s')
  end.

Definition sanitize_response_body (body : option string) : result json_error (option string) :=
  match body with
  | None => Ok None
  | Some text =>
      match json_loads text with
      | Raise JSONDecodeError => Ok (Some NON_JSON_RESPONSE_REDACTED)
      | Raise e => Raise e
      | Ok parsed => Ok (take_chars (Z.to_nat 16000) <$> dumps default_dump (redact_json_value parsed))
      end
  end.
End analyzer.

(** * What a document says *)

(** The document has, at some depth, an allowed key whose value is the resource's id. *)
Inductive mentions (resource : Resource) : json -> string -> Prop :=
| mention_here o k v : (k, v) ∈ o -> allowed_key resource k = true ->
    normalize_scalar v = Some (external_id resource) -> mentions resource (JObj o) k
| mention_member o kv k : kv ∈ o -> mentions resource kv.2 k -> mentions resource (JObj o) k
| mention_item l x k : x ∈ l -> mentions resource x k -> mentions resource (JArr l) k.

(** * Lemmas *)

Lemma matching_some resource j k :
  json_matching_resource_id_key resource j = Some k -> mentions resource j k.
Proof.
  induction j as [| | | | |l IH|o IH] using json_rect_nested; try done; cbn.
  - induction IH as [|x l Hx _ IHl]; [done|].
    destruct (json_matching_resource_id_key resource x) as [k'|].
    + intros [= ->]. eapply mention_item; [left | by apply Hx].
    + intros H%IHl. inversion H; subst. eapply mention_item; [by right | done].
  - induction IH as [|[k0 v] o Hx _ IHo]; [done|]. cbn in Hx |- *.
    destruct (allowed_key resource k0 && bool_decide (normalize_scalar v = Some (external_id resource))) eqn:E.
    + intros [= <-]. bool_simpl. eapply mention_here; [left | done | done].
    + destruct (json_matching_resource_id_key resource v) as [k'|].
      * intros [= ->]. eapply mention_member; [left | by apply Hx].
      * intros H%IHo. inversion H; subst; [eapply mention_here; [by right | done | done] |
          eapply mention_member; [by right | done]].
Qed.

Lemma matching_none resource j k :
  json_matching_resource_id_key resource j = None -> ~ mentions resource j k.
Proof.
  induction j as [| | | | |l IH|o IH] using json_rect_nested; try (intros _ H; by inversion H); cbn.
  - intros H Hm. induction IH as [|y l Hy _ IHl].
    + inversion Hm as [| |? ? ? Hin]; subst. by apply elem_of_nil in Hin.
    + destruct (json_matching_resource_id_key resource y) eqn:E; [done|].
      inversion Hm as [| |? x k1 Hin Hx]; subst.
      apply elem_of_cons in Hin as [->|Hin]; [by apply (Hy eq_refl)|]. apply IHl; [done|]. by eapply mention_item.
  - intros H Hm. induction IH as [|[k0 v] o Hy _ IHo].
    + inversion Hm as [? ? ? Hin|? ? ? Hin|]; subst; by apply elem_of_nil in Hin.
    + cbn in H, Hy. destruct (allowed_key resource k0 && bool_decide (normalize_scalar v = Some (external_id resource))) eqn:E; [done|].
      destruct (json_matching_resource_id_key resource v) eqn:Ev; [done|].
      inversion Hm as [? k1 v1 Hin Ha Hn|? kv k1 Hin Hk|]; subst.
      * apply elem_of_cons in Hin as [[= -> ->]|Hin]; [|apply IHo; [done|]; by eapply mention_here].
        rewrite Ha, bool_decide_eq_true_2 in E by done. done.
      * apply elem_of_cons in Hin as [->|Hin]; [by apply (Hy eq_refl)|]. apply IHo; [done|]. by eapply mention_member.
Qed.

Section analyzer_theorems.
Variable sha256 : string -> string.
Variable json_loads : string -> result json_error json.

(** The decoded body, [JNull] standing for an absent or undecodable one. *)
Definition decodes (body : option string) (j : json) : Prop := parse_json_body json_loads body = Ok j.

(** A cross-owner probe that got an answer, and its successful owner baseline. *)
Definition comparable (test_case : TestCase) (cross owner : TestRun) (so sc : Z) : Prop :=
  test_type test_case = BOLA_CROSS_OWNER /\ failed cross = false /\ failed owner = false
  /\ response_status owner = Some so /\ 200 <= so < 300 /\ response_status cross = Some sc.

(** Both bodies mention the resource. *)
Definition both_mention (cross owner : TestRun) (resource : Resource) : Prop :=
  exists jo jc ko kc, decodes (response_body owner) jo /\ decodes (response_body cross) jc
    /\ mentions resource jo ko /\ mentions resource jc kc.

Lemma runs_gate_ok test_case cross baseline owner so sc :
  runs_gate test_case cross baseline = Ok (owner, so, sc) <->
  baseline = Some owner /\ comparable test_case cross owner so sc.
Proof.
  unfold runs_gate, comparable, is_success_status. rewrite guard_bind_ok, bool_decide_eq_true, guard_bind_ok, negb_true_iff.
  rewrite require_bind_ok. setoid_rewrite require_bind_ok. setoid_rewrite guard_bind_ok.
  setoid_rewrite require_bind_ok. setoid_rewrite guard_bind_ok. setoid_rewrite negb_true_iff.
  setoid_rewrite andb_true_iff. setoid_rewrite Z.leb_le. setoid_rewrite Z.ltb_lt. naive_solver.
Qed.

Lemma compare_bodies_ok cross owner sc so resource r : compare_bodies json_loads cross owner sc so resource = Ok r ->
  outcome_of r <> PASS /\ (outcome_of r = POTENTIAL_BOLA <-> both_mention cross owner resource)
  /\ (outcome_of r = POTENTIAL_BOLA -> evidence r = Some (mkEvidence (test_run_id cross) (test_run_id owner) so sc true true)).
Proof.
  unfold compare_bodies, both_mention, decodes. intros (jo & Ho & (jc & Hc & H)%bind_ok)%bind_ok.
  head_if H.
  { injection H as <-. bool_simpl. subst jc. cbn. split; [done|]. split; [|done]. split; [done|].
    intros (? & j & ? & k & _ & Hj & _ & Hk). rewrite Hc in Hj. injection Hj as <-. inversion Hk. }
  destruct (json_matching_resource_id_key resource jo) as [ko|] eqn:Eo;
    [destruct (json_matching_resource_id_key resource jc) as [kc|] eqn:Ec|]; injection H as <-; cbn;
    (split; [done|]); (split; [|done]).
  - split; [|done]. intros _. exists jo, jc, ko, kc. auto using matching_some.
  - split; [done|]. intros (? & j & ? & k & _ & Hj & _ & Hk). rewrite Hc in Hj. injection Hj as <-.
    by eapply matching_none in Hk.
  - split; [done|]. intros (j & ? & k & ? & Hj & _ & Hk & _). rewrite Ho in Hj. injection Hj as <-.
    by eapply matching_none in Hk.
Qed.

Lemma escape_len_key s : 0 <= str_len s.
Proof. induction s as [|c s IH]; cbn [str_len]; [lia|]. case_if; lia. Qed.

(** * Properties *)

(** C39: The analyzer reports a potential BOLA exactly when a comparable pair of runs
    (cross-owner probe answered, owner baseline successful) has a successful probe and
    both decoded bodies mention the resource's identifier under an allowed key, at any
    depth; it reports a pass exactly when the probe of such a pair was answered 401,
    403 or 404; everything else is inconclusive. The evidence of a finding names the
    two runs and their statuses, and every pair with a baseline is fingerprinted. *)
Theorem analysis_exact test_case cross baseline resource r :
  analyze_bola_run sha256 json_loads test_case cross baseline resource = Ok r ->
  (outcome_of r = POTENTIAL_BOLA <-> exists owner so sc, baseline = Some owner
     /\ comparable test_case cross owner so sc /\ 200 <= sc < 300 /\ both_mention cross owner resource)
  /\ (outcome_of r = PASS <-> exists owner so sc, baseline = Some owner
     /\ comparable test_case cross owner so sc /\ sc ∈ [401; 403; 404])
  /\ (forall owner, baseline = Some owner -> fingerprint_evidence r =
        Some (fingerprint_response_pair sha256 (response_body owner) (response_body cross)))
  /\ (outcome_of r = POTENTIAL_BOLA -> exists owner so sc, baseline = Some owner /\
        response_status owner = Some so /\ response_status cross = Some sc /\
        evidence r = Some (mkEvidence (test_run_id cross) (test_run_id owner) so sc true true)).
Proof.
  unfold analyze_bola_run. intros (r0 & Hr0 & H)%bind_ok.
  assert (Hsame : outcome_of r = outcome_of r0 /\ evidence r = evidence r0 /\
    forall owner, baseline = Some owner -> fingerprint_evidence r =
      Some (fingerprint_response_pair sha256 (response_body owner) (response_body cross))).
  { destruct baseline as [owner|]; injection H as <-; [|done]. split; [done|]. split; [done|]. by intros ? [= <-]. }
  destruct Hsame as (-> & -> & Hf). clear H. unfold classify_bola_run in Hr0.
  destruct (runs_gate test_case cross baseline) as [[[owner so] sc]|reason] eqn:Eg.
  - apply runs_gate_ok in Eg as [-> Hc].
    assert (Huniq : forall P : TestRun -> Z -> Z -> Prop, (exists o s1 s2, Some owner = Some o /\
      comparable test_case cross o s1 s2 /\ P o s1 s2) <-> P owner so sc).
    { intros P. split; [|by exists owner, so, sc]. intros (o & s1 & s2 & [= <-] & Hc2 & HP).
      unfold comparable in *. destruct Hc as (_ & _ & _ & ? & _ & ?), Hc2 as (_ & _ & _ & ? & _ & ?). by simplify_eq. }
    rewrite (Huniq (fun o s1 s2 => 200 <= s2 < 300 /\ both_mention cross o resource)).
    rewrite (Huniq (fun _ _ s2 => s2 ∈ [401; 403; 404])).
    assert (Hst : response_status owner = Some so /\ response_status cross = Some sc) by (unfold comparable in Hc; tauto).
    head_if Hr0; bool_simpl.
    { injection Hr0 as <-. cbn. split; [|done]. split; [done|]. rewrite !elem_of_cons, elem_of_nil in E. lia. }
    unfold is_success_status in Hr0. head_if Hr0.
    { injection Hr0 as <-. cbn. apply negb_true_iff, andb_false_iff in E0. split; [|done].
      split; [done|]. intros [? _]. destruct E0; bool_simpl; lia. }
    apply compare_bodies_ok in Hr0 as (Hp & Hiff & Hev). apply negb_false_iff in E0. bool_simpl.
    split; [rewrite Hiff; naive_solver|]. split; [done|]. split; [done|]. intros Ho. exists owner, so, sc.
    destruct Hst. auto.
  - injection Hr0 as <-. cbn. assert (Hno : forall o so sc, baseline = Some o -> ~ comparable test_case cross o so sc).
    { intros o so sc Hb Hc. assert (Hg : runs_gate test_case cross baseline = Ok (o, so, sc)) by (by apply runs_gate_ok).
      congruence. }
    split; [split; [done|]; intros (o & so & sc & ? & ? & _); exfalso; by eapply Hno|].
    split; [split; [done|]; intros (o & so & sc & ? & ? & _); exfalso; by eapply Hno|]. done.
Qed.
End analyzer_theorems.

(** What an excerpt stores is bounded and never holds a response value: for every key
    it has at most 192 characters, and it is the encoding of one member whose value
    is the fixed marker and whose key is the matched key or the fixed field marker. *)
Theorem excerpt_bounded key :
  str_len (redacted_identifier_excerpt key) <= MAX_EXCERPT_LENGTH
  /\ (redacted_identifier_excerpt key = dump_pair key MATCHED_RESOURCE_IDENTIFIER
      \/ redacted_identifier_excerpt key = dump_pair MATCHED_IDENTIFIER_FIELD MATCHED_RESOURCE_IDENTIFIER).
Proof.
  unfold redacted_identifier_excerpt. cbv zeta. case_if; [|apply Z.ltb_ge in E; auto].
  split; [vm_compute; discriminate | by right].
Qed.

(** The length similarity is a number of basis points between 0 and 10000, symmetric
    in the two bodies, and 10000 when the bodies have the same length. *)
Theorem similarity_bounds b p bd pd : 0 <= b -> 0 <= p ->
  let bps := length_similarity_bps (compare_response_fingerprints (mkFingerprint bd pd b p)) in
  0 <= bps <= 10000 /\ (b = p -> bps = 10000)
  /\ bps = length_similarity_bps (compare_response_fingerprints (mkFingerprint pd bd p b)).
Proof.
  intros Hb Hp. unfold compare_response_fingerprints. cbn. rewrite (Z.min_comm p b), (Z.max_comm p b).
  destruct (Z.eqb_spec (Z.max b p) 0) as [E|E]; [split; [lia|done]|]. split; [|split; [|done]].
  - split; [apply Z.div_pos; lia|]. apply Z.div_le_upper_bound; [lia|]. nia.
  - intros ->. rewrite Z.min_id, Z.max_id in *. rewrite Z.mul_comm. by apply Z.div_mul.
Qed.

(** ** Redaction *)

(** No sensitive key has a value but the marker. *)
Fixpoint redacted (j : json) : bool :=
  match j with
  | JObj o => forallb (fun kv => if is_sensitive_key kv.1 then bool_decide (kv.2 = JStr REDACTED) else redacted kv.2) o
  | JArr l => forallb redacted l
  | _ => true
  end.

(** Two documents that differ only below sensitive keys. *)
Inductive same_public : json -> json -> Prop :=
| public_same j : same_public j j
| public_array l k : Forall2 same_public l k -> same_public (JArr l) (JArr k)
| public_object o p : Forall2 (fun x y => x.1 = y.1 /\ (is_sensitive_key x.1 = true \/ same_public x.2 y.2)) o p ->
    same_public (JObj o) (JObj p).

Lemma redact_json_value_redacted j : redacted (redact_json_value j) = true.
Proof.
  induction j as [| | | | |l IH|o IH] using json_rect_nested; try done; cbn.
  - induction IH as [|x l Hx _ IHl]; cbn; [done|]. by rewrite Hx.
  - induction IH as [|[k v] o Hx _ IHo]; cbn in *; [done|]. rewrite IHo, andb_true_r.
    destruct (is_sensitive_key k); [|done]. by apply bool_decide_eq_true.
Qed.

Lemma redact_fixpoint j : redacted j = true -> redact_json_value j = j.
Proof.
  induction j as [| | | | |l IH|o IH] using json_rect_nested; try done; cbn; intros H; f_equal.
  - induction IH as [|x l Hx _ IHl]; cbn in *; [done|]. bool_simpl. f_equal; auto.
  - induction IH as [|[k v] o Hx _ IHo]; cbn in *; [done|]. bool_simpl. f_equal; [|auto].
    destruct (is_sensitive_key k); bool_simpl; [by subst | by rewrite Hx].
Qed.

Lemma redact_same_public j : same_public j (redact_json_value j).
Proof.
  induction j as [| | | | |l IH|o IH] using json_rect_nested; try apply public_same; cbn.
  - apply public_array. induction IH; by constructor.
  - apply public_object. induction IH as [|[k v] o Hx _ IHo]; cbn; constructor; [|done]. cbn in *.
    split; [done|]. destruct (is_sensitive_key k); auto.
Qed.

(** Redaction leaves no secret and nothing else undone: in the result no sensitive
    key, at any depth, has a value but the marker; the result differs from the
    document only below sensitive keys, with the same keys in the same order; and
    redacting again changes nothing. *)
Theorem redaction_exact j :
  redacted (redact_json_value j) = true /\ same_public j (redact_json_value j)
  /\ redact_json_value (redact_json_value j) = redact_json_value j.
Proof.
  split; [apply redact_json_value_redacted|]. split; [apply redact_same_public|].
  apply redact_fixpoint, redact_json_value_redacted.
Qed.

(** * Witnesses *)

(** A decoder for the two bodies of the sample, standing for [json.loads]. *)
Definition lab_json_loads (s : string) : result json_error json :=
  if bool_decide (s = "order-42") then Ok (JObj [("data", JArr [JObj [("ID", JInt 42)]])])
  else Raise JSONDecodeError.
Definition lab_sha256 (s : string) : string := s.
Definition lab_owner_run : TestRun := mkTestRun 71 50 None None (Some 200) (Some "order-42") (Some 12) None.
Definition lab_probe_run : TestRun := mkTestRun 72 51 None None (Some 200) (Some "order-42") (Some 15) None.
Definition lab_analysis : BOLAAnalysisResult :=
  default (inconclusive "x") (ok_option
    (analyze_bola_run lab_sha256 lab_json_loads lab_case lab_probe_run (Some lab_owner_run) lab_order)).

Lemma analysis_exact_witness :
  exists owner so sc, Some lab_owner_run = Some owner
     /\ comparable lab_case lab_probe_run owner so sc /\ 200 <= sc < 300
     /\ both_mention lab_json_loads lab_probe_run owner lab_order.
Proof.
  apply (analysis_exact lab_sha256 lab_json_loads lab_case lab_probe_run (Some lab_owner_run) lab_order lab_analysis);
    vm_compute; reflexivity.
Defined.

Lemma similarity_bounds_witness :
  0 <= length_similarity_bps (compare_response_fingerprints (mkFingerprint "a" "b" 150 200)) <= 10000.
Proof. apply (similarity_bounds 150 200 "a" "b"); lia. Defined.
