(* ===== verification/Database.v ===== *)
(** A snapshot of the tables that the planning and execution services read, with the
    lookups they make (SQLAlchemy's [db.get] by primary key, and the queries of
    src/backend/app/services/execution_authorization.py and research_intent_gate.py). *)

From S2P Require Import Prelude.
From S2P Require Import PyStr.
From S2P Require Import PyFloat.
From S2P Require Import PyJson.
From S2P Require Import Models.
From S2P Require Import Samples.

Open Scope Z_scope.

(** Rows by id; the rows that are read by a query are lists in increasing id.
    [intent_plan_members] are the (plan, test case) pairs of the research intents. *)
Record Database := mkDatabase {
  targets : gmap Z Target;
  revisions : gmap Z AuthorizationRevision;
  scopes : list Scope;
  identities : gmap Z TestIdentity;
  resources : gmap Z Resource;
  endpoints : gmap Z Endpoint;
  test_cases : gmap Z TestCase;
  bindings : gmap Z CredentialBinding;
  plans : gmap Z ExecutionPlan;
  plan_actions : list PlanAction;
  approvals : list ApprovalRecord;
  intent_plan_members : list (Z * Z)
}.

(** [select(Scope).where(Scope.target_id == t, Scope.is_active)] *)
Definition active_scopes (t : Z) (db : Database) : list Scope :=
  filter (fun s => scope_target_id s = t /\ scope_is_active s = true) (scopes db).

(** [load_execution_authorization]; [None] is the [LookupError]. *)
Definition load_execution_authorization (t : Z) (db : Database)
    : option (Target * option AuthorizationRevision * list Scope) :=
  target ← targets db !! t;
  Some (target, r ← target_authorization_revision_id target; revisions db !! r, active_scopes t db).

(** The actions of a plan: [order_by(PlanAction.ordinal, PlanAction.id)] *)
Fixpoint insert_action (a : PlanAction) (l : list PlanAction) : list PlanAction :=
  match l with
  | [] => [a]
  | b :: l' => if ordinal a <=? ordinal b then a :: l else b :: insert_action a l'
  end.
Fixpoint sort_actions (l : list PlanAction) : list PlanAction :=
  match l with [] => [] | a :: l' => insert_action a (sort_actions l') end.
Definition actions_of (p : Z) (db : Database) : list PlanAction :=
  sort_actions (filter (fun a => action_execution_plan_id a = p) (plan_actions db)).

(** * The research gate

    Actions of a research intent never run through the services modelled here. *)

Definition new_case (db : Database) (case : option TestCase) : bool :=
  match case with
  | None => false
  | Some c => startswith "ra_" (test_type c)
              || existsb (fun m => m.2 =? test_case_id c) (intent_plan_members db)
  end.

Definition has_key (k : string) (j : json) : bool :=
  match j with JObj o => negb (is_none (assoc k o)) | _ => false end.

(** The query reads the first 101 cases; a plan has at most 100 actions. *)
Definition new_plan (db : Database) (plan : ExecutionPlan) : bool :=
  has_key "research_intent" (policy_context plan)
  || existsb (fun m => m.1 =? plan_id plan) (intent_plan_members db)
  || existsb (fun a => new_case db (c ← action_test_case_id a; test_cases db !! c))
       (take 101 (actions_of (plan_id plan) db)).

(** * Lemmas *)

Lemma insert_action_perm a l : insert_action a l ≡ₚ a :: l.
Proof.
  induction l as [|b l IH]; cbn; [done|]. case_if; [done|]. rewrite IH. apply Permutation_swap.
Qed.
Lemma sort_actions_perm l : sort_actions l ≡ₚ l.
Proof. induction l as [|a l IH]; cbn; [done|]. by rewrite insert_action_perm, IH. Qed.

(** Rows whose ordinals increase already are in order. *)
Lemma sort_actions_sorted l : Sorted (fun a b => ordinal a <= ordinal b) l -> sort_actions l = l.
Proof.
  induction 1 as [|a l Hs IH Hd]; cbn; [done|]. rewrite IH. destruct l as [|b l]; [done|]. cbn.
  inversion Hd; subst. by rewrite (proj2 (Z.leb_le _ _)).
Qed.

(** * Sample *)

Definition lab_binding : CredentialBinding := mkBinding 81 22 "bearer" "stored_secret" true.
Definition lab_db : Database :=
  mkDatabase {[ 1 := lab_target ]} {[ 11 := lab_revision ]} [lab_scope]
    {[ 21 := lab_alice; 22 := lab_bob; 23 := lab_guest ]} {[ 31 := lab_order ]} {[ 41 := lab_endpoint ]}
    {[ 51 := lab_case ]} {[ 81 := lab_binding ]} ∅ [] [] [].
