(* ===== verification/PlanDigest.v ===== *)
(** Execution plans, src/backend/app/services/execution_plan.py: rejection of secrets,
    canonical policy contexts, digests and the creation of a plan.

    [sha256] (the hexadecimal digest of a text's UTF-8 bytes) and [json_loads] are
    arguments. *)

From S2P Require Import Prelude.
From S2P Require Import PyStr.
From S2P Require Import PyUrl.
From S2P Require Import PyFloat.
From S2P Require Import PyJson.
From S2P Require Import PyJsonText.
From S2P Require Import Models.
From S2P Require Import Samples.
From S2P Require Import ScopePolicy.
From S2P Require Import Database.

Open Scope Z_scope.

Definition MAX_PLAN_ACTIONS : Z := 100.
Definition MAX_POLICY_CONTEXT_BYTES : Z := 16 * 1024.
Definition DIGEST_VERSION : string := "v1".
Definition MAX_ACTION_URL_LENGTH : Z := 2048.

(** [ExecutionPlanValidationError]; [PlanPolicyError] is an error of the policy's
    functions, which passes through. *)
Inductive plan_error : Type :=
| ExecutionPlanValidationError (message : string)
| PlanPolicyError (e : policy_error)
| PlanJsonError.
#[export] Instance plan_error_eq_dec : EqDecision plan_error.
Proof. solve_decision. Defined.

Record PlanActionInput := mkInput {
  input_method : string;
  input_url : string;
  input_test_case_id : option Z;
  input_resource_id : option Z
}.

(** * Secrets *)

Definition SECRET_KEY_BASES : list string :=
  ["authorization"; "cookie"; "setcookie"; "apikey"; "xapikey"; "bearer"; "bearertoken"; "accesstoken";
   "refreshtoken"; "clientsecret"; "password"; "passwd"; "session"; "sessionid"; "sessiontoken"].
Definition SECRET_KEY_QUALIFIERS : list string := ["material"; "header"; "secret"; "token"; "value"].

(** [_SECRET_KEY.sub("", key.lower())] *)
Definition normalized_key (key : string) : string :=
  str_filter (fun c => is_lower c || is_digit c) (lower key).

(** The [while] loop: qualifiers are taken off the front until none fits. *)
Fixpoint strip_qualifiers (fuel : nat) (remainder : string) : string :=
  match fuel with
  | O => remainder
  | S fuel' =>
      match find_first (fun q => startswith q remainder) SECRET_KEY_QUALIFIERS with
      | Some q => strip_qualifiers fuel' (str_drop (String.length q) remainder)
      | None => remainder
      end
  end.

Definition is_secret_bearing_key (key : string) : bool :=
  let normalized := normalized_key key in
  existsb (fun base =>
    startswith base normalized
    && is_empty (strip_qualifiers (String.length normalized) (str_drop (String.length base) normalized)))
    SECRET_KEY_BASES.

(** [re.match(r"^\s*bearer\s+\S", value, re.I)] *)
Definition is_bearer_text (value : string) : bool :=
  let v := lstrip_by is_space value in
  startswith "bearer" (lower v)
  && match str_drop 6 v with
     | String c rest => is_space c && negb (is_empty (lstrip_by is_space rest))
     | EmptyString => false
     end.

(** [_reject_secret_context]: whether the context is free of secrets *)
Fixpoint secret_free (value : json) : bool :=
  match value with
  | JObj o => forallb (fun kv => negb (is_secret_bearing_key kv.1) && secret_free kv.2) o
  | JArr l => forallb secret_free l
  | JStr s => negb (is_bearer_text s)
  | _ => true
  end.
Definition reject_secret_context (value : json) : result plan_error unit :=
  guard_or (secret_free value) (ExecutionPlanValidationError "policy_context contains secret-bearing material").

Definition reject_secret_url (url : string) : result plan_error unit :=
  match urlsplit url with
  | None => Raise (PlanPolicyError (PlainValueError "invalid URL"))
  | Some parsed =>
      _ ← guard_or (is_empty (fragment parsed))
            (ExecutionPlanValidationError "action URL fragments are not allowed");
      guard_or (forallb (fun kv => negb (is_secret_bearing_key kv.1 || is_bearer_text kv.2))
                  (parse_qsl (query parsed)))
        (ExecutionPlanValidationError "action URL contains secret-bearing material")
  end.

(** * Canonical JSON and digests *)

Definition canonical_json (value : json) : result plan_error string :=
  require (dumps canonical value) (ExecutionPlanValidationError "policy_context must be JSON-serializable").

Definition opt_json (o : option Z) : json := match o with Some n => JInt n | None => JNull end.

Definition action_json (ordinal : Z) (a : PlanActionInput) : json :=
  JObj [("ordinal", JInt ordinal); ("method", JStr (input_method a)); ("url", JStr (input_url a));
        ("test_case_id", opt_json (input_test_case_id a)); ("resource_id", opt_json (input_resource_id a))].

(** [enumerate(actions, start=n)] *)
Fixpoint enumerate {A B} (f : Z -> A -> B) (n : Z) (l : list A) : list B :=
  match l with [] => [] | x :: l' => f n x :: enumerate f (n + 1) l' end.

Definition plan_payload (target revision actor : Z) (binding : option Z) (context : json)
    (actions : list PlanActionInput) : json :=
  JObj [("digest_version", JStr DIGEST_VERSION); ("target_id", JInt target);
        ("authorization_revision_id", JInt revision); ("actor_identity_id", JInt actor);
        ("credential_binding_id", opt_json binding); ("policy_context", context);
        ("action_count", JInt (Z.of_nat (length actions)));
        ("actions", JArr (enumerate action_json 1 actions))].

Section plans.
Variable sha256 : string -> string.
Variable json_loads : string -> option json.

Definition canonicalize_policy_context (policy_context : option json) : result plan_error json :=
  let value := default (JObj []) policy_context in
  _ ← guard_or (match value with JObj _ | JArr _ => true | _ => false end)
        (ExecutionPlanValidationError "policy_context must be a JSON object or array");
  _ ← reject_secret_context value;
  text ← canonical_json value;
  _ ← guard_or (byte_len text <=? MAX_POLICY_CONTEXT_BYTES)
        (ExecutionPlanValidationError "policy_context exceeds size limit");
  require (json_loads text) PlanJsonError.

Definition compute_plan_digest_v1 (target revision actor : Z) (binding : option Z) (context : json)
    (actions : list PlanActionInput) : result plan_error string :=
  text ← canonical_json (plan_payload target revision actor binding context actions);
  Ok (sha256 text).

(** * Creation *)

Definition invalid (message : string) : plan_error := ExecutionPlanValidationError message.
Definition lift_policy {A} (m : policy_result A) : result plan_error A :=
  catch m (fun e => Raise (PlanPolicyError e)).

Definition is_anonymous (actor : TestIdentity) : bool :=
  bool_decide (auth_type actor = "none") || bool_decide (auth_type actor = "anonymous").

(** The rows that the plan names, up to the credential binding. *)
Definition plan_parties (db : Database) (target_id revision_id actor_id : Z) (binding_id : option Z)
    : result plan_error (Target * AuthorizationRevision * TestIdentity) :=
  target ← require (targets db !! target_id) (invalid "target and revision must exist");
  revision ← require (revisions db !! revision_id) (invalid "target and revision must exist");
  _ ← guard_or (bool_decide (target_authorization_revision_id target = Some (Models.revision_id revision)))
        (invalid "revision is not bound to target");
  _ ← guard_or (bool_decide (target_authorization_profile_id target = Some (authorization_profile_id revision))
                && bool_decide (lifecycle_state revision = "active"))
        (invalid "revision is not active for target");
  actor ← require (identities db !! actor_id) (invalid "actor does not belong to target");
  _ ← guard_or (identity_target_id actor =? Models.target_id target) (invalid "actor does not belong to target");
  _ ← guard_or (negb (is_anonymous actor && negb (is_none binding_id)))
        (invalid "anonymous actor cannot select a credential binding");
  _ ← guard_or (negb (negb (is_anonymous actor) && is_none binding_id))
        (invalid "authenticated actor requires an exact credential binding");
  _ ← match binding_id with
      | None => Ok tt
      | Some b =>
          guard_or (match bindings db !! b with
                    | Some row => (binding_test_identity_id row =? identity_id actor)
                                  && binding_is_active row
                                  && bool_decide (binding_auth_type row = auth_type actor)
                    | None => false
                    end) (invalid "credential binding is not active for actor")
      end;
  Ok (target, revision, actor).

Definition in_target {A} (project : A -> Z) (t : Z) (row : option A) : bool :=
  match row with Some x => project x =? t | None => false end.

(** The body of the loop over the actions. *)
Definition check_action (db : Database) (t : Z) (origin : Origin) (a : PlanActionInput)
    : result plan_error unit :=
  _ ← guard_or (bool_decide (input_method a = "GET")) (invalid "planned actions must use GET");
  _ ← guard_or (negb (is_empty (input_url a)) && (str_len (input_url a) <=? MAX_ACTION_URL_LENGTH))
        (invalid "action URL is invalid or too long");
  o ← lift_policy (parse_origin (input_url a));
  _ ← guard_or (bool_decide (o = origin)) (invalid "action URL is outside target origin");
  _ ← lift_policy (normalize_request_path (input_url a));
  _ ← reject_secret_url (input_url a);
  _ ← match input_resource_id a with
      | None => Ok tt
      | Some r => guard_or (in_target resource_target_id t (resources db !! r))
                    (invalid "resource provenance does not belong to target")
      end;
  match input_test_case_id a with
  | None => Ok tt
  | Some c =>
      let wrong := invalid "test case provenance does not belong to target" in
      case ← require (test_cases db !! c) wrong;
      guard_or (in_target endpoint_target_id t (endpoints db !! test_case_endpoint_id case)
                && in_target resource_target_id t (resources db !! test_case_resource_id case)
                && in_target identity_target_id t (identities db !! test_case_actor_identity_id case)
                && match input_resource_id a with
                   | Some r => r =? test_case_resource_id case
                   | None => true
                   end) wrong
  end.

Definition new_action (plan first_id : Z) (ordinal : Z) (a : PlanActionInput) : PlanAction :=
  mkAction (first_id + ordinal) plan ordinal (input_method a) (input_url a) (input_test_case_id a)
    (input_resource_id a).

(** [_create_execution_plan]: the plan and its actions, with the ids that the database
    gives them. *)
Definition create_execution_plan_ (db : Database) (target_id revision_id actor_id : Z)
    (binding_id : option Z) (actions : list PlanActionInput) (policy_context : option json)
    (new_plan_id first_action_id : Z) : result plan_error (ExecutionPlan * list PlanAction) :=
  _ ← guard_or ((1 <=? Z.of_nat (length actions)) && (Z.of_nat (length actions) <=? MAX_PLAN_ACTIONS))
        (invalid "plan must contain 1..100 actions");
  '(target, revision, actor) ← plan_parties db target_id revision_id actor_id binding_id;
  origin ← lift_policy (parse_origin (base_url target));
  _ ← map_result (check_action db (Models.target_id target) origin) actions;
  context ← canonicalize_policy_context policy_context;
  digest ← compute_plan_digest_v1 (Models.target_id target) (Models.revision_id revision)
             (identity_id actor) binding_id context actions;
  Ok (mkPlan new_plan_id (Models.target_id target) (Models.revision_id revision) (identity_id actor)
        binding_id DIGEST_VERSION digest (Z.of_nat (length actions)) context,
      enumerate (new_action new_plan_id first_action_id) 1 actions).

(** [create_execution_plan]: the public creator, closed to research actions. *)
Definition create_execution_plan (db : Database) (target_id revision_id actor_id : Z)
    (binding_id : option Z) (actions : list PlanActionInput) (policy_context : option json)
    (new_plan_id first_action_id : Z) : result plan_error (ExecutionPlan * list PlanAction) :=
  _ ← guard_or (negb (match policy_context with Some c => has_key "research_intent" c | None => false end))
        (invalid "intent_w2_execution_closed");
  _ ← guard_or (forallb (fun a => negb (new_case db (c ← input_test_case_id a; test_cases db !! c))) actions)
        (invalid "intent_w2_execution_closed");
  create_execution_plan_ db target_id revision_id actor_id binding_id actions policy_context
    new_plan_id first_action_id.
End plans.

(** * Lemmas *)

(** No qualifier is a prefix of another, so taking them greedily loses nothing. *)
Lemma qualifier_unique q q' s : q ∈ SECRET_KEY_QUALIFIERS -> q' ∈ SECRET_KEY_QUALIFIERS ->
  startswith q (q' +:+ s) = true -> q = q'.
Proof.
  unfold SECRET_KEY_QUALIFIERS. rewrite !elem_of_cons, !elem_of_nil.
  intros [->|[->|[->|[->|[->|[]]]]]] [->|[->|[->|[->|[->|[]]]]]]; done.
Qed.

Lemma strip_qualifiers_spec fuel r : (String.length r <= fuel)%nat ->
  is_empty (strip_qualifiers fuel r) = true <->
  exists qs, Forall (fun q => q ∈ SECRET_KEY_QUALIFIERS) qs /\ r = concat_str qs.
Proof.
  revert r. induction fuel as [|fuel IH]; intros r Hlen; cbn [strip_qualifiers].
  - destruct r; cbn in Hlen; [|lia]. split; [by exists [] | done].
  - destruct (find_first _ _) as [q|] eqn:E.
    + apply find_first_elem in E as [Hq Hp]. apply startswith_app in Hp as [s ->].
      assert (Hlt : (1 <= String.length q)%nat).
      { apply list_elem_of_In in Hq. cbn in Hq. by destruct Hq as [<-|[<-|[<-|[<-|[<-|[]]]]]]; cbn; lia. }
      rewrite str_length_app in Hlen. rewrite str_drop_app, IH by lia. split.
      * intros (qs & Hqs & ->). exists (q :: qs). split; [by constructor | done].
      * intros ([|q' qs] & Hqs & H); [by destruct q; cbn in Hlt; [lia|]|]. inversion Hqs; subst.
        cbn in H. assert (q = q') as ->.
        { apply (qualifier_unique _ _ (concat_str qs)); [done..|]. rewrite <- H.
          apply startswith_app. by exists s. }
        apply (f_equal (str_drop (String.length q'))) in H. rewrite !str_drop_app in H.
        by exists qs.
    + split.
      * destruct r; [|done]. by exists [].
      * intros ([|q qs] & Hqs & ->); [done|]. inversion Hqs; subst.
        rewrite find_first_none in E. specialize (E q ltac:(done)). cbn [concat_str] in E.
        rewrite (proj2 (startswith_app _ _)) in E; [done | by eexists].
Qed.

(** The canonical text of a payload determines it. *)
Lemma canonical_json_inj j1 j2 t : canonical_json j1 = Ok t -> canonical_json j2 = Ok t ->
  doc_of canonical j1 = doc_of canonical j2.
Proof.
  unfold canonical_json, require. intros H1 H2.
  destruct (dumps canonical j1) as [x|] eqn:E1, (dumps canonical j2) as [y|] eqn:E2; try done.
  injection H1 as ->. injection H2 as ->. by apply (dumps_inj canonical) with t.
Qed.

Lemma opt_json_inj a b : doc_of canonical (opt_json a) = doc_of canonical (opt_json b) -> a = b.
Proof.
  assert (Hnull : forall n, str_of_Z n <> "null").
  { intros n H. destruct (Z.lt_ge_cases n 0).
    - by rewrite str_of_Z_neg in H.
    - pose proof (decimal_digits n ltac:(done)) as Hd. by rewrite H in Hd. }
  destruct a as [a|], b as [b|]; cbn; [intros [= ->%str_of_Z_inj] | intros [= []%Hnull] | |]; [done| |done].
  intros [= H]. by destruct (Hnull b).
Qed.

Lemma action_json_inj n m a b :
  doc_of canonical (action_json n a) = doc_of canonical (action_json m b) -> a = b.
Proof.
  unfold action_json. cbn [doc_of map fst snd]. remember opt_json as oj. cbn. subst oj.
  intros [= H1 _ H2 H3 H4]. apply opt_json_inj in H2, H3. destruct a, b. cbn in *. by subst.
Qed.

Lemma enumerate_actions_inj n m l k :
  map (doc_of canonical) (enumerate action_json n l) = map (doc_of canonical) (enumerate action_json m k) ->
  l = k.
Proof.
  revert n m k. induction l as [|a l IH]; intros n m [|b k] H; cbn [enumerate map] in H; try done.
  pose proof (f_equal (hd (DAtom EmptyString)) H) as H1. pose proof (f_equal (@tl doc) H) as H2.
  apply action_json_inj in H1 as ->. by apply IH in H2 as ->.
Qed.

Lemma plan_payload_inj t1 r1 a1 b1 c1 l1 t2 r2 a2 b2 c2 l2 :
  doc_of canonical (plan_payload t1 r1 a1 b1 c1 l1) = doc_of canonical (plan_payload t2 r2 a2 b2 c2 l2) ->
  t1 = t2 /\ r1 = r2 /\ a1 = a2 /\ b1 = b2 /\ l1 = l2 /\ doc_of canonical c1 = doc_of canonical c2.
Proof.
  unfold plan_payload. cbn [doc_of map fst snd sort_keys canonical].
  remember opt_json as oj. remember (doc_of canonical) as dc eqn:Hdc.
  remember (map dc (enumerate action_json 1 l1)) as d1 eqn:Hd1.
  remember (map dc (enumerate action_json 1 l2)) as d2 eqn:Hd2. cbn.
  intros [= _ Hl Ha Hr Hb Hc Ht]. subst.
  apply str_of_Z_inj in Ha, Hr, Ht. apply opt_json_inj in Hb. apply enumerate_actions_inj in Hl.
  done.
Qed.

(** * Properties *)

(** the loop over bases and qualifiers recognises exactly the secret names: a key
    is secret-bearing when its letters and digits, lowered, are one of the bases followed
    by any sequence of qualifiers. *)
Theorem secret_key_spec key : is_secret_bearing_key key = true <->
  exists base qs, base ∈ SECRET_KEY_BASES /\ Forall (fun q => q ∈ SECRET_KEY_QUALIFIERS) qs /\
    normalized_key key = base +:+ concat_str qs.
Proof.
  unfold is_secret_bearing_key. rewrite existsb_exists. split.
  - intros (base & Hb & [Hp Hs]%andb_prop). apply list_elem_of_In in Hb.
    apply startswith_app in Hp as [r Hr]. rewrite Hr, str_drop_app in Hs.
    apply strip_qualifiers_spec in Hs as (qs & Hqs & ->); [by exists base, qs|].
    rewrite str_length_app. lia.
  - intros (base & qs & Hb & Hqs & Hn). exists base. split; [by apply list_elem_of_In|].
    rewrite Hn, str_drop_app. apply andb_true_intro. split; [apply startswith_app; by eexists|].
    apply strip_qualifiers_spec; [rewrite str_length_app; lia | by exists qs].
Qed.

(** C12: the digest binds everything that is approved: unless the two canonical texts
    collide under the hash, equal digests mean the same target, revision, actor, binding
    and actions, and policy contexts that are the same document. *)
Theorem digest_binds sha256 t1 r1 a1 b1 c1 l1 t2 r2 a2 b2 c2 l2 d
    (Hcollision : forall x y, canonical_json (plan_payload t1 r1 a1 b1 c1 l1) = Ok x ->
       canonical_json (plan_payload t2 r2 a2 b2 c2 l2) = Ok y -> sha256 x = sha256 y -> x = y)
    (H1 : compute_plan_digest_v1 sha256 t1 r1 a1 b1 c1 l1 = Ok d)
    (H2 : compute_plan_digest_v1 sha256 t2 r2 a2 b2 c2 l2 = Ok d) :
  t1 = t2 /\ r1 = r2 /\ a1 = a2 /\ b1 = b2 /\ l1 = l2 /\ doc_of canonical c1 = doc_of canonical c2.
Proof.
  unfold compute_plan_digest_v1 in H1, H2. apply bind_ok in H1 as (x & Hx & [= E1]), H2 as (y & Hy & [= E2]).
  assert (x = y) as -> by (apply Hcollision; congruence).
  apply plan_payload_inj. by apply canonical_json_inj with y.
Qed.

(** What a plan's action satisfies. *)
Definition action_sound (db : Database) (t : Z) (origin : Origin) (a : PlanActionInput) : Prop :=
  input_method a = "GET" /\ str_len (input_url a) <= MAX_ACTION_URL_LENGTH /\
  parse_origin (input_url a) = Ok origin /\ is_ok (normalize_request_path (input_url a)) = true /\
  (exists u, urlsplit (input_url a) = Some u /\ fragment u = EmptyString /\
     Forall (fun kv => is_secret_bearing_key kv.1 = false /\ is_bearer_text kv.2 = false)
       (parse_qsl (query u))) /\
  (forall r, input_resource_id a = Some r -> exists row, resources db !! r = Some row /\ resource_target_id row = t) /\
  (forall c, input_test_case_id a = Some c -> exists case, test_cases db !! c = Some case /\
     (forall r, input_resource_id a = Some r -> r = test_case_resource_id case)).

Lemma reject_secret_url_ok url : reject_secret_url url = Ok tt -> exists u, urlsplit url = Some u /\
  fragment u = EmptyString /\
  Forall (fun kv => is_secret_bearing_key kv.1 = false /\ is_bearer_text kv.2 = false) (parse_qsl (query u)).
Proof.
  unfold reject_secret_url. destruct (urlsplit url) as [u|]; [|done]. rewrite guard_bind_ok.
  intros [Hf Hg]. unfold guard_or in Hg. case_if_in Hg; [|done]. exists u. split; [done|].
  split; [by destruct (fragment u)|]. apply Forall_forall. intros kv Hkv. rewrite forallb_forall in E.
  apply list_elem_of_In in Hkv. apply E in Hkv. by apply negb_true_iff, orb_false_iff in Hkv.
Qed.

Lemma check_action_ok db t origin a : check_action db t origin a = Ok tt -> action_sound db t origin a.
Proof.
  unfold check_action, lift_policy. rewrite !guard_bind_ok. intros (Hm & Hu & H).
  destruct (parse_origin (input_url a)) as [o|] eqn:Ho; [|done]. cbn [catch mbind result_bind] in H.
  apply guard_bind_ok in H as [Ho' H]. bool_simpl. subst o.
  destruct (normalize_request_path (input_url a)) eqn:Hp; [|done]. cbn [catch mbind result_bind] in H.
  apply bind_ok in H as ([] & Hs & H). apply reject_secret_url_ok in Hs.
  apply bind_ok in H as ([] & Hr & H). split; [done|]. split; [done|]. split; [done|].
  split; [by rewrite Hp|]. split; [done|]. split.
  - intros r Er. rewrite Er in Hr. unfold in_target, guard_or in Hr. case_if_in Hr; [|done].
    destruct (resources db !! r) as [row|]; [|done]. bool_simpl. by exists row.
  - intros c Ec. rewrite Ec in H. apply require_bind_ok in H as (case & Hc & H). exists case. split; [done|].
    intros r Er. rewrite Er in H. unfold guard_or in H. case_if_in H; [|done]. by bool_simpl.
Qed.

Definition input_of (a : PlanAction) : PlanActionInput :=
  mkInput (action_method a) (action_url a) (action_test_case_id a) (action_resource_id a).

Lemma enumerate_new p i n l : map input_of (enumerate (new_action p i) n l) = l /\
  map ordinal (enumerate (new_action p i) n l) = seqZ n (Z.of_nat (length l)) /\
  Forall (fun a => action_execution_plan_id a = p) (enumerate (new_action p i) n l).
Proof.
  revert n. induction l as [|a l IH]; intros n; [done|]. cbn [enumerate map].
  destruct (IH (n + 1)) as (-> & -> & H). split; [by destruct a|]. split; [|by constructor].
  cbn [length]. rewrite Nat2Z.inj_succ, (seqZ_cons n) by lia. by rewrite Z.pred_succ.
Qed.

(** a created plan names a Target bound to an active revision of its profile and an
    actor of that Target with the right kind of credential; every action is a GET of the
    Target's origin without secrets whose provenance is the Target's; and the rows
    written are exactly the actions, numbered from one, under the digest of them all. *)
Theorem created_plan_sound sha256 json_loads db t r a b actions context pid aid plan acts
    (H : create_execution_plan sha256 json_loads db t r a b actions context pid aid = Ok (plan, acts)) :
  (exists target revision actor origin,
     targets db !! t = Some target /\ revisions db !! r = Some revision /\ identities db !! a = Some actor /\
     target_authorization_revision_id target = Some (revision_id revision) /\
     target_authorization_profile_id target = Some (authorization_profile_id revision) /\
     lifecycle_state revision = "active" /\ identity_target_id actor = target_id target /\
     is_none b = is_anonymous actor /\ parse_origin (base_url target) = Ok origin /\
     Forall (action_sound db (target_id target) origin) actions /\
     plan_target_id plan = target_id target /\ plan_actor_identity_id plan = identity_id actor) /\
  1 <= action_count plan <= MAX_PLAN_ACTIONS /\ action_count plan = Z.of_nat (length actions) /\
  map input_of acts = actions /\ map ordinal acts = seqZ 1 (action_count plan) /\
  Forall (fun x => action_execution_plan_id x = plan_id plan) acts /\
  secret_free (default (JObj []) context) = true /\
  compute_plan_digest_v1 sha256 (plan_target_id plan) (plan_authorization_revision_id plan)
    (plan_actor_identity_id plan) (plan_credential_binding_id plan) (policy_context plan) actions
  = Ok (plan_digest plan).
Proof.
  unfold create_execution_plan, create_execution_plan_, lift_policy in H.
  apply guard_bind_ok in H as [_ H]. apply guard_bind_ok in H as [_ H].
  apply guard_bind_ok in H as [Hlen H]. apply bind_ok in H as ([[target revision] actor] & Hp & H).
  destruct (parse_origin (base_url target)) as [origin|] eqn:Ho; [|done]. cbn [catch mbind result_bind] in H.
  apply bind_ok in H as (us & Hacts & H). apply bind_ok in H as (frozen & Hc & H).
  apply bind_ok in H as (d & Hd & [= <- <-]). destruct (enumerate_new pid aid 1 actions) as (E1 & E2 & E3).
  apply map_result_ok in Hacts. unfold canonicalize_policy_context, reject_secret_context in Hc.
  rewrite !guard_bind_ok in Hc. destruct Hc as (_ & Hsec & _).
  cbn [action_count plan_id plan_digest]. bool_simpl. split; [|by eauto 10].
  unfold plan_parties in Hp. apply require_bind_ok in Hp as (target' & Ht & Hp).
  apply require_bind_ok in Hp as (revision' & Hr & Hp). rewrite !guard_bind_ok in Hp.
  destruct Hp as (B1 & B2 & Hp). apply require_bind_ok in Hp as (actor' & Ha & Hp).
  rewrite !guard_bind_ok in Hp. destruct Hp as (B3 & B4 & B5 & Hp).
  apply bind_ok in Hp as ([] & _ & [= -> -> ->]). bool_simpl.
  exists target, revision, actor, origin. do 8 (split; [first [done | by destruct b, (is_anonymous actor)]|]).
  split; [done|]. split; [|done]. clear -Hacts. induction Hacts; constructor; [|done].
  destruct y. by apply check_action_ok.
Qed.

Definition lab_action : PlanActionInput := mkInput "GET" "http://localhost:8000/api/orders/42" (Some 51) (Some 31).
Definition lab_loads (text : string) : option json := if String.eqb text "{}" then Some (JObj []) else None.

(** Two contexts that differ in the order of their members. *)
Lemma digest_binds_witness :
  let c1 := JObj [("b", JInt 1); ("a", JNull)] in
  let c2 := JObj [("a", JNull); ("b", JInt 1)] in
  c1 <> c2 /\ doc_of canonical c1 = doc_of canonical c2.
Proof.
  intros c1 c2. split; [done|].
  apply (digest_binds (fun s => s) 1 11 22 (Some 81) c1 [lab_action] 1 11 22 (Some 81) c2 [lab_action]
    (default EmptyString (ok_option (canonical_json (plan_payload 1 11 22 (Some 81) c1 [lab_action])))));
    [done | vm_compute; reflexivity..].
Defined.

Lemma created_plan_sound_witness : exists plan acts,
  create_execution_plan (fun s => s) lab_loads lab_db 1 11 22 (Some 81) [lab_action] None 61 70 = Ok (plan, acts)
  /\ Forall (fun x => action_execution_plan_id x = plan_id plan) acts.
Proof.
  eexists _, _. split; [vm_compute; reflexivity|].
  apply (created_plan_sound (fun s => s) lab_loads lab_db 1 11 22 (Some 81) [lab_action] None 61 70).
  vm_compute; reflexivity.
Defined.
