(* ===== verification/Approval.v ===== *)
(** Approval of execution plans, src/backend/app/services/execution_plan_approval.py:
    the persisted plan is recomputed against its digest, and approved by the latest
    decision recorded for exactly that digest. *)

From S2P Require Import Prelude.
From S2P Require Import PyStr.
From S2P Require Import PyFloat.
From S2P Require Import PyJson.
From S2P Require Import PyJsonText.
From S2P Require Import Models.
From S2P Require Import Samples.
From S2P Require Import Database.
From S2P Require Import PlanDigest.

Open Scope Z_scope.

(** [PlanIntegrityError]; an error of the encoder passes through. *)
Inductive integrity_error : Type :=
| PlanIntegrityError (message : string)
| EncodingError (e : plan_error).
#[export] Instance integrity_error_eq_dec : EqDecision integrity_error.
Proof. solve_decision. Defined.

(** [re.fullmatch(r"[0-9a-f]{64}", text)] *)
Definition is_digest (text : string) : bool :=
  (str_len text =? 64) && str_forall (fun c => is_digit c || between 97 102 c) text.

Section approval.
Variable sha256 : string -> string.

Definition load_plan_snapshot (db : Database) (execution_plan_id : Z)
    : result integrity_error (ExecutionPlan * list PlanAction) :=
  plan ← require (plans db !! execution_plan_id) (PlanIntegrityError "Execution plan is unavailable.");
  let actions := actions_of execution_plan_id db in
  _ ← guard_or (bool_decide (map ordinal actions = seqZ 1 (Z.of_nat (length actions))))
        (PlanIntegrityError "Persisted plan action ordering is invalid.");
  Ok (plan, actions).

Definition validate_digest_contract (plan : ExecutionPlan) : result integrity_error unit :=
  guard_or (bool_decide (digest_version plan = DIGEST_VERSION) && is_digest (plan_digest plan))
    (PlanIntegrityError "Persisted plan digest contract is unsupported.").

Definition digest_of (plan : ExecutionPlan) (actions : list PlanAction) : result integrity_error string :=
  catch (compute_plan_digest_v1 sha256 (plan_target_id plan) (plan_authorization_revision_id plan)
           (plan_actor_identity_id plan) (plan_credential_binding_id plan) (policy_context plan)
           (map input_of actions))
    (fun e => Raise (EncodingError e)).

Definition recompute_persisted_plan_digest (db : Database) (execution_plan_id : Z)
    : result integrity_error string :=
  '(plan, actions) ← load_plan_snapshot db execution_plan_id;
  _ ← validate_digest_contract plan;
  digest_of plan actions.

Definition validate_persisted_plan_integrity (db : Database) (execution_plan_id : Z)
    : result integrity_error ExecutionPlan :=
  '(plan, actions) ← load_plan_snapshot db execution_plan_id;
  _ ← validate_digest_contract plan;
  _ ← guard_or (action_count plan =? Z.of_nat (length actions))
        (PlanIntegrityError "Persisted plan action count does not match.");
  recomputed ← digest_of plan actions;
  _ ← guard_or (bool_decide (recomputed = plan_digest plan))
        (PlanIntegrityError "Persisted plan digest does not match its actions.");
  Ok plan.

(** The records of exactly this plan, version and digest. *)
Definition exact_record (plan : ExecutionPlan) (r : ApprovalRecord) : bool :=
  (approval_execution_plan_id r =? plan_id plan)
  && bool_decide (approval_digest_version r = digest_version plan)
  && bool_decide (approval_plan_digest r = plan_digest plan).

(** [order_by(id.desc()).limit(1)] *)
Fixpoint greatest_id (l : list ApprovalRecord) : option ApprovalRecord :=
  match l with
  | [] => None
  | r :: l' =>
      match greatest_id l' with
      | Some s => Some (if approval_id r <? approval_id s then s else r)
      | None => Some r
      end
  end.
Definition latest_exact_decision (db : Database) (plan : ExecutionPlan) : option ApprovalRecord :=
  greatest_id (filter (fun r => exact_record plan r = true) (approvals db)).

(** Only [PlanIntegrityError] is caught. *)
Definition is_plan_approved (db : Database) (execution_plan_id : Z) : result integrity_error bool :=
  match validate_persisted_plan_integrity db execution_plan_id with
  | Raise (PlanIntegrityError _) => Ok false
  | Raise e => Raise e
  | Ok plan =>
      if new_plan db plan then Ok false
      else Ok (match latest_exact_decision db plan with
               | Some latest => bool_decide (approval_decision latest = "approved")
               | None => false
               end)
  end.

Definition set_approvals (f : list ApprovalRecord -> list ApprovalRecord) (db : Database) : Database :=
  mkDatabase (targets db) (revisions db) (scopes db) (identities db) (resources db) (endpoints db)
    (test_cases db) (bindings db) (plans db) (plan_actions db) (f (approvals db)) (intent_plan_members db).

Definition valid_decision (decision : string) : bool :=
  bool_decide (decision = "approved") || bool_decide (decision = "revoked").

Definition append_exact_decision (db : Database) (plan : ExecutionPlan) (decision : string) (new_id : Z)
    : result integrity_error (ApprovalRecord * Database) :=
  _ ← guard_or (valid_decision decision) (PlanIntegrityError "Approval decision is invalid.");
  let record := mkApproval new_id (plan_id plan) (digest_version plan) (plan_digest plan) decision in
  Ok (record, set_approvals (fun l => l ++ [record]) db).

Definition record_plan_decision (db : Database) (execution_plan_id : Z) (decision : string) (new_id : Z)
    : result integrity_error (ApprovalRecord * Database) :=
  _ ← guard_or (valid_decision decision) (PlanIntegrityError "Approval decision is invalid.");
  plan ← validate_persisted_plan_integrity db execution_plan_id;
  _ ← guard_or (negb (new_plan db plan)) (PlanIntegrityError "intent_w2_execution_closed");
  append_exact_decision db plan decision new_id.
End approval.

(** [db.add(plan)] and [db.flush()] with the plan's actions; [jsonb] is what the JSON
    column gives back for a document. *)
Definition store_plan (jsonb : json -> json) (plan : ExecutionPlan) (actions : list PlanAction)
    (db : Database) : Database :=
  let stored := mkPlan (plan_id plan) (plan_target_id plan) (plan_authorization_revision_id plan)
                  (plan_actor_identity_id plan) (plan_credential_binding_id plan) (digest_version plan)
                  (plan_digest plan) (action_count plan) (jsonb (policy_context plan)) in
  mkDatabase (targets db) (revisions db) (scopes db) (identities db) (resources db) (endpoints db)
    (test_cases db) (bindings db) (<[ plan_id plan := stored ]> (plans db)) (plan_actions db ++ actions)
    (approvals db) (intent_plan_members db).

(** * Lemmas *)

Lemma greatest_id_none l : greatest_id l = None <-> l = [].
Proof. destruct l as [|r l]; cbn; [done|]. by destruct (greatest_id l). Qed.

Lemma greatest_id_some l r : greatest_id l = Some r -> r ∈ l /\ forall s, s ∈ l -> approval_id s <= approval_id r.
Proof.
  revert r. induction l as [|x l IH]; intros r; cbn; [done|].
  destruct (greatest_id l) as [y|] eqn:E.
  - destruct (IH y eq_refl) as [Hy Hmax]. intros [= <-]. case_if; bool_simpl.
    + split; [by right|]. intros s [->|Hs]%elem_of_cons; [lia | by apply Hmax].
    + split; [left|]. intros s [->|Hs]%elem_of_cons; [lia|]. specialize (Hmax s Hs). lia.
  - apply greatest_id_none in E as ->. intros [= ->]. split; [left|].
    intros s [->|Hs]%elem_of_cons; [lia | by apply elem_of_nil in Hs].
Qed.

Lemma greatest_id_last l r : (forall s, s ∈ l -> approval_id s < approval_id r) ->
  greatest_id (l ++ [r]) = Some r.
Proof.
  induction l as [|x l IH]; intros H; cbn; [done|]. rewrite IH by (intros s Hs; apply H; by right).
  by rewrite (proj2 (Z.ltb_lt _ _)) by (apply H; left).
Qed.

Lemma filter_all {A} (P : A -> Prop) `{forall x, Decision (P x)} l : Forall P l -> filter P l = l.
Proof. induction 1 as [|x l Hx _ IH]; [done|]. by rewrite filter_cons_True, IH. Qed.
Lemma filter_nothing {A} (P : A -> Prop) `{forall x, Decision (P x)} l : Forall (fun x => ~ P x) l -> filter P l = [].
Proof. induction 1 as [|x l Hx _ IH]; [done|]. by rewrite filter_cons_False. Qed.

Lemma seqZ_sorted n len l : map ordinal l = seqZ n len -> Sorted (fun a b => ordinal a <= ordinal b) l.
Proof.
  revert n len. induction l as [|a l IH]; intros n len H; [constructor|]. cbn in H.
  destruct (Z.le_gt_cases len 0) as [Hle|Hgt]; [by rewrite seqZ_nil in H by done|].
  rewrite seqZ_cons in H by done. injection H as Ha H. constructor; [by apply IH with (Z.succ n) (Z.pred len)|].
  destruct l as [|b l]; [constructor|]. constructor. cbn in H.
  destruct (Z.le_gt_cases (Z.pred len) 0); [by rewrite seqZ_nil in H by done|].
  rewrite seqZ_cons in H by done. injection H as Hb _. lia.
Qed.

(** The digest sees the context through its canonical text. *)
Lemma digest_context sha256 t r a b c c' l : dumps canonical c = dumps canonical c' ->
  compute_plan_digest_v1 sha256 t r a b c l = compute_plan_digest_v1 sha256 t r a b c' l.
Proof.
  intros H. unfold compute_plan_digest_v1, canonical_json, plan_payload. cbn [dumps fst snd]. by rewrite H.
Qed.

(** ** What an approved plan is *)

(** The document of the digest, recomputed from the persisted rows. *)
Definition persisted_document (db : Database) (p : Z) (plan : ExecutionPlan) : json :=
  plan_payload (plan_target_id plan) (plan_authorization_revision_id plan) (plan_actor_identity_id plan)
    (plan_credential_binding_id plan) (policy_context plan) (map input_of (actions_of p db)).

(** The rows of the plan match each other and the digest. *)
Definition intact_plan (sha256 : string -> string) (db : Database) (p : Z) (plan : ExecutionPlan) : Prop :=
  plans db !! p = Some plan
  /\ map ordinal (actions_of p db) = seqZ 1 (Z.of_nat (length (actions_of p db)))
  /\ action_count plan = Z.of_nat (length (actions_of p db))
  /\ digest_version plan = "v1"
  /\ str_len (plan_digest plan) = 64
  /\ str_forall (fun c => is_digit c || between 97 102 c) (plan_digest plan) = true
  /\ exists text, canonical_json (persisted_document db p plan) = Ok text /\ plan_digest plan = sha256 text.

(** The plan belongs to a research intent: by its context, by its membership or by
    one of its cases. *)
Definition research_plan (db : Database) (plan : ExecutionPlan) : Prop :=
  (exists o v, policy_context plan = JObj o /\ assoc "research_intent" o = Some v)
  \/ (exists case, (plan_id plan, case) ∈ intent_plan_members db)
  \/ (exists a c row, a ∈ take 101 (actions_of (plan_id plan) db) /\ action_test_case_id a = Some c /\
       test_cases db !! c = Some row /\
       (startswith "ra_" (test_type row) = true \/ exists q, (q, test_case_id row) ∈ intent_plan_members db)).

Definition names_plan (plan : ExecutionPlan) (r : ApprovalRecord) : Prop :=
  approval_execution_plan_id r = plan_id plan /\ approval_digest_version r = digest_version plan
  /\ approval_plan_digest r = plan_digest plan.

Lemma validate_intact sha256 db p plan :
  validate_persisted_plan_integrity sha256 db p = Ok plan <-> intact_plan sha256 db p plan.
Proof.
  unfold validate_persisted_plan_integrity, load_plan_snapshot, validate_digest_contract, digest_of,
    compute_plan_digest_v1, is_digest, intact_plan, persisted_document. split.
  - intros H. apply bind_ok in H as ([plan' acts] & H1 & H). apply require_bind_ok in H1 as (q & Hq & H1).
    apply guard_bind_ok in H1 as [Hord [= -> <-]]. rewrite !guard_bind_ok in H. destruct H as (Hc & Hn & H).
    apply bind_ok in H as (d & Hd & H). apply guard_bind_ok in H as [He [= ->]]. bool_simpl.
    do 6 (split; [done|]). destruct (canonical_json _) as [text|]; [|done]. injection Hd as <-. eauto.
  - intros (Hp & Hord & Hn & Hver & Hlen & Hhex & text & Ht & Hd).
    rewrite Hp. cbn. rewrite bool_decide_eq_true_2 by done. cbn.
    rewrite Hver, Hlen, Hhex, Hn, Z.eqb_refl. cbn. rewrite Ht. cbn. by rewrite Hd, bool_decide_eq_true_2 by done.
Qed.

Lemma existsb_elem {A} (f : A -> bool) l : existsb f l = true <-> exists x, x ∈ l /\ f x = true.
Proof. rewrite existsb_exists. by setoid_rewrite <- list_elem_of_In. Qed.

Lemma new_case_research db row : new_case db (Some row) = true <->
  startswith "ra_" (test_type row) = true \/ exists q, (q, test_case_id row) ∈ intent_plan_members db.
Proof.
  unfold new_case. rewrite orb_true_iff, existsb_elem. apply or_iff_compat_l. split.
  - intros ([q c] & Hin & Hc%Z.eqb_eq). cbn in Hc. subst c. eauto.
  - intros [q Hq]. eexists. split; [exact Hq | apply Z.eqb_refl].
Qed.

Lemma new_plan_research db plan : new_plan db plan = true <-> research_plan db plan.
Proof.
  unfold new_plan, research_plan. rewrite !orb_true_iff, !existsb_elem, Logic.or_assoc. f_equiv; [|f_equiv].
  - unfold has_key. split.
    + destruct (policy_context plan) as [| | | | | |o]; try done.
      destruct (assoc _ o) as [v|] eqn:E; [|done]. eauto.
    + intros (o & v & -> & ->). done.
  - split; [intros ([p c] & Hin & Hp); bool_simpl; cbn in *; subst; eauto|].
    intros [c Hc]. eexists. split; [exact Hc | apply Z.eqb_refl].
  - split.
    + intros (a & Hin & H). destruct (action_test_case_id a) as [c|] eqn:Ea; [|done]. cbn in H.
      destruct (test_cases db !! c) as [row|] eqn:Ec; [|done]. apply new_case_research in H. eauto 10.
    + intros (a & c & row & Hin & Ha & Hc & H%new_case_research). exists a. split; [done|].
      rewrite Ha. cbn. by rewrite Hc.
Qed.

Lemma exact_record_names plan r : exact_record plan r = true <-> names_plan plan r.
Proof.
  unfold exact_record, names_plan. rewrite !andb_true_iff, !bool_decide_eq_true, Z.eqb_eq. tauto.
Qed.

Lemma latest_exact_some db plan r : latest_exact_decision db plan = Some r ->
  r ∈ approvals db /\ names_plan plan r
  /\ forall s, s ∈ approvals db -> names_plan plan s -> approval_id s <= approval_id r.
Proof.
  intros [[Hx%exact_record_names Hr]%list_elem_of_filter Hmax]%greatest_id_some. split; [done|].
  split; [done|]. intros s Hs Hn%exact_record_names. apply Hmax. by apply list_elem_of_filter.
Qed.

Lemma latest_exact_none db plan r : latest_exact_decision db plan = None -> r ∈ approvals db ->
  ~ names_plan plan r.
Proof.
  intros E%greatest_id_none Hr Hn%exact_record_names.
  assert (H : r ∈ filter (fun r => exact_record plan r = true) (approvals db)) by by apply list_elem_of_filter.
  rewrite E in H. by apply elem_of_nil in H.
Qed.

Lemma approval_unique l r r' : NoDup (map approval_id l) -> r ∈ l -> r' ∈ l ->
  approval_id r = approval_id r' -> r = r'.
Proof.
  intros Hids [i Hi]%list_elem_of_lookup [j Hj]%list_elem_of_lookup Hid. assert (i = j) as <-; [|congruence].
  apply (NoDup_lookup _ _ _ (approval_id r) Hids); rewrite list_lookup_fmap; [by rewrite Hi|].
  by rewrite Hj, Hid.
Qed.

Lemma approval_errors sha256 db p e : is_plan_approved sha256 db p = Raise e ->
  exists plan error, e = EncodingError error /\ plans db !! p = Some plan /\
    canonical_json (persisted_document db p plan) = Raise error.
Proof.
  unfold is_plan_approved. destruct (validate_persisted_plan_integrity sha256 db p) as [plan|[m|x]] eqn:Hv;
    [by case_match | done |]. intros [= <-]. revert Hv.
  unfold validate_persisted_plan_integrity, load_plan_snapshot, validate_digest_contract, digest_of,
    compute_plan_digest_v1. destruct (plans db !! p) as [plan|]; [|done]. cbn.
  destruct (bool_decide _); [|done]. cbn. destruct (_ && _); [|done]. cbn. destruct (_ =? _); [|done]. cbn.
  unfold persisted_document. destruct (canonical_json _) as [text|y] eqn:Et; cbn; [by destruct (bool_decide _)|].
  intros [= <-]. eauto.
Qed.

(** * Properties *)

(** C11: a plan counts as approved exactly when (1) its row exists, its actions have
    the ordinals 1..n and their number is the one of the row; (2) the row has the
    digest version v1 and its digest is 64 hexadecimal digits that equal the SHA-256
    of the canonical text of the document recomputed from the persisted Target,
    revision, actor, binding, context and actions; (3) it is no research plan; and
    (4) among the decisions recorded for exactly this plan, version and digest the
    one with the greatest id is an approval. So a changed plan or a later revocation
    is not approved: the answer is then no, or the error of an encoder that cannot
    write the persisted context. *)
Theorem approval_exact sha256 db p (Hids : NoDup (map approval_id (approvals db))) :
  (is_plan_approved sha256 db p = Ok true <->
   exists plan r, intact_plan sha256 db p plan /\ ~ research_plan db plan /\
    r ∈ approvals db /\ names_plan plan r /\ approval_decision r = "approved" /\
    forall s, s ∈ approvals db -> names_plan plan s -> approval_id s <= approval_id r)
  /\ (forall e, is_plan_approved sha256 db p = Raise e -> exists plan error, e = EncodingError error /\
      plans db !! p = Some plan /\ canonical_json (persisted_document db p plan) = Raise error).
Proof.
  split; [|apply approval_errors]. unfold is_plan_approved.
  destruct (validate_persisted_plan_integrity sha256 db p) as [plan|e] eqn:Hv.
  2: { split; [by destruct e|]. intros (plan & ? & H%validate_intact & _). congruence. }
  assert (Huniq : forall plan', intact_plan sha256 db p plan' -> plan' = plan)
    by (intros ? H%validate_intact; congruence).
  apply validate_intact in Hv. pose proof (new_plan_research db plan) as Hres.
  destruct (new_plan db plan) eqn:Hn.
  { split; [done|]. intros (? & ? & ->%Huniq & [] & _). by apply Hres. }
  destruct (latest_exact_decision db plan) as [r|] eqn:E.
  - apply latest_exact_some in E as (Hr & Hx & Hmax). split.
    + intros [= Hd]. bool_simpl. exists plan, r. split; [done|]. split; [by intros ?%Hres|]. done.
    + intros (? & r' & ->%Huniq & _ & Hr' & Hx' & Hd & Hmax').
      rewrite (approval_unique (approvals db) r r'); [by rewrite Hd | done | done | done|].
      apply Z.le_antisymm; [by apply Hmax' | by apply Hmax].
  - split; [done|]. intros (? & r & ->%Huniq & _ & Hr & Hx & _).
    by destruct (latest_exact_none _ _ r E Hr).
Qed.

(** recording a decision is effective at once: after an approval the plan is
    approved, after a revocation it is not, whatever was recorded before. *)
Theorem decision_effective sha256 db p decision i r db'
    (Hfresh : forall s, s ∈ approvals db -> approval_id s < i)
    (H : record_plan_decision sha256 db p decision i = Ok (r, db')) :
  is_plan_approved sha256 db' p = Ok (bool_decide (decision = "approved")).
Proof.
  unfold record_plan_decision in H. apply guard_bind_ok in H as [_ H].
  apply bind_ok in H as (plan & Hv & H). apply guard_bind_ok in H as [Hn H].
  unfold append_exact_decision in H. apply guard_bind_ok in H as [_ [= <- <-]]. bool_simpl.
  unfold is_plan_approved.
  change (validate_persisted_plan_integrity sha256 (set_approvals _ db) p)
    with (validate_persisted_plan_integrity sha256 db p). rewrite Hv.
  change (new_plan (set_approvals _ db) plan) with (new_plan db plan). rewrite Hn.
  unfold latest_exact_decision. cbn [approvals set_approvals]. rewrite filter_app.
  rewrite filter_cons_True, filter_nil; [|unfold exact_record; cbn; by rewrite Z.eqb_refl, !bool_decide_eq_true_2 by done].
  rewrite greatest_id_last; [done|]. intros s Hs. rewrite list_elem_of_filter in Hs. by apply Hfresh, Hs.
Qed.

(** C13: what the creator writes is what the executor accepts: a created plan, stored and
    read back through a JSON column that preserves the canonical text of its context,
    passes the integrity validation. *)
Theorem created_plan_validates sha256 json_loads jsonb db t r a b actions context pid aid plan acts
    (Hdigest : forall text, is_digest (sha256 text) = true)
    (Hjsonb : dumps canonical (jsonb (policy_context plan)) = dumps canonical (policy_context plan))
    (Hfresh : Forall (fun x => action_execution_plan_id x <> pid) (plan_actions db))
    (H : create_execution_plan sha256 json_loads db t r a b actions context pid aid = Ok (plan, acts)) :
  exists stored, validate_persisted_plan_integrity sha256 (store_plan jsonb plan acts db) pid = Ok stored /\
    plan_id stored = pid /\ plan_digest stored = plan_digest plan.
Proof.
  unfold create_execution_plan, create_execution_plan_ in H.
  apply guard_bind_ok in H as [_ H]. apply guard_bind_ok in H as [_ H]. apply guard_bind_ok in H as [_ H].
  apply bind_ok in H as ([[target revision] actor] & _ & H). apply bind_ok in H as (origin & _ & H).
  apply bind_ok in H as (us & _ & H). apply bind_ok in H as (frozen & _ & H).
  apply bind_ok in H as (d & Hd & [= <- <-]). cbn [policy_context] in Hjsonb.
  destruct (enumerate_new pid aid 1 actions) as (E1 & E2 & E3).
  set (acts := enumerate (new_action pid aid) 1 actions) in *.
  assert (Hacts : forall p, actions_of pid (store_plan jsonb p acts db) = acts).
  { intros p. unfold actions_of. cbn [plan_actions store_plan].
    rewrite filter_app, filter_nothing, filter_all by done. by eapply sort_actions_sorted, seqZ_sorted. }
  assert (Hlen : length acts = length actions) by by rewrite <- E1, length_map.
  eexists. unfold validate_persisted_plan_integrity, load_plan_snapshot.
  cbn [plans store_plan plan_id]. rewrite lookup_insert_eq. cbn [require mbind result_bind].
  rewrite Hacts, bool_decide_eq_true_2 by by rewrite Hlen. cbn [guard_or mbind result_bind].
  unfold validate_digest_contract. cbn [digest_version plan_digest action_count].
  assert (Hdd : is_digest d = true).
  { unfold compute_plan_digest_v1 in Hd. apply bind_ok in Hd as (text & _ & [= <-]). apply Hdigest. }
  rewrite Hdd, bool_decide_eq_true_2, Hlen, Z.eqb_refl by done. cbn [andb guard_or mbind result_bind].
  unfold digest_of. cbn. rewrite E1, (digest_context _ _ _ _ _ _ _ _ Hjsonb), Hd. cbn.
  rewrite bool_decide_eq_true_2 by done. done.
Qed.

(** * Witnesses *)

Definition lab_sha (text : string) : string := zeros 64.
Definition lab_plan : ExecutionPlan := mkPlan 61 1 11 22 (Some 81) "v1" (zeros 64) 1 (JObj []).
Definition lab_acts : list PlanAction :=
  [mkAction 71 61 1 "GET" "http://localhost:8000/api/orders/42" (Some 51) (Some 31)].
Definition lab_planned : Database := store_plan (fun j => j) lab_plan lab_acts lab_db.
Definition lab_approved : Database :=
  set_approvals (fun _ => [mkApproval 1 61 "v1" (zeros 64) "revoked"; mkApproval 2 61 "v1" (zeros 64) "approved"])
    lab_planned.

Lemma created_plan_validates_witness :
  create_execution_plan lab_sha lab_loads lab_db 1 11 22 (Some 81) [lab_action] None 61 70 = Ok (lab_plan, lab_acts)
  /\ exists stored, validate_persisted_plan_integrity lab_sha lab_planned 61 = Ok stored /\
    plan_id stored = 61 /\ plan_digest stored = zeros 64.
Proof.
  assert (H : create_execution_plan lab_sha lab_loads lab_db 1 11 22 (Some 81) [lab_action] None 61 70
              = Ok (lab_plan, lab_acts)) by (vm_compute; reflexivity).
  split; [exact H|].
  apply (created_plan_validates lab_sha lab_loads (fun j => j) lab_db 1 11 22 (Some 81) [lab_action] None 61 70
    lab_plan lab_acts); [reflexivity | reflexivity | constructor | exact H].
Defined.

Lemma approval_exact_witness : exists plan r,
  intact_plan lab_sha lab_approved 61 plan /\ r ∈ approvals lab_approved /\
  names_plan plan r /\ approval_decision r = "approved".
Proof.
  assert (H : NoDup (map approval_id (approvals lab_approved))) by (apply (bool_decide_unpack _); vm_compute; done).
  destruct (proj1 (proj1 (approval_exact lab_sha lab_approved 61 H)) ltac:(vm_compute; done))
    as (plan & r & H1 & _ & H2 & H3 & H4 & _).
  by exists plan, r.
Defined.

Lemma decision_effective_witness : exists r db',
  record_plan_decision lab_sha lab_approved 61 "revoked" 3 = Ok (r, db') /\
  is_plan_approved lab_sha db' 61 = Ok false.
Proof.
  eexists _, _. split; [vm_compute; reflexivity|].
  apply (decision_effective lab_sha lab_approved 61 "revoked" 3 (mkApproval 3 61 "v1" (zeros 64) "revoked")).
  - intros s Hs. apply list_elem_of_In in Hs. cbn in Hs. by destruct Hs as [<-|[<-|[]]].
  - vm_compute. reflexivity.
Defined.
