(* ===== verification/SafetyAudit.v ===== *)
(** The append-only safety audit, src/backend/app/services/safety_audit.py: the records
    that the services write, and the table that takes them,
    src/backend/app/db/models/safety_decision_record.py. *)

From S2P Require Import Prelude.
From S2P Require Import PyStr.
From S2P Require Import PyFloat.
From S2P Require Import PyIp.
From S2P Require Import PyUrl.
From S2P Require Import PyJson.
From S2P Require Import Models.
From S2P Require Import Samples.
From S2P Require Import ScopePolicy.
From S2P Require Import Database.

Open Scope Z_scope.

(** The [ValueError]s of the service. *)
Inductive audit_error : Type := AuditValueError (message : string).

(** [append_plan_created]; the actions are the rows of the plan. *)
Definition append_plan_created (plan : ExecutionPlan) (actions : list PlanAction) (test_case : Z)
    : SafetyDecisionRecord :=
  let action := match actions with [a] => Some (action_id a) | _ => None end in
  mkSafetyRecord "plan" "testcase_plan" "created" (plan_target_id plan)
    (Some (plan_authorization_revision_id plan)) (Some (plan_id plan)) action (Some test_case) None None None
    None None.

Definition POLICY_OPERATIONS : list string := ["policy_check"; "test_execution"; "openapi_import"].

Definition append_policy_decision (operation : string) (target : Z) (d : PolicyDecision)
    (test_case plan action : option Z) : result audit_error SafetyDecisionRecord :=
  _ ← guard_or (bool_decide (operation ∈ POLICY_OPERATIONS))
        (AuditValueError "unsupported policy audit operation");
  Ok (mkSafetyRecord "policy" operation (if allowed d then "allowed" else "blocked") target
        (decision_revision_id d) plan action test_case None (Some (code d)) (Some (reason d))
        (matched_scope_id d) (Some (evaluated_at d))).

Definition EXECUTION_OUTCOMES : list string := ["blocked"; "succeeded"; "failed"].

Definition append_execution_outcome (outcome : string) (target : Z) (revision : option Z) (test_case : Z)
    (plan action run : option Z) (code reason : option string) : result audit_error SafetyDecisionRecord :=
  _ ← guard_or (bool_decide (outcome ∈ EXECUTION_OUTCOMES))
        (AuditValueError "unsupported execution audit outcome");
  Ok (mkSafetyRecord "execution" "test_execution" outcome target revision plan action (Some test_case) run
        code reason None None).

(** * The table *)

(** [DataError] and [IntegrityError] of the flush. *)
Inductive append_error : Type := AuditDataError | AuditIntegrityError.

(** A [String(n)] column takes at most [n] characters, none of them NUL. *)
Definition text_fits (n : Z) (s : string) : bool := (str_len s <=? n) && negb (contains_char (chr 0) s).
Definition optional_fits (n : Z) (s : option string) : bool :=
  match s with Some s => text_fits n s | None => true end.
Definition columns_fit (r : SafetyDecisionRecord) : bool :=
  text_fits 20 (stage r) && text_fits 40 (operation r) && text_fits 20 (outcome r)
  && optional_fits 100 (record_code r) && optional_fits 500 (record_reason r).

(** The CHECK constraints. *)
Definition record_valid (r : SafetyDecisionRecord) : bool :=
  bool_decide (stage r ∈ ["plan"; "policy"; "execution"]) && ck_safety_operation r
  && bool_decide (outcome r ∈ ["created"; "allowed"; "blocked"; "succeeded"; "failed"])
  && ck_safety_stage_outcome r && ck_safety_plan_identified r.

(** The foreign keys; [runs] are the rows of [test_runs]. *)
Definition optional_row {A} (rows : gmap Z A) (k : option Z) : bool :=
  match k with Some k => negb (is_none (rows !! k)) | None => true end.
Definition references_exist (db : Database) (runs : gmap Z TestRun) (r : SafetyDecisionRecord) : bool :=
  negb (is_none (targets db !! record_target_id r))
  && optional_row (revisions db) (record_authorization_revision_id r)
  && optional_row (plans db) (record_execution_plan_id r)
  && match record_plan_action_id r with
     | Some a => existsb (fun x => action_id x =? a) (plan_actions db)
     | None => true
     end
  && optional_row (test_cases db) (record_test_case_id r)
  && optional_row runs (record_test_run_id r).

(** [db.add(record)] and [db.flush()]: values are stored in their columns, then checked, and
    the statement ends with the foreign keys. *)
Definition insert_record (db : Database) (runs : gmap Z TestRun) (r : SafetyDecisionRecord) : result append_error unit :=
  _ ← guard_or (columns_fit r) AuditDataError;
  _ ← guard_or (record_valid r) AuditIntegrityError;
  guard_or (references_exist db runs r) AuditIntegrityError.

(** * Lemmas *)

(** The rows that a record names are there. *)
Record names_rows (db : Database) (runs : gmap Z TestRun) (r : SafetyDecisionRecord) : Prop := {
  names_target : is_Some (targets db !! record_target_id r);
  names_revision : forall i, record_authorization_revision_id r = Some i -> is_Some (revisions db !! i);
  names_plan : forall i, record_execution_plan_id r = Some i -> is_Some (plans db !! i);
  names_action : forall i, record_plan_action_id r = Some i -> exists a, a ∈ plan_actions db /\ action_id a = i;
  names_case : forall i, record_test_case_id r = Some i -> is_Some (test_cases db !! i);
  names_run : forall i, record_test_run_id r = Some i -> is_Some (runs !! i)
}.

(** A text of a decision, which its column takes. *)
Definition short_text (n : Z) (s : string) : Prop := str_len s <= n /\ contains_char (chr 0) s = false.
Definition texts_fit (r : SafetyDecisionRecord) : Prop :=
  (forall s, record_code r = Some s -> short_text 100 s) /\ (forall s, record_reason r = Some s -> short_text 500 s).

Lemma text_fits_spec n s : text_fits n s = true <-> short_text n s.
Proof. unfold text_fits, short_text. by rewrite andb_true_iff, Z.leb_le, negb_true_iff. Qed.

Lemma optional_fits_spec n o : optional_fits n o = true <-> forall s, o = Some s -> short_text n s.
Proof.
  destruct o as [s|]; cbn; [|by split]. rewrite text_fits_spec. split; [by intros ? ? [= <-] | intros H; by apply H].
Qed.

Lemma optional_row_spec {A} (rows : gmap Z A) o : optional_row rows o = true <-> forall i, o = Some i -> is_Some (rows !! i).
Proof.
  destruct o as [i|]; cbn; [|by split]. split.
  - intros H j [= <-]. destruct (rows !! i); [by eexists | done].
  - intros H. destruct (H i eq_refl) as [x ->]. done.
Qed.

Lemma references_exist_spec db runs r : references_exist db runs r = true <-> names_rows db runs r.
Proof.
  unfold references_exist. rewrite !andb_true_iff, !optional_row_spec.
  assert (Ht : negb (is_none (targets db !! record_target_id r)) = true <-> is_Some (targets db !! record_target_id r)).
  { destruct (targets db !! _); cbn; by split; try done; intros [? ?]. }
  assert (Ha : match record_plan_action_id r with
      | Some a => existsb (fun x => action_id x =? a) (plan_actions db) | None => true end = true
    <-> forall i, record_plan_action_id r = Some i -> exists a, a ∈ plan_actions db /\ action_id a = i).
  { destruct (record_plan_action_id r) as [i|]; [|by split]. rewrite existsb_exists. setoid_rewrite Z.eqb_eq. split.
    - intros (x & Hx & E) j [= <-]. exists x. by rewrite list_elem_of_In.
    - intros H. destruct (H i eq_refl) as (x & Hx & E). exists x. by rewrite <- list_elem_of_In. }
  rewrite Ht, Ha. split; [intros [[[[[? ?] ?] ?] ?] ?]; by constructor | by intros []].
Qed.

(** A record with the stage, operation and outcome of its service is refused only for a text
    that its column does not take, or for a row that is not there. *)
Lemma insert_answers db runs r : record_valid r = true ->
  short_text 20 (stage r) -> short_text 40 (operation r) -> short_text 20 (outcome r) ->
  (insert_record db runs r = Ok tt <-> texts_fit r /\ names_rows db runs r)
  /\ (insert_record db runs r = Raise AuditDataError <-> ~ texts_fit r).
Proof.
  intros Hv H1%text_fits_spec H2%text_fits_spec H3%text_fits_spec. unfold insert_record, columns_fit, texts_fit.
  rewrite H1, H2, H3, Hv, <- references_exist_spec, <- !optional_fits_spec. cbn [andb].
  destruct (optional_fits 100 _), (optional_fits 500 _), (references_exist db runs r); cbn; naive_solver.
Qed.

(** The texts of the policy: constants, but for the host and the method of two denials. *)
Definition open_denials : list string := ["host_not_in_platform_allowlist"; "unsupported_http_method"].

Lemma repr_char_nul q c : q = squote \/ q = dquote -> contains_char (chr 0) (repr_char q c) = false.
Proof. intros [-> | ->]; destruct c as [[] [] [] [] [] [] [] []]; vm_compute; reflexivity. Qed.

Lemma repr_nul s : contains_char (chr 0) (repr s) = false.
Proof.
  unfold repr. set (q := if contains_char squote s && negb (contains_char dquote s) then dquote else squote).
  assert (Hq : q = squote \/ q = dquote) by (unfold q; case_if; auto). clearbody q.
  assert (Hb : contains_char (chr 0) (repr_body q s) = false).
  { induction s as [|c s IH]; [done|]. cbn [repr_body]. by rewrite contains_char_app, repr_char_nul, IH. }
  change (String q (repr_body q s +:+ str1 q)) with (str1 q +:+ (repr_body q s +:+ str1 q)).
  rewrite !contains_char_app, Hb. by destruct Hq as [-> | ->].
Qed.

(** The message of a refusal fits. *)
Definition fitting_error {A} (m : policy_result A) : Prop :=
  match m with Raise (PolicyValidationError e) => short_text 500 e | _ => True end.
Lemma hostname_message_fits h : fitting_error (normalize_hostname h).
Proof. unfold normalize_hostname. case_if; [by split|]. by destruct (parse_ip _). Qed.
Lemma origin_message_fits u : fitting_error (parse_origin u).
Proof.
  unfold parse_origin. destruct (urlsplit u) as [p|]; [|by split]. case_if; [by split|]. case_if; [by split|].
  destruct (hostname p) as [h|]; [|by split]. case_if; [by split|]. destruct (port p) as [x|]; [|by split].
  cbv zeta. pose proof (hostname_message_fits h) as H. by destruct (normalize_hostname h).
Qed.
Lemma path_message_fits u : fitting_error (normalize_request_path u).
Proof.
  unfold normalize_request_path. destruct (urlsplit u) as [p|]; [|done]. cbv zeta. repeat (case_if; [by split|]). done.
Qed.

(** What a denial says. *)
Definition denial_fits (d : string * string) : Prop :=
  short_text 100 d.1 /\ contains_char (chr 0) d.2 = false /\ (str_len d.2 <= 500 \/ d.1 ∈ open_denials).
Lemma constant_denial c r : text_fits 100 c && text_fits 500 r = true -> denial_fits (c, r).
Proof. intros [Hc%text_fits_spec [Hr Hn]%text_fits_spec]%andb_true_iff. split; [done|]. split; [done | by left]. Qed.

Lemma deny_invalid_fits {A} (m : policy_result A) c d : text_fits 100 c = true -> fitting_error m ->
  deny_invalid m c = Raise (inr d) -> denial_fits d.
Proof.
  intros Hc%text_fits_spec Hm. destruct m as [|[e|e]]; cbn; try done. intros [= <-]. destruct Hm. split; [done|].
  split; [done | by left].
Qed.

Lemma authorization_gate_fits target revision t d : authorization_gate target revision t = Raise d -> denial_fits d.
Proof.
  unfold authorization_gate, require, guard_or. intros H.
  repeat (case_match; cbn [mbind result_bind] in H; try (injection H as <-; by apply constant_denial)); done.
Qed.

Lemma bind_raise {E A B} (m : result E A) (f : A -> result E B) e : (m ≫= f) = Raise e ->
  m = Raise e \/ exists a, m = Ok a /\ f a = Raise e.
Proof. destruct m as [a|x]; cbn; [right; eauto | intros [= ->]; by left]. Qed.
Lemma guard_raise b d x : lift_denial (guard_or b d) = Raise (inr x) -> b = false /\ x = d.
Proof. destruct b; cbn; [done|]. by intros [= ->]. Qed.

Lemma request_gate_fits hosts target r url method d : request_gate hosts target r url method = Raise (inr d) -> denial_fits d.
Proof.
  unfold request_gate.
  intros [H|(o & _ & H)]%bind_raise; [eapply deny_invalid_fits; [| apply origin_message_fits | exact H]; done|].
  apply bind_raise in H as [[_ ->]%guard_raise|([] & _ & H)].
  { split; [by apply text_fits_spec|]. cbn [snd fst]. split; [by rewrite !contains_char_app, repr_nul|]. right. left. }
  apply bind_raise in H as [H|(t & _ & H)]; [eapply deny_invalid_fits; [| apply origin_message_fits | exact H]; done|].
  apply bind_raise in H as [[_ ->]%guard_raise|([] & _ & H)]; [by apply constant_denial|]. cbv zeta in H.
  apply bind_raise in H as [[_ ->]%guard_raise|([] & Hm & H)].
  { split; [by apply text_fits_spec|]. cbn [snd fst]. split; [by rewrite !contains_char_app, repr_nul|]. right. right. left. }
  apply bind_raise in H as [[_ ->]%guard_raise|([] & _ & H)].
  { apply lift_guard_ok in Hm. bool_simpl. revert Hm. generalize (upper (strip method)). intros m Hm.
    unfold MVP_HTTP_METHODS in Hm. rewrite !elem_of_cons, elem_of_nil in Hm.
    destruct Hm as [->|[->|[->|[->|[]]]]]; apply constant_denial; vm_compute; reflexivity. }
  apply bind_raise in H as [H|(p & _ & H)]; [|done].
  eapply deny_invalid_fits; [| apply path_message_fits | exact H]. done.
Qed.

(** A decision of the engine. *)
Lemma evaluate_fits hosts target revision scopes url method et now d :
  evaluate hosts target revision scopes url method et now = Ok d ->
  short_text 100 (code d) /\ contains_char (chr 0) (reason d) = false
  /\ (str_len (reason d) <= 500 \/ allowed d = false /\ code d ∈ open_denials).
Proof.
  unfold evaluate. destruct (match et with Some t => t | None => Aware now end) as [t|t]; [done|]. cbv zeta.
  destruct (_ ≫= _) as [[[o m] p]|[e|[c r]]] eqn:E; [|done|].
  - destruct (find_first _ scopes); intros [= <-]; (split; [by split|]; split; [done | left; vm_compute; done]).
  - intros [= <-]. cbn [code reason allowed]. assert (Hd : denial_fits (c, r)).
    { apply bind_raise in E as [E|(x & _ & E)]; [|by eapply request_gate_fits].
      destruct (authorization_gate target revision t) as [|y] eqn:Ea; [done|]. injection E as ->.
      by eapply authorization_gate_fits. }
    destruct Hd as (H1 & H2 & H3). split; [done|]. split; [done|]. destruct H3; [by left | by right].
Qed.

(** * Properties *)

(** C40: The table refuses a record of the service for two reasons only: a code of more than
    100 or a reason of more than 500 characters (or with a NUL), which is a DataError, or a
    Target, revision, plan, action, case or run that is not there; its stage, operation and
    outcome never are a reason. So the creation of a plan is recorded whenever its rows are
    there. A policy record says allowed exactly for an allowed decision and an execution
    record has the outcome that was given. A decision of the policy engine always has a code
    that fits, and a reason that fits unless it denies a host that is not on the platform's
    list or an unsupported method, whose text it repeats: an allowed decision is always
    recorded, for existing rows. *)
Theorem audit_records_valid db runs :
  (forall plan actions c, let r := append_plan_created plan actions c in
     (insert_record db runs r = Ok tt <-> names_rows db runs r) /\ outcome r = "created"
     /\ record_execution_plan_id r = Some (plan_id plan) /\ record_test_case_id r = Some c) /\
  (forall operation target d tc p a,
     match append_policy_decision operation target d tc p a with
     | Ok r => (insert_record db runs r = Ok tt <->
                 short_text 100 (code d) /\ short_text 500 (reason d) /\ names_rows db runs r)
         /\ (insert_record db runs r = Raise AuditDataError <-> ~ (short_text 100 (code d) /\ short_text 500 (reason d)))
         /\ (outcome r = "allowed" <-> allowed d = true)
     | Raise _ => operation ∉ ["policy_check"; "test_execution"; "openapi_import"]
     end) /\
  (forall out target revision c p a run co re,
     match append_execution_outcome out target revision c p a run co re with
     | Ok r => (insert_record db runs r = Ok tt <-> texts_fit r /\ names_rows db runs r)
         /\ (insert_record db runs r = Raise AuditDataError <-> ~ texts_fit r)
         /\ outcome r = out /\ record_code r = co /\ record_reason r = re
     | Raise _ => out ∉ ["blocked"; "succeeded"; "failed"]
     end) /\
  (forall hosts target revision scopes url method et now d,
     evaluate hosts target revision scopes url method et now = Ok d ->
     short_text 100 (code d) /\
     (short_text 500 (reason d) \/
      allowed d = false /\ code d ∈ ["host_not_in_platform_allowlist"; "unsupported_http_method"])).
Proof.
  split; [|split; [|split]].
  - intros plan actions c r. destruct (insert_answers db runs r) as [H _]; [done | by split.. |].
    split; [|done]. rewrite H. split; [by intros [_ ?]|]. intros Hn. split; [|done]. by split.
  - intros operation target d tc p a. unfold append_policy_decision, guard_or.
    case_bool_decide as Ho; cbn [mbind result_bind]; [|done]. set (r := mkSafetyRecord _ _ _ _ _ _ _ _ _ _ _ _ _).
    assert (Hop : operation = "policy_check" \/ operation = "test_execution" \/ operation = "openapi_import")
      by (unfold POLICY_OPERATIONS in Ho; rewrite !elem_of_cons, elem_of_nil in Ho; tauto).
    assert (Ht : texts_fit r <-> short_text 100 (code d) /\ short_text 500 (reason d)).
    { unfold texts_fit, r. cbn [record_code record_reason]. split; [by intros [H1 H2]; split; [apply H1 | apply H2]|].
      intros [H1 H2]. split; by intros s [= <-]. }
    destruct (insert_answers db runs r) as [H1 H2];
      [destruct Hop as [-> | [-> | ->]]; unfold r; by destruct (allowed d) | by split
      | destruct Hop as [-> | [-> | ->]]; by split | unfold r; by destruct (allowed d); split |].
    rewrite H1, H2, Ht. split; [tauto|]. split; [done|]. unfold r. cbn [outcome]. by destruct (allowed d).
  - intros out target revision c p a run co re. unfold append_execution_outcome, guard_or.
    case_bool_decide as Ho; cbn [mbind result_bind]; [|done]. set (r := mkSafetyRecord _ _ _ _ _ _ _ _ _ _ _ _ _).
    unfold EXECUTION_OUTCOMES in Ho. rewrite !elem_of_cons, elem_of_nil in Ho.
    destruct (insert_answers db runs r) as [H1 H2]; [destruct Ho as [E|[E|[E|[]]]]; subst out; done | by split | by split
      | destruct Ho as [E|[E|[E|[]]]]; subst out; by split |]. done.
  - intros hosts target revision scopes url method et now d H%evaluate_fits. destruct H as (H1 & H2 & [H3|H3]);
      (split; [done|]); [left; by split | by right].
Qed.

(** * Examples *)

(** A host of more than 500 characters is denied, and the denial cannot be recorded. *)
Definition long_host_url : string := "http://" +:+ String.concat "" (repeat "aaaaaaaaaa" 60) +:+ ".example/openapi.json".

Lemma long_host_unrecorded : exists d r,
  evaluate ["localhost"] lab_target (Some lab_revision) [] long_host_url "GET" (Some (Aware 2000)) 2000 = Ok d
  /\ allowed d = false /\ append_policy_decision "openapi_import" 1 d None None None = Ok r
  /\ insert_record lab_db ∅ r = Raise AuditDataError.
Proof.
  eexists _, _. split; [vm_compute; reflexivity|]. split; [reflexivity|]. split; [vm_compute; reflexivity|].
  vm_compute. reflexivity.
Qed.

(** An allowed decision about the lab's Target is recorded. *)
Lemma audit_records_valid_witness : exists d r,
  evaluate ["localhost"] lab_target (Some lab_revision) [lab_scope] "http://localhost:8000/api/orders/42" "GET"
    (Some (Aware 2000)) 2000 = Ok d
  /\ append_policy_decision "test_execution" 1 d None None None = Ok r
  /\ insert_record lab_db ∅ r = Ok tt /\ outcome r = "allowed" /\ short_text 100 (code d).
Proof.
  destruct (audit_records_valid lab_db ∅) as (_ & Hpolicy & _ & Hevaluate).
  destruct (evaluate ["localhost"] lab_target (Some lab_revision) [lab_scope] "http://localhost:8000/api/orders/42" "GET"
    (Some (Aware 2000)) 2000) as [d|e] eqn:E; [|vm_compute in E; discriminate E].
  destruct (Hevaluate _ _ _ _ _ _ _ _ _ E) as [Hc _].
  specialize (Hpolicy "test_execution" 1 d None None None).
  destruct (append_policy_decision "test_execution" 1 d None None None) as [r|] eqn:Er;
    [|vm_compute in Er; discriminate Er].
  destruct Hpolicy as (Hi & _ & Ho). exists d, r. vm_compute in E. injection E as <-.
  split; [reflexivity|]. split; [exact Er|]. vm_compute in Er. injection Er as <-.
  split; [|split; [reflexivity | exact Hc]]. apply Hi. split; [exact Hc|]. split; [split; vm_compute; [discriminate | reflexivity]|].
  split; cbn; try (intros i [= <-]); vm_compute; eauto; try discriminate.
Defined.
