(* ===== verification/Effects.v ===== *)
(** Programs that call their environment (the database, the clock, the network) and may
    raise.

    A body of Python code is a [prog]: a tree of calls, each answered by the environment
    with a value or an exception.  Local variables that a closure changes are threaded as
    a state ([M]).  [run] executes a program against an environment that may answer
    anything, depending on all that happened before; [verified] is a weakest
    precondition over every environment, for a monitor that watches the calls. *)

From S2P Require Import Prelude.

(** The calls of a program and what each returns. *)
Class Interface (call : Type) := answer : call -> Type.

(** * Exceptions

    The exception classes that the services raise or catch, as one type.
    [OtherException] is any other [Exception]; [Interrupt] is a [BaseException] that no
    [except Exception] catches. *)
Inductive exn : Type :=
| TestExecutionError (message : string)
| TestExecutionNotFoundError (message : string)
| PlanExecutionError (message : string)
| PlanExecutionNotFoundError (message : string)
| CanonicalResultLookupError
| ExecutionBlockedError (code reason : string)
| HTTPExecutionError (message : string)
| GatewayFailure (code reason : string)
| RateLimitConfigurationError
| RateLimitCoordinationError
| ExecutionClaimUnavailableError
| ExecutionClaimLostError
| ExecutionClaimCoordinationError
| ExecutionInDoubtError
| ExecutionProgressLostError
| ExecutionProgressCancelledError
| ExecutionProgressCoordinationError
| ExecutionPlanCancellationCoordinationError
| PlanIntegrityFailure (message : string)
| AuthenticationFailure (message : string)
| BearerCredentialError (message : string)
| IntegrityViolation (sqlstate constraint_name : option string)
| OpenAPIScanError (message : string)
| OpenAPIParseError (code : string)
| OpenAPIAuditError (message : string)
| OpenAPIExecutionBlocked (code reason : string)
| OpenAPIPolicyDenied (code reason : string)
| OpenAPICredentialError (message : string)
| HTTPException (status_code : Z) (code : option string) (detail : string)
| AssertionFailure
| OtherException
| Interrupt.

(** What [except Exception] catches. *)
Definition is_exception (e : exn) : bool := match e with Interrupt => false | _ => true end.

(** * Programs *)

Section programs.
Context {call : Type} {Icall : Interface call}.

Inductive prog (A : Type) : Type :=
| Ret (a : A)
| Do (c : call) (k : result exn (answer c) -> prog A).
Arguments Ret {A} a.
Arguments Do {A} c k.

Record event : Type := Event { event_call : call; event_answer : result exn (answer event_call) }.

Fixpoint prog_bind {A B} (p : prog A) (f : A -> prog B) : prog B :=
  match p with
  | Ret a => f a
  | Do c k => Do c (fun r => prog_bind (k r) f)
  end.

(** The environment answers from the history of events. *)
Definition environment : Type := list event -> forall c, result exn (answer c).

Fixpoint run {A} (env : environment) (p : prog A) (history : list event) : list event * A :=
  match p with
  | Ret a => ([], a)
  | Do c k =>
      let r := env history c in
      let '(evs, a) := run env (k r) (history ++ [Event c r]) in
      (Event c r :: evs, a)
  end.

(** ** Exceptions and local state *)

Context {S : Type}.

Definition M (A : Type) : Type := S -> prog (result exn A * S).

#[export] Instance M_ret : MRet M := fun A a s => Ret (Ok a, s).
#[export] Instance M_bind : MBind M := fun A B f m s =>
  prog_bind (m s) (fun x => match x with
                            | (Ok a, s') => f a s'
                            | (Raise e, s') => Ret (Raise e, s')
                            end).

Definition perform (c : call) : M (answer c) := fun s => Do c (fun r => Ret (r, s)).
Definition raise {A} (e : exn) : M A := fun s => Ret (Raise e, s).
Definition get_local : M S := fun s => Ret (Ok s, s).
Definition set_local (s : S) : M unit := fun _ => Ret (Ok tt, s).
Definition lift {A} (r : result exn A) : M A := fun s => Ret (r, s).

(** [try: m except ...: h]; [h] is [None] on an exception that no clause names. *)
Definition try_except {A} (m : M A) (h : exn -> option (M A)) : M A := fun s =>
  prog_bind (m s) (fun x => match x with
                            | (Ok a, s') => Ret (Ok a, s')
                            | (Raise e, s') =>
                                match h e with Some m' => m' s' | None => Ret (Raise e, s') end
                            end).

(** [try: m except ...: h else: k]: the exceptions of [k] are not caught. *)
Definition try_else {A B} (m : M A) (h : exn -> option (M B)) (k : A -> M B) : M B := fun s =>
  prog_bind (m s) (fun x => match x with
                            | (Ok a, s') => k a s'
                            | (Raise e, s') =>
                                match h e with Some m' => m' s' | None => Ret (Raise e, s') end
                            end).

(** [try: m finally: cleanup]: an exception of the cleanup replaces the outcome. *)
Definition try_finally {A} (m : M A) (cleanup : M unit) : M A := fun s =>
  prog_bind (m s) (fun x =>
    prog_bind (cleanup x.2) (fun y => match y with
                                      | (Ok _, s') => Ret (x.1, s')
                                      | (Raise e, s') => Ret (Raise e, s')
                                      end)).

(** A required row, and a condition. *)
Definition require_or {A} (o : option A) (e : exn) : M A := match o with Some a => mret a | None => raise e end.
Definition check (b : bool) (e : exn) : M unit := if b then mret tt else raise e.

(** * Verification *)

Section monitor.
(** A monitor follows the events and refuses some; [admissible] restricts the answers
    of the environment. *)
Context {W : Type} (step : W -> event -> option W) (admissible : event -> Prop).

Fixpoint wp {A} (p : prog A) (Q : A -> W -> Prop) (w : W) : Prop :=
  match p with
  | Ret a => Q a w
  | Do c k => forall r, admissible (Event c r) ->
      match step w (Event c r) with Some w' => wp (k r) Q w' | None => False end
  end.

Fixpoint follow (w : W) (evs : list event) : option W :=
  match evs with
  | [] => Some w
  | e :: evs' => match step w e with Some w' => follow w' evs' | None => None end
  end.

(** Every run is accepted by the monitor and ends in the postcondition. *)
Lemma wp_sound {A} (p : prog A) Q w env history : wp p Q w ->
  (forall h c, admissible (Event c (env h c))) ->
  exists w', follow w (run env p history).1 = Some w' /\ Q (run env p history).2 w'.
Proof.
  revert w history. induction p as [a|c k IH]; intros w history Hwp Hadm; cbn in *; [by exists w|].
  specialize (Hwp (env history c) (Hadm _ _)). destruct (step w _) as [w'|] eqn:E; [|done].
  destruct (IH _ w' (history ++ [Event c (env history c)]) Hwp Hadm) as (w'' & Hf & HQ).
  destruct (run _ _ _) as [evs a]. cbn in *. exists w''. by rewrite E.
Qed.

Lemma wp_mono {A} (p : prog A) (P Q : A -> W -> Prop) w : wp p P w -> (forall a w', P a w' -> Q a w') -> wp p Q w.
Proof.
  revert w. induction p as [a|c k IH]; cbn; intros w Hp HPQ; [by apply HPQ|].
  intros r Hr. specialize (Hp r Hr). destruct (step w _); [by eapply IH | done].
Qed.

Lemma wp_bind {A B} (p : prog A) (f : A -> prog B) Q w :
  wp (prog_bind p f) Q w <-> wp p (fun a w' => wp (f a) Q w') w.
Proof.
  revert w. induction p as [a|c k IH]; cbn; intros w; [done|].
  split; intros Hp r Hr; specialize (Hp r Hr); destruct (step w _); by try apply IH.
Qed.

(** The same for computations with exceptions and local state. *)
Definition verified {A} (m : M A) (Q : result exn A -> S -> W -> Prop) (s : S) (w : W) : Prop :=
  wp (m s) (fun x w' => Q x.1 x.2 w') w.

Lemma verified_mono {A} (m : M A) P Q s w : verified m P s w ->
  (forall r s' w', P r s' w' -> Q r s' w') -> verified m Q s w.
Proof. intros Hm HPQ. eapply wp_mono; [exact Hm|]. intros [r s'] w'. apply HPQ. Qed.

Lemma verified_and {A} (m : M A) P Q s w : verified m P s w -> verified m Q s w ->
  verified m (fun r s' w' => P r s' w' /\ Q r s' w') s w.
Proof.
  unfold verified. revert w. induction (m s) as [a|c k IH]; cbn; intros w Hp Hq; [done|].
  intros r Hr. specialize (Hp r Hr). specialize (Hq r Hr). destruct (step w _); [by apply IH | done].
Qed.

Lemma verified_ret {A} (a : A) (Q : result exn A -> S -> W -> Prop) s w : Q (Ok a) s w -> verified (mret a) Q s w.
Proof. done. Qed.
Lemma verified_lift {A} (r : result exn A) (Q : result exn A -> S -> W -> Prop) s w : Q r s w -> verified (lift r) Q s w.
Proof. done. Qed.
Lemma verified_raise {A} e (Q : result exn A -> S -> W -> Prop) s w : Q (Raise e) s w -> verified (raise e) Q s w.
Proof. done. Qed.
Lemma verified_get (Q : result exn S -> S -> W -> Prop) s w : Q (Ok s) s w -> verified get_local Q s w.
Proof. done. Qed.
Lemma verified_set s' (Q : result exn unit -> S -> W -> Prop) s w : Q (Ok tt) s' w -> verified (set_local s') Q s w.
Proof. done. Qed.

Lemma verified_perform c (Q : result exn (answer c) -> S -> W -> Prop) s w :
  (forall r, admissible (Event c r) -> match step w (Event c r) with Some w' => Q r s w' | None => False end) ->
  verified (perform c) Q s w.
Proof. intros H r Hr. specialize (H r Hr). by destruct (step w _). Qed.

Lemma verified_bind {A B} (m : M A) (f : A -> M B) Q s w :
  verified m (fun r s' w' => match r with Ok a => verified (f a) Q s' w' | Raise e => Q (Raise e) s' w' end) s w ->
  verified (m ≫= f) Q s w.
Proof.
  unfold verified, mbind, M_bind. intros Hm. rewrite wp_bind. eapply wp_mono; [exact Hm|].
  by intros [[a|e] s'] w'.
Qed.

Lemma verified_try_else {A B} (m : M A) h (k : A -> M B) Q s w :
  verified m (fun r s' w' => match r with
                             | Ok a => verified (k a) Q s' w'
                             | Raise e => match h e with
                                          | Some m' => verified m' Q s' w'
                                          | None => Q (Raise e) s' w'
                                          end
                             end) s w ->
  verified (try_else m h k) Q s w.
Proof.
  unfold verified, try_else. intros Hm. rewrite wp_bind. eapply wp_mono; [exact Hm|].
  intros [[a|e] s'] w'; [done|]. cbn. by destruct (h e).
Qed.

Lemma verified_try {A} (m : M A) h Q s w :
  verified m (fun r s' w' => match r with
                             | Ok a => Q (Ok a) s' w'
                             | Raise e => match h e with
                                          | Some m' => verified m' Q s' w'
                                          | None => Q (Raise e) s' w'
                                          end
                             end) s w ->
  verified (try_except m h) Q s w.
Proof.
  unfold verified, try_except. intros Hm. rewrite wp_bind. eapply wp_mono; [exact Hm|].
  intros [[a|e] s'] w'; [done|]. cbn. by destruct (h e).
Qed.

Lemma verified_finally {A} (m : M A) cleanup Q s w :
  verified m (fun r s' w' => verified cleanup (fun r' s'' w'' =>
      match r' with Ok _ => Q r s'' w'' | Raise e => Q (Raise e) s'' w'' end) s' w') s w ->
  verified (try_finally m cleanup) Q s w.
Proof.
  unfold verified, try_finally. intros Hm. rewrite wp_bind. eapply wp_mono; [exact Hm|].
  intros [r s'] w' Hc. rewrite wp_bind. eapply wp_mono; [exact Hc|].
  by intros [[[]|e] s''] w''.
Qed.
End monitor.
End programs.

Arguments prog call {_} A.
Arguments event call {_}.
Arguments Event {call _} event_call event_answer.
Arguments M call {_} S A.
Arguments environment call {_}.
Arguments Ret {call _ A} a.
Arguments Do {call _ A} c k.

#[global] Arguments verified : simpl never.

(** * Recorded runs

    The monitor that accepts everything and keeps what it saw, and the programs all of
    whose calls satisfy a condition. *)
Section recorded.
Context {call : Type} {Icall : Interface call} {S : Type}.

Definition record_events (w : list (event call)) (e : event call) : option (list (event call)) := Some (w ++ [e]).

Lemma follow_record_events w evs : follow record_events w evs = Some (w ++ evs).
Proof. revert w. induction evs as [|e evs IH]; intros w; cbn; [by rewrite app_nil_r|]. by rewrite IH, <- app_assoc. Qed.

Fixpoint only {A} (P : call -> Prop) (p : prog call A) : Prop :=
  match p with Ret _ => True | Do c k => P c /\ forall r, only P (k r) end.
Definition calls_only (P : call -> Prop) {A} (m : M call S A) : Prop := forall s, only P (m s).

Lemma only_bind {A B} P (p : prog call A) (f : A -> prog call B) :
  only P p -> (forall a, only P (f a)) -> only P (prog_bind p f).
Proof. intros Hp Hf. induction p as [a|c k IH]; cbn in *; [done|]. destruct Hp as [Hc Hk]. split; [done|]. auto. Qed.

Lemma calls_only_ret {A} P (a : A) : calls_only P (mret a).
Proof. done. Qed.
Lemma calls_only_raise {A} P e : calls_only P (raise e : M call S A).
Proof. done. Qed.
Lemma calls_only_lift {A} P (r : result exn A) : calls_only P (lift r).
Proof. done. Qed.
Lemma calls_only_perform (P : call -> Prop) c : P c -> calls_only P (perform c).
Proof. by intros Hc s. Qed.
Lemma calls_only_bind {A B} P (m : M call S A) (f : A -> M call S B) :
  calls_only P m -> (forall a, calls_only P (f a)) -> calls_only P (m ≫= f).
Proof. intros Hm Hf s. apply only_bind; [apply Hm|]. intros [[a|e] s']; [apply Hf | done]. Qed.
Lemma calls_only_ret_bind {A B} P (a : A) (f : A -> M call S B) : calls_only P (f a) -> calls_only P (mret a ≫= f).
Proof. done. Qed.
Lemma calls_only_try {A} P (m : M call S A) h :
  calls_only P m -> (forall e m', h e = Some m' -> calls_only P m') -> calls_only P (try_except m h).
Proof.
  intros Hm Hh s. apply only_bind; [apply Hm|]. intros [[a|e] s']; [done|]. destruct (h e) eqn:E; [by eapply Hh | done].
Qed.

Lemma recorded_perform adm c (Q : result exn (answer c) -> S -> list (event call) -> Prop) s w :
  (forall r, adm (Event c r) -> Q r s (w ++ [Event c r])) -> verified record_events adm (perform c) Q s w.
Proof. intros H. apply verified_perform. exact H. Qed.

(** Such a program extends the record by events of its calls. *)
Lemma calls_only_recorded {A} P adm (m : M call S A) s w : calls_only P m ->
  verified record_events adm m (fun _ _ w' => exists ext, w' = w ++ ext /\ Forall (fun e => P (event_call e)) ext) s w.
Proof.
  intros H. specialize (H s). unfold verified. revert w. induction (m s) as [a|c k IH]; intros w; cbn in *.
  - exists []. by rewrite app_nil_r.
  - destruct H as [Hc Hk]. intros r _. eapply wp_mono; [by apply IH|].
    intros _ w' (ext & -> & Hext). exists (Event c r :: ext). rewrite <- app_assoc. split; [done|]. by constructor.
Qed.

(** A monitor that ignores such calls is where it was. *)
Lemma calls_only_unmoved {A W} P (step : W -> event call -> option W) adm (m : M call S A) s w :
  (forall e, P (event_call e) -> step w e = Some w) -> calls_only P m ->
  verified step adm m (fun _ _ w' => w' = w) s w.
Proof.
  intros Hs H. specialize (H s). unfold verified. induction (m s) as [a|c k IH]; cbn in *; [done|].
  destruct H as [Hc Hk]. intros r _. rewrite Hs by done. by apply IH.
Qed.
End recorded.

#[export] Hint Resolve calls_only_ret calls_only_raise calls_only_lift calls_only_perform : platform.

(** A recorded call; its answer's type may be written in any way. *)
Ltac record_call :=
  match goal with |- verified record_events ?adm (perform ?c) ?Q ?s ?w => apply (recorded_perform adm c Q s w) end.

(** The calls of a program, clause by clause. *)
Ltac calls_step :=
  first
    [ solve [auto with platform | by apply calls_only_perform | by apply calls_only_raise]
    | apply calls_only_ret_bind
    | apply calls_only_bind; [|intros ?]
    | apply calls_only_try; [|intros e m' Hm; destruct e; cbn in Hm; try discriminate Hm; injection Hm as <-]
    | match goal with |- calls_only _ (match ?x with _ => _ end) => destruct x end ].

(** One step of symbolic execution. *)
Ltac exec_step :=
  match goal with
  | |- verified _ _ (mbind _ _) _ _ _ => apply verified_bind
  | |- verified _ _ (mret _) _ _ _ => apply verified_ret
  | |- verified _ _ (raise _) _ _ _ => apply verified_raise
  | |- verified _ _ (lift _) _ _ _ => apply verified_lift
  | |- verified _ _ get_local _ _ _ => apply verified_get
  | |- verified _ _ (set_local _) _ _ _ => apply verified_set
  | |- verified _ _ (try_except _ _) _ _ _ => apply verified_try
  | |- verified _ _ (try_else _ _ _) _ _ _ => apply verified_try_else
  | |- verified _ _ (try_finally _ _) _ _ _ => apply verified_finally
  end.

(** Running a computation with a local variable of its own. *)
Definition scoped {call} `{Interface call} {S S' A} (s' : S') (m : M call S' A) : M call S A := fun s =>
  prog_bind (m s') (fun x => Ret (x.1, s)).

Lemma verified_scoped {call} `{Interface call} {S S' A W} (step : W -> event call -> option W) adm
    (s' : S') (m : M call S' A) (Q : result exn A -> S -> W -> Prop) s w :
  verified step adm m (fun r _ w' => Q r s w') s' w -> verified step adm (scoped s' m) Q s w.
Proof.
  unfold verified, scoped. intros Hm. rewrite wp_bind. eapply wp_mono; [exact Hm|]. by intros [r s''] w'.
Qed.

(** A condition on every answer of the environment holds of the events of a run. *)
Lemma run_answers {call} `{Interface call} {A} (P : event call -> Prop) (env : environment call) (p : prog call A) h :
  (forall h c, P (Event c (env h c))) -> Forall P (run env p h).1.
Proof.
  intros HP. revert h. induction p as [a|c k IH]; intros h; cbn; [constructor|].
  specialize (IH (env h c) (h ++ [Event c (env h c)])). destruct (run _ _ _) as [evs a]. by constructor.
Qed.

