(* ===== verification/CaseUrl.v ===== *)
(** The URL of a test case: [build_test_case_url] of
    src/backend/app/services/test_execution.py. *)

From S2P Require Import Prelude.
From S2P Require Import PyStr.
From S2P Require Import PyUrl.
From S2P Require Import Models.
From S2P Require Import Samples.
From S2P Require Import Generator.
From S2P Require Import Effects.

Open Scope Z_scope.

Definition is_slash (c : ascii) : bool := bool_decide (c = "/"%char).
Definition placeholder (b : EndpointResourceBinding) : string := "{" +:+ parameter_name b +:+ "}".

Definition build_test_case_url (target : Target) (endpoint : Endpoint) (resource : Resource) : result exn string :=
  _ ← guard_or (endpoint_target_id endpoint =? target_id target)
        (TestExecutionError "Endpoint belongs to a different target.");
  _ ← guard_or (resource_target_id resource =? target_id target)
        (TestExecutionError "Resource belongs to a different target.");
  binding ← require (detect_resource_binding endpoint)
              (TestExecutionError "Unable to determine endpoint resource binding.");
  _ ← guard_or (bool_decide (binding_resource_type binding = resource_type resource))
        (TestExecutionError "Resource type does not match endpoint.");
  _ ← guard_or (contains (placeholder binding) (endpoint_path endpoint))
        (TestExecutionError "Endpoint resource placeholder is missing.");
  let encoded_external_id := quote (external_id resource) in
  let request_path := replace_first (placeholder binding) encoded_external_id (endpoint_path endpoint) in
  _ ← guard_or (negb (contains_char "{" request_path || contains_char "}" request_path))
        (TestExecutionError "Endpoint contains unresolved path parameters.");
  Ok (rstrip_by is_slash (base_url target) +:+ request_path).

(** * Lemmas *)

(** Where the first occurrence is does not depend on what replaces it. *)
Lemma replace_first_split old s : contains old s = true ->
  exists pre post, s = pre +:+ old +:+ post /\ forall new, replace_first old new s = pre +:+ new +:+ post.
Proof.
  induction s as [|c s IH]; cbn [contains replace_first]; destruct (startswith old _) eqn:E.
  1, 3: intros _; apply startswith_app in E as [t ->]; exists EmptyString, t; split; [done|];
    intros new; by rewrite str_drop_app.
  - done.
  - intros Hc. destruct (IH Hc) as (pre & post & -> & H). exists (String c pre), post. split; [done|].
    intros new. by rewrite H.
Qed.

Lemma percent_decode_char c t : percent_decode (quote_char c +:+ t) = String c (percent_decode t).
Proof. destruct c as [[] [] [] [] [] [] [] []]; reflexivity. Qed.

(** Quoting loses nothing: the text decodes to the bytes it came from. *)
Lemma percent_decode_quote s : percent_decode (quote s) = s.
Proof. induction s as [|c s IH]; [done|]. cbn [quote]. by rewrite percent_decode_char, IH. Qed.

Lemma quote_inj s t : quote s = quote t -> s = t.
Proof. intros H. by rewrite <- (percent_decode_quote s), H, percent_decode_quote. Qed.

Lemma str_app_inj_l p s t : p +:+ s = p +:+ t -> s = t.
Proof. induction p as [|c p IH]; [done|]. intros [= H]. by apply IH. Qed.

Lemma str_app_inj_r p s t : s +:+ p = t +:+ p -> s = t.
Proof.
  intros H. assert (Hl : String.length s = String.length t).
  { apply (f_equal String.length) in H. rewrite !str_length_app in H. lia. }
  revert t H Hl. induction s as [|c s IH]; intros [|d t] H Hl; try done. cbn in H, Hl.
  injection H as -> H. f_equal. apply IH; [done | lia].
Qed.

(** The path of a built URL: the endpoint's path around the quoted identifier. *)
Lemma build_url_shape target e r url : build_test_case_url target e r = Ok url ->
  exists b pre post, detect_resource_binding e = Some b /\ resource_type r = binding_resource_type b
    /\ endpoint_target_id e = target_id target /\ resource_target_id r = target_id target
    /\ endpoint_path e = pre +:+ placeholder b +:+ post
    /\ (forall r', replace_first (placeholder b) (quote (external_id r')) (endpoint_path e)
                   = pre +:+ quote (external_id r') +:+ post)
    /\ contains_char "{" (pre +:+ post) = false /\ contains_char "}" (pre +:+ post) = false
    /\ url = rstrip_by is_slash (base_url target) +:+ pre +:+ quote (external_id r) +:+ post.
Proof.
  unfold build_test_case_url. intros H. result_inv. bool_simpl.
  match goal with Hc : contains _ _ = true |- _ => destruct (replace_first_split _ _ Hc) as (pre & post & Hp & Hr) end.
  match goal with Hd : detect_resource_binding e = Some ?b |- _ => exists b, pre, post end.
  rewrite Hr, !contains_char_app in *. bool_simpl. split_and!; try done; try by apply orb_false_iff.
Qed.

(** * Properties *)

(** The URL of a test case addresses its resource and nothing else: it is the Target's
    base and the endpoint's path with the one placeholder replaced by the quoted identifier,
    which holds no path, query or fragment delimiter and no brace and decodes to the
    identifier; no brace is left, and two resources of the endpoint with the same URL have
    the same identifier. *)
Theorem test_case_url_binds target e r url (H : build_test_case_url target e r = Ok url) :
  exists b pre post, detect_resource_binding e = Some b /\ resource_type r = binding_resource_type b
    /\ endpoint_path e = pre +:+ placeholder b +:+ post
    /\ url = rstrip_by is_slash (base_url target) +:+ pre +:+ quote (external_id r) +:+ post
    /\ contains_char "{" (pre +:+ post) = false /\ contains_char "}" (pre +:+ post) = false
    /\ percent_decode (quote (external_id r)) = external_id r
    /\ Forall (fun d => contains_char d (quote (external_id r)) = false) ["/"; "?"; "#"; "{"; "}"]%char
    /\ forall r', build_test_case_url target e r' = Ok url -> external_id r' = external_id r.
Proof.
  destruct (build_url_shape _ _ _ _ H) as (b & pre & post & Hb & Ht & _ & _ & Hp & Hr & Ho & Hc & Hu).
  exists b, pre, post. split_and!; try done; [apply percent_decode_quote | by repeat constructor; apply quote_clean|].
  intros r' H'. destruct (build_url_shape _ _ _ _ H') as (b' & pre' & post' & Hb' & _ & _ & _ & _ & Hr' & _ & _ & Hu').
  rewrite Hb in Hb'. injection Hb' as <-. rewrite <- Hr' in Hu'. rewrite Hr in Hu'.
  rewrite Hu in Hu'. by apply str_app_inj_l, str_app_inj_l, str_app_inj_r, quote_inj in Hu'.
Qed.

(** * Witness *)

Lemma test_case_url_binds_witness :
  exists b pre post, detect_resource_binding lab_endpoint = Some b /\ resource_type lab_order = binding_resource_type b
    /\ endpoint_path lab_endpoint = pre +:+ placeholder b +:+ post
    /\ "http://localhost:8000/api/orders/42"
        = rstrip_by is_slash (base_url lab_target) +:+ pre +:+ quote (external_id lab_order) +:+ post
    /\ contains_char "{" (pre +:+ post) = false /\ contains_char "}" (pre +:+ post) = false
    /\ percent_decode (quote (external_id lab_order)) = external_id lab_order
    /\ Forall (fun d => contains_char d (quote (external_id lab_order)) = false) ["/"; "?"; "#"; "{"; "}"]%char
    /\ forall r', build_test_case_url lab_target lab_endpoint r' = Ok "http://localhost:8000/api/orders/42" ->
         external_id r' = external_id lab_order.
Proof. apply (test_case_url_binds lab_target lab_endpoint lab_order). vm_compute. reflexivity. Defined.
