(* ===== verification/OpenApi.v ===== *)
(** OpenAPI documents, src/backend/app/scanners/openapi.py: structure limits, decoding,
    parsing into endpoints.

    The zlib decompressor is an argument. *)

From S2P Require Import Prelude.
From S2P Require Import PyStr.
From S2P Require Import PyFloat.
From S2P Require Import PyJson.
From S2P Require Import Effects.

Open Scope Z_scope.

Definition SUPPORTED_METHODS : list string := ["get"; "post"; "patch"; "delete"].
Definition MAX_OPENAPI_RESPONSE_BYTES : Z := 1000000.
Definition MAX_OPENAPI_DECOMPRESSED_BYTES : Z := 1000000.
Definition MAX_OPENAPI_NESTING_DEPTH : Z := 32.
Definition MAX_OPENAPI_STRUCTURE_NODES : nat := Z.to_nat 20000.
Definition MAX_OPENAPI_PATHS : Z := 2000.
Definition MAX_OPENAPI_ENDPOINTS : Z := 4000.
Definition MAX_OPENAPI_PARAMETERS_PER_ENDPOINT : Z := 128.
Definition MAX_OPENAPI_PATH_LENGTH : Z := 500.
Definition MAX_OPENAPI_OPERATION_ID_LENGTH : Z := 255.

Record ParsedEndpoint := mkParsed {
  parsed_path : string;
  parsed_method : string;
  parsed_operation_id : option string;
  parsed_requires_auth : bool;
  parsed_parameters : list json;
  parsed_request_body : option json;
  parsed_security : option (list json)
}.

#[export] Instance ParsedEndpoint_eq_dec : EqDecision ParsedEndpoint.
Proof. solve_decision. Defined.

(** * Parameters and security *)

(** The key of a parameter that has a string for its name and location. *)
Definition parameter_key (p : json) : option (string * string) :=
  match p with
  | JObj o =>
      match assoc "name" o, assoc "in" o with
      | Some (JStr name), Some (JStr location) => Some (name, location)
      | _, _ => None
      end
  | _ => None
  end.
Definition is_object (p : json) : bool := match p with JObj _ => true | _ => false end.

(** One turn of the loop: the merged parameters and the positions of their keys. *)
Definition merge_step (st : list json * gmap (string * string) nat) (p : json)
    : list json * gmap (string * string) nat :=
  let '(merged, positions) := st in
  if negb (is_object p) then st
  else
    match parameter_key p with
    | None => (merged ++ [p], positions)
    | Some key =>
        match positions !! key with
        | Some i => (<[i := p]> merged, positions)
        | None => (merged ++ [p], <[key := length merged]> positions)
        end
    end.
Definition merge_parameters (path_parameters operation_parameters : list json) : list json :=
  (foldl merge_step ([], ∅) (path_parameters ++ operation_parameters)).1.

Definition security_requires_auth (security : option (list json)) : bool :=
  match security with
  | None | Some [] => false
  | Some requirements => negb (existsb (fun r => match r with JObj [] => true | _ => false end) requirements)
  end.

(** * The structure of a document *)

(** The values of a [dict], the items of a list. *)
Definition children (value : json) : list json :=
  match value with JObj o => o.*2 | JArr l => l | _ => [] end.
Definition has_reference (value : json) : bool :=
  match value with JObj o => negb (is_none (assoc "$ref" o)) | _ => false end.

(** The [while] loop, over the number of nodes that may still be seen; [pending] is the
    stack with its top first. *)
Fixpoint visit_nodes (nodes_left : nat) (pending : list (json * Z)) : result exn unit :=
  match pending with
  | [] => Ok tt
  | (value, depth) :: rest =>
      if MAX_OPENAPI_NESTING_DEPTH <? depth then Raise (OpenAPIParseError "openapi_document_too_deep")
      else
        match nodes_left with
        | O => Raise (OpenAPIParseError "openapi_document_too_complex")
        | S nodes_left' =>
            if has_reference value then Raise (OpenAPIParseError "openapi_references_not_supported")
            else visit_nodes nodes_left' (reverse ((fun item => (item, depth + 1)) <$> children value) ++ rest)
        end
  end.
Definition validate_openapi_structure (document : json) : result exn unit :=
  visit_nodes MAX_OPENAPI_STRUCTURE_NODES [(document, 1)].

(** * Decoding *)

Definition CHUNK_BYTES : nat := Z.to_nat 65536.

Section decoding.
(** [zlib.decompressobj(16 + zlib.MAX_WBITS)]: its state, [decompress(data, max_length)]
    with the output and the unconsumed tail, [eof], [unused_data] and [flush(length)];
    [None] is [zlib.error]. *)
Context {decoder : Type}.
Variable decompressobj : decoder.
Variable decompress : decoder -> string -> Z -> option (string * string * decoder).
Variable eof : decoder -> bool.
Variable unused_data : decoder -> string.
Variable flush : decoder -> Z -> option string.

Definition body_too_large : exn := OpenAPIParseError "openapi_decompressed_body_too_large".
Definition body_invalid : exn := OpenAPIParseError "openapi_compressed_body_invalid".

(** The inner loop over a chunk; [None] is out of fuel. *)
Fixpoint decode_chunk (fuel : nat) (d : decoder) (chunk pending decoded : string)
    : option (result exn (decoder * string)) :=
  if is_empty chunk then Some (Ok (d, decoded))
  else
    match fuel with
    | O => None
    | S fuel' =>
        match decompress d chunk (MAX_OPENAPI_DECOMPRESSED_BYTES - byte_len decoded + 1) with
        | None => Some (Raise body_invalid)
        | Some (output, tail, d') =>
            let decoded' := decoded +:+ output in
            if MAX_OPENAPI_DECOMPRESSED_BYTES <? byte_len decoded' then Some (Raise body_too_large)
            else if eof d' then
              if negb (is_empty (unused_data d')) || negb (is_empty tail) || negb (is_empty pending)
              then Some (Raise body_invalid) else Some (Ok (d', decoded'))
            else decode_chunk fuel' d' tail pending decoded'
        end
    end.

(** Enough for a chunk: a call consumes a byte or produces one. *)
Definition chunk_fuel : nat := Z.to_nat (65536 + MAX_OPENAPI_DECOMPRESSED_BYTES + 1).

(** The outer loop; [n] bounds the number of chunks. *)
Fixpoint decode_chunks (n : nat) (d : decoder) (pending decoded : string) : option (result exn (decoder * string)) :=
  if is_empty pending then Some (Ok (d, decoded))
  else
    match n with
    | O => None
    | S n' =>
        let chunk := str_take CHUNK_BYTES pending in
        let rest := str_drop CHUNK_BYTES pending in
        match decode_chunk chunk_fuel d chunk rest decoded with
        | Some (Ok (d', decoded')) => decode_chunks n' d' rest decoded'
        | other => other
        end
    end.

Definition decode_gzip (wire_body : string) : option (result exn string) :=
  match decode_chunks (String.length wire_body) decompressobj wire_body EmptyString with
  | None => None
  | Some (Raise e) => Some (Raise e)
  | Some (Ok (d, decoded)) =>
      if negb (eof d) then Some (Raise body_invalid)
      else
        match flush d (MAX_OPENAPI_DECOMPRESSED_BYTES - byte_len decoded + 1) with
        | None => Some (Raise body_invalid)
        | Some rest =>
            if MAX_OPENAPI_DECOMPRESSED_BYTES <? byte_len (decoded +:+ rest) then Some (Raise body_too_large)
            else Some (Ok (decoded +:+ rest))
        end
  end.

(** [decode_openapi_document]: the normalized encoding and the decoded body. *)
Definition decode_openapi_document (wire_body : string) (content_encoding : option string)
    : option (result exn (string * string)) :=
  let normalized := match content_encoding with None => "identity" | Some e => lower (strip e) end in
  if negb (bool_decide (normalized = "identity") || bool_decide (normalized = "gzip")) then
    Some (Raise (OpenAPIParseError "openapi_content_encoding_not_supported"))
  else if bool_decide (normalized = "identity") then
    Some (if MAX_OPENAPI_DECOMPRESSED_BYTES <? byte_len wire_body then Raise body_too_large
          else Ok (normalized, wire_body))
  else
    match decode_gzip wire_body with
    | Some (Ok decoded) => Some (Ok (normalized, decoded))
    | Some (Raise e) => Some (Raise e)
    | None => None
    end.
End decoding.

(** * Parsing *)

(** [ValueError]s, which the scanner turns into a scan error. *)
Inductive parse_error : Type := ParseValueError (message : string) | ParseFailure (e : exn).
Definition parse_failure (code : string) : parse_error := ParseFailure (OpenAPIParseError code).

Definition list_or_empty (value : option json) : list json := match value with Some (JArr l) => l | _ => [] end.

(** The endpoint of one operation. *)
Definition parse_operation (root_security : option (list json)) (path : string) (path_parameters : list json)
    (method : string) (operation : list (string * json)) : result parse_error ParsedEndpoint :=
  let parameters := merge_parameters path_parameters (list_or_empty (assoc "parameters" operation)) in
  _ ← guard_or (Z.of_nat (length parameters) <=? MAX_OPENAPI_PARAMETERS_PER_ENDPOINT)
        (parse_failure "openapi_too_many_parameters");
  let security := match assoc "security" operation with
                  | None => root_security
                  | Some (JArr l) => Some l
                  | Some _ => None
                  end in
  let request_body := match assoc "requestBody" operation with Some (JObj o) => Some (JObj o) | _ => None end in
  let operation_id := match assoc "operationId" operation with Some (JStr s) => Some s | _ => None end in
  _ ← guard_or (match operation_id with Some s => str_len s <=? MAX_OPENAPI_OPERATION_ID_LENGTH | None => true end)
        (parse_failure "openapi_operation_id_too_long");
  Ok (mkParsed path (upper method) operation_id (security_requires_auth security) parameters request_body security).

(** The loop over the methods of a path item. *)
Fixpoint parse_methods (root_security : option (list json)) (path : string) (item : list (string * json))
    (methods : list string) (endpoints : list ParsedEndpoint) : result parse_error (list ParsedEndpoint) :=
  match methods with
  | [] => Ok endpoints
  | method :: rest =>
      match assoc method item with
      | Some (JObj operation) =>
          _ ← guard_or (Z.of_nat (length endpoints) <? MAX_OPENAPI_ENDPOINTS) (parse_failure "openapi_too_many_endpoints");
          endpoint ← parse_operation root_security path (list_or_empty (assoc "parameters" item)) method operation;
          parse_methods root_security path item rest (endpoints ++ [endpoint])
      | _ => parse_methods root_security path item rest endpoints
      end
  end.

(** The loop over the paths. *)
Fixpoint parse_paths (root_security : option (list json)) (paths : list (string * json))
    (endpoints : list ParsedEndpoint) : result parse_error (list ParsedEndpoint) :=
  match paths with
  | [] => Ok endpoints
  | (path, path_item) :: rest =>
      _ ← guard_or (str_len path <=? MAX_OPENAPI_PATH_LENGTH) (parse_failure "openapi_path_too_long");
      match path_item with
      | JObj item =>
          endpoints' ← parse_methods root_security path item SUPPORTED_METHODS endpoints;
          parse_paths root_security rest endpoints'
      | _ => parse_paths root_security rest endpoints
      end
  end.

Definition parse_openapi_schema (schema : list (string * json)) : result parse_error (list ParsedEndpoint) :=
  paths ← match assoc "paths" schema with
          | Some (JObj paths) => Ok paths
          | _ => Raise (ParseValueError "OpenAPI schema does not contain a valid 'paths' object")
          end;
  _ ← guard_or (Z.of_nat (length paths) <=? MAX_OPENAPI_PATHS) (parse_failure "openapi_too_many_paths");
  root_security ← match assoc "security" schema with
                  | None | Some JNull => Ok None
                  | Some (JArr l) => Ok (Some l)
                  | Some _ => Raise (ParseValueError "OpenAPI root security must be a list")
                  end;
  parse_paths root_security paths [].

(** * Lemmas *)

(** ** Parameters *)

(** The first occurrences of the keys, and everything without a key. *)
Definition keep_first (acc : list (option (string * string))) (k : option (string * string)) :=
  match k with
  | Some _ => if bool_decide (k ∈ acc) then acc else acc ++ [k]
  | None => acc ++ [k]
  end.
Definition first_occurrences (keys : list (option (string * string))) := foldl keep_first [] keys.

(** The last parameter with a key. *)
Fixpoint last_with (key : string * string) (l : list json) : option json :=
  match l with
  | [] => None
  | p :: l' => match last_with key l' with
               | Some q => Some q
               | None => if bool_decide (parameter_key p = Some key) then Some p else None
               end
  end.

Lemma last_with_snoc key l p :
  last_with key (l ++ [p]) = if bool_decide (parameter_key p = Some key) then Some p else last_with key l.
Proof.
  induction l as [|q l IH]; cbn; [by case_bool_decide|]. rewrite IH. by case_bool_decide.
Qed.

Definition objects (l : list json) : list json := filter (fun p => is_object p = true) l.
Definition unkeyed (l : list json) : list json := filter (fun p => parameter_key p = None) l.

(** What the loop keeps: keys in the order of their first occurrence, the last parameter of
    each key, everything without a key, and where each key is. *)
Definition merge_invariant (l : list json) (st : list json * gmap (string * string) nat) : Prop :=
  parameter_key <$> st.1 = first_occurrences (parameter_key <$> l) /\
  unkeyed st.1 = unkeyed l /\
  (forall key i, st.2 !! key = Some i <-> exists p, st.1 !! i = Some p /\ parameter_key p = Some key) /\
  (forall i p key, st.1 !! i = Some p -> parameter_key p = Some key -> last_with key l = Some p).

Lemma first_occurrences_snoc l k : first_occurrences (l ++ [k]) = keep_first (first_occurrences l) k.
Proof. unfold first_occurrences. by rewrite foldl_snoc. Qed.

Lemma unkeyed_insert l i p q key : l !! i = Some q -> parameter_key q = Some key -> parameter_key p <> None ->
  unkeyed (<[i := p]> l) = unkeyed l.
Proof.
  unfold unkeyed. revert i. induction l as [|r l IH]; intros [|i] Hi Hq Hp; cbn in Hi; [done..| |].
  - injection Hi as ->. change (<[0%nat := p]> (q :: l)) with (p :: l). rewrite !filter_cons_False; [done | by rewrite Hq | done].
  - change (<[S i := p]> (r :: l)) with (r :: <[i := p]> l). rewrite !filter_cons. case_decide; [f_equal|]; by apply IH.
Qed.

(** A new key or an unkeyed parameter is appended. *)
Lemma merge_append l st p positions : merge_invariant l st -> is_object p = true ->
  (forall key, parameter_key p = Some key -> st.2 !! key = None) ->
  positions = match parameter_key p with Some key => <[key := length st.1]> st.2 | None => st.2 end ->
  merge_invariant (l ++ [p]) (st.1 ++ [p], positions).
Proof.
  intros (I1 & I2 & I3 & I4) Ho Hnew ->. unfold merge_invariant. cbn [fst snd].
  rewrite !fmap_app, I1. change (parameter_key <$> [p]) with [parameter_key p]. rewrite first_occurrences_snoc.
  assert (Hfresh : forall key, parameter_key p = Some key -> forall i q, st.1 !! i = Some q -> parameter_key q <> Some key).
  { intros key Hk i q Hi Hq. specialize (Hnew key Hk). assert (st.2 !! key = Some i) by (apply I3; eauto). congruence. }
  split_and!.
  - unfold keep_first. destruct (parameter_key p) as [key|] eqn:Hk; [|done]. rewrite bool_decide_eq_false_2; [done|].
    rewrite <- I1. intros (q & Hq & Hin)%list_elem_of_fmap. apply list_elem_of_lookup in Hin as [i Hi].
    by destruct (Hfresh key eq_refl i q Hi).
  - unfold unkeyed in *. by rewrite !filter_app, I2.
  - intros key i. destruct (parameter_key p) as [key'|] eqn:Hk.
    + rewrite lookup_insert_Some. split.
      * intros [[-> <-]|[Hne Hi]]; [exists p; by rewrite list_lookup_middle|].
        apply I3 in Hi as (q & Hi & Hq). exists q. split; [by apply lookup_app_l_Some | done].
      * intros (q & Hi & Hq). apply lookup_app_Some in Hi as [Hi|[Hle Hi]].
        -- right. split; [|apply I3; eauto]. intros ->. by destruct (Hfresh key eq_refl i q Hi).
        -- apply list_lookup_singleton_Some in Hi as [Hi <-]. left. split; [congruence | lia].
    + rewrite I3. split; intros (q & Hi & Hq); exists q; (split; [|done]).
      * by apply lookup_app_l_Some.
      * apply lookup_app_Some in Hi as [Hi|[Hle Hi]]; [done|]. apply list_lookup_singleton_Some in Hi as [_ <-]. congruence.
  - intros i q key Hi Hq. rewrite last_with_snoc. apply lookup_app_Some in Hi as [Hi|[Hle Hi]].
    + rewrite bool_decide_eq_false_2; [by eapply I4|]. intros Hk. by destruct (Hfresh key Hk i q Hi).
    + apply list_lookup_singleton_Some in Hi as [_ <-]. by rewrite bool_decide_eq_true_2.
Qed.

(** A repeated key replaces its parameter in place. *)
Lemma merge_replace l st p key i : merge_invariant l st -> is_object p = true -> parameter_key p = Some key ->
  st.2 !! key = Some i -> merge_invariant (l ++ [p]) (<[i := p]> st.1, st.2).
Proof.
  intros (I1 & I2 & I3 & I4) Ho Hk Hpos. unfold merge_invariant. cbn [fst snd].
  apply I3 in Hpos as Hq. destruct Hq as (q & Hq & Hqk).
  assert (Hkeys : parameter_key <$> <[i := p]> st.1 = parameter_key <$> st.1).
  { rewrite list_fmap_insert. apply list_insert_id. by rewrite list_lookup_fmap, Hq, Hk, <- Hqk. }
  assert (Hlen : (i < length st.1)%nat) by (apply lookup_lt_is_Some; by exists q).
  split_and!.
  - rewrite Hkeys, I1, fmap_app. change (parameter_key <$> [p]) with [parameter_key p].
    rewrite first_occurrences_snoc, Hk. unfold keep_first.
    rewrite bool_decide_eq_true_2; [done|]. rewrite <- I1, <- Hk, Hk, <- Hqk. by eapply list_elem_of_fmap_2, list_elem_of_lookup_2.
  - rewrite (unkeyed_insert _ _ _ _ _ Hq Hqk), I2 by congruence. unfold unkeyed. rewrite filter_app, filter_cons_False by congruence.
    by rewrite filter_nil, app_nil_r.
  - intros key' j. rewrite I3. assert (Heq : forall r, (exists x, <[i := p]> st.1 !! j = Some x /\ parameter_key x = r)
      <-> exists x, st.1 !! j = Some x /\ parameter_key x = r).
    { intros r. assert (Hj : (parameter_key <$> <[i := p]> st.1) !! j = (parameter_key <$> st.1) !! j) by by rewrite Hkeys.
      rewrite !list_lookup_fmap in Hj. destruct (<[i := p]> st.1 !! j) as [x|], (st.1 !! j) as [y|]; try done.
      - cbn in Hj. injection Hj as Hj. split; intros (z & [= <-] & <-); eauto. }
    by rewrite Heq.
  - intros j r key' Hj Hr. rewrite last_with_snoc. apply list_lookup_insert_Some in Hj as [(-> & -> & _)|[Hne Hj]].
    + by rewrite bool_decide_eq_true_2 by congruence.
    + rewrite bool_decide_eq_false_2; [by eapply I4|]. rewrite Hk. intros [= ->]. apply Hne.
      assert (st.2 !! key' = Some j) by (apply I3; eauto). congruence.
Qed.

Lemma merge_invariant_holds l : Forall (fun p => is_object p = true) l -> merge_invariant l (foldl merge_step ([], ∅) l).
Proof.
  induction l as [|p l IH] using rev_ind; intros Hl.
  - split_and!; try done. cbn [foldl fst snd]. intros key i. rewrite lookup_empty. split; [done|]. by intros (p & Hp & _).
  - apply Forall_app in Hl as [Hl Hp]. inversion Hp as [|? ? Ho _]; subst. specialize (IH Hl).
    rewrite foldl_snoc. destruct (foldl merge_step ([], ∅) l) as [merged positions] eqn:E. unfold merge_step.
    rewrite Ho. cbn [negb]. destruct (parameter_key p) as [key|] eqn:Hk.
    + destruct (positions !! key) as [i|] eqn:Hpos; [by apply (merge_replace l (merged, positions) p key i)|].
      apply (merge_append l (merged, positions)); [done..| |by rewrite Hk]. intros key' Hk'. by rewrite Hk in Hk'; simplify_eq.
    + apply (merge_append l (merged, positions)); [done..| |by rewrite Hk]. intros key' Hk'. congruence.
Qed.

Lemma merge_objects l st : foldl merge_step st l = foldl merge_step st (objects l).
Proof.
  unfold objects. revert st. induction l as [|p l IH]; intros st; [done|]. rewrite filter_cons.
  destruct (is_object p) eqn:Ho; case_decide; try done; cbn [foldl]; [apply IH|]. rewrite IH. f_equal.
  unfold merge_step. destruct st. by rewrite Ho.
Qed.

(** ** Structure *)

(** No object of the document has a reference. *)
Fixpoint reference_free (j : json) : bool :=
  match j with
  | JArr l => forallb reference_free l
  | JObj o => is_none (assoc "$ref" o) && forallb (fun kv => reference_free kv.2) o
  | _ => true
  end.

Lemma json_size_children j : json_size j = S (sum_list_with json_size (children j)).
Proof.
  destruct j as [| | | | |l|o]; try done; cbn; f_equal.
  induction o as [|[k v] o IH]; cbn; [done|]. by rewrite IH.
Qed.
Lemma reference_free_children j : reference_free j = negb (has_reference j) && forallb reference_free (children j).
Proof.
  destruct j as [| | | | |l|o]; try done. cbn [reference_free has_reference children]. rewrite negb_involutive. f_equal.
  induction o as [|[k v] o IH]; cbn; [done|]. by rewrite IH.
Qed.
Lemma fold_max_le {A} (f : A -> nat) l m :
  (fold_right (fun x n => Nat.max (f x) n) 0%nat l <= m)%nat <-> Forall (fun x => (f x <= m)%nat) l.
Proof.
  induction l as [|x l IH]; cbn; [split; [constructor | lia]|]. rewrite Nat.max_lub_iff, Forall_cons, IH. done.
Qed.
Lemma json_depth_children j m : (json_depth j <= S m)%nat <-> Forall (fun c => (json_depth c <= m)%nat) (children j).
Proof.
  destruct j as [| | | | |l|o]; cbn [json_depth children]; try (split; [intros _; constructor | lia]).
  - rewrite <- Nat.succ_le_mono. apply fold_max_le.
  - rewrite <- Nat.succ_le_mono, Forall_fmap. apply fold_max_le.
Qed.

Lemma forallb_Forall {A} (f : A -> bool) l : forallb f l = true <-> Forall (fun x => f x = true) l.
Proof. induction l as [|x l IH]; cbn; [done|]. by rewrite andb_true_iff, Forall_cons, IH. Qed.

(** What the stack must satisfy for the rest of the visit to succeed. *)
Definition stack_fits (n : nat) (pending : list (json * Z)) : Prop :=
  (sum_list_with (fun vd => json_size vd.1) pending <= n)%nat /\
  Forall (fun vd => vd.2 - 1 + Z.of_nat (json_depth vd.1) <= MAX_OPENAPI_NESTING_DEPTH /\ reference_free vd.1 = true) pending.

Lemma stack_size_children d l rest :
  sum_list_with (fun vd => json_size vd.1) (reverse ((fun item => (item, d)) <$> l) ++ rest)
  = (sum_list_with json_size l + sum_list_with (fun vd : json * Z => json_size vd.1) rest)%nat.
Proof.
  rewrite sum_list_with_app, sum_list_with_reverse. f_equal. induction l as [|x l IH]; cbn; [done|]. by rewrite IH.
Qed.

Lemma visit_nodes_ok n pending : Forall (fun vd => 1 <= vd.2) pending ->
  visit_nodes n pending = Ok tt <-> stack_fits n pending.
Proof.
  revert pending. induction n as [|n IH]; intros [|[v d] rest] Hd; cbn [visit_nodes]; unfold stack_fits; cbn [sum_list_with fst snd].
  1, 3: by split; [intros _; split; [lia | constructor]|].
  - split; [by case_if|]. intros [Hs _]. rewrite json_size_children in Hs. lia.
  - inversion Hd as [|? ? Hd1 Hrest]; subst. cbn in Hd1. rewrite Forall_cons. cbn [fst snd].
    rewrite json_size_children, reference_free_children.
    assert (Hdepth : d - 1 + Z.of_nat (json_depth v) <= 32 <->
      d <= 32 /\ Forall (fun c => d + 1 - 1 + Z.of_nat (json_depth c) <= 32) (children v)).
    { assert (1 <= json_depth v)%nat by (destruct v; cbn; lia). split.
      - intros H1. split; [lia|]. assert (Hm : (json_depth v <= S (Z.to_nat (32 - d)))%nat) by lia.
        apply json_depth_children in Hm. eapply Forall_impl; [exact Hm|]. cbn. lia.
      - intros [H1 H2]. enough (json_depth v <= S (Z.to_nat (32 - d)))%nat by lia. apply json_depth_children.
        eapply Forall_impl; [exact H2|]. cbn. lia. }
    unfold MAX_OPENAPI_NESTING_DEPTH in *. destruct (32 <? d) eqn:E; bool_simpl.
    { split; [done|]. intros (_ & (H1 & _) & _). apply Hdepth in H1. lia. }
    destruct (has_reference v) eqn:Er; [split; [done|]; by intros (_ & (_ & H1) & _)|].
    rewrite IH; [|apply Forall_app; split; [|done]; apply Forall_reverse, Forall_fmap, Forall_true; cbn; lia].
    unfold stack_fits. rewrite stack_size_children, Forall_app, Forall_reverse, Forall_fmap, Hdepth. cbn [negb andb].
    rewrite forallb_Forall. unfold MAX_OPENAPI_NESTING_DEPTH.
    assert (Hsplit : Forall ((fun vd : json * Z => vd.2 - 1 + Z.of_nat (json_depth vd.1) <= 32 /\ reference_free vd.1 = true)
                       ∘ (fun item => (item, d + 1))) (children v) <->
      Forall (fun c => d + 1 - 1 + Z.of_nat (json_depth c) <= 32) (children v) /\ Forall (fun c => reference_free c = true) (children v)).
    { rewrite <- Forall_and. done. }
    rewrite Hsplit. split; intros H; destruct_and!; split_and!; try done; try lia.
Qed.

(** ** Decoding *)

Lemma byte_len_take n s : byte_len (str_take n s) <= Z.of_nat n.
Proof. revert s. induction n as [|n IH]; intros [|c s]; cbn; try lia. specialize (IH s). lia. Qed.
Lemma length_drop n s : (String.length (str_drop n s) = String.length s - n)%nat.
Proof. revert s. induction n as [|n IH]; intros [|c s]; cbn; try lia. apply IH. Qed.

Section decoding_facts.
Context {decoder : Type} (decompressobj : decoder) (decompress : decoder -> string -> Z -> option (string * string * decoder))
  (eof : decoder -> bool) (unused_data : decoder -> string) (flush : decoder -> Z -> option string).

(** What zlib documents of [decompress] on a non-empty chunk: at most [max_length] bytes
    come out, the rest of the chunk is kept, and unless the stream has ended a byte goes in
    or comes out. *)
Definition decompress_documented : Prop := forall d chunk n output tail d',
  1 <= n -> is_empty chunk = false -> decompress d chunk n = Some (output, tail, d') ->
  byte_len output <= n /\ byte_len tail <= byte_len chunk /\
  (byte_len tail < byte_len chunk \/ 1 <= byte_len output \/ eof d' = true).

Definition within_limit (r : result exn (decoder * string)) : Prop :=
  match r with
  | Ok (_, decoded) => byte_len decoded <= MAX_OPENAPI_DECOMPRESSED_BYTES
  | Raise e => exists code, e = OpenAPIParseError code
  end.

Hypothesis Hdoc : decompress_documented.

Lemma decode_chunk_total fuel d chunk pending decoded : byte_len decoded <= MAX_OPENAPI_DECOMPRESSED_BYTES ->
  byte_len chunk + (MAX_OPENAPI_DECOMPRESSED_BYTES - byte_len decoded) < Z.of_nat fuel ->
  exists r, decode_chunk decompress eof unused_data fuel d chunk pending decoded = Some r /\ within_limit r.
Proof.
  revert d chunk decoded. induction fuel as [|fuel IH]; intros d chunk decoded Hlen Hfuel; cbn [decode_chunk];
    (destruct (is_empty chunk) eqn:Hc; [by exists (Ok (d, decoded))|]).
  { pose proof (byte_len_nonneg chunk). lia. }
  destruct (decompress d chunk _) as [[[output tail] d']|] eqn:Ed; [|by eexists; split; [done|]; eexists].
  apply Hdoc in Ed as (H1 & H2 & H3); [|lia | done].
  destruct (_ <? byte_len (decoded +:+ output)) eqn:El; [by eexists; split; [done|]; eexists|]. bool_simpl.
  destruct (eof d'); [by case_if; [eexists; split; [done|]; eexists | exists (Ok (d', decoded +:+ output))]|].
  rewrite byte_len_app in El. pose proof (byte_len_nonneg output).
  apply IH; rewrite byte_len_app; [lia|]. destruct H3 as [H3|[H3|H3]]; [lia..|done].
Qed.

Lemma decode_chunks_total n d pending decoded : byte_len decoded <= MAX_OPENAPI_DECOMPRESSED_BYTES ->
  (String.length pending <= n)%nat ->
  exists r, decode_chunks decompress eof unused_data n d pending decoded = Some r /\ within_limit r.
Proof.
  revert d pending decoded. induction n as [|n IH]; intros d pending decoded Hlen Hn; cbn [decode_chunks];
    (destruct (is_empty pending) eqn:Hp; [by exists (Ok (d, decoded))|]).
  { destruct pending; [done|]. cbn in Hn. lia. }
  destruct (decode_chunk_total chunk_fuel d (str_take CHUNK_BYTES pending) (str_drop CHUNK_BYTES pending) decoded)
    as (r & -> & Hr); [done| |].
  { pose proof (byte_len_take CHUNK_BYTES pending). pose proof (byte_len_nonneg decoded).
    unfold chunk_fuel, CHUNK_BYTES in *. lia. }
  destruct r as [[d' decoded']|e]; [|by exists (Raise e)]. apply IH; [done|]. rewrite length_drop.
  destruct pending; [done|]. cbn [String.length] in *. unfold CHUNK_BYTES. lia.
Qed.

Lemma decode_gzip_total wire : exists r, decode_gzip decompressobj decompress eof unused_data flush wire = Some r /\
  match r with
  | Ok decoded => byte_len decoded <= MAX_OPENAPI_DECOMPRESSED_BYTES
  | Raise e => exists code, e = OpenAPIParseError code
  end.
Proof.
  unfold decode_gzip. destruct (decode_chunks_total (String.length wire) decompressobj wire EmptyString)
    as (r & -> & Hr); [done..|].
  destruct r as [[d decoded]|e]; [|by exists (Raise e)]. destruct (eof d); cbn [negb]; [|by eexists; split; [done|]; eexists].
  destruct (flush d _) as [rest|]; [|by eexists; split; [done|]; eexists].
  destruct (_ <? _) eqn:E; [by eexists; split; [done|]; eexists|]. bool_simpl. by exists (Ok (decoded +:+ rest)).
Qed.
End decoding_facts.

(** ** Parsing *)

(** The operations of a document, in the order of the loops: the path, the parameters of
    its item, the method and the operation. *)
Abbreviation operation_at := (string * list json * string * list (string * json))%type.
Definition operation_of (path : string) (item : list (string * json)) (method : string) : option operation_at :=
  match assoc method item with
  | Some (JObj operation) => Some (path, list_or_empty (assoc "parameters" item), method, operation)
  | _ => None
  end.
Definition operations_of (entry : string * json) : list operation_at :=
  match entry.2 with JObj item => omap (operation_of entry.1 item) SUPPORTED_METHODS | _ => [] end.
Definition operations (paths : list (string * json)) : list operation_at := paths ≫= operations_of.

Definition parses (root : option (list json)) (o : operation_at) (e : ParsedEndpoint) : Prop :=
  parse_operation root o.1.1.1 o.1.1.2 o.1.2 o.2 = Ok e.

Lemma parse_methods_ok root path item methods acc endpoints : Z.of_nat (length acc) <= MAX_OPENAPI_ENDPOINTS ->
  parse_methods root path item methods acc = Ok endpoints <->
  exists es, endpoints = acc ++ es /\ Forall2 (parses root) (omap (operation_of path item) methods) es /\
    Z.of_nat (length endpoints) <= MAX_OPENAPI_ENDPOINTS.
Proof.
  revert acc. induction methods as [|m methods IH]; intros acc Hacc; cbn [parse_methods omap list_omap].
  { split; [intros [= <-]; exists []; by rewrite app_nil_r|].
    intros (es & -> & Hes & _). inversion Hes; subst. by rewrite app_nil_r. }
  assert (Hskip : operation_of path item m = None ->
    parse_methods root path item methods acc = Ok endpoints <->
    exists es, endpoints = acc ++ es /\
      Forall2 (parses root) (match operation_of path item m with Some y => y :: omap (operation_of path item) methods | None => omap (operation_of path item) methods end) es /\
      Z.of_nat (length endpoints) <= MAX_OPENAPI_ENDPOINTS) by (intros ->; by apply IH).
  unfold operation_of in Hskip at 1 2 |- * at 1. destruct (assoc m item) as [[| | | | | |operation]|]; try by apply Hskip.
  clear Hskip. rewrite guard_bind_ok, bind_ok. split.
  - intros (Hlt & e & He & Hrest). bool_simpl. apply IH in Hrest as (es & -> & Hes & Hn); [|rewrite length_app; cbn; lia].
    exists (e :: es). rewrite <- app_assoc in *. split_and!; [done | by constructor | done].
  - intros (es & -> & Hes & Hn). inversion Hes as [|? e ? es' He Hes']; subst. rewrite length_app in Hn. cbn in Hn.
    split; [apply Z.ltb_lt; lia|]. exists e. split; [exact He|]. apply IH; [rewrite length_app; cbn; lia|].
    exists es'. rewrite <- app_assoc. split_and!; [done..|]. rewrite length_app. cbn. lia.
Qed.

Lemma parse_paths_ok root paths acc endpoints : Z.of_nat (length acc) <= MAX_OPENAPI_ENDPOINTS ->
  parse_paths root paths acc = Ok endpoints <->
  Forall (fun entry => str_len entry.1 <= MAX_OPENAPI_PATH_LENGTH) paths /\
  exists es, endpoints = acc ++ es /\ Forall2 (parses root) (operations paths) es /\
    Z.of_nat (length endpoints) <= MAX_OPENAPI_ENDPOINTS.
Proof.
  revert acc. induction paths as [|[path item] paths IH]; intros acc Hacc; cbn [parse_paths].
  { split; [intros [= <-]; split; [constructor|]; exists []; by rewrite app_nil_r|].
    intros (_ & es & -> & Hes & _). inversion Hes; subst. by rewrite app_nil_r. }
  rewrite guard_bind_ok, Forall_cons, Z.leb_le. cbn [fst].
  change (operations ((path, item) :: paths)) with (operations_of (path, item) ++ operations paths).
  destruct item as [| | | | | |o]; cbn [operations_of snd fst app]; try (rewrite (IH acc Hacc); naive_solver).
  rewrite bind_ok. split.
  - intros (Hp & mid & Hmid & Hrest). apply parse_methods_ok in Hmid as (es & -> & Hes & Hn); [|done].
    apply IH in Hrest as (Hall & es' & -> & Hes' & Hn'); [|done]. split; [done|]. exists (es ++ es').
    rewrite app_assoc. split_and!; [done | by apply Forall2_app | done].
  - intros ([Hp Hall] & es & -> & Hes & Hn). apply Forall2_app_inv_l in Hes as (es1 & es2 & H1 & H2 & ->).
    split; [done|]. rewrite !length_app in Hn. exists (acc ++ es1). split.
    + apply parse_methods_ok; [done|]. exists es1. split_and!; [done..|]. rewrite length_app. lia.
    + apply IH; [rewrite length_app; lia|]. split; [done|]. exists es2. rewrite app_assoc. split_and!; [done..|].
      rewrite !length_app. lia.
Qed.

Lemma operations_of_path entry o : o ∈ operations_of entry -> o.1.1.1 = entry.1.
Proof.
  unfold operations_of. destruct entry.2 as [| | | | | |item]; try by intros H%elem_of_nil.
  intros (m & _ & Hm)%list_elem_of_omap. unfold operation_of in Hm. destruct (assoc m item) as [[]|]; by simplify_eq.
Qed.

Lemma operations_keys paths : NoDup paths.*1 ->
  NoDup ((fun o : operation_at => (o.1.1.1, upper o.1.2)) <$> operations paths).
Proof.
  induction paths as [|[path item] paths IH]; intros Hnd; [constructor|]. cbn in Hnd. apply NoDup_cons in Hnd as [Hnew Hnd].
  change (operations ((path, item) :: paths)) with (operations_of (path, item) ++ operations paths).
  rewrite fmap_app. apply NoDup_app. split_and!; [|clear IH|by apply IH].
  - destruct item as [| | | | | |o]; try constructor. cbn. unfold operation_of.
    apply (sublist_NoDup _ (pair path <$> ["GET"; "POST"; "PATCH"; "DELETE"])).
    + apply (NoDup_fmap_2 (pair path)), (bool_decide_unpack _). vm_compute. exact I.
    + repeat match goal with |- context [assoc ?m o] => destruct (assoc m o) as [[]|]; cbn end; by repeat constructor.
  - intros [p m] Hin Hin'. apply list_elem_of_fmap in Hin as ([[[p1 q1] m1] o1] & [= -> ->] & Hin).
    apply list_elem_of_fmap in Hin' as ([[[p2 q2] m2] o2] & [= -> _] & Hin').
    unfold operations in Hin'. apply list_elem_of_bind in Hin' as ([p3 i3] & H3 & Hp3).
    assert (p2 = p3 /\ p2 = path) as [-> <-].
    { split; [by apply operations_of_path in H3 | by apply operations_of_path in Hin]. }
    apply Hnew, list_elem_of_fmap. by exists (p3, i3).
Qed.

(** The endpoints of a parsed document have distinct paths and methods. *)
Lemma parsed_operation root o e : parses root o e -> (parsed_path e, parsed_method e) = (o.1.1.1, upper o.1.2) /\
  Z.of_nat (length (parsed_parameters e)) <= MAX_OPENAPI_PARAMETERS_PER_ENDPOINT.
Proof.
  intros H. unfold parses, parse_operation in H. rewrite !guard_bind_ok in H.
  destruct H as (Hp & _ & [= <-]). by bool_simpl.
Qed.
Lemma parsed_keys_distinct root paths es : NoDup paths.*1 -> Forall2 (parses root) (operations paths) es ->
  NoDup ((fun e => (parsed_path e, parsed_method e)) <$> es).
Proof.
  intros Hnd Hes. enough (Heq : (fun e => (parsed_path e, parsed_method e)) <$> es
    = (fun o : operation_at => (o.1.1.1, upper o.1.2)) <$> operations paths) by (rewrite Heq; by apply operations_keys).
  clear Hnd. induction Hes as [|o e os es Ho _ IH]; [done|]. cbn. f_equal; [by apply (parsed_operation root) | done].
Qed.
Lemma member_keys_distinct k schema o : json_wf (JObj schema) = true -> assoc k schema = Some (JObj o) -> NoDup o.*1.
Proof.
  intros Hkeys Ha%assoc_elem%list_elem_of_In. cbn in Hkeys. bool_simpl. rewrite forallb_forall in *.
  match goal with Hf : forall x, _ -> _ |- _ => specialize (Hf _ Ha) end. cbn in *. by bool_simpl.
Qed.
Lemma parse_openapi_schema_ok schema endpoints : json_wf (JObj schema) = true ->
  parse_openapi_schema schema = Ok endpoints <->
  exists paths root, assoc "paths" schema = Some (JObj paths) /\ NoDup paths.*1 /\
    Z.of_nat (length paths) <= MAX_OPENAPI_PATHS /\
    match assoc "security" schema with None | Some JNull => root = None | Some (JArr l) => root = Some l | _ => False end /\
    Forall (fun entry => str_len entry.1 <= MAX_OPENAPI_PATH_LENGTH) paths /\
    Z.of_nat (length endpoints) <= MAX_OPENAPI_ENDPOINTS /\ Forall2 (parses root) (operations paths) endpoints.
Proof.
  intros Hkeys.
  assert (Hroot : forall s root, match s with None | Some JNull => Ok None | Some (JArr l) => Ok (Some l)
      | Some _ => Raise (ParseValueError "OpenAPI root security must be a list") end = Ok root <->
    match s with None | Some JNull => root = None | Some (JArr l) => root = Some l | _ => False end).
  { intros [[]|] root; naive_solver. }
  unfold parse_openapi_schema. split.
  - intros H. apply bind_ok in H as (paths & Hp & H). apply guard_bind_ok in H as [Hlen H].
    apply bind_ok in H as (root & Hr & H). apply Hroot in Hr. bool_simpl.
    destruct (assoc "paths" schema) as [[| | | | | |paths']|] eqn:Ea; try done. injection Hp as ->.
    apply parse_paths_ok in H as (Hall & es & -> & Hes & Hn); [|done]. exists paths, root.
    pose proof (member_keys_distinct _ _ _ Hkeys Ea). by split_and!.
  - intros (paths & root & -> & _ & Hlen & Hr & Hall & Hn & Hes). apply Hroot in Hr. cbn [mbind result_bind].
    apply guard_bind_ok. split; [by apply Z.leb_le|]. rewrite Hr. cbn [mbind result_bind].
    apply parse_paths_ok; [done|]. split; [done|]. by exists endpoints.
Qed.

(** ** Well-formed endpoints *)

Definition endpoint_wf (e : ParsedEndpoint) : bool :=
  forallb json_wf (parsed_parameters e)
  && match parsed_request_body e with Some b => json_wf b | None => true end
  && match parsed_security e with Some l => forallb json_wf l | None => true end.

Lemma merge_step_Forall (P : json -> Prop) st p : Forall P st.1 -> P p -> Forall P (merge_step st p).1.
Proof.
  intros Hst Hp. unfold merge_step. destruct st as [merged positions]. cbn in *. destruct (negb (is_object p)); [done|].
  assert (Forall P (merged ++ [p])) by (apply Forall_app; auto).
  destruct (parameter_key p) as [key|]; [|done]. destruct (positions !! key); [by apply Forall_insert | done].
Qed.
Lemma merge_Forall (P : json -> Prop) a b : Forall P a -> Forall P b -> Forall P (merge_parameters a b).
Proof.
  intros Ha Hb. unfold merge_parameters. assert (Hl : Forall P (a ++ b)) by by apply Forall_app.
  assert (H : Forall P (([], ∅) : list json * gmap (string * string) nat).1) by done. revert Hl H. generalize (([], ∅) : list json * gmap (string * string) nat).
  induction (a ++ b) as [|p l IH]; intros st Hl Hst; [done|]. inversion Hl; subst. apply IH; [done|]. by apply merge_step_Forall.
Qed.

Lemma list_member_wf k o : json_wf (JObj o) = true -> forallb json_wf (list_or_empty (assoc k o)) = true.
Proof. intros Hwf. destruct (assoc k o) as [v|] eqn:E; [|done]. apply json_wf_member in E; [|done]. by destruct v. Qed.

Lemma parsed_endpoints_wf schema endpoints : json_wf (JObj schema) = true ->
  parse_openapi_schema schema = Ok endpoints -> forall e, e ∈ endpoints -> endpoint_wf e = true.
Proof.
  intros Hwf (paths & root & Hp & _ & _ & Hr & _ & _ & Hes)%parse_openapi_schema_ok; [|done]. intros e He.
  apply (json_wf_member _ _ _ Hwf) in Hp.
  assert (Hroot : match root with Some l => forallb json_wf l = true | None => True end).
  { destruct (assoc "security" schema) as [[| | | | |l|]|] eqn:E; try done; subst root; [done| |done].
    by apply (json_wf_member _ _ _ Hwf) in E. }
  apply list_elem_of_lookup in He as [i He].
  apply (Forall2_lookup_r _ _ _ _ _ Hes) in He as (o & Ho & Hpar).
  apply list_elem_of_lookup_2, list_elem_of_bind in Ho as ([path item] & Ho & Hin).
  assert (Hitem : json_wf item = true) by (cbn in Hp; bool_simpl; by eapply (forallb_elem (fun kv => json_wf kv.2)) in Hin).
  unfold operations_of in Ho. destruct item as [| | | | | |item]; try by apply elem_of_nil in Ho.
  cbn [snd fst] in Ho. apply list_elem_of_omap in Ho as (m & _ & Hm). unfold operation_of in Hm.
  destruct (assoc m item) as [[| | | | | |operation]|] eqn:Hop; try done. injection Hm as <-.
  apply (json_wf_member _ _ _ Hitem) in Hop. unfold parses, parse_operation in Hpar. cbn [fst snd] in Hpar.
  rewrite !guard_bind_ok in Hpar. destruct Hpar as (_ & _ & [= <-]). unfold endpoint_wf.
  cbn [parsed_parameters parsed_request_body parsed_security]. rewrite !andb_true_iff. split_and!.
  - apply forallb_Forall, merge_Forall; apply forallb_Forall; by apply list_member_wf.
  - destruct (assoc "requestBody" operation) as [[]|] eqn:E; try done. by apply (json_wf_member _ _ _ Hop) in E.
  - destruct (assoc "security" operation) as [[]|] eqn:E; try done; [|by destruct root]. by apply (json_wf_member _ _ _ Hop) in E.
Qed.

(** * Properties *)

(** An operation's parameters override those of its path in place: the merged list has
    one parameter for every name and location, in the order of their first occurrence; it
    is the last one given for that name and location; and parameters without a name or
    location are kept as they are. *)
Theorem merge_parameters_exact path_parameters operation_parameters :
  let given := objects (path_parameters ++ operation_parameters) in
  let merged := merge_parameters path_parameters operation_parameters in
  parameter_key <$> merged = first_occurrences (parameter_key <$> given) /\
  unkeyed merged = unkeyed given /\
  (forall p key, p ∈ merged -> parameter_key p = Some key -> last_with key given = Some p) /\
  NoDup (omap parameter_key merged).
Proof.
  intros given merged.
  assert (Hobj : Forall (fun p => is_object p = true) given).
  { apply Forall_forall. intros p. unfold given, objects. rewrite list_elem_of_filter. tauto. }
  destruct (merge_invariant_holds given Hobj) as (I1 & I2 & I3 & I4).
  assert (Hm : merged = (foldl merge_step ([], ∅) given).1) by (unfold merged, merge_parameters; by rewrite merge_objects).
  rewrite Hm. split_and!; [done | done | |].
  - intros p key [i Hi]%list_elem_of_lookup Hk. by eapply I4.
  - generalize dependent (foldl merge_step ([], ∅) given). intros [m positions] I1 I2 I3 I4 _. cbn [fst snd] in *.
    assert (Huniq : forall i j p q key, m !! i = Some p -> m !! j = Some q -> parameter_key p = Some key ->
      parameter_key q = Some key -> i = j).
    { intros i j p q key Hi Hj Hp Hq. assert (positions !! key = Some i) by (apply I3; eauto).
      assert (positions !! key = Some j) by (apply I3; eauto). congruence. }
    clear -Huniq. induction m as [|p m IH]; [constructor|]. cbn.
    assert (NoDup (omap parameter_key m)).
    { apply IH. intros i j a b key Hi Hj Ha Hb. specialize (Huniq (S i) (S j) a b key Hi Hj Ha Hb). congruence. }
    destruct (parameter_key p) as [key|] eqn:Hk; [|done]. constructor; [|done].
    intros (q & Hq & Hqk)%list_elem_of_omap. apply list_elem_of_lookup in Hq as [i Hi].
    specialize (Huniq 0%nat (S i) p q key eq_refl Hi Hk Hqk). congruence.
Qed.

(** A document passes the structure check exactly when it is at most 32 levels deep, has
    at most 20000 values and no object of it has a [$ref]. The check always ends: it visits
    at most that many values, whatever the document. *)
Theorem structure_check_exact document :
  validate_openapi_structure document = Ok tt <->
  (json_depth document <= 32)%nat /\ (json_size document <= MAX_OPENAPI_STRUCTURE_NODES)%nat /\
  reference_free document = true.
Proof.
  unfold validate_openapi_structure. rewrite visit_nodes_ok by (by repeat constructor).
  unfold stack_fits, MAX_OPENAPI_NESTING_DEPTH. rewrite Forall_singleton. cbn [sum_list_with fst snd].
  split; intros H; destruct_and!; split_and!; try done; lia.
Qed.

(** Decoding always ends, with a body of at most a megabyte or with a parse error: no
    document decompresses to more, however small it is; an uncompressed body is returned as
    it is, and only the two encodings are accepted. *)
Theorem decoding_bounded {decoder : Type} (start : decoder) decompress eof unused_data flush wire encoding
    (Hzlib : decompress_documented decompress eof) :
  exists r, decode_openapi_document start decompress eof unused_data flush wire encoding = Some r /\
  match r with
  | Ok (normalized, body) =>
      byte_len body <= MAX_OPENAPI_DECOMPRESSED_BYTES /\ (normalized = "identity" /\ body = wire \/ normalized = "gzip")
  | Raise e => exists code, e = OpenAPIParseError code
  end.
Proof.
  unfold decode_openapi_document. generalize (match encoding with None => "identity" | Some e => lower (strip e) end).
  intros normalized. destruct (negb _) eqn:E; [by eexists; split; [done|]; eexists|].
  apply negb_false_iff, orb_true_iff in E. rewrite !bool_decide_eq_true in E. case_bool_decide as Hi.
  - eexists. split; [done|]. case_if; bool_simpl; [by eexists|]. split; [lia | by left].
  - destruct E as [? | ->]; [done|].
    destruct (decode_gzip_total start decompress eof unused_data flush Hzlib wire) as (r & -> & Hr).
    destruct r as [body|e]; [by eexists; split; [done|]; split; [|right]|by eexists; split].
Qed.

(** Parsing is exact and bounded: a document is accepted exactly when its [paths] is an
    object of at most 2000 members with keys of at most 500 characters, its root security is
    absent or a list, it has at most 4000 operations under supported methods of path objects,
    and each of them parses; the result is then the endpoints of these operations, in order,
    one for each path and method, with at most 128 parameters. *)
Theorem parsing_exact schema endpoints (Hkeys : json_wf (JObj schema) = true) :
  parse_openapi_schema schema = Ok endpoints <->
  exists paths root, assoc "paths" schema = Some (JObj paths) /\
    Z.of_nat (length paths) <= MAX_OPENAPI_PATHS /\
    match assoc "security" schema with None | Some JNull => root = None | Some (JArr l) => root = Some l | _ => False end /\
    Forall (fun entry => str_len entry.1 <= MAX_OPENAPI_PATH_LENGTH) paths /\
    Z.of_nat (length endpoints) <= MAX_OPENAPI_ENDPOINTS /\
    Forall2 (parses root) (operations paths) endpoints /\
    NoDup ((fun e => (parsed_path e, parsed_method e)) <$> endpoints) /\
    Forall (fun e => Z.of_nat (length (parsed_parameters e)) <= MAX_OPENAPI_PARAMETERS_PER_ENDPOINT) endpoints.
Proof.
  rewrite parse_openapi_schema_ok by done. split.
  - intros (paths & root & Hp & Hnd & Hlen & Hr & Hall & Hn & Hes). exists paths, root. split_and!; try done.
    + by eapply parsed_keys_distinct.
    + clear -Hes. induction Hes as [|o e os es Ho _ IH]; constructor; [by apply (parsed_operation root o) | done].
  - intros (paths & root & Hp & Hlen & Hr & Hall & Hn & Hes & _). exists paths, root. split_and!; try done.
    by eapply member_keys_distinct.
Qed.

(** * Witnesses *)

(** A decoder that copies: the stream ends when a chunk is used up. *)
Definition copy_decompress (d : bool) (chunk : string) (n : Z) : option (string * string * bool) :=
  let tail := str_drop (Z.to_nat n) chunk in Some (str_take (Z.to_nat n) chunk, tail, is_empty tail).
Definition copy_eof (d : bool) : bool := d.

Lemma byte_len_drop n s : byte_len (str_drop n s) <= byte_len s.
Proof. revert s. induction n as [|n IH]; intros [|c s]; cbn; try lia. specialize (IH s). lia. Qed.

Lemma copy_documented : decompress_documented copy_decompress copy_eof.
Proof.
  intros d chunk n output tail d' Hn Hc [= <- <- <-]. split_and!.
  - pose proof (byte_len_take (Z.to_nat n) chunk). lia.
  - apply byte_len_drop.
  - destruct chunk as [|c chunk]; [done|]. destruct (Z.to_nat n) as [|m] eqn:E; [lia|]. cbn.
    pose proof (byte_len_drop m chunk). left. lia.
Qed.

Lemma decoding_bounded_witness :
  decode_openapi_document false copy_decompress copy_eof (fun _ => EmptyString) (fun _ _ => Some EmptyString)
    "{}" (Some " GZIP ") = Some (Ok ("gzip", "{}")) /\
  exists r, decode_openapi_document false copy_decompress copy_eof (fun _ => EmptyString) (fun _ _ => Some EmptyString)
    "{}" (Some " GZIP ") = Some r /\
  match r with
  | Ok (normalized, body) =>
      byte_len body <= MAX_OPENAPI_DECOMPRESSED_BYTES /\ (normalized = "identity" /\ body = "{}" \/ normalized = "gzip")
  | Raise e => exists code, e = OpenAPIParseError code
  end.
Proof.
  split; [vm_compute; reflexivity|].
  exact (decoding_bounded false copy_decompress copy_eof (fun _ => EmptyString) (fun _ _ => Some EmptyString)
    "{}" (Some " GZIP ") copy_documented).
Defined.

(** A document with a path parameter that the operation overrides. *)
Definition lab_parameter (required : bool) : json :=
  JObj [("name", JStr "order_id"); ("in", JStr "path"); ("required", JBool required)].
Definition lab_schema : list (string * json) :=
  [("security", JArr [JObj [("bearer", JArr [])]]);
   ("paths", JObj [("/api/orders/{order_id}",
      JObj [("parameters", JArr [lab_parameter true]);
            ("delete", JObj [("security", JArr [])]);
            ("get", JObj [("operationId", JStr "read"); ("parameters", JArr [lab_parameter false])])])])].
Definition lab_endpoints : list ParsedEndpoint :=
  [mkParsed "/api/orders/{order_id}" "GET" (Some "read") true [lab_parameter false] None
     (Some [JObj [("bearer", JArr [])]]);
   mkParsed "/api/orders/{order_id}" "DELETE" None false [lab_parameter true] None (Some [])].

Lemma parsing_exact_witness :
  json_wf (JObj lab_schema) = true /\ exists paths root, assoc "paths" lab_schema = Some (JObj paths) /\
    Forall2 (parses root) (operations paths) lab_endpoints.
Proof.
  split; [vm_compute; reflexivity|].
  destruct (proj1 (parsing_exact lab_schema lab_endpoints ltac:(vm_compute; reflexivity)) ltac:(vm_compute; reflexivity))
    as (paths & root & Hp & _ & _ & _ & _ & Hf & _).
  by exists paths, root.
Defined.
