(* ===== verification/HttpExecutor.v ===== *)
(** The policy-enforced executor, src/backend/app/executors/http.py.

    [execute] is written against the services it is given ([ExecutorServices]: the
    policy engine's clock, the rate limiter, the network gateway) and the callbacks of its
    caller, so that every caller's program is an instance of the same definition. *)

From S2P Require Import Prelude.
From S2P Require Import PyStr.
From S2P Require Import PyFloat.
From S2P Require Import Models.
From S2P Require Import Samples.
From S2P Require Import ScopePolicy.
From S2P Require Import Destination.
From S2P Require Import Gateway.
From S2P Require Import Effects.

Open Scope Z_scope.

Definition AUTO_EXECUTABLE_METHODS : list string := ["GET"].
Definition MAX_RESPONSE_BYTES : Z := 1000000.
Definition RESEARCH_RESPONSE_BYTES : Z := 16384.
Definition REQUEST_TIMEOUT : float := float_of_Z 5.

(** [HTTPExecutionResult] *)
Record HTTPExecutionResult := mkHTTPResult {
  http_status_code : Z;
  http_body : string;
  http_duration_ms : Z;
  http_content_type : option string;
  http_content_encoding : option string
}.

(** The keyword arguments of [NetworkGateway.request]; [with_boundary] tells whether a
    request boundary is passed. *)
Record GatewayRequest := mkRequest {
  request_target_id : Z;
  request_network_mode : string;
  request_method : string;
  request_target_url : string;
  request_headers : list (string * string);
  max_response_bytes : Z;
  timeout_seconds : float;
  with_boundary : bool
}.

Abbreviation authorization := (Target * option AuthorizationRevision * list Scope)%type.

Definition rate_key (target_id : Z) : string := "target:" +:+ str_of_Z target_id.
Definition requested_rate (r : AuthorizationRevision) (limit : option float) : float :=
  match limit with
  | Some limit => pymin (max_requests_per_second r) limit
  | None => max_requests_per_second r
  end.

(** [method.strip().upper()] *)
Definition normalized (method : string) : string := upper (strip method).

Section executor.
Context {call : Type} {Icall : Interface call} {S : Type}.

Record ExecutorServices := mkServices {
  policy_clock : M call S timestamp;
  rate_limiter_wait : string -> float -> M call S unit;
  network_gateway_request : GatewayRequest -> M call S NetworkGatewayResult
}.

Definition blocked {A} (code reason : string) : M call S A := raise (ExecutionBlockedError code reason).
Definition block_unless (b : bool) (code reason : string) : M call S unit :=
  if b then mret tt else blocked code reason.

Definition observe_policy_decision (decision : PolicyDecision)
    (observer : option (PolicyDecision -> M call S unit)) : M call S unit :=
  match observer with
  | None => blocked "safety_audit_observer_missing" "Required safety audit observer is unavailable."
  | Some observe =>
      try_except (observe decision) (fun e =>
        match e with
        | ExecutionBlockedError _ _ => None
        | _ => if is_exception e then
                 Some (blocked "safety_audit_persistence_failed"
                         "Required safety audit record could not be persisted.")
               else None
        end)
  end.

Definition raise_if_denied (decision : PolicyDecision) : M call S unit :=
  block_unless (allowed decision) (code decision) (reason decision).

Section execute.
Variable hosts : list string.
Variable services : ExecutorServices.
Variable url method : string.

(** [self.policy_engine.evaluate(...)] at the engine's clock *)
Definition evaluate_now (a : authorization) : M call S PolicyDecision :=
  t ← policy_clock services;
  lift (match evaluate hosts a.1.1 a.1.2 a.2 url (normalized method) None t with
        | Ok d => Ok d
        | Raise _ => Raise OtherException
        end).

Definition wait_for_rate (target_id : Z) (revision : option AuthorizationRevision)
    (requested_rate_limit : option float) : M call S unit :=
  try_except
    (match revision with
     | None => raise OtherException
     | Some r =>
         rate_limiter_wait services (rate_key target_id) (requested_rate r requested_rate_limit)
     end)
    (fun e => match e with
              | RateLimitConfigurationError =>
                  Some (blocked "invalid_authorization_rate_limit"
                    "AuthorizationRevision request rate limit must be finite and greater than zero.")
              | RateLimitCoordinationError =>
                  Some (blocked "shared_rate_coordination_failed" "Shared request rate coordination failed.")
              | _ => None
              end).

Definition same_revision (selected : option Z) (a : authorization) : bool :=
  bool_decide (target_authorization_revision_id a.1.1 = selected)
  && match a.1.2 with Some r => bool_decide (Some (revision_id r) = selected) | None => false end.

Definition send (target : Target) (headers : list (string * string)) (boundary : bool)
    : M call S HTTPExecutionResult :=
  result ← try_except
    (network_gateway_request services
       (mkRequest (target_id target) (network_mode target) (normalized method) url headers
          (if boundary then RESEARCH_RESPONSE_BYTES else MAX_RESPONSE_BYTES) REQUEST_TIMEOUT boundary))
    (fun e => match e with
              | GatewayFailure code reason => Some (raise (HTTPExecutionError (code +:+ ": " +:+ reason)))
              | _ => None
              end);
  mret (mkHTTPResult (status_code result) (gateway_body result) (gateway_duration_ms result)
          (content_type result) (content_encoding result)).

(** [PolicyEnforcedHTTPExecutor.execute]; [boundary] tells whether a request boundary is
    passed. *)
Definition execute (a : authorization) (headers : list (string * string))
    (refresh_authorization : option (M call S authorization))
    (policy_decision_observer : option (PolicyDecision -> M call S unit))
    (before_network : option (M call S unit)) (boundary : bool)
    (requested_rate_limit : option float) : M call S HTTPExecutionResult :=
  _ ← block_unless (bool_decide (normalized method ∈ AUTO_EXECUTABLE_METHODS))
        "automatic_method_blocked" "Automatic execution is currently limited to GET requests.";
  decision ← evaluate_now a;
  _ ← (if negb (allowed decision) then
         _ ← observe_policy_decision decision policy_decision_observer;
         raise_if_denied decision
       else mret tt);
  refresh ← match refresh_authorization with
            | Some refresh => mret refresh
            | None => blocked "authorization_refresh_missing"
                        "Persisted authorization refresh is required before network execution."
            end;
  let selected_revision_id := decision_revision_id decision in
  _ ← wait_for_rate (target_id a.1.1) a.1.2 requested_rate_limit;
  a' ← refresh;
  _ ← block_unless (same_revision selected_revision_id a') "authorization_revision_changed"
        "Target authorization revision changed before execution.";
  decision' ← evaluate_now a';
  _ ← observe_policy_decision decision' policy_decision_observer;
  _ ← raise_if_denied decision';
  _ ← block_unless (bool_decide (network_mode a'.1.1 = PRIVATE_LOCAL)) "external_network_mode_not_ready"
        "External/public-authorized network execution is not available until the remaining release gates exist.";
  _ ← match before_network with
      | Some before => if boundary then mret tt else before
      | None => mret tt
      end;
  send a'.1.1 headers boundary.
End execute.
End executor.

Arguments ExecutorServices call {_} S.

(** * The executor by itself

    Every service and callback is one call of the environment. *)

Inductive executor_call : Type :=
| ReadClock
| WaitRate (key : string) (rate : float)
| RefreshAuthorization
| ObserveDecision (d : PolicyDecision)
| BeforeNetwork
| SendRequest (r : GatewayRequest).

#[export] Instance executor_interface : Interface executor_call := fun c =>
  match c with
  | ReadClock => timestamp
  | RefreshAuthorization => authorization
  | SendRequest _ => NetworkGatewayResult
  | WaitRate _ _ | ObserveDecision _ | BeforeNetwork => unit
  end.

Definition single_services : ExecutorServices executor_call unit :=
  mkServices (perform ReadClock) (fun k r => perform (WaitRate k r)) (fun r => perform (SendRequest r)).

Definition execute_alone (hosts : list string) (url method : string) (a : authorization)
    (headers : list (string * string)) (rate : option float) : M executor_call unit HTTPExecutionResult :=
  execute hosts single_services url method a headers (Some (perform RefreshAuthorization))
    (Some (fun d => perform (ObserveDecision d))) (Some (perform BeforeNetwork)) false rate.

Definition executor_run (env : environment executor_call) hosts url method a headers rate
    : list (event executor_call) * result exn HTTPExecutionResult :=
  let '(evs, (r, _)) := run env (execute_alone hosts url method a headers rate tt) [] in (evs, r).

Definition is_send (e : event executor_call) : bool :=
  match event_call e with SendRequest _ => true | _ => false end.

(** The one sequence of events that reaches the network. *)
Definition sending_trace (hosts : list string) (url : string) (a : authorization)
    (headers : list (string * string)) (limit : option float) (evs : list (event executor_call))
    (answer : result exn NetworkGatewayResult) : Prop :=
  exists t1 d1 r0 a' r' t2 d2,
    evs = [Event ReadClock (Ok t1);
           Event (WaitRate (rate_key (target_id a.1.1)) (requested_rate r0 limit)) (Ok tt);
           Event RefreshAuthorization (Ok a');
           Event ReadClock (Ok t2);
           Event (ObserveDecision d2) (Ok tt);
           Event BeforeNetwork (Ok tt);
           Event (SendRequest (mkRequest (target_id a'.1.1) PRIVATE_LOCAL "GET" url headers
                                 MAX_RESPONSE_BYTES REQUEST_TIMEOUT false)) answer] /\
    evaluate hosts a.1.1 a.1.2 a.2 url "GET" None t1 = Ok d1 /\ allowed d1 = true /\
    evaluate hosts a'.1.1 a'.1.2 a'.2 url "GET" None t2 = Ok d2 /\ allowed d2 = true /\
    a.1.2 = Some r0 /\ a'.1.2 = Some r' /\ revision_id r' = revision_id r0 /\
    target_authorization_revision_id a'.1.1 = Some (revision_id r0) /\ network_mode a'.1.1 = PRIVATE_LOCAL.

(** What every run satisfies: a request is sent in that sequence only, and the executor
    returns a response exactly when the gateway did. *)
Definition executor_sound (hosts : list string) (url : string) (a : authorization)
    (headers : list (string * string)) (limit : option float) (evs : list (event executor_call))
    (res : result exn HTTPExecutionResult) : Prop :=
  match res with
  | Ok response => exists g, sending_trace hosts url a headers limit evs (Ok g) /\
      http_status_code response = status_code g /\ http_body response = gateway_body g
  | Raise _ => Forall (fun e => is_send e = false) evs \/ exists e, sending_trace hosts url a headers limit evs (Raise e)
  end.

(** * Lemmas *)

Lemma evaluate_allowed_revision hosts target revision scopes url method time now d :
  evaluate hosts target revision scopes url method time now = Ok d -> allowed d = true ->
  exists r, revision = Some r /\ decision_revision_id d = Some (revision_id r).
Proof.
  unfold evaluate. destruct (match time with Some t => t | None => Aware now end) as [|t]; [done|].
  destruct revision as [r|].
  - intros Hd _. exists r. split; [done|]. destruct (_ ≫= _) as [[[o m] p]|[e|[c msg]]]; [|done|].
    + destruct (find_first _ _); by injection Hd as <-.
    + by injection Hd as <-.
  - intros Hd Ha. unfold authorization_gate in Hd. destruct (is_enabled target); [|by injection Hd as <-].
    destruct (target_authorization_revision_id target); by injection Hd as <-.
Qed.

Section alone.
Context {A : Type} (Q : result exn A -> unit -> list (event executor_call) -> Prop).
Abbreviation verified_alone m w := (verified record_events (fun _ => True) m Q tt w).

(** A failing call ends in an exception. *)
Definition may_fail (w : list (event executor_call)) : Prop :=
  forall ev e, is_send ev = false -> Q (Raise e) tt (w ++ [ev]).

Lemma block_unless_verified (b : bool) c m (k : unit -> M executor_call unit A) w :
  (b = true -> verified_alone (k tt) w) -> (b = false -> forall e, Q (Raise e) tt w) ->
  verified_alone (block_unless b c m ≫= k) w.
Proof. intros H1 H2. apply verified_bind. destruct b; [by apply H1 | by apply H2]. Qed.

Lemma perform_verified c (k : answer c -> M executor_call unit A) w :
  is_send (Event c (Raise OtherException)) = false -> may_fail w ->
  (forall x, verified_alone (k x) (w ++ [Event c (Ok x)])) -> verified_alone (perform c ≫= k) w.
Proof. intros Hs Hf Hk. apply verified_bind, verified_perform. intros [x|e] _; cbn; [apply Hk | by apply Hf]. Qed.

Lemma evaluate_verified hosts url method a (k : PolicyDecision -> M executor_call unit A) w : may_fail w ->
  (forall t d, evaluate hosts a.1.1 a.1.2 a.2 url (normalized method) None t = Ok d ->
     verified_alone (k d) (w ++ [Event ReadClock (Ok t)])) ->
  verified_alone (evaluate_now hosts single_services url method a ≫= k) w.
Proof.
  intros Hf Hk. apply verified_bind. unfold evaluate_now. apply verified_bind.
  intros [t|e] _; [|by apply Hf]. apply verified_lift.
  destruct (evaluate _ _ _ _ _ _ _ _) as [d|] eqn:E; [by apply Hk | by apply Hf].
Qed.

Lemma observe_verified d (k : unit -> M executor_call unit A) w : may_fail w ->
  verified_alone (k tt) (w ++ [Event (ObserveDecision d) (Ok tt)]) ->
  verified_alone (observe_policy_decision d (Some (fun d => perform (ObserveDecision d))) ≫= k) w.
Proof.
  intros Hf Hk. apply verified_bind. unfold observe_policy_decision. apply verified_try.
  intros [[]|e] _; [done|]. destruct e; by apply Hf.
Qed.

Lemma wait_verified t r limit (k : unit -> M executor_call unit A) w : may_fail w ->
  verified_alone (k tt) (w ++ [Event (WaitRate (rate_key t) (requested_rate r limit)) (Ok tt)]) ->
  verified_alone (wait_for_rate single_services t (Some r) limit ≫= k) w.
Proof.
  intros Hf Hk. apply verified_bind. unfold wait_for_rate. apply verified_try.
  intros [[]|e] _; [done|]. destruct e; by apply Hf.
Qed.
End alone.

Lemma unsent_may_fail hosts url a headers limit w : Forall (fun e => is_send e = false) w ->
  may_fail (fun (r : result exn HTTPExecutionResult) _ w => executor_sound hosts url a headers limit w r) w.
Proof. intros Hw ev e He. left. apply Forall_app. split; [done|]. by constructor. Qed.

Ltac unsent := first [apply unsent_may_fail; by repeat constructor | left; by repeat constructor].

(** The first half: up to the refresh, with a decision that allows the request. *)
Lemma execute_alone_verified hosts url method a headers limit :
  verified record_events (fun _ => True) (execute_alone hosts url method a headers limit)
    (fun r _ w => executor_sound hosts url a headers limit w r) tt [].
Proof.
  unfold execute_alone, execute. apply block_unless_verified; [intros Hm | by left].
  assert (Hget : normalized method = "GET") by (bool_simpl; by apply list_elem_of_singleton in Hm).
  apply evaluate_verified; [unsent|]. intros t1 d1 Hd1. apply verified_bind.
  destruct (allowed d1) eqn:Ha1; cbn [negb].
  2: { apply observe_verified; [unsent|]. unfold raise_if_denied. rewrite Ha1. unsent. }
  apply verified_ret, verified_bind, verified_ret.
  destruct (evaluate_allowed_revision _ _ _ _ _ _ _ _ _ Hd1 Ha1) as (r0 & Hr0 & Hsel).
  rewrite Hr0. apply wait_verified; [unsent|]. apply (perform_verified _ RefreshAuthorization); [done|unsent|].
  intros a'. apply block_unless_verified; [intros Hsame | intros _ e; unsent].
  unfold same_revision in Hsame. bool_simpl. destruct a'.1.2 as [r'|] eqn:Hr'; [|done]. bool_simpl.
  apply evaluate_verified; [unsent|]. intros t2 d2 Hd2. apply observe_verified; [unsent|].
  apply block_unless_verified; [intros Ha2 | intros _ e; unsent].
  apply block_unless_verified; [intros Hmode | intros _ e; unsent]. bool_simpl.
  apply (perform_verified _ BeforeNetwork); [done|unsent|]. intros []. unfold send. rewrite Hget, Hmode in *.
  apply verified_bind, verified_try. intros [g|e] _; [exists g; split; [|done] | destruct e; right; eexists].
  all: exists t1, d1, r0, a', r', t2, d2; split; [reflexivity|]; repeat split; congruence.
Qed.

(** * Property *)

(** C5: the executor sends a request only after the policy allowed it twice, on the
    authorization it was given and on the one refreshed after the rate limiter's wait,
    which must be the same revision; after the second decision was recorded and the last
    hook passed; as the very last call, at most once, as a GET to a private-local Target
    with the bounds of the executor; and it returns a response only from that request. *)
Theorem executor_gate env hosts url method a headers limit evs res
    (H : executor_run env hosts url method a headers limit = (evs, res)) :
  executor_sound hosts url a headers limit evs res.
Proof.
  unfold executor_run in H.
  destruct (wp_sound record_events (fun _ => True) (execute_alone hosts url method a headers limit tt) _ [] env []
    (execute_alone_verified hosts url method a headers limit) ltac:(done)) as (w & Hw & Hq).
  rewrite follow_record_events in Hw. injection Hw as <-.
  destruct (run env _ []) as [evs' [r []]]. injection H as -> ->. exact Hq.
Qed.

(** * Witness *)

Definition lab_authorization : authorization := (lab_target, Some lab_revision, [lab_scope]).
Definition lab_response : NetworkGatewayResult :=
  mkGatewayResult 200 "{}" 12 (mkDestination "http" "localhost" 8000 false None) "127.0.0.1" "127.0.0.1" None None.
Definition lab_environment : environment executor_call := fun _ c =>
  match c return result exn (answer c) with
  | ReadClock => Ok 2000
  | WaitRate _ _ => Ok tt
  | RefreshAuthorization => Ok lab_authorization
  | ObserveDecision _ => Ok tt
  | BeforeNetwork => Ok tt
  | SendRequest _ => Ok lab_response
  end.

Lemma executor_gate_witness : exists evs response,
  http_status_code response = 200 /\
  executor_sound ["localhost"] "http://localhost:8000/api/orders/42" lab_authorization [] None evs (Ok response).
Proof.
  eexists _, (mkHTTPResult 200 "{}" 12 None None). split; [reflexivity|].
  apply (executor_gate lab_environment ["localhost"] "http://localhost:8000/api/orders/42" " get"
    lab_authorization [] None). vm_compute. reflexivity.
Defined.
