(* ===== verification/ExecutorRule.v ===== *)
(** A proof rule for [execute] of HttpExecutor.v, for any caller: assertions before and
    after the refresh, the second reading of the clock, the record of the decision and the
    last hook, and what they mean when the request is sent. *)

From S2P Require Import Prelude.
From S2P Require Import PyStr.
From S2P Require Import PyFloat.
From S2P Require Import Models.
From S2P Require Import Samples.
From S2P Require Import ScopePolicy.
From S2P Require Import Destination.
From S2P Require Import Gateway.
From S2P Require Import Effects.
From S2P Require Import HttpExecutor.

Open Scope Z_scope.

(** The facts under which a request for [url] is sent on behalf of [a], refreshed to [a']
    with the decision [d]. *)
Definition cleared (hosts : list string) (url method : string) (a a' : authorization) (d : PolicyDecision) : Prop :=
  normalized method = "GET" /\ allowed d = true /\ network_mode a'.1.1 = PRIVATE_LOCAL /\
  exists t1 d1 r0 r', evaluate hosts a.1.1 a.1.2 a.2 url "GET" None t1 = Ok d1 /\ allowed d1 = true /\
    a.1.2 = Some r0 /\ a'.1.2 = Some r' /\ revision_id r' = revision_id r0 /\
    target_authorization_revision_id a'.1.1 = Some (revision_id r0).

Definition request_for (url : string) (headers : list (string * string)) (target : Target) : GatewayRequest :=
  mkRequest (target_id target) PRIVATE_LOCAL "GET" url headers MAX_RESPONSE_BYTES REQUEST_TIMEOUT false.

Definition response_of (g : NetworkGatewayResult) : HTTPExecutionResult :=
  mkHTTPResult (status_code g) (gateway_body g) (gateway_duration_ms g) (content_type g) (content_encoding g).

(** The exceptions that the executor raises itself before the request, and what it makes of
    an exception of the gateway. *)
Definition internal (e : exn) : bool :=
  match e with ExecutionBlockedError _ _ | OtherException => true | _ => false end.
Definition sent_exception (e : exn) : exn :=
  match e with GatewayFailure code reason => HTTPExecutionError (code +:+ ": " +:+ reason) | _ => e end.

Section rule.
Context {call : Type} {Icall : Interface call} {S W : Type}.
Variable step : W -> event call -> option W.
Variable adm : event call -> Prop.
Variable hosts : list string.
Variable services : ExecutorServices call S.
Variable url method : string.
Variable a : authorization.
Variable headers : list (string * string).
Variable refresh : M call S authorization.
Variable observe : PolicyDecision -> M call S unit.
Variable before : option (M call S unit).

(** The assertions, in the order of the program; [E] is that of an exception before the
    request, [F] after it. *)
Variable I : S -> W -> Prop.
Variable E : exn -> S -> W -> Prop.
Variable R : authorization -> S -> W -> Prop.
Variable C : authorization -> timestamp -> S -> W -> Prop.
Variable D B : authorization -> PolicyDecision -> S -> W -> Prop.
Variable G : authorization -> PolicyDecision -> NetworkGatewayResult -> S -> W -> Prop.
Variable F : authorization -> PolicyDecision -> exn -> S -> W -> Prop.

Abbreviation triple P m Q := (forall s w, P s w -> verified step adm m Q s w).
Abbreviation or_fails Q := (fun r s w => match r with Ok x => Q x s w | Raise e => E e s w end).

Hypothesis I_fails : forall s w, I s w -> forall e, internal e = true -> E e s w.
Hypothesis R_fails : forall a' s w, R a' s w -> forall e, internal e = true -> E e s w.
Hypothesis C_fails : forall a' t s w, C a' t s w -> forall e, internal e = true -> E e s w.
Hypothesis D_fails : forall a' d s w, D a' d s w -> forall e, internal e = true -> E e s w.
Hypothesis E_blocks : forall e s w, E e s w -> forall c m, E (ExecutionBlockedError c m) s w.
Hypothesis clock_first : triple I (policy_clock services) (or_fails (fun _ => I)).
Hypothesis denial_observed : forall d, triple I (observe d) (or_fails (fun _ => I)).
Hypothesis rate_waited : forall k x, triple I (rate_limiter_wait services k x) (or_fails (fun _ => I)).
Hypothesis refreshed : triple I refresh (or_fails R).
Hypothesis clock_second : forall a', triple (R a') (policy_clock services) (or_fails (C a')).
Hypothesis decision_observed : forall a' t d, evaluate hosts a'.1.1 a'.1.2 a'.2 url "GET" None t = Ok d ->
  triple (C a' t) (observe d) (or_fails (fun _ => D a' d)).
Hypothesis hook_passed : forall a' d, cleared hosts url method a a' d ->
  triple (D a' d) (match before with Some b => b | None => mret tt end) (or_fails (fun _ => B a' d)).
Hypothesis request_sent : forall a' d, cleared hosts url method a a' d ->
  triple (B a' d) (network_gateway_request services (request_for url headers a'.1.1))
    (fun r s w => match r with Ok g => G a' d g s w | Raise e => F a' d e s w end).

(** What [execute] ends in: a response, an exception before the request, or one of it. *)
Definition executed (r : result exn HTTPExecutionResult) (s : S) (w : W) : Prop :=
  match r with
  | Ok response => exists a' d g, cleared hosts url method a a' d /\ G a' d g s w /\ response = response_of g
  | Raise e => E e s w \/ exists a' d e', cleared hosts url method a a' d /\ F a' d e' s w /\ e = sent_exception e'
  end.

Lemma rule_bind {A} (P : S -> W -> Prop) (Q : A -> S -> W -> Prop) m k :
  triple P m (or_fails Q) -> (forall x, triple (Q x) (k x) executed) -> triple P (m ≫= k) executed.
Proof.
  intros Hm Hk s w Hp. apply verified_bind. eapply verified_mono; [by apply Hm|].
  intros [x|e] s' w' H; [by apply Hk | by left].
Qed.

Lemma rule_guard (P : S -> W -> Prop) b c msg k : (forall s w, P s w -> forall e, internal e = true -> E e s w) ->
  (b = true -> triple P (k tt) executed) -> triple P (block_unless b c msg ≫= k) executed.
Proof. intros He Hk s w Hp. apply verified_bind. destruct b; [by apply Hk | left; by apply (He s w Hp)]. Qed.

Lemma observe_rule (P Q : S -> W -> Prop) d :
  triple P (observe d) (or_fails (fun _ => Q)) ->
  triple P (observe_policy_decision d (Some observe)) (or_fails (fun _ => Q)).
Proof.
  intros Ho s w Hp. unfold observe_policy_decision. apply verified_try. eapply verified_mono; [by apply Ho|].
  intros [x|e] s' w' H; [done|]. destruct e; first [by eapply E_blocks | exact H].
Qed.

Lemma evaluate_rule a' (P : S -> W -> Prop) (Q : timestamp -> S -> W -> Prop) :
  (forall t s w, Q t s w -> forall e, internal e = true -> E e s w) -> triple P (policy_clock services) (or_fails Q) ->
  triple P (evaluate_now hosts services url method a')
    (or_fails (fun d s w => exists t, evaluate hosts a'.1.1 a'.1.2 a'.2 url (normalized method) None t = Ok d /\ Q t s w)).
Proof.
  intros He Hc s w Hp. unfold evaluate_now. apply verified_bind. eapply verified_mono; [by apply Hc|].
  intros [t|e] s' w' H; [|done]. apply verified_lift. destruct (evaluate _ _ _ _ _ _ _ _) eqn:Ee; [by exists t|].
  by eapply He.
Qed.

Lemma wait_rule t revision limit : triple I (wait_for_rate services t revision limit) (or_fails (fun _ => I)).
Proof.
  intros s w Hi. unfold wait_for_rate. apply verified_try. destruct revision as [r|]; [|by apply I_fails].
  eapply verified_mono; [by apply rate_waited|]. intros [x|e] s' w' H; [done|]. destruct e; first [by eapply E_blocks | exact H].
Qed.

Lemma send_rule a' d : cleared hosts url method a a' d -> triple (B a' d) (send services url method a'.1.1 headers false) executed.
Proof.
  intros Hc s w Hb. pose proof Hc as (Hm & _ & Hn & _). unfold send. rewrite Hm, Hn.
  apply verified_bind, verified_try. eapply verified_mono; [by apply (request_sent a' d Hc)|].
  intros [g|e] s' w' H; [by exists a', d, g|]. destruct e; right; eexists a', d, _; (split; [done|]); (split; [exact H | done]).
Qed.

(** The second half, from the refreshed authorization on. *)
Lemma refreshed_rule t1 d1 a' : normalized method = "GET" ->
  evaluate hosts a.1.1 a.1.2 a.2 url (normalized method) None t1 = Ok d1 -> allowed d1 = true ->
  triple (R a')
    (_ ← block_unless (same_revision (decision_revision_id d1) a') "authorization_revision_changed"
          "Target authorization revision changed before execution.";
     decision' ← evaluate_now hosts services url method a';
     _ ← observe_policy_decision decision' (Some observe);
     _ ← raise_if_denied decision';
     _ ← block_unless (bool_decide (network_mode a'.1.1 = PRIVATE_LOCAL)) "external_network_mode_not_ready"
           "External/public-authorized network execution is not available until the remaining release gates exist.";
     _ ← match before with Some b => b | None => mret tt end;
     send services url method a'.1.1 headers false) executed.
Proof.
  intros Hm Ht1 Ha1. destruct (evaluate_allowed_revision _ _ _ _ _ _ _ _ _ Ht1 Ha1) as (r0 & Hr0 & Hd1).
  apply rule_guard; [by apply R_fails|]. intros Hs. unfold same_revision in Hs. bool_simpl.
  destruct a'.1.2 as [r'|] eqn:Hr'; [|done]. bool_simpl.
  eapply rule_bind; [apply (evaluate_rule a' _ (C a')); [apply C_fails | apply clock_second]|]. intros d2.
  intros s w (t2 & Ht2 & Hc). rewrite Hm in Ht2. revert s w Hc.
  apply (rule_bind (C a' t2) (fun _ => D a' d2)); [apply observe_rule, (decision_observed a' t2 d2 Ht2)|]. intros [].
  apply rule_guard; [apply D_fails|]. intros Ha2. apply rule_guard; [apply D_fails|]. intros Hn. bool_simpl.
  assert (Hcl : cleared hosts url method a a' d2).
  { split; [done|]. split; [done|]. split; [done|]. rewrite Hm in Ht1. exists t1, d1, r0, r'.
    rewrite Hr0, Hr'. split_and!; try done; congruence. }
  apply (rule_bind (D a' d2) (fun _ => B a' d2)); [by apply (hook_passed a' d2)|]. intros []. by apply send_rule.
Qed.

Lemma execute_rule : triple I
  (execute hosts services url method a headers (Some refresh) (Some observe) before false None) executed.
Proof.
  unfold execute. apply rule_guard; [apply I_fails|]. intros Hm. bool_simpl.
  unfold AUTO_EXECUTABLE_METHODS in Hm. rewrite list_elem_of_singleton in Hm.
  eapply rule_bind; [apply (evaluate_rule a I (fun _ => I)); [intros _; apply I_fails | apply clock_first]|].
  intros d1 s w (t1 & Ht1 & Hi). revert s w Hi. destruct (allowed d1) eqn:Ha; cbn [negb].
  - intros s w Hi. do 2 apply verified_bind, verified_ret. revert s w Hi.
    apply (rule_bind I (fun _ => I)); [apply wait_rule|]. intros [].
    apply (rule_bind I R); [apply refreshed|]. intros a'. by apply (refreshed_rule t1 d1).
  - intros s w Hi. apply verified_bind, verified_bind.
    eapply verified_mono; [apply (observe_rule I I d1 (denial_observed d1)); exact Hi|].
    intros [[]|e] s' w' H; [|by left]. unfold raise_if_denied. rewrite Ha. left. by apply I_fails.
Qed.
End rule.
