(* ===== verification/PlanExecution.v ===== *)
(** Execution of an approved plan, src/backend/app/services/plan_execution.py.

    [execute_plan] is [PlanExecutionService.execute], that is [_execute] without a research
    dispatch. Its calls are the statements of the session, of fresh sessions, and the
    coordination services of Coordination.v, each of which may raise anything; the HTTP
    executor is the definition of HttpExecutor.v. The session does not expire rows on
    commit, so rows read before are values; after a rollback they expire, so the reads of
    [test_case.id] that may follow one are calls. *)

From S2P Require Import Prelude.
From S2P Require Import PyStr.
From S2P Require Import PyFloat.
From S2P Require Import PyJson.
From S2P Require Import Models.
From S2P Require Import Samples.
From S2P Require Import ScopePolicy.
From S2P Require Import Destination.
From S2P Require Import Gateway.
From S2P Require Import Coordination.
From S2P Require Import AuthContext.
From S2P Require Import Database.
From S2P Require Import PlanDigest.
From S2P Require Import Approval.
From S2P Require Import SafetyAudit.
From S2P Require Import Effects.
From S2P Require Import HttpExecutor.

Open Scope Z_scope.

(** [request_data] of a run. *)
Record RequestData := mkRequestData {
  data_method : string;
  data_url : string;
  data_headers : list (string * string);
  data_actor_identity_id : Z;
  data_resource_id : Z
}.
Record RunDraft := mkDraft {
  draft_test_case_id : Z;
  draft_revision_id : Z;
  draft_plan_id : option Z;
  draft_request : RequestData;
  draft_status : option Z;
  draft_body : option string;
  draft_duration_ms : option Z;
  draft_error : option string
}.
Definition run_of (d : RunDraft) (id : Z) : TestRun :=
  mkTestRun id (draft_test_case_id d) (Some (draft_revision_id d)) (draft_plan_id d) (draft_status d)
    (draft_body d) (draft_duration_ms d) (draft_error d).

Inductive plan_call : Type :=
| ReadSession
| ReadRun (plan : Z)
| Commit
| Rollback
| SetStatus (test_case : Z) (status : string)
| CaseId (test_case : Z)
| AppendAudit (r : SafetyDecisionRecord)
| InsertRun (d : RunDraft)
| ReadFresh
| ReadFreshRun (plan : Z)
| AuditFresh (r : SafetyDecisionRecord)
| GetCancellation (plan : Z)
| ResolveBinding (identity binding : Z)
| AcquireClaim (plan : Z) (owner : string) (lease : float)
| RenewClaim (h : ClaimHandle) (lease : float)
| AssertClaim (h : ClaimHandle)
| ReleaseClaim (h : ClaimHandle)
| PrepareAttempt (h : ClaimHandle)
| MarkNetworkStarted (h : ClaimHandle)
| PlanClock
| PlanRateWait (key : string) (rate : float)
| PlanRequest (r : GatewayRequest).

(** [InsertRun] is [db.add] and [db.flush]: the answer is the id of the new row.
    [ResolveBinding] is [BearerCredentialService.resolve_binding]: the token. *)
#[export] Instance plan_interface : Interface plan_call := fun c =>
  match c with
  | ReadSession | ReadFresh => Database
  | ReadRun _ | ReadFreshRun _ => option TestRun
  | CaseId _ | InsertRun _ => Z
  | GetCancellation _ => option CancellationState
  | ResolveBinding _ _ => string
  | AcquireClaim _ _ _ | RenewClaim _ _ => ClaimHandle
  | PlanClock => timestamp
  | PlanRequest _ => NetworkGatewayResult
  | Commit | Rollback | SetStatus _ _ | AppendAudit _ | AuditFresh _ | AssertClaim _ | ReleaseClaim _
  | PrepareAttempt _ | MarkNetworkStarted _ | PlanRateWait _ _ => unit
  end.

(** The ids that the audit records name. *)
Record execution_ids := mkIds {
  ids_target : Z;
  ids_revision : Z;
  ids_test_case : Z;
  ids_plan : Z;
  ids_action : Z
}.

Definition outcome_record (i : execution_ids) (outcome code reason : string) (run : option Z)
    : result audit_error SafetyDecisionRecord :=
  append_execution_outcome outcome (ids_target i) (Some (ids_revision i)) (ids_test_case i)
    (Some (ids_plan i)) (Some (ids_action i)) run (Some code) (Some reason).

(** [PlanIntegrityError] keeps its message; any other error passes through. *)
Definition integrity_exn (e : integrity_error) : exn :=
  match e with PlanIntegrityError m => PlanIntegrityFailure m | EncodingError _ => OtherException end.
Definition raise_integrity {A} (r : result integrity_error A) : result exn A :=
  catch r (fun e => Raise (integrity_exn e)).

Section common.
Context {S : Type}.
Abbreviation M := (M plan_call S).

(** One statement of a session, and its value. *)
Definition read {A} (query : Database -> A) : M A := db ← perform ReadSession; mret (query db).
Definition read_fresh {A} (query : Database -> A) : M A := db ← perform ReadFresh; mret (query db).

(** [append_execution_outcome] with [db.add] and [db.flush]. *)
Definition append_outcome (i : execution_ids) (outcome code reason : string) (run : option Z) : M unit :=
  match outcome_record i outcome code reason run with
  | Ok r => perform (AppendAudit r)
  | Raise _ => raise OtherException
  end.

Definition raise_preflight_blocked {A} (i : execution_ids) (code reason : string) : M A :=
  _ ← try_except (_ ← append_outcome i "blocked" code reason None; perform Commit)
        (fun e => if is_exception e then
           Some (_ ← perform Rollback;
                 blocked "safety_audit_persistence_failed" "Required safety audit record could not be persisted.")
         else None);
  blocked code reason.

Definition raise_post_network_failure {A} (i : execution_ids) (code reason : string) : M A :=
  _ ← try_except (_ ← append_outcome i "failed" code reason None; perform Commit)
        (fun e => if is_exception e then Some (perform Rollback) else None);
  blocked code reason.

Definition audit_claim_cleanup_failure (i : execution_ids) : M unit :=
  try_except
    (match outcome_record i "failed" "execution_plan_claim_cleanup_failed"
             "ExecutionPlan claim cleanup could not be completed." None with
     | Ok r => perform (AuditFresh r)
     | Raise _ => raise OtherException
     end)
    (fun e => if is_exception e then Some (mret tt) else None).

Definition release_claim (h : ClaimHandle) (i : execution_ids) : M unit :=
  try_except (perform (ReleaseClaim h))
    (fun e => match e with
              | ExecutionClaimLostError => Some (mret tt)
              | ExecutionClaimCoordinationError => Some (audit_claim_cleanup_failure i)
              | _ => None
              end).

Definition load_fresh_canonical (plan : Z) : M (option TestRun) :=
  try_except (perform (ReadFreshRun plan))
    (fun e => if is_exception e then Some (raise CanonicalResultLookupError) else None).
End common.

(** * Persisting the result *)

(** The ids at the time of an audit after a rollback: [test_case.id] is read again. *)
Definition with_case_id {S} (i : execution_ids) (k : execution_ids -> M plan_call S unit) : M plan_call S unit :=
  c ← perform (CaseId (ids_test_case i));
  k (mkIds (ids_target i) (ids_revision i) c (ids_plan i) (ids_action i)).

Definition assert_result_writer {S} (h : ClaimHandle) (i : execution_ids) : M plan_call S unit :=
  try_except (perform (AssertClaim h))
    (fun e => match e with
              | ExecutionClaimLostError =>
                  Some (_ ← perform Rollback;
                        raise_post_network_failure i "execution_plan_result_fencing_lost"
                          "ExecutionPlan result fencing was lost before persistence.")
              | ExecutionClaimCoordinationError =>
                  Some (_ ← perform Rollback;
                        raise_post_network_failure i "execution_plan_result_fencing_failed"
                          "ExecutionPlan result fencing could not be verified.")
              | _ => None
              end).

Definition is_canonical_unique_conflict (sqlstate constraint_name : option string) : bool :=
  bool_decide (sqlstate = Some "23505")
  && bool_decide (constraint_name = Some "uq_test_runs_execution_plan_id").

Definition persistence_failed {S A} (i : execution_ids) : M plan_call S A :=
  c ← perform (CaseId (ids_test_case i));
  raise_post_network_failure (mkIds (ids_target i) (ids_revision i) c (ids_plan i) (ids_action i))
    "execution_plan_result_persistence_failed" "Canonical ExecutionPlan result could not be persisted.".

(** The [IntegrityError] clause: the run of another worker, if that is the conflict. *)
Definition conflicting_run {S} (i : execution_ids) (sqlstate constraint_name : option string)
    : M plan_call S TestRun :=
  _ ← perform Rollback;
  canonical ← (if is_canonical_unique_conflict sqlstate constraint_name then
                 try_except (perform (ReadRun (ids_plan i)))
                   (fun e => if is_exception e then Some (_ ← perform Rollback; mret None) else None)
               else mret None);
  match canonical with
  | Some run => mret run
  | None => persistence_failed i
  end.

Definition persist_result {S} (i : execution_ids) (outcome : string) (d : RunDraft) : M plan_call S TestRun :=
  try_except
    (id ← perform (InsertRun d);
     _ ← append_outcome i outcome
           (if bool_decide (outcome = "succeeded") then "http_execution_succeeded" else "http_execution_failed")
           (if bool_decide (outcome = "succeeded") then "HTTP execution completed." else "HTTP execution failed.")
           (Some id);
     _ ← perform (SetStatus (ids_test_case i)
                   (if bool_decide (outcome = "succeeded") then "completed" else "failed"));
     _ ← perform Commit;
     mret (run_of d id))
    (fun e => match e with
              | IntegrityViolation sqlstate name => Some (conflicting_run i sqlstate name)
              | _ => if is_exception e then Some (_ ← perform Rollback; persistence_failed i) else None
              end).

Definition finish {S} (h : ClaimHandle) (i : execution_ids) (outcome : string) (d : RunDraft)
    : M plan_call S TestRun :=
  _ ← assert_result_writer h i;
  persist_result i outcome d.

(** * The network phase

    The local variable is [claim_handle], which a renewal replaces. *)
Section network.
Variable sha256 : string -> string.
Variable hosts : list string.
Variable claim_lease_seconds : float.

Definition services : ExecutorServices plan_call ClaimHandle :=
  mkServices (perform PlanClock) (fun k r => perform (PlanRateWait k r)) (fun r => perform (PlanRequest r)).

Definition renew_claim : M plan_call ClaimHandle unit :=
  h ← get_local;
  try_else (perform (RenewClaim h claim_lease_seconds))
    (fun e => match e with
              | ExecutionClaimLostError =>
                  Some (blocked "execution_plan_claim_lost"
                          "ExecutionPlan execution claim was lost before network.")
              | ExecutionClaimCoordinationError =>
                  Some (blocked "execution_plan_claim_coordination_failed"
                          "ExecutionPlan claim coordination failed.")
              | _ => None
              end)
    (fun h' => set_local h').

Definition refresh_authorization (i : execution_ids) (approval_satisfied : bool)
    : M plan_call ClaimHandle authorization :=
  _ ← renew_claim;
  validated ← read_fresh (fun db => validate_persisted_plan_integrity sha256 db (ids_plan i));
  _ ← match validated with
      | Ok _ => mret tt
      | Raise (PlanIntegrityError _) =>
          blocked "execution_plan_integrity_changed" "ExecutionPlan integrity changed before execution."
      | Raise e => raise (integrity_exn e)
      end;
  loaded ← read_fresh (load_execution_authorization (ids_target i));
  a ← match loaded with Some a => mret a | None => raise OtherException end;
  _ ← block_unless (match a.1.2 with Some r => revision_id r =? ids_revision i | None => false end)
        "authorization_revision_changed" "Target authorization revision changed before execution.";
  _ ← (if approval_satisfied then
         approved ← read_fresh (fun db => is_plan_approved sha256 db (ids_plan i));
         approved ← lift (raise_integrity approved);
         block_unless approved "execution_plan_approval_changed"
           "ExecutionPlan approval changed before execution."
       else mret tt);
  mret a.

(** [build_policy_decision_observer]: the record is committed by a session of its own. *)
Definition observe_decision (i : execution_ids) (d : PolicyDecision) : M plan_call ClaimHandle unit :=
  match append_policy_decision "test_execution" (ids_target i) d (Some (ids_test_case i)) (Some (ids_plan i))
          (Some (ids_action i)) with
  | Ok r => perform (AuditFresh r)
  | Raise _ => raise OtherException
  end.

Definition before_network : M plan_call ClaimHandle unit :=
  h ← get_local;
  try_except (perform (MarkNetworkStarted h))
    (fun e => match e with
              | ExecutionProgressLostError =>
                  Some (blocked "execution_plan_progress_lost"
                          "ExecutionPlan progress fencing was lost before network.")
              | ExecutionProgressCancelledError =>
                  Some (blocked "execution_plan_cancelled"
                          "ExecutionPlan was cancelled before network execution.")
              | ExecutionProgressCoordinationError =>
                  Some (blocked "execution_plan_progress_coordination_failed"
                          "ExecutionPlan progress coordination failed.")
              | _ => None
              end).

Definition record_blocked (i : execution_ids) (code reason : string) : M plan_call ClaimHandle TestRun :=
  _ ← perform (SetStatus (ids_test_case i) "blocked");
  _ ← append_outcome i "blocked" code reason None;
  _ ← perform Commit;
  blocked code reason.

Definition draft (i : execution_ids) (request : RequestData) (status : option Z) (body : option string)
    (duration : option Z) (error : option string) : RunDraft :=
  mkDraft (ids_test_case i) (ids_revision i) (Some (ids_plan i)) request status body duration error.

(** The [try]/[except]/[else]/[finally] around the executor. *)
Definition run_action (i : execution_ids) (a : authorization) (action : PlanAction)
    (headers : list (string * string)) (request : RequestData) (approval_satisfied : bool)
    : M plan_call ClaimHandle TestRun :=
  try_finally
    (try_else
       (execute hosts services (action_url action) (action_method action) a headers
          (Some (refresh_authorization i approval_satisfied)) (Some (observe_decision i))
          (Some before_network) false None)
       (fun e => match e with
                 | ExecutionBlockedError code reason => Some (record_blocked i code reason)
                 | HTTPExecutionError message =>
                     Some (h ← get_local;
                           finish h i "failed" (draft i request None None None (Some message)))
                 | _ => None
                 end)
       (fun response =>
          h ← get_local;
          finish h i "succeeded"
            (draft i request (Some (http_status_code response)) (Some (decode_response_body (http_body response)))
               (Some (http_duration_ms response)) None)))
    (h ← get_local; with_case_id i (release_claim h)).
End network.

(** * The service *)

Record PlanRows := mkRows {
  row_target : Target;
  row_revision : AuthorizationRevision;
  row_actor : TestIdentity;
  row_test_case : TestCase;
  row_resource : Resource;
  row_endpoint : Endpoint
}.

Section service.
Variable sha256 : string -> string.
Variable hosts : list string.
Variable claim_owner_id : string.
Variable claim_lease_seconds : float.
Context {S : Type}.
Abbreviation M := (M plan_call S).

(** The validated plan and its one action. *)
Definition load_plan (p : Z) : M (ExecutionPlan * PlanAction) :=
  found ← read (fun db => plans db !! p);
  _ ← check (negb (is_none found)) (PlanExecutionNotFoundError "ExecutionPlan not found.");
  validated ← read (fun db => validate_persisted_plan_integrity sha256 db p);
  plan ← lift (catch validated (fun e => Raise (match e with
                 | PlanIntegrityError _ => PlanExecutionError "ExecutionPlan integrity validation failed."
                 | EncodingError _ => OtherException
                 end)));
  research ← read (fun db => new_plan db plan);
  _ ← check (negb research) (PlanExecutionError "intent_w2_execution_closed");
  actions ← read (actions_of (plan_id plan));
  action ← match actions with
           | [a] => mret a
           | _ => raise (PlanExecutionError "ExecutionPlan must contain exactly one executable action.")
           end;
  _ ← check (bool_decide (action_method action = "GET"))
        (PlanExecutionError "ExecutionPlan action must be GET.");
  mret (plan, action).

(** [db.get] by the plan's ids; a missing row ends the execution. *)
Definition load_rows (plan : ExecutionPlan) (case_id resource_id : Z) : M PlanRows :=
  let unavailable := PlanExecutionNotFoundError "ExecutionPlan provenance is unavailable." in
  target ← read (fun db => targets db !! plan_target_id plan);
  revision ← read (fun db => revisions db !! plan_authorization_revision_id plan);
  actor ← read (fun db => identities db !! plan_actor_identity_id plan);
  test_case ← read (fun db => test_cases db !! case_id);
  resource ← read (fun db => resources db !! resource_id);
  endpoint ← match test_case with
             | Some c => read (fun db => endpoints db !! test_case_endpoint_id c)
             | None => mret None
             end;
  target ← require_or target unavailable;
  revision ← require_or revision unavailable;
  actor ← require_or actor unavailable;
  test_case ← require_or test_case unavailable;
  resource ← require_or resource unavailable;
  endpoint ← require_or endpoint unavailable;
  mret (mkRows target revision actor test_case resource endpoint).

Definition ids_of (rows : PlanRows) (plan : ExecutionPlan) (action : PlanAction) : execution_ids :=
  mkIds (target_id (row_target rows)) (revision_id (row_revision rows)) (test_case_id (row_test_case rows))
    (plan_id plan) (action_id action).

Definition authorization_exact (rows : PlanRows) : bool :=
  is_enabled (row_target rows)
  && bool_decide (target_authorization_revision_id (row_target rows) = Some (revision_id (row_revision rows)))
  && bool_decide (target_authorization_profile_id (row_target rows)
                  = Some (authorization_profile_id (row_revision rows)))
  && bool_decide (lifecycle_state (row_revision rows) = "active").

Definition provenance_consistent (rows : PlanRows) : bool :=
  (identity_target_id (row_actor rows) =? target_id (row_target rows))
  && (resource_target_id (row_resource rows) =? target_id (row_target rows))
  && (endpoint_target_id (row_endpoint rows) =? target_id (row_target rows))
  && (test_case_actor_identity_id (row_test_case rows) =? identity_id (row_actor rows))
  && (test_case_resource_id (row_test_case rows) =? resource_id (row_resource rows)).

Definition preflight_unless {A} (b : bool) (i : execution_ids) (code reason : string) (k : M A) : M A :=
  if b then k else raise_preflight_blocked i code reason.

Definition check_cancellation (i : execution_ids) (release : M unit) : M unit :=
  try_else (perform (GetCancellation (ids_plan i)))
    (fun e => match e with
              | ExecutionPlanCancellationCoordinationError =>
                  Some (_ ← release;
                        raise_preflight_blocked i "execution_plan_cancellation_coordination_failed"
                          "ExecutionPlan cancellation coordination failed.")
              | _ => None
              end)
    (fun cancelled =>
       if is_none cancelled then mret tt
       else _ ← release;
            raise_preflight_blocked i "execution_plan_cancelled"
              "ExecutionPlan was cancelled before network execution.").

(** [approval_satisfied] *)
Definition check_approval (i : execution_ids) (rows : PlanRows) : M bool :=
  if require_human_execution_approval (row_revision rows) then
    approved ← read (fun db => is_plan_approved sha256 db (ids_plan i));
    approved ← lift (raise_integrity approved);
    preflight_unless approved i "execution_plan_approval_required" "Exact ExecutionPlan approval is required."
      (mret true)
  else mret false.

Definition context_result {A} (r : result context_error A) : result exn A :=
  catch r (fun '(AuthenticationContextError m) => Raise (AuthenticationFailure m)).

(** The headers of the request, with the credential of the plan's binding. *)
Definition authenticate (i : execution_ids) (plan : ExecutionPlan) (actor : TestIdentity)
    : M (list (string * string)) :=
  try_except
    (token ← (if bool_decide (auth_type actor = "bearer") then
                match plan_credential_binding_id plan with
                | None => raise (BearerCredentialError "Bearer credential is unavailable.")
                | Some b => token ← perform (ResolveBinding (identity_id actor) b); mret (Some token)
                end
              else match plan_credential_binding_id plan with
                   | Some _ => raise (AuthenticationFailure "Anonymous identity cannot use a credential binding.")
                   | None => mret None
                   end);
     context ← lift (context_result (build_authentication_context actor token));
     lift (context_result (apply_authentication_context (Some [("Accept", "application/json")]) context)))
    (fun e => match e with
              | AuthenticationFailure m | BearerCredentialError m =>
                  Some (raise_preflight_blocked i "execution_plan_credential_invalid" m)
              | _ => None
              end).

(** The [except ExecutionClaimUnavailableError] clause. *)
Definition claim_unavailable (i : execution_ids) : M TestRun :=
  canonical ← try_except (load_fresh_canonical (ids_plan i))
    (fun e => match e with
              | CanonicalResultLookupError =>
                  Some (raise_preflight_blocked i "execution_plan_result_lookup_failed"
                          "Canonical ExecutionPlan result lookup failed.")
              | _ => None
              end);
  match canonical with
  | Some run => mret run
  | None => raise_preflight_blocked i "execution_plan_claim_unavailable"
              "ExecutionPlan is already claimed for execution."
  end.

Definition prepare_attempt (h : ClaimHandle) (i : execution_ids) : M unit :=
  try_except (perform (PrepareAttempt h))
    (fun e => match e with
              | ExecutionInDoubtError =>
                  Some (_ ← release_claim h i;
                        raise_post_network_failure i "execution_plan_in_doubt"
                          "ExecutionPlan may have crossed the network boundary.")
              | ExecutionProgressLostError =>
                  Some (_ ← release_claim h i;
                        raise_preflight_blocked i "execution_plan_progress_lost"
                          "ExecutionPlan progress fencing was lost.")
              | ExecutionProgressCoordinationError =>
                  Some (_ ← release_claim h i;
                        raise_preflight_blocked i "execution_plan_progress_coordination_failed"
                          "ExecutionPlan progress coordination failed.")
              | _ => None
              end).

(** From the claim to the end. *)
Definition run_claimed (h : ClaimHandle) (i : execution_ids) (rows : PlanRows) (action : PlanAction)
    (headers : list (string * string)) (approval_satisfied : bool) : M TestRun :=
  canonical ← try_except (load_fresh_canonical (ids_plan i))
    (fun e => match e with
              | CanonicalResultLookupError =>
                  Some (_ ← release_claim h i;
                        raise_preflight_blocked i "execution_plan_result_lookup_failed"
                          "Canonical ExecutionPlan result lookup failed.")
              | _ => None
              end);
  match canonical with
  | Some run => _ ← release_claim h i; mret run
  | None =>
      _ ← check_cancellation i (release_claim h i);
      _ ← prepare_attempt h i;
      _ ← perform (SetStatus (ids_test_case i) "running");
      scopes ← read (active_scopes (ids_target i));
      _ ← perform Commit;
      scoped h (run_action sha256 hosts claim_lease_seconds i (row_target rows, Some (row_revision rows), scopes)
        action headers
        (mkRequestData (action_method action) (action_url action) (redact_headers headers)
           (identity_id (row_actor rows)) (resource_id (row_resource rows))) approval_satisfied)
  end.

Definition execute_plan (p : Z) : M TestRun :=
  '(plan, action) ← load_plan p;
  '(case_id, resource_id) ← match action_test_case_id action, action_resource_id action with
                            | Some c, Some r => mret (c, r)
                            | _, _ => raise (PlanExecutionError "ExecutionPlan action provenance is incomplete.")
                            end;
  canonical ← perform (ReadRun (plan_id plan));
  match canonical with
  | Some run => mret run
  | None =>
      _ ← check_cancellation (mkIds (plan_target_id plan) (plan_authorization_revision_id plan) case_id
                                (plan_id plan) (action_id action)) (mret tt);
      rows ← load_rows plan case_id resource_id;
      let i := ids_of rows plan action in
      preflight_unless (authorization_exact rows) i "execution_plan_authorization_invalid"
        "ExecutionPlan authorization is no longer active and exact."
      (preflight_unless (provenance_consistent rows) i "execution_plan_provenance_invalid"
        "ExecutionPlan provenance is inconsistent."
      (approval_satisfied ← check_approval i rows;
       headers ← authenticate i plan (row_actor rows);
       _ ← perform Commit;
       try_else (perform (AcquireClaim (plan_id plan) claim_owner_id claim_lease_seconds))
         (fun e => match e with
                   | ExecutionClaimUnavailableError => Some (claim_unavailable i)
                   | ExecutionClaimCoordinationError =>
                       Some (raise_preflight_blocked i "execution_plan_claim_coordination_failed"
                               "ExecutionPlan claim coordination failed.")
                   | _ => None
                   end)
         (fun h => run_claimed h i rows action headers approval_satisfied)))
  end.
End service.
