(* ===== verification/TestExecution.v ===== *)
(** Direct execution of a test case, [TestExecutionService] of
    src/backend/app/services/test_execution.py.

    The calls are the statements of the session, of the sessions that refresh the
    authorization and record decisions, the credential service, the rate limiter and the
    gateway, each of which may raise anything. *)

From S2P Require Import Prelude.
From S2P Require Import PyStr.
From S2P Require Import PyFloat.
From S2P Require Import Models.
From S2P Require Import Samples.
From S2P Require Import ScopePolicy.
From S2P Require Import Destination.
From S2P Require Import Gateway.
From S2P Require Import AuthContext.
From S2P Require Import Database.
From S2P Require Import SafetyAudit.
From S2P Require Import Effects.
From S2P Require Import CaseUrl.
From S2P Require Import HttpExecutor.
From S2P Require Import ExecutorRule.
From S2P Require Import PlanExecution.

Open Scope Z_scope.

(** [CaseAcquire] is the conditional update of the status, answered with the id it
    returns; [CaseInsert] is [db.add] and [db.flush]; [CaseReload] is [db.refresh];
    [CaseToken] is [BearerCredentialService.resolve]. *)
Inductive case_call : Type :=
| CaseRead
| CaseCommit
| CaseStatus (test_case : Z) (status : string)
| CaseAcquire (test_case : Z) (observed : string)
| CaseAudit (r : SafetyDecisionRecord)
| CaseInsert (d : RunDraft)
| CaseReload (run : Z)
| CaseToken (identity : Z)
| CaseFresh
| CaseAuditFresh (r : SafetyDecisionRecord)
| CaseClock
| CaseRateWait (key : string) (rate : float)
| CaseRequest (r : GatewayRequest).

#[export] Instance case_interface : Interface case_call := fun c =>
  match c with
  | CaseRead | CaseFresh => Database
  | CaseAcquire _ _ => option Z
  | CaseInsert _ => Z
  | CaseReload _ => TestRun
  | CaseToken _ => string
  | CaseClock => timestamp
  | CaseRequest _ => NetworkGatewayResult
  | CaseCommit | CaseStatus _ _ | CaseAudit _ | CaseAuditFresh _ | CaseRateWait _ _ => unit
  end.

Abbreviation CM := (M case_call unit).

Definition case_read {A} (query : Database -> A) : CM A := db ← perform CaseRead; mret (query db).

Definition case_services : ExecutorServices case_call unit :=
  mkServices (perform CaseClock) (fun k r => perform (CaseRateWait k r)) (fun r => perform (CaseRequest r)).

(** [build_execution_authorization_refresh]: the rows of a fresh session. *)
Definition refresh_case (target : Z) : CM authorization :=
  db ← perform CaseFresh;
  match load_execution_authorization target db with Some a => mret a | None => raise OtherException end.

(** [build_policy_decision_observer] *)
Definition observe_case (target case_id : Z) (d : PolicyDecision) : CM unit :=
  match append_policy_decision "test_execution" target d (Some case_id) None None with
  | Ok r => perform (CaseAuditFresh r)
  | Raise _ => raise OtherException
  end.

(** The rows of a test case that are read before its execution. *)
Record CaseRows := mkCaseRows {
  case_test_case : TestCase;
  case_endpoint : Endpoint;
  case_actor : TestIdentity;
  case_resource : Resource;
  case_target : Target;
  case_revision : option AuthorizationRevision;
  case_scopes : list Scope
}.

(** The checks on the rows, and the active scopes. *)
Definition gate_case (test_case : TestCase) (endpoint : Endpoint) (actor : TestIdentity) (resource : Resource)
    (target : Target) (revision : option AuthorizationRevision) : CM CaseRows :=
  _ ← check (negb match revision with Some r => require_human_execution_approval r | None => false end)
        (ExecutionBlockedError "plan_bound_execution_required"
           "Human approval requires execution through an exact approved ExecutionPlan.");
  _ ← check (identity_target_id actor =? target_id target) (TestExecutionError "Actor belongs to a different target.");
  _ ← check (resource_target_id resource =? target_id target)
        (TestExecutionError "Resource belongs to a different target.");
  scopes ← case_read (active_scopes (target_id target));
  mret (mkCaseRows test_case endpoint actor resource target revision scopes).

Definition load_case_rows (case_id : Z) : CM CaseRows :=
  test_case ← case_read (fun db => test_cases db !! case_id);
  test_case ← require_or test_case (TestExecutionNotFoundError "TestCase not found.");
  _ ← (if bool_decide (test_case_status test_case = "running") then
         _ ← perform CaseCommit; raise (TestExecutionError "TestCase is already running.")
       else mret tt);
  research ← case_read (fun db => new_case db (Some test_case));
  _ ← check (negb research) (TestExecutionError "intent_w2_execution_closed");
  endpoint ← case_read (fun db => endpoints db !! test_case_endpoint_id test_case);
  actor ← case_read (fun db => identities db !! test_case_actor_identity_id test_case);
  resource ← case_read (fun db => resources db !! test_case_resource_id test_case);
  endpoint ← require_or endpoint (TestExecutionNotFoundError "Endpoint not found.");
  actor ← require_or actor (TestExecutionNotFoundError "Actor identity not found.");
  resource ← require_or resource (TestExecutionNotFoundError "Resource not found.");
  target ← case_read (fun db => targets db !! endpoint_target_id endpoint);
  target ← require_or target (TestExecutionNotFoundError "Target not found.");
  revision ← match target_authorization_revision_id target with
             | Some r => case_read (fun db => revisions db !! r)
             | None => mret None
             end;
  gate_case test_case endpoint actor resource target revision.

(** The headers of the request; a failing credential blocks the test case. *)
Definition case_headers (case_id : Z) (actor : TestIdentity) : CM (list (string * string)) :=
  try_except
    (token ← (if bool_decide (auth_type actor = "bearer") then
                token ← perform (CaseToken (identity_id actor)); mret (Some token)
              else mret None);
     context ← lift (context_result (build_authentication_context actor token));
     lift (context_result (apply_authentication_context (Some [("Accept", "application/json")]) context)))
    (fun e => match e with
              | AuthenticationFailure m | BearerCredentialError m =>
                  Some (_ ← perform (CaseStatus case_id "blocked");
                        _ ← perform CaseCommit;
                        raise (TestExecutionError m))
              | _ => None
              end).

(** [append_execution_outcome] with [db.add] and [db.flush] *)
Definition case_outcome (rows : CaseRows) (outcome code reason : string) (run : option Z) : CM unit :=
  match append_execution_outcome outcome (target_id (case_target rows)) (revision_id <$> case_revision rows)
          (test_case_id (case_test_case rows)) None None run (Some code) (Some reason) with
  | Ok r => perform (CaseAudit r)
  | Raise _ => raise OtherException
  end.

Definition case_blocked (rows : CaseRows) (code reason : string) : CM TestRun :=
  _ ← perform (CaseStatus (test_case_id (case_test_case rows)) "blocked");
  _ ← case_outcome rows "blocked" code reason None;
  _ ← perform CaseCommit;
  blocked code reason.

(** The stored run of a completed or failed exchange. *)
Definition store_case (rows : CaseRows) (request : RequestData) (outcome : string) (status : option Z)
    (body : option string) (duration : option Z) (error : option string) : CM TestRun :=
  revision ← require_or (case_revision rows) OtherException;
  id ← perform (CaseInsert (mkDraft (test_case_id (case_test_case rows)) (revision_id revision) None request
                              status body duration error));
  _ ← case_outcome rows outcome
        (if bool_decide (outcome = "succeeded") then "http_execution_succeeded" else "http_execution_failed")
        (if bool_decide (outcome = "succeeded") then "HTTP execution completed." else "HTTP execution failed.")
        (Some id);
  _ ← perform (CaseStatus (test_case_id (case_test_case rows))
                 (if bool_decide (outcome = "succeeded") then "completed" else "failed"));
  _ ← perform CaseCommit;
  perform (CaseReload id).

Section network.
Variable hosts : list string.

(** The executor call and its three outcomes. *)
Definition run_case (rows : CaseRows) (url : string) (headers : list (string * string)) : CM TestRun :=
  let t := target_id (case_target rows) in
  let request := mkRequestData (endpoint_method (case_endpoint rows)) url (redact_headers headers)
                   (identity_id (case_actor rows)) (resource_id (case_resource rows)) in
  try_else
    (execute hosts case_services url (endpoint_method (case_endpoint rows))
       (case_target rows, case_revision rows, case_scopes rows) headers (Some (refresh_case t))
       (Some (observe_case t (test_case_id (case_test_case rows)))) None false None)
    (fun e => match e with
              | ExecutionBlockedError code reason => Some (case_blocked rows code reason)
              | HTTPExecutionError message =>
                  Some (store_case rows request "failed" None None None (Some message))
              | _ => None
              end)
    (fun response => store_case rows request "succeeded" (Some (http_status_code response))
       (Some (decode_response_body (http_body response))) (Some (http_duration_ms response)) None).

(** [TestExecutionService.execute] *)
Definition execute_case (case_id : Z) : CM TestRun :=
  rows ← load_case_rows case_id;
  url ← lift (build_test_case_url (case_target rows) (case_endpoint rows) (case_resource rows));
  headers ← case_headers (test_case_id (case_test_case rows)) (case_actor rows);
  acquired ← perform (CaseAcquire (test_case_id (case_test_case rows)) (test_case_status (case_test_case rows)));
  _ ← (if is_none acquired then
         _ ← perform CaseCommit; raise (TestExecutionError "TestCase execution state changed.")
       else mret tt);
  _ ← perform CaseCommit;
  run_case rows url headers.
End network.

Definition case_run (hosts : list string) (case_id : Z) (env : environment case_call)
    : list (event case_call) * result exn TestRun :=
  let '(evs, (r, _)) := run env (execute_case hosts case_id tt) [] in (evs, r).

(** * What a run looks like *)

Abbreviation events := (list (event case_call)).

Definition is_request (e : event case_call) : bool :=
  match event_call e with CaseRequest _ => true | _ => false end.
Definition is_store (e : event case_call) : bool :=
  match event_call e with CaseInsert _ => true | _ => false end.
Definition acquires (e : event case_call) : bool :=
  match e with Event c r =>
    match c as c' return result exn (answer c') -> bool with
    | CaseAcquire _ _ => fun r => match r with Ok (Some _) => true | _ => false end
    | _ => fun _ => false
    end r
  end.

Definition silent (w : events) : Prop := Forall (fun e => is_request e || is_store e = false) w.
Definition unacquired (w : events) : Prop := Forall (fun e => acquires e = false) w.
(** A row that a statement of the session returned. *)
Definition seen {A} (w : events) (query : Database -> option A) (row : A) : Prop :=
  exists db, Event CaseRead (Ok db) ∈ w /\ query db = Some row.

(** The rows were read, the test case was not running, and no approval is required. *)
Definition admitted (case_id : Z) (rows : CaseRows) (w : events) : Prop :=
  test_case_status (case_test_case rows) <> "running" /\
  (forall r, case_revision rows = Some r -> require_human_execution_approval r = false) /\
  identity_target_id (case_actor rows) = target_id (case_target rows) /\
  resource_target_id (case_resource rows) = target_id (case_target rows) /\
  seen w (fun db => test_cases db !! case_id) (case_test_case rows) /\
  seen w (fun db => endpoints db !! test_case_endpoint_id (case_test_case rows)) (case_endpoint rows) /\
  seen w (fun db => identities db !! test_case_actor_identity_id (case_test_case rows)) (case_actor rows) /\
  seen w (fun db => resources db !! test_case_resource_id (case_test_case rows)) (case_resource rows) /\
  seen w (fun db => targets db !! endpoint_target_id (case_endpoint rows)) (case_target rows).

(** The status was set to running by this run, from the status that was read. *)
Definition held (case_id : Z) (rows : CaseRows) (url : string) (w : events) : Prop :=
  exists pre x mid,
    w = pre ++ [Event (CaseAcquire (test_case_id (case_test_case rows)) (test_case_status (case_test_case rows)))
                  (Ok (Some x)); Event CaseCommit (Ok tt)] ++ mid /\
    silent w /\ admitted case_id rows pre /\
    build_test_case_url (case_target rows) (case_endpoint rows) (case_resource rows) = Ok url.

Section shapes.
Variable hosts : list string.
Variable case_id : Z.
Variable rows : CaseRows.
Variable url : string.
Variable headers : list (string * string).

Definition case_authorization : authorization := (case_target rows, case_revision rows, case_scopes rows).

(** The refreshed authorization, the clock, the recorded decision and the request: the last
    four calls up to the request. *)
Definition decided (a' : authorization) (d : PolicyDecision) (w : events) : Prop :=
  exists w0 db t rec, held case_id rows url w0 /\
    w = w0 ++ [Event CaseFresh (Ok db); Event CaseClock (Ok t); Event (CaseAuditFresh rec) (Ok tt)] /\
    load_execution_authorization (target_id (case_target rows)) db = Some a' /\
    evaluate hosts a'.1.1 a'.1.2 a'.2 url "GET" None t = Ok d /\
    append_policy_decision "test_execution" (target_id (case_target rows)) d
      (Some (test_case_id (case_test_case rows))) None None = Ok rec.
Definition sent (a' : authorization) (d : PolicyDecision) (ans : result exn NetworkGatewayResult) (w : events) : Prop :=
  exists w0, decided a' d w0 /\ w = w0 ++ [Event (CaseRequest (request_for url headers a'.1.1)) ans].

(** The last call failed and its exception is the outcome. *)
Definition stopped (tail : events) (r : result exn TestRun) : Prop :=
  exists pre c e, tail = pre ++ [Event c (Raise e)] /\ r = Raise e.

Definition refusal_recorded (code reason : string) (tail : events) (r : result exn TestRun) : Prop :=
  exists rec, append_execution_outcome "blocked" (target_id (case_target rows)) (revision_id <$> case_revision rows)
                (test_case_id (case_test_case rows)) None None None (Some code) (Some reason) = Ok rec /\
    tail = [Event (CaseStatus (test_case_id (case_test_case rows)) "blocked") (Ok tt);
            Event (CaseAudit rec) (Ok tt); Event CaseCommit (Ok tt)] /\
    r = Raise (ExecutionBlockedError code reason).

(** The draft of the outcome of a request. *)
Definition request_data : RequestData :=
  mkRequestData (endpoint_method (case_endpoint rows)) url (redact_headers headers) (identity_id (case_actor rows))
    (resource_id (case_resource rows)).
Definition draft_of (revision : Z) (ans : result exn NetworkGatewayResult) : RunDraft :=
  match ans with
  | Ok g => mkDraft (test_case_id (case_test_case rows)) revision None request_data (Some (status_code g))
              (Some (decode_response_body (gateway_body g))) (Some (gateway_duration_ms g)) None
  | Raise (GatewayFailure code reason) =>
      mkDraft (test_case_id (case_test_case rows)) revision None request_data None None None
        (Some (code +:+ ": " +:+ reason))
  | Raise _ => mkDraft (test_case_id (case_test_case rows)) revision None request_data None None None None
  end.
Definition run_stored (ans : result exn NetworkGatewayResult) (tail : events) (r : result exn TestRun) : Prop :=
  exists revision id rec run,
    case_revision rows = Some revision /\
    append_execution_outcome (if is_ok ans then "succeeded" else "failed") (target_id (case_target rows))
      (Some (revision_id revision)) (test_case_id (case_test_case rows)) None None (Some id)
      (Some (if is_ok ans then "http_execution_succeeded" else "http_execution_failed"))
      (Some (if is_ok ans then "HTTP execution completed." else "HTTP execution failed.")) = Ok rec /\
    tail = [Event (CaseInsert (draft_of (revision_id revision) ans)) (Ok id); Event (CaseAudit rec) (Ok tt);
            Event (CaseStatus (test_case_id (case_test_case rows)) (if is_ok ans then "completed" else "failed")) (Ok tt);
            Event CaseCommit (Ok tt); Event (CaseReload id) (Ok run)] /\
    r = Ok run.

Definition unsent (tail : events) : Prop := Forall (fun e => is_request e = false) tail.
End shapes.

(** The whole run. *)
Definition case_sound (hosts : list string) (case_id : Z) (r : result exn TestRun) (w : events) : Prop :=
  ((exists e, r = Raise e) /\ silent w /\ (unacquired w \/ stopped w r)) \/
  exists rows url headers w0 tail, w = w0 ++ tail /\ unsent tail /\
    ((held case_id rows url w0 /\ silent tail /\
      (stopped tail r \/ (exists e, r = Raise e /\ tail = [] /\ forall c m, e <> ExecutionBlockedError c m) \/
       exists code reason, refusal_recorded rows code reason tail r)) \/
     (exists a' d ans, cleared hosts url (endpoint_method (case_endpoint rows)) (case_authorization rows) a' d /\
        sent hosts case_id rows url headers a' d ans w0 /\
        (stopped tail r \/ (exists e, r = Raise e /\ ans = Raise e /\ tail = [] /\ forall c m, e <> ExecutionBlockedError c m) \/
         run_stored rows url headers ans tail r))).

(** The exceptions of the services are raised by the services themselves. *)
Definition own_exception (e : exn) : bool :=
  match e with ExecutionBlockedError _ _ | HTTPExecutionError _ => true | _ => false end.
Definition documented (e : event case_call) : Prop :=
  match event_answer e with Ok _ => True | Raise x => own_exception x = false end.

(** * Lemmas *)

Abbreviation verified_case m Q w := (verified record_events documented m Q tt w).

Definition idle (w : events) : Prop := silent w /\ unacquired w.

Lemma silent_snoc w e : silent w -> is_request e || is_store e = false -> silent (w ++ [e]).
Proof. intros Hw He. apply Forall_app. split; [done|]. by constructor. Qed.
Lemma idle_snoc w e : idle w -> is_request e || is_store e = false -> acquires e = false -> idle (w ++ [e]).
Proof. intros [Hw Hu] He Ha. split; [by apply silent_snoc|]. apply Forall_app. split; [done|]. by constructor. Qed.
#[local] Hint Resolve silent_snoc idle_snoc : platform.

Lemma held_snoc c rows url w e : held c rows url w -> is_request e || is_store e = false -> held c rows url (w ++ [e]).
Proof.
  intros (pre & x & mid & -> & Hs & Ha & Hu) He. exists pre, x, (mid ++ [e]). rewrite !app_assoc. split; [done|].
  rewrite <- !app_assoc in *. split_and!; try done. rewrite !app_assoc in *. by apply silent_snoc.
Qed.

Lemma seen_mono {A} w w' q (x : A) : seen w q x -> seen (w ++ w') q x.
Proof. intros (db & Hin & H). exists db. split; [|done]. apply elem_of_app. by left. Qed.
Lemma seen_last {A} w (q : Database -> option A) x db : q db = Some x -> seen (w ++ [Event CaseRead (Ok db)]) q x.
Proof. intros H. exists db. split; [|done]. rewrite !elem_of_app, list_elem_of_singleton. auto. Qed.
#[local] Hint Resolve seen_mono seen_last : platform.

(** ** Before the acquisition *)

Section before.
Context {A : Type} (Q : result exn A -> unit -> events -> Prop).
Hypothesis fails : forall e w, idle w -> Q (Raise e) tt w.

Lemma idle_read {B} (q : Database -> B) (k : B -> CM A) w : idle w ->
  (forall db, idle (w ++ [Event CaseRead (Ok db)]) -> verified_case (k (q db)) Q (w ++ [Event CaseRead (Ok db)])) ->
  verified_case (case_read q ≫= k) Q w.
Proof.
  intros Hw Hk. apply verified_bind. unfold case_read. apply verified_bind. intros [db|e] _; cbn.
  - apply verified_ret, Hk. eauto with platform.
  - apply fails. by apply idle_snoc.
Qed.
Lemma idle_require {B} (o : option B) e (k : B -> CM A) w : idle w ->
  (forall x, o = Some x -> verified_case (k x) Q w) -> verified_case (require_or o e ≫= k) Q w.
Proof. intros Hw Hk. destruct o as [x|]; [by apply verified_bind, verified_ret, Hk | by apply verified_bind, verified_raise, fails]. Qed.
Lemma idle_check b e (k : unit -> CM A) w : idle w ->
  (b = true -> verified_case (k tt) Q w) -> verified_case (check b e ≫= k) Q w.
Proof. intros Hw Hk. destruct b; [by apply verified_bind, verified_ret, Hk | by apply verified_bind, verified_raise, fails]. Qed.
Lemma idle_commit (b : bool) e (k : unit -> CM A) w : idle w ->
  (b = false -> verified_case (k tt) Q w) ->
  verified_case ((if b then _ ← perform CaseCommit; raise e else mret tt) ≫= k) Q w.
Proof.
  intros Hw Hk. destruct b; [|by apply verified_bind, verified_ret, Hk].
  apply verified_bind, verified_bind. intros [[]|e'] _; cbn.
  - apply verified_raise, fails. by apply idle_snoc.
  - apply fails. by apply idle_snoc.
Qed.
End before.

Definition loaded (case_id : Z) (r : result exn CaseRows) (_ : unit) (w : events) : Prop :=
  idle w /\ match r with Ok rows => admitted case_id rows w | Raise _ => True end.

Lemma gate_case_verified case_id tc ep ac rs tg revision w : idle w -> test_case_status tc <> "running" ->
  seen w (fun db => test_cases db !! case_id) tc -> seen w (fun db => endpoints db !! test_case_endpoint_id tc) ep ->
  seen w (fun db => identities db !! test_case_actor_identity_id tc) ac ->
  seen w (fun db => resources db !! test_case_resource_id tc) rs ->
  seen w (fun db => targets db !! endpoint_target_id ep) tg ->
  verified_case (gate_case tc ep ac rs tg revision) (loaded case_id) w.
Proof.
  intros Hw Hrun S1 S2 S3 S4 S5.
  assert (Hf : forall (e : exn) w, idle w -> loaded case_id (Raise e) tt w) by done.
  apply idle_check; [done..|]. intros Ha. apply idle_check; [done..|]. intros Hi.
  apply idle_check; [done..|]. intros Hr. apply idle_read; [done..|]. intros db H. apply verified_ret. split; [done|].
  bool_simpl. unfold admitted. cbn. split_and!; eauto with platform. by intros r ->.
Qed.

Lemma load_case_rows_verified case_id : verified_case (load_case_rows case_id) (loaded case_id) [].
Proof.
  assert (H0 : idle []) by (split; constructor).
  assert (Hf : forall (e : exn) w, idle w -> loaded case_id (Raise e) tt w) by done.
  unfold load_case_rows. apply idle_read; [done..|]. intros db1 H1. apply idle_require; [done..|]. intros tc Htc.
  apply idle_commit; [done..|]. intros Hrun. bool_simpl.
  apply idle_read; [done..|]. intros db2 H2. apply idle_check; [done..|]. intros _.
  apply idle_read; [done..|]. intros db3 H3. apply idle_read; [done..|]. intros db4 H4.
  apply idle_read; [done..|]. intros db5 H5. apply idle_require; [done..|]. intros ep Hep.
  apply idle_require; [done..|]. intros ac Hac. apply idle_require; [done..|]. intros rs Hrs.
  apply idle_read; [done..|]. intros db6 H6. apply idle_require; [done..|]. intros tg Htg.
  destruct (target_authorization_revision_id tg) as [r|].
  - apply idle_read; [done..|]. intros db7 H7. apply gate_case_verified; eauto 12 with platform.
  - apply verified_bind, verified_ret. apply gate_case_verified; eauto 12 with platform.
Qed.

(** ** The two scripts that follow the executor *)

Lemma blocked_verified rows c m w0 (Q : result exn TestRun -> unit -> events -> Prop) :
  (forall r tail, silent tail -> unsent tail -> stopped tail r \/ refusal_recorded rows c m tail r -> Q r tt (w0 ++ tail)) ->
  verified_case (case_blocked rows c m) Q w0.
Proof.
  intros HQ. assert (Hstop : forall pre ca (e : exn), silent (pre ++ [Event ca (Raise e)]) -> unsent (pre ++ [Event ca (Raise e)]) ->
    Q (Raise e) tt (w0 ++ pre ++ [Event ca (Raise e)])).
  { intros pre ca e Hs Hu. apply HQ; [done..|]. left. by exists pre, ca, e. }
  unfold case_blocked. apply verified_bind. intros [[]|e] _; cbn; [|apply (Hstop []); by repeat constructor].
  unfold case_outcome. destruct (append_execution_outcome _ _ _ _ _ _ _ _ _) as [rec|] eqn:Er; [|done].
  apply verified_bind. intros [[]|e] _; cbn; rewrite <- app_assoc; [|apply (Hstop [_]); by repeat constructor].
  apply verified_bind. intros [[]|e] _; cbn; rewrite <- app_assoc; [|apply (Hstop [_; _]); by repeat constructor].
  apply HQ; [by repeat constructor..|]. right. by exists rec.
Qed.

Lemma store_verified rows url headers ans outcome revision w0 (Q : result exn TestRun -> unit -> events -> Prop) :
  case_revision rows = Some revision -> outcome = (if is_ok ans then "succeeded" else "failed") ->
  let d := draft_of rows url headers (revision_id revision) ans in
  (forall r tail, unsent tail -> stopped tail r \/ run_stored rows url headers ans tail r -> Q r tt (w0 ++ tail)) ->
  verified_case (store_case rows (request_data rows url headers) outcome (draft_status d) (draft_body d)
    (draft_duration_ms d) (draft_error d)) Q w0.
Proof.
  intros Hrev Ho d HQ. assert (Hstop : forall pre ca (e : exn), unsent (pre ++ [Event ca (Raise e)]) ->
    Q (Raise e) tt (w0 ++ pre ++ [Event ca (Raise e)])).
  { intros pre ca e Hu. apply HQ; [done|]. left. by exists pre, ca, e. }
  assert (Hd : mkDraft (test_case_id (case_test_case rows)) (revision_id revision) None (request_data rows url headers)
                 (draft_status d) (draft_body d) (draft_duration_ms d) (draft_error d) = d).
  { unfold d, draft_of. destruct ans as [|[]]; done. }
  unfold store_case. rewrite Hrev. apply verified_bind, verified_ret. rewrite Hd.
  apply verified_bind. intros [id|e] _; cbn; [|apply (Hstop []); by repeat constructor].
  unfold case_outcome. rewrite Hrev. cbn [fmap option_fmap option_map].
  assert (Hb : bool_decide (outcome = "succeeded") = is_ok ans) by (subst outcome; by destruct ans). rewrite Hb, Ho.
  destruct (append_execution_outcome _ _ _ _ _ _ _ _ _) as [rec|] eqn:Er; [|by destruct ans].
  apply verified_bind. intros [[]|e] _; cbn; rewrite <- app_assoc; [|apply (Hstop [_]); by repeat constructor].
  apply verified_bind. intros [[]|e] _; cbn; rewrite <- app_assoc; [|apply (Hstop [_; _]); by repeat constructor].
  apply verified_bind. intros [[]|e] _; cbn; rewrite <- app_assoc; [|apply (Hstop [_; _; _]); by repeat constructor].
  intros [run|e] _; cbn; rewrite <- app_assoc; [|apply (Hstop [_; _; _; _]); by repeat constructor].
  apply HQ; [by repeat constructor|]. right. by exists revision, id, rec, run.
Qed.

(** ** From the acquisition to the end *)

Section run.
Variable hosts : list string.
Variable case_id : Z.
Variable rows : CaseRows.
Variable url : string.
Variable headers : list (string * string).

Abbreviation t := (target_id (case_target rows)).
Abbreviation sound := (fun r (_ : unit) w => case_sound hosts case_id r w).

Definition st_held (_ : unit) (w : events) : Prop := held case_id rows url w.
Definition st_failed (e : exn) (_ : unit) (w : events) : Prop :=
  held case_id rows url w /\ forall m, e <> HTTPExecutionError m.
Definition st_refreshed (a' : authorization) (_ : unit) (w : events) : Prop :=
  exists w0 db, held case_id rows url w0 /\ w = w0 ++ [Event CaseFresh (Ok db)] /\
    load_execution_authorization t db = Some a'.
Definition st_clock (a' : authorization) (now : timestamp) (s : unit) (w : events) : Prop :=
  exists w0, st_refreshed a' s w0 /\ w = w0 ++ [Event CaseClock (Ok now)].
Definition st_decided (a' : authorization) (d : PolicyDecision) (_ : unit) (w : events) : Prop :=
  decided hosts case_id rows url a' d w.
Definition st_sent (a' : authorization) (d : PolicyDecision) (g : NetworkGatewayResult) (_ : unit) (w : events) : Prop :=
  sent hosts case_id rows url headers a' d (Ok g) w.
Definition st_send_failed (a' : authorization) (d : PolicyDecision) (e : exn) (_ : unit) (w : events) : Prop :=
  sent hosts case_id rows url headers a' d (Raise e) w /\ own_exception e = false.

Lemma refreshed_held a' s w : st_refreshed a' s w -> held case_id rows url w.
Proof. intros (w0 & db & Hh & -> & _). by apply held_snoc. Qed.
Lemma clock_held a' now s w : st_clock a' now s w -> held case_id rows url w.
Proof. intros (w0 & Hr%refreshed_held & ->). by apply held_snoc. Qed.
Lemma decided_held a' d w : decided hosts case_id rows url a' d w -> held case_id rows url w.
Proof.
  intros (w0 & db & now & rec & Hh & -> & _). change [?a; ?b; ?c] with ([a] ++ [b] ++ [c]).
  rewrite !app_assoc. by repeat apply held_snoc.
Qed.
Lemma internal_failed w e s : held case_id rows url w -> internal e = true -> st_failed e s w.
Proof. intros Hh He. split; [done|]. by intros m ->. Qed.

(** One call of the gateway's caller that keeps the assertion. *)
Lemma held_perform c w (Q : result exn (answer c) -> unit -> events -> Prop) : held case_id rows url w ->
  is_request (Event c (Raise OtherException)) || is_store (Event c (Raise OtherException)) = false ->
  (forall e, own_exception e = false -> st_failed e tt (w ++ [Event c (Raise e)]) -> Q (Raise e) tt (w ++ [Event c (Raise e)])) ->
  (forall x, held case_id rows url (w ++ [Event c (Ok x)]) -> Q (Ok x) tt (w ++ [Event c (Ok x)])) ->
  verified_case (perform c) Q w.
Proof.
  intros Hh Hs Hf Hk. apply verified_perform. intros [x|e] Hd; cbn.
  - apply Hk. by apply held_snoc.
  - cbn in Hd. apply Hf; [done|]. split; [by apply held_snoc|]. by intros m ->.
Qed.

Lemma execute_held w : held case_id rows url w ->
  verified_case (execute hosts case_services url (endpoint_method (case_endpoint rows))
      (case_authorization rows) headers (Some (refresh_case t))
      (Some (observe_case t (test_case_id (case_test_case rows)))) None false None)
    (executed hosts url (endpoint_method (case_endpoint rows)) (case_authorization rows) st_failed st_sent st_send_failed) w.
Proof.
  intros Hh. apply (execute_rule record_events documented hosts case_services url _ (case_authorization rows) headers
    (refresh_case t) (observe_case t (test_case_id (case_test_case rows))) None st_held st_failed st_refreshed
    st_clock st_decided st_decided); [..|exact Hh].
  - intros [] w' H e. by apply internal_failed.
  - intros a' [] w' H%refreshed_held e. by apply internal_failed.
  - intros a' now [] w' H%clock_held e. by apply internal_failed.
  - intros a' d [] w' H%decided_held e. by apply internal_failed.
  - intros e [] w' [H _] c m. by split.
  - intros [] w' H. by apply held_perform.
  - intros d [] w' H. unfold observe_case. destruct (append_policy_decision _ _ _ _ _ _); [by apply held_perform|].
    by apply verified_raise, internal_failed.
  - intros k x [] w' H. by apply held_perform.
  - intros [] w' H. apply verified_bind. unfold refresh_case. apply held_perform; [done..|]. intros db Hw.
    destruct (load_execution_authorization t db) as [a'|] eqn:El; [|by apply verified_raise, internal_failed].
    apply verified_ret. by exists w', db.
  - intros a' [] w' H. apply held_perform; [by eapply refreshed_held | done..|]. intros now _. by exists w'.
  - intros a' now d Hd [] w' H. unfold observe_case.
    destruct (append_policy_decision _ _ _ _ _ _) as [rec|] eqn:Er; [|by apply verified_raise, internal_failed; [eapply clock_held|]].
    apply held_perform; [by eapply clock_held | done..|]. intros [] _.
    destruct H as (w1 & (w0 & db & H0 & -> & Hl) & ->). exists w0, db, now, rec. by rewrite <- !app_assoc.
  - intros a' d _ [] w' H. by apply verified_ret.
  - intros a' d _ [] w' H. intros [g|e] Hd; cbn; [by exists w' | split; [by exists w' | done]].
Qed.

(** The handlers of the executor's outcome. *)
Lemma refused_sound w c m : held case_id rows url w -> verified_case (case_blocked rows c m) sound w.
Proof.
  intros Hh. apply blocked_verified. intros r tail Hs Hu H. right. exists rows, url, headers, w, tail.
  split; [done|]. split; [done|]. left. split; [done|]. split; [done|]. destruct H as [H|H]; [by left|].
  right. right. by exists c, m.
Qed.

Lemma sent_sound a' d ans revision w (r : result exn TestRun) tail : case_revision rows = Some revision ->
  cleared hosts url (endpoint_method (case_endpoint rows)) (case_authorization rows) a' d ->
  sent hosts case_id rows url headers a' d ans w -> unsent tail ->
  stopped tail r \/ run_stored rows url headers ans tail r -> case_sound hosts case_id r (w ++ tail).
Proof.
  intros Hr Hc Hs Hu H. right. exists rows, url, headers, w, tail. split; [done|]. split; [done|]. right.
  exists a', d, ans. split; [done|]. split; [done|]. destruct H as [H|H]; [by left | by right; right].
Qed.

Lemma run_case_sound w : held case_id rows url w -> verified_case (run_case hosts rows url headers) sound w.
Proof.
  intros Hh. unfold run_case. apply verified_try_else. eapply verified_mono; [by apply execute_held|].
  intros [response|e] [] w' H.
  - destruct H as (a' & d & g & Hc & Hs & ->). pose proof Hc as (_ & _ & _ & t1 & d1 & revision & r' & _ & _ & Hrev & _).
    exact (store_verified rows url headers (Ok g) "succeeded" revision w' sound Hrev eq_refl
      (fun r tail Hu H => sent_sound a' d (Ok g) revision w' r tail Hrev Hc Hs Hu H)).
  - destruct H as [[Hw He]|(a' & d & e' & Hc & [Hs Hown] & ->)].
    + assert (Hend : (forall c m, e <> ExecutionBlockedError c m) -> case_sound hosts case_id (Raise e) w').
      { intros Hb. right. exists rows, url, headers, w', []. rewrite app_nil_r. split; [done|]. split; [by constructor|].
        left. split; [done|]. split; [by constructor|]. right. left. by exists e. }
      destruct e; try (apply Hend; done); [by apply refused_sound | by destruct (He message)].
    + pose proof Hc as (_ & _ & _ & t1 & d1 & revision & r' & _ & _ & Hrev & _).
      assert (Hend : sent_exception e' = e' -> case_sound hosts case_id (Raise e') w').
      { intros _. right. exists rows, url, headers, w', []. rewrite app_nil_r. split; [done|]. split; [by constructor|].
        right. exists a', d, (Raise e'). split; [done|]. split; [done|]. right. left. exists e'. split_and!; try done.
        by intros c m ->. }
      destruct e'; try discriminate Hown; try (by apply Hend). cbn [sent_exception].
      exact (store_verified rows url headers (Raise (GatewayFailure code reason)) "failed" revision w' sound Hrev eq_refl
        (fun r tail Hu H => sent_sound a' d (Raise (GatewayFailure code reason)) revision w' r tail Hrev Hc Hs Hu H)).
Qed.
End run.

Lemma case_headers_verified id actor w0 w : idle w -> (exists ext, w = w0 ++ ext) ->
  verified_case (case_headers id actor) (fun _ _ w' => idle w' /\ exists ext, w' = w0 ++ ext) w.
Proof.
  intros Hi Hx. assert (Hext : forall w1 e, (exists ext, w1 = w0 ++ ext) -> exists ext, w1 ++ [e] = w0 ++ ext).
  { intros w1 e [ext ->]. exists (ext ++ [e]). by rewrite app_assoc. }
  assert (Hblock : forall m w1, idle w1 -> (exists ext, w1 = w0 ++ ext) ->
    verified_case (_ ← perform (CaseStatus id "blocked"); _ ← perform CaseCommit; raise (TestExecutionError m))
      (fun (_ : result exn (list (string * string))) _ w' => idle w' /\ exists ext, w' = w0 ++ ext) w1).
  { intros m w1 H1 H2. apply verified_bind. intros [[]|e] _; cbn; [|by auto with platform].
    apply verified_bind. intros [[]|e] _; cbn; try apply verified_raise; by auto 6 with platform. }
  unfold case_headers. apply verified_try. apply verified_bind.
  destruct (bool_decide _).
  - apply verified_bind. intros [token|e] _; cbn; [|by destruct e; cbn; auto with platform].
    apply verified_ret, verified_bind, verified_lift. assert (idle (w ++ [Event (CaseToken (identity_id actor)) (Ok token)])) by auto with platform.
    destruct (context_result _) as [c|e]; [|by destruct e; auto]. apply verified_lift.
    destruct (context_result _) as [h|e]; [by auto | by destruct e; auto].
  - apply verified_ret, verified_bind, verified_lift. destruct (context_result _) as [c|e]; [|by destruct e; auto].
    apply verified_lift. destruct (context_result _) as [h|e]; [by auto | by destruct e; auto].
Qed.

Lemma execute_case_sound hosts case_id :
  verified_case (execute_case hosts case_id) (fun r _ w => case_sound hosts case_id r w) [].
Proof.
  assert (Hf : forall (e : exn) w, idle w -> case_sound hosts case_id (Raise e) w).
  { intros e w [Hs Hu]. left. split_and!; [by exists e | done | by left]. }
  unfold execute_case. apply verified_bind. eapply verified_mono; [apply load_case_rows_verified|].
  intros [rows|e] [] w [Hi Ha]; [|by apply Hf].
  apply verified_bind, verified_lift. destruct (build_test_case_url _ _ _) as [url|e] eqn:Hu; [|by apply Hf].
  apply verified_bind. eapply verified_mono; [apply (case_headers_verified _ _ w w); [done | exists []; by rewrite app_nil_r]|].
  intros [headers|e] [] w' [Hi' [ext ->]]; [|by apply Hf].
  apply verified_bind. intros [[x|]|e] _; cbn.
  - apply verified_bind, verified_ret, verified_bind. intros [[]|e] _; cbn.
    + apply run_case_sound. exists (w ++ ext), x, []. rewrite <- !app_assoc. split; [done|].
      split; [|split; [|done]].
      * rewrite app_assoc. apply Forall_app. split; [apply Hi' | by repeat constructor].
      * destruct Ha as (A1 & A2 & A3 & A4 & S1 & S2 & S3 & S4 & S5). unfold admitted. split_and!; auto with platform.
    + left. split_and!; [by exists e | apply silent_snoc; [apply silent_snoc; [apply Hi' | done] | done]|].
      right. by eexists _, CaseCommit, e.
  - apply verified_bind, verified_bind. intros [[]|e] _; cbn; try apply verified_raise; apply Hf; auto 8 with platform.
  - apply Hf. auto with platform.
Qed.

Lemma case_run_sound hosts case_id env evs res : (forall h c, documented (Event c (env h c))) ->
  case_run hosts case_id env = (evs, res) -> case_sound hosts case_id res evs /\ Forall documented evs.
Proof.
  intros Hd H. unfold case_run in H.
  destruct (wp_sound record_events documented _ _ _ env [] (execute_case_sound hosts case_id) Hd) as (w & Hf & Hq).
  pose proof (run_answers documented env (execute_case hosts case_id tt) [] Hd) as Ha.
  rewrite follow_record_events in Hf. destruct (run env (execute_case hosts case_id tt) []) as [evs' [r' []]].
  injection H as <- <-. injection Hf as <-. split; [exact Hq | exact Ha].
Qed.

Lemma silent_unsent w : silent w -> unsent w.
Proof. intros H. eapply Forall_impl; [exact H|]. intros e He. by apply orb_false_iff in He as [He _]. Qed.

(** The request is the only one and its place in the run is determined. *)
Lemma request_position (w0 tail : events) req ans : unsent w0 -> unsent tail ->
  count_if is_request (w0 ++ [Event (CaseRequest req) ans] ++ tail) = 1%nat /\
  forall pre req' ans' post, w0 ++ [Event (CaseRequest req) ans] ++ tail = pre ++ Event (CaseRequest req') ans' :: post ->
    pre = w0 /\ req' = req.
Proof.
  intros H0 Ht. split.
  - rewrite !count_if_app, (proj2 (count_if_zero is_request w0) H0), (proj2 (count_if_zero is_request tail) Ht). done.
  - intros pre req' ans' post. revert pre. induction H0 as [|e w0 He _ IH]; intros [|e' pre] Heq; cbn in Heq.
    + by simplify_eq.
    + injection Heq as <- Heq. exfalso. unfold unsent in Ht. rewrite Heq, Forall_app in Ht. destruct Ht as [_ Ht].
      by inversion Ht.
    + injection Heq as -> _. done.
    + injection Heq as <- Heq. destruct (IH pre Heq) as [-> ->]. done.
Qed.

Lemma held_silent c rows url w : held c rows url w -> silent w.
Proof. by intros (pre & x & mid & -> & Hs & _). Qed.

(** * Properties *)

(** C19: A direct execution sends at most one request, and only after everything that must
    come before it: the rows that were read require no plan approval and belong to one
    Target; the status, which was not running, was set to running by this run; the policy
    allowed the request before; and the last three calls before the request read the
    authorization afresh, read the clock and recorded the decision that allows it, on the
    same revision. The request is the GET of the test case's URL. *)
Theorem direct_request_gated hosts case_id env evs res (Hdocumented : forall h c, documented (Event c (env h c)))
    (H : case_run hosts case_id env = (evs, res)) :
  (count_if is_request evs <= 1)%nat /\
  forall pre req ans post, evs = pre ++ Event (CaseRequest req) ans :: post ->
    exists rows url headers a' d, decided hosts case_id rows url a' d pre /\
      cleared hosts url (endpoint_method (case_endpoint rows)) (case_authorization rows) a' d /\
      req = request_for url headers a'.1.1.
Proof.
  destruct (case_run_sound _ _ _ _ _ Hdocumented H) as [Hs _]. clear H Hdocumented.
  assert (Hnone : forall w, unsent w -> (count_if is_request w <= 1)%nat /\
    forall pre req ans post, w = pre ++ Event (CaseRequest req) ans :: post -> False).
  { intros w Hw. rewrite (proj2 (count_if_zero is_request w) Hw). split; [lia|].
    intros pre req ans post ->. apply Forall_app in Hw as [_ Hw]. by inversion Hw. }
  destruct Hs as [(_ & Hs & _)|(rows & url & headers & w0 & tail & -> & Hu & [(Hh & _ & _)|(a' & d & ans & Hc & Hs & _)])].
  - destruct (Hnone evs (silent_unsent _ Hs)) as [Hn Hno]. split; [done|]. intros pre req ans post Heq.
    by destruct (Hno _ _ _ _ Heq).
  - destruct (Hnone (w0 ++ tail)) as [Hn Hno]; [by apply Forall_app; split; [eapply silent_unsent, held_silent|]|].
    split; [done|]. intros pre req ans post Heq. by destruct (Hno _ _ _ _ Heq).
  - destruct Hs as (w1 & Hd & ->). pose proof (decided_held _ _ _ _ _ _ _ Hd) as Hh1.
    destruct (request_position w1 tail (request_for url headers a'.1.1) ans) as [Hn Hpos];
      [eapply silent_unsent, held_silent; exact Hh1 | done|].
    rewrite <- app_assoc. rewrite Hn. split; [done|]. intros pre req ans' post Heq.
    destruct (Hpos _ _ _ _ Heq) as [-> ->]. by exists rows, url, headers, a', d.
Qed.

(** Nothing that a direct execution does goes unrecorded: when it returns a run, that run
    is the stored outcome of the one request, with its audit record and the final status,
    committed; and when an acquired test case is refused, the refusal was stored as status
    and audit record and committed before it was raised. *)
Theorem direct_outcome_recorded hosts case_id env evs res (Hdocumented : forall h c, documented (Event c (env h c)))
    (H : case_run hosts case_id env = (evs, res)) :
  (forall run, res = Ok run -> exists rows url headers a' d ans w0 tail, evs = w0 ++ tail /\
     sent hosts case_id rows url headers a' d ans w0 /\ run_stored rows url headers ans tail res) /\
  (forall c m, res = Raise (ExecutionBlockedError c m) -> Exists (fun e => acquires e = true) evs ->
     exists rows w0 tail, evs = w0 ++ tail /\ refusal_recorded rows c m tail res).
Proof.
  destruct (case_run_sound _ _ _ _ _ Hdocumented H) as [Hs Hd]. clear H Hdocumented.
  assert (Hstop : forall w tail c m, evs = w ++ tail -> ~ stopped tail (Raise (ExecutionBlockedError c m))).
  { intros w tail c m -> (pre & ca & e & -> & [= <-]). rewrite !Forall_app in Hd. destruct Hd as (_ & _ & Hd).
    by inversion Hd. }
  destruct Hs as [([e ->] & Hs & Hu)|(rows & url & headers & w0 & tail & Hevs & _ & Hs)].
  - split; [done|]. intros c m [= ->] Hacq. destruct Hu as [Hu|Hu]; [|by destruct (Hstop [] evs c m eq_refl)].
    apply Exists_exists in Hacq as (e & Hin & He). unfold unacquired in Hu. rewrite Forall_forall in Hu.
    rewrite (Hu e Hin) in He. done.
  - destruct Hs as [(Hh & _ & [Hs|[(e & -> & _ & Hb)|(c & m & Hr)]])|(a' & d & ans & _ & Hs & [Hr|[(e & -> & _ & _ & Hb)|Hr]])].
    + split; [by intros run ->; destruct Hs as (? & ? & ? & _ & [=])|]. intros c m -> _. by destruct (Hstop w0 tail c m).
    + split; [done|]. intros c m [= ->]. by destruct (Hb c m).
    + split; [intros run ->; by destruct Hr as (? & _ & _ & [=])|]. intros c' m' Hres _.
      exists rows, w0, tail. split; [done|]. pose proof Hr as (rec & _ & _ & Hr'). rewrite Hr' in Hres. by injection Hres as <- <-.
    + split; [by intros run ->; destruct Hr as (? & ? & ? & _ & [=])|]. intros c m -> _. by destruct (Hstop w0 tail c m).
    + split; [done|]. intros c m [= ->]. by destruct (Hb c m).
    + split; [intros run _; by exists rows, url, headers, a', d, ans, w0, tail|].
      intros c m ->. by destruct Hr as (? & ? & ? & ? & _ & _ & _ & [=]).
Qed.

(** * Witnesses *)

Definition open_revision : AuthorizationRevision :=
  mkRevision 11 7 1 "active" (Some 1000) (Some 9000) true f1 true false false false false false.
Definition open_db : Database :=
  mkDatabase {[ 1 := lab_target ]} {[ 11 := open_revision ]} [lab_scope]
    {[ 21 := lab_alice; 22 := lab_bob; 23 := lab_guest ]} {[ 31 := lab_order ]} {[ 41 := lab_endpoint ]}
    {[ 51 := lab_case ]} {[ 81 := lab_binding ]} ∅ [] [] [].
(** Every call is answered; the clock reads [now]. *)
Definition case_environment (now : timestamp) : environment case_call := fun _ c =>
  match c with
  | CaseRead | CaseFresh => Ok open_db
  | CaseAcquire id _ => Ok (Some id)
  | CaseInsert _ => Ok 91
  | CaseReload id => Ok (mkTestRun id 51 (Some 11) None (Some 200) (Some "{}") (Some 12) None)
  | CaseToken _ => Ok "token"
  | CaseClock => Ok now
  | CaseRequest _ => Ok lab_response
  | CaseCommit | CaseStatus _ _ | CaseAudit _ | CaseAuditFresh _ | CaseRateWait _ _ => Ok tt
  end.
Lemma case_environment_documented now h c : documented (Event c (case_environment now h c)).
Proof. by destruct c. Qed.

Definition direct_completed := case_run ["localhost"] 51 (case_environment 2000).
Definition direct_refused := case_run ["localhost"] 51 (case_environment 9500).

Lemma direct_request_gated_witness :
  count_if is_request direct_completed.1 = 1%nat /\ (count_if is_request direct_completed.1 <= 1)%nat.
Proof.
  split; [vm_compute; reflexivity|].
  apply (direct_request_gated ["localhost"] 51 (case_environment 2000) direct_completed.1 direct_completed.2
    (case_environment_documented 2000)).
  unfold direct_completed. by destruct (case_run _ _ _).
Defined.

(** After the end of the authorization the acquired test case is refused. *)
Lemma direct_outcome_recorded_witness : exists c m rows w0 tail,
  direct_refused.1 = w0 ++ tail /\ refusal_recorded rows c m tail direct_refused.2.
Proof.
  exists "authorization_expired", "Authorization has expired.".
  apply (direct_outcome_recorded ["localhost"] 51 (case_environment 9500) direct_refused.1 direct_refused.2
    (case_environment_documented 9500)).
  - unfold direct_refused. by destruct (case_run _ _ _).
  - vm_compute. reflexivity.
  - apply Exists_exists. exists (Event (CaseAcquire 51 "pending") (Ok (Some 51))). split; [|reflexivity].
    apply (list_elem_of_lookup_2 _ 9). vm_compute. reflexivity.
Defined.
