(* ===== verification/OpenApiScan.v ===== *)
(** The OpenAPI scanner, [OpenAPIScanner] of src/backend/app/scanners/openapi.py, with the
    credential of src/backend/app/services/openapi_credentials.py, as the import route
    calls it. *)

From S2P Require Import Prelude.
From S2P Require Import PyStr.
From S2P Require Import PyFloat.
From S2P Require Import PyJson.
From S2P Require Import Models.
From S2P Require Import Samples.
From S2P Require Import ScopePolicy.
From S2P Require Import Destination.
From S2P Require Import Gateway.
From S2P Require Import AuthContext.
From S2P Require Import Database.
From S2P Require Import SafetyAudit.
From S2P Require Import Effects.
From S2P Require Import OpenApi.
From S2P Require Import HttpExecutor.
From S2P Require Import ExecutorRule.
From S2P Require Import PlanExecution.

Open Scope Z_scope.

(** [OpenAPIScanResult] *)
Record OpenAPIScanResult := mkScanResult {
  scan_source_url : string;
  document_sha256 : string;
  document_size_bytes : Z;
  document_encoding : string;
  decoded_document_sha256 : string;
  decoded_document_size_bytes : Z;
  scan_endpoints : list ParsedEndpoint;
  scan_credential_binding_id : option Z
}.

(** [OpenAPIImportRecord] without its id and time *)
Record ImportRecord := mkImportRecord {
  record_target_id : Z;
  record_scan : OpenAPIScanResult;
  discovered_endpoint_count : Z
}.

(** The calls of an import: statements of its session ([ImportInsert] is the insert that
    does nothing on a conflict, answered with the new id; [ImportSelect] reads the row of a
    path and method; [ImportFlush] writes the changed rows and the record, answered with its
    id), of fresh sessions, and the services of the scanner. *)
Inductive import_call : Type :=
| ImportRead
| ImportCommit
| ImportRollback
| ImportInsert (target : Z) (p : ParsedEndpoint)
| ImportSelect (target : Z) (path method : string)
| ImportFlush (target : Z) (changed : list ParsedEndpoint) (record : ImportRecord)
| ImportFresh
| ImportAudit (r : SafetyDecisionRecord)
| ImportToken (identity binding : Z)
| ImportClock
| ImportRateWait (key : string) (rate : float)
| ImportRequest (r : GatewayRequest).

#[export] Instance import_interface : Interface import_call := fun c =>
  match c with
  | ImportRead | ImportFresh => Database
  | ImportInsert _ _ => option Z
  | ImportSelect _ _ _ => option (Z * ParsedEndpoint)
  | ImportFlush _ _ _ => Z
  | ImportToken _ _ => string
  | ImportClock => timestamp
  | ImportRequest _ => NetworkGatewayResult
  | ImportCommit | ImportRollback | ImportAudit _ | ImportRateWait _ _ => unit
  end.

Abbreviation IM := (M import_call unit).

(** What [json.loads] of bytes raises: [ValueError] (of which [JSONDecodeError] and
    [UnicodeDecodeError] are kinds), [RecursionError], or anything else. *)
Inductive loads_error : Type := LoadsValueError | LoadsRecursionError | LoadsOtherError.

(** * The callbacks of the route *)

(** [build_execution_authorization_refresh] *)
Definition import_refresh (target : Z) : IM authorization :=
  db ← perform ImportFresh;
  match load_execution_authorization target db with Some a => mret a | None => raise OtherException end.

(** [build_policy_decision_observer] *)
Definition import_observe (target : Z) (d : PolicyDecision) : IM unit :=
  match append_policy_decision "openapi_import" target d None None None with
  | Ok r => perform (ImportAudit r)
  | Raise _ => raise OtherException
  end.

Definition credential_unavailable : exn :=
  OpenAPICredentialError "The selected OpenAPI credential is unavailable.".

(** The condition on the binding and its identity. *)
Definition usable_credential (target binding : Z) (db : Database) : option TestIdentity :=
  b ← bindings db !! binding;
  identity ← identities db !! binding_test_identity_id b;
  if binding_is_active b && bool_decide (binding_auth_type b = "bearer")
     && bool_decide (source_type b = "stored_secret") && identity_is_active identity
     && bool_decide (auth_type identity = binding_auth_type b) && (identity_target_id identity =? target)
  then Some identity else None.

(** [build_openapi_credential_refresh] *)
Definition openapi_credential_refresh (target binding : Z) : IM AuthenticationContext :=
  try_except
    (db ← perform ImportFresh;
     identity ← require_or (usable_credential target binding db) credential_unavailable;
     token ← perform (ImportToken (identity_id identity) binding);
     lift (context_result (build_authentication_context identity (Some token))))
    (fun e => match e with
              | BearerCredentialError _ | AuthenticationFailure _ => Some (raise credential_unavailable)
              | _ => None
              end).

(** * The scanner *)

Definition scan_blocked {A} (code reason : string) : IM A := raise (OpenAPIExecutionBlocked code reason).
Definition scan_unless (b : bool) (code reason : string) : IM unit := if b then mret tt else scan_blocked code reason.

(** [_observe_policy_decision] *)
Definition observe_scan_decision (decision : PolicyDecision) (observer : option (PolicyDecision -> IM unit)) : IM unit :=
  match observer with
  | None => raise (OpenAPIAuditError "Required safety audit observer is unavailable.")
  | Some observe =>
      try_except (observe decision) (fun e =>
        if is_exception e then Some (raise (OpenAPIAuditError "Required safety audit record could not be persisted."))
        else None)
  end.

Definition raise_if_scan_denied (decision : PolicyDecision) : IM unit :=
  if allowed decision then mret tt else raise (OpenAPIPolicyDenied (code decision) (reason decision)).

(** [self.policy_engine.evaluate(...)] *)
Definition evaluate_source (hosts : list string) (source_url : string) (a : authorization) : IM PolicyDecision :=
  t ← perform ImportClock;
  lift (match evaluate hosts a.1.1 a.1.2 a.2 source_url "GET" None t with
        | Ok d => Ok d
        | Raise _ => Raise OtherException
        end).

Definition scan_wait (target_id : Z) (revision : option AuthorizationRevision) : IM unit :=
  try_except
    (match revision with
     | None => raise OtherException
     | Some r => perform (ImportRateWait (rate_key target_id) (max_requests_per_second r))
     end)
    (fun e => match e with
              | RateLimitConfigurationError =>
                  Some (scan_blocked "invalid_authorization_rate_limit"
                    "AuthorizationRevision request rate limit must be finite and greater than zero.")
              | RateLimitCoordinationError =>
                  Some (scan_blocked "shared_rate_coordination_failed" "Shared request rate coordination failed.")
              | _ => None
              end).

(** The context of the selected binding; any [Exception] of the refresh blocks the scan. *)
Definition scan_context (credential_binding_id : option Z) (refresh_credential : option (IM AuthenticationContext))
    : IM (option AuthenticationContext) :=
  match credential_binding_id with
  | None => mret None
  | Some _ =>
      match refresh_credential with
      | None => scan_blocked "openapi_credential_unavailable" "The selected OpenAPI credential is unavailable."
      | Some refresh =>
          try_except (c ← refresh; mret (Some c)) (fun e =>
            if is_exception e then
              Some (scan_blocked "openapi_credential_unavailable" "The selected OpenAPI credential is unavailable.")
            else None)
      end
  end.

Definition scan_headers (context : option AuthenticationContext) : IM (list (string * string)) :=
  let headers := [("Accept", "application/json"); ("Accept-Encoding", "gzip")] in
  match context with
  | None => mret headers
  | Some c =>
      match apply_authentication_context (Some headers) c with
      | Ok h => mret h
      | Raise _ => scan_blocked "openapi_credential_unavailable" "The selected OpenAPI credential is unavailable."
      end
  end.

Section scanner.
Variable hosts : list string.
(** [hashlib.sha256(...).hexdigest()], [json.loads] and the decompressor *)
Variable sha256 : string -> string.
Variable json_loads : string -> result loads_error json.
Context {decoder : Type}.
Variable decompressobj : decoder.
Variable decompress : decoder -> string -> Z -> option (string * string * decoder).
Variable eof : decoder -> bool.
Variable unused_data : decoder -> string.
Variable flush : decoder -> Z -> option string.

(** The tuple that [_fetch_schema] returns. *)
Record FetchedDocument := mkFetched {
  fetched_sha256 : string;
  fetched_size : Z;
  fetched_encoding : string;
  fetched_decoded_sha256 : string;
  fetched_decoded_size : Z;
  fetched_schema : list (string * json)
}.

Definition load_document (decoded : string) : result exn json :=
  match json_loads decoded with
  | Ok data => Ok data
  | Raise LoadsValueError => Raise (OpenAPIScanError "OpenAPI response is not valid JSON")
  | Raise LoadsRecursionError => Raise (OpenAPIParseError "openapi_document_too_deep")
  | Raise LoadsOtherError => Raise OtherException
  end.

(** The end of [_fetch_schema], from the response on. The decoder's fuel is enough
    ([decode_gzip_total]). *)
Definition read_document (response : NetworkGatewayResult) : result exn FetchedDocument :=
  _ ← guard_or (status_code response <? 400) (OpenAPIScanError "OpenAPI retrieval returned an error status");
  let body := gateway_body response in
  '(normalized, decoded) ←
    match decode_openapi_document decompressobj decompress eof unused_data flush body (content_encoding response) with
    | Some r => r
    | None => Raise OtherException
    end;
  data ← load_document decoded;
  _ ← validate_openapi_structure data;
  match data with
  | JObj schema => Ok (mkFetched (sha256 body) (byte_len body) normalized (sha256 decoded) (byte_len decoded) schema)
  | _ => Raise (OpenAPIScanError "OpenAPI root must be a JSON object")
  end.

Definition fetch_request (target : Target) (url : string) (headers : list (string * string)) : GatewayRequest :=
  mkRequest (target_id target) (network_mode target) "GET" url headers MAX_OPENAPI_RESPONSE_BYTES (float_of_Z 5) false.

(** [_fetch_schema] *)
Definition fetch_schema (target : Target) (url : string) (context : option AuthenticationContext) : IM FetchedDocument :=
  headers ← scan_headers context;
  response ← try_except (perform (ImportRequest (fetch_request target url headers)))
    (fun e => match e with
              | GatewayFailure code reason => Some (raise (OpenAPIScanError (code +:+ ": " +:+ reason)))
              | _ => None
              end);
  lift (read_document response).

(** The parser's [ValueError]s. *)
Definition parsed_schema (schema : list (string * json)) : result exn (list ParsedEndpoint) :=
  match parse_openapi_schema schema with
  | Ok endpoints => Ok endpoints
  | Raise (ParseValueError _) => Raise (OpenAPIScanError "OpenAPI schema structure is invalid")
  | Raise (ParseFailure e) => Raise e
  end.

(** [OpenAPIScanner.scan] *)
Definition scan (a : authorization) (source_url : string) (refresh_authorization : option (IM authorization))
    (policy_decision_observer : option (PolicyDecision -> IM unit)) (credential_binding_id : option Z)
    (refresh_credential : option (IM AuthenticationContext)) : IM OpenAPIScanResult :=
  decision ← evaluate_source hosts source_url a;
  _ ← (if negb (allowed decision) then
         _ ← observe_scan_decision decision policy_decision_observer;
         raise_if_scan_denied decision
       else mret tt);
  refresh ← match refresh_authorization with
            | Some refresh => mret refresh
            | None => scan_blocked "authorization_refresh_missing"
                        "Persisted authorization refresh is required before OpenAPI fetch."
            end;
  _ ← scan_wait (target_id a.1.1) a.1.2;
  a' ← refresh;
  _ ← scan_unless (same_revision (decision_revision_id decision) a') "authorization_revision_changed"
        "Target authorization revision changed before fetch.";
  decision' ← evaluate_source hosts source_url a';
  _ ← observe_scan_decision decision' policy_decision_observer;
  _ ← raise_if_scan_denied decision';
  _ ← scan_unless (bool_decide (network_mode a'.1.1 = PRIVATE_LOCAL)) "external_network_mode_not_ready"
        "External/public-authorized OpenAPI retrieval is not available until the remaining release gates exist.";
  context ← scan_context credential_binding_id refresh_credential;
  fetched ← fetch_schema a'.1.1 source_url context;
  endpoints ← lift (parsed_schema (fetched_schema fetched));
  mret (mkScanResult source_url (fetched_sha256 fetched) (fetched_size fetched) (fetched_encoding fetched)
          (fetched_decoded_sha256 fetched) (fetched_decoded_size fetched) endpoints credential_binding_id).
End scanner.

(** * What a scan looks like *)

Abbreviation scan_events := (list (event import_call)).

Definition is_fetch_call (c : import_call) : bool := match c with ImportRequest _ => true | _ => false end.
Definition is_fetch (e : event import_call) : bool := is_fetch_call (event_call e).
Definition unfetched (w : scan_events) : Prop := Forall (fun e => is_fetch e = false) w.

(** The calls of the credential, and the context they give. *)
Definition credential_events (target : Z) (binding : option Z) (context : option AuthenticationContext)
    (w : scan_events) : Prop :=
  match binding with
  | None => w = [] /\ context = None
  | Some b => exists db identity token c,
      w = [Event ImportFresh (Ok db); Event (ImportToken (identity_id identity) b) (Ok token)] /\
      usable_credential target b db = Some identity /\
      build_authentication_context identity (Some token) = Ok c /\ context = Some c
  end.

(** The headers of the request. *)
Definition document_headers (context : option AuthenticationContext) (headers : list (string * string)) : Prop :=
  let base := [("Accept", "application/json"); ("Accept-Encoding", "gzip")] in
  match context with
  | None => headers = base
  | Some c => apply_authentication_context (Some base) c = Ok headers
  end.

Section gate.
Variable hosts : list string.
Variable url : string.
Variable binding : option Z.
Variable a : authorization.
Variable w0 : scan_events.

Abbreviation t := (target_id a.1.1).

(** Everything that comes before the request, in its order. *)
Definition fetch_cleared (a' : authorization) (d : PolicyDecision) (headers : list (string * string))
    (w : scan_events) : Prop :=
  exists t1 r0 db t2 rec context credential,
    w = w0 ++ [Event ImportClock (Ok t1); Event (ImportRateWait (rate_key t) (max_requests_per_second r0)) (Ok tt);
               Event ImportFresh (Ok db); Event ImportClock (Ok t2); Event (ImportAudit rec) (Ok tt)] ++ credential /\
    a.1.2 = Some r0 /\ load_execution_authorization t db = Some a' /\
    evaluate hosts a'.1.1 a'.1.2 a'.2 url "GET" None t2 = Ok d /\
    append_policy_decision "openapi_import" t d None None None = Ok rec /\
    cleared hosts url "GET" a a' d /\
    credential_events t binding context credential /\ document_headers context headers.

Section document.
Variable sha256 : string -> string.
Variable json_loads : string -> result loads_error json.
Context {decoder : Type}.
Variable decompressobj : decoder.
Variable decompress : decoder -> string -> Z -> option (string * string * decoder).
Variable eof : decoder -> bool.
Variable unused_data : decoder -> string.
Variable flush : decoder -> Z -> option string.

Abbreviation read := (read_document sha256 json_loads decompressobj decompress eof unused_data flush).

(** The result describes the response. *)
Definition describes (g : NetworkGatewayResult) (s : OpenAPIScanResult) : Prop :=
  exists f endpoints, read g = Ok f /\ parsed_schema (fetched_schema f) = Ok endpoints /\
    s = mkScanResult url (fetched_sha256 f) (fetched_size f) (fetched_encoding f) (fetched_decoded_sha256 f)
          (fetched_decoded_size f) endpoints binding.

Definition scan_sound (r : result exn OpenAPIScanResult) (w : scan_events) : Prop :=
  ((exists e, r = Raise e) /\ exists ext, w = w0 ++ ext /\ unfetched ext) \/
  exists a' d headers w1 ans,
    fetch_cleared a' d headers w1 /\
    w = w1 ++ [Event (ImportRequest (mkRequest (target_id a'.1.1) PRIVATE_LOCAL "GET" url headers
                                       MAX_OPENAPI_RESPONSE_BYTES (float_of_Z 5) false)) ans] /\
    match r with Ok s => exists g, ans = Ok g /\ describes g s | Raise _ => True end.

(** ** Lemmas *)

Abbreviation verified_scan m Q w := (verified record_events (fun _ => True) m Q tt w).

Section steps.
Context {A : Type} (Q : result exn A -> unit -> scan_events -> Prop).
Hypothesis fails : forall e ext, unfetched ext -> Q (Raise e) tt (w0 ++ ext).

Lemma unfetched_snoc ext e : unfetched ext -> is_fetch e = false -> unfetched (ext ++ [e]).
Proof. intros Hw He. apply Forall_app. split; [done|]. by constructor. Qed.

Lemma scan_perform c (k : answer c -> IM A) ext : unfetched ext -> is_fetch_call c = false ->
  (forall x, unfetched (ext ++ [Event c (Ok x)]) -> verified_scan (k x) Q (w0 ++ ext ++ [Event c (Ok x)])) ->
  verified_scan (perform c ≫= k) Q (w0 ++ ext).
Proof.
  intros Hw Hc Hk. apply verified_bind. record_call. intros [x|e] _; rewrite <- app_assoc.
  - apply Hk. by apply unfetched_snoc.
  - apply fails. by apply unfetched_snoc.
Qed.

Lemma scan_guard b c m (k : unit -> IM A) ext : unfetched ext ->
  (b = true -> verified_scan (k tt) Q (w0 ++ ext)) -> verified_scan (scan_unless b c m ≫= k) Q (w0 ++ ext).
Proof. intros Hw Hk. apply verified_bind. destruct b; [by apply Hk | by apply fails]. Qed.

Lemma scan_denied d (k : unit -> IM A) ext : unfetched ext ->
  (allowed d = true -> verified_scan (k tt) Q (w0 ++ ext)) -> verified_scan (raise_if_scan_denied d ≫= k) Q (w0 ++ ext).
Proof. intros Hw Hk. apply verified_bind. unfold raise_if_scan_denied. destruct (allowed d); [by apply Hk | by apply fails]. Qed.

Lemma scan_evaluate b (k : PolicyDecision -> IM A) ext : unfetched ext ->
  (forall now d, evaluate hosts b.1.1 b.1.2 b.2 url "GET" None now = Ok d ->
     unfetched (ext ++ [Event ImportClock (Ok now)]) -> verified_scan (k d) Q (w0 ++ ext ++ [Event ImportClock (Ok now)])) ->
  verified_scan (evaluate_source hosts url b ≫= k) Q (w0 ++ ext).
Proof.
  intros Hw Hk. apply verified_bind. unfold evaluate_source. apply verified_bind. record_call.
  intros [now|e] _; rewrite <- app_assoc; [|by apply fails, unfetched_snoc]. apply verified_lift.
  destruct (evaluate _ _ _ _ _ _ _ _) as [d|] eqn:E; [|by apply fails, unfetched_snoc].
  apply Hk; [done|]. by apply unfetched_snoc.
Qed.

Lemma scan_observe d (k : unit -> IM A) ext : unfetched ext ->
  (forall rec, append_policy_decision "openapi_import" t d None None None = Ok rec ->
     unfetched (ext ++ [Event (ImportAudit rec) (Ok tt)]) ->
     verified_scan (k tt) Q (w0 ++ ext ++ [Event (ImportAudit rec) (Ok tt)])) ->
  verified_scan (observe_scan_decision d (Some (import_observe t)) ≫= k) Q (w0 ++ ext).
Proof.
  intros Hw Hk. apply verified_bind, verified_try. unfold import_observe.
  destruct (append_policy_decision _ _ _ _ _ _) as [rec|] eqn:Er; [|by apply verified_raise, verified_raise, fails].
  record_call. intros [[]|e] _; rewrite <- app_assoc; [apply Hk; [done|]; by apply unfetched_snoc|].
  assert (unfetched (ext ++ [Event (ImportAudit rec) (Raise e)])) by by apply unfetched_snoc.
  destruct (is_exception e); [apply verified_raise|]; by apply fails.
Qed.

Lemma scan_rate r (k : unit -> IM A) ext : unfetched ext ->
  (unfetched (ext ++ [Event (ImportRateWait (rate_key t) (max_requests_per_second r)) (Ok tt)]) ->
     verified_scan (k tt) Q (w0 ++ ext ++ [Event (ImportRateWait (rate_key t) (max_requests_per_second r)) (Ok tt)])) ->
  verified_scan (scan_wait t (Some r) ≫= k) Q (w0 ++ ext).
Proof.
  intros Hw Hk. apply verified_bind, verified_try.
  record_call. intros [[]|e] _; rewrite <- app_assoc; [apply Hk; by apply unfetched_snoc|].
  assert (H : unfetched (ext ++ [Event (ImportRateWait (rate_key t) (max_requests_per_second r)) (Raise e)]))
    by by apply unfetched_snoc.
  destruct e; first [exact (fails _ _ H) | apply verified_raise, (fails _ _ H)].
Qed.

Lemma scan_refresh (k : authorization -> IM A) ext : unfetched ext ->
  (forall db a', load_execution_authorization t db = Some a' -> unfetched (ext ++ [Event ImportFresh (Ok db)]) ->
     verified_scan (k a') Q (w0 ++ ext ++ [Event ImportFresh (Ok db)])) ->
  verified_scan (import_refresh t ≫= k) Q (w0 ++ ext).
Proof.
  intros Hw Hk. apply verified_bind. unfold import_refresh. apply verified_bind. record_call.
  intros [db|e] _; rewrite <- app_assoc; [|by apply fails, unfetched_snoc].
  destruct (load_execution_authorization t db) as [a'|] eqn:E; [|by apply verified_raise, fails, unfetched_snoc].
  apply verified_ret, Hk; [done|]. by apply unfetched_snoc.
Qed.

(** The credential: its events, or a refusal. *)
Lemma scan_credential (k : option AuthenticationContext -> IM A) ext : unfetched ext ->
  (forall context credential, credential_events t binding context credential -> unfetched (ext ++ credential) ->
     verified_scan (k context) Q (w0 ++ ext ++ credential)) ->
  verified_scan (scan_context binding (openapi_credential_refresh t <$> binding) ≫= k) Q (w0 ++ ext).
Proof.
  intros Hw Hk. apply verified_bind. destruct binding as [b|] eqn:Hb; cbn.
  2: { apply verified_ret. specialize (Hk None []). rewrite app_nil_r in Hk. by apply Hk. }
  assert (Hf : forall e ext', unfetched ext' ->
    match (if is_exception e then Some (scan_blocked "openapi_credential_unavailable" "The selected OpenAPI credential is unavailable.") else None) with
    | Some m' => verified_scan m' (fun r (s' : unit) w' => match r with Ok x => verified record_events (fun _ => True) (k x) Q s' w' | Raise e => Q (Raise e) s' w' end) (w0 ++ ext')
    | None => Q (Raise e) tt (w0 ++ ext')
    end).
  { intros e ext' He. destruct (is_exception e); [apply verified_raise|]; by apply fails. }
  apply verified_try, verified_bind. unfold openapi_credential_refresh. apply verified_try, verified_bind. record_call.
  intros [db|e] _; rewrite <- app_assoc.
  2: { assert (Hw1 : unfetched (ext ++ [Event ImportFresh (Raise e)])) by by apply unfetched_snoc.
       pose proof (Hf e _ Hw1) as H1. pose proof (Hf credential_unavailable _ Hw1) as H2. destruct e; first [exact H1 | exact H2]. }
  assert (Hw1 : unfetched (ext ++ [Event ImportFresh (Ok db)])) by by apply unfetched_snoc.
  apply verified_bind. destruct (usable_credential t b db) as [identity|] eqn:Hu; [|by apply (Hf credential_unavailable)].
  apply verified_ret, verified_bind. record_call. intros [token|e] _; rewrite <- !app_assoc.
  2: { assert (Hw2 : unfetched (ext ++ [Event ImportFresh (Ok db)] ++ [Event (ImportToken (identity_id identity) b) (Raise e)]))
         by (rewrite app_assoc; by apply unfetched_snoc).
       pose proof (Hf e _ Hw2) as H1. pose proof (Hf credential_unavailable _ Hw2) as H2. destruct e; first [exact H1 | exact H2]. }
  assert (Hw2 : unfetched (ext ++ [Event ImportFresh (Ok db)] ++ [Event (ImportToken (identity_id identity) b) (Ok token)]))
    by (rewrite app_assoc; by apply unfetched_snoc).
  apply verified_lift. unfold context_result. 
  match goal with |- context [build_authentication_context identity ?o] =>
    destruct (build_authentication_context identity o) as [c|[m]] eqn:Hc end; cbn [catch].
  - apply verified_ret. apply (Hk (Some c)); [|done]. by exists db, identity, token, c.
  - by apply (Hf credential_unavailable).
Qed.
End steps.

Lemma fetch_verified (a' : authorization) context ext (Q : result exn FetchedDocument -> unit -> scan_events -> Prop) :
  (forall e, Q (Raise e) tt (w0 ++ ext)) ->
  (forall headers ans r, document_headers context headers ->
     match r with Ok f => exists g, ans = Ok g /\ read g = Ok f | Raise _ => True end ->
     Q r tt (w0 ++ ext ++ [Event (ImportRequest (fetch_request a'.1.1 url headers)) ans])) ->
  verified_scan (fetch_schema sha256 json_loads decompressobj decompress eof unused_data flush a'.1.1 url context) Q (w0 ++ ext).
Proof.
  intros Hf Hk. unfold fetch_schema. apply verified_bind.
  assert (Hsend : forall headers, document_headers context headers ->
    verified_scan (response ← try_except (perform (ImportRequest (fetch_request a'.1.1 url headers)))
      (fun e => match e with
                | GatewayFailure code reason => Some (raise (OpenAPIScanError (code +:+ ": " +:+ reason)))
                | _ => None
                end); lift (read response)) Q (w0 ++ ext)).
  { intros headers Hh. apply verified_bind, verified_try. record_call. intros [g|e] _; rewrite <- app_assoc.
    - apply verified_lift, Hk; [done|]. destruct (read g) as [f|] eqn:E; [by exists g | done].
    - pose proof (fun e' => Hk headers (Raise e) (Raise e') Hh Logic.I) as Hr. destruct e; exact (Hr _). }
  unfold scan_headers. destruct context as [c|]; cbn in *.
  - destruct (apply_authentication_context _ c) as [h|] eqn:E; [by apply verified_ret, Hsend | by apply verified_raise, Hf].
  - by apply verified_ret, Hsend.
Qed.

Lemma scan_verified :
  verified_scan (scan hosts sha256 json_loads decompressobj decompress eof unused_data flush a url
    (Some (import_refresh t)) (Some (import_observe t)) binding (openapi_credential_refresh t <$> binding))
    (fun r _ w => scan_sound r w) w0.
Proof.
  assert (Hf : forall (e : exn) ext, unfetched ext -> scan_sound (Raise e) (w0 ++ ext)).
  { intros e ext He. left. split; [by exists e | by exists ext]. }
  rewrite <- (app_nil_r w0). unfold scan. apply scan_evaluate; [done | constructor|]. intros t1 d1 Hd1 Hw1.
  apply verified_bind. destruct (allowed d1) eqn:Ha1; cbn [negb].
  2: { apply scan_observe; [done..|]. intros rec _ Hw. unfold raise_if_scan_denied. rewrite Ha1. by apply verified_raise, Hf. }
  apply verified_ret, verified_bind, verified_ret.
  destruct (evaluate_allowed_revision _ _ _ _ _ _ _ _ _ Hd1 Ha1) as (r0 & Hr0 & Hsel). rewrite Hr0.
  apply scan_rate; [done..|]. intros Hw2. apply scan_refresh; [done..|]. intros db a' Hl Hw3.
  apply scan_guard; [done..|]. intros Hs. unfold same_revision in Hs. bool_simpl.
  destruct a'.1.2 as [r'|] eqn:Hr'; [|done]. bool_simpl.
  apply scan_evaluate; [done..|]. intros t2 d2 Hd2 Hw4. apply scan_observe; [done..|]. intros rec Hrec Hw5.
  apply scan_denied; [done..|]. intros Ha2. apply scan_guard; [done..|]. intros Hn. bool_simpl.
  assert (Hcl : cleared hosts url "GET" a a' d2).
  { split; [done|]. split; [done|]. split; [done|]. exists t1, d1, r0, r'. rewrite Hr0, Hr'. split_and!; try done; congruence. }
  apply scan_credential; [done..|]. intros context credential Hcred Hw6. apply verified_bind.
  apply fetch_verified; [intros e; by apply Hf|]. intros headers ans r Hh Hr.
  assert (Hcleared : fetch_cleared a' d2 headers (w0 ++ ((((([] ++ [Event ImportClock (Ok t1)])
    ++ [Event (ImportRateWait (rate_key t) (max_requests_per_second r0)) (Ok tt)]) ++ [Event ImportFresh (Ok db)])
    ++ [Event ImportClock (Ok t2)]) ++ [Event (ImportAudit rec) (Ok tt)]) ++ credential)).
  { exists t1, r0, db, t2, rec, context, credential. by rewrite <- !app_assoc. }
  unfold fetch_request. rewrite Hn, app_assoc. destruct r as [f|e].
  - apply verified_bind, verified_lift. destruct Hr as (g & -> & Hg).
    destruct (parsed_schema (fetched_schema f)) as [es|] eqn:Hes.
    + apply verified_ret. right. eexists a', d2, headers, _, (Ok g). split; [exact Hcleared|]. split; [done|].
      exists g. split; [done|]. by exists f, es.
    + right. by eexists a', d2, headers, _, (Ok g).
  - right. by eexists a', d2, headers, _, ans.
Qed.
End document.
End gate.
