(* ===== verification/OpenApiImport.v ===== *)
(** The import of an OpenAPI document, [import_openapi] of src/backend/app/api/routes/openapi.py:
    what may be fetched, and what the table of endpoints contains afterwards. *)

From S2P Require Import Prelude.
From S2P Require Import PyStr.
From S2P Require Import PyFloat.
From S2P Require Import PyJson.
From S2P Require Import Models.
From S2P Require Import Samples.
From S2P Require Import ScopePolicy.
From S2P Require Import Destination.
From S2P Require Import Gateway.
From S2P Require Import AuthContext.
From S2P Require Import Database.
From S2P Require Import SafetyAudit.
From S2P Require Import Effects.
From S2P Require Import OpenApi.
From S2P Require Import HttpExecutor.
From S2P Require Import ExecutorRule.
From S2P Require Import PlanExecution.
From S2P Require Import OpenApiScan.

Open Scope Z_scope.

(** [==] of optional values. *)
Definition opt_py_eqb (x y : option json) : bool :=
  match x, y with None, None => true | Some a, Some b => py_eqb a b | _, _ => false end.

(** The two rows have the same path and method. *)
Definition endpoint_changed (endpoint parsed : ParsedEndpoint) : bool :=
  negb (bool_decide (parsed_operation_id endpoint = parsed_operation_id parsed))
  || negb (Bool.eqb (parsed_requires_auth endpoint) (parsed_requires_auth parsed))
  || negb (py_eqb (JArr (parsed_parameters endpoint)) (JArr (parsed_parameters parsed)))
  || negb (opt_py_eqb (parsed_request_body endpoint) (parsed_request_body parsed))
  || negb (opt_py_eqb (JArr <$> parsed_security endpoint) (JArr <$> parsed_security parsed)).

(** [OpenAPIImportResponse] *)
Record ImportResponse := mkImportResponse {
  response_target_id : Z;
  response_source_url : string;
  import_record_id : Z;
  response_document_sha256 : string;
  response_content_encoding : string;
  response_decoded_sha256 : string;
  discovered : Z;
  created : Z;
  updated : Z;
  unchanged : Z
}.

(** The counters and the rows whose attributes were set. *)
Record Upserts := mkUpserts {
  n_created : Z;
  n_updated : Z;
  n_unchanged : Z;
  changed_rows : list ParsedEndpoint
}.

(** The loop over the parsed endpoints. *)
Fixpoint upsert (target : Z) (parsed : list ParsedEndpoint) (acc : Upserts) : IM Upserts :=
  match parsed with
  | [] => mret acc
  | p :: rest =>
      inserted_id ← perform (ImportInsert target p);
      match inserted_id with
      | Some _ => upsert target rest (mkUpserts (n_created acc + 1) (n_updated acc) (n_unchanged acc) (changed_rows acc))
      | None =>
          row ← perform (ImportSelect target (parsed_path p) (parsed_method p));
          row ← require_or row OtherException;
          if endpoint_changed row.2 p then
            upsert target rest (mkUpserts (n_created acc) (n_updated acc + 1) (n_unchanged acc) (changed_rows acc ++ [p]))
          else upsert target rest (mkUpserts (n_created acc) (n_updated acc) (n_unchanged acc + 1) (changed_rows acc))
      end
  end.

(** The transaction after the scan. *)
Definition store_import (target : Z) (scan_result : OpenAPIScanResult) : IM (Upserts * Z) :=
  try_except
    (counts ← upsert target (scan_endpoints scan_result) (mkUpserts 0 0 0 []);
     record ← perform (ImportFlush target (changed_rows counts)
                (mkImportRecord target scan_result (Z.of_nat (length (scan_endpoints scan_result)))));
     _ ← perform ImportCommit;
     (mret (counts, record) : IM (Upserts * Z)))
    (fun e => if is_exception e then Some (_ ← perform ImportRollback; raise e) else None).

(** The [except] clauses around the scan. *)
Definition scan_http_error (e : exn) : option exn :=
  match e with
  | OpenAPIPolicyDenied code reason | OpenAPIExecutionBlocked code reason => Some (HTTPException 403 (Some code) reason)
  | OpenAPIScanError message | OpenAPIAuditError message => Some (HTTPException 502 None message)
  | OpenAPIParseError code => Some (HTTPException 502 None code)
  | _ => None
  end.

Definition import_read {A} (query : Database -> A) : IM A := db ← perform ImportRead; mret (query db).

(** The rows read before the scan. *)
Definition load_import (target_id : Z) : IM authorization :=
  target ← import_read (fun db => targets db !! target_id);
  target ← require_or target (HTTPException 404 None "Target not found.");
  revision ← match target_authorization_revision_id target with
             | Some r => import_read (fun db => revisions db !! r)
             | None => mret None
             end;
  scopes ← import_read (active_scopes (Models.target_id target));
  _ ← perform ImportCommit;
  mret (target, revision, scopes).

Section import.
Variable hosts : list string.
Variable sha256 : string -> string.
Variable json_loads : string -> result loads_error json.
Context {decoder : Type}.
Variable decompressobj : decoder.
Variable decompress : decoder -> string -> Z -> option (string * string * decoder).
Variable eof : decoder -> bool.
Variable unused_data : decoder -> string.
Variable flush : decoder -> Z -> option string.

Abbreviation scan_ := (scan hosts sha256 json_loads decompressobj decompress eof unused_data flush).

Definition scan_for_import (a : authorization) (source_url : string) (binding : option Z) : IM OpenAPIScanResult :=
  let target := target_id a.1.1 in
  try_except
    (scan_ a source_url (Some (import_refresh target)) (Some (import_observe target)) binding
       (openapi_credential_refresh target <$> binding))
    (fun e => raise <$> scan_http_error e).

(** [import_openapi] *)
Definition import_openapi (target_id : Z) (source_url : string) (binding : option Z) : IM ImportResponse :=
  a ← load_import target_id;
  scan_result ← scan_for_import a source_url binding;
  stored ← store_import (Models.target_id a.1.1) scan_result;
  let '(counts, record) := stored in
  mret (mkImportResponse (Models.target_id a.1.1) (scan_source_url scan_result) record (document_sha256 scan_result)
          (document_encoding scan_result) (decoded_document_sha256 scan_result)
          (Z.of_nat (length (scan_endpoints scan_result))) (n_created counts) (n_updated counts) (n_unchanged counts)).

Definition import_run (target_id : Z) (source_url : string) (binding : option Z) (env : environment import_call)
    : list (event import_call) * result exn ImportResponse :=
  let '(evs, (r, _)) := run env (import_openapi target_id source_url binding tt) [] in (evs, r).
End import.

(** * The table of endpoints

    The constraint [uq_endpoint_target_path_method] makes the table a map. [working] is
    what the transaction of the import sees, [committed] what is durable; [in_doubt] says
    that a commit was not answered. *)

Abbreviation endpoint_key := (Z * string * string)%type.
Abbreviation endpoint_table := (gmap endpoint_key ParsedEndpoint).
Definition key_of (target : Z) (p : ParsedEndpoint) : endpoint_key := (target, parsed_path p, parsed_method p).

Record endpoint_store := mkStore {
  working : endpoint_table;
  committed : endpoint_table;
  in_doubt : bool
}.
#[export] Instance endpoint_store_eq_dec : EqDecision endpoint_store.
Proof. solve_decision. Defined.
Definition settled (T : endpoint_table) : endpoint_store := mkStore T T false.

Section table.
(** What the columns keep of the values: a JSONB column normalizes numbers. *)
Variable column : ParsedEndpoint -> ParsedEndpoint.

(** The [UPDATE]s of a flush. The session leaves out a column whose new value equals the
    old one, so rows are meant up to [==]. *)
Definition write_rows (target : Z) (rows : list ParsedEndpoint) (T : endpoint_table) : endpoint_table :=
  foldl (fun T p => <[key_of target p := column p]> T) T rows.

(** The table after an event; [None] if the answer is not that of the table. *)
Definition store_step (st : endpoint_store) (e : event import_call) : option endpoint_store :=
  match e with Event c r =>
    match c as c' return result exn (answer c') -> option endpoint_store with
    | ImportInsert target p => fun r =>
        match r, working st !! key_of target p with
        | Ok (Some _), None => Some (mkStore (<[key_of target p := column p]> (working st)) (committed st) (in_doubt st))
        | Ok None, Some _ | Raise _, _ => Some st
        | _, _ => None
        end
    | ImportSelect target path method => fun r =>
        match r with
        | Ok row => if bool_decide (snd <$> row = working st !! (target, path, method)) then Some st else None
        | Raise _ => Some st
        end
    | ImportFlush target rows _ => fun r =>
        match r with
        | Ok _ => Some (mkStore (write_rows target rows (working st)) (committed st) (in_doubt st))
        | Raise _ => Some st
        end
    | ImportCommit => fun r =>
        match r with
        | Ok _ => Some (mkStore (working st) (working st) (in_doubt st))
        | Raise _ => Some (mkStore (working st) (committed st)
                             (in_doubt st || negb (bool_decide (working st = committed st))))
        end
    | ImportRollback => fun _ => Some (mkStore (committed st) (committed st) (in_doubt st))
    | _ => fun _ => Some st
    end r
  end.

(** The table after a run, if all the answers are those of the table. *)
Fixpoint replay (st : endpoint_store) (evs : scan_events) : option endpoint_store :=
  match evs with [] => Some st | e :: evs' => st' ← store_step st e; replay st' evs' end.

(** ** What an import makes of the table *)

(** The row of a parsed endpoint afterwards. *)
Definition new_row (target : Z) (T : endpoint_table) (p : ParsedEndpoint) : ParsedEndpoint :=
  match T !! key_of target p with
  | Some row => if endpoint_changed row p then column p else row
  | None => column p
  end.
Definition imported (target : Z) (parsed : list ParsedEndpoint) (T : endpoint_table) : endpoint_table :=
  foldl (fun W p => <[key_of target p := new_row target T p]> W) T parsed.

Definition is_new (target : Z) (T : endpoint_table) (p : ParsedEndpoint) : bool := is_none (T !! key_of target p).
Definition is_changed (target : Z) (T : endpoint_table) (p : ParsedEndpoint) : bool :=
  match T !! key_of target p with Some row => endpoint_changed row p | None => false end.
Definition is_same (target : Z) (T : endpoint_table) (p : ParsedEndpoint) : bool :=
  match T !! key_of target p with Some row => negb (endpoint_changed row p) | None => false end.

(** The counters after the loop, from the table before it. *)
Definition tally (target : Z) (T : endpoint_table) (parsed : list ParsedEndpoint) (acc : Upserts) : Upserts :=
  mkUpserts (n_created acc + Z.of_nat (count_if (is_new target T) parsed))
            (n_updated acc + Z.of_nat (count_if (is_changed target T) parsed))
            (n_unchanged acc + Z.of_nat (count_if (is_same target T) parsed))
            (changed_rows acc ++ filter (fun p => is_changed target T p = true) parsed).

(** The table after the inserts. *)
Definition insert_rows (target : Z) (parsed : list ParsedEndpoint) (T : endpoint_table) : endpoint_table :=
  foldl (fun W p => if is_new target W p then <[key_of target p := column p]> W else W) T parsed.

(** ** Lemmas *)

Lemma replay_app st w1 w2 : replay st (w1 ++ w2) = replay st w1 ≫= fun st' => replay st' w2.
Proof.
  revert st. induction w1 as [|e w1 IH]; intros st; cbn; [done|]. destruct (store_step st e); cbn; [apply IH | done].
Qed.

(** Folds that write at distinct keys. *)
Lemma fold_insert_lookup (f : ParsedEndpoint -> ParsedEndpoint) (target : Z) (rows : list ParsedEndpoint) (T : endpoint_table) (k : endpoint_key) :
  NoDup (key_of target <$> rows) ->
  foldl (fun W p => <[key_of target p := f p]> W) T rows !! k =
  match find_first (fun p => bool_decide (key_of target p = k)) rows with Some p => Some (f p) | None => T !! k end.
Proof.
  revert T. induction rows as [|p rows IH]; intros T Hnd; [done|]. cbn [foldl find_first].
  apply NoDup_cons in Hnd as [Hnew Hnd]. rewrite IH by done. case_bool_decide as E.
  - subst k. destruct (find_first _ rows) as [q|] eqn:Hq; [|by rewrite lookup_insert_eq].
    exfalso. apply Hnew. apply find_first_elem in Hq as [Hin Hk]. bool_simpl. rewrite <- Hk. by apply list_elem_of_fmap_2.
  - destruct (find_first _ rows); [done|]. by rewrite lookup_insert_ne.
Qed.

Lemma insert_rows_lookup (target : Z) (rows : list ParsedEndpoint) (T : endpoint_table) (k : endpoint_key) : NoDup (key_of target <$> rows) ->
  insert_rows target rows T !! k =
  match T !! k, find_first (fun p => bool_decide (key_of target p = k)) rows with
  | None, Some p => Some (column p)
  | row, _ => row
  end.
Proof.
  unfold insert_rows. revert T. induction rows as [|p rows IH]; intros T Hnd; cbn [foldl find_first]; [by destruct (T !! k)|].
  apply NoDup_cons in Hnd as [Hnew Hnd]. rewrite IH by done. unfold is_new.
  assert (Hnone : key_of target p = k -> find_first (fun q => bool_decide (key_of target q = k)) rows = None).
  { intros <-. apply find_first_none. intros q Hq. apply bool_decide_eq_false. intros Heq. apply Hnew.
    rewrite <- Heq. by apply list_elem_of_fmap_2. }
  destruct (T !! key_of target p) as [row|] eqn:Hrow; cbn [is_none]; case_bool_decide as E.
  - rewrite (Hnone E). subst k. by rewrite Hrow.
  - done.
  - rewrite (Hnone E). subst k. by rewrite lookup_insert_eq, Hrow.
  - by rewrite lookup_insert_ne.
Qed.

Lemma filter_keys_distinct (target : Z) (P : ParsedEndpoint -> bool) rows : NoDup (key_of target <$> rows) ->
  NoDup (key_of target <$> filter (fun p => P p = true) rows).
Proof.
  intros Hnd. eapply sublist_NoDup; [exact Hnd|]. apply fmap_sublist, sublist_filter.
Qed.

(** The inserts and the flush are the import. *)
Lemma flushed_imported (target : Z) (rows : list ParsedEndpoint) (T : endpoint_table) : NoDup (key_of target <$> rows) ->
  write_rows target (filter (fun p => is_changed target T p = true) rows) (insert_rows target rows T) = imported target rows T.
Proof.
  intros Hnd. apply map_eq. intros k. unfold write_rows, imported.
  rewrite !fold_insert_lookup, insert_rows_lookup by (try apply filter_keys_distinct; done).
  induction rows as [|p rows IH]; [by destruct (T !! k)|]. apply NoDup_cons in Hnd as [Hnew Hnd]. specialize (IH Hnd).
  rewrite filter_cons. cbn [find_first]. unfold new_row. destruct (decide (key_of target p = k)) as [<-|Hne].
  - rewrite (bool_decide_eq_true_2 (key_of target p = key_of target p)) by done. clear IH.
    assert (Hnone : forall P : ParsedEndpoint -> bool,
      find_first (fun q => bool_decide (key_of target q = key_of target p)) (filter (fun q => P q = true) rows) = None).
    { intros P. apply find_first_none. intros q Hq. apply bool_decide_eq_false. intros Heq. apply Hnew.
      rewrite <- Heq. apply list_elem_of_filter in Hq as [_ Hq]. by apply list_elem_of_fmap_2. }
    case_decide as Hc; unfold is_changed in Hc; cbn [find_first].
    + rewrite bool_decide_eq_true_2 by done. destruct (T !! key_of target p) as [row|]; [by rewrite Hc | done].
    + rewrite Hnone. destruct (T !! key_of target p) as [row|]; [by destruct (endpoint_changed row p) | done].
  - rewrite (bool_decide_eq_false_2 (key_of target p = k)) by done. case_decide; [|done]. cbn [find_first].
    by rewrite bool_decide_eq_false_2.
Qed.
End table.

(** * What an import looks like *)

(** The calls that leave the table alone, apart from a commit of nothing. *)
Definition reading (c : import_call) : Prop :=
  match c with ImportInsert _ _ | ImportSelect _ _ _ | ImportFlush _ _ _ | ImportRollback => False | _ => True end.
Definition quiet_events (w : scan_events) : Prop := Forall (fun e => reading (event_call e)) w.

(** The rows before the scan, each from a statement of its own. *)
Definition rows_read (id : Z) (a : authorization) (w : scan_events) : Prop :=
  exists db0 db1 db2 r,
    w = [Event ImportRead (Ok db0); Event ImportRead (Ok db1); Event ImportRead (Ok db2); Event ImportCommit (Ok tt)] /\
    targets db0 !! id = Some a.1.1 /\ target_authorization_revision_id a.1.1 = Some r /\
    a.1.2 = revisions db1 !! r /\ a.2 = active_scopes (target_id a.1.1) db2.

Definition response_to (target : Z) (s : OpenAPIScanResult) (record : Z) (counts : Upserts) : ImportResponse :=
  mkImportResponse target (scan_source_url s) record (document_sha256 s) (document_encoding s)
    (decoded_document_sha256 s) (Z.of_nat (length (scan_endpoints s))) (n_created counts) (n_updated counts)
    (n_unchanged counts).

Section shapes.
Variable column : ParsedEndpoint -> ParsedEndpoint.

(** The transaction that stores a scan's result: all of the import, or nothing of it unless
    the answer of the commit was lost. *)
Definition stored (target : Z) (s : OpenAPIScanResult) (r : result exn ImportResponse) (w : scan_events) : Prop :=
  Forall (fun e => is_fetch e = false) w /\
  match r with
  | Ok response => exists record counts, response = response_to target s record counts /\
      forall T st, replay column (settled T) w = Some st -> NoDup (key_of target <$> scan_endpoints s) ->
        st = settled (imported column target (scan_endpoints s) T) /\
        counts = tally target T (scan_endpoints s) (mkUpserts 0 0 0 [])
  | Raise _ => forall T st, replay column (settled T) w = Some st -> committed st = T \/ in_doubt st = true
  end.

Section document.
Variable hosts : list string.
Variable sha256 : string -> string.
Variable json_loads : string -> result loads_error json.
Context {decoder : Type}.
Variable decompressobj : decoder.
Variable decompress : decoder -> string -> Z -> option (string * string * decoder).
Variable eof : decoder -> bool.
Variable unused_data : decoder -> string.
Variable flush : decoder -> Z -> option string.
Variable id : Z.
Variable url : string.
Variable binding : option Z.

Abbreviation describes_ := (describes url binding sha256 json_loads decompressobj decompress eof unused_data flush).

Definition import_sound (r : result exn ImportResponse) (w : scan_events) : Prop :=
  ((exists e, r = Raise e) /\ unfetched w /\ quiet_events w) \/
  exists a a' d headers w0 w1 ans ext,
    rows_read id a w0 /\ fetch_cleared hosts url binding a w0 a' d headers w1 /\ quiet_events w1 /\
    w = w1 ++ [Event (ImportRequest (mkRequest (target_id a'.1.1) PRIVATE_LOCAL "GET" url headers
                                       MAX_OPENAPI_RESPONSE_BYTES (float_of_Z 5) false)) ans] ++ ext /\
    (((exists e, r = Raise e) /\ ext = []) \/
     exists g s, ans = Ok g /\ describes_ g s /\ stored (target_id a.1.1) s r ext).

(** ** Lemmas *)

Abbreviation verified_import m Q w := (verified record_events (fun _ => True) m Q tt w).

Lemma load_reading : calls_only reading (load_import id).
Proof. unfold load_import, import_read, require_or. repeat calls_step. Qed.

Lemma scan_reading a : calls_only reading (scan_for_import hosts sha256 json_loads decompressobj decompress eof
  unused_data flush a url binding).
Proof.
  unfold scan_for_import. apply calls_only_try; [|intros e m' Hm; destruct e; by simplify_eq/=].
  unfold scan, evaluate_source, observe_scan_decision, import_observe, raise_if_scan_denied, scan_blocked, scan_wait,
    import_refresh, scan_unless, scan_context, openapi_credential_refresh, fetch_schema, scan_headers, require_or.
  destruct binding; cbn [fmap option_fmap option_map]; repeat calls_step.
Qed.

Lemma load_verified : verified_import (load_import id)
  (fun r _ w => unfetched w /\ match r with Ok a => a.1.2 <> None -> rows_read id a w | Raise _ => True end) [].
Proof.
  unfold load_import, import_read. apply verified_bind, verified_bind. record_call.
  intros [db0|e] _; [|split; [by repeat constructor | done]]. apply verified_ret, verified_bind. cbn [app].
  destruct (targets db0 !! id) as [target|] eqn:Ht; [|split; [by repeat constructor | done]]. apply verified_ret, verified_bind.
  assert (Hend : forall revision w, unfetched w ->
    (revision <> None -> exists db1 r, w = [Event ImportRead (Ok db0); Event ImportRead (Ok db1)] /\
       target_authorization_revision_id target = Some r /\ revision = revisions db1 !! r) ->
    verified_import (scopes ← (db ← perform ImportRead; mret (active_scopes (target_id target) db));
                     _ ← perform ImportCommit; mret (target, revision, scopes))
      (fun r _ w' => unfetched w' /\ match r with Ok a => a.1.2 <> None -> rows_read id a w' | Raise _ => True end) w).
  { intros revision w Hw Hrev. apply verified_bind, verified_bind. record_call.
    intros [db2|e] _; [|split; [by apply unfetched_snoc | done]]. apply verified_ret, verified_bind. record_call.
    intros [[]|e] _; (split; [by do 2 (apply unfetched_snoc; [|done])|]); [|done].
    intros H. destruct (Hrev H) as (db1 & r & -> & Hr & ->). by exists db0, db1, db2, r. }
  destruct (target_authorization_revision_id target) as [r|] eqn:Hr.
  - apply verified_bind. record_call. intros [db1|e] _; [|split; [by repeat constructor | done]].
    apply verified_ret, Hend; [by repeat constructor|]. intros _. by exists db1, r.
  - apply verified_ret, Hend; [by repeat constructor | done].
Qed.

Lemma replay_quiet T w st : quiet_events w -> replay column (settled T) w = Some st -> st = settled T.
Proof.
  induction 1 as [|[c r] w Hc _ IH]; cbn [replay]; [by intros [= <-]|]. cbn in Hc.
  destruct c; try done; cbn [store_step]; try exact IH.
  destruct r; cbn [working committed in_doubt settled mbind option_bind]; [exact IH|].
  rewrite bool_decide_eq_true_2 by done. exact IH.
Qed.

(** ** The transaction *)

Lemma tally_agree target T T' rows acc :
  (forall q, q ∈ rows -> T !! key_of target q = T' !! key_of target q) -> tally target T rows acc = tally target T' rows acc.
Proof.
  intros H. assert (Hcount : forall f f' : endpoint_table -> ParsedEndpoint -> bool,
    (forall q, q ∈ rows -> f T q = f' T' q) -> count_if (f T) rows = count_if (f' T') rows).
  { intros f f'. clear H. induction rows as [|p rows IH]; intros Hf; [done|]. cbn. rewrite (Hf p) by (by left).
    f_equal. apply IH. intros q Hq. apply Hf. by right. }
  unfold tally. assert (Hfilter : filter (fun p => is_changed target T p = true) rows = filter (fun p => is_changed target T' p = true) rows).
  { clear Hcount. induction rows as [|p rows IH]; [done|]. rewrite !filter_cons, IH by (intros q Hq; apply H; by right).
    assert (Hp : is_changed target T p = is_changed target T' p) by (unfold is_changed; by rewrite (H p) by (by left)).
    by rewrite Hp. }
  rewrite Hfilter, (Hcount (is_new target) (is_new target)), (Hcount (is_changed target) (is_changed target)),
    (Hcount (is_same target) (is_same target)); [done|..].
  all: intros q Hq; unfold is_new, is_changed, is_same; by rewrite (H q Hq).
Qed.

Lemma tally_cons target T p rows acc n c s : is_new target T p = n -> is_changed target T p = c -> is_same target T p = s ->
  tally target T (p :: rows) acc =
  tally target T rows (mkUpserts (n_created acc + (if n then 1 else 0)) (n_updated acc + (if c then 1 else 0))
    (n_unchanged acc + (if s then 1 else 0)) (changed_rows acc ++ (if c then [p] else []))).
Proof.
  intros Hn Hc Hs. unfold tally. cbn [count_if n_created n_updated n_unchanged changed_rows]. rewrite filter_cons, Hn, Hc, Hs.
  f_equal; [destruct n; lia | destruct c; lia | destruct s; lia|]. rewrite <- app_assoc. destruct c; by case_decide.
Qed.
Lemma tally_new target T p rows acc : T !! key_of target p = None -> NoDup (key_of target <$> p :: rows) ->
  tally target (<[key_of target p := column p]> T) rows (mkUpserts (n_created acc + 1) (n_updated acc) (n_unchanged acc) (changed_rows acc))
  = tally target T (p :: rows) acc.
Proof.
  intros Hp [Hnew _]%NoDup_cons. rewrite (tally_cons _ _ _ _ _ true false false), !Z.add_0_r, app_nil_r
    by (unfold is_new, is_changed, is_same; by rewrite Hp).
  apply tally_agree. intros q Hq. apply lookup_insert_ne. intros Heq. apply Hnew. rewrite Heq. by apply list_elem_of_fmap_2.
Qed.
Lemma tally_present target T p row rows acc : T !! key_of target p = Some row ->
  tally target T (p :: rows) acc =
  tally target T rows (if endpoint_changed row p
    then mkUpserts (n_created acc) (n_updated acc + 1) (n_unchanged acc) (changed_rows acc ++ [p])
    else mkUpserts (n_created acc) (n_updated acc) (n_unchanged acc + 1) (changed_rows acc)).
Proof.
  intros Hp. destruct (endpoint_changed row p) eqn:Hc.
  - rewrite (tally_cons _ _ _ _ _ false true false), !Z.add_0_r; [done|..]; unfold is_new, is_changed, is_same; by rewrite Hp, ?Hc.
  - rewrite (tally_cons _ _ _ _ _ false false true), !Z.add_0_r, app_nil_r; [done|..];
      unfold is_new, is_changed, is_same; by rewrite Hp, ?Hc.
Qed.

(** The loop inserts the new rows, counts, and collects the changed rows. *)
Definition upserted (target : Z) (rows : list ParsedEndpoint) (acc : Upserts) (r : result exn Upserts)
    (w : scan_events) : Prop :=
  unfetched w /\ forall st st', replay column st w = Some st' ->
    committed st' = committed st /\ in_doubt st' = in_doubt st /\
    match r with
    | Ok acc' => NoDup (key_of target <$> rows) ->
        working st' = insert_rows column target rows (working st) /\ acc' = tally target (working st) rows acc
    | Raise _ => True
    end.

Lemma upsert_verified target rows acc w :
  verified_import (upsert target rows acc) (fun r _ w' => exists ext, w' = w ++ ext /\ upserted target rows acc r ext) w.
Proof.
  revert acc w. induction rows as [|p rows IH]; intros acc w; cbn [upsert].
  { apply verified_ret. exists []. rewrite app_nil_r. split; [done|]. split; [constructor|]. intros st st' [= <-].
    split_and!; [done..|]. intros _. split; [done|]. unfold tally. cbn. rewrite app_nil_r. destruct acc. cbn. f_equal; lia. }
  assert (Hend : forall evs acc1, unfetched evs ->
    (forall st st1, replay column st evs = Some st1 -> committed st1 = committed st /\ in_doubt st1 = in_doubt st /\
       (NoDup (key_of target <$> p :: rows) ->
          insert_rows column target rows (working st1) = insert_rows column target (p :: rows) (working st) /\
          tally target (working st1) rows acc1 = tally target (working st) (p :: rows) acc)) ->
    verified_import (upsert target rows acc1)
      (fun r _ w' => exists ext, w' = w ++ ext /\ upserted target (p :: rows) acc r ext) (w ++ evs)).
  { intros evs acc1 Hevs Hst. eapply verified_mono; [apply IH|].
    intros r [] w' (ext & -> & Hu & Hext). exists (evs ++ ext). rewrite app_assoc. split; [done|].
    split; [by apply Forall_app|]. intros st st2. rewrite replay_app. intros (st1 & H1 & H2)%bind_Some.
    destruct (Hst _ _ H1) as (Hc1 & Hd1 & Hk). destruct (Hext _ _ H2) as (Hc2 & Hd2 & Hr).
    split; [congruence|]. split; [congruence|]. destruct r as [acc'|]; [|done]. intros Hnd.
    pose proof Hnd as [_ Hnd']%NoDup_cons. destruct (Hr Hnd') as [Hw Ha]. destruct (Hk Hnd) as [Hi Ht]. split; congruence. }
  assert (Hraise : forall e evs, unfetched evs -> (forall st st1, replay column st evs = Some st1 -> st1 = st) ->
    exists ext, w ++ evs = w ++ ext /\ upserted target (p :: rows) acc (Raise e) ext).
  { intros e evs Hevs Hst. exists evs. split; [done|]. split; [done|]. by intros st st1 ->%Hst. }
  apply verified_bind. record_call. intros [[x|]|e] _.
  - apply Hend; [by repeat constructor|]. intros st st1 H. cbn in H.
    destruct (working st !! key_of target p) as [row|] eqn:Hrow; [done|]. injection H as <-. cbn [committed in_doubt working].
    split_and!; [done..|]. intros Hnd. split; [|by apply tally_new]. unfold insert_rows. cbn [foldl]. unfold is_new at 3. by rewrite Hrow.
  - apply verified_bind. record_call. intros [row|e] _; rewrite <- app_assoc; cbn [app].
    2: { apply Hraise; [by repeat constructor|]. intros st st1 H. cbn in H. destruct (working st !! _); by simplify_eq/=. }
    assert (Hrow : forall st st1, replay column st [Event (ImportInsert target p) (Ok None);
        Event (ImportSelect target (parsed_path p) (parsed_method p)) (Ok row)] = Some st1 ->
      st1 = st /\ exists r, working st !! key_of target p = Some r /\ snd <$> row = Some r).
    { intros st st1 H. cbn in H. destruct (working st !! key_of target p) as [r|] eqn:Hr; [|done]. cbn in H.
      case_bool_decide as Hsel; [|done]. injection H as <-. split; [done|]. exists r. split; [done|].
      rewrite Hsel. exact Hr. }
    destruct row as [[i row]|]; cbn [require_or].
    2: { apply verified_bind, verified_raise, Hraise; [by repeat constructor|]. by intros st st1 [-> _]%Hrow. }
    apply verified_bind, verified_ret. cbn [snd].
    destruct (endpoint_changed row p) eqn:Hc.
    all: apply Hend; [by repeat constructor|]; intros st st1 H; destruct (Hrow _ _ H) as (-> & r & Hr & [= <-]).
    all: split_and!; [done..|]; intros _; split; [unfold insert_rows; cbn [foldl]; unfold is_new at 3; by rewrite Hr|].
    all: by rewrite (tally_present _ _ _ _ _ _ Hr), Hc.
  - apply Hraise; [by repeat constructor|]. intros st st1 H. cbn in H. by simplify_eq/=.
Qed.

(** What a failed transaction leaves. *)
Definition undone (w : scan_events) : Prop :=
  forall T st, replay column (settled T) w = Some st -> committed st = T \/ in_doubt st = true.

Definition store_sound (target : Z) (s : OpenAPIScanResult) (r : result exn (Upserts * Z)) (w : scan_events) : Prop :=
  unfetched w /\
  match r with
  | Ok (counts, _) => forall T st, replay column (settled T) w = Some st ->
      NoDup (key_of target <$> scan_endpoints s) ->
      st = settled (imported column target (scan_endpoints s) T) /\
      counts = tally target T (scan_endpoints s) (mkUpserts 0 0 0 [])
  | Raise _ => undone w
  end.

Lemma undone_rollback w r : undone w -> undone (w ++ [Event ImportRollback r]).
Proof.
  intros Hw T st. rewrite replay_app. intros (st1 & H1 & H2)%bind_Some. destruct (Hw _ _ H1) as [H|H]; injection H2 as <-; [by left | by right].
Qed.

Lemma store_import_verified target s w :
  verified_import (store_import target s) (fun r _ w' => exists ext, w' = w ++ ext /\ store_sound target s r ext) w.
Proof.
  unfold store_import. apply verified_try, verified_bind.
  assert (Hh : forall e evs, unfetched evs -> undone evs ->
    match (if is_exception e then Some (_ ← perform ImportRollback; raise e) else None) with
    | Some m' => verified_import m' (fun (r : result exn (Upserts * Z)) _ w' => exists ext, w' = w ++ ext /\ store_sound target s r ext) (w ++ evs)
    | None => exists ext, w ++ evs = w ++ ext /\ store_sound target s (Raise e : result exn (Upserts * Z)) ext
    end).
  { intros e evs Hu Hd. destruct (is_exception e); [|by exists evs].
    apply verified_bind. record_call. intros [[]|e'] _; rewrite <- app_assoc.
    all: eexists; split; [reflexivity|]; split; [by apply unfetched_snoc | by apply undone_rollback]. }
  eapply verified_mono; [apply upsert_verified|]. intros r [] w' (evs & -> & Hu & Hr). destruct r as [counts|e].
  2: { apply (Hh e evs Hu). intros T st H. left. by destruct (Hr _ _ H) as [-> _]. }
  apply verified_bind. record_call. intros [record|e] _; rewrite <- app_assoc.
  2: { apply (Hh e); [by apply unfetched_snoc|]. intros T st. rewrite replay_app. intros (st1 & H1 & H2)%bind_Some.
       injection H2 as <-. left. by destruct (Hr _ _ H1) as [-> _]. }
  apply verified_bind. record_call. intros [[]|e] _; rewrite <- !app_assoc.
  - apply verified_ret. eexists. split; [reflexivity|]. split; [rewrite app_assoc; by do 2 (apply unfetched_snoc; [|done])|].
    intros T st. rewrite replay_app. intros (st1 & H1 & H2)%bind_Some. injection H2 as <-. intros Hnd.
    destruct (Hr _ _ H1) as (Hc & Hd & Hk). destruct (Hk Hnd) as [Hw ->]. split; [|done]. unfold settled. cbn [working in_doubt].
    rewrite Hw, Hd. cbn [working in_doubt settled changed_rows tally app]. by rewrite flushed_imported.
  - apply (Hh e); [rewrite app_assoc; by do 2 (apply unfetched_snoc; [|done])|]. intros T st. rewrite replay_app.
    intros (st1 & H1 & H2)%bind_Some. injection H2 as <-. left. by destruct (Hr _ _ H1) as [-> _].
Qed.

Lemma import_verified :
  verified_import (import_openapi hosts sha256 json_loads decompressobj decompress eof unused_data flush id url binding)
    (fun r _ w => import_sound r w) [].
Proof.
  unfold import_openapi. apply verified_bind.
  eapply verified_mono; [apply verified_and; [apply load_verified | apply (calls_only_recorded reading), load_reading]|].
  intros r [] w0 [[Hu Hr] (ext & Hext & Hq)]. cbn [app] in Hext. subst ext. destruct r as [a|e]; [|left; by split; [exists e|]].
  apply verified_bind. eapply verified_mono; [apply verified_and|];
    [|apply (calls_only_recorded reading), scan_reading|].
  { unfold scan_for_import. apply verified_try. eapply verified_mono; [apply scan_verified|].
    intros r [] w H. instantiate (1 := fun r _ w =>
      match r with Raise _ => exists e, scan_sound hosts url binding a w0 sha256 json_loads decompressobj decompress eof unused_data flush (Raise e) w
      | Ok _ => scan_sound hosts url binding a w0 sha256 json_loads decompressobj decompress eof unused_data flush r w end).
    destruct r as [s|e]; [exact H|]. destruct e; by eexists. }
  intros r [] w [Hs (ext & Hext & Hq')]. assert (Hqw : quiet_events w) by (subst w; by apply Forall_app).
  destruct r as [s|e].
  2: { destruct Hs as [e' [[_ (ext' & -> & He)]|(a' & d & headers & w1 & ans & Hc & -> & _)]].
       - left. split; [by exists e|]. split; [by apply Forall_app | done].
       - right. exists a, a', d, headers, w0, w1, ans, []. rewrite app_nil_r. unfold quiet_events in Hqw.
         rewrite Forall_app in Hqw. destruct Hqw as [Hq1 _]. split_and!; try done; [|left; split; [by exists e | done]].
         apply Hr. destruct Hc as (t1 & r0 & db & t2 & rec & context & cred & _ & Hrev & _). by rewrite Hrev. }
  destruct Hs as [[[e [=]] _]|(a' & d & headers & w1 & ans & Hc & -> & g & -> & Hd)].
  apply verified_bind. eapply verified_mono; [apply store_import_verified|]. intros r [] w (ext' & -> & Hst).
  unfold quiet_events in Hqw. rewrite Forall_app in Hqw. destruct Hqw as [Hq1 _].
  assert (Hrows : rows_read id a w0).
  { apply Hr. destruct Hc as (t1 & r0 & db & t2 & rec & context & cred & _ & Hrev & _). by rewrite Hrev. }
  destruct r as [[counts record]|e].
  - apply verified_ret. right. exists a, a', d, headers, w0, w1, (Ok g), ext'. rewrite <- app_assoc. split_and!; try done.
    right. exists g, s. split; [done|]. split; [done|]. destruct Hst as [Hu' Hst]. split; [exact Hu'|].
    exists record, counts. by split.
  - right. exists a, a', d, headers, w0, w1, (Ok g), ext'. rewrite <- app_assoc. split_and!; try done.
    right. exists g, s. by split_and!.
Qed.

(** A run of the import. *)
Lemma import_run_sound env evs res :
  import_run hosts sha256 json_loads decompressobj decompress eof unused_data flush id url binding env = (evs, res) ->
  import_sound res evs.
Proof.
  intros H. unfold import_run in H.
  destruct (wp_sound record_events (fun _ => True) _ _ _ env [] import_verified ltac:(done)) as (w & Hf & Hs).
  rewrite follow_record_events in Hf. destruct (run env _ []) as [evs' [r []]]. injection H as <- <-.
  injection Hf as <-. exact Hs.
Qed.
End document.
End shapes.

(** ** The counters and the rows *)

Lemma endpoint_changed_refl p : endpoint_wf p = true -> endpoint_changed p p = false.
Proof.
  unfold endpoint_wf, endpoint_changed. intros H. bool_simpl. rewrite bool_decide_eq_true_2, eqb_reflx by done.
  rewrite (py_eqb_refl (JArr (parsed_parameters p))) by done. cbn [negb orb].
  destruct (parsed_request_body p); [cbn [opt_py_eqb]; rewrite py_eqb_refl by done|]; cbn [negb orb opt_py_eqb].
  all: destruct (parsed_security p) as [l|]; [cbn [fmap option_fmap option_map opt_py_eqb]; by rewrite (py_eqb_refl (JArr l))|done].
Qed.

Lemma tally_total target T rows acc :
  let acc' := tally target T rows acc in
  n_created acc' + n_updated acc' + n_unchanged acc' = n_created acc + n_updated acc + n_unchanged acc + Z.of_nat (length rows).
Proof.
  cbn. enough (H : (count_if (is_new target T) rows + count_if (is_changed target T) rows
    + count_if (is_same target T) rows = length rows)%nat) by lia.
  induction rows as [|p rows IH]; [done|]. cbn. unfold is_new at 1, is_changed at 1, is_same at 1.
  destruct (T !! key_of target p); cbn; [destruct (endpoint_changed _ _); cbn|]; lia.
Qed.

Lemma imported_lookup column target rows T (k : endpoint_key) : NoDup (key_of target <$> rows) ->
  imported column target rows T !! k =
  match find_first (fun p => bool_decide (key_of target p = k)) rows with
  | Some p => Some (new_row column target T p)
  | None => T !! k
  end.
Proof. intros Hnd. unfold imported. by rewrite fold_insert_lookup. Qed.

(** A second import finds every row as it left it. *)
Lemma imported_same column target rows T : NoDup (key_of target <$> rows) ->
  (forall p, p ∈ rows -> endpoint_changed (column p) p = false) ->
  forall p, p ∈ rows -> is_same target (imported column target rows T) p = true.
Proof.
  intros Hnd Hc p Hp. unfold is_same. rewrite imported_lookup by done.
  destruct (find_first _ rows) as [q|] eqn:Hq.
  - apply find_first_elem in Hq as [Hq Hk]. bool_simpl.
    assert (q = p) as ->.
    { apply list_elem_of_lookup in Hq as [i Hi], Hp as [j Hj]. eapply NoDup_lookup in Hnd; [|by rewrite list_lookup_fmap, Hi|by rewrite list_lookup_fmap, Hj; cbn; rewrite Hk].
      congruence. }
    unfold new_row. destruct (T !! key_of target p) as [row|]; [|by rewrite Hc].
    destruct (endpoint_changed row p) eqn:E; [by rewrite Hc | by rewrite E].
  - rewrite find_first_none in Hq. specialize (Hq p Hp). by bool_simpl.
Qed.

Lemma tally_all_same target T rows : (forall p, p ∈ rows -> is_same target T p = true) ->
  tally target T rows (mkUpserts 0 0 0 []) = mkUpserts 0 0 (Z.of_nat (length rows)) [].
Proof.
  intros H. enough (Hn : count_if (is_new target T) rows = 0%nat /\ count_if (is_changed target T) rows = 0%nat /\
    count_if (is_same target T) rows = length rows /\ filter (fun p => is_changed target T p = true) rows = []).
  { unfold tally. destruct Hn as (-> & -> & -> & ->). f_equal; lia. }
  induction rows as [|p rows IH]; [done|]. destruct IH as (H1 & H2 & H3 & H4); [intros q Hq; apply H; by right|].
  specialize (H p ltac:(by left)). cbn [count_if length]. rewrite filter_cons, H1, H2, H3, H4, H.
  unfold is_same, is_new, is_changed in *. destruct (T !! key_of target p); [|done]. apply negb_true_iff in H. rewrite H. done.
Qed.
Lemma imported_again column target rows T : NoDup (key_of target <$> rows) ->
  (forall p, p ∈ rows -> is_same target T p = true) -> imported column target rows T = T.
Proof.
  intros Hnd H. apply map_eq. intros k. rewrite imported_lookup by done. destruct (find_first _ rows) as [p|] eqn:Hp; [|done].
  apply find_first_elem in Hp as [Hp Hk]. bool_simpl. subst k. specialize (H p Hp). unfold is_same in H. unfold new_row.
  destruct (T !! key_of target p) as [row|]; [|done]. apply negb_true_iff in H. by rewrite H.
Qed.

(** ** What a document describes *)

(** The merge of the parameters of a path and of an operation: keys in the order of their
    first occurrence, the last parameter of each key, everything without a key. *)
Definition merged_parameters (given merged : list json) : Prop :=
  parameter_key <$> merged = first_occurrences (parameter_key <$> objects given) /\
  unkeyed merged = unkeyed (objects given) /\
  forall p key, p ∈ merged -> parameter_key p = Some key -> last_with key (objects given) = Some p.

(** The endpoint that an operation describes, member by member. *)
Record describes_endpoint (root : option (list json)) (o : operation_at) (e : ParsedEndpoint) : Prop := {
  described_path : parsed_path e = o.1.1.1;
  described_method : parsed_method e = upper o.1.2;
  described_parameters :
    merged_parameters (o.1.1.2 ++ list_or_empty (assoc "parameters" o.2)) (parsed_parameters e);
  described_operation_id : forall i, parsed_operation_id e = Some i <-> assoc "operationId" o.2 = Some (JStr i);
  described_body : forall b, parsed_request_body e = Some b <->
    assoc "requestBody" o.2 = Some b /\ exists members, b = JObj members;
  described_security : forall l, parsed_security e = Some l <->
    assoc "security" o.2 = Some (JArr l) \/ assoc "security" o.2 = None /\ root = Some l;
  described_auth : parsed_requires_auth e = true <->
    exists l, parsed_security e = Some l /\ l <> [] /\ JObj [] ∉ l
}.

(** The endpoints of a schema: one for each operation of its paths, in order. *)
Definition describes_endpoints (schema : list (string * json)) (es : list ParsedEndpoint) : Prop :=
  exists paths root, assoc "paths" schema = Some (JObj paths) /\
    match assoc "security" schema with None | Some JNull => root = None | Some (JArr l) => root = Some l | _ => False end /\
    Forall2 (describes_endpoint root) (operations paths) es.

(** The row has the values of the endpoint, member by member. *)
Record same_values (row p : ParsedEndpoint) : Prop := {
  same_operation_id : parsed_operation_id row = parsed_operation_id p;
  same_auth : parsed_requires_auth row = parsed_requires_auth p;
  same_parameters : Forall2 (fun x y => py_eqb x y = true) (parsed_parameters row) (parsed_parameters p);
  same_body : option_Forall2 (fun x y => py_eqb x y = true) (parsed_request_body row) (parsed_request_body p);
  same_security : option_Forall2 (Forall2 (fun x y => py_eqb x y = true)) (parsed_security row) (parsed_security p)
}.

Lemma py_eqb_arr a b : py_eqb (JArr a) (JArr b) = true <-> Forall2 (fun x y => py_eqb x y = true) a b.
Proof.
  revert b. induction a as [|x a IH]; intros [|y b].
  - split; [constructor | done].
  - split; [done | intros H; inversion H].
  - split; [done | intros H; inversion H].
  - rewrite Forall2_cons, <- IH. apply andb_true_iff.
Qed.

Lemma opt_py_eqb_spec x y : opt_py_eqb x y = true <-> option_Forall2 (fun x y => py_eqb x y = true) x y.
Proof.
  destruct x, y; cbn [opt_py_eqb]; split; intros H; try done; try (by inversion H); by constructor.
Qed.

Lemma endpoint_changed_spec row p : endpoint_changed row p = false <-> same_values row p.
Proof.
  unfold endpoint_changed. rewrite !orb_false_iff, !negb_false_iff, bool_decide_eq_true, eqb_true_iff, py_eqb_arr,
    !opt_py_eqb_spec.
  assert (Hs : option_Forall2 (fun x y => py_eqb x y = true) (JArr <$> parsed_security row) (JArr <$> parsed_security p)
    <-> option_Forall2 (Forall2 (fun x y => py_eqb x y = true)) (parsed_security row) (parsed_security p)).
  { destruct (parsed_security row), (parsed_security p); cbn [fmap option_fmap option_map];
      (split; intros H; inversion H; subst; constructor); by apply py_eqb_arr. }
  rewrite Hs. split; [intros [[[[? ?] ?] ?] ?]; by constructor | by intros []].
Qed.

Lemma security_requires_auth_spec security : security_requires_auth security = true <->
  exists l, security = Some l /\ l <> [] /\ JObj [] ∉ l.
Proof.
  destruct security as [[|x l]|]; cbn [security_requires_auth]; [naive_solver| |naive_solver].
  rewrite negb_true_iff, <- not_true_iff_false, existsb_exists. split.
  - intros H. exists (x :: l). split_and!; [done..|]. intros Hin. apply H. exists (JObj []).
    by rewrite <- list_elem_of_In.
  - intros (l' & [= <-] & _ & Hno) (v & Hin & Hv). apply Hno. destruct v as [| | | | | |[]]; try done.
    by apply list_elem_of_In.
Qed.

Lemma parses_describes root o e : parses root o e -> describes_endpoint root o e.
Proof.
  intros H. unfold parses, parse_operation in H. rewrite !guard_bind_ok in H. destruct H as (_ & _ & [= <-]).
  destruct (merge_parameters_exact o.1.1.2 (list_or_empty (assoc "parameters" o.2))) as (H1 & H2 & H3 & _).
  constructor; cbn [parsed_path parsed_method parsed_parameters parsed_operation_id parsed_request_body
    parsed_security parsed_requires_auth]; [done | done | done | | | |].
  - intros i. destruct (assoc "operationId" o.2) as [[]|]; naive_solver.
  - intros b. destruct (assoc "requestBody" o.2) as [[]|]; naive_solver.
  - intros l. destruct (assoc "security" o.2) as [[]|]; naive_solver.
  - apply security_requires_auth_spec.
Qed.

Lemma count_if_filter {A} (f : A -> bool) l : Z.of_nat (count_if f l) = Z.of_nat (length (filter (fun x => f x = true) l)).
Proof.
  f_equal. induction l as [|x l IH]; [done|]. cbn [count_if]. rewrite filter_cons, IH. destruct (f x); by case_decide.
Qed.

(** The endpoints of an import are the new, the changed and the unchanged ones. *)
Lemma imported_parts column target T rows : NoDup (key_of target <$> rows) ->
  let news := filter (fun p => is_new target T p = true) rows in
  let changes := filter (fun p => is_changed target T p = true) rows in
  let same := filter (fun p => is_same target T p = true) rows in
  let W := imported column target rows T in
  rows ≡ₚ news ++ changes ++ same /\
  Forall (fun p => T !! key_of target p = None /\ W !! key_of target p = Some (column p)) news /\
  Forall (fun p => exists row, T !! key_of target p = Some row /\ ~ same_values row p /\
                   W !! key_of target p = Some (column p)) changes /\
  Forall (fun p => exists row, T !! key_of target p = Some row /\ same_values row p /\
                   W !! key_of target p = Some row) same.
Proof.
  intros Hnd news changes same W.
  assert (HW : forall p, p ∈ rows -> W !! key_of target p = Some (new_row column target T p)).
  { intros p Hp. unfold W. rewrite imported_lookup by done. destruct (find_first _ rows) as [q|] eqn:Hq.
    - apply find_first_elem in Hq as [Hq Hk]. bool_simpl. f_equal. f_equal.
      apply list_elem_of_lookup in Hq as [i Hi], Hp as [j Hj].
      eapply NoDup_lookup in Hnd; [|by rewrite list_lookup_fmap, Hi|by rewrite list_lookup_fmap, Hj; cbn; rewrite Hk]. congruence.
    - rewrite find_first_none in Hq. specialize (Hq p Hp). by bool_simpl. }
  split_and!.
  - unfold news, changes, same. clear. induction rows as [|p rows IH]; [done|].
    assert (Hp : (is_new target T p, is_changed target T p, is_same target T p)
      ∈ [(true, false, false); (false, true, false); (false, false, true)]).
    { unfold is_new, is_changed, is_same. rewrite !elem_of_cons. destruct (T !! key_of target p) as [row|]; [|by left].
      destruct (endpoint_changed row p); auto. }
    rewrite !filter_cons. rewrite !elem_of_cons, elem_of_nil in Hp.
    destruct Hp as [[= H1 H2 H3]|[[= H1 H2 H3]|[[= H1 H2 H3]|[]]]]; rewrite IH at 1;
      repeat (case_decide; try congruence).
    + done.
    + by rewrite <- app_comm_cons, <- Permutation_middle.
    + by rewrite !(app_assoc _ _ (p :: _)), <- Permutation_middle, <- !app_assoc.
  - apply Forall_forall. intros p [Hp Hin]%list_elem_of_filter. rewrite HW by done. unfold is_new, new_row in *.
    by destruct (T !! key_of target p).
  - apply Forall_forall. intros p [Hp Hin]%list_elem_of_filter. rewrite HW by done. unfold is_changed, new_row in *.
    destruct (T !! key_of target p) as [row|]; [|done]. exists row. rewrite Hp. split_and!; [done| |done].
    rewrite <- endpoint_changed_spec, Hp. done.
  - apply Forall_forall. intros p [Hp Hin]%list_elem_of_filter. rewrite HW by done. unfold is_same, new_row in *.
    destruct (T !! key_of target p) as [row|]; [|done]. apply negb_true_iff in Hp. exists row. rewrite Hp.
    split_and!; [done| |done]. by apply endpoint_changed_spec.
Qed.

Section import_theorems.
Variable hosts : list string.
Variable sha256 : string -> string.
Variable json_loads : string -> result loads_error json.
Context {decoder : Type}.
Variable decompressobj : decoder.
Variable decompress : decoder -> string -> Z -> option (string * string * decoder).
Variable eof : decoder -> bool.
Variable unused_data : decoder -> string.
Variable flush : decoder -> Z -> option string.
Variable url : string.
Variable binding : option Z.

Abbreviation describes_ := (describes url binding sha256 json_loads decompressobj decompress eof unused_data flush).
Abbreviation run_import id := (import_run hosts sha256 json_loads decompressobj decompress eof unused_data flush id url binding).

(** The keys of a decoded object are distinct. *)
Definition loads_documented : Prop := forall s j, json_loads s = Ok j -> json_wf j = true.

Lemma described_endpoints g s target : loads_documented -> describes_ g s ->
  NoDup (key_of target <$> scan_endpoints s) /\ forall p, p ∈ scan_endpoints s -> endpoint_wf p = true.
Proof.
  intros Hl (f & es & Hf & Hes & ->). cbn [scan_endpoints]. unfold read_document in Hf.
  apply guard_bind_ok in Hf as [_ Hf]. apply bind_ok in Hf as ([normalized decoded] & _ & Hf).
  apply bind_ok in Hf as (data & Hd & Hf). apply bind_ok in Hf as ([] & _ & Hf).
  destruct data as [| | | | | |schema]; try done. injection Hf as <-. cbn [fetched_schema] in Hes.
  assert (Hwf : json_wf (JObj schema) = true).
  { unfold load_document in Hd. destruct (json_loads decoded) as [j|[]] eqn:E; try done. injection Hd as ->. by eapply Hl. }
  unfold parsed_schema in Hes. destruct (parse_openapi_schema schema) as [es'|[]] eqn:Hp; try done. injection Hes as ->.
  split; [|by eapply parsed_endpoints_wf].
  apply parse_openapi_schema_ok in Hp as (paths & root & _ & Hnd & _ & _ & _ & _ & Hes); [|done].
  pose proof (parsed_keys_distinct root paths es Hnd Hes) as Hk. clear -Hk.
  apply (NoDup_fmap_1 (fun k : endpoint_key => (k.1.2, k.2))). rewrite <- list_fmap_compose. exact Hk.
Qed.

(** The same response describes the same endpoints. *)
Lemma describes_function g1 g2 s1 s2 : gateway_body g1 = gateway_body g2 -> content_encoding g1 = content_encoding g2 ->
  describes_ g1 s1 -> describes_ g2 s2 -> s1 = s2.
Proof.
  intros Hb He (f1 & es1 & Hf1 & Hes1 & ->) (f2 & es2 & Hf2 & Hes2 & ->). unfold read_document in Hf1, Hf2.
  apply guard_bind_ok in Hf1 as [_ Hf1], Hf2 as [_ Hf2]. rewrite Hb, He, Hf2 in Hf1. injection Hf1 as <-. congruence.
Qed.

Lemma unfetched_count w : unfetched w <-> count_if is_fetch w = 0%nat.
Proof. symmetry. apply count_if_zero. Qed.

(** The one request of a run, and where it is. *)
Lemma fetch_position (w1 ext : scan_events) req ans : unfetched w1 -> unfetched ext ->
  forall pre req' ans' post, w1 ++ [Event (ImportRequest req) ans] ++ ext = pre ++ Event (ImportRequest req') ans' :: post ->
    pre = w1 /\ req' = req.
Proof.
  intros H1 He pre req' ans' post. revert pre. induction H1 as [|e w1 Hf _ IH]; intros [|e' pre] Heq; cbn in Heq.
  - by simplify_eq.
  - injection Heq as <- Heq. exfalso. unfold unfetched in He. rewrite Heq, Forall_app in He. destruct He as [_ He]. by inversion He.
  - injection Heq as -> _. done.
  - injection Heq as <- Heq. by destruct (IH pre Heq) as [-> ->].
Qed.

Lemma rows_read_unfetched id a w : rows_read id a w -> unfetched w.
Proof. intros (db0 & db1 & db2 & r & -> & _). by repeat constructor. Qed.
Lemma fetch_cleared_unfetched a w0 a' d headers w : unfetched w0 ->
  fetch_cleared hosts url binding a w0 a' d headers w -> unfetched w.
Proof.
  intros H0 (t1 & r0 & db & t2 & rec & context & cred & -> & _ & _ & _ & _ & _ & Hc & _). apply Forall_app. split; [done|].
  apply Forall_app. split; [by repeat constructor|]. destruct binding as [b|]; cbn in Hc.
  - destruct Hc as (db' & identity & token & c & -> & _). by repeat constructor.
  - destruct Hc as [-> _]. constructor.
Qed.

(** What a run with a consistent table stores. *)
Lemma import_stored id env evs res column T st : loads_documented -> run_import id env = (evs, res) ->
  replay column (settled T) evs = Some st ->
  match res with
  | Ok response => exists req g s record,
      count_if is_fetch evs = 1%nat /\ Event (ImportRequest req) (Ok g) ∈ evs /\ describes_ g s /\
      response = response_to (response_target_id response) s record
                   (tally (response_target_id response) T (scan_endpoints s) (mkUpserts 0 0 0 [])) /\
      st = settled (imported column (response_target_id response) (scan_endpoints s) T) /\
      (exists db target, Event ImportRead (Ok db) ∈ evs /\ targets db !! id = Some target /\
        response_target_id response = target_id target)
  | Raise _ => committed st = T \/ in_doubt st = true
  end.
Proof.
  intros Hloads H Htable. apply (import_run_sound column) in H.
  destruct H as [([e ->] & _ & Hq)|(a & a' & d & headers & w0 & w1 & ans & ext & Hr & Hc & Hq & -> & He)].
  { apply replay_quiet in Htable as ->; [by left | done]. }
  rewrite app_assoc, replay_app in Htable. apply bind_Some in Htable as (st1 & H1 & Htable).
  apply replay_quiet in H1 as ->; [|apply Forall_app; by split; [|repeat constructor]].
  destruct He as [[[e ->] ->]|(g & s & -> & Hd & Hu & Hs)]; [by injection Htable as <-; left|].
  destruct res as [response|e]; [|by apply Hs].
  destruct Hs as (record & counts & -> & Hs). destruct (described_endpoints g s (target_id a.1.1) Hloads Hd) as [Hnd _].
  destruct (Hs _ _ Htable Hnd) as [-> ->]. eexists _, g, s, record. split_and!; try done.
  - pose proof (fetch_cleared_unfetched _ _ _ _ _ _ (rows_read_unfetched _ _ _ Hr) Hc) as Hu1.
    rewrite !count_if_app, (proj1 (unfetched_count w1) Hu1), (proj1 (unfetched_count ext) Hu). done.
  - apply elem_of_app. right. left.
  - destruct Hr as (db0 & db1 & db2 & r & -> & Ht & _). exists db0, a.1.1. split_and!; [|done..].
    destruct Hc as (t1 & r0 & db & t2 & rec & context & cred & -> & _). apply elem_of_app. left.
    apply elem_of_app. left. left.
Qed.

(** The document that a response is: its encoding, the decoded body and its object. *)
Definition response_document (g : NetworkGatewayResult) (encoding decoded : string) (schema : list (string * json)) : Prop :=
  status_code g < 400 /\
  encoding = match content_encoding g with None => "identity" | Some e => lower (strip e) end /\
  (encoding = "identity" /\ decoded = gateway_body g \/
   encoding = "gzip" /\ decode_gzip decompressobj decompress eof unused_data flush (gateway_body g) = Some (Ok decoded)) /\
  json_loads decoded = Ok (JObj schema) /\
  (json_depth (JObj schema) <= 32)%nat /\ (json_size (JObj schema) <= MAX_OPENAPI_STRUCTURE_NODES)%nat /\
  reference_free (JObj schema) = true.

Lemma decoded_document wire encoding normalized decoded :
  decode_openapi_document decompressobj decompress eof unused_data flush wire encoding = Some (Ok (normalized, decoded)) ->
  normalized = match encoding with None => "identity" | Some e => lower (strip e) end /\
  (normalized = "identity" /\ decoded = wire \/
   normalized = "gzip" /\ decode_gzip decompressobj decompress eof unused_data flush wire = Some (Ok decoded)).
Proof.
  unfold decode_openapi_document. generalize (match encoding with None => "identity" | Some e => lower (strip e) end).
  intros n. destruct (negb _) eqn:E; [done|]. apply negb_false_iff, orb_true_iff in E. rewrite !bool_decide_eq_true in E.
  case_bool_decide as Hi.
  - case_if; [done|]. intros [= <- <-]. auto.
  - destruct E as [? | ->]; [done|]. destruct (decode_gzip _ _ _ _ _ _) as [[d|]|] eqn:Ed; try done.
    intros [= <- <-]. split; [done|]. by right.
Qed.

(** What a scan's result says of the response. *)
Lemma describes_document g s : loads_documented -> describes_ g s ->
  scan_source_url s = url /\ document_sha256 s = sha256 (gateway_body g) /\
  exists decoded schema, response_document g (document_encoding s) decoded schema /\
    decoded_document_sha256 s = sha256 decoded /\ describes_endpoints schema (scan_endpoints s).
Proof.
  intros Hl (f & es & Hf & Hes & ->). unfold read_document in Hf. apply guard_bind_ok in Hf as [Hst Hf].
  apply bind_ok in Hf as ([normalized decoded] & Hdec & Hf). apply bind_ok in Hf as (data & Hd & Hf).
  apply bind_ok in Hf as ([] & Hstr & Hf). destruct data as [| | | | | |schema]; try done. injection Hf as <-.
  cbn [fetched_schema fetched_sha256 fetched_encoding fetched_decoded_sha256 scan_source_url document_sha256
    document_encoding decoded_document_sha256 scan_endpoints] in *. split_and!; [done..|]. exists decoded, schema.
  assert (Hload : json_loads decoded = Ok (JObj schema)).
  { unfold load_document in Hd. destruct (json_loads decoded) as [j|[]]; try done. by injection Hd as ->. }
  destruct (decode_openapi_document _ _ _ _ _ _ _) as [r|] eqn:E; [|done]. subst r.
  apply decoded_document in E as [En Ed]. apply structure_check_exact in Hstr. bool_simpl.
  split; [unfold response_document; destruct Hstr as (? & ? & ?); by split_and!|]. split; [done|]. unfold parsed_schema in Hes.
  destruct (parse_openapi_schema schema) as [es'|[]] eqn:Hp; try done. injection Hes as ->.
  apply parse_openapi_schema_ok in Hp as (paths & root & Hp & _ & _ & Hr & _ & _ & Hall); [|by eapply Hl].
  exists paths, root. split_and!; [done..|]. eapply Forall2_impl; [exact Hall|]. apply parses_describes.
Qed.

(** * Properties *)

(** An import fetches at most one document, and only after everything that must come
    before: the rows were read and the session committed; the policy allowed the URL; the
    rate limiter granted a turn; the authorization was read afresh and is of the same
    revision; the policy allowed it again, and this decision was recorded; and a selected
    credential was still usable. The request is a GET of that URL, to a private-local
    Target, with at most a megabyte of response. *)
Theorem import_request_gated id env evs res (H : run_import id env = (evs, res)) :
  (count_if is_fetch evs <= 1)%nat /\
  forall pre req ans post, evs = pre ++ Event (ImportRequest req) ans :: post ->
    exists a a' d headers w0, rows_read id a w0 /\ fetch_cleared hosts url binding a w0 a' d headers pre /\
      req = mkRequest (target_id a'.1.1) PRIVATE_LOCAL "GET" url headers MAX_OPENAPI_RESPONSE_BYTES (float_of_Z 5) false.
Proof.
  apply (import_run_sound (fun p => p)) in H.
  destruct H as [(_ & Hu & _)|(a & a' & d & headers & w0 & w1 & ans & ext & Hr & Hc & _ & -> & He)].
  - split; [apply unfetched_count in Hu; lia|]. intros pre req ans post ->. apply Forall_app in Hu as [_ Hu]. by inversion Hu.
  - pose proof (fetch_cleared_unfetched _ _ _ _ _ _ (rows_read_unfetched _ _ _ Hr) Hc) as H1.
    assert (Hext : unfetched ext) by (destruct He as [[_ ->]|(g & s & _ & _ & He & _)]; [constructor | exact He]).
    split.
    + rewrite !count_if_app, (proj1 (unfetched_count w1) H1), (proj1 (unfetched_count ext) Hext). cbn. lia.
    + intros pre req ans' post Heq. destruct (fetch_position _ _ _ _ H1 Hext _ _ _ _ Heq) as [-> ->].
      by exists a, a', d, headers, w0.
Qed.

(** C20: An import is all or nothing. When it returns, one document was fetched, for the
    Target that was read; its status was below 400, and the digests of the response are
    those of the body as it came and of the body decoded. The endpoints are those that the
    operations of this document describe, each with its own path and method. They divide
    into the new, the changed and the unchanged ones, which the counters count: a new or
    changed one is now a row with the values of the document, an unchanged one had a row
    with the same operation id, authentication, parameters, body and security and keeps it,
    and no other row changed. When it fails, the table is as it was, unless the answer of
    the commit was lost. *)
Theorem import_exact id env evs res column T st (Hloads : loads_documented)
    (H : run_import id env = (evs, res)) (Htable : replay column (settled T) evs = Some st) :
  match res with
  | Ok response =>
      let t := response_target_id response in
      exists req g decoded schema es,
      (count_if is_fetch evs = 1%nat /\ Event (ImportRequest req) (Ok g) ∈ evs /\
       exists db target, Event ImportRead (Ok db) ∈ evs /\ targets db !! id = Some target /\ t = target_id target) /\
      (response_document g (response_content_encoding response) decoded schema /\
       response_source_url response = url /\
       response_document_sha256 response = sha256 (gateway_body g) /\
       response_decoded_sha256 response = sha256 decoded) /\
      (describes_endpoints schema es /\ NoDup (key_of t <$> es) /\ discovered response = Z.of_nat (length es)) /\
      (exists new changed same, es ≡ₚ new ++ changed ++ same /\
        created response = Z.of_nat (length new) /\ updated response = Z.of_nat (length changed) /\
        unchanged response = Z.of_nat (length same) /\
        Forall (fun p => T !! key_of t p = None /\ committed st !! key_of t p = Some (column p)) new /\
        Forall (fun p => exists row, T !! key_of t p = Some row /\ ~ same_values row p /\
                         committed st !! key_of t p = Some (column p)) changed /\
        Forall (fun p => exists row, T !! key_of t p = Some row /\ same_values row p /\
                         committed st !! key_of t p = Some row) same) /\
      (forall k, (forall p, p ∈ es -> key_of t p <> k) -> committed st !! k = T !! k) /\
      st = settled (committed st)
  | Raise _ => committed st = T \/ in_doubt st = true
  end.
Proof.
  pose proof (import_stored _ _ _ _ _ _ _ Hloads H Htable) as Hs. destruct res as [response|e]; [|exact Hs].
  destruct Hs as (req & g & s & record & Hn & Hin & Hd & Hresponse & -> & Htarget). intros t.
  destruct (describes_document g s Hloads Hd) as (Hurl & Hsha & decoded & schema & Hdoc & Hdec & Hes).
  destruct (described_endpoints g s t Hloads Hd) as [Hnd _].
  exists req, g, decoded, schema, (scan_endpoints s). rewrite Hresponse. split; [done|]. split; [done|]. split; [done|].
  split; [|split; [|done]].
  - destruct (imported_parts column t T (scan_endpoints s) Hnd) as (Hperm & H1 & H2 & H3).
    eexists _, _, _. split; [exact Hperm|]. split_and!; [apply count_if_filter.. | done | done | done].
  - intros k Hk. cbn [committed settled]. rewrite imported_lookup by done. rewrite (proj2 (find_first_none _ _)); [done|].
    intros p Hp. apply bool_decide_eq_false. by apply Hk.
Qed.

(** C21: Importing the same document again changes nothing: no endpoint is created or
    updated, every one of them is counted as unchanged, and the table stays as the first
    import left it, provided that the columns keep values up to Python's equality. *)
Theorem reimport_unchanged id env1 evs1 r1 env2 evs2 r2 column T st1 st2 (Hloads : loads_documented)
    (Hcolumn : forall p, endpoint_wf p = true -> endpoint_changed (column p) p = false)
    (H1 : run_import id env1 = (evs1, Ok r1)) (Htable1 : replay column (settled T) evs1 = Some st1)
    (H2 : run_import id env2 = (evs2, Ok r2)) (Htable2 : replay column st1 evs2 = Some st2)
    (Htarget : response_target_id r1 = response_target_id r2)
    (Hsame : forall q1 g1 q2 g2, Event (ImportRequest q1) (Ok g1) ∈ evs1 -> Event (ImportRequest q2) (Ok g2) ∈ evs2 ->
       gateway_body g1 = gateway_body g2 /\ content_encoding g1 = content_encoding g2) :
  created r2 = 0 /\ updated r2 = 0 /\ unchanged r2 = discovered r1 /\ st2 = st1.
Proof.
  destruct (import_stored id env1 evs1 (Ok r1) column T st1 Hloads H1 Htable1) as (q1 & g1 & s1 & n1 & _ & Hin1 & Hd1 & -> & -> & _).
  destruct (import_stored id env2 evs2 (Ok r2) column _ st2 Hloads H2 Htable2) as (q2 & g2 & s2 & n2 & _ & Hin2 & Hd2 & -> & -> & _).
  cbn [response_target_id response_to] in *. rewrite <- Htarget. destruct (Hsame _ _ _ _ Hin1 Hin2) as [Hb He].
  rewrite <- (describes_function _ _ _ _ Hb He Hd1 Hd2).
  destruct (described_endpoints g1 s1 (response_target_id r1) Hloads Hd1) as [Hnd Hwf].
  pose proof (imported_same column (response_target_id r1) (scan_endpoints s1) T Hnd (fun p Hp => Hcolumn p (Hwf p Hp))) as Hall.
  rewrite (tally_all_same _ _ _ Hall), (imported_again _ _ _ _ Hnd Hall). done.
Qed.
End import_theorems.

(** * Witnesses *)

Definition lab_url : string := "http://localhost:8000/api/openapi.json".
Definition lab_document : NetworkGatewayResult :=
  mkGatewayResult 200 "{...}" 12 (mkDestination "http" "localhost" 8000 false None) "127.0.0.1" "127.0.0.1" None None.
(** A decoder for the one document. *)
Definition document_loads (s : string) : result loads_error json :=
  if String.eqb s "{...}" then Ok (JObj lab_schema) else Raise LoadsValueError.

Lemma document_loads_documented : loads_documented document_loads.
Proof.
  intros s j. unfold document_loads. destruct (String.eqb s "{...}"); [|done]. intros [= <-]. vm_compute. reflexivity.
Qed.

(** The calls are answered from a table of endpoints. *)
Definition import_environment (T : endpoint_table) : environment import_call := fun _ c =>
  match c with
  | ImportRead | ImportFresh => Ok lab_db
  | ImportInsert t p => Ok (if is_new t T p then Some 41 else None)
  | ImportSelect t path method => Ok (pair 41 <$> T !! (t, path, method))
  | ImportFlush _ _ _ => Ok 7
  | ImportToken _ _ => Ok "token"
  | ImportClock => Ok 2000
  | ImportRequest _ => Ok lab_document
  | ImportCommit | ImportRollback | ImportAudit _ | ImportRateWait _ _ => Ok tt
  end.
Definition lab_import (T : endpoint_table) : scan_events * result exn ImportResponse :=
  import_run ["localhost"] (fun s => s) document_loads false copy_decompress copy_eof (fun _ => EmptyString)
    (fun _ _ => Some EmptyString) 1 lab_url (Some 81) (import_environment T).
Definition imported_table : endpoint_table := imported (fun p => p) 1 lab_endpoints ∅.

Lemma import_request_gated_witness :
  count_if is_fetch (lab_import ∅).1 = 1%nat /\ (count_if is_fetch (lab_import ∅).1 <= 1)%nat.
Proof.
  split; [vm_compute; reflexivity|].
  apply (import_request_gated ["localhost"] (fun s => s) document_loads false copy_decompress copy_eof
    (fun _ => EmptyString) (fun _ _ => Some EmptyString) lab_url (Some 81) 1 (import_environment ∅)
    (lab_import ∅).1 (lab_import ∅).2).
  unfold lab_import. by destruct (import_run _ _ _ _ _ _ _ _ _ _ _ _).
Defined.

Lemma import_exact_witness : exists response decoded, (lab_import ∅).2 = Ok response /\ created response = 2 /\
  response_document_sha256 response = gateway_body lab_document /\ response_decoded_sha256 response = decoded /\
  exists schema es, describes_endpoints schema es /\ discovered response = Z.of_nat (length es).
Proof.
  assert (H : exists response, (lab_import ∅).2 = Ok response /\ created response = 2 /\
    response_document_sha256 response = gateway_body lab_document)
    by (eexists; split_and!; vm_compute; reflexivity).
  destruct H as (response & Hr & Hc & Hs).
  assert (Hrun : lab_import ∅ = ((lab_import ∅).1, Ok response)) by (rewrite <- Hr; by destruct (lab_import ∅)).
  destruct (import_exact ["localhost"] (fun s => s) document_loads false copy_decompress copy_eof
    (fun _ => EmptyString) (fun _ _ => Some EmptyString) lab_url (Some 81) 1 (import_environment ∅)
    (lab_import ∅).1 (Ok response) (fun p => p) ∅ (settled imported_table) document_loads_documented Hrun
    ltac:(apply (bool_decide_unpack _); vm_compute; exact Logic.I))
    as (req & g & decoded & schema & es & _ & (_ & _ & _ & Hdec) & (Hes & _ & Hn) & _).
  exists response, decoded. split_and!; [exact Hr | exact Hc | exact Hs | exact Hdec |]. by exists schema, es.
Defined.

Lemma reimport_unchanged_witness : exists r1 r2, (lab_import ∅).2 = Ok r1 /\ (lab_import imported_table).2 = Ok r2 /\
  created r2 = 0 /\ unchanged r2 = discovered r1.
Proof.
  assert (H : exists r1 r2, (lab_import ∅).2 = Ok r1 /\ (lab_import imported_table).2 = Ok r2 /\
    response_target_id r1 = response_target_id r2) by (do 2 eexists; split_and!; vm_compute; reflexivity).
  destruct H as (r1 & r2 & Hr1 & Hr2 & Ht). exists r1, r2. split; [exact Hr1|]. split; [exact Hr2|].
  assert (Hrun1 : lab_import ∅ = ((lab_import ∅).1, Ok r1)) by (rewrite <- Hr1; by destruct (lab_import ∅)).
  assert (Hrun2 : lab_import imported_table = ((lab_import imported_table).1, Ok r2))
    by (rewrite <- Hr2; by destruct (lab_import imported_table)).
  destruct (reimport_unchanged ["localhost"] (fun s => s) document_loads false copy_decompress copy_eof
    (fun _ => EmptyString) (fun _ _ => Some EmptyString) lab_url (Some 81) 1 (import_environment ∅) (lab_import ∅).1 r1
    (import_environment imported_table) (lab_import imported_table).1 r2 (fun p => p) ∅ (settled imported_table)
    (settled imported_table) document_loads_documented endpoint_changed_refl Hrun1
    ltac:(apply (bool_decide_unpack _); vm_compute; exact Logic.I) Hrun2
    ltac:(apply (bool_decide_unpack _); vm_compute; exact Logic.I) Ht) as (H1 & _ & H2 & _); [|by split].
  assert (Hall : forall T, Forall (fun e => match e with Event c r => match c return result exn (answer c) -> Prop with
      | ImportRequest _ => fun r => forall g, r = Ok g -> g = lab_document | _ => fun _ => True end r end) (lab_import T).1).
  { intros T. unfold lab_import, import_run.
    match goal with |- context [run ?env ?p ?h] => pose proof (run_answers (fun e => match e with Event c r =>
      match c return result exn (answer c) -> Prop with
      | ImportRequest _ => fun r => forall g, r = Ok g -> g = lab_document | _ => fun _ => True end r end) env p h) as Hrun;
      destruct (run env p h) as [evs [r []]] end.
    apply Hrun. intros h []; try done. by intros g [= <-]. }
  intros q1 g1 q2 g2 Hin1 Hin2. pose proof (Hall ∅) as Ha. pose proof (Hall imported_table) as Hb.
  rewrite Forall_forall in Ha, Hb. by rewrite (Ha _ Hin1 g1 eq_refl), (Hb _ Hin2 g2 eq_refl).
Defined.
