(* ===== verification/Planning.v ===== *)
(** Planning of test cases, src/backend/app/services/test_case_planning.py: the plan of one
    test case, with the scope that covers it as the policy context. *)

From S2P Require Import Prelude.
From S2P Require Import PyStr.
From S2P Require Import PyUrl.
From S2P Require Import PyJson.
From S2P Require Import Models.
From S2P Require Import Samples.
From S2P Require Import ScopePolicy.
From S2P Require Import Database.
From S2P Require Import PlanDigest.
From S2P Require Import SafetyAudit.
From S2P Require Import Effects.
From S2P Require Import CaseUrl.
From S2P Require Import PlanExecution.

Open Scope Z_scope.

Definition POLICY_CONTEXT_VERSION : string := "v1".

(** [TestCasePlanningError]; an error of plan creation or of the policy's functions that
    no clause catches passes through. *)
Inductive case_planning_error : Type :=
| TestCasePlanningError (message : string)
| PlanCreationError (e : plan_error)
| PlanningPolicyError (e : policy_error)
| OtherPlanningError (e : exn).

Definition planning_check (b : bool) (message : string) : result case_planning_error unit :=
  guard_or b (TestCasePlanningError message).

(** ** The scope of the request *)

(** [sorted({method.strip().upper() for method in scope.allowed_methods})] *)
Definition normalized_methods (s : Scope) : list string :=
  sort_strings (remove_dups ((fun m => upper (strip m)) <$> allowed_methods s)).

Definition scope_context (s : Scope) (hostname path_pattern : string) : json :=
  JObj [("context_version", JStr POLICY_CONTEXT_VERSION);
        ("matched_scope",
          JObj [("id", JInt (scope_id s)); ("hostname", JStr hostname); ("path_pattern", JStr path_pattern);
                ("allowed_methods", JArr (JStr <$> normalized_methods s))])].

(** One turn of the loop: the context, if the scope matches. *)
Definition match_scope (origin : Origin) (request_path : string) (s : Scope) : policy_result (option json) :=
  hostname ← normalize_hostname (scope_hostname s);
  pattern ← normalize_scope_path_pattern (path_pattern s);
  matches ← (if bool_decide (hostname = origin_hostname origin) && bool_decide ("GET" ∈ normalized_methods s)
             then path_matches_scope request_path pattern else Ok false);
  Ok (if matches : bool then Some (scope_context s hostname pattern) else None).

Fixpoint first_scope (origin : Origin) (request_path : string) (scopes : list Scope)
    : result case_planning_error json :=
  match scopes with
  | [] => Raise (TestCasePlanningError "no active Scope matches the planned action")
  | s :: rest =>
      match match_scope origin request_path s with
      | Ok (Some context) => Ok context
      | Ok None | Raise (PolicyValidationError _) => first_scope origin request_path rest
      | Raise e => Raise (PlanningPolicyError e)
      end
  end.

Definition unsafe_url {A} (m : policy_result A) : result case_planning_error A :=
  catch m (fun e => Raise match e with
                          | PolicyValidationError _ => TestCasePlanningError "planned action URL is unsafe"
                          | _ => PlanningPolicyError e
                          end).

Definition build_scope_context (db : Database) (target : Z) (request_url : string)
    : result case_planning_error json :=
  origin ← unsafe_url (parse_origin request_url);
  path ← unsafe_url (normalize_request_path request_url);
  first_scope origin path (active_scopes target db).

(** ** The plan *)

Section planning.
Variable sha256 : string -> string.
Variable json_loads : string -> option json.

(** The rows that the plan is made of. *)
Definition load_case (db : Database) (case_id : Z) : result case_planning_error PlanRows :=
  test_case ← require (test_cases db !! case_id) (TestCasePlanningError "TestCase not found");
  _ ← planning_check (negb (new_case db (Some test_case))) "intent_w2_execution_closed";
  let incomplete := TestCasePlanningError "TestCase graph is incomplete" in
  endpoint ← require (endpoints db !! test_case_endpoint_id test_case) incomplete;
  resource ← require (resources db !! test_case_resource_id test_case) incomplete;
  actor ← require (identities db !! test_case_actor_identity_id test_case) incomplete;
  target ← require (targets db !! endpoint_target_id endpoint) (TestCasePlanningError "Target not found");
  _ ← planning_check (is_enabled target) "Target is disabled";
  _ ← planning_check ((resource_target_id resource =? target_id target)
                      && (identity_target_id actor =? target_id target)) "TestCase graph crosses Targets";
  _ ← planning_check (bool_decide (endpoint_method endpoint = "GET")) "M5 planning supports GET endpoints only";
  revision_id ← require (target_authorization_revision_id target)
    (TestCasePlanningError "Target has no bound AuthorizationRevision");
  let inconsistent := TestCasePlanningError "Target-bound AuthorizationRevision is not active and consistent" in
  revision ← require (revisions db !! revision_id) inconsistent;
  _ ← guard_or (bool_decide (target_authorization_profile_id target = Some (authorization_profile_id revision))
                && bool_decide (lifecycle_state revision = "active")) inconsistent;
  Ok (mkRows target revision actor test_case resource endpoint).

Definition planned_url (rows : PlanRows) : result case_planning_error string :=
  catch (build_test_case_url (row_target rows) (row_endpoint rows) (row_resource rows))
    (fun e => Raise match e with TestExecutionError m => TestCasePlanningError m | _ => OtherPlanningError e end).

(** [create_test_case_execution_plan]: the rows of the plan and its audit record. *)
Definition create_test_case_execution_plan (db : Database) (case_id : Z) (binding : option Z)
    (new_plan_id first_action_id : Z)
    : result case_planning_error (ExecutionPlan * list PlanAction * SafetyDecisionRecord) :=
  rows ← load_case db case_id;
  url ← planned_url rows;
  context ← build_scope_context db (target_id (row_target rows)) url;
  '(plan, actions) ← catch
    (create_execution_plan sha256 json_loads db (target_id (row_target rows)) (revision_id (row_revision rows))
       (identity_id (row_actor rows)) binding
       [mkInput "GET" url (Some (test_case_id (row_test_case rows))) (Some (resource_id (row_resource rows)))]
       (Some context) new_plan_id first_action_id)
    (fun e => Raise (PlanCreationError e));
  Ok (plan, actions, append_plan_created plan actions (test_case_id (row_test_case rows))).
End planning.

(** * Lemmas *)

Lemma lstrip_fixed p c s : p c = false -> lstrip_by p (String c s) = String c s.
Proof. cbn. by intros ->. Qed.
Lemma lstrip_head p s : match lstrip_by p s with String c _ => p c = false | EmptyString => True end.
Proof. induction s as [|c s IH]; cbn; [done|]. by destruct (p c) eqn:E. Qed.
Lemma rstrip_idemp p s : rstrip_by p (rstrip_by p s) = rstrip_by p s.
Proof.
  induction s as [|c s IH]; cbn; [done|]. destruct (is_empty _ && _) eqn:E; [done|]. cbn. by rewrite IH, E.
Qed.
Lemma strip_idemp s : strip (strip s) = strip s.
Proof.
  unfold strip. pose proof (lstrip_head is_space s) as H. destruct (lstrip_by is_space s) as [|c t]; [done|].
  cbn [rstrip_by]. rewrite H, andb_false_r, lstrip_fixed by done.
  cbn [rstrip_by]. rewrite rstrip_idemp. by rewrite H, andb_false_r.
Qed.

Lemma normalized_methods_get s :
  "GET" ∈ normalized_methods s <-> exists item, item ∈ allowed_methods s /\ upper (strip item) = "GET".
Proof.
  unfold normalized_methods. rewrite elem_of_sort_strings, elem_of_remove_dups, list_elem_of_fmap. naive_solver.
Qed.

Lemma normalize_pattern_idemp p v : normalize_scope_path_pattern p = Ok v -> normalize_scope_path_pattern v = Ok v.
Proof.
  unfold normalize_scope_path_pattern. intros H.
  assert (v = strip p) as -> by by repeat case_if_in H; simplify_eq.
  rewrite strip_idemp. exact H.
Qed.

(** A normalized pattern covers the same paths. *)
Lemma path_matches_normalized path p v : normalize_scope_path_pattern p = Ok v ->
  path_matches_scope path v = path_matches_scope path p.
Proof. intros H. unfold path_matches_scope. by rewrite (normalize_pattern_idemp _ _ H), H. Qed.

Lemma path_matches_total path p v : normalize_scope_path_pattern p = Ok v ->
  exists b, path_matches_scope path v = Ok b.
Proof. intros H. unfold path_matches_scope. rewrite (normalize_pattern_idemp _ _ H). cbn. repeat case_if; eauto. Qed.

(** The planner and the policy agree on every active scope. *)
Lemma match_scope_cases o path s : scope_is_active s = true ->
  match match_scope o path s with
  | Ok (Some c) => scope_matches o "GET" path s = true /\ exists h v, c = scope_context s h v
  | Ok None | Raise (PolicyValidationError _) => scope_matches o "GET" path s = false
  | Raise (PlainValueError _) => False
  end.
Proof.
  intros Ha. unfold match_scope.
  destruct (scope_matches o "GET" path s) eqn:Hm.
  - apply scope_matches_true in Hm as (_ & Hh & Hmeth & Hp). rewrite Hh. cbn.
    pose proof Hp as Hv. unfold path_matches_scope in Hv. apply bind_ok in Hv as (v & Hv & _). rewrite Hv. cbn.
    rewrite bool_decide_eq_true_2, bool_decide_eq_true_2 by by (try apply normalized_methods_get). cbn.
    rewrite (path_matches_normalized _ _ _ Hv), Hp. cbn. eauto.
  - assert (Hno : ~ in_scope o "GET" path s) by (rewrite <- scope_matches_true, Hm; done).
    destruct (normalize_hostname (scope_hostname s)) as [h|e] eqn:Hh; cbn.
    2: { destruct (normalize_hostname_error _ _ Hh) as [m ->]. done. }
    destruct (normalize_scope_path_pattern (path_pattern s)) as [v|e] eqn:Hv; cbn.
    2: { unfold normalize_scope_path_pattern in Hv. by repeat case_if_in Hv; simplify_eq. }
    case_bool_decide as E1; cbn; [|done]. case_bool_decide as E2; cbn; [|done].
    destruct (path_matches_total path _ _ Hv) as [b Hb]. rewrite Hb. cbn. destruct b; [|done].
    destruct Hno. rewrite (path_matches_normalized _ _ _ Hv) in Hb. apply normalized_methods_get in E2.
    subst h. done.
Qed.

Lemma first_scope_spec o path scopes c : Forall (fun s => scope_is_active s = true) scopes ->
  first_scope o path scopes = Ok c ->
  exists s h v, find_first (scope_matches o "GET" path) scopes = Some s /\ c = scope_context s h v.
Proof.
  induction 1 as [|s scopes Ha _ IH]; [done|]. cbn. pose proof (match_scope_cases o path s Ha) as Hc.
  destruct (match_scope o path s) as [[c'|]|[m|m]]; try done; [|by rewrite Hc..].
  destruct Hc as [-> (h & v & ->)]. intros [= <-]. by exists s, h, v.
Qed.

Lemma unsafe_url_ok {A} (m : policy_result A) a : unsafe_url m = Ok a -> m = Ok a.
Proof. destruct m as [|[]]; cbn; congruence. Qed.

Lemma active_scopes_active t db : Forall (fun s => scope_is_active s = true) (active_scopes t db).
Proof. apply Forall_forall. intros s. unfold active_scopes. rewrite list_elem_of_filter. by intros [[_ ?] _]. Qed.

(** * Properties *)

(** Rows are stored under their ids. *)
Definition keyed (db : Database) : Prop :=
  (forall k x, targets db !! k = Some x -> target_id x = k) /\
  (forall k x, revisions db !! k = Some x -> revision_id x = k) /\
  (forall k x, identities db !! k = Some x -> identity_id x = k) /\
  (forall k x, resources db !! k = Some x -> resource_id x = k) /\
  (forall k x, test_cases db !! k = Some x -> test_case_id x = k).

(** The rows that an execution of the plan loads. *)
Definition plan_rows (db : Database) (plan : ExecutionPlan) (action : PlanAction) (rows : PlanRows) : Prop :=
  targets db !! plan_target_id plan = Some (row_target rows) /\
  revisions db !! plan_authorization_revision_id plan = Some (row_revision rows) /\
  identities db !! plan_actor_identity_id plan = Some (row_actor rows) /\
  (c ← action_test_case_id action; test_cases db !! c) = Some (row_test_case rows) /\
  (r ← action_resource_id action; resources db !! r) = Some (row_resource rows) /\
  endpoints db !! test_case_endpoint_id (row_test_case rows) = Some (row_endpoint rows).

Lemma load_case_ok db c rows : keyed db -> load_case db c = Ok rows ->
  authorization_exact rows = true /\ provenance_consistent rows = true /\ test_case_id (row_test_case rows) = c /\
  targets db !! target_id (row_target rows) = Some (row_target rows) /\
  revisions db !! revision_id (row_revision rows) = Some (row_revision rows) /\
  identities db !! identity_id (row_actor rows) = Some (row_actor rows) /\
  test_cases db !! c = Some (row_test_case rows) /\
  resources db !! resource_id (row_resource rows) = Some (row_resource rows) /\
  endpoints db !! test_case_endpoint_id (row_test_case rows) = Some (row_endpoint rows).
Proof.
  intros (Kt & Kr & Ki & Ks & Kc) H. unfold load_case, planning_check in H. result_inv. bool_simpl.
  cbn [row_target row_revision row_actor row_test_case row_resource row_endpoint].
  repeat match goal with
  | Hl : targets _ !! _ = Some _ |- _ => pose proof (Kt _ _ Hl); revert Hl
  | Hl : revisions _ !! _ = Some _ |- _ => pose proof (Kr _ _ Hl); revert Hl
  | Hl : identities _ !! _ = Some _ |- _ => pose proof (Ki _ _ Hl); revert Hl
  | Hl : resources _ !! _ = Some _ |- _ => pose proof (Ks _ _ Hl); revert Hl
  | Hl : test_cases _ !! _ = Some _ |- _ => pose proof (Kc _ _ Hl); revert Hl
  end.
  intros. subst. unfold authorization_exact, provenance_consistent.
  cbn [row_target row_revision row_actor row_test_case row_resource row_endpoint].
  split_and!; try congruence; rewrite ?andb_true_iff, ?Z.eqb_eq, ?bool_decide_eq_true; split_and!; congruence.
Qed.

Lemma lab_keyed : keyed lab_db.
Proof.
  unfold keyed, lab_db. cbn [targets revisions identities resources test_cases].
  split_and!; intros k x H; rewrite ?lookup_insert_Some, ?lookup_singleton_Some in H; naive_solver.
Qed.

(** What a created plan with one action says about it. *)
Lemma create_single_ok sha256 json_loads db target revision actor b input context pid aid plan acts :
  targets db !! target_id target = Some target -> revisions db !! revision_id revision = Some revision ->
  identities db !! identity_id actor = Some actor ->
  create_execution_plan sha256 json_loads db (target_id target) (revision_id revision) (identity_id actor) b [input]
    (Some context) pid aid = Ok (plan, acts) ->
  acts = [new_action pid aid 1 input] /\ plan_target_id plan = target_id target /\
  plan_authorization_revision_id plan = revision_id revision /\ plan_actor_identity_id plan = identity_id actor /\
  input_method input = "GET" /\
  (exists o, parse_origin (base_url target) = Ok o /\ parse_origin (input_url input) = Ok o) /\
  (exists text, dumps canonical context = Some text /\ json_loads text = Some (policy_context plan)).
Proof.
  intros Lt Lr Li H. unfold create_execution_plan, create_execution_plan_, lift_policy in H.
  do 3 apply guard_bind_ok in H as [_ H]. apply bind_ok in H as ([[tg rv] ac] & Hparties & H).
  assert (tg = target /\ rv = revision /\ ac = actor) as (-> & -> & ->).
  { unfold plan_parties in Hparties. rewrite Lt, Lr, Li in Hparties. cbn [require mbind result_bind] in Hparties.
    rewrite !guard_bind_ok in Hparties. destruct Hparties as (_ & _ & _ & _ & _ & Hparties).
    apply bind_ok in Hparties as ([] & _ & [= <- <- <-]). done. }
  destruct (parse_origin (base_url target)) as [o|] eqn:Eb; [|done].
  cbn [catch mbind result_bind] in H. apply bind_ok in H as (us & Hacts & H).
  apply bind_ok in H as (frozen & Hf & H). apply bind_ok in H as (digest & _ & [= <- <-]).
  do 4 (split; [done|]). apply map_result_ok in Hacts. inversion Hacts as [|? y ? ? Hact _]; subst.
  unfold check_action, lift_policy in Hact. rewrite !guard_bind_ok in Hact. destruct Hact as (Hm & _ & Hact).
  apply bool_decide_eq_true in Hm. split; [done|]. split.
  - exists o. split; [done|]. destruct (parse_origin (input_url input)) as [o'|]; [|done].
    apply guard_bind_ok in Hact as [->%bool_decide_eq_true _]. done.
  - unfold canonicalize_policy_context in Hf. apply guard_bind_ok in Hf as [_ Hf].
    apply bind_ok in Hf as ([] & _ & Hf). apply bind_ok in Hf as (text & Ht & Hf).
    apply guard_bind_ok in Hf as [_ Hf]. unfold canonical_json, require in Ht, Hf. exists text.
    cbn [from_option id policy_context] in *. destruct (dumps canonical context); [|done].
    destruct (json_loads text) eqn:El; [|done]. split; congruence.
Qed.

(** A request that the planner's scope covers is allowed while the authorization lasts. *)
Lemma planned_allowed hosts target r scopes url s t now o path :
  parse_origin url = Ok o -> parse_origin (base_url target) = Ok o -> normalize_request_path url = Ok path ->
  find_first (scope_matches o "GET" path) scopes = Some s ->
  origin_hostname o ∈ hosts -> allow_get r = true -> current_authorization target (Some r) t r ->
  exists d, evaluate hosts target (Some r) scopes url "GET" (Some (Aware t)) now = Ok d /\
    allowed d = true /\ matched_scope_id d = Some (scope_id s).
Proof.
  intros Eo Eb Ep Hs Hhost Hget Hcur. pose proof (find_first_elem _ _ _ Hs) as [Hin Hsm].
  destruct (evaluate_cases hosts target (Some r) scopes url "GET" t now)
    as (d & Hd & _ & [(r' & o1 & m & p & s1 & _ & Hq & Hs1 & Hal & _ & Hm)|(_ & _ & Hno)]).
  - exists d. do 2 (split; [done|]). destruct Hq as (Ho1 & _ & _ & -> & _ & _ & Hp1).
    rewrite Eo in Ho1. injection Ho1 as <-. rewrite Ep in Hp1. injection Hp1 as <-.
    change (upper (strip "GET")) with "GET" in Hs1. rewrite Hs in Hs1. by injection Hs1 as <-.
  - apply scope_matches_true in Hsm. destruct (Hno r o "GET" path Hcur) with s; [|done..].
    unfold admissible_request. split_and!; try done. by left.
Qed.

(** What is planned can be executed: the plan of a test case has one action, a GET of
    the test case's URL; its rows are the ones an execution loads, and they pass the checks
    on authorization and provenance; its context names an active scope of the Target; and
    as long as the revision stays in force, allows GET and the host is allowlisted, the
    policy allows the request by exactly that scope. *)
Theorem planned_case_executable sha256 json_loads db case binding pid aid plan acts rec (Hkeys : keyed db)
    (H : create_test_case_execution_plan sha256 json_loads db case binding pid aid = Ok (plan, acts, rec)) :
  exists rows action s h v url,
    acts = [action] /\ action_method action = "GET" /\ action_url action = url /\
    build_test_case_url (row_target rows) (row_endpoint rows) (row_resource rows) = Ok url /\
    plan_rows db plan action rows /\ authorization_exact rows = true /\ provenance_consistent rows = true /\
    rec = append_plan_created plan acts case /\
    s ∈ active_scopes (target_id (row_target rows)) db /\
    (exists text, dumps canonical (scope_context s h v) = Some text /\ json_loads text = Some (policy_context plan)) /\
    forall hosts t now o, parse_origin url = Ok o -> origin_hostname o ∈ hosts ->
      allow_get (row_revision rows) = true ->
      current_authorization (row_target rows) (Some (row_revision rows)) t (row_revision rows) ->
      exists d, evaluate hosts (row_target rows) (Some (row_revision rows))
                  (active_scopes (target_id (row_target rows)) db) url "GET" (Some (Aware t)) now = Ok d /\
        allowed d = true /\ matched_scope_id d = Some (scope_id s).
Proof.
  unfold create_test_case_execution_plan in H. apply bind_ok in H as (rows & Hrows & H).
  destruct (load_case_ok _ _ _ Hkeys Hrows) as (Ha & Hp & Hc & Lt & Lr & Li & Lc & Ls & Le).
  apply bind_ok in H as (url & Hu & H). apply bind_ok in H as (context & Hctx & H).
  apply bind_ok in H as ([plan' acts'] & H & [= <- <- <-]).
  unfold catch in H. destruct (create_execution_plan _ _ _ _ _ _ _ _ _ _ _) as [x|] eqn:Hplan; [|done].
  injection H as ->. unfold planned_url in Hu.
  destruct (build_test_case_url _ _ _) as [url'|[]] eqn:Hurl; try done. injection Hu as ->.
  unfold build_scope_context in Hctx. apply bind_ok in Hctx as (o & Eo%unsafe_url_ok & Hctx).
  apply bind_ok in Hctx as (path & Epath%unsafe_url_ok & Hctx).
  destruct (first_scope_spec _ _ _ _ (active_scopes_active _ _) Hctx) as (s & h & v & Hs & ->).
  destruct (create_single_ok _ _ _ _ _ _ _ _ _ _ _ _ _ Lt Lr Li Hplan)
    as (-> & Ht & Hr & Hi & _ & (o' & Eb & Eu) & Htext).
  cbn [input_url] in Eu. rewrite Eo in Eu. injection Eu as <-.
  eexists rows, _, s, h, v, url. split; [reflexivity|]. do 3 (split; [done|]).
  split; [unfold plan_rows; rewrite Ht, Hr, Hi; cbn; rewrite Hc; by split_and!|].
  do 2 (split; [done|]). split; [by rewrite Hc|]. split; [by eapply find_first_elem|]. split; [done|].
  intros hosts t now o' Eo' Hhost Hget Hcur. rewrite Eo in Eo'. injection Eo' as <-.
  by eapply planned_allowed.
Qed.

(** * Witness *)

Definition lab_context : string :=
  default EmptyString (dumps canonical (scope_context lab_scope "localhost" "/api/*")).
Definition planning_loads (text : string) : option json :=
  if String.eqb text lab_context then Some (scope_context lab_scope "localhost" "/api/*") else None.

Lemma planned_case_executable_witness : exists plan acts rec,
  create_test_case_execution_plan (fun s => s) planning_loads lab_db 51 (Some 81) 61 70 = Ok (plan, acts, rec) /\
  exists d, evaluate ["localhost"] lab_target (Some lab_revision) [lab_scope]
              "http://localhost:8000/api/orders/42" "GET" (Some (Aware 2000)) 0 = Ok d /\ allowed d = true.
Proof.
  eexists _, _, _. split; [vm_compute; reflexivity|].
  destruct (planned_case_executable (fun s => s) planning_loads lab_db 51 (Some 81) 61 70 _ _ _ lab_keyed
    ltac:(vm_compute; reflexivity)) as (rows & action & s & h & v & url & [= <-] & _ & <- & _ & Hrows & _ & _ & _ & _ & _ & H).
  destruct Hrows as (Ht & Hr & _).
  assert (Et : Some lab_target = Some (row_target rows)) by (rewrite <- Ht; vm_compute; reflexivity).
  assert (Er : Some lab_revision = Some (row_revision rows)) by (rewrite <- Hr; vm_compute; reflexivity).
  clear Ht Hr. injection Et as Ht. injection Er as Hr.
  destruct (H ["localhost"] 2000 0 (mkOrigin "http" "localhost" 8000)) as (d & Hd & Ha & _).
  - vm_compute; reflexivity.
  - by left.
  - by rewrite <- Hr.
  - rewrite <- Ht, <- Hr. apply authorization_gate_ok. vm_compute. reflexivity.
  - exists d. split; [|done]. rewrite <- Ht, <- Hr in Hd. exact Hd.
Defined.
