(* ===== verification/PlanSafety.v ===== *)
(** What every execution of a plan guarantees, whatever the database, the other workers
    and the network answer: the protocol of claim, network boundary and result of
    PlanExecution.v, as a monitor that follows the calls. *)

From S2P Require Import Prelude.
From S2P Require Import PyStr.
From S2P Require Import PyFloat.
From S2P Require Import PyJson.
From S2P Require Import Models.
From S2P Require Import Samples.
From S2P Require Import ScopePolicy.
From S2P Require Import Destination.
From S2P Require Import Gateway.
From S2P Require Import Coordination.
From S2P Require Import Database.
From S2P Require Import PlanDigest.
From S2P Require Import Approval.
From S2P Require Import SafetyAudit.
From S2P Require Import Effects.
From S2P Require Import HttpExecutor.
From S2P Require Import PlanExecution.

Open Scope Z_scope.

(** * The monitor *)

(** [Marked] is the moment between the recorded network start and the request, [Fenced]
    the one between the verified claim and the insertion of the result. *)
Inductive stage : Type := Before | Claimed | Refused | Marked | Sent | Fenced | Written | Released.
#[export] Instance stage_eq_dec : EqDecision stage.
Proof. solve_decision. Defined.

(** The stage, the current claim handle and the exception of the last call. *)
Record watch := mkWatch {
  at_stage : stage;
  handle : option ClaimHandle;
  failure : option (plan_call * exn)
}.

Definition is_at (w : watch) (l : list stage) : bool := bool_decide (at_stage w ∈ l).
Definition holds (w : watch) (h : ClaimHandle) : bool := bool_decide (handle w = Some h).

Definition protocol (w : watch) (e : event plan_call) : option watch :=
  let 'Event c r := e in
  let failed := match r with Ok _ => None | Raise x => Some (c, x) end in
  let move (b : bool) (ok failing : stage) :=
    if b then Some (mkWatch (if is_ok r then ok else failing) (handle w) failed) else None in
  match c as c' return result exn (answer c') -> option watch with
  | AcquireClaim _ _ _ => fun r =>
      if is_at w [Before] then
        Some match r with Ok h => mkWatch Claimed (Some h) failed | Raise _ => mkWatch Before None failed end
      else None
  | RenewClaim h _ => fun r =>
      if is_at w [Claimed] && holds w h then
        Some match r with Ok h' => mkWatch Claimed (Some h') failed | Raise _ => mkWatch Claimed (Some h) failed end
      else None
  | MarkNetworkStarted h => fun _ => move (is_at w [Claimed] && holds w h) Marked Refused
  | PlanRequest _ => fun _ => move (is_at w [Marked]) Sent Sent
  | AssertClaim h => fun _ => move (is_at w [Claimed; Refused; Sent] && holds w h) Fenced (at_stage w)
  | InsertRun _ => fun _ => move (is_at w [Fenced]) Written Written
  | ReleaseClaim h => fun _ => move (is_at w [Claimed; Refused; Sent; Written] && holds w h) Released Released
  | _ => fun _ => move (negb (is_at w [Marked; Fenced])) (at_stage w) (at_stage w)
  end r.

Definition any (e : event plan_call) : Prop := True.
Abbreviation checked m Q s w := (verified protocol any m Q s w).

(** * Quiet computations: they leave the stage and the handle alone *)

Definition same (w w' : watch) : Prop := at_stage w' = at_stage w /\ handle w' = handle w.
Definition calm (w : watch) : Prop := is_at w [Marked; Fenced] = false.

Definition quiet {S A} (m : M plan_call S A) : Prop := forall s w, calm w ->
  checked m (fun _ s' w' => s' = s /\ same w w') s w.

Lemma same_refl w : same w w.
Proof. done. Qed.
Lemma same_trans w1 w2 w3 : same w1 w2 -> same w2 w3 -> same w1 w3.
Proof. intros [H1 H2] [H3 H4]. split; congruence. Qed.
Lemma same_calm w w' : same w w' -> calm w -> calm w'.
Proof. unfold calm, is_at. intros [H _]. by rewrite H. Qed.

Lemma quiet_use {S A} (m : M plan_call S A) Q s w : quiet m -> calm w ->
  (forall r w', same w w' -> Q r s w') -> checked m Q s w.
Proof. intros Hm Hw HQ. eapply verified_mono; [by apply Hm|]. intros r s' w' [-> Hs]. by apply HQ. Qed.

Lemma quiet_ret {S A} (a : A) : quiet (mret a : M plan_call S A).
Proof. by intros s w. Qed.
Lemma quiet_raise {S A} e : quiet (raise e : M plan_call S A).
Proof. by intros s w. Qed.
Lemma quiet_lift {S A} (r : result exn A) : quiet (lift r : M plan_call S A).
Proof. by intros s w. Qed.
Lemma quiet_bind {S A B} (m : M plan_call S A) (f : A -> M plan_call S B) :
  quiet m -> (forall a, quiet (f a)) -> quiet (m ≫= f).
Proof.
  intros Hm Hf s w Hw. apply verified_bind. apply quiet_use; [done..|]. intros [a|e] w' Hs; [|done].
  eapply quiet_use; [done | by eapply same_calm|]. intros r w'' Hs'. split; [done|]. by eapply same_trans.
Qed.
Lemma quiet_try_else {S A B} (m : M plan_call S A) h (k : A -> M plan_call S B) :
  quiet m -> (forall e m', h e = Some m' -> quiet m') -> (forall a, quiet (k a)) -> quiet (try_else m h k).
Proof.
  intros Hm Hh Hk s w Hw. apply verified_try_else. apply quiet_use; [done..|]. intros [a|e] w' Hs.
  - eapply quiet_use; [done | by eapply same_calm|]. intros r w'' Hs'. split; [done|]. by eapply same_trans.
  - destruct (h e) as [m'|] eqn:E; [|done]. eapply quiet_use; [by eapply Hh | by eapply same_calm|].
    intros r w'' Hs'. split; [done|]. by eapply same_trans.
Qed.
Lemma quiet_try {S A} (m : M plan_call S A) h :
  quiet m -> (forall e m', h e = Some m' -> quiet m') -> quiet (try_except m h).
Proof.
  intros Hm Hh s w Hw. apply verified_try. apply quiet_use; [done..|]. intros [a|e] w' Hs; [done|].
  destruct (h e) as [m'|] eqn:E; [|done]. eapply quiet_use; [by eapply Hh | by eapply same_calm|].
  intros r w'' Hs'. split; [done|]. by eapply same_trans.
Qed.

(** The calls that the protocol does not follow. *)
Definition neutral (c : plan_call) : bool :=
  match c with
  | AcquireClaim _ _ _ | RenewClaim _ _ | MarkNetworkStarted _ | PlanRequest _ | AssertClaim _ | InsertRun _
  | ReleaseClaim _ => false
  | _ => true
  end.
Lemma quiet_perform {S} c : neutral c = true -> quiet (perform c : M plan_call S (answer c)).
Proof.
  unfold calm. intros Hc s w Hw. destruct c; try discriminate Hc.
  all: intros x _; cbn; rewrite Hw; by destruct x.
Qed.

#[export] Hint Resolve quiet_ret quiet_raise quiet_lift : platform.

(** Decompose a computation; each call is checked to be neutral. *)
Ltac quiet_step :=
  match goal with
  | |- quiet (mbind _ _) => apply quiet_bind; [| intros ?]
  | |- quiet (perform ?c) => exact (quiet_perform c eq_refl)
  | |- quiet (mret _) => apply quiet_ret
  | |- quiet (raise _) => apply quiet_raise
  | |- quiet (lift _) => apply quiet_lift
  | |- quiet (try_except _ _) => apply quiet_try; [| let e := fresh "e" in intros e ? ?; destruct e; simplify_eq]
  | |- quiet (try_else _ _ _) => apply quiet_try_else; [| let e := fresh "e" in intros e ? ?; destruct e; simplify_eq | intros ?]
  | |- quiet (match ?x with _ => _ end) => destruct x
  end.
Ltac quiet_tac := repeat (quiet_step; cbn [is_exception] in *; simplify_eq); eauto with platform.

Lemma quiet_read {S A} (q : Database -> A) : quiet (read q : M plan_call S A).
Proof. unfold read. quiet_tac. Qed.
Lemma quiet_read_fresh {S A} (q : Database -> A) : quiet (read_fresh q : M plan_call S A).
Proof. unfold read_fresh. quiet_tac. Qed.
Lemma quiet_append {S} i o c r run : quiet (append_outcome i o c r run : M plan_call S unit).
Proof. unfold append_outcome. quiet_tac. Qed.
Lemma quiet_blocked {S A} c r : quiet (blocked c r : M plan_call S A).
Proof. apply quiet_raise. Qed.
#[export] Hint Resolve quiet_read quiet_read_fresh quiet_append quiet_blocked : platform.

Lemma quiet_preflight {S A} i c r : quiet (raise_preflight_blocked i c r : M plan_call S A).
Proof. unfold raise_preflight_blocked. quiet_tac. Qed.
Lemma quiet_post_network {S A} i c r : quiet (raise_post_network_failure i c r : M plan_call S A).
Proof. unfold raise_post_network_failure. quiet_tac. Qed.
Lemma quiet_cleanup {S} i : quiet (audit_claim_cleanup_failure i : M plan_call S unit).
Proof. unfold audit_claim_cleanup_failure. quiet_tac. Qed.
Lemma quiet_fresh_canonical {S} p : quiet (load_fresh_canonical p : M plan_call S (option TestRun)).
Proof. unfold load_fresh_canonical. quiet_tac. Qed.
Lemma quiet_persistence_failed {S A} i : quiet (persistence_failed i : M plan_call S A).
Proof. unfold persistence_failed. quiet_tac. apply quiet_post_network. Qed.
#[export] Hint Resolve quiet_preflight quiet_post_network quiet_cleanup quiet_fresh_canonical
  quiet_persistence_failed : platform.
Lemma quiet_conflicting {S} i a b : quiet (conflicting_run i a b : M plan_call S TestRun).
Proof. unfold conflicting_run. quiet_tac. Qed.
Lemma quiet_load_plan {S} sha p : quiet (load_plan sha p : M plan_call S (ExecutionPlan * PlanAction)).
Proof. unfold load_plan, check. quiet_tac. Qed.
Lemma quiet_load_rows {S} plan c r : quiet (load_rows plan c r : M plan_call S PlanRows).
Proof. unfold load_rows, require_or. quiet_tac. Qed.
Lemma quiet_check_approval {S} sha i rows : quiet (check_approval sha i rows : M plan_call S bool).
Proof. unfold check_approval, preflight_unless. quiet_tac. Qed.
Lemma quiet_authenticate {S} i plan actor : quiet (authenticate i plan actor : M plan_call S (list (string * string))).
Proof. unfold authenticate. quiet_tac. Qed.
Lemma quiet_check_cancellation {S} i (release : M plan_call S unit) : quiet release ->
  quiet (check_cancellation i release).
Proof. intros Hr. unfold check_cancellation. quiet_tac. Qed.
Lemma quiet_claim_unavailable {S} i : quiet (claim_unavailable i : M plan_call S TestRun).
Proof. unfold claim_unavailable. quiet_tac. Qed.

(** * The phases of an execution *)

(** The claim [h] is held, and the result is not written yet. *)
Definition pending (w : watch) (h : ClaimHandle) : Prop :=
  handle w = Some h /\ is_at w [Claimed; Refused; Sent] = true.
(** The claim is held. *)
Definition live (w : watch) (h : ClaimHandle) : Prop :=
  handle w = Some h /\ is_at w [Claimed; Refused; Sent; Written] = true.

Lemma is_at_iff w l : is_at w l = true <-> at_stage w ∈ l.
Proof. apply bool_decide_eq_true. Qed.
Lemma is_at_sub w l k : is_at w l = true -> (forall x, x ∈ l -> x ∈ k) -> is_at w k = true.
Proof. rewrite !is_at_iff. auto. Qed.
Lemma live_calm w h : live w h -> calm w.
Proof. unfold calm. intros [_ H]. unfold is_at in *. by destruct (at_stage w). Qed.
Lemma pending_live w h : pending w h -> live w h.
Proof. unfold live. intros [? H]. split; [done|]. unfold is_at in *. by destruct (at_stage w). Qed.
Lemma pending_calm w h : pending w h -> calm w.
Proof. intros H. by eapply live_calm, pending_live. Qed.
Lemma same_pending w w' h : same w w' -> pending w h -> pending w' h.
Proof. unfold pending, is_at. intros [-> ->]. done. Qed.
Lemma same_live w w' h : same w w' -> live w h -> live w' h.
Proof. unfold live, is_at. intros [-> ->]. done. Qed.
Lemma holds_true w h : handle w = Some h -> holds w h = true.
Proof. intros H. unfold holds. by apply bool_decide_eq_true_2. Qed.
#[export] Hint Resolve live_calm pending_live pending_calm same_pending same_live same_calm same_trans
  holds_true : platform.

Lemma release_checked {S} h i (Q : result exn unit -> S -> watch -> Prop) s w : live w h ->
  (forall r w', at_stage w' = Released -> Q r s w') -> checked (release_claim h i) Q s w.
Proof.
  intros [Hh Hat] HQ. apply verified_try. intros r _. cbn. rewrite Hat, holds_true by done. cbn.
  destruct r as [[]|e]; [by apply HQ|].
  destruct e; try (by apply HQ). eapply quiet_use; [apply quiet_cleanup | done|].
  intros r w' [Hs _]. by apply HQ.
Qed.

(** A call of the protocol, once its guard is known to hold. *)
Ltac follow_call H := intros r _; cbn; rewrite ?H, ?holds_true by done; cbn.

(** A quiet computation that always ends in an exception. *)
Definition raising {S A} (m : M plan_call S A) : Prop := forall s w, calm w ->
  checked m (fun r s' w' => s' = s /\ same w w' /\ is_ok r = false) s w.
Lemma raising_then {S A B} (m : M plan_call S A) e : quiet m -> raising (m ≫= fun _ => raise e : M plan_call S B).
Proof. intros Hm s w Hw. apply verified_bind, quiet_use; [done..|]. by intros [a|x] w' Hs. Qed.
Lemma raising_after {S A B} (m : M plan_call S A) (k : M plan_call S B) : quiet m -> raising k -> raising (m ≫= fun _ => k).
Proof.
  intros Hm Hk s w Hw. apply verified_bind, quiet_use; [done..|]. intros [a|x] w' Hs; [|done].
  eapply verified_mono; [apply Hk; eauto with platform|]. intros r s' w'' (-> & Hs' & Hr). eauto with platform.
Qed.
Lemma raising_post_network {S A} i c r : raising (raise_post_network_failure i c r : M plan_call S A).
Proof. apply raising_then. quiet_tac. Qed.

Lemma persist_handler_quiet {S} i e (m : M plan_call S TestRun) :
  (match e with
   | IntegrityViolation sqlstate name => Some (conflicting_run i sqlstate name)
   | _ => if is_exception e then Some (_ ← perform Rollback; persistence_failed i) else None
   end) = Some m -> quiet m.
Proof. destruct e; cbn [is_exception]; intros [= <-]; try apply quiet_conflicting; quiet_tac. Qed.

Section finish.
Context {S : Type} (h : ClaimHandle) (i : execution_ids) (o : string) (d : RunDraft).
Context (Q : result exn TestRun -> S -> watch -> Prop) (s : S).
Context (HQ : forall r w', live w' h -> Q r s w').

Lemma quiet_live (m : M plan_call S TestRun) w : quiet m -> live w h -> checked m Q s w.
Proof. intros Hm Hl. eapply quiet_use; [done | eauto with platform|]. intros r w' Hs. apply HQ. eauto with platform. Qed.

Lemma persist_checked w : handle w = Some h -> is_at w [Fenced] = true -> checked (persist_result i o d) Q s w.
Proof.
  intros Hh Hat. apply verified_try, verified_bind. follow_call Hat.
  set (w2 := mkWatch _ _ _). assert (Hl : live w2 h) by by destruct r. clearbody w2.
  destruct r as [id|e].
  - eapply quiet_use; [quiet_tac | eauto with platform|]. intros [run|e] w3 Hs; [apply HQ; eauto with platform|].
    destruct (match e with IntegrityViolation _ _ => _ | _ => _ end) as [m|] eqn:E; [|apply HQ; eauto with platform].
    apply quiet_live; [by eapply persist_handler_quiet | eauto with platform].
  - destruct (match e with IntegrityViolation _ _ => _ | _ => _ end) as [m|] eqn:E; [|by apply HQ].
    apply quiet_live; [by eapply persist_handler_quiet | done].
Qed.

Lemma finish_checked w : pending w h -> checked (finish h i o d) Q s w.
Proof.
  intros Hp. pose proof Hp as [Hh Hat]. unfold finish. apply verified_bind, verified_try. follow_call Hat.
  destruct r as [[]|e]; [by apply persist_checked|].
  set (w2 := mkWatch _ _ _). assert (Hl : live w2 h) by (apply pending_live; by split).
  assert (Hlost : forall m : M plan_call S unit, raising m -> checked m (fun r s' w' =>
    match r with Ok _ => checked (persist_result i o d) Q s' w' | Raise e => Q (Raise e) s' w' end) s w2).
  { intros m Hm. eapply verified_mono; [apply Hm; eauto with platform|]. intros [[]|x] s' w' (-> & Hs & Hr); [done|].
    apply HQ. eauto with platform. }
  destruct e; cbn; try (by apply HQ); apply Hlost, raising_after; (apply raising_post_network || quiet_tac).
Qed.
End finish.

(** ** The executor *)

Definition claimed (w : watch) (h : ClaimHandle) : Prop := handle w = Some h /\ at_stage w = Claimed.
Lemma claimed_pending w h : claimed w h -> pending w h.
Proof. unfold pending, is_at. by intros [-> ->]. Qed.
Lemma claimed_calm w h : claimed w h -> calm w.
Proof. intros H. by eapply pending_calm, claimed_pending. Qed.
Lemma same_claimed w w' h : same w w' -> claimed w h -> claimed w' h.
Proof. unfold claimed. by intros [-> ->]. Qed.
#[export] Hint Resolve claimed_pending claimed_calm same_claimed : platform.

Lemma quiet_block_unless {S} b c r : quiet (block_unless b c r : M plan_call S unit).
Proof. unfold block_unless. quiet_tac. Qed.
Lemma quiet_evaluate hosts url method a : quiet (evaluate_now hosts services url method a : M plan_call ClaimHandle PolicyDecision).
Proof.
  apply quiet_bind; [exact (quiet_perform PlanClock eq_refl) | intros t; apply quiet_lift].
Qed.
Lemma quiet_wait t revision limit : quiet (wait_for_rate services t revision limit).
Proof.
  unfold wait_for_rate. apply quiet_try.
  - destruct revision; [exact (quiet_perform (PlanRateWait _ _) eq_refl) | apply quiet_raise].
  - intros [] m; simplify_eq; intros; simplify_eq; apply quiet_blocked.
Qed.
Lemma quiet_observe i d : quiet (observe_decision i d).
Proof. unfold observe_decision. quiet_tac. Qed.
Lemma quiet_observe_policy i d : quiet (observe_policy_decision d (Some (observe_decision i))).
Proof.
  unfold observe_policy_decision. apply quiet_try; [apply quiet_observe|].
  intros [] m; cbn; intros; simplify_eq; apply quiet_blocked.
Qed.
Lemma quiet_denied {S} d : quiet (raise_if_denied d : M plan_call S unit).
Proof. apply quiet_block_unless. Qed.
#[export] Hint Resolve quiet_block_unless quiet_evaluate quiet_wait quiet_observe_policy quiet_denied : platform.

Section executor.
Variable sha256 : string -> string.
Variable hosts : list string.
Variable lease : float.

(** A quiet step in front of a computation. *)
Lemma quiet_then {S A B} (m : M plan_call S A) (k : A -> M plan_call S B) Q s w h :
  quiet m -> claimed w h -> (forall w', claimed w' h -> forall e, Q (Raise e) s w') ->
  (forall a w', claimed w' h -> checked (k a) Q s w') -> checked (m ≫= k) Q s w.
Proof.
  intros Hm Hw He Hk. apply verified_bind. eapply quiet_use; [done | eauto with platform|].
  intros [a|e] w' Hs; [apply Hk | apply He]; eauto with platform.
Qed.

Definition keeps_claim {A} (r : result exn A) (h : ClaimHandle) (w : watch) : Prop := claimed w h.

Lemma renew_checked h w : claimed w h -> checked (renew_claim lease) keeps_claim h w.
Proof.
  intros Hc. pose proof Hc as [Hh Hat]. unfold renew_claim. apply verified_bind, verified_get, verified_try_else.
  intros r _. cbn. unfold is_at. rewrite Hat, holds_true by done. cbn. destruct r as [h'|e]; [done|].
  destruct e; done.
Qed.

Lemma refresh_checked i approved h w : claimed w h ->
  checked (refresh_authorization sha256 lease i approved) keeps_claim h w.
Proof.
  intros Hc. unfold refresh_authorization. apply verified_bind.
  eapply verified_mono; [by apply renew_checked|]. intros [[]|e] h' w' Hc'; [|done].
  assert (Hrest : forall m : M plan_call ClaimHandle authorization, quiet m -> checked m keeps_claim h' w').
  { intros m Hm. eapply quiet_use; [done | eauto with platform|]. intros r w'' Hs. unfold keeps_claim. eauto with platform. }
  apply Hrest. quiet_tac.
Qed.

(** The network start is recorded, and the request follows at once. *)
Lemma send_checked url method target headers h w : claimed w h ->
  checked (_ ← before_network; send services url method target headers false)
    (fun r h' w' => pending w' h') h w.
Proof.
  intros [Hh Hat]. apply verified_bind. unfold before_network. apply verified_bind, verified_get, verified_try.
  intros r _. cbn. unfold is_at. rewrite Hat, holds_true by done. cbn. destruct r as [[]|e].
  - unfold send. apply verified_bind, verified_try. intros r _. cbn. destruct r as [g|e]; [done|].
    destruct e; done.
  - destruct e; done.
Qed.

Lemma execute_checked i approved url method a headers h w : claimed w h ->
  checked (execute hosts services url method a headers (Some (refresh_authorization sha256 lease i approved))
             (Some (observe_decision i)) (Some before_network) false None)
    (fun r h' w' => pending w' h') h w.
Proof.
  intros Hc. unfold execute.
  assert (Hend : forall w' h', claimed w' h' -> forall e : exn, pending w' h') by eauto with platform.
  eapply quiet_then; [eauto with platform | done | by eauto|]. intros [] w1 H1.
  eapply quiet_then; [eauto with platform | done | by eauto|]. intros d1 w2 H2.
  eapply quiet_then; [quiet_tac | done | by eauto|]. intros [] w3 H3.
  apply verified_bind, verified_ret.
  eapply quiet_then; [eauto with platform | done | by eauto|]. intros [] w4 H4.
  apply verified_bind. eapply verified_mono; [by apply refresh_checked|]. intros [a'|e] h' w5 H5; [|by eauto].
  eapply quiet_then; [eauto with platform | done | by eauto|]. intros [] w6 H6.
  eapply quiet_then; [eauto with platform | done | by eauto|]. intros d2 w7 H7.
  eapply quiet_then; [eauto with platform | done | by eauto|]. intros [] w8 H8.
  eapply quiet_then; [eauto with platform | done | by eauto|]. intros [] w9 H9.
  eapply quiet_then; [eauto with platform | done | by eauto|]. intros [] w10 H10.
  by apply send_checked.
Qed.
End executor.

(** ** Release *)

(** The exceptions that the statements between the claim and its release are not
    documented to raise: they end the execution without a release. *)
Definition undocumented (c : plan_call) (e : exn) : bool :=
  match c with
  | ReadSession | Commit | SetStatus _ _ | CaseId _ => true
  | ReadFreshRun _ => negb (is_exception e)
  | GetCancellation _ =>
      match e with ExecutionPlanCancellationCoordinationError => false | _ => true end
  | PrepareAttempt _ =>
      match e with
      | ExecutionInDoubtError | ExecutionProgressLostError | ExecutionProgressCoordinationError => false
      | _ => true
      end
  | _ => false
  end.

(** The execution was ended by such an exception of its last call. *)
Definition escaped {A} (r : result exn A) (w : watch) : Prop :=
  exists c e, r = Raise e /\ failure w = Some (c, e) /\ undocumented c e = true.
Definition released_or_escaped {A S} (r : result exn A) (s : S) (w : watch) : Prop :=
  at_stage w = Released \/ escaped r w.

Section release.
Variable sha256 : string -> string.
Variable hosts : list string.
Variable lease : float.

Lemma cleanup_checked {A} i (r : result exn A) h w : live w h ->
  checked (h ← get_local; with_case_id i (release_claim h))
    (fun r' s' w' => match r' with Ok _ => released_or_escaped r s' w' | Raise e => released_or_escaped (Raise e : result exn A) s' w' end)
    h w.
Proof.
  intros Hl. pose proof Hl as [Hh Hat]. apply verified_bind, verified_get, verified_bind. intros x _. cbn.
  pose proof (live_calm w h Hl) as Hc. unfold calm in Hc. rewrite Hc. cbn. destruct x as [c|e].
  - apply release_checked; [by split|]. intros r' w' Hr. destruct r'; by left.
  - right. exists (CaseId (ids_test_case i)), e. done.
Qed.

Lemma run_action_checked i a action headers request approved h w : claimed w h ->
  checked (run_action sha256 hosts lease i a action headers request approved) released_or_escaped h w.
Proof.
  intros Hc. apply verified_finally, verified_try_else.
  assert (Hfinish : forall h' w' o d, pending w' h' ->
    checked (h ← get_local; finish h i o d) (fun r s' w' =>
      checked (h ← get_local; with_case_id i (release_claim h))
        (fun r' s'' w'' => match r' with Ok _ => released_or_escaped r s'' w'' | Raise e => released_or_escaped (Raise e : result exn TestRun) s'' w'' end)
        s' w') h' w').
  { intros h' w' o d Hp. apply verified_bind, verified_get. apply finish_checked; [|done].
    intros r w'' Hl. by apply cleanup_checked. }
  eapply verified_mono; [by apply execute_checked|]. intros [response|e] h' w' Hp; [by apply Hfinish|].
  destruct e; try (apply cleanup_checked; eauto with platform; fail); [|by apply Hfinish].
  unfold record_blocked. eapply quiet_use; [quiet_tac | eauto with platform|].
  intros r w'' Hs. apply cleanup_checked. eauto with platform.
Qed.

(** A statement between the claim and the executor. *)
Lemma gap_checked {S A} c (k : answer c -> M plan_call S A) s w h : neutral c = true ->
  (forall e, undocumented c e = true) -> claimed w h ->
  (forall x w', claimed w' h -> checked (k x) released_or_escaped s w') ->
  checked (perform c ≫= k) released_or_escaped s w.
Proof.
  intros Hn Hu Hc Hk. apply verified_bind, verified_perform. intros r _.
  assert (Hw : calm w) by eauto with platform. unfold calm in Hw.
  assert (Hstep : protocol w (Event c r) = Some (mkWatch (at_stage w) (handle w)
                    (match r with Ok _ => None | Raise x => Some (c, x) end))).
  { destruct c; try discriminate Hn; cbn; rewrite Hw; by destruct r. }
  rewrite Hstep. destruct r as [x|e]; [apply Hk; exact Hc|]. right. exists c, e. auto.
Qed.
End release.

(** ** The whole service *)

Section service.
Variable sha256 : string -> string.
Variable hosts : list string.
Variable owner : string.
Variable lease : float.

Lemma undocumented_read {S A B} (q : Database -> A) (k : A -> M plan_call S B) s w h : claimed w h ->
  (forall x w', claimed w' h -> checked (k x) released_or_escaped s w') ->
  checked (read q ≫= k) released_or_escaped s w.
Proof.
  intros Hc Hk. apply verified_bind. unfold read. apply verified_bind.
  assert (Hw : calm w) by eauto with platform. unfold calm in Hw.
  intros r _. cbn. rewrite Hw. cbn. destruct r as [db|e]; [apply verified_ret, Hk; exact Hc|].
  right. by exists ReadSession, e.
Qed.

(** A release followed by an audit or by the canonical run. *)
Lemma release_then {S A} h i (m : M plan_call S A) s w : quiet m -> live w h ->
  checked (_ ← release_claim h i; m) released_or_escaped s w.
Proof.
  intros Hm Hl. apply verified_bind. apply release_checked; [done|]. intros [[]|e] w' Hr; [|by left].
  eapply quiet_use; [done | unfold calm, is_at; by rewrite Hr|]. intros r w'' [Hs _]. left. congruence.
Qed.

(** A failing check between the claim and the executor releases before it raises. *)
Lemma released_bind {S A B} (m : M plan_call S A) (k : A -> M plan_call S B) s w h :
  checked m (fun r s' w' => s' = s /\ match r with
                                      | Ok _ => claimed w' h
                                      | Raise e => released_or_escaped (Raise e : result exn B) s' w'
                                      end) s w ->
  (forall a w', claimed w' h -> checked (k a) released_or_escaped s w') ->
  checked (m ≫= k) released_or_escaped s w.
Proof.
  intros Hm Hk. apply verified_bind. eapply verified_mono; [exact Hm|].
  intros [a|e] s' w' [-> H]; [by apply Hk | done].
Qed.

Definition ended {S A} (s0 : S) (h : ClaimHandle) (r : result exn A) (s : S) (w : watch) : Prop :=
  s = s0 /\ match r with Ok _ => claimed w h | Raise e => released_or_escaped (Raise e : result exn TestRun) s w end.

Lemma ended_release {S A} h i (m : M plan_call S A) s w : raising m -> live w h ->
  checked (_ ← release_claim h i; m) (ended s h) s w.
Proof.
  intros Hm Hl. apply verified_bind. apply release_checked; [done|].
  intros [[]|e] w' Hr; [|by split; [|left]].
  eapply verified_mono; [apply Hm; unfold calm, is_at; by rewrite Hr|].
  intros [a|e] s' w'' (-> & [Hs _] & Hok); [done|]. split; [done|]. left. congruence.
Qed.

Lemma raising_preflight {S A} i c r : raising (raise_preflight_blocked i c r : M plan_call S A).
Proof. apply raising_then. quiet_tac. Qed.

Lemma cancellation_checked {S} h i (s : S) w : claimed w h ->
  checked (check_cancellation i (release_claim h i)) (ended s h) s w.
Proof.
  intros Hc. assert (Hw : calm w) by eauto with platform. unfold calm in Hw.
  apply verified_try_else. intros r _. cbn. rewrite Hw. cbn. destruct r as [c|e].
  - destruct (is_none c); [by split|]. apply ended_release; [apply raising_preflight | ].
    eapply pending_live, claimed_pending. exact Hc.
  - destruct e; try (by split; [|right; eexists (GetCancellation _), _]).
    apply ended_release; [apply raising_preflight | eapply pending_live, claimed_pending; exact Hc].
Qed.

Lemma prepare_checked {S} h i (s : S) w : claimed w h -> checked (prepare_attempt h i) (ended s h) s w.
Proof.
  intros Hc. assert (Hw : calm w) by eauto with platform. unfold calm in Hw.
  apply verified_try. intros r _. cbn. rewrite Hw. cbn. destruct r as [[]|e]; [by split|].
  destruct e; try (by split; [|right; eexists (PrepareAttempt _), _]).
  all: apply ended_release; [apply raising_preflight || apply raising_post_network |].
  all: eapply pending_live, claimed_pending; exact Hc.
Qed.
End service.

Section whole.
Variable sha256 : string -> string.
Variable hosts : list string.
Variable owner : string.
Variable lease : float.

Lemma lookup_checked {S} h i (s : S) w : claimed w h ->
  checked (try_except (load_fresh_canonical (ids_plan i))
    (fun e => match e with
              | CanonicalResultLookupError =>
                  Some (_ ← release_claim h i;
                        raise_preflight_blocked i "execution_plan_result_lookup_failed"
                          "Canonical ExecutionPlan result lookup failed.")
              | _ => None
              end)) (ended s h) s w.
Proof.
  intros Hc. assert (Hw : calm w) by eauto with platform. unfold calm in Hw.
  apply verified_try, verified_try. intros r _. cbn. rewrite Hw. cbn. destruct r as [c|e]; [by split|].
  destruct e; cbn;
    try (apply ended_release; [apply raising_preflight | eapply pending_live, claimed_pending; exact Hc]).
  split; [done|]. right. by eexists (ReadFreshRun _), _.
Qed.

Lemma run_claimed_checked {S} h i rows action headers approved (s : S) w : claimed w h ->
  checked (run_claimed sha256 hosts lease h i rows action headers approved) released_or_escaped s w.
Proof.
  intros Hc. apply released_bind with h; [by apply lookup_checked|]. intros [run|] w1 H1.
  { apply release_then; [apply quiet_ret | eauto with platform]. }
  apply released_bind with h; [by apply cancellation_checked|]. intros [] w2 H2.
  apply released_bind with h; [by apply prepare_checked|]. intros [] w3 H3.
  apply gap_checked with h; [done..|]. intros [] w4 H4.
  apply undocumented_read with h; [done|]. intros scopes w5 H5.
  apply gap_checked with h; [done..|]. intros [] w6 H6.
  apply verified_scoped. eapply verified_mono; [by apply run_action_checked|]. done.
Qed.

(** No claim was acquired, or it was released, or an undocumented failure ended all. *)
Definition settled {A S} (r : result exn A) (s : S) (w : watch) : Prop :=
  at_stage w = Before \/ released_or_escaped r s w.

Definition idle (w : watch) : Prop := at_stage w = Before.
Lemma idle_calm w : idle w -> calm w.
Proof. unfold idle, calm, is_at. by intros ->. Qed.

Lemma idle_quiet {S A} (m : M plan_call S A) s w : quiet m -> idle w -> checked m settled s w.
Proof.
  intros Hm Hi. eapply quiet_use; [done | by apply idle_calm|]. intros r w' [Hs _]. left. by rewrite Hs.
Qed.
Lemma idle_then {S A B} (m : M plan_call S A) (k : A -> M plan_call S B) s w : quiet m -> idle w ->
  (forall a w', idle w' -> checked (k a) settled s w') -> checked (m ≫= k) settled s w.
Proof.
  intros Hm Hi Hk. apply verified_bind. eapply quiet_use; [done | by apply idle_calm|].
  intros [a|e] w' [Hs _]; unfold idle in *; [apply Hk; congruence | left; congruence].
Qed.

Lemma acquire_checked {S} p i rows action headers approved (s : S) w : idle w ->
  checked (try_else (perform (AcquireClaim p owner lease))
         (fun e => match e with
                   | ExecutionClaimUnavailableError => Some (claim_unavailable i)
                   | ExecutionClaimCoordinationError =>
                       Some (raise_preflight_blocked i "execution_plan_claim_coordination_failed"
                               "ExecutionPlan claim coordination failed.")
                   | _ => None
                   end)
         (fun h => run_claimed sha256 hosts lease h i rows action headers approved)) settled s w.
Proof.
  intros Hi. apply verified_try_else. intros r _. cbn. unfold is_at. rewrite Hi. cbn. destruct r as [h|e].
  - eapply verified_mono; [by apply run_claimed_checked|]. intros r s' w' H. by right.
  - destruct e; try (by left); apply idle_quiet; [apply quiet_claim_unavailable | done | apply quiet_preflight | done].
Qed.

Lemma execute_plan_checked {S} p (s : S) w : idle w ->
  checked (execute_plan sha256 hosts owner lease p) settled s w.
Proof.
  intros Hi. apply idle_then; [apply quiet_load_plan | done|]. intros [plan action] w1 H1.
  apply idle_then; [quiet_tac | done|]. intros [c r] w2 H2.
  apply idle_then; [exact (quiet_perform (ReadRun _) eq_refl) | done|]. intros [run|] w3 H3; [by left|].
  apply idle_then; [apply quiet_check_cancellation, quiet_ret | done|]. intros [] w4 H4.
  apply idle_then; [apply quiet_load_rows | done|]. intros rows w5 H5.
  unfold preflight_unless. destruct (authorization_exact rows); [|apply idle_quiet; [apply quiet_preflight | done]].
  destruct (provenance_consistent rows); [|apply idle_quiet; [apply quiet_preflight | done]].
  apply idle_then; [apply quiet_check_approval | done|]. intros approved w6 H6.
  apply idle_then; [apply quiet_authenticate | done|]. intros headers w7 H7.
  apply idle_then; [exact (quiet_perform Commit eq_refl) | done|]. intros [] w8 H8.
  by apply acquire_checked.
Qed.
End whole.
