(* ===== verification/PlanProperties.v ===== *)
(** Properties of the runs of PlanExecution.v, read off the protocol of PlanSafety.v, and
    their composition with the histories of Coordination.v. *)

From S2P Require Import Prelude.
From S2P Require Import PyStr.
From S2P Require Import PyFloat.
From S2P Require Import PyJson.
From S2P Require Import Models.
From S2P Require Import Samples.
From S2P Require Import Gateway.
From S2P Require Import Coordination.
From S2P Require Import Database.
From S2P Require Import PlanDigest.
From S2P Require Import Approval.
From S2P Require Import Effects.
From S2P Require Import HttpExecutor.
From S2P Require Import PlanExecution.
From S2P Require Import PlanSafety.

Open Scope Z_scope.

(** One execution of plan [p]: the calls with their answers, and the outcome. *)
Definition plan_run (sha256 : string -> string) (hosts : list string) (owner : string) (lease : float)
    (p : Z) (env : environment plan_call) : list (event plan_call) * result exn TestRun :=
  let '(evs, (r, _)) := run env (execute_plan (S := unit) sha256 hosts owner lease p tt) [] in (evs, r).

(** ** Events *)

Abbreviation trace := (list (event plan_call)).

Definition is_request (e : event plan_call) : bool :=
  match event_call e with PlanRequest _ => true | _ => false end.
Definition is_insert (e : event plan_call) : bool :=
  match event_call e with InsertRun _ => true | _ => false end.
Definition is_release (e : event plan_call) : bool :=
  match event_call e with ReleaseClaim _ => true | _ => false end.
Definition confirmed_start (e : event plan_call) : option ClaimHandle :=
  match event_call e, is_ok (event_answer e) with MarkNetworkStarted h, true => Some h | _, _ => None end.
Definition confirmed_claim (e : event plan_call) : option ClaimHandle :=
  match event_call e, is_ok (event_answer e) with AssertClaim h, true => Some h | _, _ => None end.
Definition new_handle (e : event plan_call) : option ClaimHandle :=
  let 'Event c r := e in
  match c as c' return result exn (answer c') -> option ClaimHandle with
  | AcquireClaim _ _ _ => fun r => ok_option r
  | RenewClaim _ _ => fun r => ok_option r
  | _ => fun _ => None
  end r.
Definition is_acquired (e : event plan_call) : bool :=
  match event_call e with AcquireClaim _ _ _ => is_ok (event_answer e) | _ => false end.

(** The handle that the last acquisition or renewal returned. *)
Definition current_handle (evs : trace) : option ClaimHandle :=
  fold_left (fun h e => match new_handle e with Some h' => Some h' | None => h end) evs None.

(** ** What the monitor has seen *)

Definition start : watch := mkWatch Before None None.

Lemma follow_snoc w evs e : follow protocol w (evs ++ [e]) =
  match follow protocol w evs with Some w' => protocol w' e | None => None end.
Proof.
  revert w. induction evs as [|x evs IH]; intros w; cbn; [by destruct (protocol w e)|].
  destruct (protocol w x); [apply IH | done].
Qed.

Lemma follow_app w a b : follow protocol w (a ++ b) =
  match follow protocol w a with Some w' => follow protocol w' b | None => None end.
Proof. revert w. induction a as [|x a IH]; intros w; cbn; [done|]. destruct (protocol w x); [apply IH | done]. Qed.

(** One step of the protocol, by cases on the call and its answer. *)
Ltac protocol_cases e :=
  let c := fresh "c" in let r := fresh "r" in
  destruct e as [c r]; destruct c; cbn; unfold is_at, holds; try case_if; try done; intros [= <-]; bool_simpl;
  destruct r; cbn in *.

Lemma step_marked w e w' : protocol w e = Some w' -> at_stage w' = Marked ->
  exists h, e = Event (MarkNetworkStarted h) (Ok tt) /\ handle w = Some h.
Proof.
  protocol_cases e; intros HS; try done; try (rewrite HS in *; set_solver).
  destruct a. bool_simpl. by eexists.
Qed.
Lemma step_fenced w e w' : protocol w e = Some w' -> at_stage w' = Fenced ->
  exists h, e = Event (AssertClaim h) (Ok tt) /\ handle w = Some h.
Proof.
  protocol_cases e; intros HS; try done; try (rewrite HS in *; set_solver).
  destruct a. bool_simpl. by eexists.
Qed.
Lemma step_request w e w' : protocol w e = Some w' -> is_request e = true ->
  at_stage w = Marked /\ at_stage w' = Sent.
Proof. protocol_cases e; intros HS; try done; set_solver. Qed.
Lemma step_insert w e w' : protocol w e = Some w' -> is_insert e = true ->
  at_stage w = Fenced /\ at_stage w' = Written.
Proof. protocol_cases e; intros HS; try done; set_solver. Qed.
Lemma step_released w e w' : protocol w e = Some w' -> at_stage w' = Released ->
  at_stage w = Released \/ is_release e = true.
Proof. protocol_cases e; intros HS; auto; done. Qed.
Lemma step_before w e w' : protocol w e = Some w' -> at_stage w' = Before ->
  at_stage w = Before /\ is_acquired e = false.
Proof. protocol_cases e; intros HS; try done; set_solver. Qed.
Lemma step_handle w e w' : protocol w e = Some w' ->
  handle w' = match new_handle e with Some h => Some h | None => handle w end \/ at_stage w = Before.
Proof. protocol_cases e; auto; bool_simpl; set_solver. Qed.
Lemma step_failure w e w' c x : protocol w e = Some w' -> failure w' = Some (c, x) -> e = Event c (Raise x).
Proof. protocol_cases e; intros HS; try done; by injection HS as <- <-. Qed.

(** The stages from which no request is sent, and from which no result is written. *)
Definition late (w : watch) : bool :=
  match at_stage w with Sent | Fenced | Written | PlanSafety.Released => true | _ => false end.
Definition over (w : watch) : bool :=
  match at_stage w with Written | PlanSafety.Released => true | _ => false end.
Ltac singleton_stage :=
  match goal with H : at_stage _ ∈ [_] |- _ => apply list_elem_of_singleton in H; rewrite H in * end.
Lemma step_late w e w' : protocol w e = Some w' -> late w = true -> late w' = true /\ is_request e = false.
Proof. unfold late. protocol_cases e; intros HS; try done; by singleton_stage. Qed.
Lemma step_over w e w' : protocol w e = Some w' -> over w = true -> over w' = true /\ is_insert e = false.
Proof.
  unfold over. protocol_cases e; intros HS; try done; try (by singleton_stage).
  all: match goal with H : at_stage _ ∈ _ |- _ => apply list_elem_of_In in H; cbn in H end.
  all: destruct (at_stage w); naive_solver.
Qed.

Lemma current_snoc evs e : current_handle (evs ++ [e]) =
  match new_handle e with Some h => Some h | None => current_handle evs end.
Proof. unfold current_handle. by rewrite fold_left_app. Qed.

Lemma follow_inv (P : trace -> watch -> Prop) : P [] start ->
  (forall evs w e w', P evs w -> protocol w e = Some w' -> P (evs ++ [e]) w') ->
  forall evs w, follow protocol start evs = Some w -> P evs w.
Proof.
  intros H0 Hs evs. induction evs as [|e evs IH] using rev_ind; intros w Hw; [by injection Hw as <-|].
  rewrite follow_snoc in Hw. destruct (follow protocol start evs) as [w1|]; [|done].
  eapply Hs; [by apply IH | done].
Qed.

Lemma follow_before evs w : follow protocol start evs = Some w ->
  handle w = current_handle evs /\
  (at_stage w = Before -> handle w = None /\ Forall (fun e => is_acquired e = false) evs).
Proof.
  revert evs w. apply follow_inv; [by split|]. intros evs w e w' [Hh Hb] Hs. split.
  - rewrite current_snoc. destruct (step_handle _ _ _ Hs) as [->|Hat]; [by rewrite Hh|].
    destruct (Hb Hat) as [Hn _]. rewrite <- Hh, Hn. revert Hs. protocol_cases e; try done; set_solver.
  - intros Hat. pose proof (step_before _ _ _ Hs Hat) as [Hat' Ha]. destruct (Hb Hat') as [Hn Hall]. split.
    + revert Hs Hat. clear Hh Hb. protocol_cases e; try done; set_solver.
    + apply Forall_app. split; [done|]. by constructor.
Qed.

Lemma follow_last evs w : follow protocol start evs = Some w ->
  (at_stage w = PlanSafety.Marked -> exists pre h, evs = pre ++ [Event (MarkNetworkStarted h) (Ok tt)] /\ current_handle pre = Some h) /\
  (at_stage w = Fenced -> exists pre h, evs = pre ++ [Event (AssertClaim h) (Ok tt)] /\ current_handle pre = Some h) /\
  (forall c x, failure w = Some (c, x) -> exists pre, evs = pre ++ [Event c (Raise x)]).
Proof.
  destruct evs as [|e evs _] using rev_ind; [by intros [= <-]|]. rewrite follow_snoc.
  destruct (follow protocol start evs) as [w1|] eqn:E; [|done]. intros Hs.
  destruct (follow_before _ _ E) as [Hh _]. split; [|split].
  - intros H. destruct (step_marked _ _ _ Hs H) as (h & -> & Hw). exists evs, h. by rewrite <- Hh.
  - intros H. destruct (step_fenced _ _ _ Hs H) as (h & -> & Hw). exists evs, h. by rewrite <- Hh.
  - intros c x H. exists evs. by rewrite (step_failure _ _ _ _ _ Hs H).
Qed.

Lemma follow_released evs w : follow protocol start evs = Some w -> at_stage w = PlanSafety.Released ->
  exists e, e ∈ evs /\ is_release e = true.
Proof.
  revert evs w. apply (follow_inv (fun evs w => at_stage w = PlanSafety.Released -> exists e, e ∈ evs /\ is_release e = true)).
  - done.
  - intros evs w e w' IH Hs Hr. destruct (step_released _ _ _ Hs Hr) as [Hw|He].
    + destruct (IH Hw) as (x & Hx & Hr'). exists x. split; [|done]. by apply elem_of_app; left.
    + exists e. split; [|done]. apply elem_of_app. right. left.
Qed.

(** At most one request, at most one result. *)
Lemma follow_counts evs w : follow protocol start evs = Some w ->
  (count_if is_request evs <= if late w then 1 else 0)%nat /\ (count_if is_insert evs <= if over w then 1 else 0)%nat.
Proof.
  revert evs w. apply follow_inv; [done|]. intros evs w e w' [Hr Hi] Hs. rewrite !count_if_app. cbn. split.
  - destruct (is_request e) eqn:E.
    + destruct (step_request _ _ _ Hs E) as [H1 H2]. unfold late in *. rewrite H1 in Hr. rewrite H2. lia.
    + destruct (late w) eqn:L; [|destruct (late w'); lia]. destruct (step_late _ _ _ Hs L) as [-> _]. lia.
  - destruct (is_insert e) eqn:E.
    + destruct (step_insert _ _ _ Hs E) as [H1 H2]. unfold over in *. rewrite H1 in Hi. rewrite H2. lia.
    + destruct (over w) eqn:L; [|destruct (over w'); lia]. destruct (step_over _ _ _ Hs L) as [-> _]. lia.
Qed.

(** The state of the monitor when an event of a run happens. *)
Lemma follow_at pre e post w : follow protocol start (pre ++ e :: post) = Some w ->
  exists w1 w2, follow protocol start pre = Some w1 /\ protocol w1 e = Some w2.
Proof.
  rewrite follow_app. destruct (follow protocol start pre) as [w1|]; [|done]. cbn.
  destruct (protocol w1 e) as [w2|] eqn:E; [|done]. by exists w1, w2.
Qed.

Lemma plan_run_checked sha256 hosts owner lease p env evs res :
  plan_run sha256 hosts owner lease p env = (evs, res) ->
  exists w, follow protocol start evs = Some w /\ settled res tt w.
Proof.
  unfold plan_run. intros H.
  destruct (wp_sound protocol any (execute_plan (S := unit) sha256 hosts owner lease p tt) _ start env []
    (execute_plan_checked sha256 hosts owner lease p tt start eq_refl) ltac:(done)) as (w & Hw & Hq).
  destruct (run env _ []) as [evs' [r []]]. injection H as -> ->. by exists w.
Qed.

(** * Properties of every execution *)

(** C1: whatever the environment answers, an execution sends at most one request, and
    the call just before it is the recorded network start of the claim that the last
    acquisition or renewal returned: nothing happens between the two. *)
Theorem request_after_start sha256 hosts owner lease p env evs res
    (H : plan_run sha256 hosts owner lease p env = (evs, res)) :
  (count_if is_request evs <= 1)%nat /\
  forall pre r a post, evs = pre ++ Event (PlanRequest r) a :: post ->
    exists pre' h, pre = pre' ++ [Event (MarkNetworkStarted h) (Ok tt)] /\ current_handle pre' = Some h.
Proof.
  destruct (plan_run_checked _ _ _ _ _ _ _ _ H) as (w & Hw & _). split.
  - destruct (follow_counts _ _ Hw) as [Hc _]. destruct (late w); lia.
  - intros pre r a post ->. destruct (follow_at _ _ _ _ Hw) as (w1 & w2 & H1 & H2).
    destruct (step_request _ _ _ H2 eq_refl) as [Hm _]. by apply (follow_last _ _ H1).
Qed.

(** C6: an execution writes at most one result, and only right after the claim that it
    holds was verified in the same transaction, with no call in between. *)
Theorem result_fenced sha256 hosts owner lease p env evs res
    (H : plan_run sha256 hosts owner lease p env = (evs, res)) :
  (count_if is_insert evs <= 1)%nat /\
  forall pre d a post, evs = pre ++ Event (InsertRun d) a :: post ->
    exists pre' h, pre = pre' ++ [Event (AssertClaim h) (Ok tt)] /\ current_handle pre' = Some h.
Proof.
  destruct (plan_run_checked _ _ _ _ _ _ _ _ H) as (w & Hw & _). split.
  - destruct (follow_counts _ _ Hw) as [_ Hc]. destruct (over w); lia.
  - intros pre d a post ->. destruct (follow_at _ _ _ _ Hw) as (w1 & w2 & H1 & H2).
    destruct (step_insert _ _ _ H2 eq_refl) as [Hm _]. by apply (follow_last _ _ H1).
Qed.

(** C14: an acquired claim is released on every path: whatever happens after the
    acquisition, either a release is called, or the very last call of the execution
    failed with an exception that the service does not document and that escaped. *)
Theorem claim_released sha256 hosts owner lease p env evs res e
    (H : plan_run sha256 hosts owner lease p env = (evs, res))
    (He : e ∈ evs) (Hacquired : is_acquired e = true) :
  (exists x, x ∈ evs /\ is_release x = true) \/
  exists c x pre, res = Raise x /\ evs = pre ++ [Event c (Raise x)] /\ undocumented c x = true.
Proof.
  destruct (plan_run_checked _ _ _ _ _ _ _ _ H) as (w & Hw & [Hb|[Hr|(c & x & Hres & Hf & Hu)]]).
  - destruct (follow_before _ _ Hw) as [_ Hn]. destruct (Hn Hb) as [_ Hall].
    rewrite Forall_forall in Hall. rewrite (Hall e He) in Hacquired. done.
  - left. by eapply follow_released.
  - right. destruct (follow_last _ _ Hw) as (_ & _ & Hl). destruct (Hl c x Hf) as [pre Hpre]. by exists c, x, pre.
Qed.

(** * Composition with the coordination of plans *)

Definition total (f : event plan_call -> bool) (traces : list trace) : nat :=
  fold_right (fun evs n => count_if f evs + n)%nat 0%nat traces.

Definition starts_plan (p : Z) (e : event plan_call) : bool :=
  match confirmed_start e with Some h => handle_plan_id h =? p | None => false end.

Definition is_start (e : event plan_call) : bool := negb (is_none (confirmed_start e)).

(** Each request of a run has its own confirmed start. *)
Lemma follow_starts evs w : follow protocol start evs = Some w ->
  (count_if is_request evs + (if is_at w [PlanSafety.Marked] then 1 else 0) <= count_if is_start evs)%nat.
Proof.
  revert evs w. apply follow_inv; [done|]. intros evs w e w' IH Hs. rewrite !count_if_app. cbn [count_if].
  assert (Hm : is_at w' [PlanSafety.Marked] = true -> is_start e = true /\ is_request e = false).
  { intros Hat. apply is_at_iff, list_elem_of_singleton in Hat.
    by destruct (step_marked _ _ _ Hs Hat) as (h & -> & _). }
  destruct (is_at w' [PlanSafety.Marked]); [destruct (Hm eq_refl) as [-> ->]; lia|].
  destruct (is_request e) eqn:E; [|destruct (is_start e); lia].
  destruct (step_request _ _ _ Hs E) as [H1 _]. rewrite (proj2 (is_at_iff w _)) in IH; [lia|].
  rewrite H1. left.
Qed.

Lemma count_if_one {A} (f : A -> bool) l :
  (forall l1 e l2, l = l1 ++ e :: l2 -> f e = true -> Forall (fun x => f x = false) l2) -> (count_if f l <= 1)%nat.
Proof.
  induction l as [|x l IH]; intros H; cbn; [lia|]. destruct (f x) eqn:E.
  - rewrite (proj2 (count_if_zero f l) (H [] x l eq_refl E)). lia.
  - apply IH. intros l1 e l2 ->. apply (H (x :: l1) e l2 eq_refl).
Qed.

Lemma count_if_mono {A} (f g : A -> bool) l : (forall x, x ∈ l -> f x = true -> g x = true) ->
  (count_if f l <= count_if g l)%nat.
Proof.
  induction l as [|x l IH]; intros H; cbn; [lia|].
  assert (IH' : (count_if f l <= count_if g l)%nat) by (apply IH; intros y Hy; apply H; by right).
  destruct (f x) eqn:E; [rewrite (H x) by (done || left); lia | destruct (g x); lia].
Qed.

(** C2: across all the workers that execute a plan, at most one request is ever sent.
    The workers run concurrently, and each may see anything; what is assumed is only that
    the handles they hold are the plan's, and that each network start they were told to
    have recorded is a committed transaction of the plan's coordination history. *)
Theorem one_request_per_plan sha256 hosts lease p workers txs c
    (Hruns : Forall (fun evs => exists owner env, (plan_run sha256 hosts owner lease p env).1 = evs) workers)
    (Hplan : Forall (fun evs => forall e, e ∈ evs -> is_start e = true -> starts_plan p e = true) workers)
    (Hcommitted : (total (starts_plan p) workers <= count_if (network_start p) (history txs c).2)%nat) :
  (total is_request workers <= 1)%nat.
Proof.
  assert (Hone : (count_if (network_start p) (history txs c).2 <= 1)%nat).
  { apply count_if_one. intros l1 e l2 Hl He.
    eapply (none_after (started p) (network_start p) (network_start p)); eauto using exec_started, network_start_started.
    intros tx s Hs. pose proof (started_excludes tx s p Hs) as Hx. by bool_simpl. }
  enough (H : (total is_request workers <= total (starts_plan p) workers)%nat) by lia.
  clear Hcommitted Hone. unfold total. induction workers as [|evs workers IH]; cbn [fold_right]; [lia|].
  apply Forall_cons in Hruns as [(owner & env & Hr) Hruns], Hplan as [Hp Hplan]. specialize (IH Hruns Hplan).
  destruct (plan_run sha256 hosts owner lease p env) as [evs' res] eqn:E. cbn in Hr. subst evs'.
  destruct (plan_run_checked _ _ _ _ _ _ _ _ E) as (w & Hw & _).
  pose proof (follow_starts _ _ Hw). pose proof (count_if_mono is_start (starts_plan p) evs Hp). lia.
Qed.

(** * Witnesses

    The plan of the lab, approved, executed by a worker whose environment answers
    normally, and by one that loses its progress at the network start. *)

Definition lab_claim : ClaimHandle := mkHandle 61 "A" 1 100 0.
Definition plan_environment (mark : result exn unit) : environment plan_call := fun _ c =>
  match c return result exn (answer c) with
  | ReadSession | ReadFresh => Ok lab_approved
  | ReadRun _ | ReadFreshRun _ => Ok None
  | CaseId n => Ok n
  | InsertRun _ => Ok 91
  | GetCancellation _ => Ok None
  | ResolveBinding _ _ => Ok "s3cret"
  | AcquireClaim _ _ _ => Ok lab_claim
  | RenewClaim _ _ => Ok lab_claim
  | PlanClock => Ok 2000
  | PlanRequest _ => Ok lab_response
  | MarkNetworkStarted _ => mark
  | Commit | Rollback | SetStatus _ _ | AppendAudit _ | AuditFresh _ | AssertClaim _ | ReleaseClaim _
  | PrepareAttempt _ | PlanRateWait _ _ => Ok tt
  end.
Definition lab_run (mark : result exn unit) : list (event plan_call) * result exn TestRun :=
  plan_run lab_sha ["localhost"] "A" f1 61 (plan_environment mark).
Definition lab_completed : list (event plan_call) * result exn TestRun := lab_run (Ok tt).
Definition lab_lost : list (event plan_call) * result exn TestRun := lab_run (Raise ExecutionProgressLostError).

Example lab_completed_sends : count_if is_request lab_completed.1 = 1%nat /\
  lab_completed.2 = Ok (mkTestRun 91 51 (Some 11) (Some 61) (Some 200) (Some "{}") (Some 12) None).
Proof. vm_compute. done. Qed.
Example lab_lost_blocked : count_if is_request lab_lost.1 = 0%nat /\
  lab_lost.2 = Raise (ExecutionBlockedError "execution_plan_progress_lost"
                        "ExecutionPlan progress fencing was lost before network.").
Proof. vm_compute. done. Qed.

Lemma request_after_start_witness : (count_if is_request lab_completed.1 <= 1)%nat.
Proof.
  apply (request_after_start lab_sha ["localhost"] "A" f1 61 (plan_environment (Ok tt)) lab_completed.1 lab_completed.2).
  unfold lab_completed, lab_run. by destruct (plan_run _ _ _ _ _ _).
Defined.

Lemma result_fenced_witness : (count_if is_insert lab_completed.1 <= 1)%nat.
Proof.
  apply (result_fenced lab_sha ["localhost"] "A" f1 61 (plan_environment (Ok tt)) lab_completed.1 lab_completed.2).
  unfold lab_completed, lab_run. by destruct (plan_run _ _ _ _ _ _).
Defined.

Lemma claim_released_witness :
  (exists x, x ∈ lab_lost.1 /\ is_release x = true) \/
  exists c x pre, lab_lost.2 = Raise x /\ lab_lost.1 = pre ++ [Event c (Raise x)] /\ undocumented c x = true.
Proof.
  apply (claim_released lab_sha ["localhost"] "A" f1 61 (plan_environment (Raise ExecutionProgressLostError))
    lab_lost.1 lab_lost.2 (Event (AcquireClaim 61 "A" f1) (Ok lab_claim))).
  - unfold lab_lost, lab_run. by destruct (plan_run _ _ _ _ _ _).
  - apply (list_elem_of_lookup_2 _ 15). vm_compute. reflexivity.
  - reflexivity.
Defined.

(** Both workers of the plan, against the history in which the first one started it. *)
Lemma one_request_per_plan_witness : (total is_request [lab_completed.1; lab_lost.1] <= 1)%nat.
Proof.
  apply (one_request_per_plan lab_sha ["localhost"] f1 61 [lab_completed.1; lab_lost.1]
    [TxAcquire 61 "A" 100 0; TxPrepare lab_claim (1, 1); TxMark lab_claim (2, 2)] (no_rows {[ 61 ]})).
  - constructor; [by exists "A", (plan_environment (Ok tt))|]. constructor; [|constructor].
    by exists "A", (plan_environment (Raise ExecutionProgressLostError)).
  - assert (H : forall evs, forallb (fun e => implb (is_start e) (starts_plan 61 e)) evs = true ->
      forall e, e ∈ evs -> is_start e = true -> starts_plan 61 e = true).
    { intros evs Hall e He Hs. apply list_elem_of_In in He. rewrite forallb_forall in Hall.
      specialize (Hall e He). by rewrite Hs in Hall. }
    constructor; [|constructor; [|constructor]]; apply H; vm_compute; reflexivity.
  - vm_compute. lia.
Defined.
