(* ===== verification/Hostnames.v ===== *)
(** Hostnames of candidate assets and the rules that include or exclude them,
    src/backend/app/services/asset_hostname_rule.py: the normal form of a hostname, the
    patterns, and the decision over the rules of one AuthorizationRevision.  The
    operations on the table of rules are in Registry.

    [unicode_name] stands for what the standard library does to a value with non-ASCII
    characters: [None] when such a value holds white space or its lower case cannot be
    encoded with the [idna] codec, the encoded name otherwise. *)

From S2P Require Import Prelude.
From S2P Require Import PyStr.
From S2P Require Import PyIp.
From S2P Require Import Destination.

Open Scope Z_scope.

Inductive hostname_error : Type := AssetHostnameRuleValidationError.

(** One row of [asset_hostname_rules]. *)
Record AssetHostnameRule := mkRule {
  rule_id : Z;
  rule_revision_id : Z;
  rule_type : string;
  hostname_pattern : string
}.
#[export] Instance AssetHostnameRule_eq_dec : EqDecision AssetHostnameRule.
Proof. solve_decision. Defined.

Definition ck_asset_hostname_rules_rule_type (r : AssetHostnameRule) : bool :=
  bool_decide (rule_type r ∈ ["include"; "exclude"]).

Record AssetCandidateRuleDecision := mkRuleDecision {
  eligible : bool;
  rule_code : string;
  decided_hostname : option string;
  matched_include_rule_id : option Z;
  matched_exclude_rule_id : option Z
}.

(** A character of ["/?#@:\\[]"]. *)
Definition is_delimiter (c : ascii) : bool :=
  bool_decide (c ∈ ["/"; "?"; "#"; "@"; ":"; backslash; "["; "]"]%char).

Section names.
Variable unicode_name : string -> option string.

Definition _normalize_dns_hostname (value : string) : result hostname_error string :=
  if is_empty value || str_exists is_space value || str_exists is_delimiter value then
    Raise AssetHostnameRuleValidationError
  else
    let raw := if endswith "." value then str_take (String.length value - 1) value else value in
    if is_empty raw || endswith "." raw || contains_char "*" raw then
      Raise AssetHostnameRuleValidationError
    else if negb (is_none (parse_ip raw)) then Raise AssetHostnameRuleValidationError
    else
      hostname ← require (encode_idna unicode_name (lower raw)) AssetHostnameRuleValidationError;
      if (253 <? byte_len hostname) || existsb bad_label (split_char "." hostname) then
        Raise AssetHostnameRuleValidationError
      else Ok hostname.

Definition normalize_hostname_pattern (rtype value : string) : result hostname_error string :=
  _ ← guard_or (bool_decide (rtype ∈ ["include"; "exclude"])) AssetHostnameRuleValidationError;
  let wildcard := startswith "*." value in
  if contains_char "*" value && negb wildcard then Raise AssetHostnameRuleValidationError
  else if wildcard && negb (count_char "*" value =? 1) then Raise AssetHostnameRuleValidationError
  else if bool_decide (rtype = "include") && negb wildcard then Raise AssetHostnameRuleValidationError
  else
    let suffix := if wildcard then str_drop 2 value else value in
    normalized ← _normalize_dns_hostname suffix;
    if wildcard && (length (split_char "." normalized) <? 2)%nat then
      Raise AssetHostnameRuleValidationError
    else Ok (if wildcard then "*." +:+ normalized else normalized).

Definition normalize_candidate_hostname (value : string) : result hostname_error string :=
  _normalize_dns_hostname value.

Definition _matches (pattern hostname : string) : bool :=
  if startswith "*." pattern then
    let suffix := str_drop 2 pattern in
    negb (bool_decide (hostname = suffix)) && endswith ("." +:+ suffix) hostname
  else bool_decide (hostname = pattern).

(** The key of [max]: the number of dots, the length, the negated id. *)
Definition rule_key (r : AssetHostnameRule) : Z * Z * Z :=
  (count_char "." (hostname_pattern r), str_len (hostname_pattern r), - rule_id r).

(** [a < b] on tuples. *)
Definition key_ltb (a b : Z * Z * Z) : bool :=
  let '(a1, a2, a3) := a in
  let '(b1, b2, b3) := b in
  (a1 <? b1) || ((a1 =? b1) && ((a2 <? b2) || ((a2 =? b2) && (a3 <? b3)))).

(** [max(rules, key=...)] of a nonempty list: the first of the greatest. *)
Definition _select_rule (rules : list AssetHostnameRule) : option AssetHostnameRule :=
  match rules with
  | [] => None
  | r :: rest =>
      Some (fold_left (fun best rule => if key_ltb (rule_key best) (rule_key rule) then rule else best) rest r)
  end.

Definition match_asset_candidate (authorization_revision_id : Z) (candidate_hostname : string)
    (rules : list AssetHostnameRule) : AssetCandidateRuleDecision :=
  match normalize_candidate_hostname candidate_hostname with
  | Raise _ => mkRuleDecision false "asset_candidate_invalid" None None None
  | Ok hostname =>
      let relevant := List.filter (fun rule =>
        (rule_revision_id rule =? authorization_revision_id)
        && bool_decide (rule_type rule ∈ ["include"; "exclude"])
        && _matches (hostname_pattern rule) hostname) rules in
      let included := _select_rule (List.filter (fun r => bool_decide (rule_type r = "include")) relevant) in
      let excluded := _select_rule (List.filter (fun r => bool_decide (rule_type r = "exclude")) relevant) in
      match excluded, included with
      | Some e, _ =>
          mkRuleDecision false "asset_candidate_excluded" (Some hostname) (rule_id <$> included) (Some (rule_id e))
      | None, None => mkRuleDecision false "asset_candidate_not_included" (Some hostname) None None
      | None, Some i => mkRuleDecision true "asset_candidate_included" (Some hostname) (Some (rule_id i)) None
      end
  end.

(** * The normal form *)

(** A hostname in normal form: at most 253 bytes, dot-separated labels of 1 to 63 lower
    case letters, digits and hyphens, no hyphen at either end. *)
Definition dns_name (h : string) : Prop :=
  byte_len h <= 253 /\ Forall (fun l => bad_label l = false) (split_char "." h).

#[export] Instance dns_name_dec h : Decision (dns_name h).
Proof. unfold dns_name. apply _. Defined.

Lemma bad_labels_none ls : existsb bad_label ls = false <-> Forall (fun l => bad_label l = false) ls.
Proof.
  induction ls as [|l ls IH]; cbn; [by split|].
  rewrite orb_false_iff, IH. split; [by intros [? ?]; constructor | by intros H; inversion H].
Qed.

Lemma normalize_dns_name v h : _normalize_dns_hostname v = Ok h -> dns_name h.
Proof.
  unfold _normalize_dns_hostname. intros H. repeat head_if H; try discriminate H.
  result_inv. head_if H; [done|]. result_inv. bool_simpl. split; [lia|].
  by apply bad_labels_none.
Qed.

Lemma label_chars l : bad_label l = false -> str_forall is_label_char l = true /\ l <> EmptyString.
Proof.
  unfold bad_label. intros H. bool_simpl. split; [done|]. by intros ->.
Qed.

(** The characters of a name are those of its labels and the dot. *)
Lemma dns_name_chars h : dns_name h ->
  str_forall (fun c => is_label_char c || bool_decide (c = "."%char)) h = true.
Proof.
  intros [_ H]. rewrite <- (join_split "."%char h).
  induction H as [|l ls Hl _ IH]; [done|]. apply label_chars in Hl as [Hl _].
  assert (Hl' : str_forall (fun c => is_label_char c || bool_decide (c = "."%char)) l = true).
  { clear -Hl. induction l as [|c l IH]; [done|]. cbn in *. bool_simpl. by rewrite H, IH. }
  destruct ls as [|l2 ls]; [by cbn|].
  rewrite join_cons by done. by rewrite !str_forall_app, Hl', IH.
Qed.

Lemma label_char_plain c : is_label_char c || bool_decide (c = "."%char) = true ->
  is_space c = false /\ is_delimiter c = false /\ c <> "*"%char /\ lower_char c = c /\ is_ascii c = true.
Proof. char_cases c. Qed.

Lemma plain_name_char h P : str_forall (fun c => is_label_char c || bool_decide (c = "."%char)) h = true ->
  (forall c, is_label_char c || bool_decide (c = "."%char) = true -> P c = false) ->
  str_exists P h = false.
Proof.
  intros H HP. induction h as [|c h IH]; [done|]. cbn in H. bool_simpl.
  rewrite str_exists_cons, HP by done. by apply IH.
Qed.

Lemma plain_name_lower h : str_forall (fun c => is_label_char c || bool_decide (c = "."%char)) h = true ->
  lower h = h /\ is_ascii_str h = true.
Proof.
  intros H. induction h as [|c h IH]; [done|]. cbn in *. bool_simpl.
  destruct (label_char_plain c) as (_ & _ & _ & Hl & Ha); [done|]. destruct IH as [IHl IHa]; [done|].
  unfold lower, is_ascii_str in *. by rewrite Hl, Ha, IHl, IHa.
Qed.

Lemma dns_name_no_dot_end h : dns_name h -> endswith "." h = false /\ is_empty h = false.
Proof.
  intros [_ H]. split.
  - apply not_true_iff_false. intros (t & ->)%endswith_app.
    rewrite split_char_app_sep in H. apply Forall_app in H as [_ H].
    by inversion H as [|? ? Hb _].
  - destruct h; [|done]. by inversion H as [|? ? Hb _].
Qed.

Lemma dns_name_idna h : dns_name h -> is_ascii_str h = true -> encode_idna unicode_name h = Some h.
Proof.
  intros [_ H] Ha. unfold encode_idna. rewrite Ha. unfold idna_ascii.
  assert (Hlen : Forall (fun l => (0 <? byte_len l) && (byte_len l <? 64) = true) (split_char "." h)).
  { eapply Forall_impl; [exact H|]. intros l. unfold bad_label. intros Hl. bool_simpl.
    destruct l as [|c l]; [done|]. cbn [byte_len]. pose proof (byte_len_nonneg l).
    cbn [byte_len] in *. apply andb_true_iff. split; apply Z.ltb_lt; lia. }
  rewrite (proj2 (forallb_forall _ _)).
  - destruct (last _) as [l|] eqn:El; [|done]. cbn.
    apply last_Some in El as [ls El]. rewrite El in Hlen. apply Forall_app in Hlen as [_ Hl].
    inversion Hl as [|? ? Hb _]. apply andb_prop in Hb as [_ ->]. done.
  - intros l Hl. rewrite Forall_forall in Hlen. apply Hlen.
    apply list_elem_of_In in Hl. by eapply elem_of_take in Hl as (i & Hi & _); eapply list_elem_of_lookup_2.
Qed.

(** A name in normal form that is no IP address is its own normal form. *)
Lemma normalize_fixed h : dns_name h -> parse_ip h = None -> _normalize_dns_hostname h = Ok h.
Proof.
  intros Hd Hip. pose proof (dns_name_chars h Hd) as Hc.
  destruct (plain_name_lower h Hc) as [Hl Ha]. destruct (dns_name_no_dot_end h Hd) as [Hdot Hne].
  unfold _normalize_dns_hostname.
  rewrite Hne, (plain_name_char h is_space Hc), (plain_name_char h is_delimiter Hc), Hdot.
  2-3: by intros c (? & ? & _)%label_char_plain. cbn [orb].
  rewrite Hne, Hdot. unfold contains_char. rewrite (plain_name_char h _ Hc).
  2: { intros c (_ & _ & ? & _)%label_char_plain. by apply bool_decide_eq_false. }
  cbn [orb]. rewrite Hip. cbn [is_none negb]. rewrite Hl, dns_name_idna by done. cbn.
  destruct Hd as [Hlen Hlab]. rewrite (proj2 (bad_labels_none _) Hlab), orb_false_r.
  by rewrite (proj2 (Z.ltb_ge _ _) Hlen).
Qed.

(** ** A name without a colon and its lower case *)

Lemma lower_char_alpha c : lower_char c = c \/ is_alpha (lower_char c) = true.
Proof. char_cases c; (by left) || (by right). Qed.

Lemma lower_no_alpha s : (forall c, is_alpha c = true -> contains_char c (lower s) = false) -> lower s = s.
Proof.
  induction s as [|c s IH]; [done|]. intros H. change (lower (String c s)) with (String (lower_char c) (lower s)) in *.
  destruct (lower_char_alpha c) as [-> | Ha].
  - f_equal. apply IH. intros d Hd. specialize (H d Hd).
    unfold contains_char in *. rewrite str_exists_cons in H. by bool_simpl.
  - specialize (H _ Ha). unfold contains_char in H. rewrite str_exists_cons, bool_decide_eq_true_2 in H; done.
Qed.

Lemma partition_first c d s : contains_char d s = false -> contains_char d (partition c s).1.1 = false.
Proof.
  unfold contains_char. induction s as [|x s IH]; [done|]. rewrite str_exists_cons. intros H. bool_simpl. cbn.
  case_if; [done|]. destruct (partition c s) as [[a b] e]. cbn in *. rewrite str_exists_cons.
  rewrite IH by done. by rewrite bool_decide_eq_false_2.
Qed.

Lemma parse_ip_lower s : contains_char ":" s = false -> parse_ip s = None -> parse_ip (lower s) = None.
Proof.
  intros Hc Hs. unfold parse_ip in *. destruct (parse_ipv4 (lower s)) as [n|] eqn:E4.
  - rewrite lower_no_alpha in E4; [by rewrite E4 in Hs|].
    intros c Ha. eapply parse_ipv4_lacks; [| |done]; clear -Ha; revert Ha; char_cases c.
  - case_if; [done|]. destruct (partition "%" (lower s)) as [[addr sep] scope] eqn:Ep.
    case_if; [done|]. replace (parse_ipv6 addr) with (@None Z); [done|].
    assert (Ha : contains_char ":" addr = false).
    { change addr with (addr, sep, scope).1.1. rewrite <- Ep. by apply partition_first, lower_lacks. }
    unfold parse_ipv6. by rewrite split_char_single.
Qed.

Lemma lower_ascii s : is_ascii_str s = true -> is_ascii_str (lower s) = true.
Proof.
  unfold is_ascii_str. induction s as [|c s IH]; [done|]. cbn [str_forall str_map lower]. intros H. bool_simpl.
  rewrite IH, andb_true_r by done. rename select (is_ascii c = true) into Hc. revert Hc. char_cases c.
Qed.

Lemma delimiter_lacks s : str_exists is_delimiter s = false -> contains_char ":" s = false.
Proof.
  unfold contains_char. induction s as [|c s IH]; [done|]. rewrite !str_exists_cons. intros H. bool_simpl.
  rewrite IH, orb_false_r by done. apply bool_decide_eq_false. by intros ->.
Qed.

(** The normal form of an ASCII value is no IP address, and is its own normal form. *)
Lemma normalize_ascii v h : is_ascii_str v = true -> _normalize_dns_hostname v = Ok h ->
  parse_ip h = None /\ _normalize_dns_hostname h = Ok h.
Proof.
  intros Ha H. pose proof (normalize_dns_name v h H) as Hd.
  enough (Hip : parse_ip h = None) by (split; [done|]; by apply normalize_fixed).
  unfold _normalize_dns_hostname in H. head_if H; [discriminate H|].
  set (raw := if endswith "." v then _ else _) in H.
  assert (Hraw : exists t, v = raw +:+ t).
  { subst raw. case_if; [|exists EmptyString; by rewrite str_app_nil_r].
    apply endswith_app in E0 as (t & ->). exists ".". rewrite str_length_app, Nat.add_sub. by rewrite str_take_app. }
  repeat head_if H; try discriminate H. result_inv. head_if H; [discriminate H|]. result_inv.
  destruct Hraw as [t Hv]. unfold is_ascii_str in Ha. rewrite Hv, str_forall_app in Ha. bool_simpl.
  assert (Hlow : is_ascii_str (lower raw) = true) by (by apply lower_ascii).
  rename select (encode_idna _ _ = _) into Henc.
  unfold encode_idna in Henc. rewrite Hlow in Henc. unfold idna_ascii in Henc.
  head_if Henc; [|done]. injection Henc as <-.
  apply parse_ip_lower; [|by destruct (parse_ip raw)].
  rename select (str_exists is_delimiter v = false) into Hdel. rewrite Hv, str_exists_app in Hdel. bool_simpl.
  by apply delimiter_lacks.
Qed.

(** ** Patterns *)

(** The patterns that may be stored: a wildcard over at least two labels, or, for an
    exclusion, one name. *)
Definition rule_pattern (rtype p : string) : Prop :=
  (exists n, p = "*." +:+ n /\ dns_name n /\ (2 <= length (split_char "." n))%nat)
  \/ (rtype = "exclude" /\ dns_name p).

Lemma normalize_pattern_sound rtype v p : normalize_hostname_pattern rtype v = Ok p ->
  (rtype = "include" \/ rtype = "exclude") /\ rule_pattern rtype p.
Proof.
  unfold normalize_hostname_pattern. intros H. result_inv. bool_simpl.
  assert (Ht : rtype = "include" \/ rtype = "exclude") by set_solver.
  repeat head_if H; try discriminate H. result_inv. head_if H; [discriminate H|]. result_inv.
  rename select (_normalize_dns_hostname _ = _) into Hn. apply normalize_dns_name in Hn.
  split; [done|]. destruct (startswith "*." v); cbn in *.
  - left. eexists. split_and!; [done..|]. by apply Nat.ltb_ge.
  - right. destruct Ht as [-> | ->]; [|done]. by bool_simpl.
Qed.

(** What a pattern covers, label by label: a wildcard stands for one label or more. *)
Definition covers (pattern hostname : string) : Prop :=
  match split_char "." pattern with
  | [] => False
  | first :: suffix =>
      if bool_decide (first = "*") then exists labels, labels <> [] /\ split_char "." hostname = labels ++ suffix
      else hostname = pattern
  end.

Lemma starred n : startswith "*." ("*." +:+ n) = true /\ split_char "." ("*." +:+ n) = "*" :: split_char "." n.
Proof.
  split; [apply startswith_app; by eexists|]. by apply (split_char_app_sep "." "*" n).
Qed.

Lemma unstarred n : dns_name n -> startswith "*." n = false.
Proof.
  intros Hd. apply not_true_iff_false. intros (t & ->)%startswith_app.
  pose proof (dns_name_chars _ Hd). done.
Qed.

Lemma matches_covers rtype p h : rule_pattern rtype p -> _matches p h = true <-> covers p h.
Proof.
  intros [(n & -> & _)|[_ Hd]]; unfold _matches, covers.
  - destruct (starred n) as [-> ->]. rewrite (bool_decide_eq_true_2 ("*" = "*")) by done.
    change (str_drop 2 ("*." +:+ n)) with n.
    rewrite andb_true_iff, negb_true_iff, bool_decide_eq_false, endswith_app. split.
    + intros [_ [t ->]]. exists (split_char "." t). split; [apply split_char_not_nil|]. apply split_char_app_sep.
    + intros (labels & Hne & Hs).
      assert (Hh : h = join "." labels +:+ "." +:+ n).
      { rewrite <- (join_split "." h), Hs. rewrite join_app by (done || apply split_char_not_nil).
        by rewrite (join_split "." n). }
      split; [|by eexists]. intros ->. apply (f_equal String.length) in Hh.
      rewrite !str_length_app in Hh. cbn in Hh. lia.
  - rewrite (unstarred _ Hd). destruct (split_char "." p) as [|l ls] eqn:E; [by apply split_char_not_nil in E|].
    rewrite bool_decide_eq_true. rewrite bool_decide_eq_false_2; [done|]. intros ->.
    destruct Hd as [_ Hd]. rewrite E in Hd. by inversion Hd as [|? ? Hb _].
Qed.

(** ** The most specific rule *)

Lemma key_ltb_spec a b : key_ltb a b = true <->
  a.1.1 < b.1.1 \/ (a.1.1 = b.1.1 /\ (a.1.2 < b.1.2 \/ (a.1.2 = b.1.2 /\ a.2 < b.2))).
Proof.
  destruct a as [[a1 a2] a3], b as [[b1 b2] b3]. cbn.
  rewrite !orb_true_iff, !andb_true_iff, !orb_true_iff, !andb_true_iff, !Z.ltb_lt, !Z.eqb_eq. done.
Qed.

Lemma key_ltb_irrefl a : key_ltb a a = false.
Proof. apply not_true_iff_false. rewrite key_ltb_spec. lia. Qed.

(** [key_ltb] is a strict weak order. *)
Lemma key_ltb_negtrans a b c : key_ltb a b = false -> key_ltb b c = false -> key_ltb a c = false.
Proof. rewrite <- !not_true_iff_false, !key_ltb_spec. lia. Qed.

Lemma key_ltb_asym a b : key_ltb a b = true -> key_ltb b a = false.
Proof. rewrite <- not_true_iff_false, !key_ltb_spec. lia. Qed.

Lemma select_rule_greatest rules r : _select_rule rules = Some r ->
  r ∈ rules /\ Forall (fun r' => key_ltb (rule_key r) (rule_key r') = false) rules.
Proof.
  destruct rules as [|r0 rest]; [done|]. cbn [_select_rule]. intros H. apply (inj Some) in H. revert r0 H.
  induction rest as [|r1 rest IH]; cbn [fold_left]; intros r0 H.
  - subst. split; [set_solver|]. repeat constructor. apply key_ltb_irrefl.
  - apply IH in H as [Hin Hall].
    destruct (key_ltb (rule_key r0) (rule_key r1)) eqn:E; apply Forall_cons in Hall as [H0 Hrest].
    + rewrite !elem_of_cons in *. split; [tauto|]. constructor; [|by constructor].
      eapply key_ltb_negtrans; [done|]. by apply key_ltb_asym.
    + rewrite !elem_of_cons in *. split; [tauto|]. constructor; [done|]. constructor; [|done]. by eapply key_ltb_negtrans.
Qed.

Lemma select_rule_none rules : _select_rule rules = None <-> rules = [].
Proof. by destruct rules. Qed.

(** ** The decision *)

(** The rules of the revision with a given type that cover the hostname. *)
Definition covered_by (revision : Z) (rtype h : string) (rules : list AssetHostnameRule) (r : AssetHostnameRule) : Prop :=
  r ∈ rules /\ rule_revision_id r = revision /\ rule_type r = rtype /\ covers (hostname_pattern r) h.

(** A pattern with more labels is more specific, of those with as many a longer one, and of
    two still equal the older rule is preferred. *)
Definition preferred (r r' : AssetHostnameRule) : Prop :=
  let labels x := List.length (split_char "." (hostname_pattern x)) in
  (labels r' < labels r)%nat
  \/ labels r' = labels r
     /\ (str_len (hostname_pattern r') < str_len (hostname_pattern r)
         \/ str_len (hostname_pattern r') = str_len (hostname_pattern r) /\ rule_id r <= rule_id r').

Lemma labels_count s : Z.of_nat (List.length (split_char "." s)) = count_char "." s + 1.
Proof.
  induction s as [|d t IH]; [done|]. cbn [split_char count_char]. case_bool_decide; cbn [List.length].
  - lia.
  - pose proof (split_char_not_nil "." t). destruct (split_char "." t); [done|]. cbn [List.length] in *; lia.
Qed.

Lemma rule_key_preferred r r' : key_ltb (rule_key r) (rule_key r') = false <-> preferred r r'.
Proof.
  rewrite <- not_true_iff_false, key_ltb_spec. unfold rule_key, preferred; cbn.
  pose proof (labels_count (hostname_pattern r)). pose proof (labels_count (hostname_pattern r')). lia.
Qed.

(** One of them is preferred to each of the others. *)
Definition most_specific (revision : Z) (rtype h : string) (rules : list AssetHostnameRule) (r : AssetHostnameRule) : Prop :=
  covered_by revision rtype h rules r
  /\ forall r', covered_by revision rtype h rules r' -> preferred r r'.

Definition selected (revision : Z) (rtype h : string) (rules : list AssetHostnameRule) (o : option AssetHostnameRule) : Prop :=
  match o with
  | Some r => most_specific revision rtype h rules r
  | None => forall r, ~ covered_by revision rtype h rules r
  end.

Lemma filter_selected revision rtype h rules :
  rtype ∈ ["include"; "exclude"] -> Forall (fun r => rule_pattern (rule_type r) (hostname_pattern r)) rules ->
  selected revision rtype h rules
    (_select_rule (List.filter (fun r => bool_decide (rule_type r = rtype))
       (List.filter (fun r => (rule_revision_id r =? revision) && bool_decide (rule_type r ∈ ["include"; "exclude"])
                              && _matches (hostname_pattern r) h) rules))).
Proof.
  intros Ht Hp. set (l := List.filter _ _).
  assert (Hl : forall r, r ∈ l <-> covered_by revision rtype h rules r).
  { intros r. unfold l, covered_by. rewrite !list_elem_of_In, !filter_In, <- list_elem_of_In.
    rewrite Forall_forall in Hp. rewrite bool_decide_eq_true. split.
    - intros [[Hr Hc] <-]. bool_simpl. split_and!; [done..|]. by apply (matches_covers _ _ _ (Hp r Hr)).
    - intros (Hr & <- & Hty & Hc). split; [|done]. split; [done|].
      rewrite (proj2 (matches_covers _ _ _ (Hp r Hr)) Hc), Z.eqb_refl, bool_decide_eq_true_2; [done|]. by rewrite Hty. }
  destruct (_select_rule l) as [r|] eqn:E; cbn.
  - apply select_rule_greatest in E as [Hin Hall]. rewrite Forall_forall in Hall.
    split; [by apply Hl|]. intros r' Hr'. by apply rule_key_preferred, Hall, Hl.
  - apply select_rule_none in E. intros r Hr%Hl. rewrite E in Hr. set_solver.
Qed.

(** What the decision should be. *)
Definition rules_decide (revision : Z) (candidate : string) (rules : list AssetHostnameRule)
    (d : AssetCandidateRuleDecision) : Prop :=
  match _normalize_dns_hostname candidate with
  | Raise _ => d = mkRuleDecision false "asset_candidate_invalid" None None None
  | Ok h =>
      exists included excluded,
        selected revision "include" h rules included /\ selected revision "exclude" h rules excluded
        /\ decided_hostname d = Some h
        /\ matched_include_rule_id d = rule_id <$> included /\ matched_exclude_rule_id d = rule_id <$> excluded
        /\ eligible d = negb (is_none included) && is_none excluded
        /\ rule_code d = (if negb (is_none excluded) then "asset_candidate_excluded"
                          else if is_none included then "asset_candidate_not_included"
                          else "asset_candidate_included")
  end.

Lemma match_decides revision candidate rules :
  Forall (fun r => rule_pattern (rule_type r) (hostname_pattern r)) rules ->
  rules_decide revision candidate rules (match_asset_candidate revision candidate rules).
Proof.
  intros Hp. unfold rules_decide, match_asset_candidate, normalize_candidate_hostname.
  destruct (_normalize_dns_hostname candidate) as [h|e]; [|done].
  eexists _, _. split; [by apply filter_selected; [set_solver|]|].
  split; [by apply filter_selected; [set_solver|]|].
  set (i := _select_rule _). set (e := _select_rule _). by destruct e, i.
Qed.

(** C22: A candidate is eligible exactly when a rule of the revision includes its normal form
    and no rule of the revision excludes it; the decision names, of each type, the rule that
    covers the hostname label by label and has the most labels, then the longest pattern,
    then the lowest id. *)
Theorem candidate_decided revision candidate rules :
  Forall (fun r => rule_pattern (rule_type r) (hostname_pattern r)) rules ->
  rules_decide revision candidate rules (match_asset_candidate revision candidate rules).
Proof. apply match_decides. Qed.
End names.

Definition no_unicode (s : string) : option string := None.

Lemma candidate_decided_witness :
  rules_decide no_unicode 11 "Shop.Api.Example.COM."
    [mkRule 1 11 "include" "*.example.com"; mkRule 2 11 "include" "*.api.example.com";
     mkRule 3 11 "exclude" "admin.example.com"; mkRule 4 12 "exclude" "*.example.com"]
    (mkRuleDecision true "asset_candidate_included" (Some "shop.api.example.com") (Some 2) None).
Proof.
  apply (candidate_decided no_unicode 11 "Shop.Api.Example.COM."
    [mkRule 1 11 "include" "*.example.com"; mkRule 2 11 "include" "*.api.example.com";
     mkRule 3 11 "exclude" "admin.example.com"; mkRule 4 12 "exclude" "*.example.com"]).
  repeat first [apply Forall_nil; exact I | apply Forall_cons; split].
  - left. exists "example.com". split; [done|]. by apply (bool_decide_unpack _).
  - left. exists "api.example.com". split; [done|]. by apply (bool_decide_unpack _).
  - right. split; [done|]. by apply (bool_decide_unpack _).
  - left. exists "example.com". split; [done|]. by apply (bool_decide_unpack _).
Defined.

(** The spelling of 127.0.0.1 with full-width digits, in UTF-8. *)
Definition wide_loopback : string :=
  concat_str [String (chr 239) (String (chr 188) (str1 (chr 145))); "27.0.0.1"].

(** The test for IP addresses reads the value before the codec folds its digits: such a
    spelling of an address is accepted as a hostname. *)
Lemma wide_digits_accepted unicode_name : unicode_name wide_loopback = Some "127.0.0.1" ->
  _normalize_dns_hostname unicode_name wide_loopback = Ok "127.0.0.1"
  /\ parse_ip "127.0.0.1" = Some (V4 (octets 127 0 0 1)).
Proof.
  intros H. split; [|done]. vm_compute in H |- *. by rewrite H.
Qed.
