(* ===== verification/AssetDns.v ===== *)
(** DNS classification of a candidate asset, src/backend/app/services/asset_candidate_dns.py:
    the walk along the chain of CNAME records, the addresses of its end, and their
    categories.

    [DnspythonAssetCandidateDNSResolver] is modelled over [resolve], what the library
    answers to one query for an absolute name and a record type; classification takes any
    resolver.  Within one classification no name is asked twice for its CNAME record, so a
    resolver is a function of the name. *)

From S2P Require Import Prelude.
From S2P Require Import PyStr.
From S2P Require Import PyIp.
From S2P Require Import Destination.
From S2P Require Import Hostnames.

Open Scope Z_scope.

Definition MAX_CNAME_HOPS : Z := 8.
Definition MAX_RESOLVED_ADDRESSES : Z := 16.

Inductive dns_error : Type := AssetCandidateDNSResolverError.

Record AssetCandidateDNSDecision := mkDnsDecision {
  dns_code : string;
  dns_hostname : option string;
  cname_chain : list string;
  terminal_hostname : option string;
  dns_addresses : list string;
  dns_categories : list AddressCategory
}.

(** The protocol [AssetCandidateDNSResolver]; [Raise] stands for any [Exception]. *)
Record resolver := mkResolver {
  lookup_cname : string -> result dns_error (option string);
  resolve_addresses : string -> resolver_outcome
}.

(** ** The adapter of dnspython *)

(** The answer to one query: [NoAnswer], another exception, or the texts of the records'
    [target] or [address]. *)
Inductive dns_answer : Type :=
| DnsNoAnswer
| DnsRaised
| DnsRecords (records : list string).

Section adapter.
Variable unicode_name : string -> option string.
Variable resolve : string -> string -> dns_answer.

Definition _absolute_name (hostname : string) : result dns_error string :=
  normalized ← catch (normalize_candidate_hostname unicode_name hostname)
    (fun _ => Raise AssetCandidateDNSResolverError);
  Ok (normalized +:+ ".").

Definition _resolve (hostname record_type : string) : result dns_error (option (list string)) :=
  name ← _absolute_name hostname;
  match resolve name record_type with
  | DnsNoAnswer => Ok None
  | DnsRaised => Raise AssetCandidateDNSResolverError
  | DnsRecords records => Ok (Some records)
  end.

Definition dnspython_lookup_cname (hostname : string) : result dns_error (option string) :=
  answer ← _resolve hostname "CNAME";
  match answer with
  | None => Ok None
  | Some [target] => Ok (Some target)
  | Some _ => Raise AssetCandidateDNSResolverError
  end.

Definition dnspython_resolve_addresses (hostname : string) : resolver_outcome :=
  match (v4 ← _resolve hostname "A"; v6 ← _resolve hostname "AAAA"; Ok (default [] v4 ++ default [] v6)) with
  | Ok addresses => ResolverValues (RawText <$> addresses)
  | Raise _ => ResolverRaised
  end.

Definition DnspythonAssetCandidateDNSResolver : resolver :=
  mkResolver dnspython_lookup_cname dnspython_resolve_addresses.

End adapter.

(** ** Classification *)

Section classification.
Variable unicode_name : string -> option string.
Variable r : resolver.

(** [_decision] of an outcome without addresses. *)
Definition _decision (code : string) (hostname : option string) (chain : list string)
    (terminal : option string) : AssetCandidateDNSDecision :=
  mkDnsDecision code hostname chain terminal [] [].

(** The loop [while True]: the chain and its end, or the decision returned.  [None] is
    want of fuel. *)
Fixpoint walk_cnames (fuel : nat) (normalized : string) (chain : list string) (current : string)
    : option (result AssetCandidateDNSDecision (list string * string)) :=
  let observed := normalized :: chain in
  match fuel with
  | O => None
  | S fuel' =>
      match lookup_cname r current with
      | Raise _ =>
          Some (Raise (_decision "asset_candidate_dns_resolution_failed" (Some normalized) chain (Some current)))
      | Ok None => Some (Ok (chain, current))
      | Ok (Some target) =>
          if Z.of_nat (length chain) =? MAX_CNAME_HOPS then
            Some (Raise (_decision "asset_candidate_dns_cname_limit_exceeded" (Some normalized) chain (Some current)))
          else
            match normalize_candidate_hostname unicode_name target with
            | Raise _ => Some (Raise (_decision "asset_candidate_dns_invalid" (Some normalized) chain (Some current)))
            | Ok canonical_target =>
                if bool_decide (canonical_target ∈ observed) then
                  Some (Raise (_decision "asset_candidate_dns_cname_cycle" (Some normalized)
                                 (chain ++ [canonical_target]) (Some current)))
                else walk_cnames fuel' normalized (chain ++ [canonical_target]) canonical_target
            end
      end
  end.

Inductive collect_stop : Type := CollectFailed | CollectLimit.

(** The loop over the addresses; [seen] is [unique_addresses]. *)
Fixpoint collect (raw : list raw_address) (seen : list ip_address) : result collect_stop (list ip_address) :=
  match raw with
  | [] => Ok seen
  | value :: rest =>
      address ← catch (parse_raw value) (fun _ => Raise CollectFailed);
      let seen := if bool_decide (address ∈ seen) then seen else seen ++ [address] in
      if MAX_RESOLVED_ADDRESSES <? Z.of_nat (length seen) then Raise CollectLimit
      else collect rest seen
  end.

Definition collect_addresses (raw : resolver_outcome) : result collect_stop (list ip_address) :=
  match raw with
  | ResolverRaised | ResolverText _ => Raise CollectFailed
  | ResolverValues l => unique ← collect l []; Ok (sort_addresses unique)
  end.

Definition dns_outcome (categories : list AddressCategory) : string :=
  if forallb (fun c => bool_decide (c = PUBLIC)) categories then "asset_candidate_dns_public_only"
  else if forallb (fun c => bool_decide (c ∈ [LOOPBACK; PRIVATE])) categories then
    "asset_candidate_dns_private_local_only"
  else "asset_candidate_dns_prohibited".

(** The part after the loop. *)
Definition classify_end (normalized : string) (chain : list string) (current : string) : AssetCandidateDNSDecision :=
  match collect_addresses (resolve_addresses r current) with
  | Raise CollectLimit =>
      _decision "asset_candidate_dns_address_limit_exceeded" (Some normalized) chain (Some current)
  | Raise CollectFailed | Ok [] =>
      _decision "asset_candidate_dns_resolution_failed" (Some normalized) chain (Some current)
  | Ok addresses =>
      let categories := classify_address <$> addresses in
      mkDnsDecision (dns_outcome categories) (Some normalized) chain (Some current)
        (compressed <$> addresses) categories
  end.

Definition classify_fuel (fuel : nat) (hostname : string) : option AssetCandidateDNSDecision :=
  match normalize_candidate_hostname unicode_name hostname with
  | Raise _ => Some (_decision "asset_candidate_dns_invalid" None [] None)
  | Ok normalized =>
      walked ← walk_cnames fuel normalized [] normalized;
      Some (match walked with
            | Raise decision => decision
            | Ok (chain, current) => classify_end normalized chain current
            end)
  end.

(** Nine lookups are enough: the eight hops and the one that finds the end or one hop too
    many ([classification_terminates]). *)
Definition classify_asset_candidate_dns (hostname : string) : AssetCandidateDNSDecision :=
  default (_decision "asset_candidate_dns_invalid" None [] None) (classify_fuel 9 hostname).

(** * What a classification says *)

(** [DNS_DECISION_CODES] of db/models/asset_candidate_dns_validation.py *)
Definition DNS_DECISION_CODES : list string :=
  ["asset_candidate_dns_public_only"; "asset_candidate_dns_private_local_only"; "asset_candidate_dns_prohibited";
   "asset_candidate_dns_resolution_failed"; "asset_candidate_dns_invalid"; "asset_candidate_dns_cname_cycle";
   "asset_candidate_dns_cname_limit_exceeded"; "asset_candidate_dns_address_limit_exceeded"].

(** A decision fits the columns and the CHECK constraints it is stored under. *)
Definition storable (d : AssetCandidateDNSDecision) : Prop :=
  dns_code d ∈ DNS_DECISION_CODES
  /\ Z.of_nat (length (cname_chain d)) <= MAX_CNAME_HOPS
  /\ Z.of_nat (length (dns_addresses d)) <= MAX_RESOLVED_ADDRESSES
  /\ length (dns_categories d) = length (dns_addresses d).

(** [chain] leads from one name to the other, each hop the normal form of a CNAME target. *)
Fixpoint linked (from : string) (chain : list string) (to : string) : Prop :=
  match chain with
  | [] => from = to
  | next :: rest =>
      exists target, lookup_cname r from = Ok (Some target)
        /\ normalize_candidate_hostname unicode_name target = Ok next /\ linked next rest to
  end.

(** The whole chain: it ends where there is no CNAME record and repeats no name. *)
Definition resolved_chain (normalized : string) (chain : list string) (terminal : string) : Prop :=
  linked normalized chain terminal /\ lookup_cname r terminal = Ok None
  /\ NoDup (normalized :: chain) /\ Z.of_nat (length chain) <= MAX_CNAME_HOPS.

(** A refusal of the walk. *)
Definition refused (normalized : string) (d : AssetCandidateDNSDecision) : Prop :=
  dns_code d ∈ DNS_DECISION_CODES
  /\ ~ (dns_code d ∈ ["asset_candidate_dns_public_only"; "asset_candidate_dns_private_local_only"])
  /\ dns_hostname d = Some normalized /\ Z.of_nat (length (cname_chain d)) <= MAX_CNAME_HOPS
  /\ dns_addresses d = [] /\ dns_categories d = [].

Lemma linked_snoc from chain mid target next :
  linked from chain mid -> lookup_cname r mid = Ok (Some target) ->
  normalize_candidate_hostname unicode_name target = Ok next -> linked from (chain ++ [next]) next.
Proof.
  revert from. induction chain as [|x chain IH]; cbn; intros from Hl Ht Hn.
  - subst. by exists target.
  - destruct Hl as (t & H1 & H2 & H3). exists t. split_and!; [done..|]. by apply IH.
Qed.

Lemma refused_plain code normalized chain current :
  code ∈ ["asset_candidate_dns_resolution_failed"; "asset_candidate_dns_invalid"; "asset_candidate_dns_cname_cycle";
          "asset_candidate_dns_cname_limit_exceeded"; "asset_candidate_dns_address_limit_exceeded"] ->
  Z.of_nat (length chain) <= MAX_CNAME_HOPS ->
  refused normalized (_decision code (Some normalized) chain current).
Proof.
  intros Hc Hl. unfold refused. cbn. split_and!; try done.
  - unfold DNS_DECISION_CODES. set_solver.
  - set_unfold. naive_solver.
Qed.

Lemma walk_enough fuel normalized chain current :
  9 <= Z.of_nat fuel + Z.of_nat (length chain) ->
  linked normalized chain current -> NoDup (normalized :: chain) -> Z.of_nat (length chain) <= MAX_CNAME_HOPS ->
  exists res, walk_cnames fuel normalized chain current = Some res
    /\ match res with
       | Ok (chain', terminal) => resolved_chain normalized chain' terminal
       | Raise d => refused normalized d
       end.
Proof.
  revert chain current. induction fuel as [|fuel IH]; intros chain current Hf Hl Hd Hc.
  { unfold MAX_CNAME_HOPS in *. lia. }
  cbn [walk_cnames]. destruct (lookup_cname r current) as [[target|]|e] eqn:Et.
  2: by eexists. 2: eexists; split; [done|]; apply refused_plain; [set_solver | done].
  case_if; [eexists; split; [done|]; apply refused_plain; [set_solver | done]|]. bool_simpl.
  destruct (normalize_candidate_hostname unicode_name target) as [next|e] eqn:En.
  2: eexists; split; [done|]; apply refused_plain; [set_solver | done].
  assert (Hc' : Z.of_nat (length (chain ++ [next])) <= MAX_CNAME_HOPS) by (rewrite length_app; cbn; lia).
  case_if; [eexists; split; [done|]; apply refused_plain; [set_solver | done]|]. bool_simpl.
  apply IH; [rewrite length_app; cbn; lia | by eapply linked_snoc | | done].
  rewrite app_comm_cons. apply NoDup_app. split_and!; [done | | apply NoDup_singleton].
  by intros x Hx ->%list_elem_of_singleton.
Qed.

(** ** Addresses *)

Lemma collect_exact raw seen l : collect raw seen = Ok l -> Z.of_nat (length seen) <= MAX_RESOLVED_ADDRESSES ->
  NoDup seen ->
  Z.of_nat (length l) <= MAX_RESOLVED_ADDRESSES /\ NoDup l
  /\ (forall a, a ∈ l <-> a ∈ seen \/ exists v, v ∈ raw /\ parse_raw v = Ok a)
  /\ (forall v, v ∈ raw -> exists a, parse_raw v = Ok a).
Proof.
  revert seen. induction raw as [|v raw IH]; cbn [collect]; intros seen H Hlen Hnd.
  - injection H as <-. split_and!; [done | done | | by intros v ?%elem_of_nil].
    intros a. split; [by left|]. by intros [? | (v & ?%elem_of_nil & _)].
  - result_inv. rename a into address. unfold catch in *.
    destruct (parse_raw v) as [x|] eqn:Ev; [|done].
    match goal with E : Ok _ = Ok _ |- _ => injection E as -> end.
    head_if H; [done|]. bool_simpl.
    apply IH in H as (Hl & Hd & Hin & Hok); [| done | ].
    + split_and!; [done | done | |].
      * intros b. rewrite Hin. clear -Ev. split.
        -- intros [Hb | (v' & Hv & Hp)]; [|right; exists v'; split; [by right | done]].
           assert (b = address \/ b ∈ seen) as [-> | ?]; [|right; exists v; split; [left | done] | by left].
           case_bool_decide; [by right|]. apply elem_of_app in Hb as [? | ->%list_elem_of_singleton]; [by right | by left].
        -- intros [Hb | (v' & [-> | Hv]%elem_of_cons & Hp)].
           ++ left. case_bool_decide; [done|]. by apply elem_of_app; left.
           ++ left. rewrite Ev in Hp. injection Hp as ->. case_bool_decide; [done|]. apply elem_of_app. right. left.
           ++ right. by exists v'.
      * intros v' [-> | Hv]%elem_of_cons; [by exists address | by apply Hok].
    + case_bool_decide; [done|]. apply NoDup_app. split_and!; [done | | apply NoDup_singleton].
      by intros x Hx ->%list_elem_of_singleton.
Qed.

(** Every address the resolver returned, once, in order. *)
Definition all_addresses (raw : resolver_outcome) (l : list ip_address) : Prop :=
  exists values, raw = ResolverValues values
    /\ (forall v, v ∈ values -> exists a, parse_raw v = Ok a)
    /\ (forall a, a ∈ l <-> exists v, v ∈ values /\ parse_raw v = Ok a)
    /\ NoDup l /\ Sorted (fun x y => address_leb x y = true) l.

Lemma collect_addresses_exact raw l : collect_addresses raw = Ok l ->
  Z.of_nat (length l) <= MAX_RESOLVED_ADDRESSES /\ all_addresses raw l.
Proof.
  destruct raw as [| |values]; cbn; try done. intros H. result_inv.
  rename select (collect values [] = _) into Hc.
  apply collect_exact in Hc as (Hlen & Hd & Hin & Hok); [|done|constructor].
  rewrite (Permutation_length (sort_addresses_perm _)). split; [done|]. exists values. split_and!; [done | done | | | apply sort_addresses_sorted].
  - intros b. rewrite sort_addresses_perm, Hin. split; [|by right]. by intros [?%elem_of_nil | ?].
  - by rewrite sort_addresses_perm.
Qed.

Lemma dns_outcome_public l : l <> [] -> dns_outcome (classify_address <$> l) = "asset_candidate_dns_public_only" ->
  Forall (fun a => classify_address a = PUBLIC) l.
Proof.
  unfold dns_outcome. intros _ H. head_if H; [|by head_if H].
  rewrite forallb_forall in E. apply Forall_forall. intros a Ha.
  apply (bool_decide_eq_true_1 _), E, list_elem_of_In. set_solver.
Qed.

Lemma dns_outcome_private l :
  dns_outcome (classify_address <$> l) = "asset_candidate_dns_private_local_only" ->
  Forall (fun a => classify_address a = LOOPBACK \/ classify_address a = PRIVATE) l.
Proof.
  unfold dns_outcome. intros H. head_if H; [done|]. head_if H; [|done].
  rewrite forallb_forall in E0. apply Forall_forall. intros a Ha.
  assert (Hc : classify_address a ∈ [LOOPBACK; PRIVATE]); [|set_solver].
  apply (bool_decide_eq_true_1 _), E0, list_elem_of_In. set_solver.
Qed.

(** ** The whole classification *)

Lemma walk_more fuel extra normalized chain current res :
  walk_cnames fuel normalized chain current = Some res ->
  walk_cnames (fuel + extra) normalized chain current = Some res.
Proof.
  revert chain current. induction fuel as [|fuel IH]; intros chain current H; [done|].
  cbn [walk_cnames Nat.add] in *. destruct (lookup_cname r current) as [[target|]|e]; try done.
  case_if; [done|]. destruct (normalize_candidate_hostname unicode_name target); [|done].
  case_if; [done|]. by apply IH.
Qed.

(** The three ways a classification ends. *)
Inductive classified (hostname : string) : AssetCandidateDNSDecision -> Prop :=
| classified_invalid : (exists e, normalize_candidate_hostname unicode_name hostname = Raise e) ->
    classified hostname (_decision "asset_candidate_dns_invalid" None [] None)
| classified_refused n d : normalize_candidate_hostname unicode_name hostname = Ok n -> refused n d ->
    classified hostname d
| classified_end n chain terminal : normalize_candidate_hostname unicode_name hostname = Ok n ->
    resolved_chain n chain terminal -> classified hostname (classify_end n chain terminal).

Lemma classify_cases fuel hostname : (9 <= fuel)%nat ->
  classify_fuel fuel hostname = Some (classify_asset_candidate_dns hostname)
  /\ classified hostname (classify_asset_candidate_dns hostname).
Proof.
  intros Hf. unfold classify_asset_candidate_dns, classify_fuel.
  destruct (normalize_candidate_hostname unicode_name hostname) as [n|e] eqn:En; cbn -[walk_cnames].
  2: split; [done|]; apply classified_invalid; by exists e.
  destruct (walk_enough 9 n [] n) as (res & Hw & Hres); [done | done | apply NoDup_singleton | done |].
  replace fuel with (9 + (fuel - 9))%nat by lia. rewrite (walk_more _ _ _ _ _ _ Hw), Hw. cbn -[walk_cnames].
  split; [done|]. destruct res as [[chain terminal]|d].
  - by apply classified_end.
  - by apply (classified_refused _ n).
Qed.

Lemma classify_end_storable n chain terminal :
  resolved_chain n chain terminal -> storable (classify_end n chain terminal).
Proof.
  intros (_ & _ & _ & Hlen). unfold classify_end.
  assert (Hd : forall code, code ∈ DNS_DECISION_CODES -> storable (_decision code (Some n) chain (Some terminal))).
  { intros code Hc. unfold storable. cbn. by split_and!. }
  destruct (collect_addresses _) as [[|a l]|[]] eqn:Ec; try (apply Hd; unfold DNS_DECISION_CODES; set_solver).
  apply collect_addresses_exact in Ec as [Hl _]. unfold storable. cbn [dns_code cname_chain dns_addresses dns_categories].
  rewrite !length_fmap. split_and!; [| done..].
  unfold dns_outcome, DNS_DECISION_CODES. repeat case_if; set_solver.
Qed.

Lemma classification_storable hostname : storable (classify_asset_candidate_dns hostname).
Proof.
  destruct (classify_cases 9 hostname) as [_ Hcl]; [done|].
  destruct Hcl as [_ | n d _ (H1 & _ & _ & H2 & H3 & H4) | n chain terminal _ Hr].
  - unfold storable, DNS_DECISION_CODES. cbn. split_and!; [set_solver | done..].
  - unfold storable. rewrite H3, H4. by split_and!.
  - by apply classify_end_storable.
Qed.

(** C23: The walk along the CNAME records terminates whatever the resolver answers: nine
    lookups decide, more fuel changes nothing, and what is decided fits the columns it is
    stored in: a documented code, at most 8 hops and 16 addresses, one category each. *)
Theorem classification_terminates hostname fuel : (9 <= fuel)%nat ->
  classify_fuel fuel hostname = Some (classify_asset_candidate_dns hostname)
  /\ storable (classify_asset_candidate_dns hostname).
Proof.
  intros Hf. split; [|apply classification_storable]. by apply classify_cases.
Qed.

(** An accepted outcome describes the resolution that was made. *)
Definition resolved_to (hostname : string) (d : AssetCandidateDNSDecision) (l : list ip_address) : Prop :=
  exists n terminal,
    normalize_candidate_hostname unicode_name hostname = Ok n /\ dns_hostname d = Some n
    /\ terminal_hostname d = Some terminal /\ resolved_chain n (cname_chain d) terminal
    /\ all_addresses (resolve_addresses r terminal) l
    /\ dns_addresses d = compressed <$> l /\ dns_categories d = classify_address <$> l.

Lemma accepted_resolved hostname :
  dns_code (classify_asset_candidate_dns hostname)
    ∈ ["asset_candidate_dns_public_only"; "asset_candidate_dns_private_local_only"] ->
  exists l, l <> [] /\ resolved_to hostname (classify_asset_candidate_dns hostname) l
    /\ dns_code (classify_asset_candidate_dns hostname) = dns_outcome (classify_address <$> l).
Proof.
  destruct (classify_cases 9 hostname) as [_ Hcl]; [done|].
  destruct Hcl as [_ | n d _ (_ & H2 & _) | n chain terminal Hn Hr]; intros Hc; [set_unfold; naive_solver | done |].
  unfold classify_end in *. destruct (collect_addresses _) as [[|a l]|[]] eqn:Ec; try (set_unfold; naive_solver).
  exists (a :: l). split; [done|]. split; [|done]. exists n, terminal. cbn. split_and!; try done.
  by apply collect_addresses_exact in Ec as [_ ?].
Qed.

(** A hostname is found public only (private only) when its CNAME chain was followed
    to its end and every address the resolver gave for the end is listed and is neither local
    nor special (is local); at least one address was given. *)
Lemma classification_sound hostname :
  (dns_code (classify_asset_candidate_dns hostname) = "asset_candidate_dns_public_only" ->
   exists l, l <> [] /\ resolved_to hostname (classify_asset_candidate_dns hostname) l
     /\ Forall (fun a => ~ local_address a /\ ~ special_address a) l)
  /\ (dns_code (classify_asset_candidate_dns hostname) = "asset_candidate_dns_private_local_only" ->
      exists l, l <> [] /\ resolved_to hostname (classify_asset_candidate_dns hostname) l
        /\ Forall local_address l).
Proof.
  split; intros Hc.
  - destruct (accepted_resolved hostname) as (l & Hne & Hr & Ho); [rewrite Hc; left|]. exists l. split_and!; [done | done |]. rewrite Hc in Ho. eapply Forall_impl.
    + by apply dns_outcome_public.
    + apply classify_public.
  - destruct (accepted_resolved hostname) as (l & Hne & Hr & Ho); [rewrite Hc; right; left|]. exists l. split_and!; [done | done |]. rewrite Hc in Ho. eapply Forall_impl.
    + by apply dns_outcome_private.
    + intros a Ha. by apply classify_local.
Qed.
End classification.

(** * Witnesses *)

(** A zone with one alias and one address. *)
Definition sample_resolve (name record_type : string) : dns_answer :=
  if bool_decide (name = "www.example.com." /\ record_type = "CNAME") then DnsRecords ["edge.example.net."]
  else if bool_decide (name = "edge.example.net." /\ record_type = "A") then DnsRecords ["93.184.216.34"]
  else DnsNoAnswer.
Definition sample_dns : resolver := DnspythonAssetCandidateDNSResolver no_unicode sample_resolve.

Example sample_classified :
  classify_asset_candidate_dns no_unicode sample_dns "www.example.com"
  = mkDnsDecision "asset_candidate_dns_public_only" (Some "www.example.com") ["edge.example.net"]
      (Some "edge.example.net") ["93.184.216.34"] [PUBLIC].
Proof. vm_compute. reflexivity. Qed.

Lemma classification_terminates_witness :
  (9 <= 12)%nat
  /\ classify_fuel no_unicode sample_dns 12 "www.example.com"
     = Some (classify_asset_candidate_dns no_unicode sample_dns "www.example.com")
  /\ storable (classify_asset_candidate_dns no_unicode sample_dns "www.example.com").
Proof. split; [lia|]. apply (classification_terminates no_unicode sample_dns "www.example.com" 12). lia. Defined.
