(* ===== verification/Regex.v ===== *)
(** A small language of regular expressions: what the source uses of Python's [re], [search] on
    ASCII text with [IGNORECASE]. Literals are written in lower case. *)

From S2P Require Import Prelude.
From S2P Require Import PyStr.

Open Scope Z_scope.

Inductive regex : Type :=
| Lit (s : string)
| Class (p : ascii -> bool)
| Many (p : ascii -> bool)
| Boundary
| Start
| Maybe (r : regex)
| Seq (r1 r2 : regex)
| Alt (r1 r2 : regex).

Definition is_word (c : ascii) : bool := is_alnum c || bool_decide (c = "_"%char).
Definition word_at (c : option ascii) : bool := match c with Some c => is_word c | None => false end.
Definition first_char (s : string) : option ascii := match s with EmptyString => None | String c _ => Some c end.

(** A position in the text: the character before it and the text after it. *)
Definition position : Type := option ascii * string.

Fixpoint match_lit (l : string) (at_ : position) : option position :=
  match l, at_.2 with
  | EmptyString, _ => Some at_
  | String x l', String c s => if bool_decide (lower_char c = x) then match_lit l' (Some c, s) else None
  | String _ _, EmptyString => None
  end.

Fixpoint match_many (p : ascii -> bool) (prev : option ascii) (s : string) : list position :=
  (prev, s) :: match s with
               | String c t => if p c then match_many p (Some c) t else []
               | EmptyString => []
               end.

(** The positions where a match that starts at the given one can end. *)
Fixpoint match_ends (r : regex) (at_ : position) : list position :=
  match r with
  | Lit l => match match_lit l at_ with Some e => [e] | None => [] end
  | Class p => match at_.2 with
               | String c t => if p c then [(Some c, t)] else []
               | EmptyString => []
               end
  | Many p => match_many p at_.1 at_.2
  | Boundary => if Bool.eqb (word_at at_.1) (word_at (first_char at_.2)) then [] else [at_]
  | Start => match at_.1 with None => [at_] | Some _ => [] end
  | Maybe r => at_ :: match_ends r at_
  | Seq r1 r2 => mid ← match_ends r1 at_; match_ends r2 mid
  | Alt r1 r2 => match_ends r1 at_ ++ match_ends r2 at_
  end.

(** [pattern.search(text)] finds something. *)
Fixpoint search_from (r : regex) (prev : option ascii) (s : string) : bool :=
  match match_ends r (prev, s) with
  | _ :: _ => true
  | [] => match s with String c t => search_from r (Some c) t | EmptyString => false end
  end.
Definition search (r : regex) (s : string) : bool := search_from r None s.

Definition seq_all (l : list regex) : regex := foldr Seq (Lit "") l.
Definition alt_all (r : regex) (l : list regex) : regex := fold_left Alt l r.
Definition sep : regex := Maybe (Class (fun c => bool_decide (c ∈ ["-"; "_"; " "]%char))).
Definition spaces : regex := Many is_space.
Definition assign : regex := Class (fun c => bool_decide (c ∈ [":"; "="]%char)).

(** * The meaning of an expression *)

Inductive matches : regex -> position -> position -> Prop :=
| m_lit l at_ e : match_lit l at_ = Some e -> matches (Lit l) at_ e
| m_class p prev c t : p c = true -> matches (Class p) (prev, String c t) (Some c, t)
| m_none p at_ : matches (Many p) at_ at_
| m_more p prev c t e : p c = true -> matches (Many p) (Some c, t) e -> matches (Many p) (prev, String c t) e
| m_boundary at_ : word_at at_.1 <> word_at (first_char at_.2) -> matches Boundary at_ at_
| m_start s : matches Start (None, s) (None, s)
| m_skip r at_ : matches (Maybe r) at_ at_
| m_maybe r at_ e : matches r at_ e -> matches (Maybe r) at_ e
| m_seq r1 r2 at_ mid e : matches r1 at_ mid -> matches r2 mid e -> matches (Seq r1 r2) at_ e
| m_left r1 r2 at_ e : matches r1 at_ e -> matches (Alt r1 r2) at_ e
| m_right r1 r2 at_ e : matches r2 at_ e -> matches (Alt r1 r2) at_ e.

Lemma match_many_spec p prev s e : e ∈ match_many p prev s <-> matches (Many p) (prev, s) e.
Proof.
  split.
  - revert prev. induction s as [|c s IH]; intros prev; cbn [match_many]; rewrite elem_of_cons.
    + intros [-> | ?%elem_of_nil]; [apply m_none | done].
    + intros [-> | H]; [apply m_none|]. case_if_in H; [|by apply elem_of_nil in H]. apply m_more; [done | by apply IH].
  - intros H. remember (Many p) as r eqn:Er. remember (prev, s) as at_ eqn:Ea. revert prev s Ea.
    induction H; intros prev' s' Ea; try discriminate Er; injection Er as ->.
    + subst. destruct s'; left.
    + injection Ea as <- <-. cbn [match_many]. rewrite elem_of_cons. right.
      rename select (p c = true) into Hp. rewrite Hp. by apply IHmatches.
Qed.

(** The executable matcher finds exactly the matches. *)
Lemma match_ends_spec r at_ e : e ∈ match_ends r at_ <-> matches r at_ e.
Proof.
  revert at_ e. induction r as [l|p|p| | |r IH|r1 IH1 r2 IH2|r1 IH1 r2 IH2]; intros [prev s] e; cbn [match_ends].
  - destruct (match_lit l (prev, s)) eqn:E; cbn [fst snd] in *.
    + rewrite list_elem_of_singleton. split; [intros ->; by constructor|]. intros H. inversion H; congruence.
    + split; [by intros ?%elem_of_nil|]. intros H. inversion H; congruence.
  - cbn [snd]. split.
    + destruct s as [|c t]; [by intros ?%elem_of_nil|]. case_if; [|by intros ?%elem_of_nil].
      intros ->%list_elem_of_singleton. by constructor.
    + intros H. inversion H; subst. rename select (p c = true) into Hp. rewrite Hp. left.
  - apply match_many_spec.
  - cbn [fst snd]. case_if.
    + apply Bool.eqb_prop in E. split; [by intros ?%elem_of_nil|]. intros H. inversion H; cbn in *; congruence.
    + apply eqb_false_iff in E. rewrite list_elem_of_singleton.
      split; [intros ->; by constructor|]. intros H. by inversion H.
  - cbn [fst]. destruct prev.
    + split; [by intros ?%elem_of_nil|]. intros H. inversion H.
    + rewrite list_elem_of_singleton. split; [intros ->; constructor|]. intros H. by inversion H.
  - rewrite elem_of_cons, IH. split; [by intros [-> | ?]; constructor|]. intros H. inversion H; subst; tauto.
  - rewrite list_elem_of_bind. split.
    + intros (mid & H2%IH2 & H1%IH1). by econstructor.
    + intros H. inversion H; subst. exists mid. by rewrite IH1, IH2.
  - rewrite elem_of_app, IH1, IH2. split; [intros [? | ?]; by constructor|]. intros H. inversion H; subst; tauto.
Qed.

Fixpoint last_char (prev : option ascii) (s : string) : option ascii :=
  match s with EmptyString => prev | String c t => last_char (Some c) t end.

Lemma search_from_spec r prev s :
  search_from r prev s = true <-> exists a b e, s = a +:+ b /\ matches r (last_char prev a, b) e.
Proof.
  revert prev. induction s as [|c s IH]; intros prev; cbn [search_from].
  - destruct (match_ends r (prev, EmptyString)) as [|e l] eqn:E.
    + split; [done|]. intros (a & b & e & Hs & Hm%match_ends_spec). destruct a; [|done]. cbn in Hs. subst b.
      cbn in Hm. rewrite E in Hm. by apply elem_of_nil in Hm.
    + split; [|done]. intros _. exists EmptyString, EmptyString, e. split; [done|]. apply match_ends_spec.
      cbn. rewrite E. left.
  - destruct (match_ends r (prev, String c s)) as [|e l] eqn:E.
    + rewrite IH. split.
      * intros (a & b & e & -> & Hm). by exists (String c a), b, e.
      * intros ([|x a] & b & e & Hs & Hm); cbn in Hs.
        -- subst b. apply match_ends_spec in Hm. cbn in Hm. rewrite E in Hm. by apply elem_of_nil in Hm.
        -- injection Hs as -> ->. by exists a, b, e.
    + split; [|done]. intros _. exists EmptyString, (String c s), e. split; [done|]. apply match_ends_spec.
      cbn [last_char]. rewrite E. left.
Qed.

(** [pattern.search] on ASCII text. *)
Lemma search_spec r s : search r s = true <-> exists a b e, s = a +:+ b /\ matches r (last_char None a, b) e.
Proof. apply search_from_spec. Qed.
