(* ===== verification/EnrollmentNote.v ===== *)
(** The notes of enrollment decisions, src/backend/app/services/asset_enrollment_note.py: a
    note that looks like authentication material is refused.

    The pattern is transcribed into the language of Regex. A note with non-ASCII characters is
    judged by the argument [unicode_search]. *)

From S2P Require Import Prelude.
From S2P Require Import PyStr.
From S2P Require Import Regex.

Open Scope Z_scope.

Definition _PROHIBITED_NOTE_AUTH_MATERIAL : regex :=
  alt_all (seq_all [Boundary; Lit "authorization"; spaces; assign])
    [seq_all [Boundary; Lit "bearer"; Class is_space; spaces; Class (fun c => negb (is_space c)); Many (fun c => negb (is_space c))];
     seq_all [Boundary; Maybe (Lit "set-"); Lit "cookie"; spaces; assign];
     seq_all [Boundary; Maybe (Seq (Lit "x") sep); Lit "api"; sep; Lit "key"; spaces; assign];
     seq_all [Boundary; Alt (Lit "access") (Lit "refresh"); sep; Lit "token"; spaces; assign];
     seq_all [Boundary;
       alt_all (Lit "credential")
         [Lit "credentials"; Seq (Maybe (Seq (Lit "db") sep)) (Alt (Lit "password") (Lit "passwd"));
          Seq (Maybe (Seq (Lit "client") sep)) (Lit "secret")];
       spaces; assign]].

Inductive note_error : Type := AssetEnrollmentNoteAuthMaterialError.

Definition validate_non_secret_enrollment_note (unicode_search : string -> bool) (note : string)
    : result note_error string :=
  if (if is_ascii_str note then search _PROHIBITED_NOTE_AUTH_MATERIAL note else unicode_search note)
  then Raise AssetEnrollmentNoteAuthMaterialError else Ok note.

(** An ASCII note is refused exactly when the expression matches somewhere in it. *)
Lemma note_refused unicode_search note : is_ascii_str note = true ->
  validate_non_secret_enrollment_note unicode_search note = Raise AssetEnrollmentNoteAuthMaterialError <->
  exists a b e, note = a +:+ b /\ matches _PROHIBITED_NOTE_AUTH_MATERIAL (last_char None a, b) e.
Proof.
  intros Ha. unfold validate_non_secret_enrollment_note. rewrite Ha, <- search_spec.
  by case_if.
Qed.

Example note_examples :
  search _PROHIBITED_NOTE_AUTH_MATERIAL "see Authorization : x" = true
  /\ search _PROHIBITED_NOTE_AUTH_MATERIAL "use Bearer  abc" = true
  /\ search _PROHIBITED_NOTE_AUTH_MATERIAL "X-API-Key=1" = true
  /\ search _PROHIBITED_NOTE_AUTH_MATERIAL "db_password: hunter2" = true
  /\ search _PROHIBITED_NOTE_AUTH_MATERIAL "credentials = none" = true
  /\ search _PROHIBITED_NOTE_AUTH_MATERIAL "the monkey: a zoo" = false
  /\ search _PROHIBITED_NOTE_AUTH_MATERIAL "owner confirmed by mail" = false.
Proof. by vm_compute. Qed.
