(* ===== verification/Tables.v ===== *)
(** Tables as finite maps from primary keys to rows: the rows of a query, [ORDER BY] an
    integer column, and the page of a list, with the lemmas the registry needs. *)

From stdpp Require Import gmap sorting.
From S2P Require Import Prelude.

Open Scope Z_scope.

Definition rows {A} (table : gmap Z A) : list A := (map_to_list table).*2.

Fixpoint insert_by {A} (key : A -> Z) (x : A) (l : list A) : list A :=
  match l with
  | [] => [x]
  | y :: l' => if key x <=? key y then x :: l else y :: insert_by key x l'
  end.
Fixpoint order_by {A} (key : A -> Z) (l : list A) : list A :=
  match l with [] => [] | x :: l' => insert_by key x (order_by key l') end.

(** [.where(id > after_id).order_by(id).limit(limit)] *)
Definition page {A} (key : A -> Z) (after_id limit : Z) (l : list A) : list A :=
  take (Z.to_nat limit) (order_by key (List.filter (fun x => after_id <? key x) l)).

(** The last element of [x :: l]. *)
Fixpoint last_of {A} (x : A) (l : list A) : A :=
  match l with [] => x | y :: l' => last_of y l' end.

(** A client that asks for page after page, each after the last id it has seen, until a page
    is empty. [None] is want of fuel. *)
Fixpoint read_pages {A} (key : A -> Z) (fuel : nat) (after_id limit : Z) (l : list A) : option (list A) :=
  match fuel with
  | O => None
  | S fuel' =>
      match page key after_id limit l with
      | [] => Some []
      | x :: got =>
          rest ← read_pages key fuel' (key (last_of x got)) limit l;
          Some (x :: got ++ rest)
      end
  end.

(** * Rows *)

Lemma elem_of_rows {A} (m : gmap Z A) x : x ∈ rows m <-> exists k, m !! k = Some x.
Proof.
  unfold rows. rewrite list_elem_of_fmap. split.
  - intros ([k y] & -> & H%elem_of_map_to_list). by exists k.
  - intros (k & H). exists (k, x). by rewrite elem_of_map_to_list.
Qed.

Lemma forallb_rows {A} (p : A -> bool) (m : gmap Z A) :
  forallb p (rows m) = true <-> forall k x, m !! k = Some x -> p x = true.
Proof.
  rewrite forallb_forall. split.
  - intros H k x Hk. apply H, list_elem_of_In, elem_of_rows. by exists k.
  - intros H x [k Hk]%list_elem_of_In%elem_of_rows. by eapply H.
Qed.

Lemma existsb_rows {A} (p : A -> bool) (m : gmap Z A) :
  existsb p (rows m) = false <-> forall k x, m !! k = Some x -> p x = false.
Proof.
  rewrite <- not_true_iff_false, existsb_exists. split.
  - intros H k x Hk. apply not_true_is_false. intros Hp. apply H. exists x.
    split; [|done]. apply list_elem_of_In, elem_of_rows. by exists k.
  - intros H (x & [k Hk]%list_elem_of_In%elem_of_rows & Hp). by rewrite (H k x Hk) in Hp.
Qed.

Lemma rows_insert {A} (m : gmap Z A) k x : m !! k = None -> rows (<[k := x]> m) ≡ₚ x :: rows m.
Proof. intros H. unfold rows. by rewrite map_to_list_insert. Qed.

(** Rows that carry their primary key have distinct keys. *)
Lemma rows_nodup {A} (key : A -> Z) (m : gmap Z A) :
  (forall k x, m !! k = Some x -> key x = k) -> NoDup (key <$> rows m).
Proof.
  intros H. unfold rows. rewrite <- list_fmap_compose.
  rewrite (list_fmap_ext _ fst).
  - apply NoDup_fst_map_to_list.
  - intros i [k x] Hi. cbn. apply H, elem_of_map_to_list. by eapply list_elem_of_lookup_2.
Qed.

Lemma count_if_perm {A} (p : A -> bool) l1 l2 : l1 ≡ₚ l2 -> count_if p l1 = count_if p l2.
Proof. induction 1; cbn; lia. Qed.

(** At most one row satisfies the test. *)
Definition at_most_one {A} (p : A -> bool) (m : gmap Z A) : Prop :=
  forall k1 k2 x1 x2, m !! k1 = Some x1 -> m !! k2 = Some x2 -> p x1 = true -> p x2 = true -> k1 = k2.

Lemma count_rows_none {A} (p : A -> bool) (m : gmap Z A) :
  count_if p (rows m) = 0%nat <-> forall k x, m !! k = Some x -> p x = false.
Proof.
  induction m as [|k x m Hk IH] using map_ind; [by split|].
  rewrite (count_if_perm _ _ _ (rows_insert m k x Hk)). cbn [count_if]. split.
  - intros H j y [[<- <-] | [Hne Hj]]%lookup_insert_Some; [by destruct (p x)|].
    eapply IH; [|done]. lia.
  - intros H. rewrite (H k x) by apply lookup_insert_eq. apply IH. intros j y Hj. apply (H j).
    rewrite lookup_insert_ne; [done | congruence].
Qed.

Lemma count_rows_one {A} (p : A -> bool) (m : gmap Z A) :
  (count_if p (rows m) <= 1)%nat <-> at_most_one p m.
Proof.
  induction m as [|k x m Hk IH] using map_ind; [split; [by intros _ ? ? ? ? ?%lookup_empty_Some | intros _; vm_compute; lia]|].
  rewrite (count_if_perm _ _ _ (rows_insert m k x Hk)). cbn [count_if]. destruct (p x) eqn:Hp.
  - split.
    + intros H. assert (H0 : forall j y, m !! j = Some y -> p y = false) by (apply count_rows_none; lia).
      intros j1 j2 y1 y2 [[<- <-] | [_ H1]]%lookup_insert_Some [[<- <-] | [_ H2]]%lookup_insert_Some P1 P2; try done.
      all: first [by rewrite (H0 _ _ H1) in P1 | by rewrite (H0 _ _ H2) in P2].
    + intros H. enough (count_if p (rows m) = 0%nat) by lia. apply count_rows_none. intros j y Hj.
      apply not_true_is_false. intros Hy. assert (k = j) as ->; [|congruence].
      apply (H k j x y); [apply lookup_insert_eq | rewrite lookup_insert_ne; [done | congruence] | done | done].
  - rewrite Nat.add_0_l, IH. split; intros H j1 j2 y1 y2.
    + intros [[<- <-] | [_ H1]]%lookup_insert_Some [[<- <-] | [_ H2]]%lookup_insert_Some; try congruence. by apply H.
    + intros H1 H2. apply H; rewrite lookup_insert_ne; [done | congruence | done | congruence].
Qed.

Lemma find_rows_some {A} (p : A -> bool) (m : gmap Z A) x :
  find_first p (rows m) = Some x -> p x = true /\ exists k, m !! k = Some x.
Proof.
  intros (l1 & l2 & Hl & Hp & _)%find_first_some. split; [done|]. apply elem_of_rows. rewrite Hl.
  apply elem_of_app. right. left.
Qed.

Lemma find_rows_none {A} (p : A -> bool) (m : gmap Z A) :
  find_first p (rows m) = None -> forall k x, m !! k = Some x -> p x = false.
Proof.
  intros H k x Hk. eapply find_first_none; [done|]. apply elem_of_rows. by exists k.
Qed.

(** * Order *)

#[export] Instance filter_perm {A} (p : A -> bool) : Proper ((≡ₚ) ==> (≡ₚ)) (List.filter p).
Proof.
  intros l1 l2 H. induction H as [|x l1 l2 _ IH|x y l|l1 l2 l3 _ IH1 _ IH2]; cbn; [done | | | by rewrite IH1].
  - case_if; [by rewrite IH | done].
  - repeat case_if; try done. apply Permutation_swap.
Qed.


Section order.
Context {A : Type} (key : A -> Z).

Abbreviation below := (fun x y : A => key x <= key y).

Lemma insert_by_perm x l : insert_by key x l ≡ₚ x :: l.
Proof. induction l as [|y l IH]; cbn; [done|]. case_if; [done|]. rewrite IH. apply Permutation_swap. Qed.

Lemma order_by_perm l : order_by key l ≡ₚ l.
Proof. induction l as [|x l IH]; cbn; [done|]. by rewrite insert_by_perm, IH. Qed.

Lemma insert_by_sorted x l : StronglySorted below l -> StronglySorted below (insert_by key x l).
Proof.
  induction 1 as [|y l Hl IH Hall]; cbn; [repeat constructor|]. case_if; bool_simpl.
  - constructor; [by constructor|]. constructor; [done|]. eapply Forall_impl; [done|]. cbn. lia.
  - constructor; [done|]. rewrite insert_by_perm. constructor; [lia | done].
Qed.

Lemma order_by_sorted l : StronglySorted below (order_by key l).
Proof. induction l; cbn; [constructor | by apply insert_by_sorted]. Qed.

(** With distinct keys the order does not depend on the order of the rows. *)
Lemma order_by_unique l1 l2 : l1 ≡ₚ l2 -> NoDup (key <$> l1) -> order_by key l1 = order_by key l2.
Proof.
  intros Hp Hd. apply (StronglySorted_unique_strong below).
  - intros x y Hx Hy Hxy Hyx. rewrite order_by_perm in Hx, Hy. rewrite <- Hp in Hy.
    apply list_elem_of_lookup in Hx as [i Hi]. apply list_elem_of_lookup in Hy as [j Hj].
    assert (i = j) as ->; [|congruence].
    eapply (NoDup_lookup (key <$> l1)); [done | by rewrite list_lookup_fmap, Hi |].
    rewrite list_lookup_fmap, Hj. cbn. f_equal. lia.
  - apply order_by_sorted.
  - apply order_by_sorted.
  - by rewrite !order_by_perm.
Qed.

Lemma order_by_sorted_fixed l : StronglySorted below l -> order_by key l = l.
Proof.
  induction 1 as [|x l Hl IH Hall]; cbn; [done|]. rewrite IH. destruct Hall as [|y l Hy _]; cbn; [done|].
  by rewrite (proj2 (Z.leb_le _ _) Hy).
Qed.

(** ** Pages *)

Abbreviation above a l := (List.filter (fun x => a <? key x) l).

Lemma filter_nodup (p : A -> bool) l : NoDup (key <$> l) -> NoDup (key <$> List.filter p l).
Proof.
  induction l as [|x l IH]; cbn; [done|]. intros Hd. inversion Hd as [|? ? Hx Hl]; subst.
  case_if; [|by apply IH]. cbn. constructor; [|by apply IH].
  intros (y & Hy & [Hin _]%list_elem_of_In%filter_In)%list_elem_of_fmap. apply Hx, list_elem_of_fmap.
  exists y. split; [done|]. by apply list_elem_of_In.
Qed.

Lemma filter_order_by p l : NoDup (key <$> l) ->
  order_by key (List.filter p l) = List.filter p (order_by key l).
Proof.
  intros Hd. rewrite <- (order_by_sorted_fixed (List.filter p (order_by key l))).
  - apply order_by_unique; [by rewrite order_by_perm|]. by apply filter_nodup.
  - assert (Hs := order_by_sorted l). clear Hd. induction Hs as [|x l' Hl IH Hall]; cbn; [constructor|].
    case_if; [|done]. constructor; [done|]. rewrite Forall_forall in *. intros y [Hy _]%list_elem_of_In%filter_In.
    by apply Hall, list_elem_of_In.
Qed.

Lemma filter_all_true (p : A -> bool) l : Forall (fun x => p x = true) l -> List.filter p l = l.
Proof. induction 1 as [|x l Hx _ IH]; cbn; [done|]. by rewrite Hx, IH. Qed.

Lemma filter_all_false (p : A -> bool) l : Forall (fun x => p x = false) l -> List.filter p l = [].
Proof. induction 1 as [|x l Hx _ IH]; cbn; [done|]. by rewrite Hx. Qed.

(** In a list in strict order, what is above the last element of a prefix is the rest. *)
Lemma above_prefix x got rest : StronglySorted (fun x y => key x < key y) ((x :: got) ++ rest) ->
  above (key (last_of x got)) ((x :: got) ++ rest) = rest.
Proof.
  intros Hs. rewrite List.filter_app. rewrite filter_all_false, filter_all_true; [done | |].
  - apply StronglySorted_app in Hs as (Hc & _ & _). rewrite Forall_forall. intros y Hy. apply Z.ltb_lt, Hc; [|done].
    clear. revert x. induction got as [|z got IH]; intros x; cbn [last_of]; [left|]. right. apply IH.
  - apply StronglySorted_app in Hs as (_ & Hs & _). revert Hs. clear. revert x.
    induction got as [|z got IH]; intros x Hs; cbn [last_of].
    + repeat constructor. apply Z.ltb_irrefl.
    + apply StronglySorted_inv in Hs as [Hs Hx]. specialize (IH z Hs).
      constructor; [|done]. apply Forall_cons in Hx as [Hxz _]. apply Forall_cons in IH as [Hz _].
      bool_simpl. apply Z.ltb_ge. cbn. lia.
Qed.

Lemma order_by_strict l : NoDup (key <$> l) -> StronglySorted (fun x y => key x < key y) (order_by key l).
Proof.
  intros Hd. assert (Hd' : NoDup (key <$> order_by key l)) by (by rewrite order_by_perm).
  assert (Hs := order_by_sorted l). induction Hs as [|x l' Hl IH Hall]; [constructor|].
  cbn in Hd'. inversion Hd' as [|? ? Hx Hl']; subst. constructor; [by apply IH|].
  rewrite Forall_forall in *. intros y Hy. specialize (Hall y Hy). cbn in Hall.
  enough (key x <> key y) by lia. intros E. apply Hx. rewrite E. by apply list_elem_of_fmap_2.
Qed.

Lemma above_above a b l : a <= b -> above b (above a l) = above b l.
Proof.
  intros Hab. induction l as [|x l IH]; cbn; [done|]. destruct (a <? key x) eqn:Ea; cbn; [by rewrite IH|].
  destruct (b <? key x) eqn:Eb; [|done]. bool_simpl. lia.
Qed.

Lemma order_by_length l : length (order_by key l) = length l.
Proof. by rewrite order_by_perm. Qed.

(** Reading page after page gives every row above the start once, in order. *)
Lemma read_pages_spec fuel a limit l : 1 <= limit -> NoDup (key <$> l) ->
  (length (above a l) < fuel)%nat -> read_pages key fuel a limit l = Some (order_by key (above a l)).
Proof.
  intros Hlim Hd. revert a. induction fuel as [|fuel IH]; intros a Hf; [lia|]. cbn [read_pages]. unfold page.
  set (s := order_by key (above a l)). assert (Hs : s = above a (order_by key l)) by (by apply filter_order_by).
  destruct (take (Z.to_nat limit) s) as [|x got] eqn:Et.
  - destruct s; [done|]. destruct (Z.to_nat limit) eqn:E; [lia | done].
  - assert (Hsplit : s = (x :: got) ++ drop (Z.to_nat limit) s) by (by rewrite <- Et, take_drop).
    assert (Hstrict : StronglySorted (fun x y => key x < key y) s) by (by apply order_by_strict, filter_nodup).
    assert (Hlast : a < key (last_of x got)).
    { assert (Hin : last_of x got ∈ s).
      { rewrite Hsplit. apply elem_of_app. left. clear. revert x.
        induction got as [|z got IH]; intros x; cbn [last_of]; [left | right; apply IH]. }
      rewrite Hs in Hin. apply list_elem_of_In, filter_In in Hin as [_ Hin]. by apply Z.ltb_lt. }
    assert (Hrest : order_by key (above (key (last_of x got)) l) = drop (Z.to_nat limit) s).
    { assert (Hp : forall rest, s = (x :: got) ++ rest -> above (key (last_of x got)) s = rest).
      { intros rest E. rewrite E. apply above_prefix. by rewrite <- E. }
      rewrite filter_order_by, <- (above_above a), <- Hs by (done || lia). by apply Hp. }
    rewrite IH, Hrest; [cbn; f_equal; exact (eq_sym Hsplit)|].
    rewrite <- (order_by_length (above _ l)), Hrest. rewrite <- (order_by_length (above a l)) in Hf.
    change (order_by key (above a l)) with s in Hf. rewrite Hsplit, length_app in Hf. cbn in Hf. lia.
Qed.
End order.
