(* ===== verification/Registry.v ===== *)
(** The registry of authorizations: profiles and their revisions, hostname rules, candidate
    evaluations, DNS validations, enrollment decisions and Targets (db/models), with the
    services that write them: authorization_revision.py, asset_hostname_rule.py,
    asset_candidate_evaluation.py, asset_candidate_dns_validation.py,
    asset_enrollment_decision.py and approved_enrollment_target.py of src/backend/app/services.

    A service runs one transaction on the tables: [Ok] is a commit, with the tables it
    leaves; after [Raise] the transaction is rolled back. The row locks the code takes
    serialise the transactions, so each reads the tables it was started on. The primary key
    of a new row is the argument [new_id]; the constraints of the tables are tested where
    rows are flushed. Creation times are left out. *)

From stdpp Require Import gmap.
From S2P Require Import Prelude.
From S2P Require Import PyStr.
From S2P Require Import PyFloat.
From S2P Require Import PyJson.
From S2P Require Import Models.
From S2P Require Import Tables.
From S2P Require Import PyIp.
From S2P Require Import Destination.
From S2P Require Import Hostnames.
From S2P Require Import AssetDns.
From S2P Require Import EnrollmentNote.

Open Scope Z_scope.

(** * Tables *)

(** The text columns a profile and the snapshots of it have in common. *)
Record ProfileText := mkProfileText {
  text_name : string;
  program_name : string;
  program_url : option string;
  authorization_type : string;
  authorization_reference : option string;
  notes : option string
}.

(** The columns of a profile that a client writes and a revision copies: [SNAPSHOT_FIELDS],
    which are [WRITABLE_PROFILE_FIELDS] too. *)
Record ProfileFields := mkFields {
  field_text : ProfileText;
  field_valid_from : option timestamp;
  field_valid_until : option timestamp;
  field_automation_allowed : bool;
  field_max_requests_per_second : float;
  field_allow_get : bool;
  field_allow_post : bool;
  field_allow_patch : bool;
  field_allow_put : bool;
  field_allow_delete : bool;
  field_require_human_execution_approval : bool
}.

Record AuthorizationProfile := mkProfile {
  profile_id : Z;
  profile_fields : ProfileFields
}.

(** A row of [authorization_revisions]: the columns of [Models.AuthorizationRevision] and
    the text columns. *)
Record RevisionRow := mkRevisionRow {
  revision_of : AuthorizationRevision;
  revision_text : ProfileText
}.

Record AssetCandidateEvaluation := mkEvaluation {
  evaluation_id : Z;
  evaluation_revision_id : Z;
  evaluation_hostname : string;
  decision_code : string;
  evaluation_include_rule_id : option Z;
  evaluation_exclude_rule_id : option Z;
  evaluation_source_type : string
}.

Record AssetCandidateDNSValidation := mkValidation {
  validation_id : Z;
  validation_evaluation_id : Z;
  validation_revision_id : Z;
  validation_code : string;
  validation_hostname : string;
  validation_terminal : option string
}.

Record AssetCandidateDNSCNAMEHop := mkHop {
  hop_validation_id : Z;
  hop_ordinal : Z;
  hop_hostname : string
}.

Record AssetCandidateDNSAddress := mkAddress {
  address_validation_id : Z;
  address_ordinal : Z;
  address : string;
  address_category : string
}.

Record AssetEnrollmentDecision := mkEnrollment {
  enrollment_id : Z;
  enrollment_validation_id : Z;
  enrollment_revision_id : Z;
  enrollment_decision : string;
  enrollment_hostname : string;
  enrollment_reason_code : option string;
  enrollment_note : option string
}.

(** A row of [targets]: the columns of [Models.Target] and the others. *)
Record TargetRow := mkTargetRow {
  target_of : Target;
  asset_enrollment_decision_id : option Z;
  target_name : string;
  target_environment : string
}.

Record Registry := mkRegistry {
  profiles : gmap Z AuthorizationProfile;
  revisions : gmap Z RevisionRow;
  rules : gmap Z AssetHostnameRule;
  evaluations : gmap Z AssetCandidateEvaluation;
  validations : gmap Z AssetCandidateDNSValidation;
  cname_hops : list AssetCandidateDNSCNAMEHop;
  addresses : list AssetCandidateDNSAddress;
  enrollments : gmap Z AssetEnrollmentDecision;
  targets : gmap Z TargetRow
}.

Definition with_profiles (x : gmap Z AuthorizationProfile) (db : Registry) : Registry :=
  mkRegistry x (revisions db) (rules db) (evaluations db) (validations db) (cname_hops db) (addresses db) (enrollments db) (targets db).
Definition with_revisions (x : gmap Z RevisionRow) (db : Registry) : Registry :=
  mkRegistry (profiles db) x (rules db) (evaluations db) (validations db) (cname_hops db) (addresses db) (enrollments db) (targets db).
Definition with_rules (x : gmap Z AssetHostnameRule) (db : Registry) : Registry :=
  mkRegistry (profiles db) (revisions db) x (evaluations db) (validations db) (cname_hops db) (addresses db) (enrollments db) (targets db).
Definition with_evaluations (x : gmap Z AssetCandidateEvaluation) (db : Registry) : Registry :=
  mkRegistry (profiles db) (revisions db) (rules db) x (validations db) (cname_hops db) (addresses db) (enrollments db) (targets db).
Definition with_validations (x : gmap Z AssetCandidateDNSValidation) (hops : list AssetCandidateDNSCNAMEHop)
    (found : list AssetCandidateDNSAddress) (db : Registry) : Registry :=
  mkRegistry (profiles db) (revisions db) (rules db) (evaluations db) x hops found (enrollments db) (targets db).
Definition with_enrollments (x : gmap Z AssetEnrollmentDecision) (db : Registry) : Registry :=
  mkRegistry (profiles db) (revisions db) (rules db) (evaluations db) (validations db) (cname_hops db) (addresses db) x (targets db).
Definition with_targets (x : gmap Z TargetRow) (db : Registry) : Registry :=
  mkRegistry (profiles db) (revisions db) (rules db) (evaluations db) (validations db) (cname_hops db) (addresses db) (enrollments db) x.

Definition empty_registry : Registry := mkRegistry ∅ ∅ ∅ ∅ ∅ [] [] ∅ ∅.

(** * Errors *)

Inductive registry_error : Type :=
| RevisionNotFoundError
| InvalidRevisionTransitionError
| AssetHostnameRuleNotFoundError
| AssetHostnameRuleImmutableError
| AssetHostnameRuleInvalid
| AssetCandidateEvaluationNotFoundError
| AssetCandidateEvaluationInactiveError
| AssetCandidateEvaluationInvalidError
| AssetCandidateDNSValidationNotFoundError
| AssetCandidateDNSValidationInactiveError
| AssetCandidateDNSValidationIneligibleError
| AssetEnrollmentDecisionNotFoundError
| AssetEnrollmentDecisionProvenanceError
| EnrollmentNoteAuthMaterial
| ApprovedEnrollmentTargetNotFoundError
| ApprovedEnrollmentTargetInactiveRevisionError
| ApprovedEnrollmentTargetRejectedError
| ApprovedEnrollmentTargetProvenanceError
| ApprovedEnrollmentTargetDNSOutcomeError
| ApprovedEnrollmentTargetNetworkModeError
| ApprovedEnrollmentTargetConflictError
| ApprovedEnrollmentTargetConfigurationError
| IntegrityError
| DataError
| RequestValidationError
| HTTPException (status_code : Z) (detail : string).
#[export] Instance registry_error_eq_dec : EqDecision registry_error.
Proof. solve_decision. Defined.

Abbreviation registry_result := (result registry_error).

(** [db.add] and the flush of a new row: its primary key is new. *)
Definition add_row {A} (table : gmap Z A) (new_id : Z) (row : A) : registry_result (gmap Z A) :=
  if is_none (table !! new_id) then Ok (<[new_id := row]> table) else Raise IntegrityError.

(** * Revisions *)

Definition row_profile (row : RevisionRow) : Z := authorization_profile_id (revision_of row).
Definition row_state (row : RevisionRow) : string := lifecycle_state (revision_of row).

(** The revision with this id in this profile. *)
Definition select_revision (db : Registry) (profile revision : Z) : option RevisionRow :=
  row ← revisions db !! revision;
  if row_profile row =? profile then Some row else None.

(** [{field: getattr(profile, field) for field in SNAPSHOT_FIELDS}] *)
Definition snapshot (p : AuthorizationProfile) (new_id number : Z) : RevisionRow :=
  let f := profile_fields p in
  mkRevisionRow
    (mkRevision new_id (profile_id p) number "draft" (field_valid_from f) (field_valid_until f)
       (field_automation_allowed f) (field_max_requests_per_second f) (field_allow_get f)
       (field_allow_post f) (field_allow_patch f) (field_allow_put f) (field_allow_delete f)
       (field_require_human_execution_approval f))
    (field_text f).

Definition set_state (state : string) (row : RevisionRow) : RevisionRow :=
  let r := revision_of row in
  mkRevisionRow
    (mkRevision (revision_id r) (authorization_profile_id r) (revision_number r) state (valid_from r)
       (valid_until r) (automation_allowed r) (max_requests_per_second r) (allow_get r) (allow_post r)
       (allow_patch r) (allow_put r) (allow_delete r) (require_human_execution_approval r))
    (revision_text row).

(** [uq_authorization_revisions_profile_revision_number] *)
Definition number_free (table : gmap Z RevisionRow) (profile number : Z) : bool :=
  forallb (fun row => negb ((row_profile row =? profile) && (revision_number (revision_of row) =? number))) (rows table).

(** [uq_authorization_revisions_one_active_per_profile] *)
Definition one_active (table : gmap Z RevisionRow) (profile : Z) : bool :=
  Nat.leb (count_if (fun row => (row_profile row =? profile) && bool_decide (row_state row = "active")) (rows table)) 1.

Definition max_number (table : gmap Z RevisionRow) (profile : Z) : Z :=
  foldr Z.max 0 ((fun row => revision_number (revision_of row))
                   <$> List.filter (fun row => row_profile row =? profile) (rows table)).

Definition create_revision (db : Registry) (new_id profile : Z) : registry_result (RevisionRow * Registry) :=
  p ← require (profiles db !! profile) RevisionNotFoundError;
  let row := snapshot p new_id (max_number (revisions db) profile + 1) in
  _ ← guard_or (number_free (revisions db) profile (revision_number (revision_of row))) IntegrityError;
  table ← add_row (revisions db) new_id row;
  Ok (row, with_revisions table db).

(** The loop over the revisions of the profile. *)
Definition supersede (profile : Z) (row : RevisionRow) : RevisionRow :=
  if (row_profile row =? profile) && bool_decide (row_state row = "active") then set_state "superseded" row else row.

Definition transition_revision (db : Registry) (profile revision : Z) (destination : string)
    : registry_result (RevisionRow * Registry) :=
  _ ← require (profiles db !! profile) RevisionNotFoundError;
  selected ← require (select_revision db profile revision) RevisionNotFoundError;
  if bool_decide (destination = "active") then
    _ ← guard_or (bool_decide (row_state selected = "draft")) InvalidRevisionTransitionError;
    let flushed := supersede profile <$> revisions db in
    _ ← guard_or (one_active flushed profile) IntegrityError;
    let selected := set_state "active" selected in
    let table := <[revision := selected]> flushed in
    _ ← guard_or (one_active table profile) IntegrityError;
    Ok (selected, with_revisions table db)
  else if bool_decide (destination = "revoked") then
    _ ← guard_or (bool_decide (row_state selected ∈ ["draft"; "active"])) InvalidRevisionTransitionError;
    let selected := set_state "revoked" selected in
    Ok (selected, with_revisions (<[revision := selected]> (revisions db)) db)
  else Raise InvalidRevisionTransitionError.

(** * Hostname rules *)

Definition lift_hostname {A} (m : result hostname_error A) : registry_result A :=
  catch m (fun _ => Raise AssetHostnameRuleInvalid).

Definition _lock_draft_revision (db : Registry) (profile revision : Z) : registry_result RevisionRow :=
  row ← require (select_revision db profile revision) AssetHostnameRuleNotFoundError;
  _ ← guard_or (bool_decide (row_state row = "draft")) AssetHostnameRuleImmutableError;
  Ok row.

(** [uq_asset_hostname_rules_revision_type_pattern] *)
Definition rule_free (table : gmap Z AssetHostnameRule) (rule : AssetHostnameRule) : bool :=
  forallb (fun r => negb ((rule_revision_id r =? rule_revision_id rule) && bool_decide (rule_type r = rule_type rule)
                          && bool_decide (hostname_pattern r = hostname_pattern rule))) (rows table).

(** A rule that evaluations refer to. *)
Definition rule_referenced (db : Registry) (rule : Z) : bool :=
  existsb (fun e => bool_decide (evaluation_include_rule_id e = Some rule)
                    || bool_decide (evaluation_exclude_rule_id e = Some rule)) (rows (evaluations db)).

Section services.
Variable unicode_name : string -> option string.
Variable unicode_search : string -> bool.

Definition create_asset_hostname_rule (db : Registry) (new_id profile revision : Z) (rtype pattern : string)
    : registry_result (AssetHostnameRule * Registry) :=
  _ ← _lock_draft_revision db profile revision;
  normalized ← lift_hostname (normalize_hostname_pattern unicode_name rtype pattern);
  let rule := mkRule new_id revision rtype normalized in
  _ ← guard_or (rule_free (rules db) rule) IntegrityError;
  table ← add_row (rules db) new_id rule;
  Ok (rule, with_rules table db).

Definition delete_asset_hostname_rule (db : Registry) (profile revision rule : Z) : registry_result Registry :=
  _ ← _lock_draft_revision db profile revision;
  row ← require (rules db !! rule) AssetHostnameRuleNotFoundError;
  _ ← guard_or (rule_revision_id row =? revision) AssetHostnameRuleNotFoundError;
  _ ← guard_or (negb (rule_referenced db rule)) IntegrityError;
  Ok (with_rules (delete rule (rules db)) db).

(** * Evaluations *)

(** The rules of a revision, [ORDER BY id]. *)
Definition rules_of (db : Registry) (revision : Z) : list AssetHostnameRule :=
  order_by rule_id (List.filter (fun r => rule_revision_id r =? revision) (rows (rules db))).

Definition foreign_rule (matched : option Z) (rule_ids : list Z) : bool :=
  match matched with Some i => negb (bool_decide (i ∈ rule_ids)) | None => false end.

Definition create_asset_candidate_evaluation (db : Registry) (new_id profile revision : Z) (hostname : string)
    : registry_result (AssetCandidateEvaluation * Registry) :=
  _ ← require (profiles db !! profile) AssetCandidateEvaluationNotFoundError;
  row ← require (select_revision db profile revision) AssetCandidateEvaluationNotFoundError;
  _ ← guard_or (bool_decide (row_state row = "active")) AssetCandidateEvaluationInactiveError;
  let rules := rules_of db revision in
  let decision := match_asset_candidate unicode_name revision hostname rules in
  _ ← guard_or (negb (bool_decide (rule_code decision = "asset_candidate_invalid"))) AssetCandidateEvaluationInvalidError;
  let rule_ids := rule_id <$> rules in
  _ ← guard_or (negb (foreign_rule (matched_include_rule_id decision) rule_ids
                      || foreign_rule (matched_exclude_rule_id decision) rule_ids)) AssetCandidateEvaluationInvalidError;
  normalized ← require (decided_hostname decision) IntegrityError;
  let evaluation := mkEvaluation new_id revision normalized (rule_code decision)
                      (matched_include_rule_id decision) (matched_exclude_rule_id decision) "operator_supplied" in
  table ← add_row (evaluations db) new_id evaluation;
  Ok (evaluation, with_evaluations table db).

(** * DNS validations *)

Definition _load_exact (db : Registry) (profile revision evaluation : Z)
    : registry_result (RevisionRow * AssetCandidateEvaluation) :=
  row ← require (select_revision db profile revision) AssetCandidateDNSValidationNotFoundError;
  e ← require (evaluations db !! evaluation) AssetCandidateDNSValidationNotFoundError;
  _ ← guard_or (evaluation_revision_id e =? revision) AssetCandidateDNSValidationNotFoundError;
  _ ← guard_or (bool_decide (row_state row = "active")) AssetCandidateDNSValidationInactiveError;
  _ ← guard_or (bool_decide (decision_code e = "asset_candidate_included") && negb (is_empty (evaluation_hostname e)))
    AssetCandidateDNSValidationIneligibleError;
  Ok (row, e).

(** [category.value] *)
Definition category_value (c : AddressCategory) : string :=
  match c with
  | LOOPBACK => "loopback" | PRIVATE => "private" | LINK_LOCAL => "link_local"
  | UNSPECIFIED => "unspecified" | MULTICAST => "multicast" | SPECIAL => "special" | PUBLIC => "public"
  end.

Definition hop_rows (validation : Z) (chain : list string) : list AssetCandidateDNSCNAMEHop :=
  imap (fun i hostname => mkHop validation (Z.of_nat i + 1) hostname) chain.
Definition address_rows (validation : Z) (found : list string) (categories : list AddressCategory)
    : list AssetCandidateDNSAddress :=
  imap (fun i x => mkAddress validation (Z.of_nat i + 1) x.1 (category_value x.2)) (zip found categories).

(** The parent and its children. *)
Definition PersistedAssetCandidateDNSValidation : Type :=
  AssetCandidateDNSValidation * list AssetCandidateDNSCNAMEHop * list AssetCandidateDNSAddress.

(** The CHECK constraints of the three tables. *)
Definition ck_validation_rows (rows : PersistedAssetCandidateDNSValidation) : bool :=
  let '(v, hops, found) := rows in
  bool_decide (validation_code v ∈ DNS_DECISION_CODES)
  && forallb (fun h => (1 <=? hop_ordinal h) && (hop_ordinal h <=? 8)) hops
  && forallb (fun a => (1 <=? address_ordinal a) && (address_ordinal a <=? 16)) found.

(** The first transaction: the hostname that is resolved outside of any transaction. *)
Definition capture_hostname (db : Registry) (profile revision evaluation : Z) : registry_result string :=
  loaded ← _load_exact db profile revision evaluation;
  Ok (evaluation_hostname loaded.2).

(** The second transaction. *)
Definition persist_validation (db : Registry) (new_id profile revision evaluation : Z) (captured_hostname : string)
    (decision : AssetCandidateDNSDecision) : registry_result (PersistedAssetCandidateDNSValidation * Registry) :=
  _ ← require (profiles db !! profile) AssetCandidateDNSValidationNotFoundError;
  loaded ← _load_exact db profile revision evaluation;
  _ ← guard_or (bool_decide (evaluation_hostname loaded.2 = captured_hostname)) AssetCandidateDNSValidationIneligibleError;
  _ ← guard_or (bool_decide (dns_hostname decision = Some captured_hostname)) AssetCandidateDNSValidationIneligibleError;
  let validation := mkValidation new_id evaluation revision (dns_code decision) captured_hostname
                      (terminal_hostname decision) in
  let hops := hop_rows new_id (cname_chain decision) in
  let found := address_rows new_id (dns_addresses decision) (dns_categories decision) in
  _ ← guard_or (ck_validation_rows (validation, hops, found)) IntegrityError;
  table ← add_row (validations db) new_id validation;
  Ok ((validation, hops, found), with_validations table (cname_hops db ++ hops) (addresses db ++ found) db).

(** Other transactions may commit between the two; [initial] is what the first one reads. *)
Definition create_asset_candidate_dns_validation (initial db : Registry) (new_id profile revision evaluation : Z)
    (r : resolver) : registry_result (PersistedAssetCandidateDNSValidation * Registry) :=
  captured_hostname ← capture_hostname initial profile revision evaluation;
  persist_validation db new_id profile revision evaluation captured_hostname
    (classify_asset_candidate_dns unicode_name r captured_hostname).

(** * Enrollment decisions *)

Definition load_exact_dns_validation (db : Registry) (profile revision evaluation validation : Z)
    : registry_result (AssetCandidateEvaluation * AssetCandidateDNSValidation) :=
  _ ← require (select_revision db profile revision) AssetEnrollmentDecisionNotFoundError;
  e ← require (evaluations db !! evaluation) AssetEnrollmentDecisionNotFoundError;
  _ ← guard_or (evaluation_revision_id e =? revision) AssetEnrollmentDecisionNotFoundError;
  v ← require (validations db !! validation) AssetEnrollmentDecisionNotFoundError;
  _ ← guard_or ((validation_evaluation_id v =? evaluation) && (validation_revision_id v =? revision))
    AssetEnrollmentDecisionNotFoundError;
  _ ← guard_or (bool_decide (validation_hostname v = evaluation_hostname e)) AssetEnrollmentDecisionProvenanceError;
  Ok (e, v).

(** [ENROLLMENT_REASON_CODES] of db/models/asset_enrollment_decision.py *)
Definition ENROLLMENT_REASON_CODES : list string :=
  ["ownership_confirmed"; "scope_confirmed"; "out_of_scope"; "dns_risk"; "manual_review"; "other"].

(** The CHECK constraints of [asset_enrollment_decisions]. *)
Definition ck_enrollment (e : AssetEnrollmentDecision) : bool :=
  bool_decide (enrollment_decision e ∈ ["approved"; "rejected"])
  && match enrollment_reason_code e with Some c => bool_decide (c ∈ ENROLLMENT_REASON_CODES) | None => true end.

Definition create_asset_enrollment_decision (db : Registry) (new_id profile revision evaluation validation : Z)
    (decision : string) (reason_code note : option string) : registry_result (AssetEnrollmentDecision * Registry) :=
  note ← match note with
         | None => Ok None
         | Some n => n ← catch (validate_non_secret_enrollment_note unicode_search n)
                           (fun _ => Raise EnrollmentNoteAuthMaterial); Ok (Some n)
         end;
  loaded ← load_exact_dns_validation db profile revision evaluation validation;
  let enrollment := mkEnrollment new_id validation revision decision (validation_hostname loaded.2) reason_code note in
  _ ← guard_or (ck_enrollment enrollment) IntegrityError;
  table ← add_row (enrollments db) new_id enrollment;
  Ok (enrollment, with_enrollments table db).

(** * Targets of approved enrollments *)

Definition _DNS_NETWORK_MODES (code : string) : option string :=
  if bool_decide (code = "asset_candidate_dns_private_local_only") then Some PRIVATE_LOCAL
  else if bool_decide (code = "asset_candidate_dns_public_only") then Some EXTERNAL_PUBLIC_AUTHORIZED
  else None.

Definition default_port (scheme : string) : Z := if bool_decide (scheme = "http") then 80 else 443.

Definition canonical_enrollment_origin (scheme hostname : string) (port : option Z) : string :=
  let port_suffix := match port with
                     | None => EmptyString
                     | Some p => if p =? default_port scheme then EmptyString else ":" +:+ str_of_Z p
                     end in
  scheme +:+ "://" +:+ hostname +:+ port_suffix.

Definition _equivalent_origin_representations (scheme hostname : string) (port : option Z) (canonical : string)
    : list string :=
  let explicit_default := scheme +:+ "://" +:+ hostname +:+ ":" +:+ str_of_Z (default_port scheme) in
  [canonical; canonical +:+ "/"]
  ++ (if match port with None => true | Some p => p =? default_port scheme end
      then [explicit_default; explicit_default +:+ "/"] else []).

(** The payload [ApprovedEnrollmentTargetCreate]. *)
Record EnrolledTargetCreate := mkEnrolledTargetCreate {
  create_name : string;
  create_environment : string;
  create_scheme : string;
  create_port : option Z;
  create_network_mode : string
}.

Definition valid_configuration (c : EnrolledTargetCreate) : bool :=
  bool_decide (create_scheme c ∈ ["http"; "https"])
  && match create_port c with Some p => (1 <=? p) && (p <=? 65535) | None => true end
  && ((1 <=? str_len (create_name c)) && (str_len (create_name c) <=? 120))
  && ((1 <=? str_len (create_environment c)) && (str_len (create_environment c) <=? 50))
  && bool_decide (create_network_mode c ∈ NETWORK_MODES).

(** [uq_targets_asset_enrollment_decision_id], and the row of a decision. *)
Definition target_of_decision (db : Registry) (decision : Z) : option TargetRow :=
  find_first (fun t => bool_decide (asset_enrollment_decision_id t = Some decision)) (rows (targets db)).

Definition same_requested_state (t : TargetRow) (c : EnrolledTargetCreate) (base_url_ : string) (profile revision : Z) : bool :=
  bool_decide (target_name t = create_name c)
  && bool_decide (target_environment t = create_environment c)
  && bool_decide (base_url (target_of t) = base_url_)
  && bool_decide (network_mode (target_of t) = create_network_mode c)
  && bool_decide (target_authorization_profile_id (target_of t) = Some profile)
  && bool_decide (target_authorization_revision_id (target_of t) = Some revision).

(** The rows the decision is traced back through. *)
Definition load_provenance (db : Registry) (profile revision evaluation validation decision : Z)
    : registry_result (AssetCandidateDNSValidation * AssetEnrollmentDecision) :=
  _ ← require (profiles db !! profile) ApprovedEnrollmentTargetNotFoundError;
  row ← require (select_revision db profile revision) ApprovedEnrollmentTargetNotFoundError;
  _ ← guard_or (bool_decide (row_state row = "active")) ApprovedEnrollmentTargetInactiveRevisionError;
  e ← require (evaluations db !! evaluation) ApprovedEnrollmentTargetNotFoundError;
  _ ← guard_or (evaluation_revision_id e =? revision) ApprovedEnrollmentTargetNotFoundError;
  v ← require (validations db !! validation) ApprovedEnrollmentTargetNotFoundError;
  _ ← guard_or ((validation_evaluation_id v =? evaluation) && (validation_revision_id v =? revision))
    ApprovedEnrollmentTargetNotFoundError;
  d ← require (enrollments db !! decision) ApprovedEnrollmentTargetNotFoundError;
  _ ← guard_or ((enrollment_validation_id d =? validation) && (enrollment_revision_id d =? revision))
    ApprovedEnrollmentTargetNotFoundError;
  _ ← guard_or (bool_decide (enrollment_decision d = "approved")) ApprovedEnrollmentTargetRejectedError;
  _ ← guard_or (bool_decide (enrollment_hostname d = validation_hostname v)
                && bool_decide (validation_hostname v = evaluation_hostname e)) ApprovedEnrollmentTargetProvenanceError;
  Ok (v, d).

Definition create_target_from_approved_enrollment (db : Registry) (new_id profile revision evaluation validation decision : Z)
    (c : EnrolledTargetCreate) : registry_result (TargetRow * Registry) :=
  _ ← guard_or (valid_configuration c) ApprovedEnrollmentTargetConfigurationError;
  loaded ← load_provenance db profile revision evaluation validation decision;
  let '(v, d) := loaded in
  required_mode ← require (_DNS_NETWORK_MODES (validation_code v)) ApprovedEnrollmentTargetDNSOutcomeError;
  _ ← guard_or (bool_decide (create_network_mode c = required_mode)) ApprovedEnrollmentTargetNetworkModeError;
  let base_url_ := canonical_enrollment_origin (create_scheme c) (enrollment_hostname d) (create_port c) in
  match target_of_decision db decision with
  | Some existing =>
      if same_requested_state existing c base_url_ profile revision then Ok (existing, db)
      else Raise ApprovedEnrollmentTargetConflictError
  | None =>
      let origins := _equivalent_origin_representations (create_scheme c) (enrollment_hostname d) (create_port c) base_url_ in
      _ ← guard_or (negb (existsb (fun t => bool_decide (base_url (target_of t) ∈ origins)) (rows (targets db))))
        ApprovedEnrollmentTargetConflictError;
      let target := mkTargetRow
        (mkTarget new_id (Some profile) (Some revision) base_url_ (create_network_mode c) true)
        (Some decision) (create_name c) (create_environment c) in
      table ← add_row (targets db) new_id target;
      Ok (target, with_targets table db)
  end.
End services.
