(* ===== verification/RegistryRoutes.v ===== *)
(** The HTTP handlers on the registry of authorizations,
    src/backend/app/api/routes/authorization_profiles.py and targets.py, with the payloads
    their schemas accept (src/backend/app/schemas): which error becomes which status code,
    what a client may change of a profile or a Target, and the pages of the lists.

    Reading JSON into typed fields is Pydantic's; the constraints the schemas declare on the
    fields are modelled. [RequestValidationError] is the answer 422 of the framework. *)

From stdpp Require Import gmap.
From S2P Require Import Prelude.
From S2P Require Import PyStr.
From S2P Require Import PyFloat.
From S2P Require Import PyJson.
From S2P Require Import Models.
From S2P Require Import Tables.
From S2P Require Import PyIp.
From S2P Require Import Destination.
From S2P Require Import Hostnames.
From S2P Require Import AssetDns.
From S2P Require Import EnrollmentNote.
From S2P Require Import Registry.

Open Scope Z_scope.

(** * Profiles *)

(** [value.strip()], refused when empty. *)
Definition validate_required_string (value : string) : registry_result string :=
  let normalized := strip value in
  if is_empty normalized then Raise RequestValidationError else Ok normalized.

Definition max_length (n : Z) (s : string) : bool := str_len s <=? n.
Definition max_length_opt (n : Z) (s : option string) : bool :=
  match s with Some s => max_length n s | None => true end.

Definition later_end (from until : option timestamp) : bool :=
  match from, until with Some f, Some u => f <? u | _, _ => true end.

(** [AuthorizationProfileCreate]: the normalized fields. *)
Definition AuthorizationProfileCreate (f : ProfileFields) : registry_result ProfileFields :=
  let t := field_text f in
  _ ← guard_or (max_length 120 (text_name t) && max_length 200 (program_name t)
                && max_length_opt 500 (program_url t) && max_length 50 (authorization_type t)
                && max_length_opt 500 (authorization_reference t)
                && fltb f0 (field_max_requests_per_second f)) RequestValidationError;
  name ← validate_required_string (text_name t);
  program ← validate_required_string (program_name t);
  kind ← validate_required_string (authorization_type t);
  _ ← guard_or (later_end (field_valid_from f) (field_valid_until f)) RequestValidationError;
  Ok (mkFields (mkProfileText name program (program_url t) kind (authorization_reference t) (notes t))
        (field_valid_from f) (field_valid_until f) (field_automation_allowed f) (field_max_requests_per_second f)
        (field_allow_get f) (field_allow_post f) (field_allow_patch f) (field_allow_put f) (field_allow_delete f)
        (field_require_human_execution_approval f)).

(** A field of an update: absent, [null], or a value. *)
Abbreviation supplied A := (option (option A)).

Record AuthorizationProfileUpdate := mkUpdate {
  update_name : supplied string;
  update_program_name : supplied string;
  update_program_url : supplied string;
  update_authorization_type : supplied string;
  update_authorization_reference : supplied string;
  update_valid_from : supplied timestamp;
  update_valid_until : supplied timestamp;
  update_automation_allowed : supplied bool;
  update_max_requests_per_second : supplied float;
  update_allow_get : supplied bool;
  update_allow_post : supplied bool;
  update_allow_patch : supplied bool;
  update_allow_put : supplied bool;
  update_allow_delete : supplied bool;
  update_require_human_execution_approval : supplied bool;
  update_notes : supplied string
}.

Definition given {A} (x : supplied A) : option A := default None x.

Definition strip_supplied (x : supplied string) : registry_result (supplied string) :=
  match x with
  | Some (Some v) => v ← validate_required_string v; Ok (Some (Some v))
  | _ => Ok x
  end.

(** The validators of the update schema: the values of [payload.model_dump(exclude_unset=True)]. *)
Definition validate_update (u : AuthorizationProfileUpdate) : registry_result AuthorizationProfileUpdate :=
  _ ← guard_or (max_length_opt 120 (given (update_name u)) && max_length_opt 200 (given (update_program_name u))
                && max_length_opt 500 (given (update_program_url u)) && max_length_opt 50 (given (update_authorization_type u))
                && max_length_opt 500 (given (update_authorization_reference u))
                && match given (update_max_requests_per_second u) with Some x => fltb f0 x | None => true end)
    RequestValidationError;
  name ← strip_supplied (update_name u);
  program ← strip_supplied (update_program_name u);
  kind ← strip_supplied (update_authorization_type u);
  Ok (mkUpdate name program (update_program_url u) kind (update_authorization_reference u)
        (update_valid_from u) (update_valid_until u) (update_automation_allowed u) (update_max_requests_per_second u)
        (update_allow_get u) (update_allow_post u) (update_allow_patch u) (update_allow_put u) (update_allow_delete u)
        (update_require_human_execution_approval u) (update_notes u)).

(** [merged_values]: a required field that is [null] is refused by the validation. *)
Definition merge_required {A} (x : supplied A) (current : A) : registry_result A :=
  match x with None => Ok current | Some (Some v) => Ok v | Some None => Raise RequestValidationError end.
Definition merge_optional {A} (x : supplied A) (current : option A) : option A :=
  match x with None => current | Some v => v end.

Definition merged_values (u : AuthorizationProfileUpdate) (f : ProfileFields) : registry_result ProfileFields :=
  let t := field_text f in
  name ← merge_required (update_name u) (text_name t);
  program ← merge_required (update_program_name u) (program_name t);
  kind ← merge_required (update_authorization_type u) (authorization_type t);
  automation ← merge_required (update_automation_allowed u) (field_automation_allowed f);
  rate ← merge_required (update_max_requests_per_second u) (field_max_requests_per_second f);
  get ← merge_required (update_allow_get u) (field_allow_get f);
  post ← merge_required (update_allow_post u) (field_allow_post f);
  patch ← merge_required (update_allow_patch u) (field_allow_patch f);
  put ← merge_required (update_allow_put u) (field_allow_put f);
  del ← merge_required (update_allow_delete u) (field_allow_delete f);
  human ← merge_required (update_require_human_execution_approval u) (field_require_human_execution_approval f);
  Ok (mkFields
        (mkProfileText name program (merge_optional (update_program_url u) (program_url t)) kind
           (merge_optional (update_authorization_reference u) (authorization_reference t))
           (merge_optional (update_notes u) (notes t)))
        (merge_optional (update_valid_from u) (field_valid_from f))
        (merge_optional (update_valid_until u) (field_valid_until f))
        automation rate get post patch put del human).

(** [setattr(profile, field_name, normalized_values[field_name])] for the supplied fields. *)
Definition pick_supplied {A B} (x : supplied A) (normalized current : B) : B :=
  match x with Some _ => normalized | None => current end.

Definition set_supplied (u : AuthorizationProfileUpdate) (n f : ProfileFields) : ProfileFields :=
  let t := field_text f in
  let m := field_text n in
  mkFields
    (mkProfileText (pick_supplied (update_name u) (text_name m) (text_name t))
       (pick_supplied (update_program_name u) (program_name m) (program_name t))
       (pick_supplied (update_program_url u) (program_url m) (program_url t))
       (pick_supplied (update_authorization_type u) (authorization_type m) (authorization_type t))
       (pick_supplied (update_authorization_reference u) (authorization_reference m) (authorization_reference t))
       (pick_supplied (update_notes u) (notes m) (notes t)))
    (pick_supplied (update_valid_from u) (field_valid_from n) (field_valid_from f))
    (pick_supplied (update_valid_until u) (field_valid_until n) (field_valid_until f))
    (pick_supplied (update_automation_allowed u) (field_automation_allowed n) (field_automation_allowed f))
    (pick_supplied (update_max_requests_per_second u) (field_max_requests_per_second n) (field_max_requests_per_second f))
    (pick_supplied (update_allow_get u) (field_allow_get n) (field_allow_get f))
    (pick_supplied (update_allow_post u) (field_allow_post n) (field_allow_post f))
    (pick_supplied (update_allow_patch u) (field_allow_patch n) (field_allow_patch f))
    (pick_supplied (update_allow_put u) (field_allow_put n) (field_allow_put f))
    (pick_supplied (update_allow_delete u) (field_allow_delete n) (field_allow_delete f))
    (pick_supplied (update_require_human_execution_approval u) (field_require_human_execution_approval n)
       (field_require_human_execution_approval f)).

Definition get_profile_or_404 (db : Registry) (profile : Z) : registry_result AuthorizationProfile :=
  require (profiles db !! profile) (HTTPException 404 "AuthorizationProfile not found.").

Definition create_authorization_profile (db : Registry) (new_id : Z) (payload : ProfileFields)
    : registry_result (AuthorizationProfile * Registry) :=
  fields ← AuthorizationProfileCreate payload;
  let row := mkProfile new_id fields in
  table ← add_row (profiles db) new_id row;
  Ok (row, with_profiles table db).

Definition list_authorization_profiles (db : Registry) : list AuthorizationProfile :=
  order_by profile_id (rows (profiles db)).

Definition update_authorization_profile (db : Registry) (profile : Z) (payload : AuthorizationProfileUpdate)
    : registry_result (AuthorizationProfile * Registry) :=
  supplied_values ← validate_update payload;
  row ← get_profile_or_404 db profile;
  merged ← merged_values supplied_values (profile_fields row);
  normalized ← AuthorizationProfileCreate merged;
  let row := mkProfile (profile_id row) (set_supplied supplied_values normalized (profile_fields row)) in
  Ok (row, with_profiles (<[profile := row]> (profiles db)) db).

(** The foreign keys [ON DELETE RESTRICT] of revisions and Targets. *)
Definition profile_referenced (db : Registry) (profile : Z) : bool :=
  existsb (fun row => row_profile row =? profile) (rows (revisions db))
  || existsb (fun t => bool_decide (target_authorization_profile_id (target_of t) = Some profile)) (rows (targets db)).

Definition delete_authorization_profile (db : Registry) (profile : Z) : registry_result Registry :=
  _ ← get_profile_or_404 db profile;
  _ ← guard_or (negb (profile_referenced db profile))
    (HTTPException 409 "AuthorizationProfile is referenced by retained revision history or one or more Targets.");
  Ok (with_profiles (delete profile (profiles db)) db).

(** * Revisions *)

(** The [except] clauses of a handler: the errors it names become HTTP answers. *)
Definition http {A} (answer : registry_error -> option (Z * string)) (m : registry_result A) : registry_result A :=
  catch m (fun e => match answer e with Some (status, detail) => Raise (HTTPException status detail) | None => Raise e end).

Definition create_authorization_revision (db : Registry) (new_id profile : Z) : registry_result (RevisionRow * Registry) :=
  http (fun e => match e with
                 | RevisionNotFoundError => Some (404, "AuthorizationProfile not found.")
                 | IntegrityError => Some (409, "Revision creation conflict.")
                 | _ => None
                 end)
    (create_revision db new_id profile).

Definition list_authorization_revisions (db : Registry) (profile : Z) : registry_result (list RevisionRow) :=
  _ ← get_profile_or_404 db profile;
  Ok (order_by (fun row => revision_number (revision_of row))
        (List.filter (fun row => row_profile row =? profile) (rows (revisions db)))).

Definition get_authorization_revision (db : Registry) (profile revision : Z) : registry_result RevisionRow :=
  require (select_revision db profile revision) (HTTPException 404 "AuthorizationRevision not found.").

Definition apply_revision_transition (db : Registry) (profile revision : Z) (destination : string)
    : registry_result (RevisionRow * Registry) :=
  http (fun e => match e with
                 | RevisionNotFoundError => Some (404, "AuthorizationRevision not found.")
                 | InvalidRevisionTransitionError => Some (409, "Invalid revision lifecycle transition.")
                 | _ => None
                 end)
    (transition_revision db profile revision destination).

Definition activate_authorization_revision (db : Registry) (profile revision : Z) : registry_result (RevisionRow * Registry) :=
  apply_revision_transition db profile revision "active".
Definition revoke_authorization_revision (db : Registry) (profile revision : Z) : registry_result (RevisionRow * Registry) :=
  apply_revision_transition db profile revision "revoked".

(** * Pages *)

(** The three [MAX_..._PAGE_SIZE]. *)
Definition MAX_PAGE_SIZE : Z := 100.

Record PageQuery := mkPageQuery { after_id : Z; limit : Z }.

(** The bounds of the query parameters. *)
Definition check_page (q : PageQuery) : registry_result unit :=
  guard_or ((0 <=? after_id q) && (1 <=? limit q) && (limit q <=? MAX_PAGE_SIZE)) RequestValidationError.

Section handlers.
Variable unicode_name : string -> option string.
Variable unicode_search : string -> bool.

(** * Hostname rules *)

(** [_asset_rule_error] and the other clause of the two handlers *)
Definition _asset_rule_error (e : registry_error) : option (Z * string) :=
  match e with
  | AssetHostnameRuleNotFoundError => Some (404, "Asset hostname rule not found.")
  | AssetHostnameRuleImmutableError => Some (409, "Asset hostname rules are immutable for this revision.")
  | AssetHostnameRuleInvalid => Some (422, "Asset hostname rule is invalid.")
  | _ => None
  end.

(** [AssetHostnameRuleCreate] *)
Definition AssetHostnameRuleCreate (rtype pattern : string) : registry_result unit :=
  guard_or (bool_decide (rtype ∈ ["include"; "exclude"]) && (1 <=? str_len pattern) && (str_len pattern <=? 255))
    RequestValidationError.

Definition create_revision_asset_hostname_rule (db : Registry) (new_id profile revision : Z) (rtype pattern : string)
    : registry_result (AssetHostnameRule * Registry) :=
  _ ← AssetHostnameRuleCreate rtype pattern;
  http (fun e => match e with
                 | IntegrityError => Some (409, "Asset hostname rule already exists.")
                 | _ => _asset_rule_error e
                 end)
    (create_asset_hostname_rule unicode_name db new_id profile revision rtype pattern).

Definition list_revision_asset_hostname_rules (db : Registry) (profile revision : Z) : registry_result (list AssetHostnameRule) :=
  _ ← get_authorization_revision db profile revision;
  Ok (rules_of db revision).

Definition delete_revision_asset_hostname_rule (db : Registry) (profile revision rule : Z) : registry_result Registry :=
  http (fun e => match e with AssetHostnameRuleInvalid => None | _ => _asset_rule_error e end)
    (delete_asset_hostname_rule db profile revision rule).

(** * Evaluations *)

Definition _evaluation_revision_or_404 (db : Registry) (profile revision : Z) : registry_result RevisionRow :=
  require (select_revision db profile revision) (HTTPException 404 "AuthorizationRevision not found.").

Definition create_revision_asset_candidate_evaluation (db : Registry) (new_id profile revision : Z) (hostname : string)
    : registry_result (AssetCandidateEvaluation * Registry) :=
  _ ← guard_or ((1 <=? str_len hostname) && (str_len hostname <=? 255)) RequestValidationError;
  http (fun e => match e with
                 | AssetCandidateEvaluationNotFoundError => Some (404, "AuthorizationRevision not found.")
                 | AssetCandidateEvaluationInactiveError =>
                     Some (409, "Asset candidates require an active authorization revision.")
                 | AssetCandidateEvaluationInvalidError => Some (422, "Asset candidate hostname is invalid.")
                 | _ => None
                 end)
    (create_asset_candidate_evaluation unicode_name db new_id profile revision hostname).

Definition list_revision_asset_candidate_evaluations (db : Registry) (profile revision : Z) (q : PageQuery)
    : registry_result (list AssetCandidateEvaluation) :=
  _ ← check_page q;
  _ ← _evaluation_revision_or_404 db profile revision;
  Ok (page evaluation_id (after_id q) (limit q) (List.filter (fun e => evaluation_revision_id e =? revision) (rows (evaluations db)))).

Definition get_revision_asset_candidate_evaluation (db : Registry) (profile revision evaluation : Z)
    : registry_result AssetCandidateEvaluation :=
  _ ← _evaluation_revision_or_404 db profile revision;
  e ← require (evaluations db !! evaluation) (HTTPException 404 "Asset candidate evaluation not found.");
  _ ← guard_or (evaluation_revision_id e =? revision) (HTTPException 404 "Asset candidate evaluation not found.");
  Ok e.

(** * DNS validations *)

Definition _dns_evaluation_or_404 (db : Registry) (profile revision evaluation : Z) : registry_result AssetCandidateEvaluation :=
  _ ← require (select_revision db profile revision) (HTTPException 404 "Asset candidate evaluation not found.");
  e ← require (evaluations db !! evaluation) (HTTPException 404 "Asset candidate evaluation not found.");
  _ ← guard_or (evaluation_revision_id e =? revision) (HTTPException 404 "Asset candidate evaluation not found.");
  Ok e.

(** [AssetCandidateDNSValidationRead] *)
Record AssetCandidateDNSValidationRead := mkValidationRead {
  read_validation : AssetCandidateDNSValidation;
  read_chain : list (Z * string);
  read_addresses : list (Z * string * string)
}.

Definition _dns_validation_response (persisted : PersistedAssetCandidateDNSValidation) : AssetCandidateDNSValidationRead :=
  let '(v, hops, found) := persisted in
  mkValidationRead v ((fun h => (hop_ordinal h, hop_hostname h)) <$> hops)
    ((fun a => (address_ordinal a, address a, address_category a)) <$> found).

Definition create_revision_asset_candidate_dns_validation (initial db : Registry) (new_id profile revision evaluation : Z)
    (r : resolver) : registry_result (AssetCandidateDNSValidationRead * Registry) :=
  persisted ← http (fun e => match e with
      | AssetCandidateDNSValidationNotFoundError => Some (404, "Asset candidate evaluation not found.")
      | AssetCandidateDNSValidationInactiveError =>
          Some (409, "DNS validation requires an active authorization revision.")
      | AssetCandidateDNSValidationIneligibleError =>
          Some (409, "DNS validation requires an included asset candidate.")
      | _ => None
      end)
    (create_asset_candidate_dns_validation unicode_name initial db new_id profile revision evaluation r);
  Ok (_dns_validation_response persisted.1, persisted.2).

Definition list_revision_asset_candidate_dns_validations (db : Registry) (profile revision evaluation : Z) (q : PageQuery)
    : registry_result (list AssetCandidateDNSValidation) :=
  _ ← check_page q;
  _ ← _dns_evaluation_or_404 db profile revision evaluation;
  Ok (page validation_id (after_id q) (limit q)
        (List.filter (fun v => (validation_evaluation_id v =? evaluation) && (validation_revision_id v =? revision))
           (rows (validations db)))).

Definition get_revision_asset_candidate_dns_validation (db : Registry) (profile revision evaluation validation : Z)
    : registry_result AssetCandidateDNSValidationRead :=
  _ ← _dns_evaluation_or_404 db profile revision evaluation;
  v ← require (validations db !! validation) (HTTPException 404 "DNS validation not found.");
  _ ← guard_or ((validation_evaluation_id v =? evaluation) && (validation_revision_id v =? revision))
    (HTTPException 404 "DNS validation not found.");
  let hops := order_by hop_ordinal (List.filter (fun h => hop_validation_id h =? validation) (cname_hops db)) in
  let found := order_by address_ordinal (List.filter (fun a => address_validation_id a =? validation) (addresses db)) in
  Ok (_dns_validation_response (v, hops, found)).

(** * Enrollment decisions *)

Definition _enrollment_validation_or_404 (db : Registry) (profile revision evaluation validation : Z)
    : registry_result AssetCandidateDNSValidation :=
  loaded ← http (fun e => match e with
      | AssetEnrollmentDecisionNotFoundError | AssetEnrollmentDecisionProvenanceError =>
          Some (404, "DNS validation not found.")
      | _ => None
      end)
    (load_exact_dns_validation db profile revision evaluation validation);
  Ok loaded.2.

(** [AssetEnrollmentDecisionCreate] *)
Definition AssetEnrollmentDecisionCreate (decision : string) (reason_code note : option string) : registry_result unit :=
  _ ← guard_or (bool_decide (decision ∈ ["approved"; "rejected"])
                && match reason_code with Some c => bool_decide (c ∈ ENROLLMENT_REASON_CODES) | None => true end
                && match note with Some n => (1 <=? str_len n) && (str_len n <=? 500) | None => true end)
    RequestValidationError;
  match note with
  | Some n => _ ← catch (validate_non_secret_enrollment_note unicode_search n) (fun _ => Raise RequestValidationError); Ok tt
  | None => Ok tt
  end.

Definition create_revision_asset_enrollment_decision (db : Registry) (new_id profile revision evaluation validation : Z)
    (decision : string) (reason_code note : option string) : registry_result (AssetEnrollmentDecision * Registry) :=
  _ ← AssetEnrollmentDecisionCreate decision reason_code note;
  http (fun e => match e with
                 | AssetEnrollmentDecisionNotFoundError => Some (404, "DNS validation not found.")
                 | AssetEnrollmentDecisionProvenanceError => Some (409, "DNS validation provenance is inconsistent.")
                 | _ => None
                 end)
    (create_asset_enrollment_decision unicode_search db new_id profile revision evaluation validation decision
       reason_code note).

Definition list_revision_asset_enrollment_decisions (db : Registry) (profile revision evaluation validation : Z)
    (q : PageQuery) : registry_result (list AssetEnrollmentDecision) :=
  _ ← check_page q;
  _ ← _enrollment_validation_or_404 db profile revision evaluation validation;
  Ok (page enrollment_id (after_id q) (limit q)
        (List.filter (fun e => (enrollment_validation_id e =? validation) && (enrollment_revision_id e =? revision))
           (rows (enrollments db)))).

Definition get_revision_asset_enrollment_decision (db : Registry) (profile revision evaluation validation decision : Z)
    : registry_result AssetEnrollmentDecision :=
  _ ← _enrollment_validation_or_404 db profile revision evaluation validation;
  e ← require (enrollments db !! decision) (HTTPException 404 "Enrollment decision not found.");
  _ ← guard_or ((enrollment_validation_id e =? validation) && (enrollment_revision_id e =? revision))
    (HTTPException 404 "Enrollment decision not found.");
  Ok e.

(** * Targets *)

Definition enrollment_answer (e : registry_error) : option (Z * string) :=
  match e with
  | ApprovedEnrollmentTargetNotFoundError => Some (404, "asset_enrollment_provenance_not_found")
  | ApprovedEnrollmentTargetInactiveRevisionError => Some (409, "asset_enrollment_revision_inactive")
  | ApprovedEnrollmentTargetRejectedError => Some (409, "asset_enrollment_decision_not_approved")
  | ApprovedEnrollmentTargetProvenanceError => Some (409, "asset_enrollment_provenance_inconsistent")
  | ApprovedEnrollmentTargetDNSOutcomeError => Some (409, "asset_enrollment_dns_outcome_ineligible")
  | ApprovedEnrollmentTargetNetworkModeError => Some (409, "asset_enrollment_network_mode_mismatch")
  | ApprovedEnrollmentTargetConfigurationError => Some (409, "asset_enrollment_target_configuration_invalid")
  | ApprovedEnrollmentTargetConflictError | IntegrityError => Some (409, "asset_enrollment_target_conflict")
  | _ => None
  end.

(** The payload schema states the conditions the service tests again. *)
Definition create_target_from_revision_asset_enrollment_decision (db : Registry)
    (new_id profile revision evaluation validation decision : Z) (payload : EnrolledTargetCreate)
    : registry_result (TargetRow * Registry) :=
  _ ← guard_or (valid_configuration payload) RequestValidationError;
  http enrollment_answer
    (create_target_from_approved_enrollment db new_id profile revision evaluation validation decision payload).

(** [create_target]; [base_url_] is the text of the payload's [HttpUrl]. A value longer than
    its column is a [DataError]. *)
Definition create_target (db : Registry) (new_id : Z) (name base_url_ environment mode : string)
    : registry_result (TargetRow * Registry) :=
  _ ← guard_or (bool_decide (mode ∈ NETWORK_MODES)) RequestValidationError;
  _ ← guard_or (max_length 120 name && max_length 500 base_url_ && max_length 50 environment) DataError;
  let row := mkTargetRow (mkTarget new_id None None base_url_ mode true) None name environment in
  table ← add_row (targets db) new_id row;
  Ok (row, with_targets table db).

Definition target_or_404 (db : Registry) (target : Z) : registry_result TargetRow :=
  require (targets db !! target) (HTTPException 404 "Target not found.").

Definition store_target (db : Registry) (id : Z) (row : TargetRow) (t : Target) : TargetRow * Registry :=
  let row := mkTargetRow t (asset_enrollment_decision_id row) (target_name row) (target_environment row) in
  (row, with_targets (<[id := row]> (targets db)) db).

Definition update_target_network_mode (db : Registry) (target : Z) (mode : string) : registry_result (TargetRow * Registry) :=
  _ ← guard_or (bool_decide (mode ∈ NETWORK_MODES)) RequestValidationError;
  row ← target_or_404 db target;
  _ ← guard_or (is_none (asset_enrollment_decision_id row))
    (HTTPException 409 "Enrollment-bound Target network mode is immutable.");
  let t := target_of row in
  Ok (store_target db target row
        (mkTarget (target_id t) (target_authorization_profile_id t) (target_authorization_revision_id t)
           (base_url t) mode (is_enabled t))).

Definition update_target_authorization_profile (db : Registry) (target : Z) (profile : option Z)
    : registry_result (TargetRow * Registry) :=
  row ← target_or_404 db target;
  let t := target_of row in
  _ ← guard_or (is_none (asset_enrollment_decision_id row)) (HTTPException 409 "Enrollment-bound Target profile is immutable.");
  _ ← guard_or (is_none (target_authorization_revision_id t) || bool_decide (profile = target_authorization_profile_id t))
    (HTTPException 409 "Unbind the AuthorizationRevision before changing the AuthorizationProfile.");
  _ ← match profile with
      | Some p => _ ← get_profile_or_404 db p; Ok tt
      | None => Ok tt
      end;
  Ok (store_target db target row
        (mkTarget (target_id t) profile (target_authorization_revision_id t) (base_url t) (network_mode t) (is_enabled t))).

Definition update_target_authorization_revision (db : Registry) (target : Z) (revision : option Z)
    : registry_result (TargetRow * Registry) :=
  row ← target_or_404 db target;
  let t := target_of row in
  _ ← guard_or (is_none (asset_enrollment_decision_id row)) (HTTPException 409 "Enrollment-bound Target revision is immutable.");
  _ ← match revision with
      | Some id =>
          r ← require (revisions db !! id) (HTTPException 404 "AuthorizationRevision not found.");
          profile ← require (target_authorization_profile_id t) (HTTPException 409 "Target has no AuthorizationProfile.");
          _ ← guard_or (row_profile r =? profile) (HTTPException 409 "Revision belongs to another profile.");
          _ ← guard_or (bool_decide (row_state r = "active")) (HTTPException 409 "Only an active revision may be bound.");
          Ok tt
      | None => Ok tt
      end;
  Ok (store_target db target row
        (mkTarget (target_id t) (target_authorization_profile_id t) revision (base_url t) (network_mode t) (is_enabled t))).

(** * Requests *)

(** A request that writes, with the primary key the database gives a new row, and for a DNS
    validation what its first transaction reads. *)
Inductive request : Type :=
| CreateProfile (new_id : Z) (payload : ProfileFields)
| UpdateProfile (profile : Z) (payload : AuthorizationProfileUpdate)
| DeleteProfile (profile : Z)
| CreateRevision (new_id profile : Z)
| ActivateRevision (profile revision : Z)
| RevokeRevision (profile revision : Z)
| CreateRule (new_id profile revision : Z) (rtype pattern : string)
| DeleteRule (profile revision rule : Z)
| CreateEvaluation (new_id profile revision : Z) (hostname : string)
| CreateValidation (initial : Registry) (new_id profile revision evaluation : Z) (r : resolver)
| CreateEnrollment (new_id profile revision evaluation validation : Z) (decision : string) (reason_code note : option string)
| CreateEnrolledTarget (new_id profile revision evaluation validation decision : Z) (payload : EnrolledTargetCreate)
| CreateTarget (new_id : Z) (name base_url_ environment mode : string)
| UpdateNetworkMode (target : Z) (mode : string)
| UpdateTargetProfile (target : Z) (profile : option Z)
| UpdateTargetRevision (target : Z) (revision : option Z).

(** The tables after the request. *)
Definition handle (req : request) (db : Registry) : registry_result Registry :=
  match req with
  | CreateProfile i p => snd <$> create_authorization_profile db i p
  | UpdateProfile i p => snd <$> update_authorization_profile db i p
  | DeleteProfile i => delete_authorization_profile db i
  | CreateRevision i p => snd <$> create_authorization_revision db i p
  | ActivateRevision p r => snd <$> activate_authorization_revision db p r
  | RevokeRevision p r => snd <$> revoke_authorization_revision db p r
  | CreateRule i p r t s => snd <$> create_revision_asset_hostname_rule db i p r t s
  | DeleteRule p r i => delete_revision_asset_hostname_rule db p r i
  | CreateEvaluation i p r h => snd <$> create_revision_asset_candidate_evaluation db i p r h
  | CreateValidation d i p r e res => snd <$> create_revision_asset_candidate_dns_validation d db i p r e res
  | CreateEnrollment i p r e v d c n => snd <$> create_revision_asset_enrollment_decision db i p r e v d c n
  | CreateEnrolledTarget i p r e v d c => snd <$> create_target_from_revision_asset_enrollment_decision db i p r e v d c
  | CreateTarget i n b e m => snd <$> create_target db i n b e m
  | UpdateNetworkMode t m => snd <$> update_target_network_mode db t m
  | UpdateTargetProfile t p => snd <$> update_target_authorization_profile db t p
  | UpdateTargetRevision t r => snd <$> update_target_authorization_revision db t r
  end.

Inductive registry_reachable : Registry -> Prop :=
| registry_start : registry_reachable empty_registry
| registry_step db req db' : registry_reachable db -> handle req db = Ok db' -> registry_reachable db'.
End handlers.
