(* ===== verification/Lifecycle.v ===== *)
(** The registry as a transition system: what each kind of committed transaction changes and
    under which conditions, and the invariant of the tables.

    [lifecycle] is the specification that LifecycleHandlers refines. What a later state keeps
    of an earlier one ([later]) carries the invariant of each table over the changes of the
    others. *)

From stdpp Require Import gmap.
From S2P Require Import Prelude.
From S2P Require Import PyStr.
From S2P Require Import PyFloat.
From S2P Require Import Models.
From S2P Require Import Tables.
From S2P Require Import Destination.
From S2P Require Import Hostnames.
From S2P Require Import AssetDns.
From S2P Require Import EnrollmentNote.
From S2P Require Import Registry.
From S2P Require Import RegistryRoutes.

Open Scope Z_scope.

Section lifecycle.
Variable unicode_name : string -> option string.

(** * What a row says *)

Definition hops_of (db : Registry) (validation : Z) : list AssetCandidateDNSCNAMEHop :=
  List.filter (fun h => hop_validation_id h =? validation) (cname_hops db).
Definition addresses_of (db : Registry) (validation : Z) : list AssetCandidateDNSAddress :=
  List.filter (fun a => address_validation_id a =? validation) (addresses db).

(** The evaluation is the decision over the rules of its revision. *)
Definition evaluated (db : Registry) (e : AssetCandidateEvaluation) : Prop :=
  exists candidate,
    let d := match_asset_candidate unicode_name (evaluation_revision_id e) candidate
               (rules_of db (evaluation_revision_id e)) in
    decided_hostname d = Some (evaluation_hostname e) /\ rule_code d = decision_code e
    /\ matched_include_rule_id d = evaluation_include_rule_id e
    /\ matched_exclude_rule_id d = evaluation_exclude_rule_id e.

(** The validation follows an evaluation that included the hostname, ... *)
Definition validates (db : Registry) (v : AssetCandidateDNSValidation) : Prop :=
  exists e, evaluations db !! validation_evaluation_id v = Some e
    /\ evaluation_revision_id e = validation_revision_id v
    /\ decision_code e = "asset_candidate_included" /\ evaluation_hostname e = validation_hostname v.

(** ... and its rows are what some resolver answered for it. *)
Definition resolved (v : AssetCandidateDNSValidation) (hops : list AssetCandidateDNSCNAMEHop)
    (found : list AssetCandidateDNSAddress) : Prop :=
  exists r, let d := classify_asset_candidate_dns unicode_name r (validation_hostname v) in
    dns_hostname d = Some (validation_hostname v) /\ validation_code v = dns_code d
    /\ validation_terminal v = terminal_hostname d
    /\ hops = hop_rows (validation_id v) (cname_chain d)
    /\ found = address_rows (validation_id v) (dns_addresses d) (dns_categories d).

(** The decision is about the hostname of its validation. *)
Definition decides (db : Registry) (d : AssetEnrollmentDecision) : Prop :=
  enrollment_decision d ∈ ["approved"; "rejected"]
  /\ exists v, validations db !! enrollment_validation_id d = Some v
       /\ validation_revision_id v = enrollment_revision_id d /\ validation_hostname v = enrollment_hostname d.

(** The Target has the origin, the mode and the revision of an approved decision. *)
Definition enrolled (db : Registry) (t : TargetRow) (decision : Z) : Prop :=
  exists d v scheme port,
    enrollments db !! decision = Some d /\ enrollment_decision d = "approved"
    /\ validations db !! enrollment_validation_id d = Some v
    /\ target_authorization_revision_id (target_of t) = Some (enrollment_revision_id d)
    /\ scheme ∈ ["http"; "https"] /\ match port with Some p => 1 <= p <= 65535 | None => True end
    /\ base_url (target_of t) = canonical_enrollment_origin scheme (enrollment_hostname d) port
    /\ _DNS_NETWORK_MODES (validation_code v) = Some (network_mode (target_of t)).

(** The Target's revision belongs to the Target's profile and has left the draft state. *)
Definition bound (db : Registry) (t : TargetRow) : Prop :=
  forall r, target_authorization_revision_id (target_of t) = Some r ->
  exists row, revisions db !! r = Some row /\ row_state row <> "draft"
    /\ target_authorization_profile_id (target_of t) = Some (row_profile row).

(** * The invariant *)

Definition profile_sound (db : Registry) (k : Z) (p : AuthorizationProfile) : Prop := profile_id p = k.
Definition revision_sound (db : Registry) (k : Z) (row : RevisionRow) : Prop :=
  revision_id (revision_of row) = k /\ row_state row ∈ ["draft"; "active"; "superseded"; "revoked"]
  /\ 1 <= revision_number (revision_of row).
Definition rule_sound (db : Registry) (k : Z) (r : AssetHostnameRule) : Prop :=
  rule_id r = k /\ rule_type r ∈ ["include"; "exclude"] /\ rule_pattern (rule_type r) (hostname_pattern r)
  /\ is_Some (revisions db !! rule_revision_id r).
Definition evaluation_sound (db : Registry) (k : Z) (e : AssetCandidateEvaluation) : Prop :=
  evaluation_id e = k /\ evaluated db e
  /\ exists row, revisions db !! evaluation_revision_id e = Some row /\ row_state row <> "draft".
Definition validation_sound (db : Registry) (k : Z) (v : AssetCandidateDNSValidation) : Prop :=
  validation_id v = k /\ validates db v /\ resolved v (hops_of db k) (addresses_of db k).
Definition enrollment_sound (db : Registry) (k : Z) (d : AssetEnrollmentDecision) : Prop :=
  enrollment_id d = k /\ decides db d.
Definition target_sound (db : Registry) (k : Z) (t : TargetRow) : Prop :=
  target_id (target_of t) = k /\ bound db t
  /\ (forall d, asset_enrollment_decision_id t = Some d -> enrolled db t d).

Definition active_in (profile : Z) (row : RevisionRow) : bool :=
  (row_profile row =? profile) && bool_decide (row_state row = "active").
Definition numbered_in (profile number : Z) (row : RevisionRow) : bool :=
  (row_profile row =? profile) && (revision_number (revision_of row) =? number).
Definition enrolled_by (decision : Z) (t : TargetRow) : bool :=
  bool_decide (asset_enrollment_decision_id t = Some decision).
Definition enrolled_at (origin : string) (t : TargetRow) : bool :=
  negb (is_none (asset_enrollment_decision_id t)) && bool_decide (base_url (target_of t) = origin).

(** The foreign keys to profiles. *)
Definition profile_known (db : Registry) : Prop :=
  (forall k row, revisions db !! k = Some row -> is_Some (profiles db !! row_profile row))
  /\ (forall k t p, targets db !! k = Some t -> target_authorization_profile_id (target_of t) = Some p ->
      is_Some (profiles db !! p)).

(** The foreign keys of the children of DNS validations. *)
Definition children_known (db : Registry) : Prop :=
  (forall h, h ∈ cname_hops db -> is_Some (validations db !! hop_validation_id h))
  /\ (forall a, a ∈ addresses db -> is_Some (validations db !! address_validation_id a)).

Record sound (db : Registry) : Prop := mkSound {
  profiles_sound : map_Forall (profile_sound db) (profiles db);
  revisions_sound : map_Forall (revision_sound db) (revisions db);
  rules_sound : map_Forall (rule_sound db) (rules db);
  evaluations_sound : map_Forall (evaluation_sound db) (evaluations db);
  validations_sound : map_Forall (validation_sound db) (validations db);
  enrollments_sound : map_Forall (enrollment_sound db) (enrollments db);
  targets_sound : map_Forall (target_sound db) (targets db);
  sound_profiles : profile_known db;
  sound_children : children_known db;
  sound_active : forall p, at_most_one (active_in p) (revisions db);
  sound_numbers : forall p n, at_most_one (numbered_in p n) (revisions db);
  sound_decisions : forall d, at_most_one (enrolled_by d) (targets db);
  sound_origins : forall o, at_most_one (enrolled_at o) (targets db)
}.

Lemma empty_sound : sound empty_registry.
Proof.
  constructor; try apply map_Forall_empty; try (intros ? ? ? ? ? ?%lookup_empty_Some; done).
  - split; intros; by simplify_map_eq.
  - split; by intros ? ?%elem_of_nil.
  - intros p k1 k2 x1 x2 H. by simplify_map_eq.
  - intros p n k1 k2 x1 x2 H. by simplify_map_eq.
  - intros d k1 k2 x1 x2 H. by simplify_map_eq.
  - intros o k1 k2 x1 x2 H. by simplify_map_eq.
Qed.

(** * What a later state keeps *)

(** A revision changes only its state, and never back to draft. *)
Definition same_revision_row (a b : RevisionRow) : Prop :=
  set_state "draft" a = set_state "draft" b /\ (row_state a <> "draft" -> row_state b <> "draft").

Record later (db db' : Registry) : Prop := mkLater {
  later_revisions : forall k row, revisions db !! k = Some row ->
    exists row', revisions db' !! k = Some row' /\ same_revision_row row row';
  later_rules : forall k row, revisions db !! k = Some row -> row_state row <> "draft" -> rules_of db' k = rules_of db k;
  later_evaluations : evaluations db ⊆ evaluations db';
  later_validations : validations db ⊆ validations db';
  later_children : forall k, is_Some (validations db !! k) ->
    hops_of db' k = hops_of db k /\ addresses_of db' k = addresses_of db k;
  later_enrollments : enrollments db ⊆ enrollments db'
}.

Lemma same_revision_refl row : same_revision_row row row.
Proof. done. Qed.

Lemma later_same db : later db db.
Proof. constructor; try done. intros k row H. by exists row. Qed.

Lemma same_revision_profile a b : same_revision_row a b -> row_profile a = row_profile b.
Proof. intros [H _]. unfold row_profile, set_state in *. by injection H. Qed.

Lemma later_further db1 db2 db3 : later db1 db2 -> later db2 db3 -> later db1 db3.
Proof.
  intros H1 H2. constructor.
  - intros k row (row2 & Hr2 & [E2 D2])%(later_revisions _ _ H1).
    apply (later_revisions _ _ H2) in Hr2 as (row3 & Hr3 & [E3 D3]). exists row3. split; [done|].
    split; [congruence | tauto].
  - intros k row Hr Hd. destruct (later_revisions _ _ H1 k row Hr) as (row2 & Hr2 & [_ D2]).
    rewrite (later_rules _ _ H2 k row2); [by eapply later_rules | done | tauto].
  - etrans; [apply H1 | apply H2].
  - etrans; [apply H1 | apply H2].
  - intros k Hk. destruct (later_children _ _ H1 k Hk) as [<- <-]. apply (later_children _ _ H2).
    destruct Hk as [v Hv]. exists v. eapply lookup_weaken; [done | apply H1].
  - etrans; [apply H1 | apply H2].
Qed.

Lemma rule_later db db' k r : later db db' -> rule_sound db k r -> rule_sound db' k r.
Proof.
  intros Hl (H1 & H2 & H3 & row & Hr). split_and!; [done..|].
  apply (later_revisions _ _ Hl) in Hr as (row' & Hr' & _). by exists row'.
Qed.

Lemma evaluation_later db db' k e : later db db' -> evaluation_sound db k e -> evaluation_sound db' k e.
Proof.
  intros Hl (H1 & (candidate & Hd) & row & Hr & Hs). split_and!; [done | |].
  - exists candidate. by rewrite (later_rules _ _ Hl _ row).
  - apply (later_revisions _ _ Hl) in Hr as (row' & Hr' & _ & Hs'). exists row'. split; [done | tauto].
Qed.

Lemma validation_later db db' k v : later db db' -> validations db !! k = Some v ->
  validation_sound db k v -> validation_sound db' k v.
Proof.
  intros Hl Hk (H1 & (e & He & H2) & H3). split_and!; [done | |].
  - exists e. split; [|done]. eapply lookup_weaken; [done | apply Hl].
  - destruct (later_children _ _ Hl k) as [-> ->]; [by exists v | done].
Qed.

Lemma enrollment_later db db' k d : later db db' -> enrollment_sound db k d -> enrollment_sound db' k d.
Proof.
  intros Hl (H1 & H2 & v & Hv & H3). split; [done|]. split; [done|]. exists v. split; [|done].
  eapply lookup_weaken; [done | apply Hl].
Qed.

Lemma bound_later db db' t : later db db' -> bound db t -> bound db' t.
Proof.
  intros Hl Hb r Hr. destruct (Hb r Hr) as (row & Hrow & Hs & Hp).
  destruct (later_revisions _ _ Hl r row Hrow) as (row' & Hrow' & Hsame). exists row'.
  rewrite <- (same_revision_profile _ _ Hsame). destruct Hsame as [_ Hs']. split_and!; [done | tauto | done].
Qed.

Lemma target_later db db' k t : later db db' -> target_sound db k t -> target_sound db' k t.
Proof.
  intros Hl (H1 & H2 & H3). split_and!; [done | by eapply bound_later |].
  intros d Hd. destruct (H3 d Hd) as (en & v & scheme & port & He & Ha & Hv & ? & ? & ? & ? & ?).
  exists en, v, scheme, port. split_and!; [|done| |done..].
  - eapply lookup_weaken; [done | apply Hl].
  - eapply lookup_weaken; [done | apply Hl].
Qed.

(** * The transitions *)

(** What makes a new row of a table acceptable. *)
Definition new_rule (db : Registry) (r : AssetHostnameRule) : Prop :=
  rule_type r ∈ ["include"; "exclude"] /\ rule_pattern (rule_type r) (hostname_pattern r)
  /\ exists row, revisions db !! rule_revision_id r = Some row /\ row_state row = "draft".
Definition new_evaluation (db : Registry) (e : AssetCandidateEvaluation) : Prop :=
  evaluated db e /\ exists row, revisions db !! evaluation_revision_id e = Some row /\ row_state row = "active".
Definition new_target (db : Registry) (t : TargetRow) : Prop :=
  match asset_enrollment_decision_id t with
  | None => target_authorization_revision_id (target_of t) = None
            /\ target_authorization_profile_id (target_of t) = None
  | Some d =>
      enrolled db t d /\ target_of_decision db d = None
      /\ (forall k t', targets db !! k = Some t' -> base_url (target_of t') <> base_url (target_of t))
      /\ exists r row, target_authorization_revision_id (target_of t) = Some r /\ revisions db !! r = Some row
           /\ row_state row = "active" /\ target_authorization_profile_id (target_of t) = Some (row_profile row)
           /\ is_Some (profiles db !! row_profile row)
  end.

(** A change of the operator's to a Target that no enrollment binds. *)
Definition new_binding (db : Registry) (t t' : TargetRow) : Prop :=
  asset_enrollment_decision_id t = None /\ asset_enrollment_decision_id t' = None
  /\ target_id (target_of t') = target_id (target_of t) /\ base_url (target_of t') = base_url (target_of t)
  /\ bound db t'
  /\ (forall p, target_authorization_profile_id (target_of t') = Some p -> is_Some (profiles db !! p)).

Inductive lifecycle (db : Registry) : Registry -> Prop :=
| life_same : lifecycle db db
| life_profile i p : profile_id p = i -> lifecycle db (with_profiles (<[i := p]> (profiles db)) db)
| life_forget i :
    (forall k row, revisions db !! k = Some row -> row_profile row <> i) ->
    (forall k t, targets db !! k = Some t -> target_authorization_profile_id (target_of t) <> Some i) ->
    lifecycle db (with_profiles (delete i (profiles db)) db)
| life_draft i pid p :
    profiles db !! pid = Some p -> revisions db !! i = None ->
    lifecycle db (with_revisions (<[i := snapshot p i (max_number (revisions db) pid + 1)]> (revisions db)) db)
| life_activate pid i row :
    revisions db !! i = Some row -> row_profile row = pid -> row_state row = "draft" ->
    lifecycle db (with_revisions (<[i := set_state "active" row]> (supersede pid <$> revisions db)) db)
| life_revoke i row :
    revisions db !! i = Some row -> row_state row ∈ ["draft"; "active"] ->
    lifecycle db (with_revisions (<[i := set_state "revoked" row]> (revisions db)) db)
| life_rule r : rules db !! rule_id r = None -> new_rule db r ->
    lifecycle db (with_rules (<[rule_id r := r]> (rules db)) db)
| life_unrule i r row : rules db !! i = Some r -> revisions db !! rule_revision_id r = Some row -> row_state row = "draft" ->
    lifecycle db (with_rules (delete i (rules db)) db)
| life_evaluation e : evaluations db !! evaluation_id e = None -> new_evaluation db e ->
    lifecycle db (with_evaluations (<[evaluation_id e := e]> (evaluations db)) db)
| life_validation v hops found : validations db !! validation_id v = None -> validates db v -> resolved v hops found ->
    lifecycle db (with_validations (<[validation_id v := v]> (validations db)) (cname_hops db ++ hops)
                    (addresses db ++ found) db)
| life_enrollment d : enrollments db !! enrollment_id d = None -> decides db d ->
    lifecycle db (with_enrollments (<[enrollment_id d := d]> (enrollments db)) db)
| life_target t : targets db !! target_id (target_of t) = None -> new_target db t ->
    lifecycle db (with_targets (<[target_id (target_of t) := t]> (targets db)) db)
| life_bind i t t' : targets db !! i = Some t -> new_binding db t t' ->
    lifecycle db (with_targets (<[i := t']> (targets db)) db).

(** ** Rows that stay *)

Lemma set_state_row s row : row_profile (set_state s row) = row_profile row
  /\ row_state (set_state s row) = s
  /\ revision_number (revision_of (set_state s row)) = revision_number (revision_of row)
  /\ revision_id (revision_of (set_state s row)) = revision_id (revision_of row)
  /\ set_state "draft" (set_state s row) = set_state "draft" row.
Proof. done. Qed.

Lemma supersede_row p row : row_profile (supersede p row) = row_profile row
  /\ revision_number (revision_of (supersede p row)) = revision_number (revision_of row)
  /\ revision_id (revision_of (supersede p row)) = revision_id (revision_of row)
  /\ set_state "draft" (supersede p row) = set_state "draft" row
  /\ (row_state (supersede p row) = row_state row
      \/ (row_profile row = p /\ row_state row = "active" /\ row_state (supersede p row) = "superseded"))
  /\ ~ (row_profile row = p /\ row_state (supersede p row) = "active").
Proof.
  unfold supersede. case_if.
  - bool_simpl. split_and!; try done; [by right|]. by intros [_ ?].
  - split_and!; try done; [by left|]. intros [? Ha]. by rewrite H, Ha, Z.eqb_refl, bool_decide_eq_true_2 in E.
Qed.

Lemma hop_rows_owner i chain h : h ∈ hop_rows i chain -> hop_validation_id h = i.
Proof. intros (j & x & -> & _)%elem_of_lookup_imap. done. Qed.
Lemma address_rows_owner i found categories a : a ∈ address_rows i found categories -> address_validation_id a = i.
Proof. intros (j & x & -> & _)%elem_of_lookup_imap. done. Qed.

Lemma filter_drops {A} (p : A -> bool) l : (forall x, x ∈ l -> p x = false) -> List.filter p l = [].
Proof. intros H. apply filter_all_false, Forall_forall. exact H. Qed.
Lemma filter_every {A} (p : A -> bool) l : (forall x, x ∈ l -> p x = true) -> List.filter p l = l.
Proof. intros H. apply filter_all_true, Forall_forall. exact H. Qed.

(** The rules of another revision do not matter, nor does the order of the rows. *)
Lemma rules_of_perm db db' r k : map_Forall (rule_sound db) (rules db) ->
  rows (rules db') ≡ₚ r :: rows (rules db) \/ rows (rules db) ≡ₚ r :: rows (rules db') ->
  rule_revision_id r <> k -> rules_of db' k = rules_of db k.
Proof.
  intros Hs Hp Hk. unfold rules_of.
  assert (Hd : NoDup (rule_id <$> List.filter (fun x => rule_revision_id x =? k) (rows (rules db)))).
  { apply filter_nodup, rows_nodup. intros j x Hj. by apply (Hs j x Hj). }
  symmetry. apply order_by_unique; [|done]. apply Z.eqb_neq in Hk.
  destruct Hp as [Hp | Hp]; rewrite Hp; cbn; by rewrite Hk.
Qed.

(** ** Every transition keeps the earlier rows *)

Lemma later_with_revisions db table :
  (forall k row, revisions db !! k = Some row -> exists row', table !! k = Some row' /\ same_revision_row row row') ->
  later db (with_revisions table db).
Proof. intros H. by constructor. Qed.

Lemma later_with_rules db table :
  (forall k row, revisions db !! k = Some row -> row_state row <> "draft" -> rules_of (with_rules table db) k = rules_of db k) ->
  later db (with_rules table db).
Proof. intros H. constructor; try done. intros k row Hr. by exists row. Qed.

Lemma supersede_same p row : same_revision_row row (supersede p row).
Proof.
  destruct (supersede_row p row) as (_ & _ & _ & Hd & [Hs | (_ & _ & Hs)] & _); split; [done | by rewrite Hs | done | by rewrite Hs].
Qed.

Lemma set_state_same s row : s <> "draft" -> same_revision_row row (set_state s row).
Proof. by split. Qed.

Lemma lifecycle_later db db' : sound db -> lifecycle db db' -> later db db'.
Proof.
  intros Hs [ | | | i pid p Hp Hi | pid i row Hrow Hpid Hst | i row Hrow Hst | r Hi (_ & _ & row & Hrow & Hst)
            | i r row Hi Hrow Hst | e Hi _ | v hops found Hi _ (res & Hres) | d Hi _ | | ];
    try (constructor; try done; by intros k x Hx; exists x).
  - apply later_with_revisions. intros k x Hx. exists x. split; [|done].
    rewrite lookup_insert_ne; [done | congruence].
  - apply later_with_revisions. intros k x Hx. destruct (decide (k = i)) as [-> | Hne].
    + rewrite lookup_insert_eq. eexists. split; [done|]. simplify_eq. by apply set_state_same.
    + rewrite lookup_insert_ne, lookup_fmap, Hx by done. eexists. split; [done|]. apply supersede_same.
  - apply later_with_revisions. intros k x Hx. destruct (decide (k = i)) as [-> | Hne].
    + rewrite lookup_insert_eq. eexists. split; [done|]. simplify_eq. by apply set_state_same.
    + rewrite lookup_insert_ne by done. by exists x.
  - apply later_with_rules. intros k x Hx Hd. eapply rules_of_perm; [apply Hs | left; by apply rows_insert|].
    intros <-. congruence.
  - apply later_with_rules. intros k x Hx Hd. eapply rules_of_perm; [apply Hs | right |].
    + cbn. rewrite <- (insert_delete_id _ _ _ Hi) at 1. apply rows_insert, lookup_delete_eq.
    + intros <-. congruence.
  - constructor; try done; [by intros k x Hx; exists x | by apply insert_subseteq].
  - destruct Hres as (_ & _ & _ & -> & ->).
    constructor; try done; [by intros k x Hx; exists x | by apply insert_subseteq |].
    intros k [x Hk]. assert (Hne : validation_id v <> k) by (intros <-; congruence).
    unfold hops_of, addresses_of. cbn. rewrite !List.filter_app.
    rewrite (filter_drops _ (hop_rows _ _)), (filter_drops _ (address_rows _ _ _)), !app_nil_r; [done | |].
    + intros a ->%address_rows_owner. by apply Z.eqb_neq.
    + intros h ->%hop_rows_owner. by apply Z.eqb_neq.
  - constructor; try done; [by intros k x Hx; exists x | by apply insert_subseteq].
Qed.

(** ** Every transition keeps the invariant *)

Lemma map_Forall_grow {A} (R R' : Z -> A -> Prop) (m : gmap Z A) :
  map_Forall R m -> (forall k x, m !! k = Some x -> R k x -> R' k x) -> map_Forall R' m.
Proof. intros H HR k x Hk. apply HR; [done|]. by apply H. Qed.

Lemma map_Forall_add {A} (R R' : Z -> A -> Prop) (m : gmap Z A) i x :
  map_Forall R m -> (forall k x, m !! k = Some x -> R k x -> R' k x) -> R' i x -> map_Forall R' (<[i := x]> m).
Proof. intros H HR Hx. apply map_Forall_insert_2; [done|]. by eapply map_Forall_grow. Qed.

Lemma max_number_le table k row : table !! k = Some row ->
  revision_number (revision_of row) <= max_number table (row_profile row).
Proof.
  intros Hk. unfold max_number. assert (Hin : row ∈ List.filter (fun x => row_profile x =? row_profile row) (rows table)).
  { apply list_elem_of_In, filter_In. split; [|by apply Z.eqb_eq]. apply list_elem_of_In, elem_of_rows. by exists k. }
  revert Hin. generalize (List.filter (fun x => row_profile x =? row_profile row) (rows table)). intros l.
  induction l as [|y l IH]; intros Hin; [by apply elem_of_nil in Hin|]. cbn.
  apply elem_of_cons in Hin as [<- | Hin]; [lia|]. specialize (IH Hin). lia.
Qed.

Lemma max_number_nonneg table p : 0 <= max_number table p.
Proof. unfold max_number. generalize ((fun row => revision_number (revision_of row)) <$> List.filter (fun row => row_profile row =? p) (rows table)). intros l. induction l; cbn; lia. Qed.

Lemma profiles_kept db db' : sound db -> lifecycle db db' -> map_Forall (profile_sound db') (profiles db').
Proof.
  intros Hs [ | i p Hp | i | | | | | | | | | | ]; try apply Hs.
  - eapply map_Forall_add; [apply Hs | done | done].
  - apply map_Forall_delete, Hs.
Qed.

Lemma revisions_kept db db' : sound db -> lifecycle db db' -> map_Forall (revision_sound db') (revisions db').
Proof.
  intros Hs [ | | | i pid p Hp Hi | pid i row Hrow Hpid Hst | i row Hrow Hst | | | | | | | ]; try apply Hs.
  - eapply map_Forall_add; [apply Hs | done |]. split_and!; [done | set_solver |].
    cbn. pose proof (max_number_nonneg (revisions db) pid). lia.
  - destruct (revisions_sound db Hs i row Hrow) as (H1 & _ & H3).
    apply map_Forall_insert_2; [split_and!; [done | set_solver | done]|].
    intros k x (y & <- & Hy)%lookup_fmap_Some. destruct (revisions_sound db Hs k y Hy) as (Hk & Hstate & Hn).
    destruct (supersede_row pid y) as (_ & H2 & H4 & _ & H5 & _). unfold revision_sound. rewrite H2, H4.
    split_and!; [done | | done]. destruct H5 as [-> | (_ & _ & ->)]; [done | set_solver].
  - destruct (revisions_sound db Hs i row Hrow) as (H1 & _ & H3).
    eapply map_Forall_add; [apply Hs | done | split_and!; [done | set_solver | done]].
Qed.

Lemma rules_kept db db' : sound db -> lifecycle db db' -> map_Forall (rule_sound db') (rules db').
Proof.
  intros Hs Hlife. pose proof (lifecycle_later db db' Hs Hlife) as Hl.
  assert (Hg : forall k x, rules db !! k = Some x -> rule_sound db k x -> rule_sound db' k x).
  { intros k x _. by apply rule_later. }
  destruct Hlife as [ | | | | | | r Hi (H1 & H2 & row & H3 & _) | i r row Hi Hrow Hst | | | | | ];
    try (eapply map_Forall_grow; [apply Hs | done]).
  - eapply map_Forall_add; [apply Hs | done |]. split_and!; [done..|]. by exists row.
  - apply map_Forall_delete. eapply map_Forall_grow; [apply Hs | done].
Qed.

Lemma evaluations_kept db db' : sound db -> lifecycle db db' -> map_Forall (evaluation_sound db') (evaluations db').
Proof.
  intros Hs Hlife. pose proof (lifecycle_later db db' Hs Hlife) as Hl.
  assert (Hg : forall k x, evaluations db !! k = Some x -> evaluation_sound db k x -> evaluation_sound db' k x).
  { intros k x _. by apply evaluation_later. }
  destruct Hlife as [ | | | | | | | | e Hi (H1 & row & Hrow & Hst) | | | | ]; try (eapply map_Forall_grow; [apply Hs | done]).
  eapply map_Forall_add; [apply Hs | done |]. split_and!; [done..|]. exists row. split; [done|]. by rewrite Hst.
Qed.

(** The children of a new parent are the rows added with it. *)
Lemma new_children db table i hops found : children_known db -> validations db !! i = None ->
  (forall h, h ∈ hops -> hop_validation_id h = i) -> (forall a, a ∈ found -> address_validation_id a = i) ->
  hops_of (with_validations table (cname_hops db ++ hops) (addresses db ++ found) db) i = hops
  /\ addresses_of (with_validations table (cname_hops db ++ hops) (addresses db ++ found) db) i = found.
Proof.
  intros [Hh Ha] Hi Hhops Hfound. unfold hops_of, addresses_of. cbn. rewrite !List.filter_app.
  rewrite (filter_drops _ (cname_hops db)), (filter_drops _ (addresses db)), (filter_every _ hops), (filter_every _ found); [done | | | |].
  - intros a Hin. apply Z.eqb_eq. by apply Hfound.
  - intros h Hin. apply Z.eqb_eq. by apply Hhops.
  - intros a Hin%Ha. apply Z.eqb_neq. intros E. rewrite E, Hi in Hin. by destruct Hin.
  - intros h Hin%Hh. apply Z.eqb_neq. intros E. rewrite E, Hi in Hin. by destruct Hin.
Qed.

Lemma validations_kept db db' : sound db -> lifecycle db db' ->
  map_Forall (validation_sound db') (validations db') /\ children_known db'.
Proof.
  intros Hs Hlife. pose proof (lifecycle_later db db' Hs Hlife) as Hl.
  assert (Hg : forall k x, validations db !! k = Some x -> validation_sound db k x -> validation_sound db' k x).
  { intros k x Hx. by apply validation_later. }
  destruct (sound_children db Hs) as [Hh Ha].
  destruct Hlife as [ | | | | | | | | | v hops found Hi Hv Hr | | | ];
    try (split; [eapply map_Forall_grow; [apply Hs | done] | by split]).
  assert (Hhops : forall h, h ∈ hops -> hop_validation_id h = validation_id v).
  { intros h Hin. destruct Hr as (r & _ & _ & _ & -> & _). by eapply hop_rows_owner. }
  assert (Hfound : forall a, a ∈ found -> address_validation_id a = validation_id v).
  { intros a Hin. destruct Hr as (r & _ & _ & _ & _ & ->). by eapply address_rows_owner. }
  split.
  - eapply map_Forall_add; [apply Hs | done |]. split; [done|]. split; [exact Hv|].
    by destruct (new_children db (<[validation_id v := v]> (validations db)) (validation_id v) hops found) as [-> ->].
  - split; cbn.
    + intros h [Hin%Hh | ->%Hhops]%elem_of_app; apply lookup_insert_is_Some'; [by right | by left].
    + intros a [Hin%Ha | ->%Hfound]%elem_of_app; apply lookup_insert_is_Some'; [by right | by left].
Qed.

Lemma enrollments_kept db db' : sound db -> lifecycle db db' -> map_Forall (enrollment_sound db') (enrollments db').
Proof.
  intros Hs Hlife. pose proof (lifecycle_later db db' Hs Hlife) as Hl.
  assert (Hg : forall k x, enrollments db !! k = Some x -> enrollment_sound db k x -> enrollment_sound db' k x).
  { intros k x _. by apply enrollment_later. }
  destruct Hlife as [ | | | | | | | | | | d Hi Hd | | ]; try (eapply map_Forall_grow; [apply Hs | done]).
  eapply map_Forall_add; [apply Hs | done |]. by split.
Qed.

Lemma targets_kept db db' : sound db -> lifecycle db db' -> map_Forall (target_sound db') (targets db').
Proof.
  intros Hs Hlife. pose proof (lifecycle_later db db' Hs Hlife) as Hl.
  assert (Hg : forall k x, targets db !! k = Some x -> target_sound db k x -> target_sound db' k x).
  { intros k x _. by apply target_later. }
  destruct Hlife as [ | | | | | | | | | | | t Hi Hn | i t t' Hi (H1 & H2 & H3 & _ & H5 & _)];
    try (eapply map_Forall_grow; [apply Hs | done]).
  - eapply map_Forall_add; [apply Hs | done |]. split; [done|]. unfold new_target in Hn.
    destruct (asset_enrollment_decision_id t) as [d|] eqn:Ed.
    + destruct Hn as (He & _ & _ & r & row & Hr & Hrow & Hst & Hp & _). split; [|by intros d' [= <-]].
      intros r' Hr'. exists row. rewrite Hr in Hr'. injection Hr' as <-. split_and!; [done | by rewrite Hst | done].
    + destruct Hn as [Hr _]. split; [|by intros d']. intros r Hr'. by rewrite Hr in Hr'.
  - eapply map_Forall_add; [apply Hs | done |]. destruct (targets_sound db Hs i t Hi) as (Hid & _).
    split_and!; [by rewrite H3 | done |]. intros d Hd. by rewrite H2 in Hd.
Qed.

Lemma profile_known_kept db db' : sound db -> lifecycle db db' -> profile_known db'.
Proof.
  intros Hs Hlife. destruct (sound_profiles db Hs) as [Hr Ht].
  destruct Hlife as [ | i p Hp | i Hnr Hnt | i pid p Hp Hi | pid i row Hrow Hpid Hst | i row Hrow Hst | | | | | |
                    t Hi Hn | i t t' Hi (H1 & H2 & H3 & _ & _ & H6)]; try (by split); split; cbn.
  - intros k row Hk. apply lookup_insert_is_Some'. right. by eapply Hr.
  - intros k t q Hk Hq. apply lookup_insert_is_Some'. right. by eapply Ht.
  - intros k row Hk. rewrite lookup_delete_ne; [by eapply Hr|]. intros E. by eapply Hnr.
  - intros k t q Hk Hq. rewrite lookup_delete_ne; [by eapply Ht|]. intros ->. by eapply Hnt.
  - intros k row [[<- <-] | [_ Hk]]%lookup_insert_Some; [|by eapply Hr].
    unfold row_profile. cbn. rewrite (profiles_sound db Hs pid p Hp). by exists p.
  - done.
  - intros k x [[<- <-] | [_ (y & <- & Hy)%lookup_fmap_Some]]%lookup_insert_Some; [exact (Hr _ _ Hrow)|].
    destruct (supersede_row pid y) as [-> _]. by eapply Hr.
  - done.
  - intros k x [[<- <-] | [_ Hk]]%lookup_insert_Some; [exact (Hr _ _ Hrow) | exact (Hr _ _ Hk)].
  - done.
  - done.
  - intros k x q [[<- <-] | [_ Hk]]%lookup_insert_Some Hq; [|by eapply Ht]. unfold new_target in Hn.
    destruct (asset_enrollment_decision_id t) as [d|].
    + destruct Hn as (_ & _ & _ & r & row & _ & _ & _ & Hp & Hk). rewrite Hp in Hq. by injection Hq as <-.
    + destruct Hn as [_ Hp]. by rewrite Hp in Hq.
  - done.
  - intros k x q [[<- <-] | [_ Hk]]%lookup_insert_Some Hq; [by apply H6 | by eapply Ht].
Qed.

(** A table in which the test fails on the new row, or on all the others. *)
Lemma at_most_one_add {A} (p : A -> bool) (m : gmap Z A) i x :
  at_most_one p m -> (p x = true -> forall k y, k <> i -> m !! k = Some y -> p y = false) -> at_most_one p (<[i := x]> m).
Proof.
  intros H Hx k1 k2 y1 y2 [[<- <-] | [N1 H1]]%lookup_insert_Some [[<- <-] | [N2 H2]]%lookup_insert_Some P1 P2; try done.
  - by rewrite (Hx P1 k2 y2 (not_eq_sym N2) H2) in P2.
  - by rewrite (Hx P2 k1 y1 (not_eq_sym N1) H1) in P1.
  - by eapply H.
Qed.

Lemma at_most_one_fmap {A} (p : A -> bool) (f : A -> A) (m : gmap Z A) :
  at_most_one p m -> (forall x, p (f x) = true -> p x = true) -> at_most_one p (f <$> m).
Proof.
  intros H Hf k1 k2 y1 y2 (x1 & <- & H1)%lookup_fmap_Some (x2 & <- & H2)%lookup_fmap_Some P1%Hf P2%Hf. by eapply H.
Qed.

Lemma active_in_true p row : active_in p row = true <-> row_profile row = p /\ row_state row = "active".
Proof. unfold active_in. by rewrite andb_true_iff, Z.eqb_eq, bool_decide_eq_true. Qed.
Lemma numbered_in_true p n row : numbered_in p n row = true <-> row_profile row = p /\ revision_number (revision_of row) = n.
Proof. unfold numbered_in. by rewrite andb_true_iff, !Z.eqb_eq. Qed.

(** Superseding leaves no active revision in the profile. *)
Lemma superseded_inactive pid p (m : gmap Z RevisionRow) k row : (supersede pid <$> m) !! k = Some row ->
  active_in p row = true -> p <> pid.
Proof.
  intros (y & <- & _)%lookup_fmap_Some Ha%active_in_true ->. destruct (supersede_row pid y) as (Hp & _ & _ & _ & _ & Hn).
  apply Hn. by rewrite Hp in Ha.
Qed.

Lemma active_kept db db' : sound db -> lifecycle db db' -> forall p, at_most_one (active_in p) (revisions db').
Proof.
  intros Hs Hlife p. pose proof (sound_active db Hs p) as Ha.
  destruct Hlife as [ | | | i pid q Hp Hi | pid i row Hrow Hpid Hst | i row Hrow Hst | | | | | | | ]; try done.
  - apply at_most_one_add; [done|]. by intros [_ ?]%active_in_true.
  - apply at_most_one_add.
    + apply at_most_one_fmap; [done|]. intros x [H1 H2]%active_in_true. apply active_in_true.
      destruct (supersede_row pid x) as (Hp & _ & _ & _ & [Hx | (_ & _ & Hx)] & _); rewrite Hp in H1; split; congruence.
    + intros [Hp _]%active_in_true k y _ Hy. apply not_true_is_false. intros Hc.
      eapply superseded_inactive; [done | done |]. rewrite <- Hp. exact Hpid.
  - apply at_most_one_add; [done|]. by intros [_ ?]%active_in_true.
Qed.

Lemma numbers_kept db db' : sound db -> lifecycle db db' -> forall p n, at_most_one (numbered_in p n) (revisions db').
Proof.
  intros Hs Hlife p n. pose proof (sound_numbers db Hs p n) as Ha.
  assert (Hsame : forall i row x, revisions db !! i = Some row -> row_profile x = row_profile row ->
    revision_number (revision_of x) = revision_number (revision_of row) -> numbered_in p n x = true ->
    forall k y, k <> i -> revisions db !! k = Some y -> numbered_in p n y = false).
  { intros i row x Hrow E1 E2 Hx k y Hne Hy. apply not_true_is_false. intros Hy'. apply Hne.
    apply (Ha k i y row Hy Hrow Hy'). rewrite numbered_in_true in *. by rewrite <- E1, <- E2. }
  destruct Hlife as [ | | | i pid q Hp Hi | pid i row Hrow Hpid Hst | i row Hrow Hst | | | | | | | ]; try done.
  - apply at_most_one_add; [done|]. intros [Hpr Hn]%numbered_in_true k y _ Hy. apply not_true_is_false.
    unfold row_profile in Hpr. cbn in Hpr, Hn. rewrite (profiles_sound db Hs pid q Hp) in Hpr. subst p n.
    intros [Hpy Hny]%numbered_in_true. pose proof (max_number_le (revisions db) k y Hy) as Hle. rewrite Hpy in Hle. lia.
  - apply at_most_one_add.
    + apply at_most_one_fmap; [done|]. intros x. rewrite !numbered_in_true. by destruct (supersede_row pid x) as (-> & -> & _).
    + intros Hx k y Hne (z & <- & Hz)%lookup_fmap_Some. destruct (supersede_row pid z) as (E1 & E2 & _).
      unfold numbered_in. rewrite E1, E2. by eapply (Hsame i row).
  - apply at_most_one_add; [done|]. intros Hx. by eapply Hsame.
Qed.

Lemma decisions_kept db db' : sound db -> lifecycle db db' ->
  (forall d, at_most_one (enrolled_by d) (targets db')) /\ (forall o, at_most_one (enrolled_at o) (targets db')).
Proof.
  intros Hs Hlife. pose proof (sound_decisions db Hs) as Hd. pose proof (sound_origins db Hs) as Ho.
  destruct Hlife as [ | | | | | | | | | | | t Hi Hn | i t t' Hi (H1 & H2 & _)]; try done.
  - unfold new_target in Hn. split; intros z; (apply at_most_one_add; [done|]); intros Ht k y Hne Hy.
    + unfold enrolled_by in Ht. apply bool_decide_eq_true in Ht. rewrite Ht in Hn. destruct Hn as (_ & Hnone & _).
      by eapply find_rows_none in Hnone.
    + unfold enrolled_at in *. bool_simpl. destruct (asset_enrollment_decision_id t) as [d|]; [|done].
      destruct Hn as (_ & _ & Hbase & _). apply andb_false_iff. right. apply bool_decide_eq_false. subst z. by eapply Hbase.
  - split; intros z; (apply at_most_one_add; [done|]); intros Ht.
    + unfold enrolled_by in Ht. apply bool_decide_eq_true in Ht. by rewrite H2 in Ht.
    + unfold enrolled_at in Ht. by rewrite H2 in Ht.
Qed.

Lemma lifecycle_sound db db' : sound db -> lifecycle db db' -> sound db'.
Proof.
  intros Hs Hl. destruct (validations_kept db db' Hs Hl), (decisions_kept db db' Hs Hl).
  constructor; try done; eauto using profiles_kept, revisions_kept, rules_kept, evaluations_kept, enrollments_kept,
    targets_kept, profile_known_kept, active_kept, numbers_kept.
Qed.
End lifecycle.

Arguments profiles_sound {unicode_name} db _.
Arguments revisions_sound {unicode_name} db _.
Arguments rules_sound {unicode_name} db _.
Arguments evaluations_sound {unicode_name} db _.
Arguments validations_sound {unicode_name} db _.
Arguments enrollments_sound {unicode_name} db _.
Arguments targets_sound {unicode_name} db _.
Arguments sound_profiles {unicode_name} db _.
Arguments sound_children {unicode_name} db _.
Arguments sound_active {unicode_name} db _.
Arguments sound_numbers {unicode_name} db _.
Arguments sound_decisions {unicode_name} db _.
Arguments sound_origins {unicode_name} db _.
Arguments life_same {unicode_name}.
Arguments life_profile {unicode_name}.
Arguments life_forget {unicode_name}.
Arguments life_draft {unicode_name}.
Arguments life_activate {unicode_name}.
Arguments life_revoke {unicode_name}.
Arguments life_rule {unicode_name}.
Arguments life_unrule {unicode_name}.
Arguments life_evaluation {unicode_name}.
Arguments life_validation {unicode_name}.
Arguments life_enrollment {unicode_name}.
Arguments life_target {unicode_name}.
Arguments life_bind {unicode_name}.
