(* ===== verification/LifecycleHandlers.v ===== *)
(** The handlers of RegistryRoutes refine the transition system of Lifecycle: every request
    that succeeds is one of its transitions, so the invariant holds of every state they reach. *)

From stdpp Require Import gmap.
From S2P Require Import Prelude.
From S2P Require Import PyStr.
From S2P Require Import PyFloat.
From S2P Require Import Models.
From S2P Require Import Tables.
From S2P Require Import Destination.
From S2P Require Import Hostnames.
From S2P Require Import AssetDns.
From S2P Require Import EnrollmentNote.
From S2P Require Import Registry.
From S2P Require Import RegistryRoutes.

From S2P Require Import Lifecycle.

Open Scope Z_scope.

(** * Reading a successful transaction *)

Lemma add_row_ok {A} (m m' : gmap Z A) i x : add_row m i x = Ok m' -> m !! i = None /\ m' = <[i := x]> m.
Proof. unfold add_row. destruct (m !! i); [done|]. by intros [= <-]. Qed.

Lemma select_revision_some db p k row : select_revision db p k = Some row <-> revisions db !! k = Some row /\ row_profile row = p.
Proof.
  unfold select_revision. split.
  - intros (x & Hx & H)%bind_Some. case_if_in H; [|done]. injection H as ->. by apply Z.eqb_eq in E.
  - intros [-> <-]. cbn. by rewrite Z.eqb_refl.
Qed.

Lemma http_ok {A} answer (m : registry_result A) a : http answer m = Ok a -> m = Ok a.
Proof. unfold http, catch. destruct m; [done|]. by destruct (answer e) as [[? ?]|]. Qed.

Lemma catch_ok {E F A} (m : result E A) (e : F) a : catch m (fun _ => Raise e) = Ok a -> m = Ok a.
Proof. destruct m; cbn; [by intros [= ->] | done]. Qed.

Lemma snd_ok {A B} (m : registry_result (A * B)) b : snd <$> m = Ok b -> exists a, m = Ok (a, b).
Proof. destruct m as [[a b']|]; [|done]. intros [= <-]. by exists a. Qed.

(** Read off what a successful transaction did. *)
Ltac transaction H :=
  try (apply snd_ok in H as [? H]);
  repeat (result_inv; bool_simpl;
    repeat match goal with
    | E : add_row _ _ _ = Ok _ |- _ => apply add_row_ok in E as [? ->]
    | E : select_revision _ _ _ = Some _ |- _ => apply select_revision_some in E as [? ?]
    | E : http _ _ = Ok _ |- _ => apply http_ok in E
    | E : catch _ (fun _ => Raise _) = Ok _ |- _ => apply catch_ok in E
    | E : (let '(_, _) := ?x in _) = Ok _ |- _ => destruct x
    | E : (_, _) = (_, _) |- _ => injection E; clear E; intros; subst
    end);
  simplify_eq; cbn [fst snd] in *.

Section handlers.
Variable unicode_name : string -> option string.
Variable unicode_search : string -> bool.

Abbreviation sound := (sound unicode_name).
Abbreviation lifecycle := (lifecycle unicode_name).

(** * The handlers make these transitions *)

Lemma create_profile_life db i payload db' : handle unicode_name unicode_search (CreateProfile i payload) db = Ok db' -> lifecycle db db'.
Proof. cbn. unfold create_authorization_profile. intros H. transaction H. by apply life_profile. Qed.

Lemma update_profile_life db i payload db' : sound db ->
  handle unicode_name unicode_search (UpdateProfile i payload) db = Ok db' -> lifecycle db db'.
Proof.
  cbn. unfold update_authorization_profile, get_profile_or_404. intros Hs H. transaction H. apply life_profile.
  cbn. by apply (profiles_sound db Hs).
Qed.

Lemma delete_profile_life db i db' : handle unicode_name unicode_search (DeleteProfile i) db = Ok db' -> lifecycle db db'.
Proof.
  cbn. unfold delete_authorization_profile, get_profile_or_404. intros H. transaction H.
  match goal with E : profile_referenced _ _ = false |- _ => unfold profile_referenced in E end. bool_simpl.
  apply life_forget.
  - intros k row Hk. eapply existsb_rows in Hk; [|done]. by apply Z.eqb_neq.
  - intros k t Hk. eapply existsb_rows in Hk; [|done]. by apply bool_decide_eq_false in Hk.
Qed.

Lemma create_revision_life db i p db' : handle unicode_name unicode_search (CreateRevision i p) db = Ok db' -> lifecycle db db'.
Proof.
  cbn. unfold create_authorization_revision, create_revision. intros H. transaction H. by apply life_draft.
Qed.

Lemma transition_life db p k destination x db' : transition_revision db p k destination = Ok (x, db') -> lifecycle db db'.
Proof.
  unfold transition_revision. intros H. transaction H. head_if H.
  - transaction H. by apply life_activate.
  - head_if H; [|done]. transaction H. by apply life_revoke.
Qed.

Lemma create_rule_life db i p k rtype pattern db' :
  handle unicode_name unicode_search (CreateRule i p k rtype pattern) db = Ok db' -> lifecycle db db'.
Proof.
  cbn. unfold create_revision_asset_hostname_rule, create_asset_hostname_rule, AssetHostnameRuleCreate, _lock_draft_revision,
    lift_hostname. intros H. transaction H.
  match goal with E : normalize_hostname_pattern _ _ _ = Ok ?n |- _ =>
    apply normalize_pattern_sound in E as [Ht Hp]; apply (life_rule db (mkRule i k rtype n)) end; [done|].
  split_and!; [done | done | by eexists].
Qed.

Lemma delete_rule_life db p k i db' : handle unicode_name unicode_search (DeleteRule p k i) db = Ok db' -> lifecycle db db'.
Proof.
  cbn. unfold delete_revision_asset_hostname_rule, delete_asset_hostname_rule, _lock_draft_revision. intros H. transaction H.
  by eapply life_unrule.
Qed.

Lemma create_evaluation_life db i p k hostname db' :
  handle unicode_name unicode_search (CreateEvaluation i p k hostname) db = Ok db' -> lifecycle db db'.
Proof.
  cbn. unfold create_revision_asset_candidate_evaluation, create_asset_candidate_evaluation. intros H. transaction H.
  set (d := match_asset_candidate _ _ _ _) in *.
  match goal with E : decided_hostname _ = Some ?n |- _ =>
    apply (life_evaluation db (mkEvaluation i k n (rule_code d) (matched_include_rule_id d) (matched_exclude_rule_id d) "operator_supplied"))
  end; [done|].
  split; [by exists hostname | by eexists].
Qed.

Lemma load_exact_ok db p k i row e : _load_exact db p k i = Ok (row, e) ->
  evaluations db !! i = Some e /\ evaluation_revision_id e = k /\ decision_code e = "asset_candidate_included".
Proof. unfold _load_exact. intros H. transaction H. done. Qed.

Lemma create_validation_life initial db i p k e r db' :
  handle unicode_name unicode_search (CreateValidation initial i p k e r) db = Ok db' -> lifecycle db db'.
Proof.
  cbn. unfold create_revision_asset_candidate_dns_validation, create_asset_candidate_dns_validation, persist_validation.
  intros H. transaction H. rename select (_load_exact db _ _ _ = Ok _) into Hload.
  match type of Hload with _ = Ok ?x => destruct x as [row ev] end. cbn [snd] in *.
  set (d := classify_asset_candidate_dns _ _ _) in *. apply load_exact_ok in Hload as (He & Hrev & Hcode).
  apply (life_validation db (mkValidation i e k (dns_code d) (evaluation_hostname ev) (terminal_hostname d))); [done | |].
  - by exists ev.
  - by exists r.
Qed.

Lemma load_exact_dns_ok db p k i j e v : load_exact_dns_validation db p k i j = Ok (e, v) ->
  validations db !! j = Some v /\ validation_revision_id v = k.
Proof. unfold load_exact_dns_validation. intros H. transaction H. done. Qed.

Lemma create_enrollment_life db i p k e v decision reason note db' :
  handle unicode_name unicode_search (CreateEnrollment i p k e v decision reason note) db = Ok db' -> lifecycle db db'.
Proof.
  cbn. unfold create_revision_asset_enrollment_decision, create_asset_enrollment_decision, AssetEnrollmentDecisionCreate.
  intros H. transaction H. rename select (load_exact_dns_validation db _ _ _ _ = Ok _) into Hload.
  match type of Hload with _ = Ok ?x => destruct x as [ev dv] end. cbn [snd] in *.
  apply load_exact_dns_ok in Hload as [Hv Hk].
  match goal with |- context [mkEnrollment _ _ _ _ _ _ ?n] =>
    apply (life_enrollment db (mkEnrollment i v k decision (validation_hostname dv) reason n)) end; [done|].
  split; [done|]. by exists dv.
Qed.

Lemma load_provenance_ok db p k e v d dv en : load_provenance db p k e v d = Ok (dv, en) ->
  is_Some (profiles db !! p) /\ (exists row, revisions db !! k = Some row /\ row_profile row = p /\ row_state row = "active")
  /\ validations db !! enrollment_validation_id en = Some dv /\ enrollments db !! d = Some en
  /\ enrollment_revision_id en = k /\ enrollment_decision en = "approved".
Proof. unfold load_provenance. intros H. transaction H. split_and!; eauto. Qed.

Lemma create_enrolled_life db i p k e v d payload db' :
  handle unicode_name unicode_search (CreateEnrolledTarget i p k e v d payload) db = Ok db' -> lifecycle db db'.
Proof.
  cbn. unfold create_target_from_revision_asset_enrollment_decision, create_target_from_approved_enrollment.
  intros H. transaction H. rename select (load_provenance _ _ _ _ _ _ = Ok _) into Hload.
  rename select (valid_configuration _ = true) into Hc. rename select (_DNS_NETWORK_MODES _ = _) into Hmode.
  match type of Hload with _ = Ok (?x, ?y) => rename x into dv, y into en end.
  apply load_provenance_ok in Hload as (Hp & (row & Hrow & Hpr & Hst) & Hv & Hd & Hk & Ha).
  subst p k.
  destruct (target_of_decision db d) as [existing|] eqn:Eown.
  - head_if H; [|done]. transaction H. apply life_same.
  - transaction H. unfold valid_configuration in Hc. bool_simpl.
    apply (life_target db (mkTargetRow (mkTarget i (Some (row_profile row)) (Some (enrollment_revision_id en))
      (canonical_enrollment_origin (create_scheme payload) (enrollment_hostname en) (create_port payload))
      (create_network_mode payload) true) (Some d) (create_name payload) (create_environment payload))); [done|].
    split_and!; [|done| |].
    + exists en, dv, (create_scheme payload), (create_port payload). split_and!; try done.
      destruct (create_port payload); [by bool_simpl|done].
    + intros j t Hj Hb. rename select (existsb _ _ = false) into Hex. eapply existsb_rows in Hex; [|done].
      apply bool_decide_eq_false in Hex. apply Hex. rewrite Hb. left.
    + by exists (enrollment_revision_id en), row.
Qed.

Lemma create_target_life db i name url environment mode db' :
  handle unicode_name unicode_search (CreateTarget i name url environment mode) db = Ok db' -> lifecycle db db'.
Proof.
  cbn. unfold create_target. intros H. transaction H.
  apply (life_target db (mkTargetRow (mkTarget i None None url mode true) None name environment)); [done|]. by split.
Qed.

Lemma bind_life db i t target' : sound db -> targets db !! i = Some t -> asset_enrollment_decision_id t = None ->
  target_id target' = target_id (target_of t) -> base_url target' = base_url (target_of t) ->
  (forall r, target_authorization_revision_id target' = Some r ->
   exists row, revisions db !! r = Some row /\ row_state row <> "draft"
     /\ target_authorization_profile_id target' = Some (row_profile row)) ->
  (forall p, target_authorization_profile_id target' = Some p -> is_Some (profiles db !! p)) ->
  lifecycle db (store_target db i t target').2.
Proof.
  intros Hs Ht Hd Hid Hurl Hb Hp. apply (life_bind db i t); [done|]. cbn. by split_and!.
Qed.

Lemma update_mode_life db i mode db' : sound db ->
  handle unicode_name unicode_search (UpdateNetworkMode i mode) db = Ok db' -> lifecycle db db'.
Proof.
  cbn. unfold update_target_network_mode, target_or_404. intros Hs H. transaction H.
  rename select (targets db !! i = Some _) into Ht. match type of Ht with _ = Some ?x => rename x into t end.
  destruct (targets_sound db Hs i t Ht) as (Hid & Hb & _).
  match goal with |- lifecycle db (with_targets (<[_ := mkTargetRow ?t' _ _ _]> _) _) => apply (bind_life db i t t') end; try done.
  - by destruct (asset_enrollment_decision_id t).
  - intros q Hq. by eapply (proj2 (sound_profiles db Hs)).
Qed.

Lemma update_target_profile_life db i profile db' : sound db ->
  handle unicode_name unicode_search (UpdateTargetProfile i profile) db = Ok db' -> lifecycle db db'.
Proof.
  cbn. unfold update_target_authorization_profile, target_or_404, get_profile_or_404. intros Hs H. transaction H.
  rename select (targets db !! i = Some _) into Ht. match type of Ht with _ = Some ?x => rename x into t end.
  destruct (targets_sound db Hs i t Ht) as (Hid & Hb & _).
  match goal with |- lifecycle db (with_targets (<[_ := mkTargetRow ?t' _ _ _]> _) _) => apply (bind_life db i t t') end; try done.
  - by destruct (asset_enrollment_decision_id t).
  - cbn. intros r Hr. rename select (_ || _ = true) into Hor. rewrite Hr in Hor. cbn in Hor. apply bool_decide_eq_true in Hor as ->.
    by apply Hb.
  - cbn. intros q ->. rename select (_ ≫= _ = Ok _) into Hreq. transaction Hreq. by eexists.
Qed.

Lemma update_target_revision_life db i revision db' : sound db ->
  handle unicode_name unicode_search (UpdateTargetRevision i revision) db = Ok db' -> lifecycle db db'.
Proof.
  cbn. unfold update_target_authorization_revision, target_or_404. intros Hs H. transaction H.
  rename select (targets db !! i = Some _) into Ht. match type of Ht with _ = Some ?x => rename x into t end.
  destruct (targets_sound db Hs i t Ht) as (Hid & Hb & _).
  match goal with |- lifecycle db (with_targets (<[_ := mkTargetRow ?t' _ _ _]> _) _) => apply (bind_life db i t t') end; try done.
  - by destruct (asset_enrollment_decision_id t).
  - cbn. intros r ->. rename select (_ ≫= _ = Ok _) into Hreq. transaction Hreq.
    eexists. split; [done|]. split; [|done]. congruence.
  - intros q Hq. by eapply (proj2 (sound_profiles db Hs)).
Qed.

Create HintDb lifecycle.
#[local] Hint Resolve create_profile_life update_profile_life delete_profile_life create_revision_life create_rule_life
  delete_rule_life create_evaluation_life create_validation_life create_enrollment_life create_enrolled_life
  create_target_life update_mode_life update_target_profile_life update_target_revision_life : lifecycle.

(** Every successful request is a transition of the specification. *)
Lemma handled_lifecycle req db db' : sound db -> handle unicode_name unicode_search req db = Ok db' -> lifecycle db db'.
Proof.
  intros Hs H. destruct req; eauto with lifecycle.
  - cbn in H. unfold activate_authorization_revision, apply_revision_transition in H. transaction H. by eapply transition_life.
  - cbn in H. unfold revoke_authorization_revision, apply_revision_transition in H. transaction H. by eapply transition_life.
Qed.

Lemma reachable_sound db : registry_reachable unicode_name unicode_search db -> sound db.
Proof.
  induction 1 as [|db req db' _ IH H]; [apply empty_sound|].
  eapply lifecycle_sound; [done|]. by eapply handled_lifecycle.
Qed.
End handlers.
