(* ===== verification/RegistrySafety.v ===== *)
(** What the registry of authorizations guarantees: the provenance of an enrolled Target, one
    active revision per profile, the order of the lifecycle, and the answers of the handlers. *)

From stdpp Require Import gmap.
From S2P Require Import Prelude.
From S2P Require Import PyStr.
From S2P Require Import PyFloat.
From S2P Require Import PyJson.
From S2P Require Import PyIp.
From S2P Require Import Models.
From S2P Require Import ScopePolicy.
From S2P Require Import Tables.
From S2P Require Import Destination.
From S2P Require Import Hostnames.
From S2P Require Import AssetDns.
From S2P Require Import EnrollmentNote.
From S2P Require Import Registry.
From S2P Require Import RegistryRoutes.
From S2P Require Import Lifecycle.
From S2P Require Import LifecycleHandlers.

Open Scope Z_scope.

Section safety.
Variable unicode_name : string -> option string.
Variable unicode_search : string -> bool.

Abbreviation reachable := (registry_reachable unicode_name unicode_search).

(** * The provenance of an enrolled Target *)

(** A rule of the revision includes the hostname, and none excludes it. *)
Definition in_scope_host (db : Registry) (revision : Z) (h : string) : Prop :=
  (exists i rule, rules db !! i = Some rule /\ rule_revision_id rule = revision /\ rule_type rule = "include"
     /\ covers (hostname_pattern rule) h)
  /\ forall i rule, rules db !! i = Some rule -> rule_revision_id rule = revision -> rule_type rule = "exclude" ->
     ~ covers (hostname_pattern rule) h.

(** The addresses the mode admits. *)
Definition mode_address (mode : string) (a : ip_address) : Prop :=
  (mode = PRIVATE_LOCAL -> local_address a)
  /\ (mode = EXTERNAL_PUBLIC_AUTHORIZED -> ~ local_address a /\ ~ special_address a).

(** The stored addresses are a resolution of the hostname, all of them admitted. *)
Definition resolution_recorded (db : Registry) (v : AssetCandidateDNSValidation) (mode : string) : Prop :=
  exists r l, l <> []
    /\ resolved_to unicode_name r (validation_hostname v) (classify_asset_candidate_dns unicode_name r (validation_hostname v)) l
    /\ address <$> addresses_of db (validation_id v) = compressed <$> l
    /\ Forall (mode_address mode) l.

(** What stands behind a Target. *)
Definition authorized (db : Registry) (t : TargetRow) (decision : Z) : Prop :=
  exists en v ev row scheme port,
    enrollments db !! decision = Some en /\ enrollment_decision en = "approved"
    /\ validations db !! enrollment_validation_id en = Some v
    /\ evaluations db !! validation_evaluation_id v = Some ev
    /\ revisions db !! evaluation_revision_id ev = Some row /\ row_state row <> "draft"
    /\ target_authorization_revision_id (target_of t) = Some (evaluation_revision_id ev)
    /\ target_authorization_profile_id (target_of t) = Some (row_profile row)
    /\ scheme ∈ ["http"; "https"]
    /\ base_url (target_of t) = canonical_enrollment_origin scheme (validation_hostname v) port
    /\ in_scope_host db (evaluation_revision_id ev) (validation_hostname v)
    /\ resolution_recorded db v (network_mode (target_of t)).

Lemma elem_of_rules_of db k r : r ∈ rules_of db k <-> (exists i, rules db !! i = Some r) /\ rule_revision_id r = k.
Proof.
  unfold rules_of. rewrite order_by_perm, list_elem_of_In, filter_In, <- list_elem_of_In, elem_of_rows, Z.eqb_eq. done.
Qed.

Lemma rules_of_patterns db k : sound unicode_name db ->
  Forall (fun r => rule_pattern (rule_type r) (hostname_pattern r)) (rules_of db k).
Proof.
  intros Hs. apply Forall_forall. intros r [[i Hi] _]%elem_of_rules_of. by destruct (rules_sound db Hs i r Hi) as (_ & _ & ? & _).
Qed.

(** An evaluation that included the hostname tells what the rules say now. *)
Lemma included_in_scope db k ev : sound unicode_name db -> evaluations db !! k = Some ev ->
  decision_code ev = "asset_candidate_included" -> in_scope_host db (evaluation_revision_id ev) (evaluation_hostname ev).
Proof.
  intros Hs Hk Hc. destruct (evaluations_sound db Hs k ev Hk) as (_ & (candidate & Hh & Hcode & _) & _).
  pose proof (match_decides unicode_name (evaluation_revision_id ev) candidate _
                (rules_of_patterns db (evaluation_revision_id ev) Hs)) as Hd.
  rewrite Hc in Hcode. unfold rules_decide in Hd.
  destruct (_normalize_dns_hostname unicode_name candidate) as [h|]; [|by rewrite Hd in Hcode].
  destruct Hd as (included & excluded & Hi & He & Hdh & _ & _ & _ & Hcd). rewrite Hh in Hdh. injection Hdh as ->.
  rewrite Hcode in Hcd. destruct excluded as [x|]; [done|]. destruct included as [x|]; [|done]. split.
  - destruct Hi as [(Hin & Hrev & Ht & Hcov) _]. apply elem_of_rules_of in Hin as [[i Hi] _]. by exists i, x.
  - intros i rule Hi' Hrev Ht Hcov. apply (He rule). split_and!; [|done..]. apply elem_of_rules_of. split; [by exists i | done].
Qed.

Lemma address_rows_text i found categories : length categories = length found ->
  address <$> address_rows i found categories = found.
Proof.
  unfold address_rows. intros Hlen. rewrite fmap_imap. rewrite <- (fst_zip found categories) at 2 by lia.
  rewrite <- imap_const. by apply imap_ext.
Qed.

Lemma validation_recorded db k v mode : sound unicode_name db -> validations db !! k = Some v ->
  _DNS_NETWORK_MODES (validation_code v) = Some mode -> resolution_recorded db v mode.
Proof.
  intros Hs Hk Hm. destruct (validations_sound db Hs k v Hk) as (Hid & _ & r & Hh & Hcode & _ & _ & Hfound).
  rewrite Hcode in Hm. unfold _DNS_NETWORK_MODES in Hm.
  destruct (classification_storable unicode_name r (validation_hostname v)) as (_ & _ & _ & Hlen).
  destruct (classification_sound unicode_name r (validation_hostname v)) as [Hpub Hpriv].
  assert (Haddr : forall l, resolved_to unicode_name r (validation_hostname v)
      (classify_asset_candidate_dns unicode_name r (validation_hostname v)) l ->
    address <$> addresses_of db (validation_id v) = compressed <$> l).
  { intros l (n & terminal & _ & _ & _ & _ & _ & <- & _). rewrite Hid, Hfound. by apply address_rows_text. }
  head_if Hm; bool_simpl.
  - injection Hm as <-. destruct Hpriv as (l & Hne & Hr & Hl); [done|]. exists r, l. split_and!; [done | done | by apply Haddr|].
    eapply Forall_impl; [done|]. by intros a Ha.
  - head_if Hm; [|done]. bool_simpl. injection Hm as <-. destruct Hpub as (l & Hne & Hr & Hl); [done|].
    exists r, l. split_and!; [done | done | by apply Haddr|]. eapply Forall_impl; [done|]. by intros a Ha.
Qed.

(** C15: Behind every enrolled Target of every state the handlers reach stands its whole
    provenance: an approved decision about a DNS validation whose recorded addresses, every one
    the resolver gave, are admitted by the Target's network mode, made for a hostname that a rule
    of the Target's revision includes and no rule of it excludes; its base URL is the origin of
    that hostname, its revision is no draft and belongs to the Target's profile. *)
Theorem enrolled_target_authorized db k t decision :
  reachable db -> targets db !! k = Some t -> asset_enrollment_decision_id t = Some decision -> authorized db t decision.
Proof.
  intros Hs%reachable_sound Hk Hd. destruct (targets_sound db Hs k t Hk) as (_ & Hb & He).
  destruct (He decision Hd) as (en & v & scheme & port & Hen & Ha & Hv & Hrev & Hscheme & _ & Hurl & Hmode).
  destruct (Hb _ Hrev) as (row & Hrow & Hst & Hprof).
  destruct (enrollments_sound db Hs _ _ Hen) as (_ & _ & v' & Hv' & Hvrev & Hvhost). simplify_eq.
  destruct (validations_sound db Hs _ _ Hv) as (_ & (ev & Hev & Herev & Hcode & Hehost) & _).
  exists en, v, ev, row, scheme, port. rewrite Herev, Hvrev, Hvhost. split_and!; try done.
  - rewrite <- Hvrev, <- Herev, <- Hvhost, <- Hehost. by eapply included_in_scope.
  - by eapply validation_recorded.
Qed.

(** * The lifecycle of revisions *)

(** C16: In every reachable state a profile has at most one active revision and no two with the
    same number, a decision and an enrolled origin have at most one Target, and every Target's
    revision belongs to its profile. *)
Theorem registry_unique db : reachable db ->
  (forall p, at_most_one (active_in p) (revisions db)) /\ (forall p n, at_most_one (numbered_in p n) (revisions db))
  /\ (forall d, at_most_one (enrolled_by d) (targets db)) /\ (forall o, at_most_one (enrolled_at o) (targets db))
  /\ (forall k t, targets db !! k = Some t -> bound db t).
Proof.
  intros Hs%reachable_sound. split_and!; apply Hs.
Qed.

(** C17: The handlers refine the specified lifecycle: whatever a request does in a reachable
    state is one of its transitions. Evidence is never rewritten: revisions keep every
    column but their state and do not return to draft, the rules of a revision that left draft
    stay, and evaluations, DNS validations with their children and decisions stay. *)
Theorem requests_refine req db db' : reachable db -> handle unicode_name unicode_search req db = Ok db' ->
  lifecycle unicode_name db db' /\ later db db'.
Proof.
  intros Hs%reachable_sound H. assert (Hl : lifecycle unicode_name db db') by (by eapply handled_lifecycle).
  split; [done|]. by eapply lifecycle_later.
Qed.

(** The state of a revision after a request. *)
Definition has_state (db : Registry) (k : Z) (s : string) : Prop :=
  exists row, revisions db !! k = Some row /\ row_state row = s.

Lemma profile_of_revision db k row : sound unicode_name db -> revisions db !! k = Some row ->
  exists p, profiles db !! row_profile row = Some p.
Proof. intros Hs Hk. by apply (proj1 (sound_profiles db Hs) k row). Qed.

Lemma one_active_intro table p : at_most_one (active_in p) table -> one_active table p = true.
Proof. intros H. apply Nat.leb_le, count_rows_one. exact H. Qed.

(** The unique index on active revisions lets both flushes of an activation pass. *)
Lemma activation_unique db k row : sound unicode_name db -> revisions db !! k = Some row -> row_state row = "draft" ->
  let flushed := supersede (row_profile row) <$> revisions db in
  at_most_one (active_in (row_profile row)) flushed
  /\ at_most_one (active_in (row_profile row)) (<[k := set_state "active" row]> flushed).
Proof.
  intros Hs Hk Hst flushed. split.
  - intros k1 k2 x1 x2 H1 _ P1 _. by destruct (superseded_inactive _ _ _ _ _ H1 P1).
  - assert (Hlife : lifecycle unicode_name db (with_revisions (<[k := set_state "active" row]> flushed) db)) by (by apply life_activate).
    exact (active_kept unicode_name db _ Hs Hlife _).
Qed.

(** C18: Activation and revocation are always available where the lifecycle allows them: in a
    reachable state a draft can be activated by its profile, which leaves it the only active
    revision, and a draft or active revision can be revoked; no request can be blocked by the
    unique index on active revisions. *)
Theorem transitions_available db k row : reachable db -> revisions db !! k = Some row ->
  (row_state row = "draft" ->
   exists db', handle unicode_name unicode_search (ActivateRevision (row_profile row) k) db = Ok db'
     /\ has_state db' k "active"
     /\ forall j other, revisions db' !! j = Some other -> row_profile other = row_profile row -> row_state other = "active" -> j = k)
  /\ (row_state row = "draft" \/ row_state row = "active" ->
      exists db', handle unicode_name unicode_search (RevokeRevision (row_profile row) k) db = Ok db'
        /\ has_state db' k "revoked").
Proof.
  intros Hr Hk. pose proof (reachable_sound _ _ _ Hr) as Hs. destruct (profile_of_revision db k row Hs Hk) as [p Hp].
  assert (Hsel : select_revision db (row_profile row) k = Some row) by (by apply select_revision_some).
  split.
  - intros Hst. set (table := <[k := set_state "active" row]> (supersede (row_profile row) <$> revisions db)).
    destruct (activation_unique db k row Hs Hk Hst) as [Hf Ha]. fold table in Ha.
    assert (Hself : table !! k = Some (set_state "active" row)) by (apply lookup_insert_eq).
    exists (with_revisions table db). split_and!.
    + cbn. unfold activate_authorization_revision, apply_revision_transition, transition_revision. rewrite Hp, Hsel. cbn.
      rewrite (bool_decide_eq_true_2 _ Hst). cbn. rewrite (one_active_intro _ _ Hf). cbn. fold table.
      by rewrite (one_active_intro _ _ Ha).
    + by eexists.
    + intros j other Hj Hpj Hsj. apply (Ha j k other (set_state "active" row) Hj Hself); by apply (proj2 (active_in_true _ _)).
  - intros Hst. assert (Hin : row_state row ∈ ["draft"; "active"]) by (destruct Hst as [-> | ->]; set_solver).
    eexists. split.
    + cbn. unfold revoke_authorization_revision, apply_revision_transition, transition_revision. rewrite Hp, Hsel. cbn.
      rewrite (bool_decide_eq_true_2 _ Hin). cbn. done.
    + eexists. cbn. rewrite lookup_insert_eq. done.
Qed.

(** * Reading back *)

(** What the handlers of one revision's evaluations answer to a client that follows the pages. *)
Fixpoint read_evaluations (fuel : nat) (db : Registry) (profile revision after_ limit_ : Z)
    : option (registry_result (list AssetCandidateEvaluation)) :=
  match fuel with
  | O => None
  | S fuel' =>
      match list_revision_asset_candidate_evaluations db profile revision (mkPageQuery after_ limit_) with
      | Raise e => Some (Raise e)
      | Ok [] => Some (Ok [])
      | Ok (x :: got) =>
          rest ← read_evaluations fuel' db profile revision (evaluation_id (last_of x got)) limit_;
          Some (rest ← rest; Ok (x :: got ++ rest))
      end
  end.

Definition evaluations_of (db : Registry) (revision : Z) : list AssetCandidateEvaluation :=
  List.filter (fun e => evaluation_revision_id e =? revision) (rows (evaluations db)).

Lemma page_above {A} (key : A -> Z) a n l x : x ∈ page key a n l -> a < key x.
Proof.
  intros (i & Hi & _)%elem_of_take. apply list_elem_of_lookup_2 in Hi. rewrite order_by_perm in Hi.
  apply list_elem_of_In, filter_In in Hi as [_ Hi]. by apply Z.ltb_lt.
Qed.

Lemma last_of_elem {A} (x : A) l : last_of x l ∈ x :: l.
Proof. revert x. induction l as [|y l IH]; intros x; cbn; [left | right; apply IH]. Qed.

(** The handler gives the pages of the table. *)
Lemma read_evaluations_pages fuel db profile revision a n row : select_revision db profile revision = Some row ->
  0 <= a -> 1 <= n <= MAX_PAGE_SIZE ->
  read_evaluations fuel db profile revision a n = Ok <$> read_pages evaluation_id fuel a n (evaluations_of db revision).
Proof.
  intros Hrow Ha Hn. revert a Ha. induction fuel as [|fuel IH]; intros a Ha; [done|].
  cbn [read_evaluations read_pages]. unfold list_revision_asset_candidate_evaluations, check_page, _evaluation_revision_or_404.
  cbn [after_id limit]. rewrite Hrow. rewrite (proj2 (Z.leb_le 0 a)), (proj2 (Z.leb_le 1 n)), (proj2 (Z.leb_le n _)) by lia.
  cbn [andb guard_or require mbind result_bind]. fold (evaluations_of db revision).
  destruct (page evaluation_id a n (evaluations_of db revision)) as [|x got] eqn:Ep; [done|].
  assert (Hlast : a < evaluation_id (last_of x got)).
  { apply (page_above evaluation_id a n (evaluations_of db revision)). rewrite Ep. apply last_of_elem. }
  rewrite IH by lia. by destruct (read_pages _ _ _ _ _).
Qed.

(** A client that follows the pages of a revision's evaluations, asking each time for what
    comes after the last id it has seen, comes to an empty page whatever the page size, and has
    then read every evaluation of the revision above the start exactly once, in the order of
    their ids. *)
Theorem evaluation_pages_complete fuel db profile revision start size row :
  reachable db -> select_revision db profile revision = Some row -> 0 <= start -> 1 <= size <= MAX_PAGE_SIZE ->
  (length (evaluations_of db revision) < fuel)%nat ->
  read_evaluations fuel db profile revision start size
  = Some (Ok (order_by evaluation_id (List.filter (fun e => start <? evaluation_id e) (evaluations_of db revision)))).
Proof.
  intros Hs%reachable_sound Hrow Hst Hsize Hf. rewrite (read_evaluations_pages _ _ _ _ _ _ row) by done.
  rewrite read_pages_spec; [done | lia | |].
  - apply filter_nodup, rows_nodup. intros k e Hk. by destruct (evaluations_sound db Hs k e Hk).
  - eapply Nat.le_lt_trans; [|exact Hf]. apply List.filter_length_le.
Qed.

Lemma imap_ordered {A B} (f : nat -> A -> B) (key : B -> Z) l :
  (forall i x, key (f i x) = Z.of_nat i + 1) -> order_by key (imap f l) = imap f l.
Proof.
  intros Hk. apply order_by_sorted_fixed.
  enough (H : forall n, StronglySorted (fun x y => key x <= key y) (imap (fun i => f (n + i)%nat) l)) by exact (H 0%nat).
  induction l as [|x l IH]; intros n; cbn; [constructor|]. constructor.
  - rewrite (imap_ext _ (fun i => f (S n + i)%nat)); [apply IH|]. intros i y _. cbn. f_equal. lia.
  - apply Forall_forall. intros y (i & z & -> & _)%elem_of_lookup_imap. cbn. rewrite !Hk. lia.
Qed.

(** What the handler answers when it records a DNS validation, the chain and the
    addresses with their ordinals and categories, is what it answers to everyone who reads the
    validation back then or in any later state. *)
Theorem validation_reads_back initial db db' later_db new_id profile revision evaluation r response :
  reachable db ->
  create_revision_asset_candidate_dns_validation unicode_name initial db new_id profile revision evaluation r
    = Ok (response, db') ->
  later db' later_db ->
  get_revision_asset_candidate_dns_validation later_db profile revision evaluation new_id = Ok response.
Proof.
  intros Hs%reachable_sound H Hl.
  unfold create_revision_asset_candidate_dns_validation, create_asset_candidate_dns_validation, persist_validation,
    _load_exact in H. transaction H.
  match type of Hl with later (with_validations (<[_ := ?x]> _) (_ ++ ?y) (_ ++ ?z) _) _ => set (v := x) in *; set (hops := y) in *; set (found := z) in * end.
  destruct (new_children db (<[new_id := v]> (validations db)) new_id hops found) as [Hhops Hfound];
    [apply Hs | done | by intros h ?%hop_rows_owner | by intros a ?%address_rows_owner |].
  match type of Hl with later ?d _ => set (mid := d) in * end.
  assert (Hv : validations mid !! new_id = Some v) by (apply lookup_insert_eq).
  destruct (later_children _ _ Hl new_id) as [Eh Ea]; [by exists v|]. rewrite Hhops in Eh. rewrite Hfound in Ea.
  rename select (revisions db !! _ = Some _) into Hrow. rename select (evaluations db !! _ = Some _) into Hev.
  destruct (later_revisions _ _ Hl _ _ Hrow) as (row' & Hrow' & Hsame%same_revision_profile).
  apply (lookup_weaken _ (validations later_db)) in Hv; [|apply Hl].
  apply (lookup_weaken _ (evaluations later_db)) in Hev; [|apply Hl].
  unfold get_revision_asset_candidate_dns_validation, _dns_evaluation_or_404.
  rewrite (proj2 (select_revision_some later_db _ _ row') (conj Hrow' (eq_sym Hsame))), Hev, Hv. cbn. rewrite !Z.eqb_refl. cbn.
  unfold hops_of, addresses_of in Eh, Ea. rewrite Eh, Ea. subst hops found.
  unfold hop_rows, address_rows. rewrite !imap_ordered by done. done.
Qed.

(** * The answers *)

(** An exception the framework turns into one of the documented answers. *)
Definition documented (e : registry_error) : Prop :=
  match e with
  | RequestValidationError => True
  | HTTPException status _ => status ∈ [404; 409; 422]
  | _ => False
  end.

(** What a handler makes of the exceptions of its service. *)
Definition answered (answer : registry_error -> option (Z * string)) (e : registry_error) : Prop :=
  match answer e with Some (status, _) => status ∈ [404; 409; 422] | None => documented e end.

Lemma raises_add_row {A} P (m : gmap Z A) i x : (is_Some (m !! i) -> P IntegrityError) -> raises P (add_row m i x).
Proof. unfold add_row. destruct (m !! i) eqn:E; cbn; [|done]. intros H. apply H. by eexists. Qed.
Lemma raises_http {A} answer (m : registry_result A) : raises (answered answer) m -> raises documented (http answer m).
Proof.
  unfold http, catch, answered. destruct m as [|e]; [done|]. cbn. by destruct (answer e) as [[? ?]|].
Qed.
(** Step through a handler: what is left are the exceptions that need an argument. *)
Ltac answers :=
  repeat first
    [ apply raises_ok
    | apply raises_fmap
    | apply raises_http
    | apply raises_bind; [| let a := fresh "a" in let E := fresh "Hok" in intros a E]
    | apply raises_guard; let E := fresh "Hno" in intros E; first [exact I | unfold answered; cbn; set_solver | idtac]
    | apply raises_require; let E := fresh "Hno" in intros E; first [exact I | unfold answered; cbn; set_solver | idtac]
    | apply raises_add_row; let E := fresh "Hno" in intros E; first [unfold answered; cbn; set_solver | idtac]
    | apply raises_catch_all; first [exact I | unfold answered; cbn; set_solver]
    | match goal with |- raises _ (match ?o with Some _ => _ | None => _ end) => destruct o
                    | |- raises _ (if ?b then _ else _) => destruct b
                    | |- raises _ (let '(_, _) := ?x in _) => destruct x
                    | |- raises _ (Raise _) => cbn [raises]; unfold answered; cbn; set_solver end ].

(** The database gives a new row a primary key that is not in use. *)
Definition fresh_key (req : request) (db : Registry) : Prop :=
  match req with
  | CreateProfile i _ => profiles db !! i = None
  | CreateRevision i _ => revisions db !! i = None
  | CreateRule i _ _ _ _ => rules db !! i = None
  | CreateEvaluation i _ _ _ => evaluations db !! i = None
  | CreateValidation _ i _ _ _ _ => validations db !! i = None
  | CreateEnrollment i _ _ _ _ _ _ _ => enrollments db !! i = None
  | CreateEnrolledTarget i _ _ _ _ _ _ | CreateTarget i _ _ _ _ => targets db !! i = None
  | _ => True
  end.

(** The payload of [POST /targets] fits the columns, which its schema does not demand. *)
Definition fitting (req : request) : Prop :=
  match req with
  | CreateTarget _ name url environment _ => max_length 120 name && max_length 500 url && max_length 50 environment = true
  | _ => True
  end.

Lemma never_some {A} (m : gmap Z A) i (P : Prop) : m !! i = None -> is_Some (m !! i) -> P.
Proof. intros -> [x Hx]. done. Qed.

Section answers.
Variable db : Registry.
Hypothesis Hs : sound unicode_name db.

Lemma transition_answers p k destination : raises (answered (fun e => match e with
    | RevisionNotFoundError => Some (404, "AuthorizationRevision not found.")
    | InvalidRevisionTransitionError => Some (409, "Invalid revision lifecycle transition.")
    | _ => None end)) (transition_revision db p k destination).
Proof.
  unfold transition_revision. answers; transaction Hok0; transaction Hok1;
    edestruct activation_unique as [Hf Ha]; try done;
    [by rewrite (one_active_intro _ _ Hf) in Hno | by rewrite (one_active_intro _ _ Ha) in Hno].
Qed.

(** The rules an evaluation names are rules of its revision. *)
Lemma evaluation_rules k ev i : evaluations db !! k = Some ev ->
  evaluation_include_rule_id ev = Some i \/ evaluation_exclude_rule_id ev = Some i ->
  exists rule, rules db !! i = Some rule /\ rule_revision_id rule = evaluation_revision_id ev.
Proof.
  intros Hk Hi. destruct (evaluations_sound db Hs k ev Hk) as (_ & (candidate & Hh & _ & Hin & Hex) & _).
  pose proof (match_decides unicode_name (evaluation_revision_id ev) candidate _
                (rules_of_patterns db (evaluation_revision_id ev) Hs)) as Hd.
  unfold rules_decide in Hd. destruct (_normalize_dns_hostname unicode_name candidate) as [h|]; [|by rewrite Hd in Hh].
  destruct Hd as (included & excluded & Hsi & Hse & _ & Ei & Ee & _).
  assert (Hrule : forall rtype o, selected (evaluation_revision_id ev) rtype h (rules_of db (evaluation_revision_id ev)) o ->
    rule_id <$> o = Some i -> exists rule, rules db !! i = Some rule /\ rule_revision_id rule = evaluation_revision_id ev).
  { intros rtype [r|] Hsel; [|done]. intros [= <-]. destruct Hsel as [(Hr & Hrev & _) _].
    apply elem_of_rules_of in Hr as [[j Hj] _]. exists r. split; [|done].
    destruct (rules_sound db Hs j r Hj) as [-> _]. done. }
  destruct Hi as [Hi | Hi]; [rewrite <- Hin, Ei in Hi; exact (Hrule _ _ Hsi Hi) | rewrite <- Hex, Ee in Hi; exact (Hrule _ _ Hse Hi)].
Qed.

Lemma delete_rule_answers p k i : raises documented (delete_revision_asset_hostname_rule db p k i).
Proof.
  unfold delete_revision_asset_hostname_rule, delete_asset_hostname_rule, _lock_draft_revision. answers.
  exfalso. transaction Hok. transaction Hok0. transaction Hok1.
  enough (rule_referenced db i = false) by congruence. apply existsb_rows. intros j ev Hj.
  apply not_true_is_false. intros Href.
  assert (Hi : evaluation_include_rule_id ev = Some i \/ evaluation_exclude_rule_id ev = Some i).
  { apply orb_true_iff in Href. by rewrite !bool_decide_eq_true in Href. }
  destruct (evaluation_rules j ev i Hj Hi) as (rule & Hrule & Hrev).
  destruct (evaluations_sound db Hs j ev Hj) as (_ & _ & row & Hrow & Hst). congruence.
Qed.

Lemma evaluation_answers i p k h : evaluations db !! i = None ->
  raises documented (create_revision_asset_candidate_evaluation unicode_name db i p k h).
Proof.
  intros Hi. unfold create_revision_asset_candidate_evaluation, create_asset_candidate_evaluation. answers.
  - exfalso. rename Hno into Hnone. revert Hok3 Hnone. unfold match_asset_candidate. case_match; [by repeat case_match|]. done.
  - by eapply never_some.
Qed.

Lemma validation_rows_ok d i e k h : storable d ->
  ck_validation_rows (mkValidation i e k (dns_code d) h (terminal_hostname d), hop_rows i (cname_chain d),
    address_rows i (dns_addresses d) (dns_categories d)) = true.
Proof.
  intros (Hc & Hh & Ha & Hl). unfold ck_validation_rows. cbn. rewrite (bool_decide_eq_true_2 _ Hc). cbn.
  unfold MAX_CNAME_HOPS, MAX_RESOLVED_ADDRESSES in *. apply andb_true_iff.
  split; apply forallb_forall; intros x (j & y & -> & Hj)%list_elem_of_In%elem_of_lookup_imap; cbn;
    apply lookup_lt_Some in Hj; rewrite ?length_zip_with in Hj; apply andb_true_iff; split; apply Z.leb_le; lia.
Qed.

Lemma validation_answers initial i p k e r : validations db !! i = None ->
  raises documented (create_revision_asset_candidate_dns_validation unicode_name initial db i p k e r).
Proof.
  intros Hi. unfold create_revision_asset_candidate_dns_validation, create_asset_candidate_dns_validation,
    capture_hostname, persist_validation, _load_exact. answers; [|by eapply never_some].
  exfalso. by rewrite validation_rows_ok in Hno by apply classification_storable.
Qed.

Lemma enrollment_answers i p k e v d c n : enrollments db !! i = None ->
  raises documented (create_revision_asset_enrollment_decision unicode_search db i p k e v d c n).
Proof.
  intros Hi. unfold create_revision_asset_enrollment_decision, create_asset_enrollment_decision, load_exact_dns_validation. answers;
    try (by eapply never_some).
  - unfold AssetEnrollmentDecisionCreate in Hok. transaction Hok.
    rename select (validate_non_secret_enrollment_note _ _ = Ok _) into Hn. by rewrite Hn.
  - exfalso. unfold AssetEnrollmentDecisionCreate in Hok. transaction Hok. unfold ck_enrollment in Hno. cbn in Hno.
    match goal with E : d ∈ _ |- _ => rewrite (bool_decide_eq_true_2 _ E) in Hno end. cbn in Hno. congruence.
Qed.

Lemma enrolled_answers i p k e v d c : raises documented
  (create_target_from_revision_asset_enrollment_decision db i p k e v d c).
Proof.
  unfold create_target_from_revision_asset_enrollment_decision, create_target_from_approved_enrollment, load_provenance. answers.
Qed.

Lemma create_profile_answers i payload : profiles db !! i = None -> raises documented (create_authorization_profile db i payload).
Proof.
  intros Hi. unfold create_authorization_profile, AuthorizationProfileCreate, validate_required_string. answers.
  by eapply never_some.
Qed.

Lemma update_profile_answers i payload : raises documented (update_authorization_profile db i payload).
Proof.
  unfold update_authorization_profile, validate_update, get_profile_or_404, merged_values, AuthorizationProfileCreate,
    strip_supplied, validate_required_string, merge_required. answers.
Qed.

Lemma create_target_answers i name url environment mode :
  targets db !! i = None -> max_length 120 name && max_length 500 url && max_length 50 environment = true ->
  raises documented (create_target db i name url environment mode).
Proof. intros Hi Hfit. unfold create_target. rewrite Hfit. answers. by eapply never_some. Qed.

Lemma delete_profile_answers i : raises documented (delete_authorization_profile db i).
Proof. unfold delete_authorization_profile, get_profile_or_404. answers. Qed.

Lemma create_revision_answers i p : raises documented (create_authorization_revision db i p).
Proof. unfold create_authorization_revision, create_revision. answers. Qed.

Lemma create_rule_answers i p k rtype pattern :
  raises documented (create_revision_asset_hostname_rule unicode_name db i p k rtype pattern).
Proof.
  unfold create_revision_asset_hostname_rule, AssetHostnameRuleCreate, create_asset_hostname_rule, _lock_draft_revision,
    lift_hostname. answers.
Qed.

Lemma revision_transition_answers p k destination : raises documented (apply_revision_transition db p k destination).
Proof. apply raises_http, transition_answers. Qed.

Lemma target_update_answers req : match req with UpdateNetworkMode _ _ | UpdateTargetProfile _ _ | UpdateTargetRevision _ _ => True | _ => False end ->
  raises documented (handle unicode_name unicode_search req db).
Proof.
  destruct req; try done; intros _; cbn;
    unfold update_target_network_mode, update_target_authorization_profile, update_target_authorization_revision,
      target_or_404, get_profile_or_404; answers.
Qed.
End answers.

Create HintDb answers.
#[local] Hint Resolve create_profile_answers update_profile_answers delete_profile_answers create_revision_answers
  revision_transition_answers create_rule_answers delete_rule_answers evaluation_answers validation_answers
  enrollment_answers enrolled_answers create_target_answers : answers.

(** The handlers answer: in a reachable state a request whose new row gets an unused
    primary key succeeds or ends in one of the documented answers, 404, 409 or 422; no
    exception of a service and no constraint of the database escapes, save the width of the
    columns for a Target created by hand. *)
Theorem requests_answered req db : reachable db -> fresh_key req db -> fitting req ->
  raises documented (handle unicode_name unicode_search req db).
Proof.
  intros Hs%reachable_sound Hf Hfit. destruct req; cbn in Hf, Hfit; try (by apply target_update_answers); cbn [handle];
    try apply raises_fmap; eauto with answers.
Qed.

(** * The policy on the registry *)

(** A request the policy allows in a reachable state, for a Target and the revision its
    row names, is under the one active revision of the Target's profile: when that revision is
    revoked or superseded, or the Target is bound to none, no request is allowed. *)
Theorem allowed_request_current db k t revision hosts scopes url method time now d :
  reachable db -> targets db !! k = Some t ->
  revision = (r ← target_authorization_revision_id (target_of t); revisions db !! r) ->
  evaluate hosts (target_of t) (revision_of <$> revision) scopes url method (Some (Aware time)) now = Ok d ->
  allowed d = true ->
  exists r row, target_authorization_revision_id (target_of t) = Some r /\ revisions db !! r = Some row
    /\ target_authorization_profile_id (target_of t) = Some (row_profile row) /\ row_state row = "active"
    /\ forall j other, revisions db !! j = Some other -> row_profile other = row_profile row ->
       row_state other = "active" -> j = r.
Proof.
  intros Hs%reachable_sound Hk -> He Ha.
  destruct (evaluate_cases hosts (target_of t) (revision_of <$> (r ← target_authorization_revision_id (target_of t); revisions db !! r))
              scopes url method time now) as (d' & He' & _ & Hd). rewrite He' in He. injection He as ->.
  destruct Hd as [(r & _ & _ & _ & _ & (Hrev & _ & Hbound & _ & Hact & _) & _) | (Hno & _)]; [|congruence].
  rewrite Hbound in Hrev. cbn in Hrev. apply fmap_Some in Hrev as (row & Hrow & ->).
  destruct (targets_sound db Hs k t Hk) as (_ & Hb & _).
  destruct (Hb _ Hbound) as (row' & Hrow' & _ & Hp). simplify_eq.
  exists (revision_id (revision_of row)), row. split_and!; [done..|].
  intros j other Hj Hpj Hsj. apply (sound_active db Hs (row_profile row) j _ other row Hj Hrow); by apply (proj2 (active_in_true _ _)).
Qed.

(** A name longer than the column passes the schema of [POST /targets] and reaches the database. *)
Lemma long_name_escapes db i name url environment mode :
  mode ∈ NETWORK_MODES -> 120 < str_len name -> create_target db i name url environment mode = Raise DataError.
Proof.
  intros Hm Hl. unfold create_target, max_length. rewrite (bool_decide_eq_true_2 _ Hm). cbn.
  by rewrite (proj2 (Z.leb_gt _ _) Hl).
Qed.
End safety.

(** * A run *)

Fixpoint run_requests (l : list (Registry -> request)) (db : Registry) : registry_result Registry :=
  match l with
  | [] => Ok db
  | req :: l' => db' ← handle no_unicode (fun _ => false) (req db) db; run_requests l' db'
  end.

Lemma run_reachable l db db' : registry_reachable no_unicode (fun _ => false) db -> run_requests l db = Ok db' ->
  registry_reachable no_unicode (fun _ => false) db'.
Proof.
  revert db. induction l as [|req l IH]; cbn; intros db Hr H; [by injection H as <-|].
  result_inv. eapply IH; [|done]. by eapply registry_step.
Qed.

Definition sample_fields : ProfileFields :=
  mkFields (mkProfileText "lab" "program" None "contract" None None) (Some 1000) (Some 9000) true f1 true false false false
    false true.

(** A profile, its revision with two rules, and the enrollment of one hostname. *)
Definition sample_requests : list (Registry -> request) :=
  [fun _ => CreateProfile 7 sample_fields; fun _ => CreateRevision 11 7;
   fun _ => CreateRule 1 7 11 "include" "*.example.com"; fun _ => CreateRule 2 7 11 "exclude" "admin.example.com";
   fun _ => ActivateRevision 7 11; fun _ => CreateEvaluation 3 7 11 "WWW.example.com.";
   fun db => CreateValidation db 4 7 11 3 sample_dns;
   fun _ => CreateEnrollment 5 7 11 3 4 "approved" (Some "scope_confirmed") (Some "checked");
   fun _ => CreateEnrolledTarget 6 7 11 3 4 5
              (mkEnrolledTargetCreate "www" "production" "https" (Some 8443) "external_public_authorized");
   fun _ => CreateRevision 12 7].

Definition sample_registry : Registry :=
  match run_requests sample_requests empty_registry with Ok db => db | Raise _ => empty_registry end.

Lemma sample_reachable : registry_reachable no_unicode (fun _ => false) sample_registry.
Proof.
  apply (run_reachable sample_requests empty_registry); [apply registry_start|].
  assert (H : is_ok (run_requests sample_requests empty_registry) = true) by (vm_compute; reflexivity).
  unfold sample_registry. by destruct (run_requests sample_requests empty_registry).
Qed.

Definition sample_target : TargetRow :=
  mkTargetRow (mkTarget 6 (Some 7) (Some 11) "https://www.example.com:8443" "external_public_authorized" true) (Some 5) "www" "production".

Lemma sample_target_row : targets sample_registry !! 6 = Some sample_target.
Proof. vm_compute. reflexivity. Qed.

Lemma enrolled_target_authorized_witness : authorized no_unicode sample_registry sample_target 5.
Proof.
  apply (enrolled_target_authorized no_unicode (fun _ => false) sample_registry 6 sample_target 5).
  - exact sample_reachable.
  - exact sample_target_row.
  - reflexivity.
Defined.

Lemma registry_unique_witness :
  registry_reachable no_unicode (fun _ => false) sample_registry
  /\ at_most_one (active_in 7) (revisions sample_registry).
Proof.
  split; [exact sample_reachable|].
  destruct (registry_unique no_unicode (fun _ => false) sample_registry sample_reachable) as [H _]. exact (H 7).
Defined.

Lemma requests_refine_witness : exists db',
  handle no_unicode (fun _ => false) (ActivateRevision 7 12) sample_registry = Ok db'
  /\ lifecycle no_unicode sample_registry db' /\ later sample_registry db'.
Proof.
  assert (H : is_ok (handle no_unicode (fun _ => false) (ActivateRevision 7 12) sample_registry) = true) by (vm_compute; reflexivity).
  destruct (handle no_unicode (fun _ => false) (ActivateRevision 7 12) sample_registry) as [db'|] eqn:E; [|discriminate H].
  exists db'. split; [reflexivity|]. exact (requests_refine no_unicode (fun _ => false) _ _ _ sample_reachable E).
Defined.

Lemma transitions_available_witness : exists row,
  revisions sample_registry !! 12 = Some row /\ row_state row = "draft"
  /\ exists db', handle no_unicode (fun _ => false) (ActivateRevision (row_profile row) 12) sample_registry = Ok db'
       /\ has_state db' 12 "active".
Proof.
  assert (H : exists row, revisions sample_registry !! 12 = Some row /\ row_state row = "draft").
  { eexists. split; vm_compute; reflexivity. }
  destruct H as (row & Hrow & Hst). exists row. split; [exact Hrow|]. split; [exact Hst|].
  destruct (transitions_available no_unicode (fun _ => false) sample_registry 12 row sample_reachable Hrow) as [H _].
  destruct (H Hst) as (db' & H1 & H2 & _). exists db'. split; [exact H1 | exact H2].
Defined.

Lemma evaluation_pages_complete_witness : exists row,
  select_revision sample_registry 7 11 = Some row
  /\ read_evaluations 2 sample_registry 7 11 0 50
     = Some (Ok (order_by evaluation_id (List.filter (fun e => 0 <? evaluation_id e) (evaluations_of sample_registry 11)))).
Proof.
  assert (H : exists row, select_revision sample_registry 7 11 = Some row) by (eexists; vm_compute; reflexivity).
  destruct H as [row Hrow]. exists row. split; [exact Hrow|].
  apply (evaluation_pages_complete no_unicode (fun _ => false) 2 sample_registry 7 11 0 50 row).
  - exact sample_reachable.
  - exact Hrow.
  - lia.
  - unfold MAX_PAGE_SIZE. lia.
  - assert (Hl : length (evaluations_of sample_registry 11) = 1%nat) by (vm_compute; reflexivity). lia.
Defined.

(** The validation of the run, read back in its last state. *)
Lemma validation_reads_back_witness : exists response db',
  create_revision_asset_candidate_dns_validation no_unicode sample_registry sample_registry 8 7 11 3 sample_dns = Ok (response, db')
  /\ get_revision_asset_candidate_dns_validation db' 7 11 3 8 = Ok response.
Proof.
  assert (H : is_ok (create_revision_asset_candidate_dns_validation no_unicode sample_registry sample_registry 8 7 11 3 sample_dns) = true)
    by (vm_compute; reflexivity).
  destruct (create_revision_asset_candidate_dns_validation no_unicode sample_registry sample_registry 8 7 11 3 sample_dns)
    as [[response db']|] eqn:E; [|discriminate H].
  exists response, db'. split; [reflexivity|].
  apply (validation_reads_back no_unicode (fun _ => false) sample_registry sample_registry db' db' 8 7 11 3 sample_dns response sample_reachable E).
  apply later_same.
Defined.

Lemma requests_answered_witness :
  raises documented (handle no_unicode (fun _ => false) (CreateRule 9 7 11 "exclude" "*.other.example.com") sample_registry).
Proof.
  apply requests_answered.
  - exact sample_reachable.
  - vm_compute. reflexivity.
  - exact I.
Defined.

Lemma allowed_request_current_witness : exists d r row,
  evaluate ["www.example.com"] (target_of sample_target) (revision_of <$> revisions sample_registry !! 11)
    [mkScope 1 6 "www.example.com" "/api/*" ["GET"] true] "https://www.example.com:8443/api/orders" "GET"
    (Some (Aware 2000)) 0 = Ok d
  /\ allowed d = true
  /\ target_authorization_revision_id (target_of sample_target) = Some r
  /\ revisions sample_registry !! r = Some row /\ row_state row = "active".
Proof.
  destruct (evaluate ["www.example.com"] (target_of sample_target) (revision_of <$> revisions sample_registry !! 11)
    [mkScope 1 6 "www.example.com" "/api/*" ["GET"] true] "https://www.example.com:8443/api/orders" "GET"
    (Some (Aware 2000)) 0) as [d|] eqn:E; [|exfalso; vm_compute in E; discriminate E].
  assert (Ha : allowed d = true) by (vm_compute in E; injection E as <-; reflexivity).
  destruct (allowed_request_current no_unicode (fun _ => false) sample_registry 6 sample_target (revisions sample_registry !! 11)
    ["www.example.com"] [mkScope 1 6 "www.example.com" "/api/*" ["GET"] true] "https://www.example.com:8443/api/orders" "GET"
    2000 0 d sample_reachable sample_target_row eq_refl E Ha) as (r & row & H1 & H2 & _ & H3 & _).
  exists d, r, row. split; [reflexivity|]. split; [exact Ha|]. split; [exact H1|]. split; [exact H2 | exact H3].
Defined.
