(* ===== verification/BindingRules.v ===== *)
(** What may be bound to a resource: the selectors of
    src/backend/app/schemas/endpoint_resource_binding.py and the candidates that
    services/openapi_binding_candidates.py and openapi_body_binding_candidates.py derive from
    the description of an endpoint.

    A column of type JSONB is a [json]. The two searches that depend on the classes of
    non-ASCII characters take the argument [unicode_text] for such text: the search of
    [SENSITIVE_MATERIAL] and that of a value in a token of a pointer. *)

From S2P Require Import Prelude.
From S2P Require Import PyStr.
From S2P Require Import PyJson.
From S2P Require Import Models.
From S2P Require Import Regex.

Open Scope Z_scope.

(** * Selectors *)

(** The exceptions of the validator, both [ValueError]s. *)
Inductive selector_error : Type := SensitiveMaterial | SelectorInvalid.

Definition name_char (c : ascii) : bool := is_alnum c || bool_decide (c ∈ ["_"; "."; "-"]%char).

(** [PARAMETER_NAME.fullmatch] *)
Definition is_parameter_name (s : string) : bool :=
  match s with
  | String c t => (is_alpha c || bool_decide (c = "_"%char)) && str_forall name_char t && (str_len t <=? 127)
  | EmptyString => false
  end.

(** A character of [[^/\s]] *)
Definition plain (c : ascii) : bool := negb (bool_decide (c = "/"%char)) && negb (is_space c).
Definition plain_run : regex := Seq (Class plain) (Many plain).
Definition cookie : regex := Alt (Lit "set-cookie") (Lit "cookie").

Definition SENSITIVE_MATERIAL : regex :=
  alt_all (seq_all [Lit "authorization"; spaces; assign; spaces; Alt (Lit "bearer") (Lit "basic"); Class is_space; spaces; plain_run])
    [seq_all [cookie; spaces; assign; spaces; plain_run];
     seq_all [Alt Start (Lit "/"); cookie; Lit "/"; Many (fun c => negb (bool_decide (c = "/"%char))); Lit "="; plain_run];
     seq_all [alt_all (Lit "x-api-key") (Lit <$> ["api_key"; "access_token"; "refresh_token"; "password"; "credential"; "secret"]);
       spaces; assign; spaces; plain_run]].

(** The expression [[:=]\s*\S] *)
Definition pointer_value : regex := seq_all [assign; spaces; Class (fun c => negb (is_space c))].

(** The scan for escapes: every tilde is followed by 0 or 1. *)
Fixpoint escapes_valid (s : string) : bool :=
  match s with
  | EmptyString => true
  | String c t =>
      if bool_decide (c = "~"%char) then
        match t with
        | String d t' => bool_decide (d ∈ ["0"; "1"]%char) && escapes_valid t'
        | EmptyString => false
        end
      else escapes_valid t
  end.

Inductive pattern_kind : Type := MaterialPattern | ValuePattern.

Section selectors.
Context (unicode_text : pattern_kind -> string -> bool).

(** [pattern.search(text)] *)
Definition finds (k : pattern_kind) (text : string) : bool :=
  if is_ascii_str text then search (match k with MaterialPattern => SENSITIVE_MATERIAL | ValuePattern => pointer_value end) text
  else unicode_text k text.

Definition token_valid (token : string) : bool :=
  negb (is_empty token)
  && negb (str_exists (fun c => bool_decide (c ∈ ["$"; "["; "]"; "("; ")"; "*"; "?"]%char)) token)
  && negb (finds ValuePattern token)
  && escapes_valid token.

Definition validate_json_pointer (value : string) : result selector_error unit :=
  match value with
  | String "/" rest => guard_or (forallb token_valid (split_char "/" rest)) SelectorInvalid
  | _ => Raise SelectorInvalid
  end.

Definition validate_resource_binding_selector (location value : string) : result selector_error unit :=
  if finds MaterialPattern value then Raise SensitiveMaterial
  else if bool_decide (location ∈ ["path"; "query"]) then guard_or (is_parameter_name value) SelectorInvalid
  else validate_json_pointer value.

Definition selector_valid (location value : string) : bool := is_ok (validate_resource_binding_selector location value).
End selectors.

(** * Names of identifiers *)

(** The longest prefix of characters that satisfy a test, and what follows. *)
Fixpoint span (p : ascii -> bool) (s : string) : string * string :=
  match s with
  | EmptyString => (EmptyString, EmptyString)
  | String c t => if p c then let '(w, r) := span p t in (String c w, r) else (EmptyString, s)
  end.

Definition starts_with (p : ascii -> bool) (s : string) : bool := match s with String c _ => p c | EmptyString => false end.

(** The match of
    [[A-Z]+(?=[A-Z][a-z]|[^A-Za-z]|$)|[A-Z]?[a-z]+|[A-Z]+|[0-9]+] at the start of a text, and
    what follows it. A run of capitals ends before the last one when lower case follows; a
    single capital then begins a word. *)
Definition match_token (s : string) : option (string * string) :=
  let '(capitals, rest) := span is_upper s in
  match capitals with
  | EmptyString =>
      match span is_lower s with
      | (EmptyString, _) => match span is_digit s with (EmptyString, _) => None | m => Some m end
      | m => Some m
      end
  | String c EmptyString =>
      let '(word, rest') := span is_lower rest in Some (String c word, rest')
  | _ =>
      let n := (String.length capitals - 1)%nat in
      if starts_with is_lower rest then Some (str_take n capitals, str_drop n s) else Some (capitals, rest)
  end.

(** [re.findall]; every match consumes a character. *)
Fixpoint find_tokens (fuel : nat) (s : string) : list string :=
  match fuel, s with
  | S fuel', String _ t =>
      match match_token s with
      | Some (token, rest) => token :: find_tokens fuel' rest
      | None => find_tokens fuel' t
      end
  | _, _ => []
  end.
Definition tokens_of (name : string) : list string := lower <$> find_tokens (String.length name) name.

Definition SENSITIVE_IDENTIFIER_TOKENS : list string :=
  ["accesstoken"; "apikey"; "auth"; "authentication"; "authorization"; "cookie"; "cookies"; "credential"; "credentials";
   "password"; "passwords"; "refreshtoken"; "secret"; "secrets"; "setcookie"; "xapikey"].
Definition SENSITIVE_IDENTIFIER_TOKEN_PAIRS : list (string * string) :=
  [("access", "token"); ("api", "key"); ("refresh", "token"); ("set", "cookie")].

Definition is_sensitive_identifier_name (name : string) : bool :=
  let tokens := tokens_of name in
  existsb (fun t => bool_decide (t ∈ SENSITIVE_IDENTIFIER_TOKENS)) tokens
  || existsb (fun p => bool_decide (p ∈ SENSITIVE_IDENTIFIER_TOKEN_PAIRS)) (zip tokens (tail tokens)).

Definition is_identifier_name_or_uuid (name : string) (schema : option json) : bool :=
  if is_sensitive_identifier_name name then false
  else
    let lowered := lower name in
    let name_signal :=
      bool_decide (lowered = "id") || existsb (fun suffix => endswith suffix lowered) ["_id"; "-id"; ".id"]
      || ((2 <? str_len name) && endswith "Id" name) in
    let uuid_signal :=
      match schema with Some (JObj o) => bool_decide (assoc "format" o = Some (JStr "uuid")) | _ => false end in
    name_signal || uuid_signal.

(** * Candidates *)

(** A row of [endpoints] with the columns that are read. *)
Record EndpointRow := mkEndpointRow {
  endpoint_of : Endpoint;
  endpoint_parameters : json;
  endpoint_request_body : option json
}.

(** A candidate: its location and selector. *)
Abbreviation locator := (string * string)%type.

Inductive inference_error : Type :=
| InferenceError (code : string)
| InferenceTypeError.
#[export] Instance inference_error_eq_dec : EqDecision inference_error.
Proof. solve_decision. Defined.

(** Membership in a set literal hashes the value: a list or an object raises [TypeError]. *)
Definition hashable (j : json) : bool := match j with JArr _ | JObj _ => false | _ => true end.

(** [sorted] of a set of pairs. *)
Definition locator_leb (a b : locator) : bool :=
  if bool_decide (a.1 = b.1) then String.leb a.2 b.2 else String.leb a.1 b.1.
Fixpoint insert_locator (x : locator) (l : list locator) : list locator :=
  match l with
  | [] => [x]
  | y :: l' => if locator_leb x y then x :: l else y :: insert_locator x l'
  end.
Fixpoint sort_locators (l : list locator) : list locator :=
  match l with [] => [] | x :: l' => insert_locator x (sort_locators l') end.

(** The names that the expression [{name}] finds in a path. A match contains no opening brace
    but its first character, so resuming one character on finds the same matches. *)
Definition match_template (s : string) : option string :=
  let '(w, rest) := span name_char s in
  if is_parameter_name w && startswith "}" rest then Some w else None.
Fixpoint template_names (path : string) : list string :=
  match path with
  | EmptyString => []
  | String c t =>
      match (if bool_decide (c = "{"%char) then match_template t else None) with
      | Some name => name :: template_names t
      | None => template_names t
      end
  end.

Definition MAX_PARAMETERS_INSPECTED : Z := 128.

(** A schema that waits for its visit, with its path and depth. *)
Abbreviation pending_schema := (list (string * json) * list string * Z)%type.

Section candidates.
Context (unicode_text : pattern_kind -> string -> bool).

(** One round of the loop over the parameters. *)
Definition parameter_candidate (path : string) (parameter : json) : result inference_error (option locator) :=
  match parameter with
  | JObj o =>
      match assoc "name" o with
      | Some (JStr name) =>
          match assoc "in" o with
          | Some (JStr location) =>
              Ok (if bool_decide (location ∈ ["path"; "query"])
                     && selector_valid unicode_text location name
                     && negb (bool_decide (location = "path") && negb (bool_decide (name ∈ template_names path)))
                     && is_identifier_name_or_uuid name (assoc "schema" o)
                  then Some (location, name) else None)
          | Some v => if hashable v then Ok None else Raise InferenceTypeError
          | None => Ok None
          end
      | _ => Ok None
      end
  | _ => Ok None
  end.

Definition derive_candidates (endpoint : EndpointRow) : result inference_error (list locator) :=
  match endpoint_parameters endpoint with
  | JArr parameters =>
      if MAX_PARAMETERS_INSPECTED <? Z.of_nat (length parameters) then
        Raise (InferenceError "openapi_binding_parameter_limit_exceeded")
      else
        found ← map_result (parameter_candidate (endpoint_path (endpoint_of endpoint))) parameters;
        Ok (sort_locators (remove_dups (omap id found)))
  | _ => Ok []
  end.

(** ** In a request body *)

Definition MAX_BODY_SCHEMA_DEPTH : Z := 16.
Definition MAX_BODY_SCHEMA_NODES : nat := Z.to_nat 1024.
Definition MAX_PROPERTIES_PER_OBJECT : Z := 128.
Definition UNSUPPORTED_SCHEMA_KEYS : list string :=
  ["$ref"; "allOf"; "oneOf"; "anyOf"; "not"; "if"; "then"; "else"; "discriminator"].

(** [value.replace("~", "~0").replace("/", "~1")] *)
Fixpoint escape_json_pointer_token (value : string) : string :=
  match value with
  | EmptyString => EmptyString
  | String c t =>
      (if bool_decide (c = "~"%char) then "~0" else if bool_decide (c = "/"%char) then "~1" else str1 c)
      +:+ escape_json_pointer_token t
  end.

Definition member (k : string) (j : json) : option json := match j with JObj o => assoc k o | _ => None end.
Definition as_object (j : option json) : option (list (string * json)) := match j with Some (JObj o) => Some o | _ => None end.

Definition request_body_schema (endpoint : EndpointRow) : option (list (string * json)) :=
  body ← as_object (endpoint_request_body endpoint);
  content ← as_object (assoc "content" body);
  media ← as_object (assoc "application/json" content);
  as_object (assoc "schema" media).

(** The children of an object that are schemas, in the order of their names. *)
Definition children_of (properties : list (string * json)) (path : list string) (depth : Z) : list pending_schema :=
  omap (fun name => match assoc name properties with
                    | Some (JObj child) => Some (child, path ++ [name], depth + 1)
                    | _ => None
                    end) (sort_strings (fst <$> properties)).

(** The value of [schema.get("type") not in {None, "object"}], unless it raises. *)
Definition not_object_type (t : option json) : result inference_error bool :=
  match t with
  | None | Some JNull => Ok false
  | Some v => if hashable v then Ok (negb (bool_decide (v = JStr "object"))) else Raise InferenceTypeError
  end.

Definition pointer_of (path : list string) : string := "/" +:+ join "/" (escape_json_pointer_token <$> path).

(** What the visit of one schema gives: its children, or perhaps a candidate. *)
Definition visit_schema (item : pending_schema) : result inference_error (list pending_schema * option locator) :=
  let '(schema, path, depth) := item in
  let type := assoc "type" schema in
  if MAX_BODY_SCHEMA_DEPTH <? depth then Raise (InferenceError "openapi_body_schema_depth_limit_exceeded")
  else if existsb (fun kv => bool_decide (kv.1 ∈ UNSUPPORTED_SCHEMA_KEYS)) schema then
    Raise (InferenceError "openapi_body_schema_unsupported_construct")
  else if bool_decide (type = Some (JStr "array")) || negb (is_none (assoc "items" schema)) then Ok ([], None)
  else
    match assoc "properties" schema with
    | Some (JObj properties) =>
        wrong ← not_object_type type;
        if wrong : bool then Raise (InferenceError "openapi_body_schema_malformed")
        else if MAX_PROPERTIES_PER_OBJECT <? Z.of_nat (length properties) then
          Raise (InferenceError "openapi_body_schema_property_limit_exceeded")
        else Ok (children_of properties path depth, None)
    | None | Some JNull =>
        if bool_decide (type = Some (JStr "object")) then Ok ([], None)
        else match last path with
             | None => Ok ([], None)
             | Some name =>
                 let selector := pointer_of path in
                 Ok ([], if is_identifier_name_or_uuid name (Some (JObj schema)) && selector_valid unicode_text "body" selector
                         then Some ("body", selector) else None)
             end
    | Some _ => Raise (InferenceError "openapi_body_schema_malformed")
    end.

(** The loop over the stack [pending], whose head is its end; [fuel] is the number of nodes
    that may still be seen. *)
Fixpoint visit_schemas (fuel : nat) (pending : list pending_schema) : result inference_error (list locator) :=
  match pending with
  | [] => Ok []
  | item :: rest =>
      match fuel with
      | O => Raise (InferenceError "openapi_body_schema_node_limit_exceeded")
      | S fuel' =>
          visited ← visit_schema item;
          found ← visit_schemas fuel' (visited.1 ++ rest);
          Ok (option_list visited.2 ++ found)
      end
  end.

Definition derive_body_candidates (endpoint : EndpointRow) : result inference_error (list locator) :=
  match request_body_schema endpoint with
  | None => Ok []
  | Some root =>
      found ← visit_schemas MAX_BODY_SCHEMA_NODES [(root, [], 1)];
      Ok (sort_locators (remove_dups found))
  end.
End candidates.
