(* ===== verification/Bindings.v ===== *)
(** The table of resource bindings and the handlers of
    src/backend/app/api/routes/endpoint_resource_bindings.py: bindings that an operator
    supplies, candidates that are inferred from the description of an endpoint, and reviews.

    The requests that write lock the row of their endpoint or binding, so each is one step.
    [new_id] gives the primary keys of new rows in their order. *)

From stdpp Require Import gmap.
From S2P Require Import Prelude.
From S2P Require Import PyStr.
From S2P Require Import PyJson.
From S2P Require Import Models.
From S2P Require Import BindingRules.
From S2P Require Import Tables.

Open Scope Z_scope.

(** * The table *)

(** A row of [endpoint_resource_bindings]. *)
Record BindingRow := mkBindingRow {
  binding_id : Z;
  binding_endpoint_id : Z;
  binding_location : string;
  binding_selector : string;
  binding_provenance : string;
  binding_confidence : Z;
  binding_review_state : string
}.
#[export] Instance BindingRow_eq_dec : EqDecision BindingRow.
Proof. solve_decision. Defined.

Definition LOCATIONS : list string := ["path"; "query"; "body"].
Definition PROVENANCES : list string := ["operator_supplied"; "openapi_inferred"; "heuristic_inferred"].
Definition REVIEW_STATES : list string := ["candidate"; "confirmed"; "rejected"].

(** The CHECK constraints. *)
Definition ck_binding (b : BindingRow) : bool :=
  bool_decide (binding_location b ∈ LOCATIONS)
  && (1 <=? str_len (binding_selector b)) && (str_len (binding_selector b) <=? 500)
  && bool_decide (binding_provenance b ∈ PROVENANCES)
  && (0 <=? binding_confidence b) && (binding_confidence b <=? 100)
  && bool_decide (binding_review_state b ∈ REVIEW_STATES).

(** The columns of [uq_endpoint_resource_binding_exact]. *)
Definition exact_key (b : BindingRow) : Z * string * string * string :=
  (binding_endpoint_id b, binding_location b, binding_selector b, binding_provenance b).

Record Bindings := mkBindings {
  endpoints : gmap Z EndpointRow;
  bindings : gmap Z BindingRow
}.
Definition with_bindings (table : gmap Z BindingRow) (db : Bindings) : Bindings := mkBindings (endpoints db) table.

Inductive binding_error : Type :=
| BindingHTTPException (status : Z) (detail : string)
| BindingValidationError
| BindingTypeError
| BindingDataError
| BindingIntegrityError
| UniqueViolation.
#[export] Instance binding_error_eq_dec : EqDecision binding_error.
Proof. solve_decision. Defined.
Abbreviation binding_result := (result binding_error).

Definition exact_taken (table : gmap Z BindingRow) (row : BindingRow) : bool :=
  existsb (fun b => bool_decide (exact_key b = exact_key row)) (rows table).

(** [INSERT]: the width of the column [selector] first, then the constraints. *)
Definition insert_binding (table : gmap Z BindingRow) (row : BindingRow) : binding_result (gmap Z BindingRow) :=
  _ ← guard_or (str_len (binding_selector row) <=? 500) BindingDataError;
  _ ← guard_or (ck_binding row && is_none (table !! binding_id row)) BindingIntegrityError;
  if exact_taken table row then Raise UniqueViolation else Ok (<[binding_id row := row]> table).

(** * Inference *)

Definition MAX_NEW_INFERRED_BINDINGS : Z := 64.
Definition PATH_CONFIDENCE : Z := 60.
Definition QUERY_CONFIDENCE : Z := 40.
Definition BODY_CONFIDENCE : Z := 30.

Record OpenAPIBindingInferenceResult := mkInference {
  inference_endpoint_id : Z;
  eligible_count : Z;
  created_count : Z;
  existing_inferred_count : Z;
  skipped_operator_count : Z
}.

(** The rows at a locator of the endpoint, and whether one of them has a provenance. *)
Definition bound_by (provenance : string) (table : gmap Z BindingRow) (endpoint : Z) (c : locator) : bool :=
  existsb (fun b => bool_decide (exact_key b = (endpoint, c.1, c.2, provenance))) (rows table).

Definition operator_bound : gmap Z BindingRow -> Z -> locator -> bool := bound_by "operator_supplied".
Definition inferred_bound : gmap Z BindingRow -> Z -> locator -> bool := bound_by "openapi_inferred".

Definition is_new_candidate (table : gmap Z BindingRow) (endpoint : Z) (c : locator) : bool :=
  negb (operator_bound table endpoint c) && negb (inferred_bound table endpoint c).

Definition inferred_row (confidence : locator -> Z) (endpoint new_id : Z) (c : locator) : BindingRow :=
  mkBindingRow new_id endpoint c.1 c.2 "openapi_inferred" (confidence c) "candidate".

(** The loop over the new candidates, each an [INSERT ... ON CONFLICT DO NOTHING]: the table,
    how many rows were created and how many were there. *)
Fixpoint insert_candidates (confidence : locator -> Z) (endpoint : Z) (new_id : nat -> Z) (n : nat) (l : list locator)
    (table : gmap Z BindingRow) : binding_result (gmap Z BindingRow * Z * Z) :=
  match l with
  | [] => Ok (table, 0, 0)
  | c :: rest =>
      inserted ← match insert_binding table (inferred_row confidence endpoint (new_id n) c) with
                 | Ok table' => Ok (table', 1, 0)
                 | Raise UniqueViolation => Ok (table, 0, 1)
                 | Raise e => Raise e
                 end;
      let '(table', created, existing) := inserted in
      others ← insert_candidates confidence endpoint new_id (S n) rest table';
      let '(table'', created', existing') := others in
      Ok (table'', created + created', existing + existing')
  end.

(** What both services do with their candidates. *)
Definition store_candidates (limit_code : string) (confidence : locator -> Z) (db : Bindings) (endpoint : Z)
    (new_id : nat -> Z) (candidates : list locator) : binding_result (OpenAPIBindingInferenceResult * Bindings) :=
  let table := bindings db in
  let new_candidates := List.filter (is_new_candidate table endpoint) candidates in
  let existing := count_if (fun c => negb (operator_bound table endpoint c) && inferred_bound table endpoint c) candidates in
  let skipped := count_if (operator_bound table endpoint) candidates in
  _ ← guard_or (Z.of_nat (length new_candidates) <=? MAX_NEW_INFERRED_BINDINGS) (BindingHTTPException 409 limit_code);
  stored ← insert_candidates confidence endpoint new_id 0 new_candidates table;
  let '(table', created, found) := stored in
  Ok (mkInference endpoint (Z.of_nat (length candidates)) created (Z.of_nat existing + found) (Z.of_nat skipped),
      with_bindings table' db).

(** The handlers turn an error of an inference into a conflict; others escape. *)
Definition inference_http {A} (m : result inference_error A) : binding_result A :=
  match m with
  | Ok a => Ok a
  | Raise (InferenceError code) => Raise (BindingHTTPException 409 code)
  | Raise InferenceTypeError => Raise BindingTypeError
  end.

(** A limit of the listing. *)
Definition MAX_PAGE_SIZE : Z := 100.
Definition MAX_PAGE_OFFSET : Z := 10000.

Section handlers.
Context (unicode_text : pattern_kind -> string -> bool).

Definition infer_openapi_binding_candidates (db : Bindings) (endpoint : EndpointRow) (new_id : nat -> Z)
    : binding_result (OpenAPIBindingInferenceResult * Bindings) :=
  candidates ← inference_http (derive_candidates unicode_text endpoint);
  store_candidates "openapi_binding_creation_limit_exceeded"
    (fun c => if bool_decide (c.1 = "path") then PATH_CONFIDENCE else QUERY_CONFIDENCE)
    db (endpoint_id (endpoint_of endpoint)) new_id candidates.

Definition infer_openapi_body_binding_candidates (db : Bindings) (endpoint : EndpointRow) (new_id : nat -> Z)
    : binding_result (OpenAPIBindingInferenceResult * Bindings) :=
  candidates ← inference_http (derive_body_candidates unicode_text endpoint);
  store_candidates "openapi_body_binding_creation_limit_exceeded" (fun _ => BODY_CONFIDENCE)
    db (endpoint_id (endpoint_of endpoint)) new_id candidates.

(** * Handlers *)

Definition get_endpoint_or_404 (db : Bindings) (endpoint : Z) : binding_result EndpointRow :=
  require (endpoints db !! endpoint) (BindingHTTPException 404 "Endpoint not found.").

Definition infer_endpoint_openapi_binding_candidates (db : Bindings) (endpoint : Z) (new_id : nat -> Z)
    : binding_result (OpenAPIBindingInferenceResult * Bindings) :=
  row ← get_endpoint_or_404 db endpoint;
  infer_openapi_binding_candidates db row new_id.

Definition infer_endpoint_openapi_body_binding_candidates (db : Bindings) (endpoint : Z) (new_id : nat -> Z)
    : binding_result (OpenAPIBindingInferenceResult * Bindings) :=
  row ← get_endpoint_or_404 db endpoint;
  infer_openapi_body_binding_candidates db row new_id.

(** [EndpointResourceBindingCreate] *)
Definition EndpointResourceBindingCreate (location selector : string) (confidence : Z) (state : string) : binding_result unit :=
  guard_or (bool_decide (location ∈ LOCATIONS) && (1 <=? str_len selector) && (str_len selector <=? 500)
            && (0 <=? confidence) && (confidence <=? 100) && bool_decide (state ∈ REVIEW_STATES)
            && selector_valid unicode_text location selector) BindingValidationError.

Definition declares (location selector : string) (parameter : json) : bool :=
  match parameter with
  | JObj o => bool_decide (assoc "name" o = Some (JStr selector)) && bool_decide (assoc "in" o = Some (JStr location))
  | _ => false
  end.

(** Iterating over [endpoint.parameters]: the members of an object and the characters of a
    string are strings. *)
Definition validate_declared_parameter (endpoint : EndpointRow) (location selector : string) : binding_result unit :=
  if bool_decide (location = "body") then Ok tt
  else
    declared ← match endpoint_parameters endpoint with
               | JArr l => Ok (existsb (declares location selector) l)
               | JObj _ | JStr _ => Ok false
               | _ => Raise BindingTypeError
               end;
    guard_or ((declared : bool) || bool_decide (location = "path")
                                   && bool_decide (selector ∈ template_names (endpoint_path (endpoint_of endpoint))))
      (BindingHTTPException 409 "resource_binding_selector_not_declared").

Definition create_endpoint_resource_binding (db : Bindings) (new_id endpoint : Z) (location selector : string)
    (confidence : Z) (state : string) : binding_result (BindingRow * Bindings) :=
  _ ← EndpointResourceBindingCreate location selector confidence state;
  row ← get_endpoint_or_404 db endpoint;
  _ ← validate_declared_parameter row location selector;
  _ ← guard_or (selector_valid unicode_text location selector) BindingValidationError;
  let binding := mkBindingRow new_id (endpoint_id (endpoint_of row)) location selector "operator_supplied" confidence state in
  match insert_binding (bindings db) binding with
  | Ok table => Ok (binding, with_bindings table db)
  | Raise UniqueViolation => Raise (BindingHTTPException 409 "resource_binding_already_exists")
  | Raise e => Raise e
  end.

(** [EndpointResourceBindingReviewUpdate]: a field of the payload is absent, null or a value. *)
Record EndpointResourceBindingReviewUpdate := mkReview {
  review_confidence : option (option Z);
  review_review_state : option (option string)
}.
Definition check_review (u : EndpointResourceBindingReviewUpdate) : bool :=
  match review_confidence u, review_review_state u with
  | None, None => false
  | c, s =>
      match c with None => true | Some None => false | Some (Some c) => (0 <=? c) && (c <=? 100) end
      && match s with None => true | Some None => false | Some (Some s) => bool_decide (s ∈ REVIEW_STATES) end
  end.

Definition select_binding (db : Bindings) (endpoint binding : Z) : binding_result BindingRow :=
  row ← require (bindings db !! binding) (BindingHTTPException 404 "Resource binding not found.");
  _ ← guard_or (binding_endpoint_id row =? endpoint) (BindingHTTPException 404 "Resource binding not found.");
  Ok row.

Definition reviewed (u : EndpointResourceBindingReviewUpdate) (row : BindingRow) : BindingRow :=
  mkBindingRow (binding_id row) (binding_endpoint_id row) (binding_location row) (binding_selector row)
    (binding_provenance row)
    (match review_confidence u with Some (Some c) => c | _ => binding_confidence row end)
    (match review_review_state u with Some (Some s) => s | _ => binding_review_state row end).

Definition update_endpoint_resource_binding_review (db : Bindings) (endpoint binding : Z)
    (u : EndpointResourceBindingReviewUpdate) : binding_result (BindingRow * Bindings) :=
  _ ← guard_or (check_review u) BindingValidationError;
  row ← select_binding db endpoint binding;
  let row' := reviewed u row in
  _ ← guard_or (ck_binding row') BindingIntegrityError;
  Ok (row', with_bindings (<[binding := row']> (bindings db)) db).

Definition list_endpoint_resource_bindings (db : Bindings) (endpoint limit offset : Z) : binding_result (list BindingRow) :=
  _ ← guard_or ((1 <=? limit) && (limit <=? MAX_PAGE_SIZE) && (0 <=? offset) && (offset <=? MAX_PAGE_OFFSET)) BindingValidationError;
  _ ← get_endpoint_or_404 db endpoint;
  Ok (take (Z.to_nat limit) (drop (Z.to_nat offset)
        (order_by binding_id (List.filter (fun b => binding_endpoint_id b =? endpoint) (rows (bindings db)))))).

Definition get_endpoint_resource_binding (db : Bindings) (endpoint binding : Z) : binding_result BindingRow :=
  _ ← get_endpoint_or_404 db endpoint;
  select_binding db endpoint binding.

(** * Requests *)

Inductive binding_request : Type :=
| CreateBinding (new_id endpoint : Z) (location selector : string) (confidence : Z) (state : string)
| InferParameters (endpoint : Z) (new_id : nat -> Z)
| InferBody (endpoint : Z) (new_id : nat -> Z)
| ReviewBinding (endpoint binding : Z) (u : EndpointResourceBindingReviewUpdate).

Definition handle_binding (req : binding_request) (db : Bindings) : binding_result Bindings :=
  match req with
  | CreateBinding i e l s c st => snd <$> create_endpoint_resource_binding db i e l s c st
  | InferParameters e i => snd <$> infer_endpoint_openapi_binding_candidates db e i
  | InferBody e i => snd <$> infer_endpoint_openapi_body_binding_candidates db e i
  | ReviewBinding e b u => snd <$> update_endpoint_resource_binding_review db e b u
  end.

(** Between the requests an import may add endpoints and change the descriptions of those
    there are; the endpoint of a binding cannot be deleted. *)
Inductive bindings_reachable : Bindings -> Prop :=
| bindings_start table : (forall k row, table !! k = Some row -> endpoint_id (endpoint_of row) = k) ->
    bindings_reachable (mkBindings table ∅)
| bindings_step db req db' : bindings_reachable db -> handle_binding req db = Ok db' -> bindings_reachable db'
| bindings_import db table : bindings_reachable db ->
    (forall k row, table !! k = Some row -> endpoint_id (endpoint_of row) = k) ->
    (forall k, is_Some (endpoints db !! k) -> is_Some (table !! k)) -> bindings_reachable (mkBindings table (bindings db)).
End handlers.
