(* ===== verification/MatrixPreview.v ===== *)
(** Previews of access matrices: src/backend/app/services/bola_binding_selection.py,
    bola_matrix_preview.py and bola_binding_matrix_preview.py. Nothing is written: a preview
    composes the selected bindings with the resolution of access facts and the planner.

    The codes of the domain errors are kept, their classes are not told apart: each has its
    own codes. [clean] says whether the session has no pending changes. *)

From stdpp Require Import gmap.
From S2P Require Import Prelude.
From S2P Require Import PyStr.
From S2P Require Import PyJson.
From S2P Require Import Models.
From S2P Require Import Generator.
From S2P Require Import Access.
From S2P Require Import BindingRules.
From S2P Require Import Tables.
From S2P Require Import Bindings.

Open Scope Z_scope.

(** A domain error with its code, or the exception of a lookup in a dict. *)
Inductive preview_error : Type := PreviewError (code : string) | PreviewKeyError.
#[export] Instance preview_error_eq_dec : EqDecision preview_error.
Proof. solve_decision. Defined.
Abbreviation preview_result := (result preview_error).

(** The tables that a preview reads; the assertions are in the order of their ids. *)
Record Metadata := mkMetadata {
  bound : Bindings;
  resources : gmap Z Resource;
  identities : gmap Z TestIdentity;
  assertions : list ResourceAccessAssertion
}.

(** * Selection of a binding *)

Definition MAX_BOLA_BINDING_PARAMETERS : Z := 256.

Record BOLAReviewedBindingSelection := mkSelection {
  selection_endpoint_id : Z;
  selection_binding_id : Z;
  selection_location : string;
  selection_selector : string;
  selection_review_state : string
}.

Definition metadata_invalid : preview_error := PreviewError "bola_binding_endpoint_metadata_invalid".
Definition selector_ambiguous : preview_error := PreviewError "bola_binding_selector_ambiguous".
Definition selector_not_declared : preview_error := PreviewError "bola_binding_selector_not_declared".

Section preview.
Context (unicode_text : pattern_kind -> string -> bool) (clean : bool).

(** The loop over the characters of a path: the name that is open, and the names so far. *)
Fixpoint scan_path (path : string) (start : option string) (names : list string) : preview_result (list string) :=
  match path with
  | EmptyString => match start with Some _ => Raise metadata_invalid | None => Ok names end
  | String c rest =>
      if bool_decide (c = "{"%char) then
        match start with Some _ => Raise metadata_invalid | None => scan_path rest (Some EmptyString) names end
      else if bool_decide (c = "}"%char) then
        match start with
        | None => Raise metadata_invalid
        | Some name =>
            if negb (selector_valid unicode_text "path" name) then Raise metadata_invalid
            else if bool_decide (name ∈ names) then Raise selector_ambiguous
            else scan_path rest None (names ++ [name])
        end
      else scan_path rest (match start with Some name => Some (name +:+ str1 c) | None => None end) names
  end.

Definition _validate_path (path selector : string) : preview_result unit :=
  if 500 <? str_len path then Raise metadata_invalid
  else
    names ← scan_path path None [];
    guard_or (bool_decide (selector ∈ names)) selector_not_declared.

(** One round of the loop over the parameters: whether the parameter is the selected one. *)
Definition query_parameter (selector : string) (parameter : json) : preview_result bool :=
  match parameter with
  | JObj o =>
      match assoc "name" o, assoc "in" o with
      | Some (JStr name), Some (JStr location) =>
          if is_empty name || negb (bool_decide (location ∈ ["path"; "query"; "header"; "cookie"])) then Raise metadata_invalid
          else Ok (bool_decide (location = "query") && bool_decide (name = selector))
      | _, _ => Raise metadata_invalid
      end
  | _ => Raise metadata_invalid
  end.

Definition _validate_query (parameters : json) (selector : string) : preview_result unit :=
  match parameters with
  | JArr l =>
      if MAX_BOLA_BINDING_PARAMETERS <? Z.of_nat (length l) then Raise (PreviewError "bola_binding_parameter_limit_exceeded")
      else
        found ← map_result (query_parameter selector) l;
        match count_if id found with
        | O => Raise selector_not_declared
        | 1%nat => Ok tt
        | _ => Raise selector_ambiguous
        end
  | _ => Raise metadata_invalid
  end.

Definition _positive_id (i : Z) : bool := 0 <? i.

Definition select_bola_binding (db : Bindings) (endpoint binding : Z) : preview_result BOLAReviewedBindingSelection :=
  _ ← guard_or clean (PreviewError "bola_binding_selection_session_not_clean");
  _ ← guard_or (_positive_id endpoint && _positive_id binding) (PreviewError "bola_binding_selection_invalid_input");
  row ← require (endpoints db !! endpoint) (PreviewError "endpoint_not_found");
  b ← require (bindings db !! binding) (PreviewError "bola_binding_not_found");
  _ ← guard_or (binding_endpoint_id b =? endpoint) (PreviewError "bola_binding_endpoint_mismatch");
  _ ← guard_or (bool_decide (binding_review_state b = "confirmed")) (PreviewError "bola_binding_not_confirmed");
  _ ← guard_or (bool_decide (binding_location b ∈ ["path"; "query"])) (PreviewError "bola_binding_location_unsupported");
  _ ← guard_or (selector_valid unicode_text (binding_location b) (binding_selector b)) (PreviewError "bola_binding_selector_invalid");
  _ ← (if bool_decide (binding_location b = "path") then _validate_path (endpoint_path (endpoint_of row)) (binding_selector b)
       else _validate_query (endpoint_parameters row) (binding_selector b));
  Ok (mkSelection endpoint binding (binding_location b) (binding_selector b) (binding_review_state b)).

(** * The preview of one resource *)

Record BOLAMatrixPreview := mkPreview {
  preview_endpoint_id : Z;
  preview_resource_id : Z;
  preview_time : timestamp;
  preview_facts : list BOLAMatrixAccessFact;
  preview_candidates : list BOLAMatrixCandidate
}.

Definition invalid_fact : preview_error := PreviewError "bola_matrix_invalid_access_fact".

(** The loop over the identities that were asked for. *)
Fixpoint check_identity_ids (index : Z) (seen ids : list Z) : preview_result unit :=
  match ids with
  | [] => Ok tt
  | i :: rest =>
      if index =? MAX_BOLA_MATRIX_FACTS then Raise (PreviewError "bola_matrix_fact_limit_exceeded")
      else if negb (_positive_id i) then Raise invalid_fact
      else if bool_decide (i ∈ seen) then Raise (PreviewError "bola_matrix_duplicate_access_fact")
      else check_identity_ids (index + 1) (i :: seen) rest
  end.

Definition planning_code (e : planning_error) : preview_error :=
  PreviewError (match e with
                | FactLimitExceeded => "bola_matrix_fact_limit_exceeded"
                | DuplicateAccessFact => "bola_matrix_duplicate_access_fact"
                | InvalidAccessFact => "bola_matrix_invalid_access_fact"
                end).
Definition access_code (e : access_error) : preview_error := let '(AccessError code _) := e in PreviewError code.

(** An identity that belongs to the Target of the resource and is active. *)
Definition load_identity (m : Metadata) (target i : Z) : preview_result TestIdentity :=
  identity ← require (identities m !! i) (PreviewError "test_identity_not_found");
  _ ← guard_or (identity_target_id identity =? target) (PreviewError "resource_identity_target_mismatch");
  _ ← guard_or (identity_is_active identity) (PreviewError "bola_matrix_identity_inactive");
  Ok identity.

(** One round of the loop that resolves the facts. *)
Definition resolved_fact (m : Metadata) (endpoint resource : Z) (t : timestamp) (identity : TestIdentity)
    : preview_result BOLAMatrixAccessFact :=
  resolution ← catch (resolve_resource_access (resources m !! resource) (identities m !! identity_id identity) (assertions m) (Aware t))
                 (fun e => Raise (access_code e));
  _ ← guard_or ((resolved_resource_id resolution =? resource) && (resolved_identity_id resolution =? identity_id identity)
                && (resolved_at resolution =? t)) (PreviewError "bola_matrix_resolution_mismatch");
  catch (new_fact (mkFact endpoint resource (identity_id identity) (auth_type identity) (state resolution)
                     (resolved_relationship resolution) (resolved_expected_access resolution) (supporting_ids resolution)))
    (fun e => Raise (planning_code e)).

Definition preview_bola_matrix (m : Metadata) (endpoint resource : Z) (ids : list Z) (evaluation_time : datetime)
    : preview_result BOLAMatrixPreview :=
  _ ← guard_or clean (PreviewError "bola_matrix_preview_session_not_clean");
  _ ← guard_or (_positive_id endpoint) invalid_fact;
  _ ← guard_or (_positive_id resource) invalid_fact;
  match evaluation_time with
  | Naive _ => Raise (PreviewError "evaluation_time_timezone_required")
  | Aware t =>
      _ ← check_identity_ids 0 [] ids;
      row ← require (endpoints (bound m) !! endpoint) (PreviewError "endpoint_not_found");
      r ← require (resources m !! resource) (PreviewError "resource_not_found");
      _ ← guard_or (endpoint_target_id (endpoint_of row) =? resource_target_id r)
            (PreviewError "bola_matrix_endpoint_resource_target_mismatch");
      loaded ← map_result (load_identity m (resource_target_id r)) ids;
      facts ← map_result (resolved_fact m endpoint resource t) loaded;
      candidates ← catch (plan_bola_matrix facts) (fun e => Raise (planning_code e));
      Ok (mkPreview endpoint resource t facts candidates)
  end.

(** * The preview of several bindings *)

Definition MAX_BOLA_MATRIX_ASSIGNMENTS : Z := 32.

Record BOLAResourceSlotAssignment := mkAssignment {
  assignment_binding_id : Z;
  assignment_resource_id : Z
}.

Record BOLAAssignedSlotPreview := mkSlot {
  slot_binding : BOLAReviewedBindingSelection;
  slot_preview : BOLAMatrixPreview
}.

Record BOLAMultiBindingPreview := mkMulti {
  multi_endpoint_id : Z;
  multi_evaluation_time : timestamp;
  multi_test_identity_ids : list Z;
  multi_slots : list BOLAAssignedSlotPreview
}.

Definition matrix_invalid : preview_error := PreviewError "bola_binding_matrix_invalid_input".
Definition dependency_mismatch : preview_error := PreviewError "bola_binding_matrix_dependency_mismatch".

Definition assignment_valid (a : BOLAResourceSlotAssignment) : bool :=
  _positive_id (assignment_binding_id a) && _positive_id (assignment_resource_id a).

(** [BOLAResourceSlotAssignment(...)] *)
Definition new_assignment (binding resource : Z) : preview_result BOLAResourceSlotAssignment :=
  let a := mkAssignment binding resource in if assignment_valid a then Ok a else Raise matrix_invalid.

Fixpoint check_assignments (index : Z) (seen : list Z) (l : list BOLAResourceSlotAssignment) : preview_result unit :=
  match l with
  | [] => Ok tt
  | a :: rest =>
      if index =? MAX_BOLA_MATRIX_ASSIGNMENTS then Raise (PreviewError "bola_binding_matrix_assignment_limit_exceeded")
      else if negb (assignment_valid a) then Raise matrix_invalid
      else if bool_decide (assignment_binding_id a ∈ seen) then Raise (PreviewError "bola_binding_matrix_duplicate_binding")
      else check_assignments (index + 1) (assignment_binding_id a :: seen) rest
  end.

(** The loop that selects the bindings; no two of them name the same slot. *)
Fixpoint select_bindings (db : Bindings) (endpoint : Z) (slots : list (string * string)) (l : list BOLAResourceSlotAssignment)
    : preview_result (list BOLAReviewedBindingSelection) :=
  match l with
  | [] => Ok []
  | a :: rest =>
      s ← select_bola_binding db endpoint (assignment_binding_id a);
      _ ← guard_or ((selection_endpoint_id s =? endpoint) && (selection_binding_id s =? assignment_binding_id a)
                    && bool_decide (selection_review_state s = "confirmed")
                    && bool_decide (selection_location s ∈ ["path"; "query"]) && negb (is_empty (selection_selector s)))
            dependency_mismatch;
      let slot := (selection_location s, selection_selector s) in
      _ ← guard_or (negb (bool_decide (slot ∈ slots))) (PreviewError "bola_binding_matrix_duplicate_slot");
      others ← select_bindings db endpoint (slot :: slots) rest;
      Ok (s :: others)
  end.

Definition _check_preview (p : BOLAMatrixPreview) (endpoint resource : Z) (ids : list Z) (t : timestamp) : preview_result unit :=
  guard_or ((preview_endpoint_id p =? endpoint) && (preview_resource_id p =? resource) && (preview_time p =? t)
            && forallb (fun f => (fact_endpoint_id f =? endpoint) && (fact_resource_id f =? resource)) (preview_facts p)
            && bool_decide (fact_test_identity_id <$> preview_facts p = ids)) dependency_mismatch.

(** The loop over the resources; each is previewed once. *)
Fixpoint preview_resources (m : Metadata) (endpoint : Z) (ids : list Z) (t : timestamp) (l : list BOLAResourceSlotAssignment)
    (previews : gmap Z BOLAMatrixPreview) : preview_result (gmap Z BOLAMatrixPreview) :=
  match l with
  | [] => Ok previews
  | a :: rest =>
      let resource := assignment_resource_id a in
      match previews !! resource with
      | Some _ => preview_resources m endpoint ids t rest previews
      | None =>
          p ← preview_bola_matrix m endpoint resource ids (Aware t);
          _ ← _check_preview p endpoint resource ids t;
          preview_resources m endpoint ids t rest (<[resource := p]> previews)
      end
  end.

Definition preview_bola_binding_matrix (m : Metadata) (endpoint : Z) (proposed : list BOLAResourceSlotAssignment)
    (ids : list Z) (evaluation_time : datetime) : preview_result BOLAMultiBindingPreview :=
  _ ← guard_or clean (PreviewError "bola_binding_matrix_session_not_clean");
  _ ← guard_or (_positive_id endpoint) matrix_invalid;
  match evaluation_time with
  | Naive _ => Raise (PreviewError "evaluation_time_timezone_required")
  | Aware t =>
      _ ← check_assignments 0 [] proposed;
      _ ← guard_or (negb (Nat.eqb (length proposed) 0)) matrix_invalid;
      _ ← check_identity_ids 0 [] ids;
      _ ← guard_or (Z.of_nat (length proposed) * Z.of_nat (length ids) <=? MAX_BOLA_MATRIX_FACTS)
            (PreviewError "bola_matrix_fact_limit_exceeded");
      selections ← select_bindings (bound m) endpoint [] proposed;
      previews ← preview_resources m endpoint ids t proposed ∅;
      slots ← map_result (fun sa => p ← require (previews !! assignment_resource_id sa.2) PreviewKeyError;
                                    Ok (mkSlot sa.1 p)) (zip selections proposed);
      Ok (mkMulti endpoint t ids slots)
  end.
End preview.
