(* ===== verification/PreviewRoute.v ===== *)
(** The preview operation of the API: src/backend/app/api/routes/bola_matrix.py with the
    strict types of schemas/bola_matrix.py.

    Outside are [json.loads] with the hooks of the handler ([parse_json], [None] where it
    raises) and the length of the encoded answer ([encoded_length]). *)

From stdpp Require Import gmap.
From S2P Require Import Prelude.
From S2P Require Import PyStr.
From S2P Require Import PyJson.
From S2P Require Import PyTime.
From S2P Require Import Models.
From S2P Require Import Generator.
From S2P Require Import Access.
From S2P Require Import BindingRules.
From S2P Require Import MatrixPreview.

Open Scope Z_scope.

Definition MAX_BOLA_MATRIX_REQUEST_BYTES : Z := 65536.
Definition MAX_BOLA_MATRIX_RESPONSE_BYTES : Z := 4194304.
Definition INVALID_REQUEST : string := "bola_matrix_preview_invalid_request".
Definition FAILED : string := "bola_matrix_preview_failed".

(** [DOMAIN_STATUS] *)
Definition DOMAIN_STATUS (code : string) : option Z :=
  if bool_decide (code ∈ ["endpoint_not_found"; "resource_not_found"; "test_identity_not_found"; "bola_binding_not_found"]) then Some 404
  else if bool_decide (code ∈
    ["bola_binding_matrix_invalid_input"; "bola_binding_matrix_assignment_limit_exceeded";
     "bola_binding_matrix_duplicate_binding"; "bola_matrix_invalid_access_fact";
     "bola_matrix_duplicate_access_fact"; "bola_matrix_fact_limit_exceeded";
     "bola_matrix_evaluation_time_invalid"; "evaluation_time_timezone_required";
     "bola_binding_selection_invalid_input"]) then Some 422
  else if bool_decide (code ∈
    ["bola_binding_matrix_duplicate_slot"; "bola_binding_endpoint_mismatch";
     "bola_binding_not_confirmed"; "bola_binding_location_unsupported"; "bola_binding_selector_invalid";
     "bola_binding_endpoint_metadata_invalid"; "bola_binding_selector_ambiguous";
     "bola_binding_selector_not_declared"; "bola_binding_parameter_limit_exceeded";
     "bola_matrix_endpoint_resource_target_mismatch"; "resource_identity_target_mismatch";
     "bola_matrix_identity_inactive"; "resource_access_resolution_limit_exceeded"]) then Some 409
  else None.

(** An error answer: its status and detail. *)
Inductive answer_error : Type := ErrorAnswer (status : Z) (detail : string).
#[export] Instance answer_error_eq_dec : EqDecision answer_error.
Proof. solve_decision. Defined.

(** The [except] clauses of [scoped_handler] for an error of the services. *)
Definition domain_answer (e : preview_error) : answer_error :=
  match e with
  | PreviewError code => match DOMAIN_STATUS code with Some status => ErrorAnswer status code | None => ErrorAnswer 500 FAILED end
  | PreviewKeyError => ErrorAnswer 500 FAILED
  end.

(** * Times *)

(** The offset of an RFC3339 text, [Z] or hours and minutes, as the expression requires. *)
Definition offset_of (s : string) : option Z :=
  if bool_decide (s ∈ ["Z"; "z"]) then Some 0
  else if PyTime.matches "+dd:dd" s || PyTime.matches "-dd:dd" s then
    let h := number_at 1 2 s in
    let m := number_at 4 2 s in
    if (h <=? 23) && (m <=? 59) then Some ((if startswith "-" s then -1 else 1) * ((h * 60 + m) * 60000000)) else None
  else None.

(** Digits after a point, at most six, as microseconds. *)
Definition fraction_of (digits : string) : option Z :=
  let n := String.length digits in
  if (1 <=? Z.of_nat n) && (Z.of_nat n <=? 6) then Some (parse_nat digits * 10 ^ (6 - Z.of_nat n)) else None.

(** [RFC3339.fullmatch], [datetime.fromisoformat] and the conversion to UTC, which may
    overflow: the instant. *)
Definition explicit_time (value : string) : option timestamp :=
  let head := str_take 19 value in
  let rest := str_drop 19 value in
  if PyTime.matches "dddd-dd-ddTdd:dd:dd" head || PyTime.matches "dddd-dd-ddtdd:dd:dd" head then
    parts ← (match rest with
             | String "." more => let '(digits, zone) := span is_digit more in us ← fraction_of digits; Some (us, zone)
             | _ => Some (0, rest)
             end);
    offset ← offset_of parts.2;
    let d := mkDate (number_at 0 4 head) (number_at 5 2 head) (number_at 8 2 head) in
    let h := number_at 11 2 head in
    let m := number_at 14 2 head in
    let sec := number_at 17 2 head in
    if date_valid d && (h <=? 23) && (m <=? 59) && (sec <=? 59) then
      let t := (days_of_date d - epoch_days) * day_us + ((h * 60 + m) * 60 + sec) * 1000000 + parts.1 - offset in
      if instant_valid t then Some t else None
    else None
  else None.

(** * The request *)

Record BOLAMatrixPreviewRequest := mkRequest {
  request_endpoint_id : Z;
  request_assignments : list (Z * Z);
  request_test_identity_ids : list Z;
  request_evaluation_time : timestamp
}.

Definition identifier_ok (i : Z) : bool := (1 <=? i) && (i <=? 2147483647).
(** A strict [Identifier]. *)
Definition identifier (j : json) : option Z :=
  match j with JInt i => if identifier_ok i then Some i else None | _ => None end.

(** The members of a model that forbids extra ones. *)
Definition strict_members (names : list string) (j : json) : option (list (string * json)) :=
  match j with
  | JObj o => if bool_decide (Forall (fun kv => kv.1 ∈ names) o) then Some o else None
  | _ => None
  end.

Definition slot_request (j : json) : option (Z * Z) :=
  o ← strict_members ["binding_id"; "resource_id"] j;
  b ← assoc "binding_id" o ≫= identifier;
  r ← assoc "resource_id" o ≫= identifier;
  Some (b, r).

Definition array (j : json) : option (list json) := match j with JArr l => Some l | _ => None end.

Definition unique_bounded_cells (r : BOLAMatrixPreviewRequest) : bool :=
  bool_decide (NoDup (fst <$> request_assignments r)) && bool_decide (NoDup (request_test_identity_ids r))
  && (Z.of_nat (length (request_assignments r)) * Z.of_nat (length (request_test_identity_ids r)) <=? MAX_BOLA_MATRIX_FACTS).

(** [BOLAMatrixPreviewRequest.model_validate] *)
Definition validate_request (document : json) : option BOLAMatrixPreviewRequest :=
  o ← strict_members ["endpoint_id"; "assignments"; "test_identity_ids"; "evaluation_time"] document;
  endpoint ← assoc "endpoint_id" o ≫= identifier;
  slots ← assoc "assignments" o ≫= array;
  proposed ← mapM slot_request slots;
  ids ← assoc "test_identity_ids" o ≫= array;
  identified ← mapM identifier ids;
  text ← assoc "evaluation_time" o;
  t ← (match text with JStr s => explicit_time s | _ => None end);
  let r := mkRequest endpoint proposed identified t in
  if (1 <=? Z.of_nat (length proposed)) && (Z.of_nat (length proposed) <=? MAX_BOLA_MATRIX_ASSIGNMENTS)
     && (Z.of_nat (length identified) <=? MAX_BOLA_MATRIX_FACTS) && unique_bounded_cells r then Some r else None.

(** What the handler reads of an HTTP request. *)
Record HttpRequest := mkHttpRequest {
  content_types : list string;
  content_encodings : list string;
  chunks : list string;
  has_query_params : bool
}.

Definition media_type_ok (r : HttpRequest) : bool :=
  match content_types r with
  | [value] =>
      match split_char ";" (lower value) with
      | [media] => bool_decide (strip media = "application/json")
      | [media; charset] => bool_decide (strip media = "application/json")
                            && bool_decide (strip charset ∈ ["charset=utf-8"; "charset=" +:+ str1 dquote +:+ "utf-8" +:+ str1 dquote])
      | _ => false
      end
  | _ => false
  end
  && match content_encodings r with [] => true | [e] => bool_decide (lower (strip e) = "identity") | _ => false end.

(** The loop over the stream. *)
Fixpoint read_chunks (raw : string) (l : list string) : option string :=
  match l with
  | [] => Some raw
  | chunk :: rest => if MAX_BOLA_MATRIX_REQUEST_BYTES <? byte_len raw + byte_len chunk then None else read_chunks (raw +:+ chunk) rest
  end.

(** * The answer *)

Definition within {A} (limit : Z) (l : list A) : bool := Z.of_nat (length l) <=? limit.

(** The fields of the answer's types. *)
Definition fact_answer_ok (f : BOLAMatrixAccessFact) : bool :=
  identifier_ok (fact_endpoint_id f) && identifier_ok (fact_resource_id f) && identifier_ok (fact_test_identity_id f)
  && (str_len (identity_auth_type f) <=? 30)
  && bool_decide (resolution_state f ∈ ["resolved"; "insufficient"; "conflict"])
  && bool_decide (fact_relationship f ∈ ["owner"; "shared"; "non_owner"; "unspecified"])
  && bool_decide (fact_expected_access f ∈ ["allowed"; "denied"; "unspecified"])
  && forallb identifier_ok (supporting_assertion_ids f) && within MAX_ASSERTIONS_SCANNED (supporting_assertion_ids f).

Definition candidate_answer_ok (c : BOLAMatrixCandidate) : bool :=
  identifier_ok (candidate_endpoint_id c) && identifier_ok (candidate_resource_id c) && identifier_ok (candidate_test_identity_id c)
  && bool_decide (subject_kind c ∈ ["anonymous"; "authenticated"])
  && bool_decide (candidate_kind c ∈ ["anonymous_access"; "owner_access"; "shared_access"; "cross_subject_access"])
  && bool_decide (candidate_relationship c ∈ ["owner"; "shared"; "non_owner"; "unspecified"])
  && bool_decide (candidate_expected_access c ∈ ["allowed"; "denied"])
  && forallb identifier_ok (candidate_assertion_ids c) && within MAX_ASSERTIONS_SCANNED (candidate_assertion_ids c).

Definition binding_answer_ok (s : BOLAReviewedBindingSelection) : bool :=
  identifier_ok (selection_endpoint_id s) && identifier_ok (selection_binding_id s)
  && bool_decide (selection_location s ∈ ["path"; "query"])
  && (1 <=? str_len (selection_selector s)) && (str_len (selection_selector s) <=? 128)
  && bool_decide (selection_review_state s = "confirmed").

Definition slot_answer_ok (ids : list Z) (slot : BOLAAssignedSlotPreview) : bool :=
  let p := slot_preview slot in
  within (Z.of_nat (length ids)) (preview_facts p) && within (Z.of_nat (length ids)) (preview_candidates p)
  && binding_answer_ok (slot_binding slot) && identifier_ok (preview_endpoint_id p) && identifier_ok (preview_resource_id p)
  && forallb fact_answer_ok (preview_facts p) && forallb candidate_answer_ok (preview_candidates p).

(** The correlation of one slot with its assignment. *)
Definition slot_correlated (value : BOLAMultiBindingPreview) (instant : timestamp) (slot : BOLAAssignedSlotPreview) (a : Z * Z) : bool :=
  let p := slot_preview slot in
  (selection_endpoint_id (slot_binding slot) =? multi_endpoint_id value)
  && (selection_binding_id (slot_binding slot) =? a.1)
  && (preview_endpoint_id p =? multi_endpoint_id value) && (preview_resource_id p =? a.2) && (preview_time p =? instant)
  && bool_decide (fact_test_identity_id <$> preview_facts p = multi_test_identity_ids value)
  && forallb (fun f => (fact_endpoint_id f =? multi_endpoint_id value) && (fact_resource_id f =? a.2)) (preview_facts p)
  && forallb (fun c => (candidate_endpoint_id c =? multi_endpoint_id value) && (candidate_resource_id c =? a.2)
                       && bool_decide (candidate_test_identity_id c ∈ multi_test_identity_ids value)) (preview_candidates p).

(** [BOLAMatrixPreviewResponse.from_preview]: whether it raises nothing. *)
Definition from_preview (value : BOLAMultiBindingPreview) (request : BOLAMatrixPreviewRequest) : bool :=
  let slots := multi_slots value in
  let ids := multi_test_identity_ids value in
  within MAX_BOLA_MATRIX_ASSIGNMENTS slots && within MAX_BOLA_MATRIX_FACTS ids
  && (Z.of_nat (length slots) * Z.of_nat (length ids) <=? MAX_BOLA_MATRIX_FACTS)
  && forallb (slot_answer_ok ids) slots
  && identifier_ok (multi_endpoint_id value) && forallb identifier_ok ids && (1 <=? Z.of_nat (length slots))
  && (multi_endpoint_id value =? request_endpoint_id request)
  && (multi_evaluation_time value =? request_evaluation_time request)
  && bool_decide (ids = request_test_identity_ids request)
  && (Z.of_nat (length slots) =? Z.of_nat (length (request_assignments request)))
  && forallb (fun sa => slot_correlated value (request_evaluation_time request) sa.1 sa.2) (zip slots (request_assignments request)).

Section route.
Context (unicode_text : pattern_kind -> string -> bool).
Context (parse_json : string -> option json) (encoded_length : BOLAMultiBindingPreview -> Z).

Definition _read_request (r : HttpRequest) : result answer_error BOLAMatrixPreviewRequest :=
  _ ← guard_or (media_type_ok r) (ErrorAnswer 415 "bola_matrix_preview_media_type_unsupported");
  raw ← require (read_chunks EmptyString (chunks r)) (ErrorAnswer 413 "bola_matrix_preview_request_limit_exceeded");
  _ ← guard_or (negb (has_query_params r)) (ErrorAnswer 422 INVALID_REQUEST);
  require (parse_json raw ≫= validate_request) (ErrorAnswer 422 INVALID_REQUEST).

(** The session of the request is new, and so has no pending changes. *)
Definition preview_matrix (m : Metadata) (payload : BOLAMatrixPreviewRequest) : result answer_error BOLAMultiBindingPreview :=
  proposed ← catch (map_result (fun a => new_assignment a.1 a.2) (request_assignments payload)) (fun e => Raise (domain_answer e));
  preview ← catch (preview_bola_binding_matrix unicode_text true m (request_endpoint_id payload) proposed
                     (request_test_identity_ids payload) (Aware (request_evaluation_time payload)))
              (fun e => Raise (domain_answer e));
  _ ← guard_or (from_preview preview payload) (ErrorAnswer 500 FAILED);
  _ ← guard_or (encoded_length preview <=? MAX_BOLA_MATRIX_RESPONSE_BYTES) (ErrorAnswer 500 "bola_matrix_preview_response_limit_exceeded");
  Ok preview.

Definition post_preview (m : Metadata) (r : HttpRequest) : result answer_error BOLAMultiBindingPreview :=
  payload ← _read_request r;
  preview_matrix m payload.
End route.
