(* ===== verification/BindingSafety.v ===== *)
(** What the table of bindings promises: candidates are exactly the identifiers that a
    description names, inference adds them once and leaves every other row as it is, and every
    row that any sequence of requests makes is valid and unique. *)

From stdpp Require Import gmap.
From S2P Require Import Prelude.
From S2P Require Import PyStr.
From S2P Require Import PyJson.
From S2P Require Import Models.
From S2P Require Import Samples.
From S2P Require Import BindingRules.
From S2P Require Import Tables.
From S2P Require Import Bindings.

Open Scope Z_scope.

(** * Definitions *)

(** A schema inside another: the names on the way, through the properties of objects. *)
Inductive schema_at (root : list (string * json)) : list string -> list (string * json) -> Prop :=
| at_root : schema_at root [] root
| at_property path schema properties name child :
    schema_at root path schema ->
    assoc "type" schema <> Some (JStr "array") -> assoc "items" schema = None ->
    assoc "properties" schema = Some (JObj properties) -> assoc name properties = Some (JObj child) ->
    schema_at root (path ++ [name]) child.

(** A value that is no array and no object. *)
Definition scalar_schema (schema : list (string * json)) : Prop :=
  assoc "type" schema <> Some (JStr "array") /\ assoc "items" schema = None
  /\ assoc "type" schema <> Some (JStr "object")
  /\ (assoc "properties" schema = None \/ assoc "properties" schema = Some JNull).

(** RFC 6901: the token that an escaped one stands for, and the path of a pointer. *)
Fixpoint unescape_token (s : string) : string :=
  match s with
  | String "~" (String "1" t) => String "/" (unescape_token t)
  | String "~" (String "0" t) => String "~" (unescape_token t)
  | String c t => String c (unescape_token t)
  | EmptyString => EmptyString
  end.
Definition path_of_pointer (pointer : string) : list string :=
  match pointer with String _ rest => unescape_token <$> split_char "/" rest | EmptyString => [] end.

Definition new_rows (table : gmap Z BindingRow) (confidence : locator -> Z) (endpoint : Z) (l : list locator)
    (table' : gmap Z BindingRow) : Prop :=
  table ⊆ table'
  /\ (forall k row, table' !! k = Some row -> table !! k = None ->
        exists c, c ∈ l /\ row = inferred_row confidence endpoint k c)
  /\ (forall c, c ∈ l -> exists k, table' !! k = Some (inferred_row confidence endpoint k c)).

(** Every row is valid and no two have the same exact key. *)
Record bindings_sound (unicode_text : pattern_kind -> string -> bool) (db : Bindings) : Prop := mkBindingsSound {
  sound_endpoints : forall k row, endpoints db !! k = Some row -> endpoint_id (endpoint_of row) = k;
  sound_rows : forall k b, bindings db !! k = Some b ->
    binding_id b = k /\ ck_binding b = true /\ selector_valid unicode_text (binding_location b) (binding_selector b) = true
    /\ is_Some (endpoints db !! binding_endpoint_id b);
  sound_exact : forall key, at_most_one (fun b => bool_decide (exact_key b = key)) (bindings db)
}.

(** * Candidates *)

Lemma elem_of_insert_locator x y l : x ∈ insert_locator y l <-> x = y \/ x ∈ l.
Proof.
  induction l as [|z l IH]; cbn; [by rewrite !elem_of_cons|].
  case_if; rewrite !elem_of_cons; [done|]. rewrite IH. tauto.
Qed.
Lemma elem_of_sort_locators x l : x ∈ sort_locators l <-> x ∈ l.
Proof. induction l as [|y l IH]; cbn; [done|]. by rewrite elem_of_insert_locator, elem_of_cons, IH. Qed.
Lemma sort_locators_perm l : sort_locators l ≡ₚ l.
Proof.
  induction l as [|x l IH]; cbn; [done|]. rewrite <- IH at 2. generalize (sort_locators l). clear. intros l.
  induction l as [|y l IH]; cbn; [done|]. case_if; [done|]. rewrite IH. apply Permutation_swap.
Qed.
Lemma sorted_set_nodup l : NoDup (sort_locators (remove_dups l)).
Proof. rewrite sort_locators_perm. apply NoDup_remove_dups. Qed.
Lemma elem_of_sorted_set x l : x ∈ sort_locators (remove_dups l) <-> x ∈ l.
Proof. by rewrite elem_of_sort_locators, elem_of_remove_dups. Qed.

Section candidates.
Context (unicode_text : pattern_kind -> string -> bool).
Abbreviation visit := (visit_schema unicode_text).

(** A schema below a pending one. *)
Definition below (item : pending_schema) (path : list string) (schema : list (string * json)) : Prop :=
  exists rest, path = item.1.2 ++ rest /\ schema_at item.1.1 rest schema.

Definition candidate_at (path : list string) (schema : list (string * json)) (c : locator) : Prop :=
  scalar_schema schema /\ exists name, last path = Some name
    /\ is_identifier_name_or_uuid name (Some (JObj schema)) = true
    /\ selector_valid unicode_text "body" (pointer_of path) = true /\ c = ("body", pointer_of path).

Lemma elem_of_children x properties path depth : x ∈ children_of properties path depth <->
  exists name child, assoc name properties = Some (JObj child) /\ x = (child, path ++ [name], depth + 1).
Proof.
  unfold children_of. rewrite list_elem_of_omap. split.
  - intros (name & _ & H). destruct (assoc name properties) as [[]|] eqn:E; try discriminate. injection H as <-. eauto.
  - intros (name & child & E & ->). exists name. rewrite E. split; [|done].
    apply elem_of_sort_strings, list_elem_of_fmap. exists (name, JObj child). split; [done|]. by apply assoc_elem.
Qed.

(** Below a schema are itself and what is below its properties. *)
Lemma below_step schema path depth q leaf : below (schema, path, depth) q leaf <->
  (q = path /\ leaf = schema)
  \/ exists properties, assoc "type" schema <> Some (JStr "array") /\ assoc "items" schema = None
     /\ assoc "properties" schema = Some (JObj properties)
     /\ exists item, item ∈ children_of properties path depth /\ below item q leaf.
Proof.
  unfold below. cbn [fst snd]. split.
  - intros (rest & -> & H). induction H as [|rest mid properties name child H IH Ht Hi Hp Hn].
    + left. by rewrite app_nil_r.
    + right. destruct IH as [[Hr Hm]|(properties' & Ht' & Hi' & Hp' & item & Hitem & rest' & Hq & Hbelow)].
      * assert (rest = []) as -> by (apply (app_inv_head path); by rewrite app_nil_r).
        subst mid. exists properties. split_and!; try done. exists (child, path ++ [name], depth + 1).
        split; [by apply elem_of_children; eauto|]. exists []. split; [by rewrite app_nil_r|]. constructor.
      * exists properties'. split_and!; try done. exists item. split; [done|].
        exists (rest' ++ [name]). split; [by rewrite app_assoc, Hq, <- app_assoc|]. by eapply at_property.
  - intros [[-> ->]|(properties & Ht & Hi & Hp & item & (name & child & Hn & ->)%elem_of_children & rest & -> & H)].
    + exists []. split; [by rewrite app_nil_r | constructor].
    + cbn [fst snd] in *. exists (name :: rest). split; [by rewrite <- app_assoc|].
      clear -Ht Hi Hp Hn H. induction H as [|rest mid properties' name' child' H IH Ht' Hi' Hp' Hn'].
      * apply (at_property _ [] schema properties name child); try done. constructor.
      * apply (at_property _ (name :: rest) mid properties' name' child'); done.
Qed.

(** A candidate that a pending schema gives in the end. *)
Definition yields (item : pending_schema) (c : locator) : Prop :=
  exists q leaf, below item q leaf /\ candidate_at q leaf c.

Lemma array_or_items schema : bool_decide (assoc "type" schema = Some (JStr "array")) || negb (is_none (assoc "items" schema)) = false <->
  assoc "type" schema <> Some (JStr "array") /\ assoc "items" schema = None.
Proof.
  rewrite orb_false_iff, bool_decide_eq_false, negb_false_iff. destruct (assoc "items" schema); cbn; naive_solver.
Qed.

Lemma visit_yields item cs o c : visit item = Ok (cs, o) ->
  yields item c <-> o = Some c \/ exists x, x ∈ cs /\ yields x c.
Proof.
  destruct item as [[schema path] depth]. unfold visit_schema. intros H.
  assert (Hself : yields (schema, path, depth) c <-> candidate_at path schema c
    \/ exists properties, assoc "type" schema <> Some (JStr "array") /\ assoc "items" schema = None
       /\ assoc "properties" schema = Some (JObj properties) /\ exists x, x ∈ children_of properties path depth /\ yields x c).
  { unfold yields. split.
    - intros (q & leaf & [[-> ->]|(properties & ? & ? & ? & x & ? & ?)]%below_step & ?); [by left|]. right. eauto 12.
    - intros [Hc|(properties & ? & ? & ? & x & ? & q & leaf & ? & ?)].
      + exists path, schema. split; [|done]. apply below_step. by left.
      + exists q, leaf. split; [|done]. apply below_step. right. eauto 12. }
  rewrite Hself. clear Hself. head_if H; [done|]. head_if H; [done|].
  destruct (bool_decide _ || negb _) eqn:Ea in H.
  { injection H as <- <-. split; [|by intros [?|(x & ?%elem_of_nil & _)]].
    intros [[(Ht & Hi & _) _]|(properties & Ht & Hi & _)]; rewrite (proj2 (array_or_items schema)) in Ea; done. }
  apply array_or_items in Ea as [Ht Hi].
  destruct (assoc "properties" schema) as [[| | | | | |properties]|] eqn:Ep; try discriminate H.
  all: cycle 1.
  { destruct (not_object_type (assoc "type" schema)) as [[]|]; try discriminate H. cbn in H. head_if H; [done|].
    injection H as <- <-. split.
    - intros [[(_ & _ & _ & [?|?]) _]|(properties' & _ & _ & [= <-] & Hx)]; [congruence..|]. by right.
    - intros [?|Hx]; [done|]. right. by exists properties. }
  all: head_if H; bool_simpl.
  1, 3: injection H as <- <-; split; [|by intros [?|(x & ?%elem_of_nil & _)]];
    intros [[(_ & _ & Ho & _) _]|(properties & _ & _ & ? & _)]; congruence.
  all: assert (Hscalar : scalar_schema schema) by (split_and!; eauto).
  all: destruct (last path) as [name|] eqn:El; injection H as <- <-.
  2, 4: split; [|by intros [?|(x & ?%elem_of_nil & _)]]; intros [(_ & name & ? & _)|(properties & _ & _ & ? & _)]; congruence.
  all: split; [intros [(_ & name' & Hl & Hid & Hv & ->)|(properties & _ & _ & ? & _)]; [|congruence]; left;
      replace name' with name in Hid by congruence; by rewrite Hid, Hv|].
  all: intros [Hc|(x & ?%elem_of_nil & _)]; [|done]; case_if_in Hc; [|done]; injection Hc as <-; bool_simpl;
    left; split; [done|]; by exists name.
Qed.

Lemma visit_schemas_yields fuel pending found c : visit_schemas unicode_text fuel pending = Ok found ->
  c ∈ found <-> exists x, x ∈ pending /\ yields x c.
Proof.
  revert pending found. induction fuel as [|fuel IH]; intros [|item rest] found H; cbn in H; try discriminate.
  1, 2: injection H as <-; split; [by intros ?%elem_of_nil | by intros (x & ?%elem_of_nil & _)].
  apply bind_ok in H as ([cs o] & Hv & (found' & Hf & [= <-])%bind_ok). cbn [fst snd] in *.
  rewrite elem_of_app, (IH _ _ Hf). setoid_rewrite elem_of_app. setoid_rewrite elem_of_cons.
  assert (Ho : c ∈ option_list o <-> o = Some c).
  { destruct o; cbn; rewrite ?list_elem_of_singleton, ?elem_of_nil; naive_solver. }
  rewrite Ho. pose proof (visit_yields item cs o c Hv). naive_solver.
Qed.

(** Body candidates are exactly the pointers to the scalars of the schema whose last name is
    that of an identifier. *)
Lemma body_candidates_exact endpoint root l : request_body_schema endpoint = Some root ->
  derive_body_candidates unicode_text endpoint = Ok l ->
  NoDup l /\ forall c, c ∈ l <-> exists path schema, schema_at root path schema /\ candidate_at path schema c.
Proof.
  unfold derive_body_candidates. intros -> (found & Hf & [= <-])%bind_ok. split; [apply sorted_set_nodup|].
  intros c. rewrite elem_of_sorted_set, (visit_schemas_yields _ _ _ _ Hf). split.
  - intros (x & ->%list_elem_of_singleton & q & leaf & (rest & -> & H) & Hc). eauto.
  - intros (path & schema & H & Hc). exists (root, [], 1). split; [by apply list_elem_of_singleton|].
    exists path, schema. split; [|done]. by exists path.
Qed.

(** The same of parameters. *)
Definition identifies (path : string) (parameters : list json) (c : locator) : Prop :=
  exists o, JObj o ∈ parameters /\ assoc "name" o = Some (JStr c.2) /\ assoc "in" o = Some (JStr c.1)
    /\ c.1 ∈ ["path"; "query"] /\ selector_valid unicode_text c.1 c.2 = true
    /\ (c.1 = "path" -> c.2 ∈ template_names path)
    /\ is_identifier_name_or_uuid c.2 (assoc "schema" o) = true.

Lemma parameter_candidate_spec path parameter o c : parameter_candidate unicode_text path parameter = Ok o ->
  o = Some c <-> identifies path [parameter] c.
Proof.
  intros H. transitivity (exists members, parameter = JObj members /\ identifies path [JObj members] c).
  2: { split; [by intros (? & -> & ?)|]. intros (members & Hm & H'). apply list_elem_of_singleton in Hm as <-.
       exists members. split; [done|]. exists members. split; [by apply list_elem_of_singleton | done]. }
  unfold parameter_candidate in H. destruct parameter as [| | | | | |members]; try (injection H as <-; by split; [|intros (? & ? & _)]).
  assert (Hd : (exists m, JObj members = JObj m /\ identifies path [JObj m] c) <->
    assoc "name" members = Some (JStr c.2) /\ assoc "in" members = Some (JStr c.1) /\ c.1 ∈ ["path"; "query"]
    /\ selector_valid unicode_text c.1 c.2 = true /\ (c.1 = "path" -> c.2 ∈ template_names path)
    /\ is_identifier_name_or_uuid c.2 (assoc "schema" members) = true).
  { split.
    - intros (m & [= <-] & m' & [= ->]%list_elem_of_singleton & H'). done.
    - intros H'. exists members. split; [done|]. exists members. split; [by apply list_elem_of_singleton | done]. }
  rewrite Hd. clear Hd. destruct (assoc "name" members) as [[| | | |name| |]|]; try (injection H as <-; by split; [|intros (? & _)]).
  destruct (assoc "in" members) as [v|]; [|injection H as <-; by split; [|intros (_ & ? & _)]].
  assert (Hv : (exists location, v = JStr location) \/ (forall location, v <> JStr location)) by (destruct v; eauto).
  destruct Hv as [[location ->]|Hv].
  2: { assert (o = None) as -> by (destruct v; cbn in H; try congruence; by destruct (Hv s)).
       split; [done|]. intros (_ & [= ->] & _). by destruct (Hv c.1). }
  injection H as <-. destruct c as [l n]. cbn [fst snd]. case_if; bool_simpl.
  - split; [intros [= <- <-] | by intros ([= ->] & [= ->] & _)]. split_and!; try done. intros ->.
    rename select (_ && _ = false) into Hp. rewrite bool_decide_eq_true_2 in Hp by done. cbn in Hp. by bool_simpl.
  - split; [done|]. intros ([= ->] & [= ->] & Hl & Hs & Hp & Hi). rewrite Hs, Hi, (bool_decide_eq_true_2 _ Hl) in E. cbn in E.
    rewrite andb_true_r in E. bool_simpl. tauto.
Qed.

Lemma parameter_candidates_exact endpoint l : derive_candidates unicode_text endpoint = Ok l ->
  NoDup l /\ forall c, c ∈ l <-> exists parameters, endpoint_parameters endpoint = JArr parameters
    /\ identifies (endpoint_path (endpoint_of endpoint)) parameters c.
Proof.
  unfold derive_candidates. destruct (endpoint_parameters endpoint) as [| | | | |parameters|];
    try (intros [= <-]; split; [constructor|]; intros c; split; [by intros ?%elem_of_nil | by intros (? & ? & _)]).
  case_if; [done|]. intros (found & Hf & [= <-])%bind_ok. split; [apply sorted_set_nodup|]. intros c.
  rewrite elem_of_sorted_set. apply map_result_ok in Hf.
  transitivity (identifies (endpoint_path (endpoint_of endpoint)) parameters c); [|naive_solver].
  clear E. induction Hf as [|parameter o parameters found Ho Hf IH].
  - split; [by intros ?%elem_of_nil | by intros (? & ?%elem_of_nil & _)].
  - pose proof (parameter_candidate_spec _ _ _ c Ho) as Hc.
    assert (Hcons : identifies (endpoint_path (endpoint_of endpoint)) (parameter :: parameters) c <->
      identifies (endpoint_path (endpoint_of endpoint)) [parameter] c \/ identifies (endpoint_path (endpoint_of endpoint)) parameters c).
    { unfold identifies. setoid_rewrite elem_of_cons. setoid_rewrite elem_of_nil. naive_solver. }
    rewrite Hcons, <- Hc, <- IH. destruct o; cbn; rewrite ?elem_of_cons; naive_solver.
Qed.

(** * Pointers *)

Lemma escape_plain value : contains_char "/" (escape_json_pointer_token value) = false.
Proof.
  induction value as [|c t IH]; [done|]. cbn [escape_json_pointer_token]. unfold contains_char in *.
  rewrite str_exists_app, IH, orb_false_r. repeat case_bool_decide; try done. unfold str1. by rewrite str_exists_cons, bool_decide_eq_false_2.
Qed.

Lemma unescape_escaped value : unescape_token (escape_json_pointer_token value) = value.
Proof.
  induction value as [|c t IH]; [done|]. cbn [escape_json_pointer_token]. repeat case_bool_decide; subst.
  - change ("~0" +:+ escape_json_pointer_token t) with (String "~" (String "0" (escape_json_pointer_token t))).
    change (unescape_token (String "~" (String "0" (escape_json_pointer_token t))))
      with (String "~" (unescape_token (escape_json_pointer_token t))). by rewrite IH.
  - change ("~1" +:+ escape_json_pointer_token t) with (String "~" (String "1" (escape_json_pointer_token t))).
    change (unescape_token (String "~" (String "1" (escape_json_pointer_token t))))
      with (String "/" (unescape_token (escape_json_pointer_token t))). by rewrite IH.
  - change (str1 c +:+ escape_json_pointer_token t) with (String c (escape_json_pointer_token t)).
    assert (Hu : forall u, unescape_token (String c u) = String c (unescape_token u)).
    { intros u. destruct c as [[] [] [] [] [] [] [] []]; try reflexivity. done. }
    by rewrite Hu, IH.
Qed.

(** A pointer determines the path it was made of. *)
Lemma pointer_roundtrip path : path <> [] -> path_of_pointer (pointer_of path) = path.
Proof.
  intros Hp. change (unescape_token <$> split_char "/" (join (str1 "/") (escape_json_pointer_token <$> path)) = path).
  rewrite split_join.
  - rewrite <- list_fmap_compose. rewrite <- (list_fmap_id path) at 2. apply list_fmap_ext. intros _ t _. apply unescape_escaped.
  - by destruct path.
  - apply Forall_fmap, Forall_true. apply escape_plain.
Qed.
End candidates.

(** * Insertion *)

Lemma existsb_rows_true {A} (p : A -> bool) (m : gmap Z A) :
  existsb p (rows m) = true <-> exists k x, m !! k = Some x /\ p x = true.
Proof.
  rewrite existsb_exists. setoid_rewrite <- list_elem_of_In. setoid_rewrite elem_of_rows. naive_solver.
Qed.

Lemma bound_by_spec provenance table e c : bound_by provenance table e c = true <->
  exists k b, table !! k = Some b /\ exact_key b = (e, c.1, c.2, provenance).
Proof.
  unfold bound_by. rewrite existsb_rows_true. split; intros (k & b & Hk & H); exists k, b; split; try done;
    by apply bool_decide_eq_true in H || apply bool_decide_eq_true.
Qed.

Lemma exact_taken_spec table row : exact_taken table row = true <->
  exists k b, table !! k = Some b /\ exact_key b = exact_key row.
Proof.
  unfold exact_taken. rewrite existsb_rows_true. split; intros (k & b & Hk & H); exists k, b; split; try done;
    by apply bool_decide_eq_true in H || apply bool_decide_eq_true.
Qed.

Lemma insert_binding_ok table row table' : insert_binding table row = Ok table' <->
  ck_binding row = true /\ table !! binding_id row = None /\ exact_taken table row = false
  /\ table' = <[binding_id row := row]> table.
Proof.
  unfold insert_binding. rewrite !guard_bind_ok, andb_true_iff. unfold is_none. split.
  - intros (_ & [Hc Hn] & H). destruct (exact_taken table row), (table !! binding_id row); try discriminate. by injection H as <-.
  - intros (Hc & -> & -> & ->). split; [|by rewrite Hc]. unfold ck_binding in Hc. by bool_simpl; apply Z.leb_le.
Qed.

Lemma insert_binding_unique table row : insert_binding table row = Raise UniqueViolation -> exact_taken table row = true.
Proof.
  unfold insert_binding, guard_or. repeat (case_if; cbn; try done).
Qed.

Section insertion.
Context (confidence : locator -> Z) (endpoint : Z).
Abbreviation new_row := (inferred_row confidence endpoint).

Lemma inferred_key i c : exact_key (new_row i c) = (endpoint, c.1, c.2, "openapi_inferred").
Proof. done. Qed.

Lemma new_rows_cons table c rest table' i : table !! i = None ->
  new_rows (<[i := new_row i c]> table) confidence endpoint rest table' ->
  new_rows table confidence endpoint (c :: rest) table'.
Proof.
  intros Hi (Hsub & Hnew & Hall). split_and!.
  - etransitivity; [by apply insert_subseteq | done].
  - intros k row Hk Hn. destruct (decide (k = i)) as [->|Hne].
    + exists c. split; [left|]. eapply lookup_weaken in Hsub; [|apply lookup_insert_eq]. congruence.
    + destruct (Hnew k row Hk) as (c' & Hc & ->); [by rewrite lookup_insert_ne|]. exists c'. split; [by right | done].
  - intros c' [->|Hc]%elem_of_cons; [|by apply Hall]. exists i. eapply lookup_weaken; [apply lookup_insert_eq | done].
Qed.

Lemma insert_candidates_new ids n l table table' created existing : NoDup l ->
  (forall c, c ∈ l -> inferred_bound table endpoint c = false) ->
  insert_candidates confidence endpoint ids n l table = Ok (table', created, existing) ->
  created = Z.of_nat (length l) /\ existing = 0 /\ new_rows table confidence endpoint l table'.
Proof.
  revert n table table' created existing. induction l as [|c rest IH]; intros n table table' created existing Hd Hl H; cbn in H.
  - injection H as <- <- <-. split_and!; [done..|]. split_and!; [done | congruence | by intros c ?%elem_of_nil].
  - apply NoDup_cons in Hd as [Hc Hd]. apply bind_ok in H as ([[t1 c1] e1] & Hi & H).
    apply bind_ok in H as ([[t2 c2] e2] & Hr & [= <- <- <-]).
    destruct (insert_binding table (new_row (ids n) c)) as [t|e] eqn:Ei.
    + injection Hi as <- <- <-. apply insert_binding_ok in Ei as (_ & Hn & Hx & ->). cbn [binding_id inferred_row] in *.
      apply IH in Hr as (-> & -> & Hnew); [|done|].
      * split_and!; [cbn; lia | done |]. by eapply new_rows_cons.
      * intros c' Hc'. apply not_true_iff_false. intros (k & b & [[<- <-]|[Hne Hk]]%lookup_insert_Some & Hb)%bound_by_spec.
        -- injection Hb as Hb1 Hb2. destruct Hc. replace c with c' by (destruct c, c'; cbn in *; congruence). done.
        -- assert (Hf : inferred_bound table endpoint c' = false) by (apply Hl; by right).
           apply not_true_iff_false in Hf. apply Hf, bound_by_spec. by exists k, b.
    + destruct e; try discriminate Hi. apply insert_binding_unique, exact_taken_spec in Ei as (k & b & Hk & Hb).
      assert (Hf : inferred_bound table endpoint c = false) by (apply Hl; left).
      apply not_true_iff_false in Hf. destruct Hf. apply bound_by_spec. by exists k, b.
Qed.

Lemma bound_by_new provenance table l table' c : provenance <> "openapi_inferred" ->
  new_rows table confidence endpoint l table' -> bound_by provenance table' endpoint c = bound_by provenance table endpoint c.
Proof.
  intros Hp (Hsub & Hnew & _). apply eq_true_iff_eq. rewrite !bound_by_spec. split; intros (k & b & Hk & Hb).
  - exists k, b. split; [|done]. destruct (table !! k) as [b'|] eqn:E.
    + assert (table' !! k = Some b') by (by eapply lookup_weaken). congruence.
    + destruct (Hnew k b Hk E) as (c' & _ & ->). rewrite inferred_key in Hb. congruence.
  - exists k, b. split; [by eapply lookup_weaken | done].
Qed.

(** What was new is not new any more. *)
Lemma none_new table l candidates table' : l = List.filter (is_new_candidate table endpoint) candidates ->
  new_rows table confidence endpoint l table' -> List.filter (is_new_candidate table' endpoint) candidates = [].
Proof.
  intros -> Hrows. apply filter_all_false, Forall_forall. intros c Hc. unfold is_new_candidate, operator_bound.
  rewrite (bound_by_new _ _ _ _ c) with (2 := Hrows) by done.
  destruct (bound_by "operator_supplied" table endpoint c) eqn:Eo; [done|]. cbn. apply negb_false_iff, bound_by_spec.
  destruct Hrows as (Hsub & _ & Hall). destruct (inferred_bound table endpoint c) eqn:Ei.
  - apply bound_by_spec in Ei as (k & b & Hk & Hb). exists k, b. split; [by eapply lookup_weaken | done].
  - destruct (Hall c) as [k Hk].
    + apply list_elem_of_In, filter_In. split; [by apply list_elem_of_In|]. unfold is_new_candidate, operator_bound. by rewrite Eo, Ei.
    + eexists k, _. split; [done | apply inferred_key].
Qed.

Lemma candidate_counts table candidates :
  length candidates = (length (List.filter (is_new_candidate table endpoint) candidates)
    + count_if (fun c => negb (operator_bound table endpoint c) && inferred_bound table endpoint c) candidates
    + count_if (operator_bound table endpoint) candidates)%nat.
Proof.
  induction candidates as [|c l IH]; [done|]. cbn [List.filter count_if length]. unfold is_new_candidate at 1.
  destruct (operator_bound table endpoint c), (inferred_bound table endpoint c); cbn [negb andb length]; lia.
Qed.

Lemma store_candidates_exact code db ids candidates r db' : NoDup candidates ->
  store_candidates code confidence db endpoint ids candidates = Ok (r, db') ->
  endpoints db' = endpoints db
  /\ new_rows (bindings db) confidence endpoint (List.filter (is_new_candidate (bindings db) endpoint) candidates) (bindings db')
  /\ eligible_count r = Z.of_nat (length candidates)
  /\ created_count r = Z.of_nat (length (List.filter (is_new_candidate (bindings db) endpoint) candidates))
  /\ eligible_count r = created_count r + existing_inferred_count r + skipped_operator_count r
  /\ forall ids', exists r', store_candidates code confidence db' endpoint ids' candidates = Ok (r', db') /\ created_count r' = 0.
Proof.
  intros Hd. unfold store_candidates. rewrite guard_bind_ok. intros [_ H].
  apply bind_ok in H as ([[table created] found] & Hi & [= <- <-]).
  pose proof (candidate_counts (bindings db) candidates) as Hc.
  set (l := List.filter (is_new_candidate (bindings db) endpoint) candidates) in *.
  apply insert_candidates_new in Hi as (-> & -> & Hrows).
  - split_and!; [done | done | done | done | cbn; lia|]. intros ids'. cbn [bindings with_bindings].
    rewrite (none_new (bindings db) l candidates table) by done. cbn. eexists. split; [by destruct db|]. done.
  - unfold l. apply NoDup_ListNoDup, List.NoDup_filter, NoDup_ListNoDup, Hd.
  - intros c Hcl. apply list_elem_of_In, filter_In in Hcl as [_ Hcl]. unfold is_new_candidate in Hcl. by bool_simpl.
Qed.
End insertion.

(** * Requests *)

Section requests.
Context (unicode_text : pattern_kind -> string -> bool).
Abbreviation sound_ := (bindings_sound unicode_text).
Abbreviation handle := (handle_binding unicode_text).
Abbreviation reachable := (bindings_reachable unicode_text).

Lemma insert_sound db row table : sound_ db -> insert_binding (bindings db) row = Ok table ->
  selector_valid unicode_text (binding_location row) (binding_selector row) = true ->
  is_Some (endpoints db !! binding_endpoint_id row) -> sound_ (with_bindings table db).
Proof.
  intros [He Hr Hx] (Hck & Hn & Ht & ->)%insert_binding_ok Hv Hs. split; cbn [endpoints bindings with_bindings]; [done| |].
  - intros k b [[<- <-]|[_ Hk]]%lookup_insert_Some; [done | by apply Hr].
  - assert (Ho : forall k b, bindings db !! k = Some b -> exact_key b <> exact_key row).
    { intros k b Hk Hb. apply not_true_iff_false in Ht. apply Ht, exact_taken_spec. by exists k, b. }
    intros key k1 k2 b1 b2 [[<- <-]|[_ H1]]%lookup_insert_Some [[<- <-]|[_ H2]]%lookup_insert_Some P1 P2;
      [done | | | by apply (Hx key k1 k2 b1 b2)]; bool_simpl.
    + destruct (Ho k2 b2 H2). congruence.
    + destruct (Ho k1 b1 H1). congruence.
Qed.

Lemma insert_candidates_sound confidence endpoint ids n l table table' created existing db :
  sound_ (with_bindings table db) -> (forall c, c ∈ l -> selector_valid unicode_text c.1 c.2 = true) ->
  is_Some (endpoints db !! endpoint) ->
  insert_candidates confidence endpoint ids n l table = Ok (table', created, existing) -> sound_ (with_bindings table' db).
Proof.
  revert n table table' created existing. induction l as [|c rest IH]; intros n table table' created existing Hs Hv He H; cbn in H.
  - by injection H as <- <- <-.
  - apply bind_ok in H as ([[t1 c1] e1] & Hi & H). apply bind_ok in H as ([[t2 c2] e2] & Hr & [= <- <- <-]).
    eapply IH; [|by intros c' Hc'; apply Hv; right | done | exact Hr].
    destruct (insert_binding table (inferred_row confidence endpoint (ids n) c)) as [t|[]] eqn:Ei; try discriminate Hi;
      injection Hi as <- <- <-; [|done].
    apply (insert_sound (with_bindings table db) _ t Hs Ei); [|done]. apply (Hv c). left.
Qed.

(** Both inferences: the parameters and the body. *)
Definition derive (body : bool) (endpoint : EndpointRow) : result inference_error (list locator) :=
  if body then derive_body_candidates unicode_text endpoint else derive_candidates unicode_text endpoint.
Definition infer (body : bool) (db : Bindings) (endpoint : Z) (ids : nat -> Z)
    : binding_result (OpenAPIBindingInferenceResult * Bindings) :=
  if body then infer_endpoint_openapi_body_binding_candidates unicode_text db endpoint ids
  else infer_endpoint_openapi_binding_candidates unicode_text db endpoint ids.
Definition confidence_of (body : bool) (c : locator) : Z :=
  if body then BODY_CONFIDENCE else if bool_decide (c.1 = "path") then PATH_CONFIDENCE else QUERY_CONFIDENCE.
Definition limit_code (body : bool) : string :=
  if body then "openapi_body_binding_creation_limit_exceeded" else "openapi_binding_creation_limit_exceeded".

Lemma infer_equation body db endpoint ids : infer body db endpoint ids =
  row ← get_endpoint_or_404 db endpoint;
  candidates ← inference_http (derive body row);
  store_candidates (limit_code body) (confidence_of body) db (endpoint_id (endpoint_of row)) ids candidates.
Proof. by destruct body. Qed.

Lemma inference_http_ok {A} (m : result inference_error A) a : inference_http m = Ok a <-> m = Ok a.
Proof. destruct m as [?|[]]; cbn; naive_solver. Qed.

Lemma derived_valid body row l : derive body row = Ok l ->
  NoDup l /\ forall c, c ∈ l -> selector_valid unicode_text c.1 c.2 = true.
Proof.
  destruct body; cbn.
  - destruct (request_body_schema row) as [root|] eqn:E.
    + intros H. destruct (body_candidates_exact _ _ _ _ E H) as [Hd Hc]. split; [done|].
      intros c (path & schema & _ & _ & name & _ & _ & Hv & ->)%Hc. done.
    + unfold derive_body_candidates. rewrite E. intros [= <-]. split; [constructor | by intros c ?%elem_of_nil].
  - intros H. destruct (parameter_candidates_exact _ _ _ H) as [Hd Hc]. split; [done|].
    by intros c (parameters & _ & o & _ & _ & _ & _ & Hv & _)%Hc.
Qed.

Lemma infer_ok body db endpoint ids r db' : sound_ db -> infer body db endpoint ids = Ok (r, db') ->
  exists row candidates, endpoints db !! endpoint = Some row /\ derive body row = Ok candidates /\ NoDup candidates
    /\ store_candidates (limit_code body) (confidence_of body) db endpoint ids candidates = Ok (r, db').
Proof.
  intros Hs. rewrite infer_equation. intros (row & Hrow & (candidates & Hc%inference_http_ok & Hst)%bind_ok)%bind_ok.
  unfold get_endpoint_or_404, require in Hrow. destruct (endpoints db !! endpoint) as [row'|] eqn:E; [|done].
  injection Hrow as ->. exists row, candidates. rewrite (sound_endpoints _ _ Hs _ _ E) in Hst.
  split_and!; [done | done | by eapply derived_valid | done].
Qed.

Lemma infer_sound body db endpoint ids r db' : sound_ db -> infer body db endpoint ids = Ok (r, db') -> sound_ db'.
Proof.
  intros Hs H. destruct (infer_ok _ _ _ _ _ _ Hs H) as (row & candidates & Hrow & Hd & _ & Hst).
  apply derived_valid in Hd as [_ Hv]. unfold store_candidates in Hst. apply guard_bind_ok in Hst as [_ Hst].
  apply bind_ok in Hst as ([[table created] found] & Hi & [= _ <-]).
  eapply insert_candidates_sound; [| | by eexists | exact Hi]; [by destruct db|].
  intros c Hc%list_elem_of_In%filter_In. apply Hv, list_elem_of_In, Hc.
Qed.

Lemma handle_sound req db db' : sound_ db -> handle req db = Ok db' -> sound_ db'.
Proof.
  intros Hs. destruct req as [i e l s c st|e ids|e ids|e b u]; cbn [handle_binding].
  2: { intros H. destruct (infer false db e ids) as [[r x]|] eqn:E; cbn in E, H; rewrite E in H; [|done]. injection H as <-. by apply (infer_sound false _ _ _ _ _ Hs E). }
  2: { intros H. destruct (infer true db e ids) as [[r x]|] eqn:E; cbn in E, H; rewrite E in H; [|done]. injection H as <-. by apply (infer_sound true _ _ _ _ _ Hs E). }
  - destruct (create_endpoint_resource_binding _ _ _ _ _ _ _ _) as [[row x]|] eqn:E; [|done]. intros [= <-].
    unfold create_endpoint_resource_binding, get_endpoint_or_404 in E. result_inv.
    destruct (insert_binding (bindings db) _) as [table|[]] eqn:Ei in E; try discriminate E. injection E as <- <-.
    eapply insert_sound; [done | exact Ei | done |]. cbn.
    rewrite (sound_endpoints _ _ Hs _ _ ltac:(eassumption)). by eexists.
  - destruct (update_endpoint_resource_binding_review db e b u) as [[row x]|] eqn:E; [|done]. intros [= <-].
    unfold update_endpoint_resource_binding_review, select_binding in E. result_inv.
    rename select (bindings db !! b = Some _) into Hb. rename select (ck_binding _ = true) into Hck.
    destruct Hs as [He Hr Hx]. split; cbn [endpoints bindings with_bindings]; [done| |].
    + intros k x [[<- <-]|[_ Hk]]%lookup_insert_Some; [|by apply Hr]. destruct (Hr _ _ Hb) as (H1 & _ & H2 & H3). done.
    + intros key k1 k2 b1 b2 [[<- <-]|[_ H1]]%lookup_insert_Some [[<- <-]|[_ H2]]%lookup_insert_Some P1 P2; [done| | |].
      * by apply (Hx key _ _ _ _ Hb H2).
      * by apply (Hx key _ _ _ _ H1 Hb).
      * by apply (Hx key _ _ _ _ H1 H2).
Qed.

Lemma bindings_reachable_sound db : reachable db -> sound_ db.
Proof.
  induction 1 as [table Ht|db req db' _ IH H|db table _ IH Ht Hd].
  - split; cbn; [done | by intros ? ? ?%lookup_empty_Some | by intros ? ? ? ? ? ?%lookup_empty_Some].
  - by eapply handle_sound.
  - destruct IH as [He Hr Hx]. split; cbn; [done| | done]. intros k b Hk. destruct (Hr k b Hk) as (? & ? & ? & ?). eauto.
Qed.

(** Inference from the parameters or the body of an endpoint adds one candidate, not yet
    reviewed, for every identifier of its description that has neither an operator's row nor
    an inferred one; every other row, reviews included, stays as it is; its counts add up; and
    asking again changes nothing. *)
Theorem inference_once body db endpoint ids r db' : reachable db -> infer body db endpoint ids = Ok (r, db') ->
  exists row candidates, endpoints db !! endpoint = Some row /\ derive body row = Ok candidates
    /\ new_rows (bindings db) (confidence_of body) endpoint
         (List.filter (is_new_candidate (bindings db) endpoint) candidates) (bindings db')
    /\ created_count r = Z.of_nat (length (List.filter (is_new_candidate (bindings db) endpoint) candidates))
    /\ Z.of_nat (length candidates) = created_count r + existing_inferred_count r + skipped_operator_count r
    /\ forall ids', exists r', infer body db' endpoint ids' = Ok (r', db') /\ created_count r' = 0.
Proof.
  intros Hr%bindings_reachable_sound H. destruct (infer_ok _ _ _ _ _ _ Hr H) as (row & candidates & Hrow & Hd & Hn & Hst).
  exists row, candidates. destruct (store_candidates_exact _ _ _ _ _ _ _ _ Hn Hst) as (He & Hnew & Hel & Hcr & Hsum & Hagain).
  split_and!; try done; [by rewrite <- Hel|]. intros ids'. destruct (Hagain ids') as (r' & Hst' & H0). exists r'. split; [|done].
  rewrite infer_equation. unfold get_endpoint_or_404. rewrite He, Hrow. cbn. rewrite Hd. cbn.
  by rewrite (sound_endpoints _ _ Hr _ _ Hrow).
Qed.

(** What a candidate of a description is: an identifier among its parameters, or a scalar of
    its request body, whose pointer it is. *)
Definition names_identifier (body : bool) (row : EndpointRow) (c : locator) : Prop :=
  if body then
    exists root path schema, request_body_schema row = Some root /\ schema_at root path schema
      /\ candidate_at unicode_text path schema c /\ path_of_pointer c.2 = path
  else exists parameters, endpoint_parameters row = JArr parameters
         /\ identifies unicode_text (endpoint_path (endpoint_of row)) parameters c.

(** C35: The candidates of an endpoint are exactly the identifiers that its description names,
    each once: a path or query parameter with a valid name that looks like an identifier or is
    a UUID, is not sensitive and, in a path, occurs in it; or the JSON Pointer of a scalar of
    the request body with such a name, which determines the path through its objects. *)
Theorem candidates_exact body row l : derive body row = Ok l ->
  NoDup l /\ forall c, c ∈ l <-> names_identifier body row c.
Proof.
  destruct body; cbn [derive names_identifier]; [|apply parameter_candidates_exact].
  intros H. destruct (request_body_schema row) as [root|] eqn:E.
  - destruct (body_candidates_exact _ _ _ _ E H) as [Hd Hc]. split; [done|]. intros c. rewrite Hc. split.
    + intros (path & schema & Hat & Hcand). exists root, path, schema. split_and!; try done.
      destruct Hcand as (_ & name & Hl & _ & _ & ->). apply pointer_roundtrip. by intros ->.
    + intros (root' & path & schema & [= <-] & Hat & Hcand & _). by exists path, schema.
  - unfold derive_body_candidates in H. rewrite E in H. injection H as <-. split; [constructor|].
    intros c. split; [by intros ?%elem_of_nil | by intros (? & ? & ? & ? & _)].
Qed.

(** In every state that requests and imports reach, each binding satisfies the constraints
    of its table, has a selector that is valid at its location and an endpoint that exists, and
    no two bindings agree in endpoint, location, selector and provenance. *)
Theorem bindings_wellformed db : reachable db ->
  (forall k b, bindings db !! k = Some b ->
     binding_id b = k /\ ck_binding b = true /\ selector_valid unicode_text (binding_location b) (binding_selector b) = true
     /\ is_Some (endpoints db !! binding_endpoint_id b))
  /\ forall key, at_most_one (fun b => bool_decide (exact_key b = key)) (bindings db).
Proof. intros [He Hr Hx]%bindings_reachable_sound. done. Qed.
End requests.

(** * Bindings of the lab *)

Definition no_text (k : pattern_kind) (s : string) : bool := false.

Definition preview_endpoint : EndpointRow :=
  mkEndpointRow lab_endpoint
    (JArr [JObj [("name", JStr "order_id"); ("in", JStr "path"); ("schema", JObj [("format", JStr "uuid")])];
           JObj [("name", JStr "ownerId"); ("in", JStr "query")];
           JObj [("name", JStr "apiKeyId"); ("in", JStr "query")]])
    (Some (JObj [("content", JObj [("application/json", JObj [("schema", JObj [("type", JStr "object");
       ("properties", JObj [("customer/Id", JObj [("type", JStr "string")]);
                            ("note", JObj [("type", JStr "string")]);
                            ("parent", JObj [("properties", JObj [("parent_id", JObj [("format", JStr "uuid")])])])])])])])])).

Definition preview_start : Bindings := mkBindings {[ 41 := preview_endpoint ]} ∅.
Definition preview_requests : list binding_request :=
  [InferParameters 41 (fun n => 100 + Z.of_nat n); InferBody 41 (fun n => 200 + Z.of_nat n);
   ReviewBinding 41 100 (mkReview None (Some (Some "confirmed")))].
Fixpoint run_bindings (l : list binding_request) (db : Bindings) : binding_result Bindings :=
  match l with [] => Ok db | req :: rest => db' ← handle_binding no_text req db; run_bindings rest db' end.
Definition preview_bindings : Bindings := match run_bindings preview_requests preview_start with Ok db => db | Raise _ => preview_start end.

Lemma run_bindings_reachable l db db' : bindings_reachable no_text db -> run_bindings l db = Ok db' -> bindings_reachable no_text db'.
Proof.
  revert db. induction l as [|req l IH]; intros db Hr H; cbn in H; [by injection H as <-|].
  apply bind_ok in H as (mid & Hm & H). eapply IH; [|done]. by eapply bindings_step.
Qed.

Lemma preview_bindings_reachable : bindings_reachable no_text preview_bindings.
Proof.
  apply (run_bindings_reachable preview_requests preview_start); [|vm_compute; reflexivity].
  apply bindings_start. intros k row H. apply lookup_singleton_Some in H as [<- <-]. reflexivity.
Qed.

(** ** What the code does not expect *)

(** A list of types, as OpenAPI 3.1 allows, is no member of a set: the inference ends with an
    undocumented [TypeError]. *)
Lemma type_list_escapes path depth properties :
  visit_schema no_text ([("type", JArr [JStr "object"; JStr "null"]); ("properties", JObj properties)], path, depth)
  = if MAX_BODY_SCHEMA_DEPTH <? depth then Raise (InferenceError "openapi_body_schema_depth_limit_exceeded")
    else Raise InferenceTypeError.
Proof. unfold visit_schema. case_if; reflexivity. Qed.

(** A pointer longer than the column is derived, and the database refuses it with [DataError]. *)
Definition long_name : string := concat_str (replicate 498 "a" ++ ["_id"]).
Definition long_endpoint : EndpointRow :=
  mkEndpointRow lab_endpoint (JArr [])
    (Some (JObj [("content", JObj [("application/json", JObj [("schema", JObj [("properties", JObj [(long_name, JObj [])])])])])])).
Lemma long_pointer_escapes ids :
  infer_openapi_body_binding_candidates no_text (mkBindings {[ 41 := long_endpoint ]} ∅) long_endpoint ids = Raise BindingDataError.
Proof.
  unfold infer_openapi_body_binding_candidates.
  replace (derive_body_candidates no_text long_endpoint) with (Ok (E:=inference_error) [("body", pointer_of [long_name])]) by (vm_compute; reflexivity).
  cbn [inference_http mbind result_bind]. unfold store_candidates.
  replace (List.filter _ _) with [("body", pointer_of [long_name])] by (vm_compute; reflexivity).
  cbn [length guard_or mbind result_bind insert_candidates].
  replace (insert_binding _ _) with (Raise (A:=gmap Z BindingRow) BindingDataError); [reflexivity|].
  unfold insert_binding. cbn [inferred_row binding_selector snd].
  replace (str_len _ <=? 500) with false by (vm_compute; reflexivity). reflexivity.
Qed.

(** * Witnesses *)

Lemma candidates_exact_witness : exists l, derive no_text true preview_endpoint = Ok l
  /\ ("body", "/customer~1Id") ∈ l /\ names_identifier no_text true preview_endpoint ("body", "/customer~1Id").
Proof.
  eexists. split; [vm_compute; reflexivity|]. split; [left|].
  apply (candidates_exact no_text true preview_endpoint [("body", "/customer~1Id"); ("body", "/parent/parent_id")]).
  - vm_compute. reflexivity.
  - left.
Defined.

Lemma inference_once_witness : exists r db', infer no_text false preview_bindings 41 (fun n => 300 + Z.of_nat n) = Ok (r, db')
  /\ created_count r = 0 /\ existing_inferred_count r = 2
  /\ forall ids', exists r', infer no_text false db' 41 ids' = Ok (r', db') /\ created_count r' = 0.
Proof.
  destruct (infer no_text false preview_bindings 41 (fun n => 300 + Z.of_nat n)) as [[r db']|e] eqn:E;
    [|vm_compute in E; discriminate E].
  destruct (inference_once no_text false preview_bindings 41 (fun n => 300 + Z.of_nat n) r db' preview_bindings_reachable E)
    as (row & candidates & _ & _ & _ & _ & _ & Hagain).
  exists r, db'. split; [reflexivity|]. split; [|split; [|exact Hagain]];
    vm_compute in E; injection E as <- _; reflexivity.
Defined.

Lemma bindings_wellformed_witness : exists b, bindings preview_bindings !! 100 = Some b /\ ck_binding b = true.
Proof.
  destruct (bindings_wellformed no_text preview_bindings preview_bindings_reachable) as [H _].
  destruct (bindings preview_bindings !! 100) as [b|] eqn:E; [|vm_compute in E; discriminate E].
  exists b. split; [reflexivity|]. apply (H 100 b E).
Defined.
