(* ===== verification/PreviewSafety.v ===== *)
(** What a preview promises: the bindings it shows are confirmed and name exactly one place of
    their endpoint, its facts are the resolutions of the access facts, its candidates those the
    planner gives, and every request is answered as documented. *)

From stdpp Require Import gmap.
From S2P Require Import Prelude.
From S2P Require Import PyStr.
From S2P Require Import PyJson.
From S2P Require Import Models.
From S2P Require Import Samples.
From S2P Require Import Generator.
From S2P Require Import Access.
From S2P Require Import BindingRules.
From S2P Require Import Tables.
From S2P Require Import Bindings.
From S2P Require Import BindingSafety.
From S2P Require Import MatrixPreview.
From S2P Require Import PreviewRoute.

Open Scope Z_scope.

(** * Definitions *)

Definition brace (c : ascii) : bool := bool_decide (c ∈ ["{"; "}"]%char).

(** A path is text without braces and names in braces. *)
Inductive template : string -> list string -> Prop :=
| template_end : template EmptyString []
| template_char c s names : brace c = false -> template s names -> template (String c s) names
| template_name name s names : str_exists brace name = false -> template s names ->
    template (String "{" (name +:+ String "}" s)) (name :: names).

Section definitions.
Context (unicode_text : pattern_kind -> string -> bool).

(** A path that declares the selector: its names are valid, distinct and one is the selector. *)
Definition path_declares (path selector : string) : Prop :=
  str_len path <= 500 /\ exists names, template path names
    /\ Forall (fun name => selector_valid unicode_text "path" name = true) names /\ NoDup names /\ selector ∈ names.

Definition parameter_wf (parameter : json) : Prop :=
  exists o name location, parameter = JObj o /\ assoc "name" o = Some (JStr name) /\ name <> EmptyString
    /\ assoc "in" o = Some (JStr location) /\ location ∈ ["path"; "query"; "header"; "cookie"].

(** Parameters of which exactly one is the selected one. *)
Definition query_declares (parameters : json) (selector : string) : Prop :=
  exists l, parameters = JArr l /\ Z.of_nat (length l) <= 256 /\ Forall parameter_wf l
    /\ count_if (declares "query" selector) l = 1%nat.

Definition declared (row : EndpointRow) (location selector : string) : Prop :=
  if bool_decide (location = "path") then path_declares (endpoint_path (endpoint_of row)) selector
  else query_declares (endpoint_parameters row) selector.

(** The fact of one identity. *)
Definition fact_of (m : Metadata) (endpoint resource : Z) (t : timestamp) (target i : Z) (f : BOLAMatrixAccessFact) : Prop :=
  exists identity resolution, identities m !! i = Some identity /\ identity_target_id identity = target
    /\ identity_is_active identity = true
    /\ resolve_resource_access (resources m !! resource) (Some identity) (assertions m) (Aware t) = Ok resolution
    /\ f = mkFact endpoint resource i (auth_type identity) (state resolution) (resolved_relationship resolution)
             (resolved_expected_access resolution) (supporting_ids resolution).

(** What a preview of one resource shows. *)
Definition preview_of (m : Metadata) (endpoint resource : Z) (t : timestamp) (ids : list Z) (p : BOLAMatrixPreview) : Prop :=
  preview_endpoint_id p = endpoint /\ preview_resource_id p = resource /\ preview_time p = t
  /\ preview_candidates p = omap candidate_of (preview_facts p)
  /\ exists row r, endpoints (bound m) !! endpoint = Some row /\ resources m !! resource = Some r
     /\ endpoint_target_id (endpoint_of row) = resource_target_id r
     /\ Forall2 (fact_of m endpoint resource t (resource_target_id r)) ids (preview_facts p).

(** A binding that was selected. *)
Definition selected (db : Bindings) (endpoint binding : Z) (s : BOLAReviewedBindingSelection) : Prop :=
  exists row b, endpoints db !! endpoint = Some row /\ bindings db !! binding = Some b
    /\ binding_endpoint_id b = endpoint /\ binding_review_state b = "confirmed"
    /\ binding_location b ∈ ["path"; "query"]
    /\ selector_valid unicode_text (binding_location b) (binding_selector b) = true
    /\ declared row (binding_location b) (binding_selector b)
    /\ s = mkSelection endpoint binding (binding_location b) (binding_selector b) "confirmed".

(** The constraints of the tables that a preview reads. *)
Record metadata_sound (m : Metadata) : Prop := mkMetadataSound {
  bindings_ok : bindings_sound unicode_text (bound m);
  resource_ids : forall k r, resources m !! k = Some r -> resource_id r = k;
  identity_rows : forall k i, identities m !! k = Some i -> identity_id i = k /\ str_len (auth_type i) <= 30;
  assertion_rows : forall a, a ∈ assertions m -> identifier_ok (assertion_id a) = true
    /\ relationship a ∈ ["owner"; "shared"; "non_owner"; "unspecified"]
    /\ expected_access a ∈ ["allowed"; "denied"; "unspecified"]
}.
End definitions.

(** * Paths *)

Section paths.
Context (unicode_text : pattern_kind -> string -> bool).
Abbreviation valid := (fun name => selector_valid unicode_text "path" name = true).
Abbreviation scan := (scan_path unicode_text).

Lemma brace_open : brace "{" = true.
Proof. done. Qed.
Lemma brace_close : brace "}" = true.
Proof. done. Qed.

Definition fresh_names (names l : list string) : Prop := Forall valid l /\ NoDup l /\ forall x, x ∈ l -> x ∉ names.

Lemma scan_path_spec s :
  (forall names out, scan s None names = Ok out <-> exists l, template s l /\ fresh_names names l /\ out = names ++ l)
  /\ (forall n names out, scan s (Some n) names = Ok out <->
        exists w rest l, s = w +:+ String "}" rest /\ str_exists brace w = false /\ template rest l
          /\ fresh_names names ((n +:+ w) :: l) /\ out = names ++ (n +:+ w) :: l).
Proof.
  induction s as [|c s [IHnone IHsome]]; split; intros; cbn [scan_path].
  - split.
    + intros [= <-]. exists []. split; [constructor|]. split; [|by rewrite app_nil_r].
      split_and!; [constructor | constructor | by intros ? ?%elem_of_nil].
    + intros (l & Ht & _ & ->). inversion Ht. by rewrite app_nil_r.
  - split; [done|]. intros (w & rest & l & H & _). by destruct w.
  - destruct (bool_decide (c = "{"%char)) eqn:Eo; [apply bool_decide_eq_true in Eo as -> | apply bool_decide_eq_false in Eo].
    + rewrite IHsome. split.
      * intros (w & rest & l & -> & Hw & Ht & Hf & ->). exists (w :: l). split; [by constructor | done].
      * intros (l & Ht & Hf & ->). inversion Ht as [|? ? ? Hb|name rest l' Hn Ht']; subst; [by rewrite brace_open in Hb|].
        by exists name, rest, l'.
    + destruct (bool_decide (c = "}"%char)) eqn:Ec; [apply bool_decide_eq_true in Ec as -> | apply bool_decide_eq_false in Ec].
      * split; [done|]. intros (l & Ht & _). inversion Ht as [|? ? ? Hb|]; subst. by rewrite brace_close in Hb.
      * rewrite IHnone. assert (Hb : brace c = false) by (apply bool_decide_eq_false; set_solver).
        split; intros (l & Ht & Hf & ->); exists l; split; try done; [by constructor|]. by inversion Ht; subst.
  - destruct (bool_decide (c = "{"%char)) eqn:Eo; [apply bool_decide_eq_true in Eo as -> | apply bool_decide_eq_false in Eo].
    + split; [done|]. intros (w & rest & l & Hs & Hw & _). destruct w as [|d w]; [done|]. injection Hs as <- _.
      by rewrite str_exists_cons, brace_open in Hw.
    + destruct (bool_decide (c = "}"%char)) eqn:Ec; [apply bool_decide_eq_true in Ec as -> | apply bool_decide_eq_false in Ec].
      * assert (Hend : (exists w rest l, String "}" s = w +:+ String "}" rest /\ str_exists brace w = false /\ template rest l
            /\ fresh_names names ((n +:+ w) :: l) /\ out = names ++ (n +:+ w) :: l)
          <-> exists l, template s l /\ fresh_names names (n :: l) /\ out = names ++ n :: l).
        { split.
          - intros ([|d w] & rest & l & Hs & Hw & Ht & Hf & Ho).
            + injection Hs as ->. rewrite str_app_nil_r in *. by exists l.
            + injection Hs as <- _. by rewrite str_exists_cons, brace_close in Hw.
          - intros (l & Ht & Hf & Ho). exists EmptyString, s, l. by rewrite str_app_nil_r. }
        rewrite Hend. clear Hend. unfold fresh_names. setoid_rewrite Forall_cons. setoid_rewrite NoDup_cons. setoid_rewrite elem_of_cons.
        destruct (selector_valid unicode_text "path" n) eqn:Ev; cbn [negb].
        2: { split; [done|]. intros (l & _ & ((? & _) & _) & _). done. }
        destruct (bool_decide (n ∈ names)) eqn:En; bool_simpl.
        { split; [done|]. intros (l & _ & (_ & _ & Hn) & _). destruct (Hn n); [by left | done]. }
        rewrite IHnone. unfold fresh_names. setoid_rewrite elem_of_app. setoid_rewrite list_elem_of_singleton. split.
        -- intros (l & Ht & (Hl & Hd & Hn) & ->). exists l. rewrite <- app_assoc. split_and!; try done; naive_solver.
        -- intros (l & Ht & ((_ & Hl) & (Hnl & Hd) & Hn) & ->). exists l. rewrite <- app_assoc. split_and!; try done; naive_solver.
      * rewrite IHsome. assert (Hb : brace c = false) by (apply bool_decide_eq_false; set_solver). split.
        -- intros (w & rest & l & -> & Hw & Ht & Hf & ->). exists (String c w), rest, l.
           rewrite str_exists_cons, Hb, Hw. by rewrite str_app_assoc in *.
        -- intros ([|d w] & rest & l & Hs & Hw & Ht & Hf & ->); [by injection Hs as ->|]. injection Hs as <- ->.
           rewrite str_exists_cons in Hw. bool_simpl. exists w, rest, l. by rewrite str_app_assoc.
Qed.

Lemma validate_path_exact path selector : _validate_path unicode_text path selector = Ok tt <-> path_declares unicode_text path selector.
Proof.
  unfold _validate_path, path_declares. destruct (500 <? str_len path) eqn:El; bool_simpl; [split; [done | lia]|].
  rewrite bind_ok. destruct (scan_path_spec path) as [Hscan _]. setoid_rewrite Hscan. unfold fresh_names, guard_or. split.
  - intros (names & (l & Ht & (Hv & Hd & _) & ->) & H). split; [lia|]. exists l. case_if_in H; [|done]. by bool_simpl.
  - intros (_ & l & Ht & Hv & Hd & Hs). exists l. split; [|by rewrite bool_decide_eq_true_2].
    exists l. split_and!; try done. by intros x _ ?%elem_of_nil.
Qed.
End paths.

(** * Parameters *)

Lemma query_parameter_spec selector parameter b :
  query_parameter selector parameter = Ok b <-> parameter_wf parameter /\ b = declares "query" selector parameter.
Proof.
  unfold query_parameter, parameter_wf. destruct parameter as [| | | | | |o]; try (by split; [|intros [(? & ? & ? & ? & _) _]]).
  cbn [declares]. destruct (assoc "name" o) as [[| | | |name| |]|] eqn:En;
    try (split; [done | intros [(o' & ? & ? & [= <-] & ? & _) _]; congruence]).
  destruct (assoc "in" o) as [[| | | |location| |]|] eqn:Ei;
    try (split; [done | intros [(o' & ? & ? & [= <-] & ? & ? & ? & _) _]; congruence]).
  assert (Hd : bool_decide (location = "query") && bool_decide (name = selector)
    = bool_decide (Some (JStr name) = Some (JStr selector)) && bool_decide (Some (JStr location) = Some (JStr "query"))).
  { rewrite andb_comm. f_equal; apply bool_decide_ext; naive_solver. }
  rewrite Hd. split.
  - case_if; [done|]. intros [= <-]. apply orb_false_elim in E as [He Hl]. bool_simpl. split; [|done].
    exists o, name, location. split_and!; try done. intros ->. done.
  - intros [(o' & name' & location' & [= <-] & H1 & Hne & H2 & Hl) ->]. rewrite En in H1. rewrite Ei in H2.
    injection H1 as <-. injection H2 as <-. rewrite (bool_decide_eq_true_2 _ Hl). by destruct name.
Qed.

Lemma validate_query_exact parameters selector : _validate_query parameters selector = Ok tt <-> query_declares parameters selector.
Proof.
  unfold _validate_query, query_declares.
  destruct parameters as [| | | | |l|]; try (by split; [|intros (? & ? & _)]).
  assert (Hm : forall found, map_result (query_parameter selector) l = Ok found <->
    Forall parameter_wf l /\ found = declares "query" selector <$> l).
  { intros found. rewrite map_result_ok. split.
    - induction 1 as [|x b l found Hx _ [IH ->]]; [by split|]. apply query_parameter_spec in Hx as [Hw ->]. split; [by constructor | done].
    - intros [Hw ->]. induction Hw as [|x l Hx Hw IH]; constructor; [by apply query_parameter_spec | done]. }
  assert (Hc : forall l, count_if id (declares "query" selector <$> l) = count_if (declares "query" selector) l).
  { clear. induction l as [|x l IH]; [done|]. cbn. by rewrite <- IH. }
  destruct (MAX_BOLA_BINDING_PARAMETERS <? Z.of_nat (length l)) eqn:El; bool_simpl; unfold MAX_BOLA_BINDING_PARAMETERS in El.
  - split; [done|]. intros (l' & [= <-] & ? & _). lia.
  - rewrite bind_ok. split.
    + intros (found & [Hw ->]%Hm & H). rewrite Hc in H. exists l. split_and!; [done..|].
      destruct (count_if _ _) as [|[|n]]; done.
    + intros (l' & [= <-] & _ & Hw & Hone). exists (declares "query" selector <$> l). split; [by apply Hm|]. by rewrite Hc, Hone.
Qed.

(** * Selection *)

Section selection.
Context (unicode_text : pattern_kind -> string -> bool).
Abbreviation select := (select_bola_binding unicode_text).

Lemma declared_spec row location selector :
  (if bool_decide (location = "path") then _validate_path unicode_text (endpoint_path (endpoint_of row)) selector
   else _validate_query (endpoint_parameters row) selector) = Ok tt <-> declared unicode_text row location selector.
Proof. unfold declared. case_if; [apply validate_path_exact | apply validate_query_exact]. Qed.

Lemma select_exact clean db endpoint binding s : select clean db endpoint binding = Ok s <->
  clean = true /\ 0 < endpoint /\ 0 < binding /\ selected unicode_text db endpoint binding s.
Proof.
  unfold select_bola_binding, selected, _positive_id. rewrite !guard_bind_ok, andb_true_iff, !Z.ltb_lt, require_bind_ok.
  setoid_rewrite require_bind_ok. setoid_rewrite guard_bind_ok. setoid_rewrite guard_bind_ok. setoid_rewrite guard_bind_ok.
  setoid_rewrite guard_bind_ok. setoid_rewrite bind_ok. setoid_rewrite Z.eqb_eq. setoid_rewrite bool_decide_eq_true. split.
  - intros (Hc & [He Hb] & row & Hrow & b & Hbind & Hmine & Hst & Hl & Hv & [] & Hd%declared_spec & [= <-]).
    split_and!; try done. exists row, b. rewrite Hst. done.
  - intros (Hc & He & Hb & row & b & Hrow & Hbind & Hmine & Hst & Hl & Hv & Hd & ->).
    split_and!; try done. exists row. split; [done|]. exists b. split_and!; try done. exists tt. rewrite Hst.
    split; [by apply declared_spec | done].
Qed.
End selection.

(** * The preview of one resource *)

Section previews.
Context (unicode_text : pattern_kind -> string -> bool).

Lemma check_identity_ids_ok index seen ids : 0 <= index <= 512 -> check_identity_ids index seen ids = Ok tt <->
  index + Z.of_nat (length ids) <= 512 /\ Forall (fun i => 0 < i) ids /\ NoDup ids /\ forall i, i ∈ ids -> i ∉ seen.
Proof.
  revert index seen. induction ids as [|i rest IH]; intros index seen Hi; cbn [check_identity_ids].
  - split; [|done]. intros _. split_and!; [cbn; lia | constructor | constructor | by intros ? ?%elem_of_nil].
  - unfold MAX_BOLA_MATRIX_FACTS, _positive_id in *. cbn [length]. rewrite Forall_cons, NoDup_cons. setoid_rewrite elem_of_cons.
    destruct (index =? 512) eqn:E1; bool_simpl; [split; [done | lia]|].
    destruct (0 <? i) eqn:E2; cbn [negb]; bool_simpl; [|split; [done | lia]].
    destruct (bool_decide (i ∈ seen)) eqn:E3; bool_simpl.
    + split; [done|]. intros (_ & _ & _ & H). destruct (H i); [by left | done].
    + rewrite IH by lia. setoid_rewrite elem_of_cons. split; intros (Hl & Hp & Hd & Hs); split_and!; try done; try lia; try tauto; naive_solver.
Qed.

Lemma check_assignments_ok index seen l : 0 <= index <= 32 -> check_assignments index seen l = Ok tt <->
  index + Z.of_nat (length l) <= 32 /\ Forall (fun a => assignment_valid a = true) l
  /\ NoDup (assignment_binding_id <$> l) /\ forall a, a ∈ l -> assignment_binding_id a ∉ seen.
Proof.
  revert index seen. induction l as [|a rest IH]; intros index seen Hi; cbn [check_assignments].
  - split; [|done]. intros _. split_and!; [cbn; lia | constructor | constructor | by intros ? ?%elem_of_nil].
  - unfold MAX_BOLA_MATRIX_ASSIGNMENTS in *. rewrite fmap_cons. cbn [length]. rewrite Forall_cons, NoDup_cons. setoid_rewrite elem_of_cons.
    destruct (index =? 32) eqn:E1; bool_simpl; [split; [done | lia]|].
    destruct (assignment_valid a) eqn:E2; cbn [negb]; [|split; [done | by intros (_ & [? _] & _)]].
    destruct (bool_decide (assignment_binding_id a ∈ seen)) eqn:E3; bool_simpl.
    + split; [done|]. intros (_ & _ & _ & H). destruct (H a); [by left | done].
    + rewrite IH by lia. setoid_rewrite elem_of_cons. setoid_rewrite list_elem_of_fmap.
      split; intros (Hl & Hp & Hd & Hs); split_and!; try done; try lia; try tauto; naive_solver.
Qed.

Lemma resolution_fields r i rows t res : resolve_resource_access (Some r) (Some i) rows (Aware t) = Ok res ->
  resolved_resource_id res = resource_id r /\ resolved_identity_id res = identity_id i /\ resolved_at res = t.
Proof.
  unfold resolve_resource_access. cbn [require mbind result_bind]. rewrite guard_bind_ok. intros [_ H]. head_if H; [done|].
  by injection H as <-.
Qed.

Lemma load_identity_ok m target i identity : load_identity m target i = Ok identity <->
  identities m !! i = Some identity /\ identity_target_id identity = target /\ identity_is_active identity = true.
Proof.
  unfold load_identity. rewrite require_bind_ok. setoid_rewrite guard_bind_ok. setoid_rewrite guard_bind_ok. setoid_rewrite Z.eqb_eq.
  naive_solver.
Qed.

Lemma catch_raise_ok {E F A} (m : result E A) (h : E -> F) a : catch m (fun e => Raise (h e)) = Ok a <-> m = Ok a.
Proof. destruct m; cbn; naive_solver. Qed.

Lemma new_fact_ok f g : new_fact f = Ok g <-> g = f /\ fact_valid f = true.
Proof. unfold new_fact. case_if; naive_solver. Qed.

Lemma resolved_fact_ok m endpoint resource t target i identity f : metadata_sound unicode_text m ->
  load_identity m target i = Ok identity -> resolved_fact m endpoint resource t identity = Ok f ->
  fact_of m endpoint resource t target i f.
Proof.
  intros Hs (Hi & Ht & Ha)%load_identity_ok. unfold resolved_fact. destruct (identity_rows _ _ Hs _ _ Hi) as [Hid _].
  rewrite Hid, Hi. rewrite bind_ok. setoid_rewrite catch_raise_ok. intros (res & Hres & H). rewrite guard_bind_ok in H. destruct H as [_ H].
  apply catch_raise_ok, new_fact_ok in H as [-> _]. exists identity, res. done.
Qed.

Lemma plan_ok facts cs : plan_bola_matrix facts = Ok cs -> cs = omap candidate_of facts.
Proof.
  intros H. pose proof (plan_matrix_from_spec facts 0 []) as Hp. unfold plan_bola_matrix in H.
  specialize (Hp ltac:(unfold MAX_BOLA_MATRIX_FACTS; lia)). cbv zeta in Hp. rewrite H in Hp. by destruct Hp as (_ & _ & _ & ->).
Qed.

Lemma preview_ok clean m endpoint resource ids t p : metadata_sound unicode_text m ->
  preview_bola_matrix clean m endpoint resource ids (Aware t) = Ok p -> preview_of m endpoint resource t ids p.
Proof.
  intros Hs. unfold preview_bola_matrix. rewrite !guard_bind_ok. intros (_ & _ & _ & H).
  apply bind_ok in H as ([] & _ & H). apply require_bind_ok in H as (row & Hrow & H). apply require_bind_ok in H as (r & Hr & H).
  apply guard_bind_ok in H as [Ht H]. apply bind_ok in H as (loaded & Hload & H). apply bind_ok in H as (facts & Hfacts & H).
  apply bind_ok in H as (cs & Hcs%catch_raise_ok%plan_ok & [= <-]). bool_simpl. split_and!; try done. exists row, r. split_and!; try done.
  cbn [preview_facts]. apply map_result_ok in Hload, Hfacts. clear Hcs. revert facts Hfacts.
  induction Hload as [|i identity ids loaded Hi _ IH]; intros facts Hfacts; inversion Hfacts; subst; constructor; [|by apply IH].
  by eapply resolved_fact_ok.
Qed.
End previews.

(** * The preview of several bindings *)

Section matrix.
Context (unicode_text : pattern_kind -> string -> bool).

Definition slot_key (s : BOLAReviewedBindingSelection) : string * string := (selection_location s, selection_selector s).

Lemma select_bindings_ok clean db endpoint slots l out : select_bindings unicode_text clean db endpoint slots l = Ok out ->
  Forall2 (fun a s => selected unicode_text db endpoint (assignment_binding_id a) s) l out
  /\ NoDup (slot_key <$> out) /\ forall s, s ∈ out -> slot_key s ∉ slots.
Proof.
  revert slots out. induction l as [|a rest IH]; intros slots out H; cbn in H.
  - injection H as <-. split_and!; [constructor | constructor | by intros ? ?%elem_of_nil].
  - apply bind_ok in H as (s & (_ & _ & _ & Hs)%select_exact & H). apply guard_bind_ok in H as [_ H]. apply guard_bind_ok in H as [Hn H].
    apply bind_ok in H as (others & Ho & [= <-]). bool_simpl. destruct (IH _ _ Ho) as (Hall & Hd & Hnew). split_and!.
    + by constructor.
    + rewrite fmap_cons. constructor; [|done]. intros (s' & Hk & Hs')%list_elem_of_fmap.
      apply (Hnew s' Hs'). rewrite <- Hk. left.
    + intros s' [->|Hs']%elem_of_cons; [done|]. intros Hin. apply (Hnew s' Hs'). by right.
Qed.

Lemma preview_resources_ok clean m endpoint ids t l previews out : metadata_sound unicode_text m ->
  (forall k p, previews !! k = Some p -> preview_of m endpoint k t ids p) ->
  preview_resources clean m endpoint ids t l previews = Ok out ->
  (forall k p, out !! k = Some p -> preview_of m endpoint k t ids p) /\ previews ⊆ out
  /\ forall a, a ∈ l -> is_Some (out !! assignment_resource_id a).
Proof.
  intros Hs. revert previews. induction l as [|a rest IH]; intros previews Hp H; cbn in H.
  - injection H as <-. split_and!; [done | done | by intros ? ?%elem_of_nil].
  - destruct (previews !! assignment_resource_id a) as [p|] eqn:E.
    + destruct (IH previews Hp H) as (Hout & Hsub & Hall). split_and!; [done | done |].
      intros a' [->|Ha]%elem_of_cons; [|by apply Hall]. exists p. by eapply lookup_weaken.
    + apply bind_ok in H as (p & Hpre & H). apply bind_ok in H as ([] & _ & H).
      destruct (IH (<[assignment_resource_id a := p]> previews)) as (Hout & Hsub & Hall); [|done|].
      * intros k q [[<- <-]|[_ Hk]]%lookup_insert_Some; [by eapply preview_ok | by apply Hp].
      * split_and!; [done | etransitivity; [by apply insert_subseteq | done] |].
        intros a' [->|Ha]%elem_of_cons; [|by apply Hall]. exists p. eapply lookup_weaken; [apply lookup_insert_eq | done].
Qed.

Definition slot_of (m : Metadata) (endpoint : Z) (t : timestamp) (ids : list Z) (a : BOLAResourceSlotAssignment)
    (slot : BOLAAssignedSlotPreview) : Prop :=
  selected unicode_text (bound m) endpoint (assignment_binding_id a) (slot_binding slot)
  /\ preview_of m endpoint (assignment_resource_id a) t ids (slot_preview slot).

Lemma matrix_ok m endpoint proposed ids t v : metadata_sound unicode_text m ->
  preview_bola_binding_matrix unicode_text true m endpoint proposed ids (Aware t) = Ok v ->
  multi_endpoint_id v = endpoint /\ multi_evaluation_time v = t /\ multi_test_identity_ids v = ids
  /\ proposed <> [] /\ NoDup (assignment_binding_id <$> proposed) /\ NoDup ids
  /\ Z.of_nat (length proposed) <= 32 /\ Z.of_nat (length proposed) * Z.of_nat (length ids) <= 512
  /\ Forall2 (slot_of m endpoint t ids) proposed (multi_slots v)
  /\ NoDup ((fun slot => slot_key (slot_binding slot)) <$> multi_slots v).
Proof.
  intros Hs. unfold preview_bola_binding_matrix. rewrite !guard_bind_ok. intros (_ & _ & H).
  apply bind_ok in H as ([] & Hassign & H). apply guard_bind_ok in H as [Hne H]. apply bind_ok in H as ([] & Hids & H).
  apply guard_bind_ok in H as [Hcells H]. apply bind_ok in H as (selections & Hsel & H). apply bind_ok in H as (previews & Hpre & H).
  apply bind_ok in H as (slots & Hslots & [= <-]). bool_simpl. cbn [multi_endpoint_id multi_evaluation_time multi_test_identity_ids multi_slots].
  apply check_assignments_ok in Hassign as (Hl & _ & Hd & _); [|lia]. apply check_identity_ids_ok in Hids as (_ & _ & Hdi & _); [|lia].
  destruct (select_bindings_ok _ _ _ _ _ _ Hsel) as (Hall & Hdk & _).
  destruct (preview_resources_ok true m endpoint ids t proposed ∅ previews Hs) as (Hout & _ & _); [by intros ? ? ?%lookup_empty_Some | done |].
  split_and!; try done; [by destruct proposed | |].
  - clear -Hall Hslots Hout. revert slots Hslots. induction Hall as [|a s proposed selections Ha _ IH]; intros slots Hslots; cbn in Hslots.
    + injection Hslots as <-. constructor.
    + apply bind_ok in Hslots as (slot & Hp & Hslots). apply require_bind_ok in Hp as (p & Hp & [= <-]).
      apply bind_ok in Hslots as (others & Ho & [= <-]). constructor; [|by apply IH]. split; [done | by apply Hout].
  - assert (slot_key <$> selections = (fun slot => slot_key (slot_binding slot)) <$> slots) as <-; [|done].
    clear -Hall Hslots. revert slots Hslots. induction Hall as [|a s proposed selections Ha _ IH]; intros slots Hslots; cbn in Hslots.
    + by injection Hslots as <-.
    + apply bind_ok in Hslots as (slot & Hp & Hslots). apply require_bind_ok in Hp as (p & Hp & [= <-]).
      apply bind_ok in Hslots as (others & Ho & [= <-]). by rewrite !fmap_cons, (IH others).
Qed.
End matrix.

(** * Answers *)

Section answers.
Context (unicode_text : pattern_kind -> string -> bool).
Context (parse_json : string -> option json) (encoded_length : BOLAMultiBindingPreview -> Z).

(** A domain error with a status of its own. *)
Definition answered (e : preview_error) : Prop :=
  exists code status, e = PreviewError code /\ DOMAIN_STATUS code = Some status.

Ltac by_code := first [done | eexists _, _; split; [reflexivity | vm_compute; reflexivity]].

(** Step through a service: what is left are the errors that need an argument. *)
Ltac services :=
  repeat first
    [ apply raises_ok
    | apply raises_bind; [| let a := fresh "a" in let E := fresh "Hok" in intros a E]
    | apply raises_guard; let E := fresh "Hno" in intros E; first [by_code | idtac]
    | apply raises_require; let E := fresh "Hno" in intros E; first [by_code | idtac]
    | match goal with |- raises _ (if ?b then _ else _) => destruct b eqn:?
                    | |- raises _ (match ?o with Some _ => _ | None => _ end) => destruct o eqn:?
                    | |- raises _ (Raise _) => cbn [raises]; by_code end ].

Lemma scan_path_answered s start names : raises answered (scan_path unicode_text s start names).
Proof. revert start names. induction s as [|c s IH]; intros start names; cbn [scan_path]; services; apply IH. Qed.

Lemma query_answered selector parameter : raises answered (query_parameter selector parameter).
Proof.
  unfold query_parameter. destruct parameter; try (cbn; by_code). destruct (assoc "name" o) as [[]|], (assoc "in" o) as [[]|]; try (cbn; by_code). services.
Qed.

Lemma select_answered db endpoint binding : 0 < endpoint -> 0 < binding ->
  raises answered (select_bola_binding unicode_text true db endpoint binding).
Proof.
  intros He Hb. unfold select_bola_binding. services.
  - unfold _validate_path. services. apply scan_path_answered.
  - unfold _validate_query. destruct (endpoint_parameters _); try (cbn; by_code). services.
    + apply raises_map_result. intros x _. apply query_answered.
    + destruct (count_if _ _) as [|[|]]; cbn; by_code.
Qed.

Lemma str_len_nonneg s : 0 <= str_len s.
Proof. induction s as [|c s IH]; cbn [str_len]; [done|]. destruct (is_utf8_start c); lia. Qed.

Lemma selected_selector db endpoint binding s : selected unicode_text db endpoint binding s ->
  (1 <= str_len (selection_selector s) <= 128) /\ selection_selector s <> EmptyString.
Proof.
  intros (row & b & _ & _ & _ & _ & Hl & Hv & _ & ->). cbn [selection_selector].
  unfold selector_valid, validate_resource_binding_selector in Hv. case_if_in Hv; [done|].
  rewrite bool_decide_eq_true_2 in Hv by done. destruct (binding_selector b) as [|c t]; [done|].
  unfold guard_or in Hv. case_if_in Hv; [|done]. cbn [is_parameter_name] in *. bool_simpl. split; [|done].
  assert (Hc : is_utf8_start c = true).
  { apply orb_true_iff in H as [H|H]; [|by apply bool_decide_eq_true in H as ->].
    revert H. destruct c as [[] [] [] [] [] [] [] []]; vm_compute; congruence. }
  cbn [str_len]. rewrite Hc. pose proof (str_len_nonneg t). lia.
Qed.

Lemma select_bindings_answered db endpoint slots l : 0 < endpoint -> Forall (fun a => assignment_valid a = true) l ->
  raises answered (select_bindings unicode_text true db endpoint slots l).
Proof.
  intros He Hl. revert slots. induction Hl as [|a rest Ha _ IH]; intros slots; cbn [select_bindings]; [done|].
  unfold assignment_valid, _positive_id in Ha. bool_simpl. apply raises_bind; [by apply select_answered|].
  intros s (_ & _ & _ & Hsel)%select_exact. services.
  - apply selected_selector in Hsel as Hlen. destruct Hsel as (row & b & _ & _ & _ & _ & Hloc & _ & _ & ->).
    cbn [selection_endpoint_id selection_binding_id selection_review_state selection_location selection_selector] in *.
    rewrite !Z.eqb_refl, (bool_decide_eq_true_2 _ Hloc) in Hno. destruct (binding_selector b); [by destruct Hlen | done].
  - apply IH.
Qed.

Lemma check_ids_answered index seen ids : raises answered (check_identity_ids index seen ids).
Proof. revert index seen. induction ids as [|i rest IH]; intros index seen; cbn [check_identity_ids]; services; apply IH. Qed.
Lemma check_assignments_answered index seen l : raises answered (check_assignments index seen l).
Proof. revert index seen. induction l as [|a rest IH]; intros index seen; cbn [check_assignments]; services; apply IH. Qed.

(** What a resolution says satisfies the types of a fact. *)
Lemma single_cases values : single values = "unspecified" \/ single values ∈ values.
Proof.
  destruct (decide (single values = "unspecified")) as [?|Hn]; [by left | right].
  by apply (single_spec (single values) values Hn).
Qed.

Lemma resolution_valid m r i t res : metadata_sound unicode_text m ->
  resolve_resource_access (Some r) (Some i) (assertions m) (Aware t) = Ok res ->
  state res ∈ ["resolved"; "insufficient"; "conflict"]
  /\ resolved_relationship res ∈ ["owner"; "shared"; "non_owner"; "unspecified"]
  /\ resolved_expected_access res ∈ ["allowed"; "denied"; "unspecified"]
  /\ forallb identifier_ok (supporting_ids res) = true /\ Z.of_nat (length (supporting_ids res)) <= 256.
Proof.
  intros Hs. unfold resolve_resource_access. cbn [require mbind result_bind]. rewrite guard_bind_ok. intros [_ H]. head_if H; [done|].
  set (facts := take _ _) in *.
  assert (Hf : forall a, a ∈ facts -> a ∈ assertions m).
  { intros a Ha%elem_of_take. destruct Ha as (k & Ha & _). apply list_elem_of_lookup_2 in Ha.
    apply list_elem_of_In, filter_In in Ha as [Ha _]. by apply list_elem_of_In. }
  injection H as <-. cbn [state resolved_relationship resolved_expected_access supporting_ids]. split_and!.
  - repeat case_if; set_solver.
  - destruct (single_cases (relationship <$> facts)) as [-> | (a & -> & Ha)%list_elem_of_fmap]; [set_solver|].
    by apply (assertion_rows _ _ Hs), Hf.
  - destruct (single_cases (expected_access <$> facts)) as [-> | (a & -> & Ha)%list_elem_of_fmap]; [set_solver|].
    by apply (assertion_rows _ _ Hs), Hf.
  - apply forallb_forall. intros k (a & -> & Ha)%list_elem_of_In%list_elem_of_fmap_1. apply list_elem_of_In, filter_In in Ha as [Ha _].
    by apply (assertion_rows _ _ Hs), Hf, list_elem_of_In.
  - rewrite length_fmap. apply Z.ltb_ge in E. unfold MAX_ASSERTIONS_SCANNED in E.
    pose proof (List.filter_length_le says_something facts). lia.
Qed.

Lemma resolve_answered r i rows t : raises (fun e => answered (access_code e)) (resolve_resource_access r i rows (Aware t)).
Proof. unfold resolve_resource_access. services. Qed.

Lemma resolved_fact_answered m endpoint resource t r identity : metadata_sound unicode_text m ->
  resources m !! resource = Some r -> identities m !! identity_id identity = Some identity ->
  raises answered (resolved_fact m endpoint resource t identity).
Proof.
  intros Hs Hr Hi. unfold resolved_fact. rewrite Hr, Hi. apply raises_bind.
  { eapply raises_catch; [apply resolve_answered|]. by intros e. }
  intros res Hres%catch_raise_ok. apply resolution_fields in Hres as (H1 & H2 & H3). apply raises_bind.
  - apply raises_guard. rewrite H1, H2, H3, (resource_ids _ _ Hs _ _ Hr), !Z.eqb_refl. done.
  - intros _ _. eapply (raises_catch _ (fun _ => True)); [by destruct (new_fact _)|]. intros [] _; cbn; by_code.
Qed.

Lemma preview_answered m endpoint resource ids t : metadata_sound unicode_text m -> 0 < endpoint -> 0 < resource ->
  raises answered (preview_bola_matrix true m endpoint resource ids (Aware t)).
Proof.
  intros Hs He Hr. unfold preview_bola_matrix, _positive_id. rewrite (proj2 (Z.ltb_lt _ _) He), (proj2 (Z.ltb_lt _ _) Hr).
  cbn [guard_or mbind result_bind]. apply raises_bind; [apply check_ids_answered|]. intros _ _.
  apply raises_bind; [apply raises_require; by_code|]. intros row _.
  apply raises_bind; [apply raises_require; by_code|]. intros r Hres.
  apply raises_bind; [apply raises_guard; by_code|]. intros _ _. unfold require in Hres. destruct (resources m !! resource) as [r'|] eqn:E; [|done].
  injection Hres as ->. apply raises_bind.
  { apply raises_map_result. intros i _. unfold load_identity. services. }
  intros loaded Hload%map_result_ok. apply raises_bind.
  - apply raises_map_result. intros identity Hi. eapply resolved_fact_answered; [done..|].
    apply list_elem_of_lookup_1 in Hi as (k & Hk). destruct (Forall2_lookup_r _ _ _ _ _ Hload Hk) as (i & _ & (Hi & _)%load_identity_ok).
    by destruct (identity_rows _ _ Hs _ _ Hi) as [-> _].
  - intros facts _. apply raises_bind; [|done]. eapply (raises_catch _ (fun _ => True)); [by destruct (plan_bola_matrix _)|].
    intros [] _; cbn; by_code.
Qed.

Lemma facts_identities m endpoint resource t target ids facts :
  Forall2 (fact_of m endpoint resource t target) ids facts ->
  fact_test_identity_id <$> facts = ids
  /\ Forall (fun f => fact_endpoint_id f = endpoint /\ fact_resource_id f = resource) facts.
Proof.
  induction 1 as [|i f ids facts (identity & res & _ & _ & _ & _ & ->) _ [IH1 IH2]]; [by split; constructor|].
  rewrite fmap_cons. split; [by rewrite IH1 | by constructor].
Qed.

Lemma check_preview_ok m endpoint resource ids t p : preview_of m endpoint resource t ids p ->
  _check_preview p endpoint resource ids t = Ok tt.
Proof.
  intros (He & Hr & Ht & _ & row & r & _ & _ & _ & Hf). destruct (facts_identities _ _ _ _ _ _ _ Hf) as [Hids Hall].
  unfold _check_preview. rewrite He, Hr, Ht, !Z.eqb_refl, (bool_decide_eq_true_2 _ Hids), andb_true_r. cbn [andb].
  rewrite (proj2 (forallb_forall _ _)); [done|]. intros f Hin%list_elem_of_In. rewrite Forall_forall in Hall.
  destruct (Hall f Hin) as [-> ->]. by rewrite !Z.eqb_refl.
Qed.

Lemma preview_resources_answered m endpoint ids t l previews : metadata_sound unicode_text m -> 0 < endpoint ->
  Forall (fun a => assignment_valid a = true) l ->
  raises answered (preview_resources true m endpoint ids t l previews).
Proof.
  intros Hs He Hl. revert previews. induction Hl as [|a rest Ha _ IH]; intros previews; cbn [preview_resources]; [done|].
  destruct (previews !! assignment_resource_id a); [apply IH|]. unfold assignment_valid, _positive_id in Ha. bool_simpl.
  apply raises_bind; [by apply preview_answered|]. intros p Hp. apply (preview_ok unicode_text) in Hp; [|done].
  rewrite (check_preview_ok _ _ _ _ _ _ Hp). apply IH.
Qed.

Lemma matrix_answered m endpoint proposed ids t : metadata_sound unicode_text m -> 0 < endpoint ->
  raises answered (preview_bola_binding_matrix unicode_text true m endpoint proposed ids (Aware t)).
Proof.
  intros Hs He. unfold preview_bola_binding_matrix, _positive_id. rewrite (proj2 (Z.ltb_lt _ _) He). cbn [guard_or mbind result_bind].
  apply raises_bind; [apply check_assignments_answered|]. intros [] Hassign. apply check_assignments_ok in Hassign as (_ & Hv & _); [|lia].
  apply raises_bind; [apply raises_guard; by_code|]. intros _ _.
  apply raises_bind; [apply check_ids_answered|]. intros _ _.
  apply raises_bind; [apply raises_guard; by_code|]. intros _ _.
  apply raises_bind; [by apply select_bindings_answered|]. intros selections Hsel.
  apply raises_bind; [by apply preview_resources_answered|]. intros previews Hpre.
  apply raises_bind; [|done]. apply raises_map_result. intros [s a] Hsa. apply raises_bind; [|done]. apply raises_require. intros Hn.
  destruct (preview_resources_ok unicode_text true m endpoint ids t proposed ∅ previews Hs) as (_ & _ & Hall);
    [by intros ? ? ?%lookup_empty_Some | done |].
  destruct (Hall a) as [p Hp]; [|cbn in Hn; congruence]. by apply elem_of_zip_r in Hsa.
Qed.

(** ** The answer's types *)

Lemma fact_answer m endpoint resource t r i f : metadata_sound unicode_text m ->
  resources m !! resource = Some r -> identifier_ok endpoint = true -> identifier_ok resource = true -> identifier_ok i = true ->
  fact_of m endpoint resource t (resource_target_id r) i f -> fact_answer_ok f = true.
Proof.
  intros Hs Hr He Hres Hi (identity & res & Hid & _ & _ & Hresolve & ->). rewrite Hr in Hresolve.
  destruct (resolution_valid _ _ _ _ _ Hs Hresolve) as (H1 & H2 & H3 & H4 & H5).
  destruct (identity_rows _ _ Hs _ _ Hid) as [_ Hlen]. unfold fact_answer_ok, within, MAX_ASSERTIONS_SCANNED.
  cbn [fact_endpoint_id fact_resource_id fact_test_identity_id identity_auth_type resolution_state fact_relationship
       fact_expected_access supporting_assertion_ids].
  rewrite He, Hres, Hi, H4, (bool_decide_eq_true_2 _ H1), (bool_decide_eq_true_2 _ H2), (bool_decide_eq_true_2 _ H3),
    (proj2 (Z.leb_le _ _) H5), (proj2 (Z.leb_le _ _) Hlen). done.
Qed.

Lemma candidate_answer f c : candidate_of f = Some c -> fact_answer_ok f = true ->
  candidate_answer_ok c = true /\ candidate_endpoint_id c = fact_endpoint_id f /\ candidate_resource_id c = fact_resource_id f
  /\ candidate_test_identity_id c = fact_test_identity_id f.
Proof.
  intros Hc Hf. unfold candidate_of in Hc. head_if Hc; [done|]. apply orb_false_elim in E as [_ E]. apply negb_false_iff in E.
  unfold fact_answer_ok in Hf. bool_simpl.
  assert (Ha : fact_expected_access f ∈ ["allowed"; "denied"]) by (apply orb_true_iff in E as [E|E]; bool_simpl; rewrite E; set_solver).
  assert (Hk : exists subject kind, c = mkCandidate (fact_endpoint_id f) (fact_resource_id f) (fact_test_identity_id f) subject kind
      (fact_relationship f) (fact_expected_access f) (supporting_assertion_ids f)
    /\ subject ∈ ["anonymous"; "authenticated"] /\ kind ∈ ["anonymous_access"; "owner_access"; "shared_access"; "cross_subject_access"]).
  { repeat (head_if Hc; [injection Hc as <-; eexists _, _; split; [reflexivity | set_solver]|]). done. }
  destruct Hk as (subject & kind & -> & Hs & Hk). split; [|done]. unfold candidate_answer_ok.
  cbn [candidate_endpoint_id candidate_resource_id candidate_test_identity_id subject_kind candidate_kind candidate_relationship
       candidate_expected_access candidate_assertion_ids].
  rewrite (bool_decide_eq_true_2 _ Hs), (bool_decide_eq_true_2 _ Hk), (bool_decide_eq_true_2 _ Ha).
  repeat match goal with H : ?b = true |- context [?b] => rewrite H end.
  rewrite bool_decide_eq_true_2 by done. done.
Qed.

Lemma binding_answer db endpoint binding s : selected unicode_text db endpoint binding s ->
  identifier_ok endpoint = true -> identifier_ok binding = true -> binding_answer_ok s = true.
Proof.
  intros Hs He Hb. pose proof (selected_selector _ _ _ _ Hs) as [Hlen _]. destruct Hs as (row & b & _ & _ & _ & _ & Hl & _ & _ & ->).
  unfold binding_answer_ok. cbn [selection_endpoint_id selection_binding_id selection_location selection_selector selection_review_state] in *.
  rewrite He, Hb, (bool_decide_eq_true_2 _ Hl), (proj2 (Z.leb_le _ _) (proj1 Hlen)), (proj2 (Z.leb_le _ _) (proj2 Hlen)). done.
Qed.

Lemma omap_length {A B} (f : A -> option B) l : (length (omap f l) <= length l)%nat.
Proof. induction l as [|x l IH]; [done|]. cbn. destruct (f x); cbn; lia. Qed.

Lemma facts_answer m endpoint resource t r ids facts : metadata_sound unicode_text m ->
  resources m !! resource = Some r -> identifier_ok endpoint = true -> identifier_ok resource = true ->
  Forall (fun i => identifier_ok i = true) ids -> Forall2 (fact_of m endpoint resource t (resource_target_id r)) ids facts ->
  Forall (fun f => fact_answer_ok f = true) facts.
Proof.
  intros Hs Hr He Hres Hids Hf. induction Hf as [|i f ids facts H1 _ IH]; [constructor|].
  apply Forall_cons in Hids as [Hi Hids]. constructor; [|by apply IH]. exact (fact_answer m endpoint resource t r i f Hs Hr He Hres Hi H1).
Qed.

Lemma candidates_answer facts : Forall (fun f => fact_answer_ok f = true) facts ->
  Forall (fun c => candidate_answer_ok c = true /\ exists f, f ∈ facts /\ candidate_endpoint_id c = fact_endpoint_id f
    /\ candidate_resource_id c = fact_resource_id f /\ candidate_test_identity_id c = fact_test_identity_id f) (omap candidate_of facts).
Proof.
  rewrite !Forall_forall. intros Hall c (f & Hf & Hc)%list_elem_of_omap.
  destruct (candidate_answer f c Hc (Hall f Hf)) as (H1 & H2 & H3 & H4). split; [done|]. by exists f.
Qed.

Lemma slot_answer m endpoint t ids a slot v : metadata_sound unicode_text m -> identifier_ok endpoint = true ->
  Forall (fun i => identifier_ok i = true) ids -> identifier_ok a.1 = true -> identifier_ok a.2 = true ->
  slot_of unicode_text m endpoint t ids (mkAssignment a.1 a.2) slot ->
  multi_endpoint_id v = endpoint -> multi_test_identity_ids v = ids ->
  slot_answer_ok ids slot = true /\ slot_correlated v t slot a = true.
Proof.
  intros Hs Hendpoint Hids Ha1 Ha2 [Hsel (He & Hr & Ht & Hc & row & r & Hrow & Hres & Htarget & Hf)] <- <-.
  cbn [assignment_binding_id assignment_resource_id] in *.
  pose proof (binding_answer _ _ _ _ Hsel Hendpoint Ha1) as Hb.
  destruct Hsel as (row' & b & _ & _ & _ & _ & _ & _ & _ & Hsel).
  destruct (facts_identities _ _ _ _ _ _ _ Hf) as [Hfi Hfk].
  pose proof (facts_answer _ _ _ _ _ _ _ Hs Hres Hendpoint Ha2 Hids Hf) as Hfacts.
  pose proof (candidates_answer _ Hfacts) as Hcands. rewrite <- Hc in Hcands.
  assert (Hlen : length (preview_facts (slot_preview slot)) = length (multi_test_identity_ids v)) by (by rewrite <- Hfi, length_fmap).
  pose proof (omap_length candidate_of (preview_facts (slot_preview slot))) as Hcl. rewrite <- Hc in Hcl.
  rewrite Forall_forall in Hfk. rewrite Forall_forall in Hcands. split.
  - unfold slot_answer_ok, within. rewrite Hb, He, Hr, Hendpoint, Ha2, !(proj2 (Z.leb_le _ _)) by lia. cbn [andb].
    apply andb_true_iff. split; apply forallb_forall; intros x Hx%list_elem_of_In.
    + rewrite Forall_forall in Hfacts. by apply Hfacts.
    + by apply Hcands.
  - unfold slot_correlated. rewrite He, Hr, Ht, Hsel. cbn [selection_endpoint_id selection_binding_id].
    rewrite !Z.eqb_refl, (bool_decide_eq_true_2 _ Hfi). cbn [andb].
    apply andb_true_iff. split; apply forallb_forall; intros x Hx%list_elem_of_In.
    + destruct (Hfk x Hx) as [-> ->]. by rewrite !Z.eqb_refl.
    + destruct (Hcands x Hx) as (_ & f & Hin & -> & -> & ->). destruct (Hfk f Hin) as [-> ->]. rewrite !Z.eqb_refl. cbn [andb].
      apply bool_decide_eq_true. rewrite <- Hfi. apply list_elem_of_fmap. by exists f.
Qed.

Definition request_ok (r : BOLAMatrixPreviewRequest) : Prop :=
  identifier_ok (request_endpoint_id r) = true /\ Forall (fun i => identifier_ok i = true) (request_test_identity_ids r)
  /\ Forall (fun a => identifier_ok a.1 = true /\ identifier_ok a.2 = true) (request_assignments r).
Definition proposed_by (r : BOLAMatrixPreviewRequest) : list BOLAResourceSlotAssignment :=
  (fun a => mkAssignment a.1 a.2) <$> request_assignments r.

Lemma from_preview_ok m request v : metadata_sound unicode_text m -> request_ok request ->
  preview_bola_binding_matrix unicode_text true m (request_endpoint_id request) (proposed_by request)
    (request_test_identity_ids request) (Aware (request_evaluation_time request)) = Ok v ->
  from_preview v request = true.
Proof.
  intros Hs (He & Hids & Ha) H. destruct (matrix_ok _ _ _ _ _ _ _ Hs H) as (Hv & Ht & Hvids & Hne & _ & Hnd & Hl & Hcells & Hslots & _).
  pose proof (Forall2_length _ _ _ Hslots) as Hlen. unfold proposed_by in *. rewrite length_fmap in *.
  assert (Hne' : request_assignments request <> []) by (by destruct (request_assignments request)).
  assert (Hids512 : Z.of_nat (length (request_test_identity_ids request)) <= 512).
  { destruct (request_assignments request); [done|]. cbn [length] in Hcells. lia. }
  assert (Hall : Forall2 (fun a slot => slot_answer_ok (request_test_identity_ids request) slot = true
      /\ slot_correlated v (request_evaluation_time request) slot a = true) (request_assignments request) (multi_slots v)).
  { apply (Forall2_fmap_l (fun a : Z * Z => mkAssignment a.1 a.2)) in Hslots. clear -Hslots Ha Hs He Hids Hv Hvids. revert Ha Hslots.
    generalize (request_assignments request) (multi_slots v). intros assignments slots Ha Hslots.
    induction Hslots as [|a slot rest others H1 _ IH]; [constructor|].
    apply Forall_cons in Ha as [[Ha1 Ha2] Ha]. constructor; [|by apply IH]. exact (slot_answer m _ _ _ a slot v Hs He Hids Ha1 Ha2 H1 Hv Hvids). }
  unfold from_preview, within, MAX_BOLA_MATRIX_ASSIGNMENTS, MAX_BOLA_MATRIX_FACTS.
  rewrite Hv, Ht, Hvids, He, !Z.eqb_refl, <- Hlen, Z.eqb_refl, (bool_decide_eq_true_2 (_ = _)) by done.
  destruct (request_assignments request) as [|a0 l0] eqn:Er; [done|]. rewrite <- Er in *.
  rewrite !(proj2 (Z.leb_le _ _)) by (rewrite ?Er; cbn [length]; rewrite ?Er in *; cbn [length] in *; lia). cbn [andb].
  rewrite !andb_true_r, !andb_true_iff. split_and!.
  - apply forallb_forall. intros slot (k & Hk)%list_elem_of_In%list_elem_of_lookup_1.
    by destruct (Forall2_lookup_r _ _ _ _ _ Hall Hk) as (a & _ & ? & _).
  - apply forallb_forall. intros i Hi%list_elem_of_In. rewrite Forall_forall in Hids. by apply Hids.
  - clear -Hall. induction Hall as [|a slot l slots [_ H] _ IH]; [done|]. cbn. by rewrite H.
Qed.

(** ** The route *)

Lemma identifier_spec j i : identifier j = Some i -> identifier_ok i = true.
Proof. destruct j; try done. cbn. case_if; [|done]. by intros [= <-]. Qed.

Lemma validate_request_ok document r : validate_request document = Some r -> request_ok r.
Proof.
  unfold validate_request. intros H.
  apply bind_Some in H as (o & _ & H). apply bind_Some in H as (endpoint & (j & _ & He%identifier_spec)%bind_Some & H).
  apply bind_Some in H as (slots & _ & H). apply bind_Some in H as (proposed & Hp & H).
  apply bind_Some in H as (ids & _ & H). apply bind_Some in H as (identified & Hi & H).
  apply bind_Some in H as (text & _ & H). apply bind_Some in H as (t & _ & H). head_if H; [|done]. injection H as <-. clear E.
  split_and!; [done | |]; cbn [request_test_identity_ids request_assignments].
  - apply mapM_Some in Hi. induction Hi as [|j' i js found Hj _ IH]; [constructor|].
    constructor; [by apply identifier_spec in Hj | done].
  - apply mapM_Some in Hp. induction Hp as [|j' a js l Hj _ IH]; [constructor|]. constructor; [|done].
    unfold slot_request in Hj. apply bind_Some in Hj as (o' & _ & Hj).
    apply bind_Some in Hj as (b & (? & _ & Hb%identifier_spec)%bind_Some & Hj).
    apply bind_Some in Hj as (c & (? & _ & Hc%identifier_spec)%bind_Some & [= <-]). done.
Qed.

Lemma new_assignments r : request_ok r -> map_result (fun a => new_assignment a.1 a.2) (request_assignments r) = Ok (proposed_by r).
Proof.
  intros (_ & _ & Ha). apply map_result_ok, Forall2_fmap_r. unfold new_assignment, assignment_valid, _positive_id.
  induction Ha as [|a l [H1 H2] _ IH]; [constructor|]. constructor; [|done]. unfold identifier_ok in H1, H2. cbn. bool_simpl.
  by rewrite !(proj2 (Z.ltb_lt _ _)) by lia.
Qed.

(** The answers that the route documents. *)
Definition documented_answer (e : answer_error) : Prop :=
  let '(ErrorAnswer status detail) := e in
  (status, detail) ∈ [(415, "bola_matrix_preview_media_type_unsupported"); (413, "bola_matrix_preview_request_limit_exceeded");
                      (422, INVALID_REQUEST)]
  \/ DOMAIN_STATUS detail = Some status.

Abbreviation post := (post_preview unicode_text parse_json encoded_length).

Lemma read_request_ok r payload : _read_request parse_json r = Ok payload -> request_ok payload.
Proof.
  unfold _read_request. rewrite guard_bind_ok. intros (_ & (raw & _ & H)%require_bind_ok). apply guard_bind_ok in H as [_ H].
  unfold require in H. destruct (parse_json raw) as [document|]; [|done]. cbn in H.
  destruct (validate_request document) eqn:E; [|done]. injection H as <-. by eapply validate_request_ok.
Qed.

Lemma preview_matrix_exact m payload : metadata_sound unicode_text m -> request_ok payload ->
  match preview_matrix unicode_text encoded_length m payload with
  | Ok v => preview_bola_binding_matrix unicode_text true m (request_endpoint_id payload) (proposed_by payload)
              (request_test_identity_ids payload) (Aware (request_evaluation_time payload)) = Ok v
  | Raise e => documented_answer e
               \/ e = ErrorAnswer 500 "bola_matrix_preview_response_limit_exceeded"
                  /\ exists v, MAX_BOLA_MATRIX_RESPONSE_BYTES < encoded_length v
  end.
Proof.
  intros Hs Hr. unfold preview_matrix. rewrite (new_assignments _ Hr). cbn [catch mbind result_bind].
  assert (He : 0 < request_endpoint_id payload).
  { destruct Hr as (H & _). unfold identifier_ok in H. bool_simpl. lia. }
  pose proof (matrix_answered m (request_endpoint_id payload) (proposed_by payload) (request_test_identity_ids payload)
    (request_evaluation_time payload) Hs He) as Ha.
  destruct (preview_bola_binding_matrix _ _ _ _ _ _ _) as [v|e] eqn:E; cbn [catch mbind result_bind raises] in *.
  - rewrite (from_preview_ok m payload v Hs Hr E). cbn [guard_or mbind result_bind]. unfold guard_or.
    case_if; cbn; [done|]. right. bool_simpl. split; [done|]. by exists v.
  - destruct Ha as (code & status & -> & Hc). cbn [domain_answer]. rewrite Hc. left. by right.
Qed.

Lemma post_exact m r : metadata_sound unicode_text m ->
  match post m r with
  | Ok v => exists payload, _read_request parse_json r = Ok payload
      /\ preview_bola_binding_matrix unicode_text true m (request_endpoint_id payload) (proposed_by payload)
           (request_test_identity_ids payload) (Aware (request_evaluation_time payload)) = Ok v
  | Raise e => documented_answer e
               \/ e = ErrorAnswer 500 "bola_matrix_preview_response_limit_exceeded"
                  /\ exists v, MAX_BOLA_MATRIX_RESPONSE_BYTES < encoded_length v
  end.
Proof.
  intros Hs. unfold post_preview. destruct (_read_request parse_json r) as [payload|e] eqn:E; cbn [mbind result_bind].
  - pose proof (preview_matrix_exact m payload Hs (read_request_ok _ _ E)) as H.
    destruct (preview_matrix _ _ _ _) as [v|e]; [by exists payload | exact H].
  - left. assert (H : raises documented_answer (_read_request parse_json r)); [|by rewrite E in H].
    unfold _read_request. apply raises_bind; [apply raises_guard; intros _; left; set_solver|]. intros _ _.
    apply raises_bind; [apply raises_require; intros _; left; set_solver|]. intros raw _.
    apply raises_bind; [apply raises_guard; intros _; left; set_solver|]. intros _ _.
    apply raises_require. intros _. left. set_solver.
Qed.
End answers.

(** * What a request gets *)

Section properties.
Context (unicode_text : pattern_kind -> string -> bool).
Context (parse_json : string -> option json) (encoded_length : BOLAMultiBindingPreview -> Z).
Abbreviation post := (post_preview unicode_text parse_json encoded_length).

(** C24: A preview shows what the tables say and nothing else: for each proposed assignment, in
    order, a binding of the endpoint that is confirmed, valid and declared exactly once by its
    description, with the facts of the requested identities, active ones of the Target of the
    resource, each the resolution of its access facts at the requested time, and the
    candidates that the planner makes of them; no binding, slot or identity appears twice and
    there are at most 512 cells. *)
Theorem preview_confirmed m r v : metadata_sound unicode_text m -> post m r = Ok v ->
  exists payload, _read_request parse_json r = Ok payload
    /\ multi_endpoint_id v = request_endpoint_id payload /\ multi_evaluation_time v = request_evaluation_time payload
    /\ multi_test_identity_ids v = request_test_identity_ids payload
    /\ NoDup (assignment_binding_id <$> proposed_by payload) /\ NoDup (request_test_identity_ids payload)
    /\ Z.of_nat (length (proposed_by payload)) * Z.of_nat (length (request_test_identity_ids payload)) <= 512
    /\ Forall2 (slot_of unicode_text m (request_endpoint_id payload) (request_evaluation_time payload) (request_test_identity_ids payload))
         (proposed_by payload) (multi_slots v)
    /\ NoDup ((fun slot => slot_key (slot_binding slot)) <$> multi_slots v).
Proof.
  intros Hs H. pose proof (post_exact unicode_text parse_json encoded_length m r Hs) as Hp. rewrite H in Hp.
  destruct Hp as (payload & Hread & Hm). exists payload. split; [done|].
  destruct (matrix_ok _ _ _ _ _ _ _ Hs Hm) as (? & ? & ? & _ & ? & ? & _ & ? & ? & ?). done.
Qed.

(** Whatever the request and the tables are, the preview operation answers with a preview
    or with one of its documented codes under its own status; its only internal error is an
    answer that is too large. The checks of dependencies, of the types of the answer and of
    its correlation with the request never fail. *)
Theorem previews_answered m r : metadata_sound unicode_text m ->
  match post m r with
  | Ok _ => True
  | Raise e => documented_answer e
               \/ e = ErrorAnswer 500 "bola_matrix_preview_response_limit_exceeded"
                  /\ exists v, MAX_BOLA_MATRIX_RESPONSE_BYTES < encoded_length v
  end.
Proof.
  intros Hs. pose proof (post_exact unicode_text parse_json encoded_length m r Hs) as Hp. by destruct (post m r).
Qed.
End properties.

(** * A preview of the lab *)

Definition preview_metadata : Metadata :=
  mkMetadata preview_bindings {[ 31 := lab_order ]} {[ 21 := lab_alice; 22 := lab_bob; 23 := lab_guest ]} [lab_fact].
Definition preview_document : json :=
  JObj [("endpoint_id", JInt 41); ("assignments", JArr [JObj [("binding_id", JInt 100); ("resource_id", JInt 31)]]);
        ("test_identity_ids", JArr [JInt 22; JInt 23]); ("evaluation_time", JStr "1970-01-01T01:00:00.0002+01:00")].
Definition preview_request : HttpRequest := mkHttpRequest ["application/json; charset=utf-8"] [] ["{}"] false.
Definition lab_preview : result answer_error BOLAMultiBindingPreview :=
  post_preview no_text (fun _ => Some preview_document) (fun _ => 1000) preview_metadata preview_request.

Lemma preview_metadata_sound : metadata_sound no_text preview_metadata.
Proof.
  split.
  - apply bindings_reachable_sound, preview_bindings_reachable.
  - intros k r H. cbn [resources preview_metadata] in H. apply lookup_singleton_Some in H as [<- <-]. reflexivity.
  - intros k i H. cbn [identities preview_metadata] in H.
    repeat (apply lookup_insert_Some in H as [[<- <-]|[_ H]]; [split; [reflexivity | vm_compute; discriminate]|]).
    apply lookup_singleton_Some in H as [<- <-]. split; [reflexivity | vm_compute; discriminate].
  - intros a ->%list_elem_of_singleton. split; [reflexivity|]. split; set_solver.
Qed.

Example lab_preview_candidates :
  match lab_preview with
  | Ok v => (fun slot => (selection_selector (slot_binding slot), preview_candidates (slot_preview slot))) <$> multi_slots v
            = [("order_id", [mkCandidate 41 31 22 "authenticated" "cross_subject_access" "non_owner" "denied" [62]])]
  | Raise _ => False
  end.
Proof. vm_compute. reflexivity. Qed.

Lemma preview_confirmed_witness : exists v slot, lab_preview = Ok v /\ multi_slots v = [slot]
  /\ selected no_text preview_bindings 41 100 (slot_binding slot).
Proof.
  destruct lab_preview as [v|e] eqn:E; [|vm_compute in E; discriminate E].
  destruct (preview_confirmed no_text (fun _ => Some preview_document) (fun _ => 1000) preview_metadata preview_request v
    preview_metadata_sound E) as (payload & Hread & _ & _ & _ & _ & _ & _ & Hslots & _).
  vm_compute in Hread. injection Hread as <-. cbn in Hslots.
  inversion Hslots as [|a slot l slots [Hsel _] Hrest Ha Hv]. inversion Hrest. subst. exists v, slot. split; [reflexivity|].
  split; [done | exact Hsel].
Defined.

Lemma previews_answered_witness :
  post_preview no_text (fun _ => Some preview_document) (fun _ => 1000)
    (mkMetadata preview_bindings ∅ ∅ []) preview_request = Raise (ErrorAnswer 404 "resource_not_found")
  /\ documented_answer (ErrorAnswer 404 "resource_not_found").
Proof.
  assert (Hs : metadata_sound no_text (mkMetadata preview_bindings ∅ ∅ [])).
  { split; [exact (bindings_ok _ _ preview_metadata_sound) | | | ].
    - intros k r H. cbn [resources] in H. by apply lookup_empty_Some in H.
    - intros k i H. cbn [identities] in H. by apply lookup_empty_Some in H.
    - intros a H. cbn [assertions] in H. by apply elem_of_nil in H. }
  pose proof (previews_answered no_text (fun _ => Some preview_document) (fun _ => 1000) _ preview_request Hs) as H.
  assert (E : post_preview no_text (fun _ => Some preview_document) (fun _ => 1000)
    (mkMetadata preview_bindings ∅ ∅ []) preview_request = Raise (ErrorAnswer 404 "resource_not_found")) by (vm_compute; reflexivity).
  rewrite E in H. split; [exact E|]. destruct H as [H|[H _]]; [exact H | discriminate H].
Defined.
