(* ===== verification/Findings.v ===== *)
(** The findings of the BOLA analysis, src/backend/app/services/finding_analysis.py, with
    their rows (src/backend/app/db/models/finding*.py) and the retention policy,
    src/backend/app/domain/finding_evidence_retention.py.

    An analysis reads, then writes in one transaction. The two parts are two definitions on
    the tables as each of them finds them, so that other transactions may commit between. *)

From stdpp Require Import gmap.
From S2P Require Import Prelude.
From S2P Require Import PyStr.
From S2P Require Import PyFloat.
From S2P Require Import PyJson.
From S2P Require Import Models.
From S2P Require Import Generator.
From S2P Require Import Analyzer.
From S2P Require Import Database.
From S2P Require Import Tables.

Open Scope Z_scope.

(** * Rows *)

Record Finding := mkFinding {
  finding_id : Z;
  finding_target_id : Z;
  finding_endpoint_id : Z;
  finding_test_run_id : Z;
  finding_baseline_test_run_id : option Z;
  category : string;
  finding_severity : string;
  finding_confidence : float;
  finding_status : string;
  title : string;
  description : string;
  review_notes : option string
}.

(** The five tables of evidence have the same form: a row has an id, the id of the row it
    belongs to, and values. *)
Record Row (A : Type) := mkRow { row_id : Z; parent_id : Z; values : A }.
Arguments mkRow {A}.
Arguments row_id {A}.
Arguments parent_id {A}.
Arguments values {A}.

(** The values of a FindingEvidenceRecord: [asdict(evidence)]. *)
Record StructuredValues := mkStructured {
  structured_evidence : BOLAStructuredEvidence;
  evidence_type : string;
  rule_id : string;
  rule_version : string;
  reason_code : string
}.
Record ExcerptValues := mkExcerptValues {
  excerpts_of : BOLARedactedExcerptEvidence;
  extractor_id : string;
  extractor_version : string
}.
Record FingerprintValues := mkFingerprintValues {
  fingerprint_of : BOLAResponseFingerprintEvidence;
  algorithm : string;
  fingerprint_version : string
}.
Record SimilarityValues := mkSimilarityValues {
  similarity_of : BOLAResponseSimilarityEvidence;
  comparator_id : string;
  comparator_version : string
}.
Record FindingEvidenceRetentionPolicy := mkRetention {
  policy_id : string;
  policy_version : string;
  retention_mode : string;
  automatic_deletion_enabled : bool;
  raw_response_body_retained : bool
}.

#[export] Instance structured_evidence_eq_dec : EqDecision BOLAStructuredEvidence.
Proof. solve_decision. Defined.
#[export] Instance excerpt_evidence_eq_dec : EqDecision BOLARedactedExcerptEvidence.
Proof. solve_decision. Defined.
#[export] Instance fingerprint_evidence_eq_dec : EqDecision BOLAResponseFingerprintEvidence.
Proof. solve_decision. Defined.
#[export] Instance similarity_evidence_eq_dec : EqDecision BOLAResponseSimilarityEvidence.
Proof. solve_decision. Defined.
#[export] Instance structured_values_eq_dec : EqDecision StructuredValues.
Proof. solve_decision. Defined.
#[export] Instance excerpt_values_eq_dec : EqDecision ExcerptValues.
Proof. solve_decision. Defined.
#[export] Instance fingerprint_values_eq_dec : EqDecision FingerprintValues.
Proof. solve_decision. Defined.
#[export] Instance similarity_values_eq_dec : EqDecision SimilarityValues.
Proof. solve_decision. Defined.
#[export] Instance retention_eq_dec : EqDecision FindingEvidenceRetentionPolicy.
Proof. solve_decision. Defined.

Definition structured_values (e : BOLAStructuredEvidence) : StructuredValues :=
  mkStructured e "bola_resource_identifier_pair" "bola_resource_identifier_presence" "1"
    "baseline_and_probe_contain_target_resource_identifier".
Definition excerpt_values (e : BOLARedactedExcerptEvidence) : ExcerptValues :=
  mkExcerptValues e "bola_matched_identifier_field" "1".
Definition fingerprint_values (f : BOLAResponseFingerprintEvidence) : FingerprintValues :=
  mkFingerprintValues f "sha256" "1".
Definition similarity_values (s : BOLAResponseSimilarityEvidence) : SimilarityValues :=
  mkSimilarityValues s "sha256_exact_and_length_ratio" "1".
Definition V1_FINDING_EVIDENCE_RETENTION_POLICY : FindingEvidenceRetentionPolicy :=
  mkRetention "m13_minimized_finding_evidence" "1" "explicit_management_only" false false.

(** The CHECK constraints, and the lengths of the two excerpts. *)
Definition ck_structured (v : StructuredValues) : bool :=
  negb (Analyzer.baseline_test_run_id (structured_evidence v) =? probe_test_run_id (structured_evidence v)).
Definition ck_excerpt (v : ExcerptValues) : bool :=
  (str_len (baseline_excerpt (excerpts_of v)) <=? 192) && (str_len (probe_excerpt (excerpts_of v)) <=? 192).
(** [length(digest) = 64 AND digest ~ '^[0-9a-f]{64}$'] *)
Definition hex_digest (s : string) : bool :=
  (str_len s =? 64) && str_forall (fun c => is_digit c || between 97 102 c) s.
Definition ck_fingerprint (v : FingerprintValues) : bool :=
  bool_decide (algorithm v = "sha256") && bool_decide (fingerprint_version v = "1")
  && hex_digest (baseline_digest (fingerprint_of v)) && hex_digest (probe_digest (fingerprint_of v))
  && (0 <=? baseline_body_bytes (fingerprint_of v)) && (0 <=? probe_body_bytes (fingerprint_of v)).
Definition ck_similarity (v : SimilarityValues) : bool :=
  bool_decide (comparator_id v = "sha256_exact_and_length_ratio") && bool_decide (comparator_version v = "1")
  && (0 <=? length_similarity_bps (similarity_of v)) && (length_similarity_bps (similarity_of v) <=? 10000).
Definition ck_retention (v : FindingEvidenceRetentionPolicy) : bool :=
  bool_decide (v = V1_FINDING_EVIDENCE_RETENTION_POLICY).

Record FindingAIAnalysis := mkAIAnalysis {
  ai_analysis_id : Z;
  ai_finding_id : Z;
  provider : string;
  model_name : string;
  ai_category : string;
  ai_confidence : float;
  ai_severity : string;
  false_positive_risk : string;
  ai_reason : string;
  recommended_review : string;
  fix_recommendation : string
}.

Record SecurityReport := mkReport {
  report_id : Z;
  report_finding_id : Z;
  report_target_id : Z;
  version : Z;
  report_format : string;
  report_data : json;
  markdown_content : string
}.

Record FindingTables := mkTables {
  findings : gmap Z Finding;
  evidence_records : gmap Z (Row StructuredValues);
  excerpts : gmap Z (Row ExcerptValues);
  fingerprints : gmap Z (Row FingerprintValues);
  similarities : gmap Z (Row SimilarityValues);
  retentions : gmap Z (Row FindingEvidenceRetentionPolicy);
  ai_analyses : gmap Z FindingAIAnalysis;
  reports : gmap Z SecurityReport
}.

Definition no_findings : FindingTables := mkTables ∅ ∅ ∅ ∅ ∅ ∅ ∅ ∅.

(** The rows the services read: the planning tables, the runs, and the columns of runs and
    test cases that only advice and reports use. *)
Record RunTables := mkRunTables {
  planning : Database;
  test_runs : gmap Z TestRun;
  request_data : gmap Z (list (string * json));
  expected_statuses : gmap Z (list Z)
}.

(** * Errors

    Each service raises its own class and a subclass of it for missing rows. *)
Inductive finding_error : Type :=
| NotFoundError (detail : string)
| ServiceError (detail : string)
| RuntimeError (detail : string)
| JSONError
| DataError
| IntegrityError
| HTTPException (status_code : Z) (detail : string).
#[export] Instance finding_error_eq_dec : EqDecision finding_error.
Proof. solve_decision. Defined.

Abbreviation finding_result := (result finding_error).

Definition insert_row {A} (table : gmap Z A) (new_id : Z) (row : A) : finding_result (gmap Z A) :=
  if is_none (table !! new_id) then Ok (<[new_id := row]> table) else Raise IntegrityError.

Definition reject_case (db : Database) (case : option TestCase) : finding_result unit :=
  guard_or (negb (new_case db case)) (ServiceError "intent_w2_execution_closed").

(** * Evidence: written once, then compared *)

(** [select(Model).where(Model.parent_id == parent)]: at most one row, by the unique
    constraint. *)
Definition row_of {A} (table : gmap Z (Row A)) (parent : Z) : option (Row A) :=
  find_first (fun r => parent_id r =? parent) (rows table).

(** [insert(Model).values(...).on_conflict_do_nothing(...)]: PostgreSQL checks the values
    before it looks for a conflict. *)
Definition insert_unless {A} (ck : A -> bool) (refusal : finding_error) (table : gmap Z (Row A))
    (new_id parent : Z) (v : A) : finding_result (gmap Z (Row A)) :=
  _ ← guard_or (ck v) refusal;
  match row_of table parent with
  | Some _ => Ok table
  | None => insert_row table new_id (mkRow new_id parent v)
  end.

(** The insert, the query that reads the row back, and the comparison of every value. *)
Definition persist {A} `{EqDecision A} (ck : A -> bool) (refusal : finding_error) (conflict : string)
    (table : gmap Z (Row A)) (new_id parent : Z) (v : A) : finding_result (Row A * gmap Z (Row A)) :=
  table' ← insert_unless ck refusal table new_id parent v;
  stored ← require (row_of table' parent) (ServiceError conflict);
  _ ← guard_or (bool_decide (values stored = v)) (ServiceError conflict);
  Ok (stored, table').

Definition persist_structured_evidence :=
  persist ck_structured IntegrityError "finding_structured_evidence_conflict".
Definition persist_excerpt := persist ck_excerpt DataError "finding_evidence_excerpt_conflict".
Definition persist_fingerprint := persist ck_fingerprint IntegrityError "finding_evidence_fingerprint_conflict".
Definition persist_similarity := persist ck_similarity IntegrityError "finding_evidence_similarity_conflict".
Definition persist_retention_binding :=
  persist ck_retention IntegrityError "finding_evidence_retention_policy_conflict".

(** * The analysis of a test run *)

(** What an analysis that found a potential BOLA is about to write. *)
Record PreparedFinding := mkPrepared {
  prepared_endpoint : Endpoint;
  prepared_run : Z;
  prepared_baseline : Z;
  prepared_severity : string;
  prepared_confidence : float;
  prepared_evidence : BOLAStructuredEvidence;
  prepared_excerpt : BOLARedactedExcerptEvidence;
  prepared_fingerprint : BOLAResponseFingerprintEvidence;
  prepared_similarity : BOLAResponseSimilarityEvidence
}.

Definition finding_of_run (table : gmap Z Finding) (run : Z) : option Finding :=
  find_first (fun f => (finding_test_run_id f =? run) && bool_decide (category f = "BOLA")) (rows table).

Definition validate_baseline_binding (f : Finding) (baseline : Z) : finding_result unit :=
  guard_or (bool_decide (finding_baseline_test_run_id f = Some baseline))
    (ServiceError "finding_evidence_pair_conflict").

Definition validate_fingerprint (stored : Row FingerprintValues)
    (fingerprint : option BOLAResponseFingerprintEvidence) : finding_result unit :=
  guard_or (bool_decide (Some (values stored) = fingerprint_values <$> fingerprint))
    (ServiceError "finding_evidence_fingerprint_conflict").

Definition check_existing_fingerprint (st : FindingTables) (finding : Z)
    (fingerprint : option BOLAResponseFingerprintEvidence) : finding_result unit :=
  match row_of (evidence_records st) finding with
  | None => Ok tt
  | Some evidence =>
      match row_of (fingerprints st) (row_id evidence) with
      | None => Ok tt
      | Some stored => validate_fingerprint stored fingerprint
      end
  end.

(** The probe and its baseline: different runs of cases on the same endpoint and resource
    by different identities, the baseline's an owner baseline. *)
Definition pair_valid (test_run baseline_run : TestRun) (test_case : TestCase) (baseline_case : option TestCase)
    : bool :=
  match baseline_case with
  | None => false
  | Some b =>
      negb (test_run_id baseline_run =? test_run_id test_run)
      && bool_decide (test_type b = OWNER_BASELINE)
      && (test_case_endpoint_id b =? test_case_endpoint_id test_case)
      && (test_case_resource_id b =? test_case_resource_id test_case)
      && negb (test_case_actor_identity_id b =? test_case_actor_identity_id test_case)
  end.

(** [x or default] *)
Definition or_text (x : option string) (d : string) : string :=
  match x with Some s => if is_empty s then d else s | None => d end.
Definition or_zero (x : option float) : float := default f0 x.

Section analysis.
Variable sha256 : string -> string.
Variable json_loads : string -> result json_error json.

(** The result of the analysis, and what it has to store if it is a potential BOLA. The
    comparator of the similarity is a constant of the analyzer. *)
Definition analyze_read (db : RunTables) (st : FindingTables) (run baseline : Z)
    : finding_result (BOLAAnalysisResult * option PreparedFinding) :=
  test_run ← require (test_runs db !! run) (NotFoundError "TestRun not found.");
  test_case ← require (test_cases (planning db) !! run_test_case_id test_run) (NotFoundError "TestCase not found.");
  _ ← reject_case (planning db) (Some test_case);
  if negb (bool_decide (test_type test_case = BOLA_CROSS_OWNER)) then
    Ok (inconclusive "Only cross-owner BOLA runs are analyzed here.", None)
  else
    endpoint ← require (endpoints (planning db) !! test_case_endpoint_id test_case) (NotFoundError "Endpoint not found.");
    resource ← require (resources (planning db) !! test_case_resource_id test_case) (NotFoundError "Resource not found.");
    _ ← guard_or (endpoint_target_id endpoint =? resource_target_id resource)
          (ServiceError "Endpoint and resource belong to different targets.");
    baseline_run ← require (test_runs db !! baseline) (NotFoundError "finding_baseline_test_run_not_found");
    let baseline_case := test_cases (planning db) !! run_test_case_id baseline_run in
    _ ← reject_case (planning db) baseline_case;
    _ ← guard_or (pair_valid test_run baseline_run test_case baseline_case)
          (ServiceError "finding_evidence_pair_invalid");
    let existing := finding_of_run (findings st) (test_run_id test_run) in
    _ ← match existing with
        | Some f => validate_baseline_binding f (test_run_id baseline_run)
        | None => Ok tt
        end;
    r ← catch (analyze_bola_run sha256 json_loads test_case test_run (Some baseline_run) resource)
          (fun _ => Raise JSONError);
    _ ← match existing with
        | Some f => check_existing_fingerprint st (finding_id f) (fingerprint_evidence r)
        | None => Ok tt
        end;
    if negb (bool_decide (outcome_of r = POTENTIAL_BOLA)) then Ok (r, None)
    else
      evidence ← require (evidence r) (ServiceError "finding_structured_evidence_conflict");
      _ ← guard_or ((probe_test_run_id evidence =? test_run_id test_run)
                    && (Analyzer.baseline_test_run_id evidence =? test_run_id baseline_run))
            (ServiceError "finding_structured_evidence_conflict");
      excerpt ← require (excerpt_evidence r) (ServiceError "finding_evidence_excerpt_conflict");
      fingerprint ← require (fingerprint_evidence r) (ServiceError "finding_evidence_fingerprint_conflict");
      similarity ← require (similarity_evidence r) (ServiceError "finding_evidence_similarity_conflict");
      Ok (r, Some (mkPrepared endpoint (test_run_id test_run) (test_run_id baseline_run)
                     (or_text (severity r) "unknown") (or_zero (analysis_confidence r))
                     evidence excerpt fingerprint similarity)).
End analysis.

Definition finding_title (e : Endpoint) : string :=
  "Potential BOLA in " +:+ endpoint_method e +:+ " " +:+ endpoint_path e.
Definition finding_description : string :=
  "Cross-owner access to the target resource returned a successful response containing evidence of the target resource. Human review is required.".

(** The primary keys that the sequences of the tables give to the new rows. *)
Record NewIds := mkNewIds {
  new_finding : Z;
  new_record : Z;
  new_excerpt : Z;
  new_fingerprint : Z;
  new_similarity : Z;
  new_retention : Z
}.

Definition finding_values (p : PreparedFinding) (new_id : Z) : Finding :=
  mkFinding new_id (endpoint_target_id (prepared_endpoint p)) (endpoint_id (prepared_endpoint p))
    (prepared_run p) (Some (prepared_baseline p)) "BOLA" (prepared_severity p) (prepared_confidence p)
    "potential" (finding_title (prepared_endpoint p)) finding_description None.

(** [insert(Finding) ... on_conflict_do_nothing(...).returning(Finding.id)]; the column of
    the title has 255 characters. *)
Definition insert_finding (table : gmap Z Finding) (f : Finding) : finding_result (option Z * gmap Z Finding) :=
  _ ← guard_or (str_len (title f) <=? 255) DataError;
  match finding_of_run table (finding_test_run_id f) with
  | Some _ => Ok (None, table)
  | None => table' ← insert_row table (finding_id f) f; Ok (Some (finding_id f), table')
  end.

(** The new severity, confidence and texts of a finding that existed. *)
Definition refresh_finding (p : PreparedFinding) (f : Finding) : Finding :=
  mkFinding (finding_id f) (finding_target_id f) (finding_endpoint_id f) (finding_test_run_id f)
    (finding_baseline_test_run_id f) (category f) (prepared_severity p) (prepared_confidence p)
    (finding_status f) (finding_title (prepared_endpoint p)) finding_description (review_notes f).

(** The rows of evidence below a finding. *)
Definition store_evidence (p : PreparedFinding) (ids : NewIds) (finding : Z) (st : FindingTables)
    : finding_result FindingTables :=
  '(record, records) ← persist_structured_evidence (evidence_records st) (new_record ids) finding
     (structured_values (prepared_evidence p));
  '(_, excerpts') ← persist_excerpt (excerpts st) (new_excerpt ids) (row_id record)
     (excerpt_values (prepared_excerpt p));
  '(fingerprint, fingerprints') ← persist_fingerprint (fingerprints st) (new_fingerprint ids) (row_id record)
     (fingerprint_values (prepared_fingerprint p));
  '(_, similarities') ← persist_similarity (similarities st) (new_similarity ids) (row_id fingerprint)
     (similarity_values (prepared_similarity p));
  '(_, retentions') ← persist_retention_binding (retentions st) (new_retention ids) (row_id record)
     V1_FINDING_EVIDENCE_RETENTION_POLICY;
  Ok (mkTables (findings st) records excerpts' fingerprints' similarities' retentions' (ai_analyses st) (reports st)).

Definition with_findings (table : gmap Z Finding) (st : FindingTables) : FindingTables :=
  mkTables table (evidence_records st) (excerpts st) (fingerprints st) (similarities st) (retentions st)
    (ai_analyses st) (reports st).

(** [with self.db.begin_nested(): ...] and the commit: all of it or nothing. *)
Definition store_finding (p : PreparedFinding) (ids : NewIds) (st : FindingTables)
    : finding_result (Finding * FindingTables) :=
  '(inserted, table) ← insert_finding (findings st) (finding_values p (new_finding ids));
  finding ← require (match inserted with
                     | Some i => table !! i
                     | None => finding_of_run table (prepared_run p)
                     end) (RuntimeError "Finding conflict row not found.");
  _ ← validate_baseline_binding finding (prepared_baseline p);
  st' ← store_evidence p ids (finding_id finding) (with_findings table st);
  let finding' := if is_none inserted then refresh_finding p finding else finding in
  Ok (finding', with_findings (<[finding_id finding := finding']> (findings st')) st').

(** [analyze_test_run] when nothing else commits in between. *)
Definition analyze_test_run (sha256 : string -> string) (json_loads : string -> result json_error json)
    (db : RunTables) (ids : NewIds) (run baseline : Z) (st : FindingTables)
    : finding_result (BOLAAnalysisResult * option Finding * FindingTables) :=
  '(r, prepared) ← analyze_read sha256 json_loads db st run baseline;
  match prepared with
  | None => Ok (r, None, st)
  | Some p => '(f, st') ← store_finding p ids st; Ok (r, Some f, st')
  end.
