(* ===== verification/Reports.v ===== *)
(** What becomes of a finding: its review and the reads of its evidence
    (src/backend/app/api/routes/findings.py), advice (services/ai_analysis.py,
    ai/mock_provider.py, api/routes/ai_analysis.py) and the formal reports
    (services/security_report.py, reports/markdown.py, api/routes/security_reports.py).

    [json_loads] and the provider of advice are arguments. *)

From stdpp Require Import gmap.
From S2P Require Import Prelude.
From S2P Require Import PyStr.
From S2P Require Import PyFloat.
From S2P Require Import PyJson.
From S2P Require Import Models.
From S2P Require Import Analyzer.
From S2P Require Import Database.
From S2P Require Import Tables.
From S2P Require Import Findings.

Open Scope Z_scope.

(** What a handler raises instead of a service's error. *)
Definition service_http (e : finding_error) : finding_error :=
  match e with
  | NotFoundError d => HTTPException 404 d
  | ServiceError d => HTTPException 409 d
  | e => e
  end.
Definition to_http {A} (m : finding_result A) : finding_result A := catch m (fun e => Raise (service_http e)).

(** * Findings *)

Definition analyze_test_run_handler (sha256 : string -> string) (json_loads : string -> result json_error json)
    (db : RunTables) (ids : NewIds) (run baseline : Z) (st : FindingTables)
    : finding_result (BOLAAnalysisResult * option Finding * FindingTables) :=
  to_http (analyze_test_run sha256 json_loads db ids run baseline st).

(** [order_by(Model.id.desc())] *)
Definition newest_first {A} (key : A -> Z) (l : list A) : list A := reverse (order_by key l).

Definition list_findings (db : RunTables) (st : FindingTables) (target : Z) : finding_result (list Finding) :=
  _ ← require (targets (planning db) !! target) (HTTPException 404 "Target not found.");
  Ok (newest_first finding_id (List.filter (fun f => finding_target_id f =? target) (rows (findings st)))).

(** [allowed_transitions.get(status, set())] *)
Definition allowed_next (status : string) : list string :=
  if bool_decide (status = "potential") then ["reviewing"; "confirmed"; "false_positive"]
  else if bool_decide (status = "reviewing") then ["confirmed"; "false_positive"]
  else [].

Record FindingReviewRequest := mkReview { review_status : string; request_notes : option string }.

(** A review reads the row, with no lock, then decides. *)
Definition review_read (st : FindingTables) (finding : Z) (payload : FindingReviewRequest)
    : finding_result Finding :=
  f ← require (findings st !! finding) (HTTPException 404 "Finding not found.");
  _ ← guard_or (bool_decide (review_status payload ∈ allowed_next (finding_status f)))
        (HTTPException 409 ("Cannot change finding from " +:+ repr (finding_status f) +:+ " to "
                            +:+ repr (review_status payload) +:+ "."));
  Ok f.

(** The update sets the columns whose value differs from the one that was read. *)
Definition review_columns (loaded : Finding) (payload : FindingReviewRequest) (f : Finding) : Finding :=
  mkFinding (finding_id f) (finding_target_id f) (finding_endpoint_id f) (finding_test_run_id f)
    (finding_baseline_test_run_id f) (category f) (finding_severity f) (finding_confidence f)
    (if bool_decide (finding_status loaded = review_status payload) then finding_status f else review_status payload)
    (title f) (description f)
    (if bool_decide (review_notes loaded = request_notes payload) then review_notes f else request_notes payload).

Definition review_write (loaded : Finding) (payload : FindingReviewRequest) (st : FindingTables) : FindingTables :=
  with_findings (alter (review_columns loaded payload) (finding_id loaded) (findings st)) st.

Definition review_finding (st : FindingTables) (finding : Z) (payload : FindingReviewRequest)
    : finding_result (Finding * FindingTables) :=
  loaded ← review_read st finding payload;
  Ok (review_columns loaded payload loaded, review_write loaded payload st).

Definition read_finding_evidence (st : FindingTables) (finding : Z) : finding_result (Row StructuredValues) :=
  _ ← require (findings st !! finding) (HTTPException 404 "Finding not found.");
  require (row_of (evidence_records st) finding) (HTTPException 404 "finding_structured_evidence_not_found").

Definition read_finding_evidence_excerpt (st : FindingTables) (finding : Z) : finding_result (Row ExcerptValues) :=
  evidence ← read_finding_evidence st finding;
  require (row_of (excerpts st) (row_id evidence)) (HTTPException 404 "finding_evidence_excerpt_not_found").

Definition read_finding_evidence_fingerprint (st : FindingTables) (finding : Z)
    : finding_result (Row FingerprintValues) :=
  evidence ← read_finding_evidence st finding;
  require (row_of (fingerprints st) (row_id evidence)) (HTTPException 404 "finding_evidence_fingerprint_not_found").

Definition read_finding_evidence_similarity (st : FindingTables) (finding : Z)
    : finding_result (Row SimilarityValues) :=
  fingerprint ← read_finding_evidence_fingerprint st finding;
  require (row_of (similarities st) (row_id fingerprint)) (HTTPException 404 "finding_evidence_similarity_not_found").

Definition read_finding_evidence_retention (st : FindingTables) (finding : Z)
    : finding_result (Row FindingEvidenceRetentionPolicy) :=
  evidence ← read_finding_evidence st finding;
  require (row_of (retentions st) (row_id evidence)) (HTTPException 404 "finding_evidence_retention_binding_not_found").

(** * What advice and reports read *)

(** [reject_baseline] *)
Definition reject_baseline (db : RunTables) (f : Finding) : finding_result unit :=
  match finding_baseline_test_run_id f with
  | None => Ok tt
  | Some b =>
      match test_runs db !! b with
      | None => Ok tt
      | Some run => reject_case (planning db) (test_cases (planning db) !! run_test_case_id run)
      end
  end.

(** The rows behind a finding, read in the same way by both services. *)
Definition finding_rows (db : RunTables) (f : Finding) : finding_result (TestRun * TestCase * Endpoint * Resource) :=
  run ← require (test_runs db !! finding_test_run_id f) (NotFoundError "TestRun not found.");
  case ← require (test_cases (planning db) !! run_test_case_id run) (NotFoundError "TestCase not found.");
  _ ← reject_case (planning db) (Some case);
  _ ← reject_baseline db f;
  endpoint ← require (endpoints (planning db) !! test_case_endpoint_id case) (NotFoundError "Endpoint not found.");
  resource ← require (resources (planning db) !! test_case_resource_id case) (NotFoundError "Resource not found.");
  Ok (run, case, endpoint, resource).

(** [sanitize_request_data]: of an object, an object. *)
Definition sanitize_request_data (data : list (string * json)) : list (string * json) :=
  (fun kv => (kv.1, if is_sensitive_key kv.1 then JStr REDACTED else redact_json_value kv.2)) <$> data.

Definition request_of (db : RunTables) (run : TestRun) : list (string * json) :=
  default [] (request_data db !! test_run_id run).
Definition expected_of (db : RunTables) (case : TestCase) : list Z :=
  default [] (expected_statuses db !! test_case_id case).

(** * Advice *)

Record SanitizedFindingEvidence := mkSanitized {
  sanitized_finding_id : Z;
  sanitized_category : string;
  rule_confidence : float;
  rule_severity : string;
  sanitized_method : string;
  sanitized_path : string;
  sanitized_actor_identity_id : Z;
  sanitized_resource_type : string;
  sanitized_external_id : string;
  sanitized_owner_identity_id : Z;
  sanitized_expected_statuses : list Z;
  actual_status : option Z;
  sanitized_request : list (string * json);
  sanitized_response_body : option string;
  rule_description : string
}.

Record AIAnalysisResult := mkAdvice {
  advice_category : string;
  advice_confidence : float;
  advice_severity : string;
  advice_risk : string;
  advice_reason : string;
  advice_review : string;
  advice_fix : string
}.

Record AIProvider := mkProvider {
  provider_name : string;
  provider_model : string;
  provider_analyze : SanitizedFindingEvidence -> finding_result AIAnalysisResult
}.

(** [MockAIProvider.analyze] *)
Definition mock_analyze (e : SanitizedFindingEvidence) : finding_result AIAnalysisResult :=
  if match actual_status e with Some s => is_success_status s | None => false end
     && fleb (float_of_decimal false 9 (-1)) (rule_confidence e) then
    Ok (mkAdvice "BOLA" (float_of_decimal false 92 (-2)) "high" "low"
          "The rule engine observed a successful cross-owner response with strong resource evidence."
          "Verify that the actor is not intentionally authorized to access the target resource."
          "Enforce object ownership or equivalent authorization checks in the data-access query before returning the resource.")
  else
    Ok (mkAdvice "BOLA" (float_of_decimal false 60 (-2)) "medium" "medium"
          "The available evidence requires additional business-context review."
          "Review the resource sharing and authorization model manually."
          "Ensure object-level authorization is validated for every resource access.").
Definition MockAIProvider : AIProvider := mkProvider "mock" "mock-bola-analyzer-v1" mock_analyze.

Section services.
Variable json_loads : string -> result json_error json.

Definition sanitized_body (run : TestRun) : finding_result (option string) :=
  catch (sanitize_response_body json_loads (response_body run)) (fun _ => Raise JSONError).

(** The part of [analyze_finding] before its first commit: the evidence for the provider. *)
Definition advice_evidence (db : RunTables) (st : FindingTables) (finding : Z)
    : finding_result SanitizedFindingEvidence :=
  f ← require (findings st !! finding) (NotFoundError "Finding not found.");
  _ ← guard_or (bool_decide (finding_status f ∈ ["potential"; "reviewing"; "confirmed"]))
        (ServiceError "Finding is not eligible for AI analysis.");
  '(run, case, endpoint, resource) ← finding_rows db f;
  body ← sanitized_body run;
  Ok (mkSanitized (finding_id f) (category f) (finding_confidence f) (finding_severity f)
        (endpoint_method endpoint) (endpoint_path endpoint) (test_case_actor_identity_id case)
        (resource_type resource) (external_id resource) (owner_identity_id resource)
        (expected_of db case) (response_status run) (sanitize_request_data (request_of db run)) body
        (description f)).

Definition advice_row (p : AIProvider) (new_id finding : Z) (a : AIAnalysisResult) : FindingAIAnalysis :=
  mkAIAnalysis new_id finding (provider_name p) (provider_model p) (advice_category a) (advice_confidence a)
    (advice_severity a) (advice_risk a) (advice_reason a) (advice_review a) (advice_fix a).

Definition with_ai_analyses (table : gmap Z FindingAIAnalysis) (st : FindingTables) : FindingTables :=
  mkTables (findings st) (evidence_records st) (excerpts st) (fingerprints st) (similarities st) (retentions st)
    table (reports st).

(** The part after it: [db.add] and the commit. *)
Definition store_advice (row : FindingAIAnalysis) (st : FindingTables) : finding_result FindingTables :=
  table ← insert_row (ai_analyses st) (ai_analysis_id row) row;
  Ok (with_ai_analyses table st).

Definition analyze_finding (p : AIProvider) (db : RunTables) (new_id finding : Z) (st : FindingTables)
    : finding_result (FindingAIAnalysis * FindingTables) :=
  e ← advice_evidence db st finding;
  a ← provider_analyze p e;
  let row := advice_row p new_id (sanitized_finding_id e) a in
  st' ← store_advice row st;
  Ok (row, st').

(** The handlers; the platform's provider is the mock one. *)
Definition analyze_finding_with_ai (db : RunTables) (new_id finding : Z) (st : FindingTables)
    : finding_result (FindingAIAnalysis * FindingTables) :=
  to_http (analyze_finding MockAIProvider db new_id finding st).

Definition analyses_of (st : FindingTables) (finding : Z) : list FindingAIAnalysis :=
  newest_first ai_analysis_id (List.filter (fun a => ai_finding_id a =? finding) (rows (ai_analyses st))).
Definition list_ai_analyses (st : FindingTables) (finding : Z) : list FindingAIAnalysis := analyses_of st finding.
End services.
