(* ===== verification/SecurityReports.v ===== *)
(** The formal reports of confirmed findings: src/backend/app/services/security_report.py,
    reports/markdown.py and api/routes/security_reports.py. *)

From Stdlib Require Import SpecFloat.
From stdpp Require Import gmap.
From S2P Require Import Prelude.
From S2P Require Import PyStr.
From S2P Require Import PyFloat.
From S2P Require Import PyJson.
From S2P Require Import Models.
From S2P Require Import Analyzer.
From S2P Require Import Tables.
From S2P Require Import Findings.
From S2P Require Import Reports.

Open Scope Z_scope.

(** * Texts of values *)

Definition py_float (f : float) : string :=
  match f with
  | S754_nan => "nan"
  | S754_infinity s => if s then "-inf" else "inf"
  | f => float_repr f
  end.

(** [repr(value)] of a JSON value as Python has it, and [str(value)]. *)
Fixpoint py_repr (j : json) : string :=
  match j with
  | JNull => "None"
  | JBool b => if b then "True" else "False"
  | JInt n => str_of_Z n
  | JFloat f => py_float f
  | JStr s => repr s
  | JArr l => "[" +:+ join ", " (py_repr <$> l) +:+ "]"
  | JObj o => "{" +:+ join ", " ((fun kv => repr kv.1 +:+ ": " +:+ py_repr kv.2) <$> o) +:+ "}"
  end.
Definition py_str (j : json) : string := match j with JStr s => s | j => py_repr j end.

Definition newline : string := str1 (chr 10).
Fixpoint indentation (n : nat) : string := match n with O => EmptyString | S n' => String (chr 32) (indentation n') end.
Definition line_break (level : nat) : string := newline +:+ indentation (2 * level).

(** [json.dumps(value, indent=2, ensure_ascii=False)] at an indentation. *)
Fixpoint pretty (level : nat) (j : json) : string :=
  match j with
  | JNull => "null"
  | JBool b => str_bool b
  | JInt n => str_of_Z n
  | JFloat f => default EmptyString (json_float true f)
  | JStr s => json_string s
  | JArr [] => "[]"
  | JArr l => "[" +:+ line_break (S level) +:+ join ("," +:+ line_break (S level)) (pretty (S level) <$> l)
              +:+ line_break level +:+ "]"
  | JObj [] => "{}"
  | JObj o => "{" +:+ line_break (S level)
              +:+ join ("," +:+ line_break (S level))
                    ((fun kv => json_string kv.1 +:+ ": " +:+ pretty (S level) kv.2) <$> o)
              +:+ line_break level +:+ "}"
  end.

(** * The report *)

(** The dict that a report stores. *)
Record ReportData := mkReportData {
  source_ai_analysis_id : option Z;
  report_title : string;
  summary : string;
  affected_endpoint : string;
  prerequisites : string;
  steps_to_reproduce : list string;
  expected_result : string;
  actual_result : string;
  security_impact : string;
  report_evidence : list (string * json);
  suggested_fix : string
}.

Definition json_int_opt (x : option Z) : json := match x with Some n => JInt n | None => JNull end.
Definition json_str_opt (x : option string) : json := match x with Some s => JStr s | None => JNull end.

Definition report_json (d : ReportData) : json :=
  JObj [("source_ai_analysis_id", json_int_opt (source_ai_analysis_id d));
        ("title", JStr (report_title d));
        ("summary", JStr (summary d));
        ("affected_endpoint", JStr (affected_endpoint d));
        ("prerequisites", JStr (prerequisites d));
        ("steps_to_reproduce", JArr (JStr <$> steps_to_reproduce d));
        ("expected_result", JStr (expected_result d));
        ("actual_result", JStr (actual_result d));
        ("security_impact", JStr (security_impact d));
        ("evidence", JObj (report_evidence d));
        ("suggested_fix", JStr (suggested_fix d))].

Fixpoint numbered (n : Z) (steps : list string) : list string :=
  match steps with [] => [] | s :: rest => (str_of_Z n +:+ ". " +:+ s) :: numbered (n + 1) rest end.

Definition section_text (heading body : string) : list string := ["## " +:+ heading; ""; body; ""].

Definition render_security_report_markdown (version : Z) (d : ReportData) : string :=
  join newline
    (["# " +:+ report_title d; ""; "**Report Version:** " +:+ str_of_Z version; ""]
     ++ section_text "Summary" (summary d)
     ++ section_text "Affected Endpoint" ("`" +:+ affected_endpoint d +:+ "`")
     ++ section_text "Prerequisites" (prerequisites d)
     ++ section_text "Steps To Reproduce" (join newline (numbered 1 (steps_to_reproduce d)))
     ++ section_text "Expected Result" (expected_result d)
     ++ section_text "Actual Result" (actual_result d)
     ++ section_text "Security Impact" (security_impact d)
     ++ ["## Evidence"; ""; "```json"; pretty 0 (JObj (report_evidence d)); "```"; ""]
     ++ section_text "Suggested Fix" (suggested_fix d)).

Definition report_steps (case : TestCase) (endpoint : Endpoint) (resource : Resource) (request_url : string)
    : list string :=
  ["Use the authenticated test identity with ID " +:+ str_of_Z (test_case_actor_identity_id case) +:+ ".";
   "Send " +:+ endpoint_method endpoint +:+ " to " +:+ request_url
     +:+ ". Authentication credentials are intentionally omitted from this report.";
   "Request the target " +:+ resource_type resource +:+ " with external ID " +:+ repr (external_id resource)
     +:+ ", which is owned by test identity " +:+ str_of_Z (owner_identity_id resource) +:+ ".";
   "Observe the HTTP response and compare it with the expected object-level authorization behavior."].

Definition default_fix : string :=
  "Enforce object-level authorization on every resource access. Query or authorize the resource using both the resource identifier and the currently authenticated principal, rather than trusting the supplied object identifier alone.".

Definition advice_members (a : FindingAIAnalysis) : json :=
  JObj [("analysis_id", JInt (ai_analysis_id a)); ("provider", JStr (provider a));
        ("model_name", JStr (model_name a)); ("confidence", JFloat (ai_confidence a));
        ("severity", JStr (ai_severity a)); ("false_positive_risk", JStr (false_positive_risk a))].

Definition evidence_members (f : Finding) (run : TestRun) (case : TestCase) (resource : Resource)
    (request : list (string * json)) (body : option string) (advice : option FindingAIAnalysis)
    : list (string * json) :=
  [("test_run_id", JInt (test_run_id run)); ("test_case_id", JInt (test_case_id case));
   ("resource_id", JInt (resource_id resource)); ("resource_type", JStr (resource_type resource));
   ("resource_external_id", JStr (external_id resource));
   ("owner_identity_id", JInt (owner_identity_id resource));
   ("actor_identity_id", JInt (test_case_actor_identity_id case));
   ("request", JObj request); ("response_status", json_int_opt (response_status run));
   ("response_body", json_str_opt body); ("rule_confidence", JFloat (finding_confidence f));
   ("rule_severity", JStr (finding_severity f)); ("human_review_notes", json_str_opt (review_notes f))]
  ++ match advice with Some a => [("ai_analysis", advice_members a)] | None => [] end.

Definition build_report (f : Finding) (run : TestRun) (case : TestCase) (endpoint : Endpoint) (resource : Resource)
    (expected : list Z) (request : list (string * json)) (body : option string)
    (advice : option FindingAIAnalysis) : ReportData :=
  let affected := endpoint_method endpoint +:+ " " +:+ endpoint_path endpoint in
  let request_url := match assoc "url" request with Some v => py_str v | None => endpoint_path endpoint end in
  let actual := match response_status run with Some s => str_of_Z s | None => "no HTTP response" end in
  mkReportData (ai_analysis_id <$> advice) ("Confirmed BOLA in " +:+ affected)
    "A confirmed Broken Object Level Authorization issue allows one authenticated test identity to access a resource owned by another identity."
    affected
    ("A valid authenticated test identity that does not own the target " +:+ resource_type resource
       +:+ " is required. Testing must remain within the configured authorized scope.")
    (report_steps case endpoint resource request_url)
    ("The application should deny cross-owner object access. Expected status code(s): "
       +:+ join ", " (str_of_Z <$> expected) +:+ ".")
    ("The cross-owner request produced HTTP " +:+ actual
       +:+ ". The confirmed finding indicates that unauthorized object-level access was successfully reproduced.")
    ("An authenticated user may access " +:+ resource_type resource
       +:+ " objects owned by another identity. This violates object-level authorization boundaries and may expose data or operations belonging to other users.")
    (evidence_members f run case resource request body advice)
    (match advice with Some a => fix_recommendation a | None => default_fix end).

Definition reports_of (st : FindingTables) (finding : Z) : list SecurityReport :=
  List.filter (fun r => report_finding_id r =? finding) (rows (reports st)).

(** [(select max(version) ... or 0) + 1] *)
Definition next_version (st : FindingTables) (finding : Z) : Z :=
  foldr Z.max 0 (version <$> reports_of st finding) + 1.

Definition with_reports (table : gmap Z SecurityReport) (st : FindingTables) : FindingTables :=
  mkTables (findings st) (evidence_records st) (excerpts st) (fingerprints st) (similarities st) (retentions st)
    (ai_analyses st) table.

Section service.
Variable json_loads : string -> result json_error json.

(** [SecurityReportService.generate], under the lock on the row of the finding. *)
Definition generate (db : RunTables) (new_id finding : Z) (st : FindingTables)
    : finding_result (SecurityReport * FindingTables) :=
  f ← require (findings st !! finding) (NotFoundError "Finding not found.");
  _ ← guard_or (bool_decide (finding_status f = "confirmed"))
        (ServiceError "Only confirmed findings can generate formal security reports.");
  '(run, case, endpoint, resource) ← finding_rows db f;
  _ ← guard_or (finding_endpoint_id f =? endpoint_id endpoint)
        (ServiceError "Finding evidence is inconsistent with its endpoint.");
  _ ← guard_or (finding_target_id f =? endpoint_target_id endpoint)
        (ServiceError "Finding target is inconsistent with its endpoint.");
  let advice := head (analyses_of st (finding_id f)) in
  let number := next_version st (finding_id f) in
  let request := sanitize_request_data (request_of db run) in
  body ← sanitized_body json_loads run;
  let d := build_report f run case endpoint resource (expected_of db case) request body advice in
  let report := mkReport new_id (finding_id f) (finding_target_id f) number "markdown" (report_json d)
                  (render_security_report_markdown number d) in
  _ ← guard_or (forallb (fun r => negb (version r =? number)) (reports_of st (finding_id f))) IntegrityError;
  table ← insert_row (reports st) new_id report;
  Ok (report, with_reports table st).

Definition generate_security_report (db : RunTables) (new_id finding : Z) (st : FindingTables)
    : finding_result (SecurityReport * FindingTables) :=
  to_http (generate db new_id finding st).
End service.

Definition list_security_reports (st : FindingTables) (finding : Z) : list SecurityReport :=
  newest_first version (reports_of st finding).

Definition get_security_report (st : FindingTables) (report : Z) : finding_result SecurityReport :=
  require (reports st !! report) (HTTPException 404 "Security report not found.").

(** The id, the version and the text. *)
Definition get_security_report_markdown (st : FindingTables) (report : Z) : finding_result (Z * Z * string) :=
  r ← get_security_report st report;
  Ok (report_id r, version r, markdown_content r).
