(* ===== verification/FindingHistories.v ===== *)
(** The histories of the findings: transactions that interleave, well-formed tables, and that
    every step keeps them so. *)

From stdpp Require Import gmap.
From S2P Require Import Prelude.
From S2P Require Import PyStr.
From S2P Require Import PyFloat.
From S2P Require Import PyJson.
From S2P Require Import Models.
From S2P Require Import Samples.
From S2P Require Import Generator.
From S2P Require Import Analyzer.
From S2P Require Import Database.
From S2P Require Import Tables.
From S2P Require Import Findings.
From S2P Require Import Reports.
From S2P Require Import SecurityReports.

Open Scope Z_scope.

(** * Histories

    A transaction that reads, decides and writes is two steps, between which anything else
    may happen; a report is generated under the lock of its finding, in one step. A request
    that raises changes nothing. *)

Inductive in_flight : Type :=
| InAnalysis (p : PreparedFinding)
| InReview (loaded : Finding) (payload : FindingReviewRequest)
| InAdvice (finding : Z).

Section histories.
Variable sha256 : string -> string.
Variable json_loads : string -> result json_error json.

Inductive step : FindingTables * list in_flight -> FindingTables * list in_flight -> Prop :=
| analysis_reads db st l run baseline r p :
    analyze_read sha256 json_loads db st run baseline = Ok (r, Some p) -> step (st, l) (st, InAnalysis p :: l)
| analysis_writes st l1 l2 p ids f st' :
    store_finding p ids st = Ok (f, st') -> step (st, l1 ++ InAnalysis p :: l2) (st', l1 ++ l2)
| review_reads st l finding payload loaded :
    review_read st finding payload = Ok loaded -> step (st, l) (st, InReview loaded payload :: l)
| review_writes st l1 l2 loaded payload :
    step (st, l1 ++ InReview loaded payload :: l2) (review_write loaded payload st, l1 ++ l2)
| advice_reads db st l finding e :
    advice_evidence json_loads db st finding = Ok e -> step (st, l) (st, InAdvice (sanitized_finding_id e) :: l)
| advice_writes st l1 l2 finding p new_id a st' :
    store_advice (advice_row p new_id finding a) st = Ok st' -> step (st, l1 ++ InAdvice finding :: l2) (st', l1 ++ l2)
| report_writes db st l new_id finding r st' :
    generate json_loads db new_id finding st = Ok (r, st') -> step (st, l) (st', l).

Definition history : FindingTables * list in_flight -> FindingTables * list in_flight -> Prop := rtc step.
Definition reachable (st : FindingTables) : Prop := exists l, history (no_findings, []) (st, l).

(** Requests one after the other: each runs to its end before the next one reads. *)
Inductive serial_step : FindingTables -> FindingTables -> Prop :=
| serial_analysis db ids run baseline st a st' :
    analyze_test_run_handler sha256 json_loads db ids run baseline st = Ok (a, st') -> serial_step st st'
| serial_review finding payload st f st' :
    review_finding st finding payload = Ok (f, st') -> serial_step st st'
| serial_advice db new_id finding st a st' :
    analyze_finding_with_ai json_loads db new_id finding st = Ok (a, st') -> serial_step st st'
| serial_report db new_id finding st r st' :
    generate_security_report json_loads db new_id finding st = Ok (r, st') -> serial_step st st'.
End histories.

(** * Well-formed tables *)

(** The rows carry their ids, and a parent has at most one row. *)
Definition table_wf {A} (ck : A -> bool) (t : gmap Z (Row A)) : Prop :=
  (forall k r, t !! k = Some r -> row_id r = k /\ ck (values r) = true)
  /\ forall k1 k2 r1 r2, t !! k1 = Some r1 -> t !! k2 = Some r2 -> parent_id r1 = parent_id r2 -> k1 = k2.

Record evidence_wf (st : FindingTables) : Prop := mkEvidenceWf {
  wf_records : table_wf ck_structured (evidence_records st);
  wf_excerpts : table_wf ck_excerpt (excerpts st);
  wf_fingerprints : table_wf ck_fingerprint (fingerprints st);
  wf_similarities : table_wf ck_similarity (similarities st);
  wf_retentions : table_wf ck_retention (retentions st)
}.

(** An excerpt is a key and a fixed marker: no value of the response. *)
Definition minimal_excerpt (s : string) : Prop := exists key, s = redacted_identifier_excerpt key.

(** The rows below a finding say what the analysis found: its two runs and their answers,
    the excerpts, the fingerprints, the comparison of these, and the policy. *)
Record evidenced (st : FindingTables) (f : Finding) (record : Row StructuredValues) (excerpt : Row ExcerptValues)
    (fingerprint : Row FingerprintValues) (similarity : Row SimilarityValues)
    (retention : Row FindingEvidenceRetentionPolicy) : Prop := mkEvidenced {
  ev_record : row_of (evidence_records st) (finding_id f) = Some record;
  ev_excerpt : row_of (excerpts st) (row_id record) = Some excerpt;
  ev_fingerprint : row_of (fingerprints st) (row_id record) = Some fingerprint;
  ev_similarity : row_of (similarities st) (row_id fingerprint) = Some similarity;
  ev_retention : row_of (retentions st) (row_id record) = Some retention;
  ev_runs : probe_test_run_id (structured_evidence (values record)) = finding_test_run_id f
    /\ Some (Analyzer.baseline_test_run_id (structured_evidence (values record))) = finding_baseline_test_run_id f
    /\ finding_baseline_test_run_id f <> Some (finding_test_run_id f);
  ev_answers : 200 <= baseline_status_code (structured_evidence (values record)) < 300
    /\ 200 <= probe_status_code (structured_evidence (values record)) < 300
    /\ baseline_resource_identifier_present (structured_evidence (values record)) = true
    /\ probe_resource_identifier_present (structured_evidence (values record)) = true;
  ev_minimal : minimal_excerpt (baseline_excerpt (excerpts_of (values excerpt)))
    /\ minimal_excerpt (probe_excerpt (excerpts_of (values excerpt)));
  ev_compared : similarity_of (values similarity) = compare_response_fingerprints (fingerprint_of (values fingerprint));
  ev_policy : values retention = V1_FINDING_EVIDENCE_RETENTION_POLICY
}.

(** The rows below a finding have exactly the prepared values. *)
Record stored (p : PreparedFinding) (finding : Z) (st : FindingTables) (record : Row StructuredValues)
    (excerpt : Row ExcerptValues) (fingerprint : Row FingerprintValues) (similarity : Row SimilarityValues)
    (retention : Row FindingEvidenceRetentionPolicy) : Prop := mkStored {
  st_record : row_of (evidence_records st) finding = Some record /\ values record = structured_values (prepared_evidence p);
  st_excerpt : row_of (excerpts st) (row_id record) = Some excerpt /\ values excerpt = excerpt_values (prepared_excerpt p);
  st_fingerprint : row_of (fingerprints st) (row_id record) = Some fingerprint
    /\ values fingerprint = fingerprint_values (prepared_fingerprint p);
  st_similarity : row_of (similarities st) (row_id fingerprint) = Some similarity
    /\ values similarity = similarity_values (prepared_similarity p);
  st_retention : row_of (retentions st) (row_id record) = Some retention
    /\ values retention = V1_FINDING_EVIDENCE_RETENTION_POLICY
}.

Definition statuses : list string := ["potential"; "reviewing"; "confirmed"; "false_positive"].

Record findings_wf (st : FindingTables) : Prop := mkFindingsWf {
  wf_ids : forall k f, findings st !! k = Some f ->
    finding_id f = k /\ category f = "BOLA" /\ finding_status f ∈ statuses;
  wf_runs : forall k1 k2 f1 f2, findings st !! k1 = Some f1 -> findings st !! k2 = Some f2 ->
    finding_test_run_id f1 = finding_test_run_id f2 -> k1 = k2;
  wf_evidenced : forall k f, findings st !! k = Some f -> exists r x p s t, evidenced st f r x p s t
}.

(** The reports of a finding are numbered from 1 without gaps. *)
Definition numbered_from_one (l : list SecurityReport) : Prop :=
  exists n, 0 <= n /\ version <$> l ≡ₚ seqZ 1 n.

Record reports_wf (st : FindingTables) : Prop := mkReportsWf {
  wf_report_ids : forall k r, reports st !! k = Some r -> report_id r = k;
  wf_versions : forall finding, numbered_from_one (reports_of st finding);
  wf_reported : forall k r, reports st !! k = Some r ->
    exists f, findings st !! report_finding_id r = Some f /\ finding_status f <> "potential"
}.

Record wf (st : FindingTables) : Prop := mkWf {
  wf_evidence :> evidence_wf st;
  wf_findings :> findings_wf st;
  wf_reports :> reports_wf st
}.

(** What is prepared agrees with itself. *)
Record prepared_ok (p : PreparedFinding) : Prop := mkPreparedOk {
  ok_runs : probe_test_run_id (prepared_evidence p) = prepared_run p
    /\ Analyzer.baseline_test_run_id (prepared_evidence p) = prepared_baseline p
    /\ prepared_baseline p <> prepared_run p;
  ok_answers : 200 <= baseline_status_code (prepared_evidence p) < 300
    /\ 200 <= probe_status_code (prepared_evidence p) < 300
    /\ baseline_resource_identifier_present (prepared_evidence p) = true
    /\ probe_resource_identifier_present (prepared_evidence p) = true;
  ok_minimal : minimal_excerpt (baseline_excerpt (prepared_excerpt p))
    /\ minimal_excerpt (probe_excerpt (prepared_excerpt p));
  ok_compared : prepared_similarity p = compare_response_fingerprints (prepared_fingerprint p)
}.

(** A review in flight read a status that it may change. *)
Definition in_flight_ok (i : in_flight) : Prop :=
  match i with
  | InAnalysis p => prepared_ok p
  | InReview loaded payload => review_status payload ∈ allowed_next (finding_status loaded)
  | InAdvice _ => True
  end.

(** The evidence of one history is in the other, row for row. *)
Record evidence_grows (st st' : FindingTables) : Prop := mkGrows {
  grow_records : evidence_records st ⊆ evidence_records st';
  grow_excerpts : excerpts st ⊆ excerpts st';
  grow_fingerprints : fingerprints st ⊆ fingerprints st';
  grow_similarities : similarities st ⊆ similarities st';
  grow_retentions : retentions st ⊆ retentions st'
}.

(** What no transaction changes of a finding. *)
Definition same_origin (f f' : Finding) : Prop :=
  finding_id f = finding_id f' /\ finding_target_id f = finding_target_id f'
  /\ finding_endpoint_id f = finding_endpoint_id f' /\ finding_test_run_id f = finding_test_run_id f'
  /\ finding_baseline_test_run_id f = finding_baseline_test_run_id f' /\ category f = category f'.

(** * Rows below a row *)

Section rows_below.
Context {A : Type} `{EqDecision A} (ck : A -> bool).

Lemma row_of_some (t : gmap Z (Row A)) p r : table_wf ck t -> row_of t p = Some r <-> t !! row_id r = Some r /\ parent_id r = p.
Proof.
  intros [Hid Hu]. unfold row_of. split.
  - intros [Hp [k Hk]]%find_rows_some. bool_simpl. destruct (Hid k r Hk) as [<- _]. done.
  - intros [Hr <-]. destruct (find_first _ (rows t)) as [r'|] eqn:E.
    + apply find_rows_some in E as [Hp [k Hk]]. bool_simpl. f_equal.
      assert (k = row_id r) by (by eapply Hu). congruence.
    + apply (find_rows_none _ _ E) in Hr. by apply Z.eqb_neq in Hr.
Qed.

Lemma row_of_checked (t : gmap Z (Row A)) p r : table_wf ck t -> row_of t p = Some r -> ck (values r) = true.
Proof. intros Hw [Hr _]%(row_of_some _ _ _ Hw). by apply (proj1 Hw) in Hr as [_ ?]. Qed.

Lemma row_of_none (t : gmap Z (Row A)) p k r : row_of t p = None -> t !! k = Some r -> parent_id r <> p.
Proof. intros H Hk. apply (find_rows_none _ _ H) in Hk. by apply Z.eqb_neq in Hk. Qed.

Lemma row_of_grows (t t' : gmap Z (Row A)) p r : table_wf ck t -> table_wf ck t' -> t ⊆ t' -> row_of t p = Some r -> row_of t' p = Some r.
Proof.
  intros Hw Hw' Ht. rewrite !row_of_some by done. intros [Hr Hp]. split; [|done]. by eapply lookup_weaken.
Qed.

(** A row is written once; what is there is read back and must be equal. *)
Lemma persist_ok refusal conflict (t : gmap Z (Row A)) new_id p v r t' : table_wf ck t ->
  persist ck refusal conflict t new_id p v = Ok (r, t') ->
  table_wf ck t' /\ t ⊆ t' /\ row_of t' p = Some r /\ values r = v
  /\ (row_of t p = Some r -> t' = t).
Proof.
  intros [Hid Hu]. unfold persist, insert_unless. intros (tab & Hi & H)%bind_ok.
  apply guard_bind_ok in Hi as [Hck Hi]. apply require_bind_ok in H as (s & Hs & H).
  apply guard_bind_ok in H as [Hv [= <- <-]]. bool_simpl.
  destruct (row_of t p) as [r0|] eqn:Er; [injection Hi as <-; repeat split; done || by eapply Hid || by apply Hu|].
  unfold insert_row in Hi. case_if_in Hi; [|done]. injection Hi as <-.
  destruct (t !! new_id) eqn:Ef; [done|].
  assert (Hw : table_wf ck (<[new_id := mkRow new_id p v]> t)).
  { split.
    - intros k x [[<- <-] | [_ Hk]]%lookup_insert_Some; [done | by apply Hid].
    - intros k1 k2 r1 r2 [[<- <-] | [_ H1]]%lookup_insert_Some [[<- <-] | [_ H2]]%lookup_insert_Some; cbn; intros Hp.
      + done.
      + by destruct (row_of_none _ _ _ _ Er H2).
      + by destruct (row_of_none _ _ _ _ Er H1).
      + by eapply Hu. }
  split; [done|]. split; [by apply insert_subseteq|]. done.
Qed.

(** With a new key and no other value in the way the row is accepted. *)
Lemma persist_accepts refusal conflict (t : gmap Z (Row A)) new_id p v : table_wf ck t -> ck v = true ->
  t !! new_id = None -> (forall r, row_of t p = Some r -> values r = v) ->
  exists r t', persist ck refusal conflict t new_id p v = Ok (r, t').
Proof.
  intros Hw Hck Hn Hv. unfold persist, insert_unless. rewrite Hck. cbn [guard_or mbind result_bind].
  destruct (row_of t p) as [r|] eqn:E.
  - cbn [mbind result_bind]. rewrite E. cbn. rewrite bool_decide_eq_true_2 by auto. cbn. eauto.
  - unfold insert_row. rewrite Hn. cbn [is_none mbind result_bind].
    assert (Hr : row_of (<[new_id := mkRow new_id p v]> t) p = Some (mkRow new_id p v)).
    { destruct (row_of (<[new_id := mkRow new_id p v]> t) p) as [r|] eqn:Er.
      - apply find_rows_some in Er as [Hp [k [[<- <-] | [_ Hk]]%lookup_insert_Some]]; [done|].
        apply Z.eqb_eq in Hp. by destruct (row_of_none _ _ _ _ E Hk).
      - by destruct (row_of_none _ _ new_id _ Er (lookup_insert_eq _ _ _)). }
    rewrite Hr. cbn. rewrite bool_decide_eq_true_2 by done. cbn. eauto.
Qed.

(** A value that is stored is accepted again, whatever the key would be. *)
Lemma persist_again refusal conflict (t : gmap Z (Row A)) new_id p r : table_wf ck t -> row_of t p = Some r ->
  persist ck refusal conflict t new_id p (values r) = Ok (r, t).
Proof.
  intros Hw Hr. unfold persist, insert_unless. destruct (proj1 (row_of_some t p r Hw) Hr) as [Hk _].
  destruct Hw as [Hid _]. rewrite (proj2 (Hid _ _ Hk)), Hr. cbn [guard_or mbind result_bind]. rewrite Hr. cbn.
  by rewrite bool_decide_eq_true_2.
Qed.
End rows_below.

(** * Evidence below a finding *)

#[export] Instance grows_preorder : PreOrder evidence_grows.
Proof.
  split; [by intros st; split|]. intros a b c [] []. split; by etrans.
Qed.

Lemma store_evidence_ok p ids finding st st' : evidence_wf st -> store_evidence p ids finding st = Ok st' ->
  evidence_wf st' /\ evidence_grows st st' /\ findings st' = findings st /\ ai_analyses st' = ai_analyses st
  /\ reports st' = reports st /\ exists r x g s t, stored p finding st' r x g s t.
Proof.
  intros [Hr Hx Hf Hs Ht]. unfold store_evidence.
  intros ([r records] & E1 & ([x excerpts'] & E2 & ([f prints] & E3 & ([s sims] & E4 & ([t rets] & E5 & H)%bind_ok)%bind_ok)%bind_ok)%bind_ok)%bind_ok.
  injection H as <-.
  apply (persist_ok _ _ _ _ _ _ _ _ _ Hr) in E1 as (W1 & G1 & R1 & V1 & _).
  apply (persist_ok _ _ _ _ _ _ _ _ _ Hx) in E2 as (W2 & G2 & R2 & V2 & _).
  apply (persist_ok _ _ _ _ _ _ _ _ _ Hf) in E3 as (W3 & G3 & R3 & V3 & _).
  apply (persist_ok _ _ _ _ _ _ _ _ _ Hs) in E4 as (W4 & G4 & R4 & V4 & _).
  apply (persist_ok _ _ _ _ _ _ _ _ _ Ht) in E5 as (W5 & G5 & R5 & V5 & _).
  split; [done|]. split; [done|]. do 3 (split; [done|]). exists r, x, f, s, t. done.
Qed.

Lemma stored_again p ids finding st r x g s t : evidence_wf st -> stored p finding st r x g s t ->
  store_evidence p ids finding st = Ok st.
Proof.
  intros [] [[R1 V1] [R2 V2] [R3 V3] [R4 V4] [R5 V5]]. unfold store_evidence.
  unfold persist_structured_evidence, persist_excerpt, persist_fingerprint, persist_similarity, persist_retention_binding.
  rewrite <- V1, (persist_again ck_structured _ _ _ _ _ r) by done. cbn [mbind result_bind].
  rewrite <- V2, (persist_again ck_excerpt _ _ _ _ _ x) by done. cbn [mbind result_bind].
  rewrite <- V3, (persist_again ck_fingerprint _ _ _ _ _ g) by done. cbn [mbind result_bind].
  rewrite <- V4, (persist_again ck_similarity _ _ _ _ _ s) by done. cbn [mbind result_bind].
  rewrite <- V5, (persist_again ck_retention _ _ _ _ _ t) by done. cbn [mbind result_bind]. by destruct st.
Qed.

Lemma stored_evidenced p st f r x g s t : prepared_ok p -> stored p (finding_id f) st r x g s t ->
  finding_test_run_id f = prepared_run p -> finding_baseline_test_run_id f = Some (prepared_baseline p) ->
  evidenced st f r x g s t.
Proof.
  intros [Hr Ha Hm Hc] [[R1 V1] [R2 V2] [R3 V3] [R4 V4] [R5 V5]] H1 H2.
  split; try done.
  - rewrite V1. cbn. destruct Hr as (-> & -> & Hne). split; [done|]. split; [done|]. rewrite H1, H2. congruence.
  - by rewrite V1.
  - by rewrite V2.
  - by rewrite V3, V4.
Qed.

(** Evidence stays below its finding whatever is added. *)
Lemma evidenced_grows st st' f f' r x g s t : evidence_wf st -> evidence_wf st' -> evidence_grows st st' ->
  same_origin f f' -> evidenced st f r x g s t -> evidenced st' f' r x g s t.
Proof.
  intros [] [] [] (Hid & _ & _ & Hrun & Hbase & _) []. split; try done.
  all: try (rewrite <- ?Hid; eapply row_of_grows; [| | |done]; done). by rewrite <- Hrun, <- Hbase.
Qed.

(** * The stored finding *)

Lemma finding_of_run_some st run f : findings_wf st ->
  finding_of_run (findings st) run = Some f <-> findings st !! finding_id f = Some f /\ finding_test_run_id f = run.
Proof.
  intros [Hid Hu _]. unfold finding_of_run. split.
  - intros [Hp [k Hk]]%find_rows_some. bool_simpl. destruct (Hid k f Hk) as (-> & _). done.
  - intros [Hf <-]. destruct (find_first _ (rows (findings st))) as [g|] eqn:E.
    + apply find_rows_some in E as [Hp [k Hk]]. bool_simpl. f_equal.
      assert (k = finding_id f) by (by eapply Hu). congruence.
    + destruct (Hid _ _ Hf) as (_ & Hc & _). apply (find_rows_none _ _ E) in Hf. rewrite Hc in Hf.
      by rewrite Z.eqb_refl in Hf.
Qed.

Lemma insert_finding_ok t f o t' : insert_finding t f = Ok (o, t') ->
  o = None /\ t' = t \/
  o = Some (finding_id f) /\ t' = <[finding_id f := f]> t /\ t !! finding_id f = None
    /\ finding_of_run t (finding_test_run_id f) = None.
Proof.
  unfold insert_finding. intros [_ H]%guard_bind_ok. destruct (finding_of_run t _); [injection H as <- <-; by left|].
  apply bind_ok in H as (t1 & Hi & [= <- <-]). unfold insert_row in Hi. case_if_in Hi; [|done].
  injection Hi as <-. right. destruct (t !! finding_id f); done.
Qed.

(** The finding that a transaction stored: a new one, or the one of the run with its texts
    refreshed; nothing else of the findings changes. *)
Definition stored_as (p : PreparedFinding) (st : FindingTables) (f : Finding) : Prop :=
  findings st !! finding_id f = None /\ finding_of_run (findings st) (prepared_run p) = None
    /\ f = finding_values p (finding_id f)
  \/ exists g, findings st !! finding_id f = Some g /\ f = refresh_finding p g.

Lemma store_finding_ok p ids st f st' : evidence_wf st -> findings_wf st -> store_finding p ids st = Ok (f, st') ->
  findings st' = <[finding_id f := f]> (findings st) /\ stored_as p st f
  /\ finding_test_run_id f = prepared_run p /\ finding_baseline_test_run_id f = Some (prepared_baseline p)
  /\ evidence_wf st' /\ evidence_grows st st' /\ ai_analyses st' = ai_analyses st /\ reports st' = reports st
  /\ exists r x g s t, stored p (finding_id f) st' r x g s t.
Proof.
  intros Hev Hfw. unfold store_finding. intros ([o tab] & Hi & H)%bind_ok.
  apply require_bind_ok in H as (g & Hg & H). apply bind_ok in H as ([] & Hb & H).
  apply bind_ok in H as (st1 & Hs & [= <- <-]). unfold validate_baseline_binding, guard_or in Hb.
  head_if Hb; [|done]. bool_simpl. clear Hb. rename E into Hb.
  apply store_evidence_ok in Hs as (W & G & Hf & Ha & Hr & Hst); [|by destruct Hev].
  assert (Hw : evidence_wf (with_findings (<[finding_id g := if is_none o then refresh_finding p g else g]> (findings st1)) st1)
    /\ evidence_grows st (with_findings (<[finding_id g := if is_none o then refresh_finding p g else g]> (findings st1)) st1)).
  { split; [by destruct W | by destruct G]. }
  assert (Hst' : exists r x f s t, stored p (finding_id g)
    (with_findings (<[finding_id g := if is_none o then refresh_finding p g else g]> (findings st1)) st1) r x f s t).
  { destruct Hst as (r & x & k & s & t & []). by exists r, x, k, s, t. }
  cbn [findings with_findings] in Hf |- *. rewrite Hf in *.
  apply insert_finding_ok in Hi as [[-> ->]|(-> & -> & Hn & Hr0)]; cbn [is_none] in *.
  - apply (finding_of_run_some st) in Hg as [Hg Hrun]; [|done].
    split; [done|]. split; [right; by exists g|]. destruct Hw. by repeat (split; [done|]).
  - cbn [finding_id finding_values] in Hg. rewrite lookup_insert_eq in Hg. injection Hg as <-. 
    split; [by rewrite insert_insert_eq|]. split; [by left|]. destruct Hw. by repeat (split; [done|]).
Qed.

(** * What an analysis prepares *)

Section analysis.
Variable sha256 : string -> string.
Variable json_loads : string -> result json_error json.

Lemma potential_parts case cross owner resource r :
  analyze_bola_run sha256 json_loads case cross (Some owner) resource = Ok r -> outcome_of r = POTENTIAL_BOLA ->
  exists so sc kb kc, 200 <= so < 300 /\ 200 <= sc < 300
  /\ evidence r = Some (mkEvidence (test_run_id cross) (test_run_id owner) so sc true true)
  /\ excerpt_evidence r = Some (mkExcerpt (redacted_identifier_excerpt kb) (redacted_identifier_excerpt kc))
  /\ fingerprint_evidence r = Some (fingerprint_response_pair sha256 (response_body owner) (response_body cross))
  /\ similarity_evidence r =
       Some (compare_response_fingerprints (fingerprint_response_pair sha256 (response_body owner) (response_body cross))).
Proof.
  unfold analyze_bola_run. intros (r0 & Hr & [= <-])%bind_ok. cbn [outcome_of evidence excerpt_evidence
    fingerprint_evidence similarity_evidence]. intros Ho. rewrite Ho, bool_decide_eq_true_2 by done.
  unfold classify_bola_run in Hr. destruct (runs_gate case cross (Some owner)) as [[[o so] sc]|] eqn:Eg;
    [|by injection Hr as <-]. apply runs_gate_ok in Eg as [[= <-] Hc].
  head_if Hr; [by injection Hr as <-|]. head_if Hr; [by injection Hr as <-|]. unfold is_success_status in E0.
  bool_simpl. unfold compare_bodies in Hr. apply bind_ok in Hr as (jo & _ & (jc & _ & Hr)%bind_ok).
  head_if Hr; [by injection Hr as <-|].
  destruct (json_matching_resource_id_key resource jo) as [kb|], (json_matching_resource_id_key resource jc) as [kc|];
    injection Hr as <-; try done. exists so, sc, kb, kc. destruct Hc as (_ & _ & _ & _ & ? & _). done.
Qed.

(** The reads that lead to a finding. *)
Record analyzed (db : RunTables) (st : FindingTables) (run baseline : Z) (r : BOLAAnalysisResult)
    (p : PreparedFinding) (cross owner : TestRun) (case owner_case : TestCase) (resource : Resource) : Prop := mkAnalyzed {
  an_run : test_runs db !! run = Some cross;
  an_case : test_cases (planning db) !! run_test_case_id cross = Some case;
  an_baseline : test_runs db !! baseline = Some owner;
  an_baseline_case : test_cases (planning db) !! run_test_case_id owner = Some owner_case;
  an_endpoint : endpoints (planning db) !! test_case_endpoint_id case = Some (prepared_endpoint p);
  an_resource : resources (planning db) !! test_case_resource_id case = Some resource;
  an_target : endpoint_target_id (prepared_endpoint p) = resource_target_id resource;
  an_open : new_case (planning db) (Some case) = false /\ new_case (planning db) (Some owner_case) = false;
  an_types : test_type case = BOLA_CROSS_OWNER /\ test_type owner_case = OWNER_BASELINE;
  an_pair : test_run_id owner <> test_run_id cross
    /\ test_case_endpoint_id owner_case = test_case_endpoint_id case
    /\ test_case_resource_id owner_case = test_case_resource_id case
    /\ test_case_actor_identity_id owner_case <> test_case_actor_identity_id case;
  an_result : analyze_bola_run sha256 json_loads case cross (Some owner) resource = Ok r;
  an_outcome : outcome_of r = POTENTIAL_BOLA;
  an_ids : prepared_run p = test_run_id cross /\ prepared_baseline p = test_run_id owner;
  an_parts : evidence r = Some (prepared_evidence p) /\ excerpt_evidence r = Some (prepared_excerpt p)
    /\ fingerprint_evidence r = Some (prepared_fingerprint p) /\ similarity_evidence r = Some (prepared_similarity p);
  an_existing : forall f, finding_of_run (findings st) (test_run_id cross) = Some f ->
    finding_baseline_test_run_id f = Some (test_run_id owner);
  an_texts : prepared_severity p = or_text (severity r) "unknown" /\ prepared_confidence p = or_zero (analysis_confidence r)
}.

Lemma pair_valid_ok cross owner case owner_case : pair_valid cross owner case (Some owner_case) = true <->
  test_type owner_case = OWNER_BASELINE /\ test_run_id owner <> test_run_id cross
  /\ test_case_endpoint_id owner_case = test_case_endpoint_id case
  /\ test_case_resource_id owner_case = test_case_resource_id case
  /\ test_case_actor_identity_id owner_case <> test_case_actor_identity_id case.
Proof.
  unfold pair_valid. rewrite !andb_true_iff, !negb_true_iff, !Z.eqb_neq, !Z.eqb_eq, bool_decide_eq_true. tauto.
Qed.

Lemma analyze_read_some db st run baseline r p : analyze_read sha256 json_loads db st run baseline = Ok (r, Some p) ->
  exists cross owner case owner_case resource, analyzed db st run baseline r p cross owner case owner_case resource.
Proof.
  unfold analyze_read. intros (cross & Hc & (case & Hcase & H)%require_bind_ok)%require_bind_ok.
  apply guard_bind_ok in H as [Hopen H]. head_if H; [done|].
  apply require_bind_ok in H as (endpoint & He & (resource & Hr & H)%require_bind_ok).
  apply guard_bind_ok in H as [Ht (owner & Ho & H)%require_bind_ok]. cbv zeta in H.
  apply guard_bind_ok in H as [Hopen' [Hp H]%guard_bind_ok].
  apply bind_ok in H as ([] & Hx & (r' & Ha & H)%bind_ok). apply bind_ok in H as ([] & _ & H).
  head_if H; [done|]. apply require_bind_ok in H as (ev & Hev & [Hids H]%guard_bind_ok).
  apply require_bind_ok in H as (ex & Hex & (fp & Hfp & (sim & Hsim & [= <- <-])%require_bind_ok)%require_bind_ok).
  destruct (test_cases (planning db) !! run_test_case_id owner) as [owner_case|] eqn:Eo; [|done].
  destruct (analyze_bola_run _ _ _ _ _ _) as [r2|] eqn:Ea; [|done]. injection Ha as <-.
  exists cross, owner, case, owner_case, resource.
  apply pair_valid_ok in Hp as [Hty Hp].
  bool_simpl. split; try done. intros f Hf. rewrite Hf in Hx. unfold validate_baseline_binding, guard_or in Hx.
  head_if Hx; [|done]. by bool_simpl.
Qed.

Lemma reject_open db case : new_case db case = false -> reject_case db case = Ok tt.
Proof. unfold reject_case. by intros ->. Qed.

(** What is read decides; of the findings only the one of the run matters. *)
Lemma analyzed_read db st st' run baseline r p cross owner case owner_case resource :
  analyzed db st run baseline r p cross owner case owner_case resource ->
  (forall f, finding_of_run (findings st') (test_run_id cross) = Some f ->
     finding_baseline_test_run_id f = Some (test_run_id owner)
     /\ check_existing_fingerprint st' (finding_id f) (fingerprint_evidence r) = Ok tt) ->
  analyze_read sha256 json_loads db st' run baseline = Ok (r, Some p).
Proof.
  intros [] Hex. unfold analyze_read. rewrite an_run0. cbn [require mbind result_bind].
  rewrite an_case0. cbn [require mbind result_bind]. destruct an_open0 as [O1 O2], an_types0 as [T1 T2].
  rewrite (reject_open _ _ O1). cbn [mbind result_bind].
  rewrite T1, bool_decide_eq_true_2 by done. cbn [negb]. rewrite an_endpoint0. cbn [require mbind result_bind].
  rewrite an_resource0. cbn [require mbind result_bind]. rewrite an_target0, Z.eqb_refl. cbn [guard_or mbind result_bind].
  rewrite an_baseline0. cbn [require mbind result_bind]. cbv zeta. rewrite an_baseline_case0, (reject_open _ _ O2).
  cbn [mbind result_bind]. rewrite (proj2 (pair_valid_ok _ _ _ _)) by done. cbn [guard_or mbind result_bind]. rewrite an_result0.
  destruct an_ids0 as [I1 I2], an_parts0 as (P1 & P2 & P3 & P4), an_texts0 as [X1 X2].
  assert (Hids : (probe_test_run_id (prepared_evidence p) =? test_run_id cross)
    && (Analyzer.baseline_test_run_id (prepared_evidence p) =? test_run_id owner) = true).
  { destruct (potential_parts _ _ _ _ _ an_result0 an_outcome0) as (so & sc & kb & kc & _ & _ & E1 & _).
    rewrite P1 in E1. injection E1 as ->. cbn. by rewrite !Z.eqb_refl. }
  destruct (finding_of_run (findings st') (test_run_id cross)) as [f|].
  - destruct (Hex f eq_refl) as [Hb Hc]. unfold validate_baseline_binding. rewrite bool_decide_eq_true_2 by done.
    cbn [guard_or mbind result_bind catch]. rewrite Hc. cbn [mbind result_bind].
    rewrite an_outcome0, bool_decide_eq_true_2 by done. cbn [negb]. rewrite P1, P2, P3, P4. cbn [require mbind result_bind].
    rewrite Hids. cbn [guard_or mbind result_bind]. rewrite <- X1, <- X2, <- I1, <- I2. by destruct p.
  - cbn [mbind result_bind catch]. rewrite an_outcome0, bool_decide_eq_true_2 by done. cbn [negb]. rewrite P1, P2, P3, P4.
    cbn [require mbind result_bind].
    rewrite Hids. cbn [guard_or mbind result_bind]. rewrite <- X1, <- X2, <- I1, <- I2. by destruct p.
Qed.

Lemma analyzed_prepared db st run baseline r p cross owner case owner_case resource :
  analyzed db st run baseline r p cross owner case owner_case resource -> prepared_ok p.
Proof.
  intros []. destruct (potential_parts _ _ _ _ _ an_result0 an_outcome0) as (so & sc & kb & kc & H1 & H2 & E1 & E2 & E3 & E4).
  destruct an_parts0 as (P1 & P2 & P3 & P4). clear an_texts0. rewrite E1 in P1. rewrite E2 in P2. rewrite E3 in P3. rewrite E4 in P4.
  injection P1 as P1. injection P2 as P2. injection P3 as P3. injection P4 as P4. destruct an_ids0 as [I1 I2].
  destruct an_pair0 as [Hne _]. split.
  - rewrite <- P1, I1, I2. cbn. done.
  - rewrite <- P1. done.
  - rewrite <- P2. cbn. split; by eexists.
  - by rewrite <- P4, <- P3.
Qed.
End analysis.

(** * Every step keeps the tables well-formed *)

Lemma findings_wf_insert st st' f : evidence_wf st -> evidence_wf st' -> evidence_grows st st' -> findings_wf st ->
  findings st' = <[finding_id f := f]> (findings st) -> category f = "BOLA" -> finding_status f ∈ statuses ->
  (forall k g, findings st !! k = Some g -> finding_test_run_id g = finding_test_run_id f -> k = finding_id f) ->
  (exists r x g s t, evidenced st' f r x g s t) -> findings_wf st'.
Proof.
  intros He He' Hg [Hid Hu Hev] Hf Hc Hs Hrun Hrows. split; rewrite Hf.
  - intros k g [[<- <-] | [_ Hk]]%lookup_insert_Some; [done | by apply Hid].
  - intros k1 k2 g1 g2 [[<- <-] | [_ H1]]%lookup_insert_Some [[<- <-] | [_ H2]]%lookup_insert_Some E; [done | | | by eapply Hu].
    + symmetry. by eapply Hrun.
    + by eapply Hrun.
  - intros k g [[<- <-] | [_ Hk]]%lookup_insert_Some; [done|].
    destruct (Hev k g Hk) as (r & x & h & s & t & Hg'). exists r, x, h, s, t. by apply (evidenced_grows st st' g g).
Qed.

Lemma reports_wf_insert st st' f : reports_wf st -> reports st' = reports st ->
  findings st' = <[finding_id f := f]> (findings st) ->
  (forall g, findings st !! finding_id f = Some g -> finding_status g <> "potential" -> finding_status f <> "potential") ->
  reports_wf st'.
Proof.
  intros [Hid Hv Hrep] Hr Hf Hs. split; unfold reports_of; rewrite ?Hr; try done.
  intros k r Hk. destruct (Hrep k r Hk) as (g & Hg & Hp). rewrite Hf.
  destruct (decide (finding_id f = report_finding_id r)) as [E|E].
  - exists f. rewrite E, lookup_insert_eq. split; [done|]. apply (Hs g); [by rewrite E | done].
  - exists g. by rewrite lookup_insert_ne.
Qed.

Lemma store_finding_wf p ids st f st' : wf st -> prepared_ok p -> store_finding p ids st = Ok (f, st') -> wf st'.
Proof.
  intros [He Hf Hr] Hp H. apply store_finding_ok in H as (Hfs & Has & Hrun & Hb & He' & Hg & _ & Hrs & r & x & g & s & t & Hst);
    [|done..]. split; [done | |].
  - assert (Hparts : category f = "BOLA" /\ finding_status f ∈ statuses
      /\ forall k h, findings st !! k = Some h -> finding_test_run_id h = finding_test_run_id f -> k = finding_id f).
    { destruct Hf as [Hid Hu _]. destruct Has as [(_ & Hn & E)|(h & Hh & E)].
      - split; [by rewrite E|]. split; [rewrite E; left|]. intros k h Hk E'. exfalso.
        apply (find_rows_none _ _ Hn) in Hk as Hk'. rewrite E', Hrun, Z.eqb_refl in Hk'.
        destruct (Hid k h Hk) as (_ & Hc & _). by rewrite Hc in Hk'.
      - destruct (Hid _ _ Hh) as (_ & Hc & Hs). split; [by rewrite E|]. split; [by rewrite E|].
        intros k h' Hk E'. eapply Hu; [done | done|]. by rewrite E', E. }
    destruct Hparts as (Hc & Hs & Huniq). apply (findings_wf_insert st st' f); try done.
    exists r, x, g, s, t. by apply (stored_evidenced p).
  - apply (reports_wf_insert st st' f); try done. intros h Hh Hp'. destruct Has as [(Hn & _)|(h' & Hh' & E)]; [congruence|].
    rewrite E. cbn. congruence.
Qed.

Lemma allowed_next_elem s s' : s' ∈ allowed_next s -> s' ∈ ["reviewing"; "confirmed"; "false_positive"] /\ s <> s'.
Proof.
  unfold allowed_next. case_if; [|case_if]; bool_simpl; subst; rewrite ?elem_of_nil; [| |done].
  - intros H. split; [done|]. intros <-. rewrite !elem_of_cons, elem_of_nil in H. naive_solver.
  - intros H. split; [by right|]. intros <-. rewrite !elem_of_cons, elem_of_nil in H. naive_solver.
Qed.

Lemma review_write_wf loaded payload st : wf st -> review_status payload ∈ allowed_next (finding_status loaded) ->
  wf (review_write loaded payload st).
Proof.
  intros [He Hf Hr] [Hin Hne]%allowed_next_elem. unfold review_write.
  destruct (findings st !! finding_id loaded) as [f|] eqn:E.
  - set (st' := with_findings _ st). assert (Hid : finding_id f = finding_id loaded) by (by apply Hf).
    assert (Hfs : findings st' = <[finding_id (review_columns loaded payload f) := review_columns loaded payload f]> (findings st)).
    { cbn. rewrite Hid. apply map_eq. intros k. destruct (decide (k = finding_id loaded)) as [->|Hk].
      - by rewrite lookup_alter_eq, lookup_insert_eq, E.
      - by rewrite lookup_alter_ne, lookup_insert_ne. }
    assert (Hst : finding_status (review_columns loaded payload f) = review_status payload).
    { cbn. by rewrite bool_decide_eq_false_2. }
    assert (He' : evidence_wf st') by (by destruct He). assert (Hg : evidence_grows st st') by (by split).
    destruct (wf_ids _ Hf _ _ E) as (_ & Hc & _). split; [done | |].
    + apply (findings_wf_insert st st' (review_columns loaded payload f)); try done.
      * rewrite Hst. unfold statuses. by right.
      * intros k g Hk Hrun. cbn in *. rewrite Hid. by eapply (wf_runs _ Hf).
      * destruct (wf_evidenced _ Hf _ _ E) as (r & x & h & s & t & Hev). exists r, x, h, s, t.
        by apply (evidenced_grows st st' f).
    + apply (reports_wf_insert st st' (review_columns loaded payload f)); try done. rewrite Hst. intros _ _ _ Hs. rewrite Hs in Hin.
      rewrite !elem_of_cons, elem_of_nil in Hin. naive_solver.
  - rewrite alter_id; [by destruct st|]. intros f Hf'. congruence.
Qed.

Lemma findings_wf_same st st' : evidence_wf st -> evidence_wf st' -> evidence_grows st st' -> findings_wf st ->
  findings st' = findings st -> findings_wf st'.
Proof.
  intros He He' Hg [Hid Hu Hev] Hf. split; rewrite Hf; try done. intros k f Hk.
  destruct (Hev k f Hk) as (r & x & h & s & t & ?). exists r, x, h, s, t. by apply (evidenced_grows st st' f f).
Qed.

Lemma store_advice_wf row st st' : wf st -> store_advice row st = Ok st' -> wf st'.
Proof.
  intros [He Hf Hr] (t & _ & [= <-])%bind_ok. set (st' := with_ai_analyses t st).
  assert (He' : evidence_wf st') by (by destruct He). split; [done | | by destruct Hr].
  by apply (findings_wf_same st).
Qed.

Lemma seqZ_max n : 0 <= n -> foldr Z.max 0 (seqZ 1 n) = n.
Proof.
  intros Hn. assert (Hle : foldr Z.max 0 (seqZ 1 n) <= n /\ forall k, k ∈ seqZ 1 n -> k <= foldr Z.max 0 (seqZ 1 n)).
  { split.
    - assert (H : Forall (fun k => k <= n) (seqZ 1 n)) by (apply Forall_forall; intros k ?%elem_of_seqZ; lia).
      induction H; cbn; lia.
    - induction (seqZ 1 n) as [|x l IH]; [intros k ?%elem_of_nil; done|]. intros k [->|Hk]%elem_of_cons; cbn; [lia|].
      specialize (IH k Hk). lia. }
  destruct Hle as [H1 H2]. destruct (decide (n = 0)) as [->|]; [done|].
  assert (n <= foldr Z.max 0 (seqZ 1 n)); [|lia]. apply H2, elem_of_seqZ. lia.
Qed.

Lemma foldr_max_perm l1 l2 : l1 ≡ₚ l2 -> foldr Z.max 0 l1 = foldr Z.max 0 l2.
Proof. induction 1; cbn; lia. Qed.

Lemma next_version_ok st finding : numbered_from_one (reports_of st finding) ->
  exists n, 0 <= n /\ version <$> reports_of st finding ≡ₚ seqZ 1 n /\ next_version st finding = n + 1.
Proof.
  intros (n & Hn & Hp). exists n. split; [done|]. split; [done|]. unfold next_version.
  by rewrite (foldr_max_perm _ _ Hp), seqZ_max.
Qed.

Lemma report_added st k r : reports st !! k = None -> numbered_from_one (reports_of st (report_finding_id r)) ->
  version r = next_version st (report_finding_id r) ->
  numbered_from_one (reports_of (with_reports (<[k := r]> (reports st)) st) (report_finding_id r)).
Proof.
  intros Hk Hn Hv. apply next_version_ok in Hn as (n & Hn & Hp & Hm). exists (n + 1). split; [lia|].
  unfold reports_of. cbn [reports with_reports]. rewrite (rows_insert _ _ _ Hk). cbn [List.filter].
  rewrite Z.eqb_refl. cbn [fmap list_fmap]. rewrite Hv, Hm. fold (reports_of st (report_finding_id r)).
  change (list_fmap _ _ version (reports_of st (report_finding_id r))) with (version <$> reports_of st (report_finding_id r)).
  rewrite Hp. rewrite (seqZ_app 1 n 1) by lia. cbn. rewrite Permutation_app_comm. cbn. by replace (1 + n) with (n + 1) by lia.
Qed.

Section reached.
Variable sha256 : string -> string.
Variable json_loads : string -> result json_error json.

Abbreviation step := (step sha256 json_loads).
Abbreviation history := (history sha256 json_loads).
Abbreviation reachable := (reachable sha256 json_loads).
Abbreviation serial_step := (serial_step sha256 json_loads).

(** The report that [generate] makes, and the rows that it reads. *)
Record reported (db : RunTables) (st : FindingTables) (new_id finding : Z) (r : SecurityReport) (f : Finding)
    (run : TestRun) (case : TestCase) (endpoint : Endpoint) (resource : Resource) (body : option string)
    (d : ReportData) : Prop := mkReported {
  re_finding : findings st !! finding = Some f;
  re_confirmed : finding_status f = "confirmed";
  re_rows : finding_rows db f = Ok (run, case, endpoint, resource);
  re_endpoint : finding_endpoint_id f = endpoint_id endpoint /\ finding_target_id f = endpoint_target_id endpoint;
  re_body : sanitized_body json_loads run = Ok body;
  re_data : d = build_report f run case endpoint resource (expected_of db case)
                  (sanitize_request_data (request_of db run)) body (head (analyses_of st (finding_id f)));
  re_report : r = mkReport new_id (finding_id f) (finding_target_id f) (next_version st (finding_id f)) "markdown"
                    (report_json d) (render_security_report_markdown (next_version st (finding_id f)) d);
  re_new : reports st !! new_id = None
}.

Lemma generate_ok db new_id finding st r st' : generate json_loads db new_id finding st = Ok (r, st') ->
  st' = with_reports (<[new_id := r]> (reports st)) st
  /\ exists f run case endpoint resource body d, reported db st new_id finding r f run case endpoint resource body d.
Proof.
  unfold generate. intros (f & Hf & [Hs H]%guard_bind_ok)%require_bind_ok.
  apply bind_ok in H as ([[[run case] endpoint] resource] & Hr & H).
  apply guard_bind_ok in H as [He [Ht H]%guard_bind_ok]. apply bind_ok in H as (body & Hb & H). cbv zeta in H.
  apply guard_bind_ok in H as [_ (t & Hi & [= <- <-])%bind_ok]. unfold insert_row in Hi. case_if_in Hi; [|done].
  injection Hi as <-. split; [done|]. exists f, run, case, endpoint, resource, body. eexists. bool_simpl.
  split; try done. by destruct (reports st !! new_id).
Qed.

Lemma generate_wf db new_id finding st r st' : wf st -> generate json_loads db new_id finding st = Ok (r, st') -> wf st'.
Proof.
  intros [He Hf [Hid Hv Hrep]] (-> & f & run & case & endpoint & resource & body & d & [])%generate_ok.
  destruct (wf_ids _ Hf _ _ re_finding0) as (Hfid & _).
  assert (Hr : report_finding_id r = finding /\ report_id r = new_id /\ version r = next_version st (report_finding_id r)).
  { rewrite re_report0. cbn. by rewrite Hfid. }
  destruct Hr as (Hr1 & Hr2 & Hr3). set (st' := with_reports _ st).
  assert (He' : evidence_wf st') by (by destruct He). split; [done | by apply (findings_wf_same st) |]. split.
  - cbn. intros k r' [[<- <-] | [_ Hk]]%lookup_insert_Some; [done | by apply Hid].
  - intros g. destruct (decide (g = report_finding_id r)) as [->|Hne]; [by apply report_added|].
    unfold reports_of, st'. cbn [reports with_reports]. destruct (Hv g) as (n & Hn & Hp). exists n. split; [done|].
    rewrite <- Hp. apply fmap_Permutation. rewrite (rows_insert _ _ _ re_new0). cbn [List.filter].
    destruct (Z.eqb_spec (report_finding_id r) g); [congruence|]. done.
  - cbn. intros k r' [[<- <-] | [_ Hk]]%lookup_insert_Some; [|by eapply Hrep].
    exists f. rewrite Hr1. split; [done|]. by rewrite re_confirmed0.
Qed.

Definition well (s : FindingTables * list in_flight) : Prop := wf s.1 /\ Forall in_flight_ok s.2.

Lemma drop_in_flight l1 i l2 : Forall in_flight_ok (l1 ++ i :: l2) -> in_flight_ok i /\ Forall in_flight_ok (l1 ++ l2).
Proof. rewrite !Forall_app, Forall_cons. tauto. Qed.

Lemma review_read_ok st finding payload f : review_read st finding payload = Ok f ->
  findings st !! finding = Some f /\ review_status payload ∈ allowed_next (finding_status f).
Proof. intros (g & Hg & [Hs [= <-]]%guard_bind_ok)%require_bind_ok. by bool_simpl. Qed.

Lemma step_well s s' : well s -> step s s' -> well s'.
Proof.
  intros [Hw Hl] H. destruct H; cbn in *.
  - split; [done|]. constructor; [|done].
    apply analyze_read_some in H as (? & ? & ? & ? & ? & H). by eapply analyzed_prepared.
  - apply drop_in_flight in Hl as [Hp Hl]. split; [|done]. by eapply store_finding_wf.
  - split; [done|]. constructor; [|done]. by apply review_read_ok in H as [_ H].
  - apply drop_in_flight in Hl as [Hp Hl]. split; [|done]. by apply review_write_wf.
  - split; [done|]. by constructor.
  - apply drop_in_flight in Hl as [_ Hl]. split; [|done]. by eapply store_advice_wf.
  - split; [|done]. by eapply generate_wf.
Qed.

Lemma wf_empty : wf no_findings.
Proof. repeat split; try done. intros finding. by exists 0. Qed.

Lemma history_well s s' : well s -> history s s' -> well s'.
Proof. intros Hw H. induction H as [|s s1 s2 Hs _ IH]; [done|]. by eapply IH, step_well. Qed.

Lemma reachable_well st : reachable st -> wf st.
Proof. intros (l & H). apply history_well in H as [? _]; [done|]. split; [apply wf_empty | constructor]. Qed.
End reached.
