(* ===== verification/FindingSafety.v ===== *)
(** Findings and reports in every history of the platform: evidence is written once and is
    complete, an analysis repeats and answers, a review decides, reports show no secret. *)

From stdpp Require Import gmap.
From S2P Require Import Prelude.
From S2P Require Import PyStr.
From S2P Require Import PyFloat.
From S2P Require Import PyJson.
From S2P Require Import Models.
From S2P Require Import Samples.
From S2P Require Import Generator.
From S2P Require Import Analyzer.
From S2P Require Import Database.
From S2P Require Import Tables.
From S2P Require Import Findings.
From S2P Require Import Reports.
From S2P Require Import SecurityReports.
From S2P Require Import FindingHistories.

Open Scope Z_scope.

Section reached.
Variable sha256 : string -> string.
Variable json_loads : string -> result json_error json.

Abbreviation step := (step sha256 json_loads).
Abbreviation history := (history sha256 json_loads).
Abbreviation reachable := (reachable sha256 json_loads).
Abbreviation serial_step := (serial_step sha256 json_loads).
Abbreviation reported := (reported json_loads).

(** * What never changes *)

(** The later tables keep the rows of the earlier ones. *)
Record keeps (st st' : FindingTables) : Prop := mkKeeps {
  keeps_evidence :> evidence_grows st st';
  keeps_findings : forall k f, findings st !! k = Some f -> exists f', findings st' !! k = Some f' /\ same_origin f f'
    /\ (finding_status f <> "potential" -> finding_status f' <> "potential");
  keeps_advice : ai_analyses st ⊆ ai_analyses st';
  keeps_reports : reports st ⊆ reports st'
}.

#[local] Instance keeps_preorder : PreOrder keeps.
Proof.
  split.
  - intros st. split; try done. intros k f Hk. by exists f.
  - intros a b c [E1 F1 A1 R1] [E2 F2 A2 R2]. split; [by etrans | | by etrans..]. intros k f Hk.
    destruct (F1 k f Hk) as (g & Hg & (? & ? & ? & ? & ? & ?) & Hs).
    destruct (F2 k g Hg) as (h & Hh & (? & ? & ? & ? & ? & ?) & Hs'). exists h. split; [done|].
    split; [unfold same_origin; repeat split; congruence | auto].
Qed.

Lemma finding_replaced st st' f : findings st' = <[finding_id f := f]> (findings st) ->
  (forall g, findings st !! finding_id f = Some g -> same_origin g f
     /\ (finding_status g <> "potential" -> finding_status f <> "potential")) ->
  forall k g, findings st !! k = Some g -> exists f', findings st' !! k = Some f' /\ same_origin g f'
    /\ (finding_status g <> "potential" -> finding_status f' <> "potential").
Proof.
  intros Hf Hg k g Hk. rewrite Hf. destruct (decide (k = finding_id f)) as [->|Hne].
  - exists f. rewrite lookup_insert_eq. by destruct (Hg g Hk).
  - exists g. by rewrite lookup_insert_ne.
Qed.

Lemma store_finding_keeps p ids st f st' : wf st -> store_finding p ids st = Ok (f, st') -> keeps st st'.
Proof.
  intros [He Hf _] H. apply store_finding_ok in H as (Hfs & Has & _ & _ & _ & Hg & Ha & Hr & _); [|done..].
  split; [done | | by rewrite Ha | by rewrite Hr]. apply (finding_replaced st st' f Hfs). intros g Hg'.
  destruct Has as [(Hn & _)|(h & Hh & E)]; [congruence|]. assert (h = g) as -> by congruence. by rewrite E.
Qed.

Lemma review_write_keeps loaded payload st : review_status payload ∈ allowed_next (finding_status loaded) ->
  keeps st (review_write loaded payload st).
Proof.
  intros [Hin Hne]%allowed_next_elem. split; [by split | | done | done]. intros k f Hk.
  unfold review_write. cbn [findings with_findings]. destruct (decide (k = finding_id loaded)) as [->|Hk'].
  - rewrite lookup_alter_eq, Hk. exists (review_columns loaded payload f). split; [done|]. split; [done|].
    intros _. cbn. rewrite bool_decide_eq_false_2 by done. intros Hs. rewrite Hs, !elem_of_cons, elem_of_nil in Hin. naive_solver.
  - rewrite lookup_alter_ne by done. by exists f.
Qed.

Lemma insert_row_ok {A} (t : gmap Z A) k x t' : insert_row t k x = Ok t' -> t !! k = None /\ t' = <[k := x]> t.
Proof. unfold insert_row. intros H. head_if H; [|done]. injection H as <-. by destruct (t !! k). Qed.

Lemma store_advice_keeps row st st' : store_advice row st = Ok st' -> keeps st st'.
Proof.
  intros (t & [Hn ->]%insert_row_ok & [= <-])%bind_ok. split; [by split | | by apply insert_subseteq | done].
  intros k f Hk. by exists f.
Qed.

Lemma generate_keeps db new_id finding st r st' : generate json_loads db new_id finding st = Ok (r, st') -> keeps st st'.
Proof.
  intros (-> & f & run & case & endpoint & resource & body & d & [])%generate_ok.
  split; [by split | | done | by apply insert_subseteq]. intros k g Hk. by exists g.
Qed.

Lemma step_keeps s s' : well s -> step s s' -> keeps s.1 s'.1.
Proof.
  intros [Hw Hl] H. destruct H; cbn in *; try done.
  - by eapply store_finding_keeps.
  - apply drop_in_flight in Hl as [Hp _]. by apply review_write_keeps.
  - by eapply store_advice_keeps.
  - by eapply generate_keeps.
Qed.

Lemma history_keeps s s' : well s -> history s s' -> keeps s.1 s'.1.
Proof.
  intros Hw H. induction H as [|s s1 s2 Hs _ IH]; [done|]. etrans; [by eapply step_keeps|]. by eapply IH, step_well.
Qed.

(** C29: Evidence is written once. Whatever transactions run and however they interleave,
    every row of evidence, every piece of advice and every report that is stored stays, with
    the same values; a finding stays too, of the same Target, endpoint, pair of runs and
    category, and once its review has begun it is never potential again. *)
Theorem evidence_written_once st l st' l' : history (no_findings, []) (st, l) -> history (st, l) (st', l') ->
  keeps st st'.
Proof.
  intros H1 H2. apply (history_keeps (st, l) (st', l')); [|done]. eapply history_well; [|done].
  split; [apply wf_empty | constructor].
Qed.

(** C30: No finding without its evidence. In every reachable state the five reads of a
    finding's evidence succeed, and the rows say: the probe and the baseline are two
    different runs, those of the finding, both answered with success and naming the
    resource; the excerpts hold a key and a fixed marker and nothing else of a response,
    at most 192 characters; the similarity is the comparison of the stored fingerprints;
    the policy is the one under which no response body is retained. *)
Theorem findings_evidenced st k f : reachable st -> findings st !! k = Some f ->
  exists record excerpt fingerprint similarity retention,
    read_finding_evidence st k = Ok record /\ read_finding_evidence_excerpt st k = Ok excerpt
    /\ read_finding_evidence_fingerprint st k = Ok fingerprint
    /\ read_finding_evidence_similarity st k = Ok similarity
    /\ read_finding_evidence_retention st k = Ok retention
    /\ evidenced st f record excerpt fingerprint similarity retention
    /\ ck_excerpt (values excerpt) = true /\ hex_digest (baseline_digest (fingerprint_of (values fingerprint))) = true
    /\ raw_response_body_retained (values retention) = false.
Proof.
  intros [He Hf _]%reachable_well Hk. destruct (wf_ids _ Hf k f Hk) as (Hid & _).
  destruct (wf_evidenced _ Hf k f Hk) as (r & x & g & s & t & H). exists r, x, g, s, t.
  destruct H as [H1 H2 H3 H4 H5 H6 H7 H8 H9 H10]. rewrite Hid in H1.
  unfold read_finding_evidence_similarity, read_finding_evidence_excerpt, read_finding_evidence_fingerprint,
    read_finding_evidence_retention, read_finding_evidence. rewrite Hk. cbn [require mbind result_bind].
  rewrite H1. cbn [require mbind result_bind]. rewrite H2, H3, H5. cbn [require mbind result_bind]. rewrite H4.
  do 5 (split; [done|]). split; [split; try done; by rewrite Hid|].
  split; [by apply (row_of_checked _ _ _ _ (wf_excerpts _ He)) in H2|].
  split; [|by rewrite H10]. apply (row_of_checked _ _ _ _ (wf_fingerprints _ He)) in H3.
  unfold ck_fingerprint in H3. by bool_simpl.
Qed.

(** * Analysis *)

Lemma check_stored p finding st r x g s t : stored p finding st r x g s t ->
  check_existing_fingerprint st finding (Some (prepared_fingerprint p)) = Ok tt.
Proof.
  intros [[R1 _] _ [R3 V3] _ _]. unfold check_existing_fingerprint, validate_fingerprint. rewrite R1, R3, V3. cbn.
  by rewrite bool_decide_eq_true_2.
Qed.

Lemma store_finding_short p ids st f st' : store_finding p ids st = Ok (f, st') ->
  str_len (finding_title (prepared_endpoint p)) <= 255.
Proof.
  unfold store_finding, insert_finding. intros ([o t] & H & _)%bind_ok. apply guard_bind_ok in H as [H _].
  by apply Z.leb_le in H.
Qed.

(** What was stored is stored again without a change. *)
Lemma store_finding_again p ids ids' st f st' : wf st -> prepared_ok p -> store_finding p ids st = Ok (f, st') ->
  store_finding p ids' st' = Ok (f, st').
Proof.
  intros Hw Hp H. assert (Hw' : wf st') by (by eapply store_finding_wf). assert (Hshort := store_finding_short _ _ _ _ _ H).
  apply store_finding_ok in H as (Hfs & Has & Hrun & Hb & He' & _ & _ & _ & r & x & g & s & t & Hst);
    [|by destruct Hw..].
  assert (Hf : findings st' !! finding_id f = Some f) by (by rewrite Hfs, lookup_insert_eq).
  assert (Hof : finding_of_run (findings st') (prepared_run p) = Some f) by (apply (finding_of_run_some st'); [apply Hw' | done]).
  unfold store_finding, insert_finding. cbn [title finding_values finding_test_run_id].
  rewrite (proj2 (Z.leb_le _ _) Hshort), Hof. cbn [guard_or mbind result_bind]. rewrite Hof. cbn [require mbind result_bind].
  unfold validate_baseline_binding. rewrite bool_decide_eq_true_2 by done. cbn [guard_or mbind result_bind].
  replace (with_findings (findings st') st') with st' by (by destruct st').
  rewrite (stored_again p ids' _ st' r x g s t) by done. cbn [mbind result_bind is_none].
  assert (Hsame : refresh_finding p f = f).
  { destruct Has as [(_ & _ & E)|(h & _ & E)]; rewrite E; done. }
  rewrite Hsame, insert_id by done. by destruct st'.
Qed.

(** Analyzing the same pair again changes nothing: when an analysis in a reachable state
    stored or refreshed a finding, the same request, with whatever keys the sequences would
    give, answers the same and leaves every table as it is. *)
Theorem reanalysis_unchanged db ids ids' run baseline st r f st' : reachable st ->
  analyze_test_run sha256 json_loads db ids run baseline st = Ok (r, Some f, st') ->
  analyze_test_run sha256 json_loads db ids' run baseline st' = Ok (r, Some f, st').
Proof.
  intros Hw%reachable_well. unfold analyze_test_run. intros ([r1 [p|]] & Hr & H)%bind_ok; [|done].
  apply bind_ok in H as ([f1 st1] & Hs & [= -> -> ->]).
  apply analyze_read_some in Hr as (cross & owner & case & owner_case & resource & Ha).
  assert (Hp := analyzed_prepared _ _ _ _ _ _ _ _ _ _ _ _ _ Ha).
  rewrite (analyzed_read sha256 json_loads db st st' run baseline r p cross owner case owner_case resource Ha).
  { cbn [mbind result_bind]. by rewrite (store_finding_again p ids ids' st f st'). }
  assert (Hw' : wf st') by (by eapply store_finding_wf).
  apply store_finding_ok in Hs as (Hfs & _ & Hrun & Hb & _ & _ & _ & _ & r0 & x & g & s & t & Hst); [|by destruct Hw..].
  destruct (an_ids _ _ _ _ _ _ _ _ _ _ _ _ _ Ha) as [I1 I2].
  destruct (an_parts _ _ _ _ _ _ _ _ _ _ _ _ _ Ha) as (_ & _ & P3 & _). intros f' Hf'.
  assert (f' = f) as ->.
  { assert (Hof : finding_of_run (findings st') (test_run_id cross) = Some f); [|congruence].
    apply (finding_of_run_some st'); [apply Hw'|]. by rewrite Hfs, lookup_insert_eq, <- I1. }
  split; [by rewrite <- I2|]. rewrite P3. by eapply check_stored.
Qed.

(** Reads that store nothing found no potential BOLA. *)
Lemma analyze_read_none db st run baseline r :
  analyze_read sha256 json_loads db st run baseline = Ok (r, None) -> outcome_of r <> POTENTIAL_BOLA.
Proof.
  unfold analyze_read. intros (cross & _ & (case & _ & H)%require_bind_ok)%require_bind_ok Ho. apply guard_bind_ok in H as [_ H].
  head_if H; [by injection H as <-|]. apply require_bind_ok in H as (endpoint & _ & (resource & _ & H)%require_bind_ok).
  apply guard_bind_ok in H as [_ (owner & _ & H)%require_bind_ok]. cbv zeta in H.
  apply guard_bind_ok in H as [_ [_ H]%guard_bind_ok]. apply bind_ok in H as (_ & _ & (r' & _ & (_ & _ & H)%bind_ok)%bind_ok).
  head_if H; [injection H as ->; by bool_simpl|].
  apply require_bind_ok in H as (ev & _ & [_ H]%guard_bind_ok).
  by apply require_bind_ok in H as (ex & _ & (fp & _ & (sim & _ & H)%require_bind_ok)%require_bind_ok).
Qed.

(** Only the comparison of the bodies finds a potential BOLA; its severity is high. *)
Lemma potential_high case cross owner resource r :
  analyze_bola_run sha256 json_loads case cross (Some owner) resource = Ok r -> outcome_of r = POTENTIAL_BOLA ->
  severity r = Some "high".
Proof.
  unfold analyze_bola_run. intros (r0 & Hr & [= <-])%bind_ok. cbn [outcome_of severity]. intros Ho.
  unfold classify_bola_run in Hr. destruct (runs_gate case cross (Some owner)) as [[[o so] sc]|]; [|by injection Hr as <-].
  head_if Hr; [by injection Hr as <-|]. head_if Hr; [by injection Hr as <-|].
  unfold compare_bodies in Hr. apply bind_ok in Hr as (jo & _ & (jc & _ & Hr)%bind_ok).
  head_if Hr; [by injection Hr as <-|].
  destruct (json_matching_resource_id_key resource jo), (json_matching_resource_id_key resource jc); by injection Hr as <-.
Qed.

(** The members of a stored finding. *)
Lemma stored_members p st f : stored_as p st f -> finding_test_run_id f = prepared_run p ->
  (forall g, findings st !! finding_id f = Some g ->
     finding_status f = finding_status g /\ review_notes f = review_notes g /\ category f = category g
     /\ finding_target_id f = finding_target_id g /\ finding_endpoint_id f = finding_endpoint_id g
     /\ finding_test_run_id g = finding_test_run_id f)
  /\ (findings st !! finding_id f = None ->
     finding_status f = "potential" /\ review_notes f = None /\ category f = "BOLA"
     /\ finding_target_id f = endpoint_target_id (prepared_endpoint p)
     /\ finding_endpoint_id f = endpoint_id (prepared_endpoint p))
  /\ finding_severity f = prepared_severity p /\ finding_confidence f = prepared_confidence p
  /\ title f = finding_title (prepared_endpoint p) /\ description f = finding_description.
Proof.
  intros [(Hn & _ & ->)|(g & Hg & ->)] Hrun; cbn in *.
  - split; [intros g Hg; congruence|]. done.
  - split; [intros h Hh; rewrite Hg in Hh; injection Hh as <-; done|]. split; [congruence | done].
Qed.

(** The one row of a run is found by its id. *)
Lemma run_unique st f : wf st -> findings st !! finding_id f = Some f ->
  forall k g, findings st !! k = Some g -> finding_test_run_id g = finding_test_run_id f -> k = finding_id f.
Proof. intros Hw Hf k g Hk Hr. destruct Hw as [_ [Hid Hu _] _]. by eapply Hu. Qed.

(** C31: An analysis stores a finding exactly when it found a potential BOLA, and then for a
    valid pair only: the probe is a cross-owner case and the baseline an owner baseline of
    the same endpoint and resource by another identity, no research case, in one Target.
    There is one finding per run. If the run had none, it is new: its status is potential,
    it has no review notes, and it has the Target and the endpoint of the probe. If it had
    one, that finding keeps its status and its review notes, its category, Target and
    endpoint, and gets the new texts. Its severity is high, its title names the endpoint,
    and its fingerprints are those of the two bodies. Otherwise nothing changes. *)
Theorem analysis_stored db ids run baseline st r o st' : reachable st ->
  analyze_test_run sha256 json_loads db ids run baseline st = Ok (r, o, st') ->
  (outcome_of r <> POTENTIAL_BOLA -> o = None /\ st' = st)
  /\ (outcome_of r = POTENTIAL_BOLA -> exists f p cross owner case owner_case resource fingerprint,
        o = Some f /\ analyzed sha256 json_loads db st run baseline r p cross owner case owner_case resource
        /\ findings st' = <[finding_id f := f]> (findings st) /\ stored_as p st f
        /\ finding_test_run_id f = test_run_id cross /\ finding_baseline_test_run_id f = Some (test_run_id owner)
        /\ (forall k g, findings st !! k = Some g -> finding_test_run_id g = test_run_id cross ->
              k = finding_id f /\ finding_status f = finding_status g /\ review_notes f = review_notes g
              /\ category f = category g /\ finding_target_id f = finding_target_id g
              /\ finding_endpoint_id f = finding_endpoint_id g)
        /\ ((forall k g, findings st !! k = Some g -> finding_test_run_id g <> test_run_id cross) ->
              findings st !! finding_id f = None /\ finding_status f = "potential" /\ review_notes f = None
              /\ category f = "BOLA" /\ finding_target_id f = endpoint_target_id (prepared_endpoint p)
              /\ finding_endpoint_id f = endpoint_id (prepared_endpoint p))
        /\ finding_severity f = "high" /\ title f = finding_title (prepared_endpoint p)
        /\ description f = finding_description
        /\ read_finding_evidence_fingerprint st' (finding_id f) = Ok fingerprint
        /\ fingerprint_of (values fingerprint) =
             fingerprint_response_pair sha256 (response_body owner) (response_body cross)).
Proof.
  intros Hw%reachable_well. unfold analyze_test_run. intros ([r1 [p|]] & Hr & H)%bind_ok.
  - apply bind_ok in H as ([f1 st1] & Hs & [= -> <- ->]).
    apply analyze_read_some in Hr as (cross & owner & case & owner_case & resource & Ha). destruct (Ha) as [].
    split; [done|]. intros _. assert (Hw' : wf st') by (by eapply store_finding_wf; [| by eapply analyzed_prepared |]).
    apply store_finding_ok in Hs as (Hfs & Has & Hrun & Hb & _ & _ & _ & _ & Hst); [|by destruct Hw..].
    destruct Hst as (r0 & x & g & s & t & [[R1 V1] _ [R3 V3] _ _]). destruct an_ids as [I1 I2], an_texts as [T1 _].
    assert (Hf : findings st' !! finding_id f1 = Some f1) by by rewrite Hfs, lookup_insert_eq.
    destruct (stored_members _ _ _ Has Hrun) as (Hold & Hnew & M1 & _ & M2 & M3).
    exists f1, p, cross, owner, case, owner_case, resource, g. rewrite <- I1, <- I2. repeat (split; [done|]).
    split; [|split; [|split; [|split; [done|split; [done|split]]]]].
    + intros k h Hk Hkr. assert (k = finding_id f1) as ->.
      { destruct (decide (k = finding_id f1)) as [|Hne]; [done|].
        apply (run_unique st' f1 Hw' Hf k h); [by rewrite Hfs, lookup_insert_ne | congruence]. }
      destruct (Hold h Hk) as (? & ? & ? & ? & ? & _). done.
    + intros Hnone. destruct (findings st !! finding_id f1) as [h|] eqn:Eh; [|by destruct (Hnew eq_refl) as (? & ? & ? & ? & ?)].
      destruct (Hold h eq_refl) as (_ & _ & _ & _ & _ & Hh). destruct (Hnone _ _ Eh). congruence.
    + rewrite M1, T1, (potential_high _ _ _ _ _ an_result an_outcome). done.
    + unfold read_finding_evidence_fingerprint, read_finding_evidence. rewrite Hf, R1.
      cbn [require mbind result_bind]. by rewrite R3.
    + destruct (potential_parts sha256 json_loads case cross owner resource r an_result an_outcome) as (so & sc & kb & kc & _ & _ & _ & _ & E & _).
      destruct an_parts as (_ & _ & P3 & _). rewrite V3. cbn. rewrite P3 in E. by injection E.
  - injection H as -> <- <-. split; [done|]. intros Ho. exfalso. by eapply analyze_read_none.
Qed.

(** * Answers *)

(** Keys of the sequences are new. *)
Definition fresh_evidence_ids (ids : NewIds) (st : FindingTables) : Prop :=
  evidence_records st !! new_record ids = None
  /\ excerpts st !! new_excerpt ids = None /\ fingerprints st !! new_fingerprint ids = None
  /\ similarities st !! new_similarity ids = None /\ retentions st !! new_retention ids = None.
Definition fresh_ids (ids : NewIds) (st : FindingTables) : Prop :=
  findings st !! new_finding ids = None /\ fresh_evidence_ids ids st.

(** The answers the handler documents, and the one it does not intend. *)
Definition answered (db : RunTables) (e : finding_error) : Prop :=
  (exists d, e = HTTPException 404 d) \/ (exists d, e = HTTPException 409 d) \/ e = JSONError
  \/ e = DataError /\ exists k endpoint, endpoints (planning db) !! k = Some endpoint
       /\ 255 < str_len (finding_title endpoint).

Lemma persist_raises {A} `{EqDecision A} (ck : A -> bool) refusal conflict (t : gmap Z (Row A)) new_id p v :
  ck v = true -> t !! new_id = None ->
  raises (fun e => e = ServiceError conflict) (persist ck refusal conflict t new_id p v).
Proof.
  intros Hck Hn. unfold persist, insert_unless, insert_row. rewrite Hck, Hn. cbn [guard_or mbind result_bind is_none].
  apply raises_bind.
  - by destruct (row_of t p).
  - intros t' _. apply raises_bind; [by apply raises_require|]. intros r _. by apply raises_bind; [apply raises_guard|].
Qed.

Lemma prepared_checks db st run baseline r p cross owner case owner_case resource :
  (forall s, hex_digest (sha256 s) = true) ->
  analyzed sha256 json_loads db st run baseline r p cross owner case owner_case resource ->
  ck_structured (structured_values (prepared_evidence p)) = true /\ ck_excerpt (excerpt_values (prepared_excerpt p)) = true
  /\ ck_fingerprint (fingerprint_values (prepared_fingerprint p)) = true
  /\ ck_similarity (similarity_values (prepared_similarity p)) = true.
Proof.
  intros Hsha Ha. assert (Hp := analyzed_prepared _ _ _ _ _ _ _ _ _ _ _ _ _ Ha).
  destruct Hp as [(R1 & R2 & R3) _ [[kb Mb] [kc Mc]] Hcmp]. destruct Ha.
  destruct (potential_parts sha256 json_loads case cross owner resource r an_result an_outcome)
    as (so & sc & k1 & k2 & _ & _ & _ & _ & E & _).
  destruct an_parts as (_ & _ & P3 & _). rewrite P3 in E. injection E as E.
  split; [|split; [|split]].
  - unfold ck_structured. cbn. apply negb_true_iff, Z.eqb_neq. congruence.
  - unfold ck_excerpt. cbn. rewrite Mb, Mc. apply andb_true_intro.
    split; apply Z.leb_le; apply excerpt_bounded.
  - unfold ck_fingerprint. cbn. rewrite E. cbn. rewrite !Hsha. cbn.
    apply andb_true_intro. split; apply Z.leb_le, byte_len_nonneg.
  - unfold ck_similarity. cbn. rewrite Hcmp, E. apply andb_true_intro. split; apply Z.leb_le;
      apply (similarity_bounds (byte_len _) (byte_len _)); apply byte_len_nonneg.
Qed.

Lemma store_evidence_raises p ids finding st : fresh_evidence_ids ids st ->
  ck_structured (structured_values (prepared_evidence p)) = true -> ck_excerpt (excerpt_values (prepared_excerpt p)) = true ->
  ck_fingerprint (fingerprint_values (prepared_fingerprint p)) = true ->
  ck_similarity (similarity_values (prepared_similarity p)) = true ->
  raises (fun e => exists d, e = ServiceError d) (store_evidence p ids finding st).
Proof.
  intros (F2 & F3 & F4 & F5 & F6) C2 C3 C4 C5.
  assert (Hany : forall {A} (m : finding_result A) d, raises (fun e => e = ServiceError d) m ->
    raises (fun e => exists d, e = ServiceError d) m) by (intros A m d; destruct m; cbn; eauto).
  unfold store_evidence. apply raises_bind; [eapply Hany; by apply persist_raises|]. intros [r records] _.
  apply raises_bind; [eapply Hany; by apply persist_raises|]. intros [x xs] _.
  apply raises_bind; [eapply Hany; by apply persist_raises|]. intros [g gs] _.
  apply raises_bind; [eapply Hany; by apply persist_raises|]. intros [s ss] _.
  apply raises_bind; [eapply Hany; by apply persist_raises|]. by intros [t ts] _.
Qed.

Lemma analyze_read_raises db st run baseline :
  raises (fun e => (exists d, e = NotFoundError d) \/ (exists d, e = ServiceError d) \/ e = JSONError)
    (analyze_read sha256 json_loads db st run baseline).
Proof.
  assert (Hreq : forall {A} (o : option A) d, raises (fun e => (exists d, e = NotFoundError d) \/
    (exists d, e = ServiceError d) \/ e = JSONError) (require o (NotFoundError d)))
    by (intros A o d; apply raises_require; eauto).
  assert (Hser : forall {A} (o : option A) d, raises (fun e => (exists d, e = NotFoundError d) \/
    (exists d, e = ServiceError d) \/ e = JSONError) (require o (ServiceError d)))
    by (intros A o d; apply raises_require; eauto).
  assert (Hgua : forall b d, raises (fun e => (exists d, e = NotFoundError d) \/
    (exists d, e = ServiceError d) \/ e = JSONError) (guard_or b (ServiceError d)))
    by (intros b d; apply raises_guard; eauto).
  unfold analyze_read, reject_case, validate_baseline_binding.
  apply raises_bind; [done|]. intros cross _. apply raises_bind; [done|]. intros case _.
  apply raises_bind; [done|]. intros _ _. case_if; [done|].
  apply raises_bind; [done|]. intros endpoint _. apply raises_bind; [done|]. intros resource _.
  apply raises_bind; [done|]. intros _ _. apply raises_bind; [done|]. intros owner _. cbv zeta.
  apply raises_bind; [done|]. intros _ _. apply raises_bind; [done|]. intros _ _.
  apply raises_bind; [by destruct (finding_of_run _ _)|]. intros _ _.
  apply raises_bind; [apply raises_catch_all; auto|]. intros r _. apply raises_bind.
  { destruct (finding_of_run _ _); [|done]. unfold check_existing_fingerprint, validate_fingerprint.
    destruct (row_of _ _); [|done]. by destruct (row_of _ _). }
  intros _ _. case_if; [done|]. apply raises_bind; [done|]. intros ev _. apply raises_bind; [done|]. intros _ _.
  apply raises_bind; [done|]. intros ex _. apply raises_bind; [done|]. intros fp _. by apply raises_bind.
Qed.

Lemma insert_finding_raises t f : t !! finding_id f = None ->
  raises (fun e => e = DataError /\ 255 < str_len (title f)) (insert_finding t f).
Proof.
  intros Hn. unfold insert_finding, insert_row. rewrite Hn. cbn [is_none mbind result_bind]. apply raises_bind.
  - apply raises_guard. intros H%Z.leb_gt. done.
  - intros _ _. by destruct (finding_of_run _ _).
Qed.

(** The analysis always answers. Whatever the tables hold, with new keys from the
    sequences and a hash whose digests are 64 hexadecimal characters, an analysis succeeds,
    or ends in 404 or 409, or in the decoder's own exception; no constraint on the evidence
    ever refuses it. The one other end is the title of a new finding that does not fit its
    column: 255 characters, where the path of an endpoint may have 500. *)
Theorem analysis_answered db ids run baseline st : (forall s, hex_digest (sha256 s) = true) ->
  fresh_ids ids st -> raises (answered db) (analyze_test_run_handler sha256 json_loads db ids run baseline st).
Proof.
  intros Hsha Hids. unfold analyze_test_run_handler, to_http.
  set (Q := fun e => (exists d, e = NotFoundError d) \/ (exists d, e = ServiceError d) \/ e = JSONError
    \/ e = DataError /\ exists k endpoint, endpoints (planning db) !! k = Some endpoint /\ 255 < str_len (finding_title endpoint)).
  apply raises_catch with (Q := Q); [|intros e [[d ->]|[[d ->]|[->|[-> H]]]]; cbn; unfold answered; eauto 10].
  unfold analyze_test_run. apply raises_bind.
  { assert (H := analyze_read_raises db st run baseline). destruct (analyze_read _ _ _ _ _ _); [done|]. cbn in *. unfold Q. tauto. }
  intros [r [p|]] Hr; [|done]. apply analyze_read_some in Hr as (cross & owner & case & owner_case & resource & Ha).
  destruct (prepared_checks _ _ _ _ _ _ _ _ _ _ _ Hsha Ha) as (C1 & C2 & C3 & C4). destruct Hids as (F1 & Frest).
  apply raises_bind; [|by intros [f st'] _]. unfold store_finding. apply raises_bind.
  { assert (H := insert_finding_raises (findings st) (finding_values p (new_finding ids)) F1).
    destruct (insert_finding _ _); [done|]. cbn in H |- *. destruct H as [-> H]. unfold Q. right. right. right. split; [done|].
    exists (test_case_endpoint_id case), (prepared_endpoint p). split; [apply Ha | done]. }
  intros [o t] Hi. apply raises_bind.
  { apply raises_require. intros Hnone. exfalso. unfold insert_finding in Hi. apply guard_bind_ok in Hi as [_ Hi].
    cbn [finding_test_run_id finding_values] in Hi. destruct (finding_of_run (findings st) (prepared_run p)) eqn:E.
    - injection Hi as <- <-. congruence.
    - apply bind_ok in Hi as (t1 & [_ ->]%insert_row_ok & [= <- <-]). by rewrite lookup_insert_eq in Hnone. }
  intros f _. apply raises_bind; [apply raises_guard; unfold Q; eauto|]. intros _ _. apply raises_bind; [|done].
  assert (H : raises (fun e => exists d, e = ServiceError d) (store_evidence p ids (finding_id f) (with_findings t st))).
  { by apply store_evidence_raises. }
  destruct (store_evidence _ _ _ _); [done|]. cbn in *. unfold Q. auto.
Qed.

(** * Reviews *)

Lemma to_http_ok {A} (m : finding_result A) a : to_http m = Ok a -> m = Ok a.
Proof. by destruct m. Qed.

Lemma serial_history st st' : serial_step st st' -> history (st, []) (st', []).
Proof.
  destruct 1 as [db ids run baseline st [r o] st' H%to_http_ok|finding payload st f st' H|
    db new_id finding st a st' H%to_http_ok|db new_id finding st r st' H%to_http_ok].
  - apply bind_ok in H as ([r' [p|]] & Hr & H); [|injection H as _ _ <-; constructor].
    apply bind_ok in H as ([f st1] & Hs & [= _ _ ->]).
    eapply rtc_l; [by eapply analysis_reads|]. eapply rtc_l; [|constructor].
    by apply (analysis_writes _ _ _ [] [] p ids f).
  - apply bind_ok in H as (loaded & Hr & [= _ <-]).
    eapply rtc_l; [by eapply review_reads|]. eapply rtc_l; [|constructor]. apply (review_writes _ _ _ [] []).
  - apply bind_ok in H as (e & He & (v & _ & (st1 & Hs & [= _ ->])%bind_ok)%bind_ok).
    eapply rtc_l; [by eapply advice_reads|]. eapply rtc_l; [|constructor].
    by eapply (advice_writes _ _ _ [] []).
  - eapply rtc_l; [by eapply report_writes | constructor].
Qed.

Abbreviation serially := (rtc serial_step).

Lemma serially_history st st' : serially st st' -> history (st, []) (st', []).
Proof. induction 1 as [|st1 st2 st3 H _ IH]; [constructor|]. etrans; [by apply serial_history | done]. Qed.

Lemma serially_wf st st' : wf st -> serially st st' -> wf st'.
Proof. intros Hw H%serially_history. by apply history_well in H as [? _]; [|split; [|constructor]]. Qed.

(** A request changes the review of a finding only along the allowed transitions. *)
Definition review_moves (st st' : FindingTables) : Prop := forall k f, findings st !! k = Some f ->
  exists f', findings st' !! k = Some f' /\
    (finding_status f' = finding_status f /\ review_notes f' = review_notes f
     \/ finding_status f' ∈ allowed_next (finding_status f)).

Lemma serial_moves st st' : wf st -> serial_step st st' -> review_moves st st'
  /\ forall k r, reports st' !! k = Some r -> reports st !! k = Some r
       \/ exists f, findings st' !! report_finding_id r = Some f /\ finding_status f = "confirmed".
Proof.
  intros Hw. destruct 1 as [db ids run baseline st [r o] st' H%to_http_ok|finding payload st f st' H|
    db new_id finding st a st' H%to_http_ok|db new_id finding st r st' H%to_http_ok].
  - apply bind_ok in H as ([r' [p|]] & Hr & H); [|injection H as _ _ <-; split; [|auto]; intros k g Hk; eauto].
    apply bind_ok in H as ([f st1] & Hs & [= _ _ ->]).
    apply store_finding_ok in Hs as (Hfs & Has & _ & _ & _ & _ & _ & Hrs & _); [|by destruct Hw..].
    split; [|rewrite Hrs; auto]. intros k g Hk. rewrite Hfs. destruct (decide (k = finding_id f)) as [->|Hne].
    + rewrite lookup_insert_eq. exists f. split; [done|]. left. destruct Has as [(Hn & _)|(h & Hh & E)]; [congruence|].
      assert (h = g) as -> by congruence. by rewrite E.
    + rewrite lookup_insert_ne by done. eauto.
  - apply bind_ok in H as (loaded & Hr & [= _ <-]). apply review_read_ok in Hr as [Hf Hin].
    assert (Hid : finding_id loaded = finding) by (by apply (wf_ids _ Hw)).
    split; [|auto]. intros k g Hk. unfold review_write. cbn [findings with_findings]. rewrite Hid.
    destruct (decide (k = finding)) as [->|Hne]; [|rewrite lookup_alter_ne by done; eauto].
    rewrite lookup_alter_eq, Hk. eexists. split; [done|]. right. cbn.
    assert (g = loaded) as -> by congruence. rewrite bool_decide_eq_false_2; [done|]. by apply allowed_next_elem in Hin as [_ ?].
  - apply bind_ok in H as (e & _ & (v & _ & (st1 & (t & _ & [= <-])%bind_ok & [= _ <-])%bind_ok)%bind_ok).
    split; [|auto]. intros k g Hk. eauto.
  - apply generate_ok in H as (-> & f & run & case & endpoint & resource & body & d & []).
    split; [intros k g Hk; eauto|]. cbn. intros k r' [[<- <-] | [_ Hk]]%lookup_insert_Some; [|auto]. right.
    exists f. rewrite re_report. cbn. by rewrite (proj1 (wf_ids _ Hw _ _ re_finding)).
Qed.

(** C32: Reviews decide, when requests do not overlap: a finding that was confirmed or
    rejected keeps its status and its notes for ever, whatever is analyzed, advised or
    reported later; and every report is the report of a confirmed finding. *)
Theorem review_decides st st' : serially no_findings st -> serially st st' ->
  (forall k f, findings st !! k = Some f -> finding_status f ∈ ["confirmed"; "false_positive"] ->
     exists f', findings st' !! k = Some f' /\ finding_status f' = finding_status f /\ review_notes f' = review_notes f)
  /\ (forall k r, reports st' !! k = Some r ->
       exists f, findings st' !! report_finding_id r = Some f /\ finding_status f = "confirmed").
Proof.
  intros H0 H1. assert (Hkeep : forall s s', wf s -> serially s s' -> forall k f, findings s !! k = Some f ->
    finding_status f ∈ ["confirmed"; "false_positive"] ->
    exists f', findings s' !! k = Some f' /\ finding_status f' = finding_status f /\ review_notes f' = review_notes f).
  { intros s s' Hw H. induction H as [|s s1 s2 Hs _ IH]; [eauto|]. intros k f Hk Hd.
    destruct (proj1 (serial_moves _ _ Hw Hs) k f Hk) as (f1 & Hk1 & [[E1 E2]|Hin]).
    - destruct (IH) with (k := k) (f := f1) as (f2 & Hk2 & E3 & E4); [| done | by rewrite E1 |].
      + eapply serially_wf; [done|]. by apply rtc_once.
      + exists f2. split; [done|]. split; congruence.
    - rewrite !elem_of_cons, elem_of_nil in Hd. destruct Hd as [E|[E|[]]]; rewrite E in Hin; by apply elem_of_nil in Hin. }
  split; [apply Hkeep; [by eapply serially_wf; [apply wf_empty|] | done]|].
  assert (Hrep : forall s s', wf s -> (forall k r, reports s !! k = Some r ->
       exists f, findings s !! report_finding_id r = Some f /\ finding_status f = "confirmed") -> serially s s' ->
    forall k r, reports s' !! k = Some r ->
       exists f, findings s' !! report_finding_id r = Some f /\ finding_status f = "confirmed").
  { intros s s' Hw Hr H. induction H as [|s s1 s2 Hs _ IH]; [done|]. apply IH.
    - eapply serially_wf; [done|]. by apply rtc_once.
    - intros k r Hk. destruct (proj2 (serial_moves _ _ Hw Hs) k r Hk) as [Hk'|H]; [|done].
      destruct (Hr k r Hk') as (f & Hf & Hc).
      destruct (Hkeep s s1 Hw (rtc_once _ _ Hs) _ f Hf) as (f' & Hf' & Hc' & _); [rewrite Hc; left|].
      exists f'. by rewrite Hc'. }
  apply (Hrep no_findings); [apply wf_empty | done | by etrans].
Qed.

(** * Reports *)

(** What a report may show of a response body: nothing, the marker of a body that is not
    JSON, or the first 16000 characters of a redacted document. *)
Definition shown_body (j : json) : Prop :=
  j = JNull \/ j = JStr NON_JSON_RESPONSE_REDACTED
  \/ exists doc text, redacted doc = true /\ dumps default_dump doc = Some text /\ j = JStr (take_chars (Z.to_nat 16000) text).

Lemma sanitized_body_shown run body : sanitized_body json_loads run = Ok body -> shown_body (json_str_opt body).
Proof.
  unfold sanitized_body, sanitize_response_body, shown_body. destruct (response_body run) as [text|]; cbn;
    [|intros [= <-]; by left].
  destruct (json_loads text) as [doc|[]]; cbn; try done; [|intros [= <-]; cbn; auto].
  intros [= <-]. destruct (dumps default_dump (redact_json_value doc)) as [t|] eqn:E; cbn; [|by left].
  right. right. exists (redact_json_value doc), t. split; [apply redact_json_value_redacted | done].
Qed.

Lemma evidence_redacted f run case resource data body advice :
  redacted (JObj (evidence_members f run case resource (sanitize_request_data data) body advice)) = true.
Proof.
  assert (Hreq : redacted (JObj (sanitize_request_data data)) = true)
    by apply (redact_json_value_redacted (JObj data)).
  change (redacted (JObj ?o)) with
    (forallb (fun kv => if is_sensitive_key kv.1 then bool_decide (kv.2 = JStr REDACTED) else redacted kv.2) o) in Hreq |- *.
  unfold evidence_members. rewrite forallb_app. apply andb_true_intro. split; [|by destruct advice].
  cbn [forallb fst snd]. 
  repeat match goal with |- context [is_sensitive_key ?k] =>
    let b := eval vm_compute in (is_sensitive_key k) in change (is_sensitive_key k) with b end.
  cbn iota. rewrite (Hreq : redacted (JObj (sanitize_request_data data)) = true).
  by destruct (response_status run), body, (review_notes f).
Qed.

(** C33: Reports are made of confirmed findings and show no secret. When a report is
    generated in a reachable state, the finding is confirmed at that moment, and its Target
    and endpoint are those of the finding; the report has the next number, one more than
    the finding has reports, and is stored as it is answered, beside all the earlier ones;
    its Markdown renders the data it stores; in the evidence no sensitive key, at any depth,
    has a value but the marker, and of the response body it shows at most the start of a
    redacted document. *)
Theorem reports_redacted db new_id finding st r st' : reachable st ->
  generate json_loads db new_id finding st = Ok (r, st') ->
  exists f run case endpoint resource body d,
    reported db st new_id finding r f run case endpoint resource body d
    /\ version r = Z.of_nat (length (reports_of st finding)) + 1
    /\ reports st' = <[new_id := r]> (reports st)
    /\ get_security_report_markdown st' new_id = Ok (new_id, version r, render_security_report_markdown (version r) d)
    /\ report_data r = report_json d /\ redacted (JObj (report_evidence d)) = true
    /\ assoc "request" (report_evidence d) = Some (redact_json_value (JObj (request_of db run)))
    /\ exists shown, assoc "response_body" (report_evidence d) = Some shown /\ shown_body shown.
Proof.
  intros Hw%reachable_well (-> & f & run & case & endpoint & resource & body & d & H)%generate_ok.
  exists f, run, case, endpoint, resource, body, d. split; [done|]. destruct H.
  assert (Hid : finding_id f = finding) by (by apply (wf_ids _ Hw)).
  assert (Hv : version r = next_version st finding) by (rewrite re_report; cbn; by rewrite Hid).
  split.
  { rewrite Hv. destruct (next_version_ok st finding) as (n & Hn & Hp & ->); [apply (wf_versions _ Hw)|].
    apply Permutation_length in Hp. rewrite length_fmap, length_seqZ in Hp. lia. }
  split; [done|]. split.
  { unfold get_security_report_markdown, get_security_report. cbn [reports with_reports]. rewrite lookup_insert_eq.
    cbn [require mbind result_bind]. rewrite Hv. rewrite re_report. cbn. by rewrite Hid. }
  split; [by rewrite re_report|]. split; [rewrite re_data; apply evidence_redacted|].
  split; [by rewrite re_data|]. exists (json_str_opt body). split; [by rewrite re_data|].
  by eapply sanitized_body_shown.
Qed.
End reached.

(** * Sample: the pair of runs of the lab, analyzed, confirmed and reported *)

Definition lab_hash (s : string) : string := "0123456789abcdef0123456789abcdef0123456789abcdef0123456789abcdef".
Definition lab_owner_case : TestCase := mkTestCase 50 41 21 31 "owner_baseline" "passed".
Definition lab_runs : RunTables :=
  mkRunTables
    (mkDatabase (targets lab_db) (revisions lab_db) (scopes lab_db) (identities lab_db) (resources lab_db)
       (endpoints lab_db) {[ 50 := lab_owner_case; 51 := lab_case ]} (bindings lab_db) ∅ [] [] [])
    {[ 71 := lab_owner_run; 72 := lab_probe_run ]}
    {[ 72 := [("url", JStr "http://localhost:8000/api/orders/42"); ("token", JStr "t0p")] ]} {[ 51 := [403; 404] ]}.
Definition lab_ids : NewIds := mkNewIds 101 102 103 104 105 106.
Definition later_ids : NewIds := mkNewIds 201 202 203 204 205 206.

Definition lab_analyzed : BOLAAnalysisResult * option Finding * FindingTables :=
  default (inconclusive "x", None, no_findings)
    (ok_option (analyze_test_run_handler lab_hash lab_json_loads lab_runs lab_ids 72 71 no_findings)).
Definition lab_found : FindingTables := lab_analyzed.2.
Definition lab_finding : Finding :=
  default (mkFinding 0 0 0 0 None "x" "x" f0 "x" "x" "x" None) (findings lab_found !! 101).

Definition confirm : FindingReviewRequest := mkReview "confirmed" (Some "reproduced").
Definition reject : FindingReviewRequest := mkReview "false_positive" None.
Definition lab_confirmed : FindingTables := review_write lab_finding confirm lab_found.
Definition lab_generated : SecurityReport * FindingTables :=
  default (mkReport 0 0 0 0 "x" JNull "x", no_findings)
    (ok_option (generate_security_report lab_json_loads lab_runs 301 101 lab_confirmed)).
Definition lab_reported : FindingTables := lab_generated.2.

Abbreviation lab_step := (step lab_hash lab_json_loads).
Abbreviation lab_serial := (serial_step lab_hash lab_json_loads).

Lemma lab_step_found : lab_serial no_findings lab_found.
Proof. apply (serial_analysis _ _ lab_runs lab_ids 72 71 _ lab_analyzed.1). vm_compute. reflexivity. Qed.
Lemma lab_step_confirmed : lab_serial lab_found lab_confirmed.
Proof. apply (serial_review _ _ 101 confirm _ (review_columns lab_finding confirm lab_finding)). vm_compute. reflexivity. Qed.
Lemma lab_step_reported : lab_serial lab_confirmed lab_reported.
Proof. apply (serial_report _ _ lab_runs 301 101 _ lab_generated.1). vm_compute. reflexivity. Qed.

Lemma lab_found_reachable : reachable lab_hash lab_json_loads lab_found.
Proof. exists []. apply serial_history, lab_step_found. Qed.
Lemma lab_confirmed_reachable : reachable lab_hash lab_json_loads lab_confirmed.
Proof. exists []. etrans; [apply serial_history, lab_step_found | apply serial_history, lab_step_confirmed]. Qed.

Example lab_found_title : title lab_finding = "Potential BOLA in GET /api/orders/{order_id}" /\ finding_status lab_finding = "potential".
Proof. vm_compute. done. Qed.

(** Overlapping reviews: both read a potential finding, the first confirms it, a report is
    generated, and the second rejects it. The reviewed status is that of the last writer,
    and a report of a rejected finding stays. *)
Theorem overlapping_reviews : exists st k r f, reachable lab_hash lab_json_loads st
  /\ reports st !! k = Some r /\ findings st !! report_finding_id r = Some f
  /\ finding_status f = "false_positive" /\ review_notes f = Some "reproduced".
Proof.
  exists (review_write lab_finding reject lab_reported), 301, lab_generated.1,
    (review_columns lab_finding reject (review_columns lab_finding confirm lab_finding)).
  split; [|by vm_compute]. exists []. etrans; [apply serial_history, lab_step_found|].
  eapply rtc_l; [apply (review_reads _ _ _ _ 101 reject lab_finding); by vm_compute|].
  eapply rtc_l; [apply (review_reads _ _ _ _ 101 confirm lab_finding); by vm_compute|].
  eapply rtc_l; [apply (review_writes _ _ _ [] [InReview lab_finding reject])|].
  eapply rtc_l; [apply (report_writes _ _ lab_runs _ _ 301 101 lab_generated.1 lab_reported); by vm_compute|].
  apply rtc_once, (review_writes _ _ _ [] []).
Qed.

(** * Witnesses *)

Lemma evidence_written_once_witness : keeps lab_found lab_confirmed.
Proof.
  apply (evidence_written_once lab_hash lab_json_loads lab_found [] lab_confirmed []).
  - apply serial_history, lab_step_found.
  - apply serial_history, lab_step_confirmed.
Defined.

Lemma findings_evidenced_witness : exists record excerpt fingerprint similarity retention,
  read_finding_evidence lab_found 101 = Ok record /\ read_finding_evidence_excerpt lab_found 101 = Ok excerpt
  /\ read_finding_evidence_fingerprint lab_found 101 = Ok fingerprint
  /\ read_finding_evidence_similarity lab_found 101 = Ok similarity
  /\ read_finding_evidence_retention lab_found 101 = Ok retention
  /\ evidenced lab_found lab_finding record excerpt fingerprint similarity retention
  /\ ck_excerpt (values excerpt) = true /\ hex_digest (baseline_digest (fingerprint_of (values fingerprint))) = true
  /\ raw_response_body_retained (values retention) = false.
Proof.
  apply (findings_evidenced lab_hash lab_json_loads lab_found 101 lab_finding); [apply lab_found_reachable|].
  vm_compute. reflexivity.
Defined.

Lemma reanalysis_unchanged_witness :
  analyze_test_run lab_hash lab_json_loads lab_runs later_ids 72 71 lab_found = Ok (lab_analyzed.1.1, Some lab_finding, lab_found).
Proof.
  apply (reanalysis_unchanged lab_hash lab_json_loads lab_runs lab_ids later_ids 72 71 no_findings).
  - exists []. constructor.
  - vm_compute. reflexivity.
Defined.

(** The finding after a review, and the same pair analyzed again. *)
Lemma analysis_stored_witness :
  (finding_status lab_finding = "potential" /\ review_notes lab_finding = None)
  /\ exists f, analyze_test_run lab_hash lab_json_loads lab_runs later_ids 72 71 lab_confirmed
       = Ok (lab_analyzed.1.1, Some f, lab_confirmed)
     /\ finding_status f = "confirmed" /\ review_notes f = Some "reproduced".
Proof.
  split.
  - destruct (analysis_stored lab_hash lab_json_loads lab_runs lab_ids 72 71 no_findings lab_analyzed.1.1 (Some lab_finding) lab_found)
      as [_ H]; [exists []; constructor | vm_compute; reflexivity|].
    destruct (H ltac:(vm_compute; reflexivity)) as (f & p & cross & owner & case & owner_case & resource & fingerprint
      & [= <-] & _ & _ & _ & _ & _ & _ & Hnew & _).
    destruct (Hnew ltac:(intros k g Hg; discriminate Hg)) as (_ & H1 & H2 & _). by split.
  - destruct (findings lab_confirmed !! 101) as [g|] eqn:Eg; [|vm_compute in Eg; discriminate Eg].
    exists g. assert (Hrun : analyze_test_run lab_hash lab_json_loads lab_runs later_ids 72 71 lab_confirmed
      = Ok (lab_analyzed.1.1, Some g, lab_confirmed)).
    { vm_compute in Eg. injection Eg as <-. vm_compute. reflexivity. }
    split; [exact Hrun|].
    destruct (analysis_stored lab_hash lab_json_loads lab_runs later_ids 72 71 lab_confirmed lab_analyzed.1.1 (Some g) lab_confirmed)
      as [_ H]; [apply lab_confirmed_reachable | exact Hrun|].
    destruct (H ltac:(vm_compute; reflexivity)) as (f & p & cross & owner & case & owner_case & resource & fingerprint
      & [= <-] & _ & _ & _ & Hr & _ & Hold & _).
    destruct (Hold 101 g Eg Hr) as (_ & _ & _ & _). vm_compute in Eg. injection Eg as <-. by split.
Defined.

Lemma analysis_answered_witness :
  raises (answered lab_runs) (analyze_test_run_handler lab_hash lab_json_loads lab_runs later_ids 72 70 lab_found).
Proof.
  apply (analysis_answered lab_hash lab_json_loads lab_runs later_ids 72 70 lab_found).
  - intros s. vm_compute. reflexivity.
  - vm_compute. repeat split.
Defined.

Lemma review_decides_witness :
  (exists f', findings lab_reported !! 101 = Some f' /\ finding_status f' = "confirmed" /\ review_notes f' = Some "reproduced")
  /\ exists f, findings lab_reported !! 101 = Some f /\ finding_status f = "confirmed".
Proof.
  destruct (review_decides lab_hash lab_json_loads lab_confirmed lab_reported) as [H1 H2].
  - eapply rtc_l; [apply lab_step_found|]. apply rtc_once, lab_step_confirmed.
  - apply rtc_once, lab_step_reported.
  - split.
    + apply (H1 101 (review_columns lab_finding confirm lab_finding)); [vm_compute; reflexivity | left].
    + apply (H2 301 lab_generated.1). vm_compute. reflexivity.
Defined.

Lemma reports_redacted_witness : exists f run case endpoint resource body d,
  reported lab_json_loads lab_runs lab_confirmed 301 101 lab_generated.1 f run case endpoint resource body d
  /\ version lab_generated.1 = Z.of_nat (length (reports_of lab_confirmed 101)) + 1
  /\ reports lab_reported = <[301 := lab_generated.1]> (reports lab_confirmed)
  /\ get_security_report_markdown lab_reported 301
     = Ok (301, version lab_generated.1, render_security_report_markdown (version lab_generated.1) d)
  /\ report_data lab_generated.1 = report_json d /\ redacted (JObj (report_evidence d)) = true
  /\ assoc "request" (report_evidence d) = Some (redact_json_value (JObj (request_of lab_runs run)))
  /\ exists shown, assoc "response_body" (report_evidence d) = Some shown /\ shown_body shown.
Proof.
  apply (reports_redacted lab_hash lab_json_loads lab_runs 301 101 lab_confirmed lab_generated.1 lab_reported).
  - apply lab_confirmed_reachable.
  - vm_compute. reflexivity.
Defined.

(** A path of 300 characters is too long for the title of a finding. *)
Definition long_path : string := String.concat "/" (repeat "aaaaaaaaa" 30).
Definition long_runs : RunTables :=
  let db := planning lab_runs in
  mkRunTables
    (mkDatabase (targets db) (revisions db) (scopes db) (identities db) (resources db)
       {[ 41 := mkEndpoint 41 1 long_path "GET" ]} (test_cases db) (bindings db) ∅ [] [] [])
    (test_runs lab_runs) (request_data lab_runs) (expected_statuses lab_runs).
Example long_title_fails : str_len long_path <= 500 /\
  analyze_test_run_handler lab_hash lab_json_loads long_runs lab_ids 72 71 no_findings = Raise DataError.
Proof. vm_compute. done. Qed.
