(* ===== verification/ObservedAccess.v ===== *)
(** Access facts from observations and from people:
    src/backend/app/services/observed_access_assertion.py and
    src/backend/app/api/routes/resource_access_assertions.py, with the payload of
    schemas/resource_access_assertion.py.

    As in Access.v the table of assertions is the list of its rows in increasing id. *)

From stdpp Require Import gmap.
From S2P Require Import Prelude.
From S2P Require Import PyStr.
From S2P Require Import PyJson.
From S2P Require Import Models.
From S2P Require Import Samples.
From S2P Require Import Generator.
From S2P Require Import Access.
From S2P Require Import Analyzer.
From S2P Require Import Database.
From S2P Require Import Tables.
From S2P Require Import Findings.

Open Scope Z_scope.

(** * Observations *)

(** [ObservedAccessAssertionError] as the handler answers it. *)
Definition observed_error (code : string) : access_error :=
  AccessError code (if bool_decide (code = "source_test_run_not_found") then 404 else 409).

Abbreviation access_result := (result access_error).

(** The rows of [load_eligible_source]; [executed_at] is the column of the runs. *)
Definition source_successful (run : TestRun) (expected : list Z) (executed : option timestamp) : bool :=
  match response_status run with
  | Some s => is_success_status s && bool_decide (s ∈ expected)
  | None => false
  end && is_none (error_message run) && negb (is_none executed).

Definition load_eligible_source (db : RunTables) (executed_at : gmap Z timestamp) (test_run : Z)
    : access_result (TestRun * Resource * TestIdentity) :=
  run ← require (test_runs db !! test_run) (observed_error "source_test_run_not_found");
  case ← require (test_cases (planning db) !! run_test_case_id run) (observed_error "source_test_case_not_found");
  _ ← guard_or (negb (new_case (planning db) (Some case))) (observed_error "intent_w2_execution_closed");
  _ ← guard_or (bool_decide (test_type case = "owner_baseline")) (observed_error "source_test_run_not_owner_baseline");
  _ ← guard_or (source_successful run (default [] (expected_statuses db !! test_case_id case))
                  (executed_at !! test_run_id run)) (observed_error "source_test_run_not_successful");
  let resource := resources (planning db) !! test_case_resource_id case in
  let identity := identities (planning db) !! test_case_actor_identity_id case in
  let endpoint := endpoints (planning db) !! test_case_endpoint_id case in
  resource ← require resource (observed_error "source_provenance_missing");
  identity ← require identity (observed_error "source_provenance_missing");
  endpoint ← require endpoint (observed_error "source_provenance_missing");
  _ ← guard_or ((resource_target_id resource =? identity_target_id identity)
                && (identity_target_id identity =? endpoint_target_id endpoint))
        (observed_error "source_provenance_inconsistent");
  Ok (run, resource, identity).

(** [validate_existing_assertion] *)
Definition validate_existing_assertion (a : ResourceAccessAssertion) (run : TestRun) (executed : option timestamp)
    (resource : Resource) (identity : TestIdentity) : access_result ResourceAccessAssertion :=
  if (assertion_resource_id a =? resource_id resource)
     && (assertion_test_identity_id a =? identity_id identity)
     && bool_decide (relationship a = "unspecified")
     && bool_decide (expected_access a = "allowed")
     && bool_decide (provenance a = "observed_baseline")
     && (confidence a =? 50)
     && bool_decide (verification_state a = "candidate")
     && bool_decide (observed_at a = executed)
     && is_none (assertion_valid_from a)
     && is_none (assertion_valid_until a)
     && bool_decide (source_test_run_id a = Some (test_run_id run))
  then Ok a
  else Raise (observed_error "source_assertion_conflict").

Definition assertion_of_run (run : Z) (rows : list ResourceAccessAssertion) : option ResourceAccessAssertion :=
  find_first (fun a => bool_decide (source_test_run_id a = Some run)) rows.

(** The row of an observation, with the id and the time that the database gives it. *)
Definition observed_row (run : TestRun) (executed : option timestamp) (resource : Resource)
    (identity : TestIdentity) (new_id : Z) (now : timestamp) : ResourceAccessAssertion :=
  mkAssertion new_id (resource_id resource) (identity_id identity) "unspecified" "allowed" "observed_baseline" 50
    "candidate" now executed None None (Some (test_run_id run)) None.

(** [derive_observed_access_assertion] and the commit, under the lock on the run. *)
Definition derive_observed_access_assertion (db : RunTables) (executed_at : gmap Z timestamp) (test_run new_id : Z)
    (now : timestamp) (rows : list ResourceAccessAssertion)
    : access_result (list ResourceAccessAssertion * ResourceAccessAssertion) :=
  '(run, resource, identity) ← load_eligible_source db executed_at test_run;
  let executed := executed_at !! test_run_id run in
  match assertion_of_run (test_run_id run) rows with
  | Some existing => a ← validate_existing_assertion existing run executed resource identity; Ok (rows, a)
  | None =>
      let rows' := rows ++ [observed_row run executed resource identity new_id now] in
      a ← require (assertion_of_run (test_run_id run) rows') (observed_error "assertion_persistence_conflict");
      a ← validate_existing_assertion a run executed resource identity;
      Ok (rows', a)
  end.

(** * Facts that a person states *)

Record ResourceAccessAssertionCreate := mkCreate {
  create_test_identity_id : Z;
  create_relationship : string;
  create_expected_access : string;
  create_confidence : Z;
  create_valid_from : option datetime;
  create_valid_until : option datetime
}.

Definition aware (d : option datetime) : bool := match d with Some (Naive _) => false | _ => true end.
Definition aware_instant (d : option datetime) : option timestamp :=
  match d with Some (Aware t) => Some t | _ => None end.

(** [validate_assertion] and the literal types of the fields. *)
Definition valid_payload (p : ResourceAccessAssertionCreate) : bool :=
  bool_decide (create_relationship p ∈ ["owner"; "shared"; "non_owner"; "unspecified"])
  && bool_decide (create_expected_access p ∈ ["allowed"; "denied"; "unspecified"])
  && (0 <=? create_confidence p) && (create_confidence p <=? 100)
  && negb (bool_decide (create_relationship p = "unspecified") && bool_decide (create_expected_access p = "unspecified"))
  && aware (create_valid_from p) && aware (create_valid_until p)
  && match aware_instant (create_valid_until p) with
     | None => true
     | Some u => match aware_instant (create_valid_from p) with Some f => f <? u | None => false end
     end.

(** [create_resource_access_assertion]; 422 is the framework's answer to the payload. *)
Definition create_resource_access_assertion (db : Database) (resource : Z) (p : ResourceAccessAssertionCreate)
    (new_id : Z) (now : timestamp) (rows : list ResourceAccessAssertion)
    : access_result (list ResourceAccessAssertion * ResourceAccessAssertion) :=
  _ ← guard_or (valid_payload p) (AccessError "request_validation" 422);
  r ← require (resources db !! resource) (AccessError "Resource not found." 404);
  i ← require (identities db !! create_test_identity_id p) (AccessError "Test identity not found." 404);
  _ ← guard_or (identity_target_id i =? resource_target_id r)
        (AccessError "Test identity belongs to a different target." 409);
  let row := mkAssertion new_id (resource_id r) (identity_id i) (create_relationship p) (create_expected_access p)
               "human_verified" (create_confidence p) "verified" now None
               (aware_instant (create_valid_from p)) (aware_instant (create_valid_until p)) None None in
  Ok (rows ++ [row], row).

Definition list_resource_access_assertions (db : Database) (resource after_id limit : Z)
    (rows : list ResourceAccessAssertion) : access_result (list ResourceAccessAssertion) :=
  _ ← guard_or ((0 <=? after_id) && (1 <=? limit) && (limit <=? 100)) (AccessError "request_validation" 422);
  _ ← require (resources db !! resource) (AccessError "Resource not found." 404);
  Ok (page assertion_id after_id limit (List.filter (fun a => assertion_resource_id a =? resource) rows)).

Definition get_resource_access_assertion (db : Database) (resource assertion : Z)
    (rows : list ResourceAccessAssertion) : access_result ResourceAccessAssertion :=
  _ ← require (resources db !! resource) (AccessError "Resource not found." 404);
  require (find_first (fun a => (assertion_id a =? assertion) && (assertion_resource_id a =? resource)) rows)
    (AccessError "Access assertion not found." 404).

(** The table constraints that Models.v has of an assertion. *)
Definition ck_assertion (a : ResourceAccessAssertion) : bool :=
  ck_assertion_relationship a && ck_assertion_expected_access a && ck_assertion_meaningful a
  && ck_assertion_validity_window a && ck_assertion_review a
  && (0 <=? confidence a) && (confidence a <=? 100)
  && bool_decide (provenance a ∈ ["human_verified"; "target_fixture"; "observed_baseline"; "inferred_candidate"])
  && bool_decide (verification_state a ∈ ["candidate"; "verified"; "rejected"])
  && (negb (bool_decide (provenance a = "observed_baseline")) || negb (is_none (source_test_run_id a))).

(** One assertion of each run: the unique index. *)
Definition sources_unique (rows : list ResourceAccessAssertion) : Prop :=
  forall run, (count_if (fun a => bool_decide (source_test_run_id a = Some run)) rows <= 1)%nat.

(** * Lemmas *)

Lemma validate_existing_assertion_ok a run executed resource identity x :
  validate_existing_assertion a run executed resource identity = Ok x ->
  x = a /\ assertion_resource_id a = resource_id resource /\ assertion_test_identity_id a = identity_id identity
  /\ expected_access a = "allowed" /\ provenance a = "observed_baseline" /\ verification_state a = "candidate"
  /\ observed_at a = executed /\ source_test_run_id a = Some (test_run_id run)
  /\ assertion_valid_from a = None /\ assertion_valid_until a = None.
Proof. unfold validate_existing_assertion. case_if; [|done]. intros [= <-]. bool_simpl.
  destruct (assertion_valid_from a), (assertion_valid_until a); by split_and!. Qed.

Lemma observed_row_valid run executed resource identity new_id now :
  validate_existing_assertion (observed_row run executed resource identity new_id now) run executed resource identity
  = Ok (observed_row run executed resource identity new_id now).
Proof.
  unfold validate_existing_assertion, observed_row. cbn. case_if; [done|].
  repeat (apply andb_false_iff in E as [E|E]); bool_simpl; done.
Qed.

Lemma candidate_never_applies a r i t : verification_state a = "candidate" -> applies r i t a = false.
Proof. intros H. unfold applies. rewrite H. cbn. by rewrite andb_false_r. Qed.

Lemma applicable_app rows a r i t : applies r i t a = false -> applicable (rows ++ [a]) r i t = applicable rows r i t.
Proof. intros H. unfold applicable. rewrite List.filter_app. cbn. by rewrite H, app_nil_r. Qed.

Lemma derive_steps db executed_at test_run new_id now rows rows' a :
  derive_observed_access_assertion db executed_at test_run new_id now rows = Ok (rows', a) ->
  exists run resource identity, load_eligible_source db executed_at test_run = Ok (run, resource, identity)
  /\ validate_existing_assertion a run (executed_at !! test_run_id run) resource identity = Ok a
  /\ assertion_of_run (test_run_id run) rows' = Some a
  /\ (rows' = rows \/ rows' = rows ++ [a] /\ assertion_of_run (test_run_id run) rows = None
        /\ a = observed_row run (executed_at !! test_run_id run) resource identity new_id now).
Proof.
  unfold derive_observed_access_assertion. intros ([[run resource] identity] & Hl & H)%bind_ok. cbv zeta in H.
  exists run, resource, identity. split; [done|].
  destruct (assertion_of_run (test_run_id run) rows) as [e|] eqn:Er.
  - apply bind_ok in H as (x & Hv & [= <- <-]). destruct (validate_existing_assertion_ok _ _ _ _ _ _ Hv) as (-> & _). auto.
  - apply require_bind_ok in H as (x & Hx & H). apply bind_ok in H as (y & Hv & [= <- <-]).
    destruct (validate_existing_assertion_ok _ _ _ _ _ _ Hv) as (-> & _). split; [done|]. split; [done|]. right.
    unfold assertion_of_run in Hx, Er. rewrite find_first_app, Er in Hx. cbn in Hx.
    rewrite bool_decide_eq_true_2 in Hx by done. by injection Hx as <-.
Qed.

(** A review of an observation counts from its own time on, if it is positive. *)
Lemma review_applies a rows decision c n t t' :
  assertion_valid_from a = None -> assertion_valid_until a = None ->
  let review := review_row a (verdict decision) c n t in
  review ∈ applicable (rows ++ [review]) (assertion_resource_id a) (assertion_test_identity_id a) t'
  <-> decision = "verify" /\ t <= t'.
Proof.
  intros Hf Hu review. unfold applicable. rewrite list_elem_of_In, filter_In, <- list_elem_of_In.
  assert (Hin : review ∈ rows ++ [review]) by (apply elem_of_app; right; left).
  assert (Happ : applies (assertion_resource_id a) (assertion_test_identity_id a) t' review = true
    <-> verdict decision = "verified" /\ t <= t').
  { unfold applies, review, review_row. cbn [assertion_resource_id assertion_test_identity_id verification_state asserted_at
      assertion_valid_from assertion_valid_until]. rewrite Hf, Hu, !Z.eqb_refl. cbn [andb].
    by rewrite !andb_true_r, andb_true_iff, Z.leb_le, bool_decide_eq_true. }
  assert (Hverdict : verdict decision = "verified" <-> decision = "verify")
    by (unfold verdict; by case_bool_decide).
  rewrite Happ, Hverdict. tauto.
Qed.

(** The run is a successful owner baseline: an answer in the 2xx range that the case expects,
    no error, executed; of an ordinary case, whose resource, identity and endpoint exist in
    one Target. *)
Definition successful_baseline (db : RunTables) (executed_at : gmap Z timestamp) (run : TestRun)
    (case : TestCase) (resource : Resource) (identity : TestIdentity) : Prop :=
  test_cases (planning db) !! run_test_case_id run = Some case
  /\ test_type case = "owner_baseline" /\ new_case (planning db) (Some case) = false
  /\ (exists status expected, response_status run = Some status /\ 200 <= status < 300
       /\ expected_statuses db !! test_case_id case = Some expected /\ status ∈ expected)
  /\ error_message run = None /\ is_Some (executed_at !! test_run_id run)
  /\ resources (planning db) !! test_case_resource_id case = Some resource
  /\ identities (planning db) !! test_case_actor_identity_id case = Some identity
  /\ resource_target_id resource = identity_target_id identity
  /\ exists endpoint, endpoints (planning db) !! test_case_endpoint_id case = Some endpoint
       /\ endpoint_target_id endpoint = resource_target_id resource.

Lemma load_eligible_source_ok db executed_at test_run run resource identity :
  load_eligible_source db executed_at test_run = Ok (run, resource, identity) <->
  test_runs db !! test_run = Some run /\ exists case, successful_baseline db executed_at run case resource identity.
Proof.
  unfold load_eligible_source. split.
  - intros (run' & Hr & (case & Hc & H)%require_bind_ok)%require_bind_ok.
    apply guard_bind_ok in H as [Hn [Ht [Hs H]%guard_bind_ok]%guard_bind_ok]. cbv zeta in H.
    apply require_bind_ok in H as (r & Hres & (i & Hi & (e & He & H)%require_bind_ok)%require_bind_ok).
    apply guard_bind_ok in H as [Htar [= <- <- <-]]. unfold source_successful, is_success_status in Hs.
    destruct (response_status run') as [status|] eqn:Es; [|by bool_simpl].
    destruct (error_message run') eqn:Em; [by bool_simpl|].
    destruct (expected_statuses db !! test_case_id case) as [l|] eqn:El; cbn [default from_option id] in Hs;
      [|by rewrite (bool_decide_eq_false_2 (status ∈ [])), andb_false_r in Hs by apply not_elem_of_nil].
    bool_simpl.
    destruct (executed_at !! test_run_id run') as [x|] eqn:Ex; [|done].
    split; [done|]. exists case. split_and!; try done.
    + exists status, l. by split_and!.
    + exists e. split; [done|]. congruence.
  - intros (Hr & case & Hc & Ht & Hn & (status & l & Es & Hst & El & Hin) & Em & [x Ex] & Hres & Hi & Htar & e & He & Het).
    rewrite Hr. cbn [require mbind result_bind]. rewrite Hc. cbn [require mbind result_bind].
    rewrite Hn, Ht. cbn [negb guard_or mbind result_bind]. rewrite bool_decide_eq_true_2 by done.
    cbn [guard_or mbind result_bind]. unfold source_successful, is_success_status.
    rewrite Es, El, Em, Ex, (proj2 (Z.leb_le _ _)), (proj2 (Z.ltb_lt _ _)) by lia. cbn [default from_option id].
    rewrite bool_decide_eq_true_2 by done. cbn [is_none negb andb guard_or mbind result_bind].
    rewrite Hres, Hi, He. cbn [require mbind result_bind]. by rewrite <- Htar, Het, !Z.eqb_refl.
Qed.

(** A candidate that nobody has reviewed can be reviewed, and the review says the same of
    the same identity and resource. *)
Lemma candidate_reviewable a rows decision c n t : a ∈ rows -> NoDup (assertion_id <$> rows) ->
  verification_state a = "candidate" -> provenance a = "observed_baseline" ->
  (forall x, x ∈ rows -> reviewed_assertion_id x <> Some (assertion_id a)) ->
  review_resource_access_assertion true (assertion_resource_id a) (assertion_id a) decision c n t rows
  = Ok (rows ++ [review_row a (verdict decision) c n t], review_row a (verdict decision) c n t).
Proof.
  intros Hin Hnd Hst Hp Hno. unfold review_resource_access_assertion. cbn [guard_or mbind result_bind].
  assert (Hf : find_first (fun x => (assertion_id x =? assertion_id a)
    && (assertion_resource_id x =? assertion_resource_id a)) rows = Some a).
  { destruct (find_first _ rows) as [y|] eqn:E.
    - apply find_first_elem in E as [Hy E]. bool_simpl. f_equal.
      apply list_elem_of_lookup in Hy as [i Hi], Hin as [j Hj]. assert (i = j) as <-; [|congruence].
      apply (NoDup_lookup _ _ _ (assertion_id a) Hnd); rewrite list_lookup_fmap; [rewrite Hi | by rewrite Hj].
      cbn. congruence.
    - rewrite find_first_none in E. specialize (E a Hin). cbn in E. by rewrite !Z.eqb_refl in E. }
  assert (Hc : bool_decide (verification_state a = "candidate")
    && bool_decide (provenance a ∈ ["observed_baseline"; "inferred_candidate"]) = true) by (rewrite Hst, Hp; reflexivity).
  rewrite Hf. cbn [require mbind result_bind]. rewrite Hc. cbn [guard_or mbind result_bind]. cbv zeta.
  fold (verdict decision).
  assert (Hr : review_of a rows = None).
  { unfold review_of. apply find_first_none. intros x Hx. apply bool_decide_eq_false. by apply Hno. }
  assert (Hr' : review_of a (rows ++ [review_row a (verdict decision) c n t]) = Some (review_row a (verdict decision) c n t)).
  { unfold review_of in *. rewrite find_first_app, Hr. cbn. by rewrite bool_decide_eq_true_2. }
  unfold insert_review. rewrite Hr. cbv zeta. rewrite Hr'. cbn [require mbind result_bind]. by rewrite validate_new_row.
Qed.

Lemma derived_elem db executed_at test_run new_id now rows rows' a :
  derive_observed_access_assertion db executed_at test_run new_id now rows = Ok (rows', a) -> a ∈ rows'.
Proof. intros (run & resource & identity & _ & _ & H%find_first_elem & _)%derive_steps. apply H. Qed.

(** * Properties *)

(** C34: An observation alone is never a fact. Deriving an assertion succeeds only for a run
    that is a successful owner baseline: of an ordinary case, with an expected answer in the
    2xx range, no error and a time of execution. It adds at most one row, the only one of its
    run, a candidate that says that the identity of the case had access to the resource of the
    case, both in one Target, at that time; the row satisfies the table. No resolution of
    access changes by it, for any resource, identity and time. Deriving again, at any time,
    returns the same row and adds none. A reviewer may decide on it as long as nobody has,
    either way; only a positive review counts as a fact, from its own time on. *)
Theorem observation_is_candidate db executed_at test_run new_id now rows rows' a :
  derive_observed_access_assertion db executed_at test_run new_id now rows = Ok (rows', a) ->
  (rows' = rows /\ a ∈ rows \/ rows' = rows ++ [a] /\ ck_assertion a = true)
  /\ verification_state a = "candidate" /\ provenance a = "observed_baseline" /\ expected_access a = "allowed"
  /\ (sources_unique rows -> sources_unique rows')
  /\ (forall resource identity t, resolve_resource_access resource identity rows' t
                                  = resolve_resource_access resource identity rows t)
  /\ (forall new_id' now', derive_observed_access_assertion db executed_at test_run new_id' now' rows' = Ok (rows', a))
  /\ (exists run case resource identity, test_runs db !! test_run = Some run
       /\ successful_baseline db executed_at run case resource identity
       /\ source_test_run_id a = Some (test_run_id run) /\ observed_at a = executed_at !! test_run_id run
       /\ assertion_resource_id a = resource_id resource /\ assertion_test_identity_id a = identity_id identity)
  /\ (NoDup (assertion_id <$> rows') -> (forall x, x ∈ rows' -> reviewed_assertion_id x <> Some (assertion_id a)) ->
      forall decision c n t, exists review,
        review_resource_access_assertion true (assertion_resource_id a) (assertion_id a) decision c n t rows'
        = Ok (rows' ++ [review], review)
        /\ verification_state review = (if bool_decide (decision = "verify") then "verified" else "rejected")
        /\ provenance review = "human_verified" /\ reviewed_assertion_id review = Some (assertion_id a)
        /\ expected_access review = "allowed"
        /\ forall t', review ∈ applicable (rows' ++ [review]) (assertion_resource_id a) (assertion_test_identity_id a) t'
            <-> decision = "verify" /\ t <= t').
Proof.
  intros H. assert (Hin := derived_elem _ _ _ _ _ _ _ _ H).
  destruct (derive_steps _ _ _ _ _ _ _ _ H) as (run & resource & identity & Hl & Hv & Ha & Hrows).
  destruct (validate_existing_assertion_ok _ _ _ _ _ _ Hv) as (_ & E1 & E2 & E3 & E4 & E5 & E6 & E7 & E8 & E9).
  destruct (proj1 (load_eligible_source_ok _ _ _ _ _ _) Hl) as (L1 & case & L2).
  split; [|do 3 (split; [done|]); split; [|split; [|split; [|split]]]].
  - destruct Hrows as [->|(-> & _ & Erow)]; [by left|]. right. split; [done|]. by rewrite Erow.
  - intros Hu. destruct Hrows as [->|(-> & Hn & _)]; [done|]. intros r. rewrite count_if_app. cbn. rewrite E7.
    case_bool_decide as Er; [|specialize (Hu r); lia]. injection Er as <-.
    assert (count_if (fun x => bool_decide (source_test_run_id x = Some (test_run_id run))) rows = 0%nat) as ->; [|lia].
    apply count_if_zero, Forall_forall. intros x Hx. by apply (proj1 (find_first_none _ _) Hn).
  - intros r i t. destruct Hrows as [->|(-> & _ & _)]; [done|]. unfold resolve_resource_access.
    destruct t as [|t]; [done|]. destruct r as [r|]; [|done]. destruct i as [i|]; [|done]. cbn [require mbind result_bind].
    by rewrite (applicable_app rows a) by by apply candidate_never_applies.
  - intros n' t'. unfold derive_observed_access_assertion. rewrite Hl. cbn [mbind result_bind]. cbv zeta. rewrite Ha, Hv. done.
  - by exists run, case, resource, identity.
  - intros Hnd Hno decision c n t. exists (review_row a (verdict decision) c n t).
    split; [by apply candidate_reviewable|]. do 4 (split; [done|]). intros t'.
    by apply review_applies.
Qed.

(** A fact that a person states satisfies the table and counts from then on. *)
Theorem stated_fact_counts db resource p new_id now rows rows' a t :
  create_resource_access_assertion db resource p new_id now rows = Ok (rows', a) ->
  now <= t -> (forall f, aware_instant (create_valid_from p) = Some f -> f <= t) ->
  (forall u, aware_instant (create_valid_until p) = Some u -> t < u) ->
  ck_assertion a = true /\ rows' = rows ++ [a]
  /\ a ∈ applicable rows' (assertion_resource_id a) (assertion_test_identity_id a) t.
Proof.
  unfold create_resource_access_assertion, valid_payload. intros [Hp (r & _ & (i & _ & [_ [= <- <-]]%guard_bind_ok)%require_bind_ok)%require_bind_ok]%guard_bind_ok Ht Hf Hu.
  bool_simpl. split; [|split; [done|]].
  - unfold ck_assertion, ck_assertion_relationship, ck_assertion_expected_access, ck_assertion_meaningful,
      ck_assertion_validity_window, ck_assertion_review. cbn.
    rewrite <- negb_andb, H3, H0, (proj2 (Z.leb_le _ _) H5), (proj2 (Z.leb_le _ _) H4).
    by rewrite (bool_decide_eq_true_2 _ H), (bool_decide_eq_true_2 _ H6).
  - unfold applicable. rewrite List.filter_app. apply elem_of_app. right. cbn.
    assert (Happ : applies (resource_id r) (identity_id i) t (mkAssertion new_id (resource_id r) (identity_id i)
      (create_relationship p) (create_expected_access p) "human_verified" (create_confidence p) "verified" now None
      (aware_instant (create_valid_from p)) (aware_instant (create_valid_until p)) None None) = true).
    { unfold applies. cbn. rewrite !Z.eqb_refl, (proj2 (Z.leb_le _ _) Ht). cbn.
      destruct (aware_instant (create_valid_from p)) as [f|]; [rewrite (proj2 (Z.leb_le _ _) (Hf f eq_refl))|]; cbn;
        (destruct (aware_instant (create_valid_until p)) as [u|]; [|done]); by apply Z.ltb_lt, Hu. }
    rewrite Happ. left.
Qed.

(** * Witnesses *)

Definition lab_source_db : RunTables :=
  mkRunTables
    (mkDatabase (targets lab_db) (revisions lab_db) (scopes lab_db) (identities lab_db) (resources lab_db)
       (endpoints lab_db) {[ 50 := mkTestCase 50 41 21 31 "owner_baseline" "passed" ]} (bindings lab_db) ∅ [] [] [])
    {[ 71 := lab_owner_run ]} ∅ {[ 50 := [200] ]}.
Definition lab_executed : gmap Z timestamp := {[ 71 := 90 ]}.
Definition lab_observed : ResourceAccessAssertion :=
  observed_row lab_owner_run (Some 90) lab_order lab_alice 64 300.

Lemma observation_is_candidate_witness :
  ck_assertion lab_observed = true /\
  resolve_resource_access (Some lab_order) (Some lab_alice) [lab_fact; lab_observed] (Aware 400)
  = resolve_resource_access (Some lab_order) (Some lab_alice) [lab_fact] (Aware 400) /\
  exists review, review_resource_access_assertion true (assertion_resource_id lab_observed) (assertion_id lab_observed)
      "verify" 80 65 400 [lab_fact; lab_observed] = Ok ([lab_fact; lab_observed; review], review)
    /\ review ∈ applicable [lab_fact; lab_observed; review] (assertion_resource_id lab_observed)
         (assertion_test_identity_id lab_observed) 500.
Proof.
  destruct (observation_is_candidate lab_source_db lab_executed 71 64 300 [lab_fact] [lab_fact; lab_observed] lab_observed)
    as (H1 & _ & _ & _ & _ & H2 & _ & _ & H3).
  - vm_compute. reflexivity.
  - split; [destruct H1 as [[H _]|[_ H]]; [discriminate H | exact H]|]. split; [apply H2|].
    destruct (H3 ltac:(apply (bool_decide_unpack _); vm_compute; exact Logic.I)
      ltac:(intros x Hx; apply list_elem_of_In in Hx as [<-|[<-|[]]]; discriminate) "verify" 80 65 400)
      as (review & H & _ & _ & _ & _ & Ht).
    exists review. split; [exact H|]. apply Ht. split; [reflexivity | lia].
Defined.

Definition lab_stated : ResourceAccessAssertion :=
  mkAssertion 65 31 22 "owner" "allowed" "human_verified" 90 "verified" 300 None None None None None.

Lemma stated_fact_counts_witness : lab_stated ∈ applicable [lab_stated] 31 22 400.
Proof.
  apply (stated_fact_counts lab_db 31 (mkCreate 22 "owner" "allowed" 90 None None) 65 300 [] [lab_stated] lab_stated 400);
    [vm_compute; reflexivity | lia | discriminate | discriminate].
Defined.
