(* ===== verification/Base64.v ===== *)
(** What the code uses of Python's [base64]: [urlsafe_b64encode], and [b64decode] with the
    alphabet of URLs and [validate=True], which is CPython's strict decoder. Bytes are the
    characters of a string. *)

From S2P Require Import Prelude.
From S2P Require Import PyStr.

Open Scope Z_scope.

Definition b64_char (n : Z) : ascii :=
  if n <? 26 then chr (65 + n)
  else if n <? 52 then chr (71 + n)
  else if n <? 62 then chr (n - 4)
  else if n =? 62 then "-" else "_".

(** The decoder first maps the alphabet of URLs to the standard one, so it takes both. *)
Definition b64_value (c : ascii) : option Z :=
  if is_upper c then Some (ord c - 65)
  else if is_lower c then Some (ord c - 71)
  else if is_digit c then Some (ord c + 4)
  else if bool_decide (c = "-"%char) || bool_decide (c = "+"%char) then Some 62
  else if bool_decide (c = "_"%char) || bool_decide (c = "/"%char) then Some 63
  else None.

Definition b64_pad : ascii := "=".

(** [urlsafe_b64encode] *)
Fixpoint b64_encode (s : string) : string :=
  match s with
  | EmptyString => EmptyString
  | String a EmptyString =>
      String (b64_char (ord a / 4)) (String (b64_char (ord a mod 4 * 16)) (String b64_pad (str1 b64_pad)))
  | String a (String b EmptyString) =>
      String (b64_char (ord a / 4)) (String (b64_char (ord a mod 4 * 16 + ord b / 16))
        (String (b64_char (ord b mod 16 * 4)) (str1 b64_pad)))
  | String a (String b (String c rest)) =>
      String (b64_char (ord a / 4)) (String (b64_char (ord a mod 4 * 16 + ord b / 16))
        (String (b64_char (ord b mod 16 * 4 + ord c / 64)) (String (b64_char (ord c mod 64)) (b64_encode rest))))
  end.

(** [binascii.a2b_base64(s, strict_mode=True)]: the position in a group of four, the bits
    left over, the pads read, and whether padding has begun. *)
Fixpoint a2b (s : string) (quad left pads : Z) (padded : bool) : option string :=
  match s with
  | EmptyString => if quad =? 0 then Some EmptyString else None
  | String c rest =>
      if bool_decide (c = b64_pad) then
        if (2 <=? quad) && (4 <=? quad + (pads + 1)) then
          match rest with EmptyString => Some EmptyString | _ => None end
        else a2b rest quad left (if 2 <=? quad then pads + 1 else pads) true
      else
        v ← b64_value c;
        if padded then None
        else if quad =? 0 then a2b rest 1 v 0 padded
        else if quad =? 1 then String (chr (left * 4 + v / 16)) <$> a2b rest 2 (v mod 16) 0 padded
        else if quad =? 2 then String (chr (left * 16 + v / 4)) <$> a2b rest 3 (v mod 4) 0 padded
        else String (chr (left * 64 + v)) <$> a2b rest 0 0 0 padded
  end.

Definition b64_decode (s : string) : option string :=
  match s with
  | String c _ => if bool_decide (c = b64_pad) then None else a2b s 0 0 0 false
  | EmptyString => Some EmptyString
  end.

(** * Lemmas *)

Lemma b64_char_value n : 0 <= n < 64 -> b64_value (b64_char n) = Some n /\ b64_char n <> b64_pad.
Proof.
  intros Hn. set (p := fun n => bool_decide (b64_value (b64_char n) = Some n) && negb (bool_decide (b64_char n = b64_pad))).
  assert (H : p n = true) by (apply (range_check p 0 64); [by vm_compute | lia]). unfold p in H. by bool_simpl.
Qed.

Lemma a2b_data n s quad left pads : 0 <= n < 64 -> a2b (String (b64_char n) s) quad left pads false =
  if quad =? 0 then a2b s 1 n 0 false
  else if quad =? 1 then String (chr (left * 4 + n / 16)) <$> a2b s 2 (n mod 16) 0 false
  else if quad =? 2 then String (chr (left * 16 + n / 4)) <$> a2b s 3 (n mod 4) 0 false
  else String (chr (left * 64 + n)) <$> a2b s 0 0 0 false.
Proof. intros [Hv Hp]%b64_char_value. cbn [a2b]. by rewrite bool_decide_eq_false_2, Hv. Qed.

Ltac byte_ranges :=
  repeat match goal with
  | a : ascii |- _ =>
      lazymatch goal with _ : 0 <= ord a < 256 |- _ => fail | _ => pose proof (ord_range a) end
  end.

(** A byte is put together from its bits. *)
Ltac same_byte a := trans (chr (ord a)); [f_equal; Z.to_euclidean_division_equations; lia | apply chr_ord].

Lemma a2b_pad1 left : a2b (str1 b64_pad) 3 left 0 false = Some EmptyString.
Proof. done. Qed.
Lemma a2b_pad2 left : a2b (String b64_pad (str1 b64_pad)) 2 left 0 false = Some EmptyString.
Proof. done. Qed.

Lemma a2b_encode s : a2b (b64_encode s) 0 0 0 false = Some s.
Proof.
  revert s. fix IH 1. intros [|a [|b [|c rest]]]; cbn [b64_encode]; [done | | |]; byte_ranges.
  all: assert (B1 : 0 <= ord a / 4 < 64) by (Z.to_euclidean_division_equations; lia).
  - assert (B2 : 0 <= ord a mod 4 * 16 < 64) by (Z.to_euclidean_division_equations; lia).
    rewrite !a2b_data by done. cbn [Z.eqb Pos.eqb]. rewrite a2b_pad2. cbn [fmap option_fmap option_map]. do 2 f_equal. same_byte a.
  - assert (B2 : 0 <= ord a mod 4 * 16 + ord b / 16 < 64) by (Z.to_euclidean_division_equations; lia).
    assert (B3 : 0 <= ord b mod 16 * 4 < 64) by (Z.to_euclidean_division_equations; lia).
    rewrite !a2b_data by done. cbn [Z.eqb Pos.eqb]. rewrite a2b_pad1. cbn [fmap option_fmap option_map].
    do 2 f_equal; [|f_equal].
    + same_byte a.
    + same_byte b.
  - assert (B2 : 0 <= ord a mod 4 * 16 + ord b / 16 < 64) by (Z.to_euclidean_division_equations; lia).
    assert (B3 : 0 <= ord b mod 16 * 4 + ord c / 64 < 64) by (Z.to_euclidean_division_equations; lia).
    assert (B4 : 0 <= ord c mod 64 < 64) by (Z.to_euclidean_division_equations; lia).
    rewrite !a2b_data by done. cbn [Z.eqb Pos.eqb]. rewrite IH. cbn [fmap option_fmap option_map].
    do 2 f_equal; [|f_equal; [|f_equal]].
    + same_byte a.
    + same_byte b.
    + same_byte c.
Qed.

Lemma b64_encode_start s c t : b64_encode s = String c t -> c <> b64_pad.
Proof.
  destruct s as [|a [|b [|d rest]]]; cbn [b64_encode]; [done|..]; intros [= <- _]; pose proof (ord_range a);
    apply b64_char_value; Z.to_euclidean_division_equations; lia.
Qed.

Lemma b64_roundtrip s : b64_decode (b64_encode s) = Some s.
Proof.
  unfold b64_decode. destruct (b64_encode s) as [|c t] eqn:E.
  - destruct s as [|a [|b [|d rest]]]; done.
  - rewrite bool_decide_eq_false_2 by by eapply b64_encode_start. rewrite <- E. apply a2b_encode.
Qed.

(** The text is ASCII, without dots. *)
Lemma b64_char_plain n : 0 <= n < 64 -> is_ascii (b64_char n) = true /\ b64_char n <> "."%char.
Proof.
  intros Hn. set (p := fun n => is_ascii (b64_char n) && negb (bool_decide (b64_char n = "."%char))).
  assert (H : p n = true) by (apply (range_check p 0 64); [by vm_compute | lia]). unfold p in H. by bool_simpl.
Qed.

Lemma b64_no_dot s : contains_char "." (b64_encode s) = false.
Proof.
  apply (str_forall_lacks (fun c => negb (bool_decide (c = "."%char)))); [|done].
  revert s. fix IH 1. intros [|a [|b [|c rest]]]; cbn [b64_encode str_forall str1]; [done | | |]; byte_ranges.
  all: assert (Hd : forall n, 0 <= n < 64 -> negb (bool_decide (b64_char n = "."%char)) = true)
    by (intros n [_ Hn]%b64_char_plain; by rewrite bool_decide_eq_false_2).
  all: rewrite !Hd by (Z.to_euclidean_division_equations; lia); try done. cbn. apply IH.
Qed.
