(* ===== verification/Credentials.v ===== *)
(** Stored bearer tokens: src/backend/app/credentials/stored_secret.py (the cipher and the
    provider) and bearer.py (what identities use of them).

    The cipher AES-GCM is a pair of arguments, [seal] and [unseal]; nonces and the keys of new
    rows are arguments of the operations. *)

From stdpp Require Import gmap.
From S2P Require Import Prelude.
From S2P Require Import PyStr.
From S2P Require Import Models.
From S2P Require Import Samples.
From S2P Require Import Tables.
From S2P Require Import Codec.
From S2P Require Import Base64.

Open Scope Z_scope.

Record CredentialSecretVersion := mkVersion {
  secret_version_id : Z;
  credential_binding_id : Z;
  encrypted_envelope : string;
  envelope_version : Z;
  key_version : string
}.

Record CredentialTables := mkCredentials {
  credential_bindings : gmap Z CredentialBinding;
  secret_versions : gmap Z CredentialSecretVersion
}.

(** The errors of the two modules; those of the first never reach a caller of the second. *)
Inductive secret_error : Type :=
| StoredSecretConfigurationError
| StoredSecretEncryptionError
| StoredSecretDecryptionError
| StoredSecretBindingError.
Inductive credential_error : Type :=
| BearerCredentialError (detail : string)
| BearerIdentityNotFoundError (detail : string)
| BearerIdentityTypeError (detail : string)
| CredentialIntegrityError
| CredentialDataError.
#[export] Instance secret_error_eq_dec : EqDecision secret_error.
Proof. solve_decision. Defined.
#[export] Instance credential_error_eq_dec : EqDecision credential_error.
Proof. solve_decision. Defined.

Abbreviation secret_result := (result secret_error).
Abbreviation credential_result := (result credential_error).

Definition ENVELOPE_VERSION : Z := 1.
Definition NONCE_SIZE_BYTES : Z := 12.
Definition KEY_SIZE_BYTES : Z := 32.

Record Settings := mkSettings {
  credential_encryption_key : option string;
  credential_encryption_key_version : string
}.

(** A key that was checked, and its version. *)
Record StoredSecretCipher := mkCipher { cipher_key : string; cipher_key_version : string }.

Definition new_cipher (key version : string) : secret_result StoredSecretCipher :=
  if negb (byte_len key =? KEY_SIZE_BYTES) || is_empty (strip version) then Raise StoredSecretConfigurationError
  else Ok (mkCipher key version).

Definition from_settings (s : Settings) : secret_result StoredSecretCipher :=
  configured ← require (credential_encryption_key s) StoredSecretConfigurationError;
  key ← require (b64_decode configured) StoredSecretConfigurationError;
  new_cipher key (credential_encryption_key_version s).

(** What the cipher authenticates beside the token. *)
Definition associated_data (c : StoredSecretCipher) (binding : Z) : secret_result string :=
  if binding <=? 0 then Raise StoredSecretConfigurationError
  else Ok ("credential-secret:v" +:+ str_of_Z ENVELOPE_VERSION +:+ ":binding:" +:+ str_of_Z binding
           +:+ ":key:" +:+ cipher_key_version c).

Definition version_mark : string := "v" +:+ str_of_Z ENVELOPE_VERSION.

Section cipher.
(** [seal key nonce plaintext associated_data] and its inverse; [None] is an exception. *)
Variable seal : string -> string -> string -> string -> option string.
Variable unseal : string -> string -> string -> string -> option string.

Definition encrypt (c : StoredSecretCipher) (nonce plaintext : string) (binding : Z) : secret_result string :=
  data ← associated_data c binding;
  sealed ← require (seal (cipher_key c) nonce plaintext data) StoredSecretEncryptionError;
  Ok (join "." [version_mark; b64_encode nonce; b64_encode sealed]).

Definition decrypt (c : StoredSecretCipher) (envelope : string) (binding : Z) : secret_result string :=
  match split_char "." envelope with
  | [version; encoded_nonce; encoded_ciphertext] =>
      _ ← guard_or (bool_decide (version = version_mark)) StoredSecretDecryptionError;
      nonce ← require (b64_decode encoded_nonce) StoredSecretDecryptionError;
      _ ← guard_or (byte_len nonce =? NONCE_SIZE_BYTES) StoredSecretDecryptionError;
      sealed ← require (b64_decode encoded_ciphertext) StoredSecretDecryptionError;
      data ← associated_data c binding;
      plaintext ← require (unseal (cipher_key c) nonce sealed data) StoredSecretDecryptionError;
      _ ← guard_or (utf8_valid plaintext) StoredSecretDecryptionError;
      Ok plaintext
  | _ => Raise StoredSecretDecryptionError
  end.

(** [StoredSecretProvider._validate_binding] of a persisted binding *)
Definition validate_binding (b : CredentialBinding) : secret_result unit :=
  guard_or (bool_decide (source_type b = "stored_secret")) StoredSecretBindingError.

(** [store_secret] and its flush. *)
Definition store_secret (c : StoredSecretCipher) (t : CredentialTables) (b : CredentialBinding)
    (plaintext nonce : string) (new_id : Z) : secret_result CredentialTables :=
  _ ← validate_binding b;
  envelope ← encrypt c nonce plaintext (binding_id b);
  Ok (mkCredentials (credential_bindings t)
        (<[new_id := mkVersion new_id (binding_id b) envelope ENVELOPE_VERSION (cipher_key_version c)]>
           (secret_versions t))).

Definition load_secret (c : StoredSecretCipher) (t : CredentialTables) (v : CredentialSecretVersion)
    : secret_result string :=
  b ← require (credential_bindings t !! credential_binding_id v) StoredSecretBindingError;
  _ ← validate_binding b;
  _ ← guard_or ((envelope_version v =? ENVELOPE_VERSION) && bool_decide (key_version v = cipher_key_version c))
        StoredSecretDecryptionError;
  decrypt c (encrypted_envelope v) (credential_binding_id v).

(** * Bearer credentials *)

(** [_matching_bindings] *)
Definition usable (identity : Z) (b : CredentialBinding) : bool :=
  (binding_test_identity_id b =? identity) && bool_decide (binding_auth_type b = "bearer")
  && bool_decide (source_type b = "stored_secret") && binding_is_active b.
Definition matching_bindings (t : CredentialTables) (identity : Z) : list CredentialBinding :=
  take 2 (order_by binding_id (List.filter (usable identity) (rows (credential_bindings t)))).

(** The newest version of a binding: [order_by(id.desc()).limit(1)]. *)
Definition latest_version (t : CredentialTables) (binding : Z) : option CredentialSecretVersion :=
  last (order_by secret_version_id
          (List.filter (fun v => credential_binding_id v =? binding) (rows (secret_versions t)))).

(** Any [StoredSecretError] becomes the caller's. *)
Definition sanitized {A} (m : secret_result A) (detail : string) : credential_result A :=
  catch m (fun _ => Raise (BearerCredentialError detail)).

Definition OPERATION_FAILED : string := "Bearer credential operation failed.".
Definition UNAVAILABLE : string := "Bearer credential is unavailable.".

Variable settings : Settings.

(** [_get_provider().store_secret(...)]; a version takes a new key, and the column of the key's
    version is [String(50)]. *)
Definition store_token (t : CredentialTables) (b : CredentialBinding) (token nonce : string) (new_version : Z)
    : credential_result CredentialTables :=
  t' ← sanitized (c ← from_settings settings; store_secret c t b token nonce new_version) OPERATION_FAILED;
  _ ← guard_or (str_len (credential_encryption_key_version settings) <=? 50) CredentialDataError;
  _ ← guard_or (is_none (secret_versions t !! new_version)) CredentialIntegrityError;
  Ok t'.

Definition new_binding (t : CredentialTables) (identity new_id : Z) : credential_result (CredentialBinding * CredentialTables) :=
  let b := mkBinding new_id identity "bearer" "stored_secret" true in
  _ ← guard_or (is_none (credential_bindings t !! new_id)) CredentialIntegrityError;
  Ok (b, mkCredentials (<[new_id := b]> (credential_bindings t)) (secret_versions t)).

Definition provision (identity : TestIdentity) (token nonce : string) (binding version : Z) (t : CredentialTables)
    : credential_result CredentialTables :=
  _ ← guard_or (bool_decide (auth_type identity = "bearer"))
        (BearerIdentityTypeError "Bearer credential operation is not valid for this identity.");
  '(b, t') ← new_binding t (identity_id identity) binding;
  store_token t' b token nonce version.

(** [update], under the lock on the identity. The column [credentials], which is written here,
    is null in every row already. *)
Definition update (identity : option TestIdentity) (token nonce : string) (binding version : Z) (t : CredentialTables)
    : credential_result CredentialTables :=
  i ← require identity (BearerIdentityNotFoundError "Test identity not found.");
  _ ← guard_or (bool_decide (auth_type i = "bearer"))
        (BearerIdentityTypeError "Only bearer identities can receive a bearer token.");
  match matching_bindings t (identity_id i) with
  | [] => '(b, t') ← new_binding t (identity_id i) binding; store_token t' b token nonce version
  | [b] => store_token t b token nonce version
  | _ => Raise (BearerCredentialError OPERATION_FAILED)
  end.

(** An active bearer identity. *)
Definition may_authenticate (i : TestIdentity) : bool :=
  identity_is_active i && bool_decide (auth_type i = "bearer").

Definition load_token (t : CredentialTables) (v : CredentialSecretVersion) : credential_result string :=
  sanitized (c ← from_settings settings; load_secret c t v) UNAVAILABLE.

Definition resolve (i : TestIdentity) (t : CredentialTables) : credential_result string :=
  _ ← guard_or (may_authenticate i) (BearerCredentialError UNAVAILABLE);
  match matching_bindings t (identity_id i) with
  | [b] => v ← require (latest_version t (binding_id b)) (BearerCredentialError UNAVAILABLE); load_token t v
  | _ => Raise (BearerCredentialError UNAVAILABLE)
  end.

(** The binding that a plan or a dispatcher names. *)
Definition named_binding (i : TestIdentity) (binding : Z) (t : CredentialTables) : credential_result CredentialBinding :=
  _ ← guard_or (may_authenticate i) (BearerCredentialError UNAVAILABLE);
  b ← require (credential_bindings t !! binding) (BearerCredentialError UNAVAILABLE);
  _ ← guard_or (usable (identity_id i) b) (BearerCredentialError UNAVAILABLE);
  Ok b.

Definition resolve_binding (i : TestIdentity) (binding : Z) (t : CredentialTables) : credential_result string :=
  b ← named_binding i binding t;
  v ← require (latest_version t (binding_id b)) (BearerCredentialError UNAVAILABLE);
  load_token t v.

Definition resolve_exact (i : TestIdentity) (binding version : Z) (t : CredentialTables) : credential_result string :=
  _ ← guard_or (may_authenticate i && (0 <? version)) (BearerCredentialError UNAVAILABLE);
  b ← named_binding i binding t;
  _ ← guard_or (bool_decide (secret_version_id <$> latest_version t binding = Some version))
        (BearerCredentialError "Pinned bearer credential version changed.");
  v ← require (find_first (fun v => (secret_version_id v =? version) && (credential_binding_id v =? binding))
                 (rows (secret_versions t))) (BearerCredentialError UNAVAILABLE);
  load_token t v.
End cipher.

(** * The tables *)

Record credentials_wf (t : CredentialTables) : Prop := mkCredentialsWf {
  wf_bindings : forall k b, credential_bindings t !! k = Some b -> binding_id b = k;
  wf_versions : forall k v, secret_versions t !! k = Some v -> secret_version_id v = k;
  wf_owners : forall k v, secret_versions t !! k = Some v -> is_Some (credential_bindings t !! credential_binding_id v)
}.

(** * Lemmas *)

Lemma insert_by_last {A} (key : A -> Z) x l : Forall (fun y => key y < key x) l -> insert_by key x l = l ++ [x].
Proof.
  induction 1 as [|y l Hy _ IH]; cbn; [done|]. rewrite (proj2 (Z.leb_gt _ _) Hy). by rewrite IH.
Qed.

Lemma filter_rows_insert {A} (p : A -> bool) (m : gmap Z A) k x : m !! k = None ->
  List.filter p (rows (<[k := x]> m)) ≡ₚ (if p x then x :: List.filter p (rows m) else List.filter p (rows m)).
Proof. intros H. rewrite (rows_insert m k x H). done. Qed.

Lemma order_by_insert {A} (key : A -> Z) (p : A -> bool) (m : gmap Z A) k x :
  m !! k = None -> (forall i y, m !! i = Some y -> key y = i) -> key x = k ->
  order_by key (List.filter p (rows (<[k := x]> m)))
  = if p x then insert_by key x (order_by key (List.filter p (rows m))) else order_by key (List.filter p (rows m)).
Proof.
  intros Hk Hid Hx. rewrite (order_by_unique key _ _ (filter_rows_insert p m k x Hk)).
  - by destruct (p x).
  - apply filter_nodup, rows_nodup. intros i y [[<- <-] | [_ Hi]]%lookup_insert_Some; [done | by apply Hid].
Qed.

(** The newest version is the one that was stored last. *)
Lemma latest_inserted t v : credentials_wf t -> secret_versions t !! secret_version_id v = None ->
  (forall k w, secret_versions t !! k = Some w -> k < secret_version_id v) ->
  forall bindings binding, latest_version (mkCredentials bindings (<[secret_version_id v := v]> (secret_versions t))) binding
  = if credential_binding_id v =? binding then Some v else latest_version t binding.
Proof.
  intros Hw Hn Hnew bindings b. unfold latest_version. cbn [secret_versions].
  rewrite order_by_insert; [| done | by apply wf_versions | done]. cbv beta. case_if; [|done].
  rewrite insert_by_last; [apply last_snoc|]. apply Forall_forall. intros w Hw'. rewrite order_by_perm in Hw'.
  apply list_elem_of_In, filter_In in Hw' as [Hw' _]. apply list_elem_of_In, elem_of_rows in Hw' as [k Hk].
  rewrite (wf_versions _ Hw _ _ Hk). by eapply Hnew.
Qed.

Lemma matching_inserted t b versions : credentials_wf t -> credential_bindings t !! binding_id b = None ->
  forall identity, matching_bindings (mkCredentials (<[binding_id b := b]> (credential_bindings t)) versions) identity
  = if usable identity b then take 2 (insert_by binding_id b
       (order_by binding_id (List.filter (usable identity) (rows (credential_bindings t)))))
    else matching_bindings t identity.
Proof.
  intros Hw Hn identity. unfold matching_bindings. cbn [credential_bindings].
  rewrite order_by_insert; [| done | by apply wf_bindings | done]. by case_if.
Qed.

Lemma matching_nil t identity : matching_bindings t identity = [] ->
  order_by binding_id (List.filter (usable identity) (rows (credential_bindings t))) = [].
Proof. unfold matching_bindings. by destruct (order_by _ _) as [|x l]. Qed.

Lemma matching_usable t identity b l : matching_bindings t identity = b :: l -> credentials_wf t ->
  usable identity b = true /\ credential_bindings t !! binding_id b = Some b.
Proof.
  unfold matching_bindings. intros H Hw. destruct (order_by _ _) as [|x l'] eqn:E; [done|]. cbn in H. injection H as -> _.
  assert (Hin : b ∈ order_by binding_id (List.filter (usable identity) (rows (credential_bindings t)))) by (rewrite E; left).
  rewrite order_by_perm in Hin. apply list_elem_of_In, filter_In in Hin as [Hin Hu].
  apply list_elem_of_In, elem_of_rows in Hin as [k Hk]. split; [done|]. by rewrite (wf_bindings _ Hw _ _ Hk).
Qed.

Lemma associated_injective c c' b b' a : associated_data c b = Ok a -> associated_data c' b' = Ok a ->
  b = b' /\ cipher_key_version c = cipher_key_version c'.
Proof.
  unfold associated_data. case_if; [done|]. case_if; [done|]. bool_simpl. intros [= <-] [= H].
  assert (Hd : forall n, 0 < n -> contains_char ":" (str_of_Z n) = false).
  { intros n Hn. eapply str_forall_lacks; [apply decimal_digits; lia | done]. }
  assert (Hs : forall n v, 0 < n ->
    split_char ":" (str_of_Z n +:+ String ":" (String "k" (String "e" (String "y" (String ":" v)))))
    = str_of_Z n :: "key" :: split_char ":" v).
  { intros n v Hn. change (String "k" (String "e" (String "y" (String ":" v)))) with ("key" +:+ String ":" v).
    by rewrite split_char_app_sep, (split_char_single _ _ (Hd n Hn)), split_char_app_sep. }
  apply (f_equal (split_char ":")) in H. rewrite !Hs in H by done. injection H as H1 H2. split.
  - apply (f_equal parse_nat) in H1. rewrite !decimal_roundtrip in H1 by lia. done.
  - symmetry. by eapply split_char_inj.
Qed.

Section tokens.
Variable seal unseal : string -> string -> string -> string -> option string.
Variable settings : Settings.

(** What AES-GCM promises: unsealing gives the plaintext exactly of what sealing made. *)
Definition aead : Prop := forall k n p a c, seal k n p a = Some c <-> unseal k n c a = Some p.

Lemma split_envelope n c : split_char "." (join "." [version_mark; b64_encode n; b64_encode c])
  = [version_mark; b64_encode n; b64_encode c].
Proof.
  apply (split_join "."); [done|]. constructor; [done|]. constructor; [apply b64_no_dot|].
  constructor; [apply b64_no_dot | constructor].
Qed.

Lemma decrypt_encrypted c n p b e : aead -> encrypt seal c n p b = Ok e -> byte_len n = NONCE_SIZE_BYTES ->
  utf8_valid p = true -> decrypt unseal c e b = Ok p.
Proof.
  intros Hlaw (data & Hd & (sealed & Hs & He)%require_bind_ok)%bind_ok Hn Hp.
  assert (e = join "." [version_mark; b64_encode n; b64_encode sealed]) as -> by congruence. unfold decrypt.
  rewrite split_envelope. rewrite bool_decide_eq_true_2 by done. cbn [guard_or mbind result_bind].
  rewrite !b64_roundtrip. cbn [require mbind result_bind]. rewrite Hn, Z.eqb_refl. cbn [guard_or mbind result_bind].
  rewrite Hd. cbn [mbind result_bind].
  rewrite (proj1 (Hlaw _ _ _ _ _) Hs). cbn [require mbind result_bind]. by rewrite Hp.
Qed.

(** The table after a token was stored: one more version, the newest of its binding. *)
Lemma store_token_ok t b token nonce v t' : store_token seal settings t b token nonce v = Ok t' ->
  exists c e, from_settings settings = Ok c /\ encrypt seal c nonce token (binding_id b) = Ok e
    /\ source_type b = "stored_secret" /\ secret_versions t !! v = None
    /\ t' = mkCredentials (credential_bindings t)
              (<[v := mkVersion v (binding_id b) e ENVELOPE_VERSION (cipher_key_version c)]> (secret_versions t)).
Proof.
  unfold store_token, sanitized, catch. intros (t1 & H & [_ [Hv [= <-]]%guard_bind_ok]%guard_bind_ok)%bind_ok.
  destruct (from_settings settings) as [c|] eqn:Ec; [|done]. cbn [mbind result_bind] in H.
  destruct (store_secret seal c t b token nonce v) as [t2|] eqn:Es; [|done]. injection H as ->.
  unfold store_secret, validate_binding in Es. apply guard_bind_ok in Es as [Hs (e & He & [= <-])%bind_ok].
  exists c, e. bool_simpl. by destruct (secret_versions t !! v).
Qed.

(** A token that was stored last is the one that every way of resolving gives. *)
Lemma stored_resolves t b token nonce v t' i : aead -> credentials_wf t ->
  store_token seal settings t b token nonce v = Ok t' ->
  (forall k w, secret_versions t !! k = Some w -> k < v) ->
  credential_bindings t !! binding_id b = Some b -> usable (identity_id i) b = true ->
  matching_bindings t (identity_id i) = [b] -> may_authenticate i = true -> 0 < v ->
  byte_len nonce = NONCE_SIZE_BYTES -> utf8_valid token = true ->
  resolve unseal settings i t' = Ok token /\ resolve_binding unseal settings i (binding_id b) t' = Ok token
  /\ resolve_exact unseal settings i (binding_id b) v t' = Ok token
  /\ forall v', v' <> v -> is_ok (resolve_exact unseal settings i (binding_id b) v' t') = false.
Proof.
  intros Hlaw Hw (c & e & Hc & He & Hs & Hv & ->)%store_token_ok Hnew Hb Hu Hm Ha Hpos Hn Hp.
  set (row := mkVersion v (binding_id b) e ENVELOPE_VERSION (cipher_key_version c)).
  set (t' := mkCredentials (credential_bindings t) (<[v := row]> (secret_versions t))).
  assert (Hlatest : latest_version t' (binding_id b) = Some row).
  { unfold t'. change v with (secret_version_id row). rewrite latest_inserted by done. cbn. by rewrite Z.eqb_refl. }
  assert (Hload : load_token unseal settings t' row = Ok token).
  { unfold load_token, sanitized. rewrite Hc. cbn [mbind result_bind]. unfold load_secret. cbn [t' credential_bindings row credential_binding_id].
    rewrite Hb. cbn [require mbind result_bind]. unfold validate_binding. rewrite Hs, bool_decide_eq_true_2 by done.
    cbn [guard_or mbind result_bind envelope_version key_version]. rewrite Z.eqb_refl, bool_decide_eq_true_2 by done.
    cbn [andb guard_or mbind result_bind]. change (encrypted_envelope row) with e.
    change (credential_binding_id row) with (binding_id b). by rewrite (decrypt_encrypted c nonce token (binding_id b) e). }
  assert (Hmatch : matching_bindings t' (identity_id i) = [b]) by done.
  assert (Hnamed : named_binding i (binding_id b) t' = Ok b).
  { unfold named_binding. rewrite Ha. cbn [guard_or mbind result_bind t' credential_bindings]. rewrite Hb.
    cbn [require mbind result_bind]. by rewrite Hu. }
  split; [|split; [|split]].
  - unfold resolve. rewrite Ha. cbn [guard_or mbind result_bind]. rewrite Hmatch, Hlatest. done.
  - unfold resolve_binding. rewrite Hnamed. cbn [mbind result_bind]. rewrite Hlatest. done.
  - unfold resolve_exact. rewrite Ha, (proj2 (Z.ltb_lt _ _) Hpos). cbn [andb guard_or mbind result_bind].
    rewrite Hnamed. cbn [mbind result_bind]. rewrite Hlatest, bool_decide_eq_true_2 by done. cbn [guard_or mbind result_bind].
    assert (Hfind : find_first (fun w => (secret_version_id w =? v) && (credential_binding_id w =? binding_id b))
      (rows (secret_versions t')) = Some row).
    { destruct (find_first _ _) as [w|] eqn:E.
      - apply find_rows_some in E as [E [k Hk]]. unfold t' in Hk. cbn [secret_versions] in Hk.
        apply lookup_insert_Some in Hk as [[<- <-] | [Hne Hk]]; [done|]. bool_simpl.
        apply (wf_versions _ Hw) in Hk. congruence.
      - assert (H := find_rows_none _ _ E v row (lookup_insert_eq _ _ _)). cbn in H. by rewrite !Z.eqb_refl in H. }
    rewrite Hfind. done.
  - intros v' Hne. unfold resolve_exact. destruct (may_authenticate i && (0 <? v')); [|done]. cbn [guard_or mbind result_bind].
    rewrite Hnamed. cbn [mbind result_bind]. rewrite Hlatest, bool_decide_eq_false_2; [done|]. cbn. congruence.
Qed.

Lemma new_binding_ok t identity k b t' : credentials_wf t -> new_binding t identity k = Ok (b, t') ->
  b = mkBinding k identity "bearer" "stored_secret" true /\ credential_bindings t !! k = None
  /\ t' = mkCredentials (<[k := b]> (credential_bindings t)) (secret_versions t) /\ credentials_wf t'.
Proof.
  intros [Hb Hv Ho] [Hn [= <- <-]]%guard_bind_ok. destruct (credential_bindings t !! k) eqn:E; [done|].
  split; [done|]. split; [done|]. split; [done|]. split; cbn.
  - intros j c [[<- <-] | [_ Hj]]%lookup_insert_Some; [done | by apply Hb].
  - done.
  - intros j v Hj. apply lookup_insert_is_Some'. right. by eapply Ho.
Qed.

Lemma store_token_wf t b token nonce v t' : credentials_wf t -> is_Some (credential_bindings t !! binding_id b) ->
  store_token seal settings t b token nonce v = Ok t' -> credentials_wf t'.
Proof.
  intros [Hb Hv Ho] Hin (c & e & _ & _ & _ & Hn & ->)%store_token_ok. split; cbn; [done | |].
  - intros j w [[<- <-] | [_ Hj]]%lookup_insert_Some; [done | by apply Hv].
  - intros j w [[<- <-] | [_ Hj]]%lookup_insert_Some; [done | by eapply Ho].
Qed.

(** Another identity's resolution looks at other bindings and versions. *)
Lemma store_token_others t b token nonce v t' i j : credentials_wf t -> (forall k w, secret_versions t !! k = Some w -> k < v) ->
  store_token seal settings t b token nonce v = Ok t' -> credential_bindings t !! binding_id b = Some b ->
  usable i b = true -> identity_id j <> i -> resolve unseal settings j t' = resolve unseal settings j t.
Proof.
  intros Hw Hnew (c & e & _ & _ & _ & Hn & ->)%store_token_ok Hb Hu Hne. unfold resolve.
  change (matching_bindings (mkCredentials _ _) (identity_id j)) with (matching_bindings t (identity_id j)).
  destruct (may_authenticate j); [|done]. cbn [guard_or mbind result_bind].
  destruct (matching_bindings t (identity_id j)) as [|bj [|]] eqn:Em; [done | | done].
  apply matching_usable in Em as [Huj Hbj]; [|done]. set (row := mkVersion v (binding_id b) e ENVELOPE_VERSION (cipher_key_version c)).
  change v with (secret_version_id row). rewrite latest_inserted by done. cbn [row credential_binding_id].
  destruct (Z.eqb_spec (binding_id b) (binding_id bj)) as [E|_]; [|done]. exfalso. rewrite <- E, Hb in Hbj. injection Hbj as <-.
  unfold usable in Hu, Huj. bool_simpl. congruence.
Qed.

Lemma new_binding_others t b identity k t' j : credentials_wf t -> new_binding t identity k = Ok (b, t') ->
  identity_id j <> identity -> resolve unseal settings j t' = resolve unseal settings j t.
Proof.
  intros Hw H Hne. assert (Hw' := H). apply new_binding_ok in Hw' as (-> & Hn & -> & _); [|done]. unfold resolve.
  set (b := mkBinding k identity "bearer" "stored_secret" true). change k with (binding_id b).
  rewrite matching_inserted by done. assert (Hu : usable (identity_id j) b = false).
  { unfold usable. cbn. by rewrite (proj2 (Z.eqb_neq _ _)). }
  rewrite Hu. destruct (may_authenticate j); [|done]. cbn [guard_or mbind result_bind].
  destruct (matching_bindings t (identity_id j)) as [|bj [|]]; [done | | done].
  change (latest_version (mkCredentials _ _) (binding_id bj)) with (latest_version t (binding_id bj)).
  destruct (latest_version t (binding_id bj)) as [v|] eqn:El; [|done]. cbn [require mbind result_bind].
  assert (Hv : is_Some (credential_bindings t !! credential_binding_id v)).
  { unfold latest_version in El. apply last_Some_elem_of in El. rewrite order_by_perm in El.
    apply list_elem_of_In, filter_In in El as [El _]. apply list_elem_of_In, elem_of_rows in El as [i Hi]. by eapply wf_owners. }
  unfold load_token, load_secret. cbn [credential_bindings]. rewrite lookup_insert_ne; [done|].
  intros E. cbn in E. rewrite <- E, Hn in Hv. by destruct Hv.
Qed.

(** The creation of an identity stores its token as an update of one without bindings does. *)
Lemma provision_update i token nonce binding version t t' :
  (forall k b, credential_bindings t !! k = Some b -> binding_test_identity_id b <> identity_id i) ->
  provision seal settings i token nonce binding version t = Ok t' ->
  matching_bindings t (identity_id i) = [] /\ update seal settings (Some i) token nonce binding version t = Ok t'.
Proof.
  intros Hnone H. assert (Hm : matching_bindings t (identity_id i) = []).
  { unfold matching_bindings. rewrite filter_all_false; [done|]. apply Forall_forall. intros b [k Hk]%elem_of_rows. specialize (Hnone k b Hk). unfold usable.
    by rewrite (proj2 (Z.eqb_neq _ _)). }
  split; [done|]. unfold provision in H. apply guard_bind_ok in H as [Ht H]. unfold update.
  cbn [require mbind result_bind]. by rewrite Ht, Hm.
Qed.

(** What [update] writes: a version of the identity's one binding, which is new if it had none. *)
Lemma update_stored i token nonce binding version t t' : credentials_wf t ->
  update seal settings (Some i) token nonce binding version t = Ok t' ->
  exists b t1, auth_type i = "bearer" /\ store_token seal settings t1 b token nonce version = Ok t' /\ credentials_wf t1
    /\ secret_versions t1 = secret_versions t /\ credential_bindings t1 !! binding_id b = Some b
    /\ usable (identity_id i) b = true /\ matching_bindings t1 (identity_id i) = [b]
    /\ (t1 = t \/ new_binding t (identity_id i) binding = Ok (b, t1))
    /\ (matching_bindings t (identity_id i) = [] -> new_binding t (identity_id i) binding = Ok (b, t1)).
Proof.
  intros Hw H. unfold update in H. cbn [require mbind result_bind] in H. apply guard_bind_ok in H as [Ht H].
  bool_simpl. destruct (matching_bindings t (identity_id i)) as [|b [|]] eqn:Em; [| |done].
  - apply bind_ok in H as ([b t1] & Hb & H). exists b, t1. assert (Hb' := Hb).
    apply new_binding_ok in Hb' as (Eb & Hfree & Et & Hw1); [|done].
    assert (Hu : usable (identity_id i) b = true) by (rewrite Eb; unfold usable; cbn; by rewrite Z.eqb_refl).
    split_and!; try done; [by rewrite Et | rewrite Et, Eb; apply lookup_insert_eq | | by right].
    rewrite Et. replace binding with (binding_id b) in * by by rewrite Eb. rewrite matching_inserted, Hu by done.
    by rewrite (matching_nil _ _ Em).
  - destruct (matching_usable _ _ _ _ Em Hw) as [Hu Hrow]. exists b, t. split_and!; try done. by left.
Qed.

(** C25: A token that was stored is the token that requests carry. When a bearer identity gets
    a token, at its creation (it has no binding yet) or later, with a new key above the old
    ones and a nonce of 12 bytes, one version is added, under an active bearer binding of this
    identity, which is the new row at its creation; every later resolution for the identity
    gives exactly that token, UTF-8 text of any content; a dispatcher that pinned an older
    version of it is refused; the other rows stay, and the other identities resolve as
    before. *)
Theorem token_roundtrip i token nonce binding version t t' : aead -> credentials_wf t ->
  update seal settings (Some i) token nonce binding version t = Ok t' \/
    provision seal settings i token nonce binding version t = Ok t' /\
    (forall k b, credential_bindings t !! k = Some b -> binding_test_identity_id b <> identity_id i) ->
  (forall k v, secret_versions t !! k = Some v -> k < version) ->
  0 < version -> byte_len nonce = NONCE_SIZE_BYTES -> utf8_valid token = true -> identity_is_active i = true ->
  auth_type i = "bearer" /\ credentials_wf t' /\ resolve unseal settings i t' = Ok token
  /\ (exists b row, credential_bindings t' !! b = Some row /\ binding_test_identity_id row = identity_id i
        /\ binding_auth_type row = "bearer" /\ source_type row = "stored_secret" /\ binding_is_active row = true
        /\ (provision seal settings i token nonce binding version t = Ok t' ->
             (forall k b, credential_bindings t !! k = Some b -> binding_test_identity_id b <> identity_id i) ->
             b = binding /\ credential_bindings t !! binding = None)
        /\ (exists v, secret_versions t' !! version = Some v /\ credential_binding_id v = b)
        /\ resolve_binding unseal settings i b t' = Ok token /\ resolve_exact unseal settings i b version t' = Ok token
        /\ forall v', v' <> version -> is_ok (resolve_exact unseal settings i b v' t') = false)
  /\ (forall k, k <> version -> secret_versions t' !! k = secret_versions t !! k)
  /\ (forall k, k <> binding -> credential_bindings t' !! k = credential_bindings t !! k)
  /\ forall j, identity_id j <> identity_id i -> resolve unseal settings j t' = resolve unseal settings j t.
Proof.
  intros Hlaw Hw H Hnew Hpos Hn Hp Hact.
  assert (Hupdate : update seal settings (Some i) token nonce binding version t = Ok t').
  { destruct H as [H|[H Hnone]]; [done|]. by eapply provision_update. }
  destruct (update_stored _ _ _ _ _ _ _ Hw Hupdate) as (b & t1 & Ht & Hst & Hw1 & Hv1 & Hrow & Hu & Hm1 & Horigin & Hfresh).
  assert (Hm : may_authenticate i = true) by (unfold may_authenticate; by rewrite Hact, Ht).
  destruct (stored_resolves t1 b token nonce version t' i) as (R1 & R2 & R3 & R4); try done; [by rewrite Hv1|].
  assert (Hst' := Hst). apply store_token_ok in Hst' as (c & e & _ & _ & Hsrc & _ & Et').
  assert (Hb' : credential_bindings t' = credential_bindings t1) by by rewrite Et'.
  assert (Hu' := Hu). unfold usable in Hu'. bool_simpl.
  split; [done|]. split; [by eapply store_token_wf; [apply Hw1 | by eexists | done]|]. split; [done|].
  split; [|split; [|split]].
  - exists (binding_id b), b. rewrite Hb'. split_and!; try done.
    + intros Hprov Hnone. destruct (provision_update _ _ _ _ _ _ _ Hnone Hprov) as [Hnil _].
      apply Hfresh, new_binding_ok in Hnil as (-> & ? & _); [done | done].
    + rewrite Et'. cbn. eexists. by rewrite lookup_insert_eq.
  - intros k Hk. rewrite Et'. cbn. by rewrite lookup_insert_ne, Hv1 by done.
  - intros k Hk. rewrite Hb'. destruct Horigin as [-> | Hnb]; [done|].
    apply new_binding_ok in Hnb as (_ & _ & -> & _); [|done]. cbn. by apply lookup_insert_ne.
  - intros j Hj. rewrite (store_token_others t1 b token nonce version t' (identity_id i) j) by (try done; by rewrite Hv1).
    destruct Horigin as [-> | Hnb]; [done|]. by eapply new_binding_others.
Qed.

(** An envelope opens only where it belongs. If an envelope that was made for one binding,
    under one key, is opened for another binding, or under another version of the key, then
    two different inputs of the cipher have the same sealed bytes under one nonce; else it
    is the same binding and gives the token that was sealed. *)
Theorem envelope_bound c c' nonce token b b' e got : aead -> byte_len nonce = NONCE_SIZE_BYTES ->
  encrypt seal c nonce token b = Ok e -> decrypt unseal c' e b' = Ok got ->
  (b' = b /\ cipher_key_version c' = cipher_key_version c /\ (cipher_key c' = cipher_key c -> got = token))
  \/ exists a a' sealed, a <> a' /\ associated_data c b = Ok a /\ associated_data c' b' = Ok a'
       /\ seal (cipher_key c) nonce token a = Some sealed /\ seal (cipher_key c') nonce got a' = Some sealed.
Proof.
  intros Hlaw Hn (a & Ha & (sealed & Hs & He)%require_bind_ok)%bind_ok Hd.
  assert (e = join "." [version_mark; b64_encode nonce; b64_encode sealed]) as -> by congruence.
  unfold decrypt in Hd. rewrite split_envelope in Hd. apply guard_bind_ok in Hd as [_ Hd]. rewrite !b64_roundtrip in Hd.
  cbn [require mbind result_bind] in Hd. apply guard_bind_ok in Hd as [_ (a' & Ha' & (p & Hp & Hd)%require_bind_ok)%bind_ok].
  apply guard_bind_ok in Hd as [_ [= <-]]. apply Hlaw in Hp. destruct (decide (a = a')) as [<-|Hne].
  - left. destruct (associated_injective _ _ _ _ _ Ha Ha') as [-> ->]. split; [done|]. split; [done|]. intros Hk.
    rewrite Hk in Hp. apply Hlaw in Hs, Hp. congruence.
  - right. by exists a, a', sealed.
Qed.
End tokens.

(** * Witnesses *)

(** A transparent cipher with the law: what is sealed is the data and the token. *)
Definition lab_seal (k n p a : string) : option string := Some (a +:+ p).
Definition lab_unseal (k n c a : string) : option string :=
  if startswith a c then Some (str_drop (String.length a) c) else None.

Lemma lab_aead : aead lab_seal lab_unseal.
Proof.
  intros k n p a c. unfold lab_seal, lab_unseal. split.
  - intros [= <-]. rewrite (proj2 (startswith_app a (a +:+ p))) by by eexists. f_equal. apply str_drop_app.
  - case_if; [|done]. apply startswith_app in E as [t ->]. rewrite str_drop_app. congruence.
Qed.

Definition lab_settings : Settings := mkSettings (Some (b64_encode "0123456789abcdef0123456789abcdef")) "k1".
Definition lab_nonce : string := "nonce-nonce-".
Definition lab_credentials : CredentialTables := mkCredentials {[ 81 := mkBinding 81 22 "bearer" "stored_secret" true ]} ∅.
Definition lab_stored_credentials : CredentialTables :=
  default lab_credentials (ok_option (update lab_seal lab_settings (Some lab_bob) "s3cret" lab_nonce 82 91 lab_credentials)).

(** The same identity before it had a binding. *)
Definition lab_new_credentials : CredentialTables :=
  default lab_credentials
    (ok_option (provision lab_seal lab_settings lab_bob "s3cret" lab_nonce 82 91 (mkCredentials ∅ ∅))).

Lemma token_roundtrip_witness :
  resolve lab_unseal lab_settings lab_bob lab_stored_credentials = Ok "s3cret" /\
  resolve lab_unseal lab_settings lab_bob lab_new_credentials = Ok "s3cret".
Proof.
  split.
  - apply (token_roundtrip lab_seal lab_unseal lab_settings lab_bob "s3cret" lab_nonce 82 91 lab_credentials).
    + apply lab_aead.
    + split; [| intros k v H; discriminate H ..]. intros k b H. cbn in H. apply lookup_singleton_Some in H as [<- <-]. reflexivity.
    + left. vm_compute. reflexivity.
    + intros k v H. discriminate H.
    + lia.
    + reflexivity.
    + reflexivity.
    + reflexivity.
  - apply (token_roundtrip lab_seal lab_unseal lab_settings lab_bob "s3cret" lab_nonce 82 91 (mkCredentials ∅ ∅)).
    + apply lab_aead.
    + split; intros k v H; discriminate H.
    + right. split; [vm_compute; reflexivity|]. intros k b H. discriminate H.
    + intros k v H. discriminate H.
    + lia.
    + reflexivity.
    + reflexivity.
    + reflexivity.
Defined.

Lemma envelope_bound_witness : exists e c, encrypt lab_seal c lab_nonce "s3cret" 81 = Ok e
  /\ ((81 = 81 /\ cipher_key_version c = cipher_key_version c /\ (cipher_key c = cipher_key c -> "s3cret" = "s3cret"))
      \/ exists a a' sealed, a <> a' /\ associated_data c 81 = Ok a /\ associated_data c 81 = Ok a'
           /\ lab_seal (cipher_key c) lab_nonce "s3cret" a = Some sealed
           /\ lab_seal (cipher_key c) lab_nonce "s3cret" a' = Some sealed).
Proof.
  exists (join "." [version_mark; b64_encode lab_nonce; b64_encode "credential-secret:v1:binding:81:key:k1s3cret"]),
    (mkCipher "0123456789abcdef0123456789abcdef" "k1"). split; [vm_compute; reflexivity|].
  eapply (envelope_bound lab_seal lab_unseal).
  - apply lab_aead.
  - reflexivity.
  - vm_compute. reflexivity.
  - vm_compute. reflexivity.
Defined.
