(* ===== verification/ResearchClock.v ===== *)
(** The clock of the research workflow: src/backend/app/services/research_verification_clock.py
    (samples, windows and marks), research_verification_fault.py (the fence of an intent) and
    [bind_clock] of research_verification.py.

    An operation may fail after it changed the clock and the tables: its result and its state
    are separate. Instants are microseconds, monotonic readings nanoseconds; the readings and
    the fences whose transaction fails are arguments of the operations. *)

From stdpp Require Import gmap.
From S2P Require Import Prelude.
From S2P Require Import PyStr.
From S2P Require Import Tables.

Open Scope Z_scope.

(** An exact version of an intent, as documents refer to it. *)
Record Reference := mkReference { ref_number : Z; ref_version : Z; ref_digest : string }.
#[export] Instance Reference_eq_dec : EqDecision Reference.
Proof. solve_decision. Defined.

(** The key of a consumer: its context and its reference. *)
Abbreviation intent_key := (Z * Reference)%type.

Record Consumer := mkConsumer { consumer_project : Z; consumer_context : Z; consumer_reference : Reference }.

Record Mark := mkMark { mark_at : Z; monotonic_ns : Z; clock_domain : string }.
#[export] Instance Mark_eq_dec : EqDecision Mark.
Proof. solve_decision. Defined.

(** A dict in the order of insertion. *)
Section dicts.
Context {K : Type} `{EqDecision K} {V : Type}.

Fixpoint dict_get (k : K) (d : list (K * V)) : option V :=
  match d with [] => None | (k', v) :: d' => if decide (k' = k) then Some v else dict_get k d' end.
Fixpoint dict_set (k : K) (v : V) (d : list (K * V)) : list (K * V) :=
  match d with [] => [(k, v)] | (k', v') :: d' => if decide (k' = k) then (k, v) :: d' else (k', v') :: dict_set k v d' end.
End dicts.

(** A window and a mark with its limits, and the consumers that they concern. *)
Abbreviation window_key := (Z * Z)%type.
Abbreviation boundary_key := (Mark * option Z * option Z)%type.

Record Clock := mkClock {
  clock_last : option Z;
  clock_ns : Z;
  boundaries : list (boundary_key * list intent_key);
  windows : list (window_key * list intent_key);
  consumers : list (intent_key * Consumer);
  active : list intent_key;
  poisoned : bool
}.

Definition new_clock : Clock := mkClock None 0 [] [] [] [] false.

Definition with_sample (at_ ns : Z) (c : Clock) : Clock :=
  mkClock (Some at_) ns (boundaries c) (windows c) (consumers c) (active c) (poisoned c).
Definition with_boundaries b (c : Clock) : Clock :=
  mkClock (clock_last c) (clock_ns c) b (windows c) (consumers c) (active c) (poisoned c).
Definition with_windows w (c : Clock) : Clock :=
  mkClock (clock_last c) (clock_ns c) (boundaries c) w (consumers c) (active c) (poisoned c).
Definition with_consumers k a (c : Clock) : Clock :=
  mkClock (clock_last c) (clock_ns c) (boundaries c) (windows c) k a (poisoned c).
Definition with_poison (c : Clock) : Clock :=
  mkClock (clock_last c) (clock_ns c) (boundaries c) (windows c) (consumers c) (active c) true.

(** * The tables behind the fences *)

Record IntentVersion := mkIntent {
  intent_id : Z;
  intent_context_id : Z;
  intent_reference : Reference
}.
Record VerificationClockFault := mkFault { fault_intent_id : Z; fault_context_id : Z; fault_digest : string }.

(** The contexts with their project numbers, the committed intents, and the faults by intent. *)
Record World := mkWorld {
  research_contexts : gmap Z Z;
  intent_versions : gmap Z IntentVersion;
  clock_faults : gmap Z VerificationClockFault
}.

Inductive clock_error : Type :=
| IntentError (code : string) (status : Z)
| FaultTransactionError.
#[export] Instance clock_error_eq_dec : EqDecision clock_error.
Proof. solve_decision. Defined.
Definition refused (code : string) : clock_error := IntentError code 409.

Definition is_intent (context : Z) (r : Reference) (i : IntentVersion) : bool :=
  (intent_context_id i =? context) && bool_decide (intent_reference i = r).

(** [record]: one fence per intent, in a transaction of its own. *)
Definition record (k : Consumer) (w : World) : World :=
  if negb (bool_decide (research_contexts w !! consumer_context k = Some (consumer_project k))) then w
  else match find_first (is_intent (consumer_context k) (consumer_reference k)) (rows (intent_versions w)) with
  | None => w
  | Some row =>
      match clock_faults w !! intent_id row with
      | Some _ => w
      | None => mkWorld (research_contexts w) (intent_versions w)
                  (<[intent_id row := mkFault (intent_id row) (consumer_context k) (ref_digest (intent_reference row))]>
                     (clock_faults w))
      end
  end.

(** [check]: whether the exact intent has a fence. *)
Definition fenced (context : Z) (r : Reference) (w : World) : bool :=
  existsb (fun f => (fault_context_id f =? context) && bool_decide (fault_digest f = ref_digest r)
                    && match intent_versions w !! fault_intent_id f with
                       | Some i => is_intent context r i
                       | None => false
                       end)
    (rows (clock_faults w)).

(** * Operations *)

Definition op (A : Type) : Type := Clock * World -> result clock_error A * (Clock * World).

#[export] Instance op_ret : MRet op := fun A a s => (Ok a, s).
#[export] Instance op_bind : MBind op := fun A B f m s =>
  match m s with (Ok a, s') => f a s' | (Raise e, s') => (Raise e, s') end.

Definition fail {A} (e : clock_error) : op A := fun s => (Raise e, s).
Definition get_clock : op Clock := fun s => (Ok s.1, s).
Definition set_clock (c : Clock) : op unit := fun s => (Ok tt, (c, s.2)).
Definition get_world : op World := fun s => (Ok s.2, s).
Definition set_world (w : World) : op unit := fun s => (Ok tt, (s.1, w)).
Definition demand (b : bool) (e : clock_error) : op unit := if b then mret tt else fail e.

(** What an operation reads: the wall clock ([None] when it has no offset), the monotonic clock,
    and the fences whose transaction fails. *)
Record Reading := mkReading { read_wall : option Z; read_ns : Z; read_lost : Consumer -> bool }.

(** The transactions of the fences, in the order in which the consumers were bound. *)
Fixpoint record_all (lost : Consumer -> bool) (l : list Consumer) : op unit :=
  match l with
  | [] => mret tt
  | k :: l' => if lost k then fail FaultTransactionError
               else w ← get_world; _ ← set_world (record k w); record_all lost l'
  end.

(** [invalidate]: [None] concerns every consumer. *)
Definition concerned (selected : option (list intent_key)) (c : Clock) : list Consumer :=
  map snd (List.filter (fun k => match selected with None => true | Some l => bool_decide (k.1 ∈ l) end) (consumers c)).

Definition invalidate (lost : Consumer -> bool) (selected : option (list intent_key)) : op unit :=
  c ← get_clock;
  _ ← set_clock (with_poison c);
  record_all lost (concerned selected c).

Definition expire (lost : Consumer -> bool) (selected : option (list intent_key)) : op unit :=
  c ← get_clock;
  invalidate lost (Some (match selected with Some l => l | None => active c end)).

Section clock.
(** [DOMAIN]: the boot of the host. *)
Variable DOMAIN : string.

(** The freshness of a mark at the last sample. *)
Definition anomalous (m : Mark) (at_ ns : Z) : bool :=
  negb (bool_decide (clock_domain m = DOMAIN)) || (monotonic_ns m <? 0) || (ns <? monotonic_ns m) || (at_ <? mark_at m).
Definition window_over (m : Mark) (end_ : option Z) (at_ ns : Z) : bool :=
  match end_ with
  | Some e => (e <=? at_) || ((e - mark_at m) * 1000 <=? ns - monotonic_ns m)
  | None => false
  end.
Definition seconds_over (m : Mark) (seconds : option Z) (at_ ns : Z) : bool :=
  match seconds with
  | Some n => (mark_at m + n * 1000000 <=? at_) || (n * 1000000000 <=? ns - monotonic_ns m)
  | None => false
  end.

(** [_check] *)
Definition check_freshness (lost : Consumer -> bool) (b : boundary_key) (selected : option (list intent_key)) : op unit :=
  let '(m, seconds, end_) := b in
  c ← get_clock;
  let at_ := default 0 (clock_last c) in
  if anomalous m at_ (clock_ns c) then _ ← invalidate lost None; fail (refused "verification_clock_anomaly")
  else if window_over m end_ at_ (clock_ns c) || seconds_over m seconds at_ (clock_ns c) then
    _ ← expire lost selected; fail (refused "verification_expired")
  else mret tt.

Fixpoint check_windows (lost : Consumer -> bool) (at_ : Z) (l : list (window_key * list intent_key)) : op unit :=
  match l with
  | [] => mret tt
  | ((start, end_), affected) :: l' =>
      if (start <=? at_) && (at_ <? end_) then check_windows lost at_ l'
      else _ ← expire lost (Some affected); fail (refused "intent_expired")
  end.
Fixpoint check_boundaries (lost : Consumer -> bool) (l : list (boundary_key * list intent_key)) : op unit :=
  match l with
  | [] => mret tt
  | (b, affected) :: l' => _ ← check_freshness lost b (Some affected); check_boundaries lost l'
  end.

Definition backwards (c : Clock) (at_ ns : Z) : bool :=
  (ns <? 0) || match clock_last c with Some last => (at_ <? last) || (ns <? clock_ns c) | None => false end.

(** [Clock.__call__] *)
Definition sample (r : Reading) : op Z :=
  c ← get_clock;
  _ ← demand (negb (poisoned c)) (refused "verification_clock_invalidated");
  match read_wall r with
  | None => fail (IntentError "intent_invalid_clock" 422)
  | Some at_ =>
      if backwards c at_ (read_ns r) then _ ← invalidate (read_lost r) None; fail (refused "intent_clock_invalid")
      else
        _ ← set_clock (with_sample at_ (read_ns r) c);
        _ ← check_windows (read_lost r) at_ (windows c);
        _ ← check_boundaries (read_lost r) (boundaries c);
        mret at_
  end.

(** [bind_intent] and [bind_clock], which refuses an intent that has a fence. *)
Definition bind_intent (project context : Z) (r : Reference) : op unit :=
  c ← get_clock;
  let key := (context, r) in
  _ ← demand (bool_decide (key ∈ map fst (consumers c)) || bool_decide (length (consumers c) < 4)%nat)
        (refused "verification_clock_limit");
  set_clock (with_consumers (dict_set key (mkConsumer project context r) (consumers c)) (key :: active c) c).
Definition bind_clock (project context : Z) (r : Reference) : op unit :=
  _ ← bind_intent project context r;
  w ← get_world;
  demand (negb (fenced context r w)) (refused "verification_clock_invalidated").

Definition has_room (c : Clock) : bool := bool_decide (length (windows c) + length (boundaries c) < 64)%nat.

Definition watch_window (start end_ : Z) : op unit :=
  c ← get_clock;
  let known := dict_get (start, end_) (windows c) in
  _ ← demand (negb (is_none known) || has_room c) (refused "verification_clock_limit");
  set_clock (with_windows (dict_set (start, end_) (active c ++ default [] known) (windows c)) c).

(** [dependency]: what a nested intent binds is not concerned by later deadlines. *)
Definition dependency {A} (m : op A) : op A := fun s =>
  let '(r, s') := m s in
  (r, (with_consumers (consumers s'.1) (active s.1) s'.1, s'.2)).

(** [mark] *)
Definition take_mark (r : Reading) : op Mark :=
  at_ ← sample r;
  mret (mkMark at_ (read_ns r) DOMAIN).

(** [check_mark] *)
Definition check_mark (r : Reading) (m : Mark) (seconds end_ : option Z) : op Z :=
  at_ ← sample r;
  _ ← check_freshness (read_lost r) (m, seconds, end_) None;
  if is_none seconds && is_none end_ then mret at_
  else
    c ← get_clock;
    let key := (m, seconds, end_) in
    let known := dict_get key (boundaries c) in
    _ ← demand (negb (is_none known) || has_room c) (refused "verification_clock_limit");
    _ ← set_clock (with_boundaries (dict_set key (active c ++ default [] known) (boundaries c)) c);
    mret at_.

(** * What clients may do with a clock, in any order, whatever they do with the errors

    Meanwhile other requests commit intents and fences. The versions of an intent are unique. *)
Inductive clock_event : Type :=
| Sampled (r : Reading)
| Bound (project context : Z) (r : Reference)
| Watched (start end_ : Z)
| Checked (r : Reading) (m : Mark) (seconds end_ : option Z)
| Expired (lost : Consumer -> bool)
| Restored (previous : list intent_key)
| Stored (i : IntentVersion)
| FencedElsewhere (k : Consumer).

Definition restore (previous : list intent_key) : op unit :=
  c ← get_clock; set_clock (with_consumers (consumers c) previous c).

Definition same_version (i j : IntentVersion) : bool :=
  (intent_context_id i =? intent_context_id j) && (ref_number (intent_reference i) =? ref_number (intent_reference j))
  && (ref_version (intent_reference i) =? ref_version (intent_reference j)).
Definition commit_intent (i : IntentVersion) (w : World) : World :=
  if is_none (intent_versions w !! intent_id i) && negb (existsb (same_version i) (rows (intent_versions w))) then
    mkWorld (research_contexts w) (<[intent_id i := i]> (intent_versions w)) (clock_faults w)
  else w.

Definition after {A} (m : op A) (s : Clock * World) : Clock * World := (m s).2.

Definition clock_step (s : Clock * World) (e : clock_event) : Clock * World :=
  match e with
  | Sampled r => after (sample r) s
  | Bound project context r => after (bind_clock project context r) s
  | Watched start end_ => after (watch_window start end_) s
  | Checked r m seconds end_ => after (check_mark r m seconds end_) s
  | Expired lost => after (expire lost None) s
  | Restored previous => after (restore previous) s
  | Stored i => (s.1, commit_intent i s.2)
  | FencedElsewhere k => (s.1, record k s.2)
  end.
Definition clock_run (s : Clock * World) (l : list clock_event) : Clock * World := fold_left clock_step l s.
End clock.

(** The keys of the tables, the unique versions, and what a fence copies from its intent. *)
Record world_wf (w : World) : Prop := mkWorldWf {
  wf_intents : forall k i, intent_versions w !! k = Some i -> intent_id i = k;
  wf_unique : forall k j i i', intent_versions w !! k = Some i -> intent_versions w !! j = Some i' ->
    same_version i i' = true -> k = j;
  wf_faults : forall k f, clock_faults w !! k = Some f -> fault_intent_id f = k
    /\ exists i, intent_versions w !! k = Some i /\ fault_context_id f = intent_context_id i
         /\ fault_digest f = ref_digest (intent_reference i)
}.

(** A consumer whose intent is in the table. *)
Definition committed (w : World) (k : Consumer) : Prop :=
  research_contexts w !! consumer_context k = Some (consumer_project k)
  /\ exists j i, intent_versions w !! j = Some i /\ is_intent (consumer_context k) (consumer_reference k) i = true.

(** Why a sample stops a clock, and the consumers whose intents this ends. *)
Inductive stopped (DOMAIN : string) (c : Clock) (r : Reading) : clock_error -> (intent_key -> Prop) -> Prop :=
| stopped_backwards at_ : read_wall r = Some at_ -> backwards c at_ (read_ns r) = true ->
    stopped DOMAIN c r (refused "intent_clock_invalid") (fun _ => True)
| stopped_window at_ start end_ affected : read_wall r = Some at_ -> ((start, end_), affected) ∈ windows c ->
    (start <=? at_) && (at_ <? end_) = false ->
    stopped DOMAIN c r (refused "intent_expired") (fun k => k ∈ affected)
| stopped_anomaly at_ m n e affected : read_wall r = Some at_ -> ((m, n, e), affected) ∈ boundaries c ->
    anomalous DOMAIN m at_ (read_ns r) = true ->
    stopped DOMAIN c r (refused "verification_clock_anomaly") (fun _ => True)
| stopped_over at_ m n e affected : read_wall r = Some at_ -> ((m, n, e), affected) ∈ boundaries c ->
    window_over m e at_ (read_ns r) || seconds_over m n at_ (read_ns r) = true ->
    stopped DOMAIN c r (refused "verification_expired") (fun k => k ∈ affected).

(** * Lemmas *)

Section dict_lemmas.
Context {K : Type} `{EqDecision K} {V : Type}.
Implicit Types d : list (K * V).

Lemma dict_get_in k v d : dict_get k d = Some v -> (k, v) ∈ d.
Proof.
  induction d as [|[k' v'] d IH]; cbn; [done|]. case_decide as E; [intros [= ->]; subst; left|]. intros H. right. auto.
Qed.

Lemma dict_get_set k k' v d : dict_get k' (dict_set k v d) = if decide (k = k') then Some v else dict_get k' d.
Proof.
  induction d as [|[k1 v1] d IH]; cbn; [by repeat case_decide|].
  destruct (decide (k1 = k)) as [->|]; cbn; [|rewrite IH]; repeat case_decide; congruence.
Qed.

Lemma dict_set_in k v x d : x ∈ dict_set k v d -> x = (k, v) \/ x ∈ d.
Proof.
  induction d as [|[k1 v1] d IH]; cbn.
  - intros ->%list_elem_of_singleton. by left.
  - case_decide; intros [->|Hx]%elem_of_cons; [by left | by right; right | right; left | ].
    destruct (IH Hx) as [->|]; [by left | by right; right].
Qed.
End dict_lemmas.

(** Nothing that a clock watches is dropped, time goes on, and fences remain. *)
Definition kept {K} `{EqDecision K} (d d' : list (K * list intent_key)) : Prop :=
  forall k a, dict_get k d = Some a -> exists a', dict_get k d' = Some a' /\ a ⊆ a'.

Lemma kept_refl {K} `{EqDecision K} (d : list (K * list intent_key)) : kept d d.
Proof. intros k a H. by exists a. Qed.
Lemma kept_trans {K} `{EqDecision K} (d1 d2 d3 : list (K * list intent_key)) : kept d1 d2 -> kept d2 d3 -> kept d1 d3.
Proof. intros H1 H2 k a (a' & H & Ha)%H1. apply H2 in H as (b & H & Hb). exists b. split; [done | by etrans]. Qed.
Lemma kept_set {K} `{EqDecision K} k l (d : list (K * list intent_key)) : kept d (dict_set k (l ++ default [] (dict_get k d)) d).
Proof.
  intros k' a H. rewrite dict_get_set. case_decide as E; [subst|by exists a]. rewrite H. eexists. split; [done|]. cbn.
  intros x Hx. apply elem_of_app. by right.
Qed.

Record clock_kept (c c' : Clock) : Prop := mkClockKept {
  kept_windows : kept (windows c) (windows c');
  kept_boundaries : kept (boundaries c) (boundaries c');
  kept_time : forall l, clock_last c = Some l ->
    exists l', clock_last c' = Some l' /\ l <= l' /\ clock_ns c <= clock_ns c';
  kept_poison : poisoned c = true -> poisoned c' = true
}.
Record world_kept (w w' : World) : Prop := mkWorldKept {
  kept_contexts : research_contexts w' = research_contexts w;
  kept_intents : intent_versions w ⊆ intent_versions w';
  kept_faults : clock_faults w ⊆ clock_faults w';
  kept_wf : world_wf w -> world_wf w'
}.
Definition grows (s s' : Clock * World) : Prop := clock_kept s.1 s'.1 /\ world_kept s.2 s'.2.

#[export] Instance clock_kept_preorder : PreOrder clock_kept.
Proof.
  split.
  - intros c. split; [apply kept_refl | apply kept_refl | | done]. intros l Hl. exists l. split; [done | lia].
  - intros c1 c2 c3 [W1 B1 T1 P1] [W2 B2 T2 P2]. split; [by eapply kept_trans | by eapply kept_trans | | auto].
    intros l (l1 & (l2 & H2 & ? & ?)%T2 & ? & ?)%T1. exists l2. split; [done | lia].
Qed.
Lemma clock_kept_same c c' : windows c' = windows c -> boundaries c' = boundaries c -> clock_last c' = clock_last c ->
  clock_ns c' = clock_ns c -> (poisoned c = true -> poisoned c' = true) -> clock_kept c c'.
Proof. intros Hw Hb Hl Hn Hp. assert (H := reflexivity c : clock_kept c c). destruct H. split; congruence || (rewrite ?Hw, ?Hb, ?Hl, ?Hn; done). Qed.
#[export] Instance world_kept_preorder : PreOrder world_kept.
Proof.
  split; [by intros w; split|]. intros w1 w2 w3 [C1 I1 F1 W1] [C2 I2 F2 W2].
  split; [congruence | by etrans | by etrans | auto].
Qed.
#[export] Instance grows_preorder : PreOrder grows.
Proof.
  split; [intros s; split; reflexivity|]. intros s1 s2 s3 [C1 W1] [C2 W2]. split; [by etrans | by etrans].
Qed.

Lemma record_kept k w : world_kept w (record k w).
Proof.
  unfold record. case_if; [done|]. destruct (find_first _ _) as [row|] eqn:Er; [|done].
  destruct (clock_faults w !! intent_id row) eqn:Ef; [done|]. split; [done | done | by apply insert_subseteq |].
  intros [Wi Wu Wf]. split; cbn; [done | done |]. intros j f [[<- <-] | [_ H]]%lookup_insert_Some; [|by apply Wf].
  apply find_rows_some in Er as [Hi [j Hj]]. rewrite (Wi _ _ Hj). unfold is_intent in Hi. bool_simpl.
  split; [done|]. exists row. rewrite Hj. done.
Qed.

Lemma commit_kept i w : world_kept w (commit_intent i w).
Proof.
  unfold commit_intent. case_if; [|done]. bool_simpl. assert (Hn : intent_versions w !! intent_id i = None) by by destruct (_ !! _).
  assert (Hu : forall k j, intent_versions w !! k = Some j -> same_version i j = false /\ same_version j i = false).
  { intros k j Hj. assert (Hs : same_version i j = false).
    { eapply (proj1 (existsb_rows _ _)); done. }
    split; [done|]. unfold same_version in *. by rewrite (Z.eqb_sym (intent_context_id j)), (Z.eqb_sym (ref_number _)),
      (Z.eqb_sym (ref_version _)). }
  split; [done | by apply insert_subseteq | done |].
  intros [Wi Wu Wf]. split; cbn.
  - intros k j [[<- <-] | [_ Hl]]%lookup_insert_Some; [done | by apply Wi].
  - intros k j x y [[<- <-] | [_ Hx]]%lookup_insert_Some [[<- <-] | [_ Hy]]%lookup_insert_Some Hs; try done.
    + destruct (Hu _ _ Hy) as [Hf _]. congruence.
    + destruct (Hu _ _ Hx) as [_ Hf]. congruence.
    + by eapply Wu.
  - intros k f (H1 & j & H2 & H3)%Wf. split; [done|]. exists j. split; [|done]. apply lookup_insert_Some. right.
    split; [congruence | done].
Qed.

(** Operations that only let the state grow, composed as the code composes them. *)
Definition growing {A} (m : op A) : Prop := forall s, grows s (m s).2.

Lemma growing_ret {A} (a : A) : growing (mret a).
Proof. by intros s. Qed.
Lemma growing_fail {A} e : growing (fail e : op A).
Proof. by intros s. Qed.
Lemma growing_demand b e : growing (demand b e).
Proof. by destruct b; intros s. Qed.
Lemma growing_bind {A B} (m : op A) (f : A -> op B) : growing m -> (forall a, growing (f a)) -> growing (m ≫= f).
Proof.
  intros Hm Hf s. unfold mbind, op_bind. specialize (Hm s). destruct (m s) as [[a|e] s']; [|done]. etrans; [apply Hm | apply Hf].
Qed.
Lemma growing_clock {A} (f : Clock -> op A) : (forall s, grows s (f s.1 s).2) -> growing (c ← get_clock; f c).
Proof. intros H s. apply H. Qed.
Lemma set_clock_grows {A} (c : Clock) (m : op A) s : clock_kept s.1 c -> growing m -> grows s ((_ ← set_clock c; m) s).2.
Proof. intros Hc Hm. unfold mbind, op_bind. cbn. etrans; [|apply Hm]. by split. Qed.

Lemma growing_record_all lost l : growing (record_all lost l).
Proof.
  induction l as [|k l IH]; [by intros s|]. cbn. case_if; [apply growing_fail|]. intros s. unfold mbind, op_bind. cbn.
  etrans; [|apply IH]. split; [done | apply record_kept].
Qed.
Lemma growing_invalidate lost sel : growing (invalidate lost sel).
Proof. apply growing_clock. intros s. apply set_clock_grows; [|apply growing_record_all]. by apply (clock_kept_same s.1). Qed.
Lemma growing_expire lost sel : growing (expire lost sel).
Proof. apply growing_clock. intros s. apply growing_invalidate. Qed.

Lemma growing_check_freshness D lost b sel : growing (check_freshness D lost b sel).
Proof.
  destruct b as [[m n] e]. apply growing_clock. intros s. case_if; [|case_if; [|done]].
  - apply growing_bind; [apply growing_invalidate | intros; apply growing_fail].
  - apply growing_bind; [apply growing_expire | intros; apply growing_fail].
Qed.
Lemma growing_check_windows lost at_ l : growing (check_windows lost at_ l).
Proof.
  induction l as [|[[start end_] a] l IH]; [apply growing_ret|]. cbn. case_if; [done|].
  apply growing_bind; [apply growing_expire | intros; apply growing_fail].
Qed.
Lemma growing_check_boundaries D lost l : growing (check_boundaries D lost l).
Proof.
  induction l as [|[b a] l IH]; [apply growing_ret|]. cbn. apply growing_bind; [apply growing_check_freshness | by intros].
Qed.

Lemma demand_true {A} e (m : op A) s : (_ ← demand true e; m) s = m s.
Proof. done. Qed.

Section steps.
Variable DOMAIN : string.

Lemma growing_sample r : growing (sample DOMAIN r).
Proof.
  apply growing_clock. intros s. destruct (poisoned s.1); [done|]. cbv beta. rewrite demand_true.
  destruct (read_wall r) as [at_|]; [|done]. destruct (backwards s.1 at_ (read_ns r)) eqn:Eb.
  - apply growing_bind; [apply growing_invalidate | intros; apply growing_fail].
  - apply set_clock_grows.
    + unfold backwards in Eb. bool_simpl. split; [apply kept_refl | apply kept_refl | | done]. cbn. intros l Hl.
      rewrite Hl in *. bool_simpl. exists at_. split; [done | lia].
    + apply growing_bind; [apply growing_check_windows | intros _]. apply growing_bind; [apply growing_check_boundaries | by intros].
Qed.

Lemma growing_bind_clock project context r : growing (bind_clock project context r).
Proof.
  apply growing_bind.
  - apply growing_clock. intros s. unfold mbind, op_bind. destruct (_ || _); [|done]. cbn. split; [|done].
    by apply clock_kept_same.
  - intros _ s. unfold mbind, op_bind, get_world. by destruct (fenced _ _ _).
Qed.

Lemma growing_watch start end_ : growing (watch_window start end_).
Proof.
  apply growing_clock. intros s. unfold mbind, op_bind. destruct (_ || _); [|done]. cbn. split; [|done].
  split; [apply kept_set | apply kept_refl | | done]. cbn. apply kept_time. done.
Qed.

Lemma growing_check_mark r m n e : growing (check_mark DOMAIN r m n e).
Proof.
  apply growing_bind; [apply growing_sample | intros at_]. apply growing_bind; [apply growing_check_freshness | intros _].
  case_if; [apply growing_ret|]. apply growing_clock. intros s. unfold mbind, op_bind. destruct (_ || _); [|done]. cbn.
  split; [|done]. split; [apply kept_refl | apply kept_set | | done]. cbn. apply kept_time. done.
Qed.

Lemma step_grows s e : grows s (clock_step DOMAIN s e).
Proof.
  destruct e; cbn.
  - apply growing_sample.
  - apply growing_bind_clock.
  - apply growing_watch.
  - apply growing_check_mark.
  - apply growing_expire.
  - split; [|done]. by apply clock_kept_same.
  - split; [done | apply commit_kept].
  - split; [done | apply record_kept].
Qed.

Lemma run_grows l s : grows s (clock_run DOMAIN s l).
Proof. revert s. induction l as [|e l IH]; intros s; [done|]. cbn. etrans; [apply step_grows | apply IH]. Qed.

(** What a sample that succeeds has checked. *)
Definition in_window (at_ : Z) (w : window_key * list intent_key) : Prop := w.1.1 <= at_ < w.1.2.
Definition fresh (at_ ns : Z) (b : boundary_key * list intent_key) : Prop :=
  let '(m, n, e) := b.1 in
  anomalous DOMAIN m at_ ns = false /\ window_over m e at_ ns = false /\ seconds_over m n at_ ns = false.

Lemma op_bind_ok {A B} (m : op A) (f : A -> op B) b s s' : (m ≫= f) s = (Ok b, s') ->
  exists a s1, m s = (Ok a, s1) /\ f a s1 = (Ok b, s').
Proof. unfold mbind, op_bind. destruct (m s) as [[a|e] s1]; [|done]. intros H. by exists a, s1. Qed.

Lemma check_windows_ok lost at_ l s u s' : check_windows lost at_ l s = (Ok u, s') -> s' = s /\ Forall (in_window at_) l.
Proof.
  induction l as [|[[start end_] a] l IH]; cbn; [by intros [= _ <-]|]. case_if.
  - intros [-> H]%IH. split; [done|]. constructor; [|done]. unfold in_window. cbn. bool_simpl. lia.
  - by intros (? & ? & _ & ?)%op_bind_ok.
Qed.

Lemma check_freshness_ok lost b sel s u s' : check_freshness DOMAIN lost b sel s = (Ok u, s') ->
  s' = s /\ fresh (default 0 (clock_last s.1)) (clock_ns s.1) (b, []).
Proof.
  destruct b as [[m n] e]. intros (c & s1 & [= <- <-] & H)%op_bind_ok. cbn in H. unfold fresh. cbn. destruct (anomalous _ _ _ _).
  { by apply op_bind_ok in H as (? & ? & _ & ?). }
  destruct (window_over _ _ _ _), (seconds_over _ _ _ _); cbn in H;
    [by apply op_bind_ok in H as (? & ? & _ & ?) .. |]. by injection H as _ <-.
Qed.

Lemma check_boundaries_ok lost l s u s' : check_boundaries DOMAIN lost l s = (Ok u, s') ->
  s' = s /\ Forall (fresh (default 0 (clock_last s.1)) (clock_ns s.1)) l.
Proof.
  induction l as [|[b a] l IH]; cbn; [by intros [= _ <-]|]. intros (? & s1 & [-> Hb]%check_freshness_ok & [-> H]%IH)%op_bind_ok.
  split; [done|]. by constructor.
Qed.

Lemma sample_ok r s at_ s' : sample DOMAIN r s = (Ok at_, s') ->
  poisoned s.1 = false /\ backwards s.1 at_ (read_ns r) = false /\ read_wall r = Some at_
  /\ s' = (with_sample at_ (read_ns r) s.1, s.2)
  /\ Forall (in_window at_) (windows s.1) /\ Forall (fresh at_ (read_ns r)) (boundaries s.1).
Proof.
  unfold sample. intros (c & s1 & [= <- <-] & H)%op_bind_ok. destruct (poisoned s.1); [done|].
  apply op_bind_ok in H as (u & s1 & [= _ <-] & H). destruct (read_wall r) as [a|]; [|done].
  destruct (backwards s.1 a (read_ns r)) eqn:Eb; [by apply op_bind_ok in H as (? & ? & _ & ?)|].
  apply op_bind_ok in H as (? & s1 & [= _ <-] & H). apply op_bind_ok in H as (? & s2 & [-> Hw]%check_windows_ok & H).
  apply op_bind_ok in H as (? & s3 & [-> Hb]%check_boundaries_ok & [= <- <-]). done.
Qed.

Lemma watch_ok start end_ s s' : watch_window start end_ s = (Ok tt, s') ->
  exists a, dict_get (start, end_) (windows s'.1) = Some a /\ active s.1 ⊆ a.
Proof.
  intros (c & s1 & [= <- <-] & (u & s2 & H & [= <-])%op_bind_ok)%op_bind_ok.
  unfold demand in H. destruct (_ || _); [|done]. injection H as _ <-. cbn. rewrite dict_get_set, decide_True by done.
  eexists. split; [done|]. apply list_subseteq_app_l. done.
Qed.

Lemma check_mark_ok r m n e s at_ s' : check_mark DOMAIN r m n e s = (Ok at_, s') ->
  clock_last s'.1 = Some at_
  /\ (is_none n && is_none e = false ->
      exists a, dict_get (m, n, e) (boundaries s'.1) = Some a /\ active s.1 ⊆ a).
Proof.
  intros (a & s1 & Hs & (u & s2 & [-> _]%check_freshness_ok & H)%op_bind_ok)%op_bind_ok.
  apply sample_ok in Hs as (_ & _ & _ & -> & _ & _). destruct (is_none n && is_none e); [by injection H as <- <-|].
  apply op_bind_ok in H as (c & s1 & [= <- <-] & (u1 & s2 & H & (u2 & s3 & [= _ <-] & [= <- <-])%op_bind_ok)%op_bind_ok).
  unfold demand in H. destruct (_ || _); [|done]. injection H as _ <-. split; [done|]. intros _. cbn.
  rewrite dict_get_set, decide_True by done. eexists. split; [done|]. apply list_subseteq_app_l. done.
Qed.

(** * Fences *)

Lemma fenced_spec context r w : fenced context r w = true <->
  exists k f i, clock_faults w !! k = Some f /\ fault_context_id f = context /\ fault_digest f = ref_digest r
    /\ intent_versions w !! fault_intent_id f = Some i /\ is_intent context r i = true.
Proof.
  unfold fenced. rewrite existsb_exists. split.
  - intros (f & [k Hk]%list_elem_of_In%elem_of_rows & H). destruct (intent_versions w !! fault_intent_id f) as [i|] eqn:Ei;
      bool_simpl; [|done]. by exists k, f, i.
  - intros (k & f & i & Hk & Hc & Hd & Hi & H). exists f. rewrite <- list_elem_of_In, elem_of_rows, Hi, Hc, Hd, Z.eqb_refl.
    split; [by exists k|]. by rewrite bool_decide_eq_true_2.
Qed.

Lemma fenced_kept context r w w' : world_kept w w' -> fenced context r w = true -> fenced context r w' = true.
Proof.
  intros [_ Ki Kf _] (k & f & i & Hf & Hc & Hd & Hi & H)%fenced_spec. apply fenced_spec. exists k, f, i.
  repeat split; try done; by eapply lookup_weaken.
Qed.

Lemma committed_kept w w' k : world_kept w w' -> committed w k -> committed w' k.
Proof.
  intros [Kc Ki _ _] [Hp (j & i & Hj & Hi)]. split; [by rewrite Kc|]. exists j, i. split; [by eapply lookup_weaken | done].
Qed.

Lemma record_fences k w : world_wf w -> committed w k ->
  fenced (consumer_context k) (consumer_reference k) (record k w) = true.
Proof.
  intros Hw [Hp (j & i & Hj & Hi)]. unfold record. rewrite bool_decide_eq_true_2 by done. cbn [negb].
  destruct (find_first _ _) as [row|] eqn:Er; [|by rewrite (find_rows_none _ _ Er _ _ Hj) in Hi].
  apply find_rows_some in Er as [Hr [k' Hk']]. assert (Hid := wf_intents _ Hw _ _ Hk'). apply fenced_spec.
  assert (Hrow := Hr). unfold is_intent in Hrow. bool_simpl. destruct (clock_faults w !! intent_id row) as [f|] eqn:Ef.
  - destruct (wf_faults _ Hw _ _ Ef) as (Hf & i' & Hi' & Hc & Hd). exists (intent_id row), f, row.
    rewrite Hf, Hid, Hk'. rewrite Hid, Hk' in Hi'. injection Hi' as <-. repeat split; congruence.
  - exists (intent_id row). eexists. exists row. cbn. rewrite lookup_insert_eq. split; [done|]. cbn. rewrite Hid. repeat split; congruence.
Qed.

Lemma record_all_fences lost l s s' : world_wf s.2 -> record_all lost l s = (Ok tt, s') ->
  forall k, k ∈ l -> committed s.2 k -> fenced (consumer_context k) (consumer_reference k) s'.2 = true.
Proof.
  revert s. induction l as [|k l IH]; intros s Hw H k' Hk' Hc; [by apply elem_of_nil in Hk'|]. cbn in H. destruct (lost k); [done|].
  apply op_bind_ok in H as (w & s1 & [= <- <-] & (u & s2 & [= _ <-] & H)%op_bind_ok).
  assert (Hk := record_kept k s.2). apply elem_of_cons in Hk' as [->|Hin].
  - eapply fenced_kept; [|by apply record_fences]. assert (Hg := growing_record_all lost l (s.1, record k s.2)).
    rewrite H in Hg. apply Hg.
  - eapply IH; [| done | done |]; cbn; [by apply kept_wf in Hk; [apply Hk|] | by eapply committed_kept].
Qed.

Lemma record_all_raise lost l s e s' : record_all lost l s = (Raise e, s') -> e = FaultTransactionError.
Proof.
  revert s. induction l as [|k l IH]; intros s H; [done|]. cbn in H. destruct (lost k); [by injection H|]. by apply IH in H.
Qed.

(** The consumers that a stop concerns have their fences. *)
Definition ends (P : intent_key -> Prop) (s s' : Clock * World) : Prop :=
  poisoned s'.1 = true /\ forall key k, (key, k) ∈ consumers s.1 -> P key -> committed s.2 k ->
    fenced (consumer_context k) (consumer_reference k) s'.2 = true.

Definition chosen (sel : option (list intent_key)) : intent_key -> Prop :=
  match sel with None => fun _ => True | Some l => fun k => k ∈ l end.

Lemma record_all_clock lost l s u s' : record_all lost l s = (Ok u, s') -> s'.1 = s.1.
Proof.
  revert s. induction l as [|k l IH]; intros s H; [by injection H as _ <-|]. cbn in H. destruct (lost k); [done|]. by apply IH in H.
Qed.

Lemma refusal {A} lost sel code s e s' : world_wf s.2 ->
  (_ ← invalidate lost sel; fail (refused code) : op A) s = (Raise e, s') -> e <> FaultTransactionError ->
  e = refused code /\ ends (chosen sel) s s'.
Proof.
  intros Hw. unfold invalidate, mbind, op_bind. cbn. destruct (record_all _ _ _) as [[[]|e'] s1] eqn:E.
  - intros [= <- <-] _. split; [done|]. split; [by rewrite (record_all_clock _ _ _ _ _ E)|]. intros key k Hk HP Hc.
    refine (record_all_fences lost _ (with_poison s.1, s.2) s1 Hw E k _ Hc). unfold concerned. apply list_elem_of_fmap. exists (key, k).
    split; [done|]. apply list_elem_of_In, filter_In. split; [by apply list_elem_of_In|]. destruct sel; [|done].
    by apply bool_decide_eq_true.
  - apply record_all_raise in E as ->. by intros [= <- <-].
Qed.

Lemma check_windows_stops r at_ l s e s' : world_wf s.2 -> read_wall r = Some at_ -> l ⊆ windows s.1 ->
  check_windows (read_lost r) at_ l s = (Raise e, s') -> e <> FaultTransactionError ->
  exists P, stopped DOMAIN s.1 r e P /\ ends P s s'.
Proof.
  intros Hw Hr. induction l as [|[[start end_] a] l IH]; intros Hl H Hn; [done|]. cbn in H. case_if_in H.
  - apply IH; [|done|done]. intros x Hx. apply Hl. by right.
  - unfold expire in H. apply (refusal (read_lost r) (Some a)) in H as [-> He]; [|done|done]. eexists. split; [|done].
    eapply stopped_window; [done | apply Hl; left | done].
Qed.

Lemma check_boundaries_stops r at_ l s e s' : world_wf s.2 -> read_wall r = Some at_ -> clock_last s.1 = Some at_ ->
  clock_ns s.1 = read_ns r -> l ⊆ boundaries s.1 ->
  check_boundaries DOMAIN (read_lost r) l s = (Raise e, s') -> e <> FaultTransactionError ->
  exists P, stopped DOMAIN s.1 r e P /\ ends P s s'.
Proof.
  intros Hw Hr Ha Hs. induction l as [|[[[m n] en] a] l IH]; intros Hl H Hn; [done|]. cbn [check_boundaries] in H.
  unfold mbind at 1, op_bind at 1 in H.
  destruct (check_freshness DOMAIN (read_lost r) (m, n, en) (Some a) s) as [[u|e'] s1] eqn:E.
  - apply check_freshness_ok in E as [-> _]. apply IH; [|done|done]. intros x Hx. apply Hl. by right.
  - injection H as <- <-. unfold check_freshness, mbind at 1, op_bind at 1 in E. cbn in E. rewrite Ha, Hs in E. cbn in E.
    case_if_in E; [|case_if_in E; [|done]].
    + apply (refusal (read_lost r) None) in E as [-> He]; [|done|done]. eexists. split; [|done].
      eapply stopped_anomaly; [done | apply Hl; left | done].
    + apply (refusal (read_lost r) (Some a)) in E as [-> He]; [|done|done]. eexists. split; [|done].
      eapply stopped_over; [done | apply Hl; left | done].
Qed.

Lemma sample_stops r s e s' : world_wf s.2 -> sample DOMAIN r s = (Raise e, s') -> poisoned s.1 = false ->
  is_Some (read_wall r) -> e <> FaultTransactionError -> exists P, stopped DOMAIN s.1 r e P /\ ends P s s'.
Proof.
  intros Hw H Hp [at_ Hr] Hn. unfold sample, mbind at 1, op_bind at 1 in H. cbn [get_clock] in H. rewrite Hp in H. cbn [negb] in H.
  rewrite demand_true, Hr in H. destruct (backwards s.1 at_ (read_ns r)) eqn:Eb.
  - apply (refusal (read_lost r) None) in H as [-> He]; [|done|done]. eexists. split; [|done]. by eapply stopped_backwards.
  - unfold mbind at 1, op_bind at 1 in H. cbn [set_clock] in H. unfold mbind at 1, op_bind at 1 in H.
    set (t := (with_sample at_ (read_ns r) s.1, s.2)) in H.
    assert (Ht : (exists P, stopped DOMAIN t.1 r e P /\ ends P t s') -> exists P, stopped DOMAIN s.1 r e P /\ ends P s s').
    { intros (P & HP & He). exists P. split; [|done]. destruct HP as [a Ha Hb | | |];
        [exfalso | by eapply stopped_window | by eapply stopped_anomaly | by eapply stopped_over].
      rewrite Hr in Ha. injection Ha as <-. unfold backwards in Hb, Eb. cbn in Hb. rewrite !Z.ltb_irrefl in Hb.
      rewrite orb_false_r in Hb. by rewrite Hb in Eb. }
    apply Ht. destruct (check_windows (read_lost r) at_ (windows s.1) t) as [[u|e'] s1] eqn:E1.
    + apply check_windows_ok in E1 as [-> _]. unfold mbind, op_bind in H.
      destruct (check_boundaries DOMAIN (read_lost r) (boundaries s.1) t) as [[u'|e'] s1] eqn:E2; [done|]. injection H as -> ->.
      by eapply (check_boundaries_stops r at_).
    + injection H as -> ->. by eapply (check_windows_stops r at_).
Qed.

(** C26: What a clock has seen end stays ended. When a sample stops a clock, because time went
    back, because a mark does not fit the host's clock, or because a window or a limit is
    over, and its transactions succeed, every committed intent that this concerns is fenced:
    no clock of any later request can be bound to it again, whatever happens in between and
    whatever the clocks then show. *)
Theorem fault_fences r s e s' : world_wf s.2 -> sample DOMAIN r s = (Raise e, s') -> poisoned s.1 = false ->
  is_Some (read_wall r) -> e <> FaultTransactionError ->
  poisoned s'.1 = true /\ exists concerned, stopped DOMAIN s.1 r e concerned
    /\ forall key k, (key, k) ∈ consumers s.1 -> concerned key -> committed s.2 k ->
         forall later c project, is_ok (bind_clock project (consumer_context k) (consumer_reference k)
           (c, (clock_run DOMAIN s' later).2)).1 = false.
Proof.
  intros Hw H Hp Hr Hn. destruct (sample_stops r s e s' Hw H Hp Hr Hn) as (P & HP & Hs & Hf). split; [done|]. exists P.
  split; [done|]. intros key k Hk HPk Hc later c project. specialize (Hf key k Hk HPk Hc).
  apply (fenced_kept _ _ _ (clock_run DOMAIN s' later).2) in Hf; [|apply run_grows].
  unfold bind_clock, mbind, op_bind. destruct (bind_intent project _ _ _) as [[u|e'] s1] eqn:E; [|done]. cbn.
  assert (s1.2 = (clock_run DOMAIN s' later).2) as ->.
  { unfold bind_intent, mbind, op_bind, demand in E. cbn in E. destruct (_ || _) in E; [|done]. by injection E as _ <-. }
  by rewrite Hf.
Qed.

(** C27: A deadline that a request has seen binds it to its end. After a window was watched, or
    a mark was checked with a limit of seconds or an end, any later sample that succeeds
    lies in the window, and before the limits by the wall clock and by the monotonic clock;
    time does not go back; and a clock that refused a sample for good refuses all others.
    Other operations in any order, nested work and other requests do not change this. *)
Theorem freshness_kept s evs r at_ s2 : sample DOMAIN r (clock_run DOMAIN s evs) = (Ok at_, s2) ->
  poisoned s.1 = false
  /\ (forall start end_ s0, watch_window start end_ s0 = (Ok tt, s) -> start <= at_ < end_)
  /\ forall r0 m n e at0 s0, check_mark DOMAIN r0 m n e s0 = (Ok at0, s) ->
       at0 <= at_
       /\ (forall k, n = Some k -> at_ < mark_at m + k * 1000000 /\ read_ns r - monotonic_ns m < k * 1000000000)
       /\ (forall k, e = Some k -> at_ < k /\ read_ns r - monotonic_ns m < (k - mark_at m) * 1000).
Proof.
  intros Hs. assert (Hk := run_grows evs s).
  apply sample_ok in Hs as (Hp & Hb & Hr & _ & Hw & Hf). destruct Hk as [[Kw Kb Kt Kp] _].
  rewrite Forall_forall in Hw. rewrite Forall_forall in Hf. split; [destruct (poisoned s.1); [by rewrite Kp in Hp | done]|]. split.
  - intros start end_ s0 (a & (a' & Ha & _)%Kw & _)%watch_ok. by apply dict_get_in, Hw in Ha.
  - intros r0 m n e at0 s0 [Hl H]%check_mark_ok. split; [|].
    + apply Kt in Hl as (l & Hl & ? & ?). unfold backwards in Hb. rewrite Hl in Hb. bool_simpl. lia.
    + assert (Hfresh : is_none n && is_none e = false -> window_over m e at_ (read_ns r) = false /\ seconds_over m n at_ (read_ns r) = false).
      { intros (a & (a' & Ha & _)%Kb & _)%H. apply dict_get_in, Hf in Ha as (_ & ? & ?). done. }
      split; intros k ->; (destruct Hfresh as [H1 H2]; [by rewrite ?andb_false_r|]); cbn in H1, H2; bool_simpl; lia.
Qed.
End steps.

(** * Witnesses *)

Definition lab_reference : Reference := mkReference 1 1 "3b8e".
Definition lab_health_reference : Reference := mkReference 2 1 "91c0".
Definition lab_world : World := mkWorld {[ 3 := 7 ]} {[ 11 := mkIntent 11 3 lab_reference; 12 := mkIntent 12 3 lab_health_reference ]} ∅.
Definition reads (at_ ns : Z) : Reading := mkReading (Some at_) ns (fun _ => false).
Definition lab_bound : Clock * World := after (bind_clock 7 3 lab_reference) (new_clock, lab_world).
Definition lab_watched : Clock * World := after (watch_window 0 100) lab_bound.

Lemma freshness_kept_witness :
  (sample "boot" (reads 60 8) (clock_run "boot" lab_watched [Sampled (reads 50 7); Restored []; Bound 7 3 lab_health_reference])).1
    = Ok 60
  /\ 0 <= 60 < 100.
Proof.
  split; [vm_compute; reflexivity|].
  eapply (freshness_kept "boot" lab_watched [Sampled (reads 50 7); Restored []; Bound 7 3 lab_health_reference] (reads 60 8) 60).
  - vm_compute. reflexivity.
  - instantiate (1 := lab_bound). vm_compute. reflexivity.
Defined.

Lemma lab_world_wf : world_wf lab_world.
Proof.
  assert (Hi : forall k i, intent_versions lab_world !! k = Some i ->
    k = 11 /\ i = mkIntent 11 3 lab_reference \/ k = 12 /\ i = mkIntent 12 3 lab_health_reference).
  { unfold lab_world. cbn. intros k i [[<- <-] | [_ [<- <-]%lookup_singleton_Some]]%lookup_insert_Some; auto. }
  split.
  - intros k i [[-> ->] | [-> ->]]%Hi; done.
  - intros k j i i' [[-> ->] | [-> ->]]%Hi [[-> ->] | [-> ->]]%Hi; done.
  - done.
Qed.

Lemma fault_fences_witness :
  (sample "boot" (reads 200 9) lab_watched).1 = Raise (refused "intent_expired")
  /\ is_ok (bind_clock 7 3 lab_reference (new_clock, (sample "boot" (reads 200 9) lab_watched).2.2)).1 = false.
Proof.
  split; [vm_compute; reflexivity|].
  destruct (fault_fences "boot" (reads 200 9) lab_watched (refused "intent_expired") (sample "boot" (reads 200 9) lab_watched).2)
    as (_ & P & HP & H).
  - apply lab_world_wf.
  - vm_compute. reflexivity.
  - reflexivity.
  - by eexists.
  - done.
  - apply (H (3, lab_reference) (mkConsumer 7 3 lab_reference)) with (later := []).
    + left.
    + inversion HP as [a Ha Hb He | a s e l Ha Hin Hw He | a m n e l Ha Hin Hw He | a m n e l Ha Hin Hw He];
        try discriminate He.
      vm_compute in Hin. apply list_elem_of_singleton in Hin. injection Hin as _ _ ->. left.
    + split; [reflexivity|]. exists 11, (mkIntent 11 3 lab_reference). split; reflexivity.
Defined.

(** When two windows are over at one sample, only the first one's consumers are fenced: the
    health intent that a business request was bound to can be bound again. *)
Lemma second_window_unfenced :
  let s := after (dependency (_ ← bind_clock 7 3 lab_health_reference; watch_window 0 150)) lab_watched in
  let ended := (sample "boot" (reads 200 9) s).2.2 in
  map fst (windows s.1) = [(0, 100); (0, 150)]
  /\ is_ok (bind_clock 7 3 lab_reference (new_clock, ended)).1 = false
  /\ is_ok (bind_clock 7 3 lab_health_reference (new_clock, ended)).1 = true
  /\ (sample "boot" (reads 140 10) (after (watch_window 0 150)
        (after (bind_clock 7 3 lab_health_reference) (new_clock, ended)))).1 = Ok 140.
Proof. vm_compute. done. Qed.
