(* ===== verification/ResponseSemantics.v ===== *)
(** The interpreter of responses: src/backend/app/services/research_response_semantics.py, with
    the expectation of schemas/research_verification.py and the parser of
    schemas/research_intent.py.

    [json.loads] and the hash are arguments. Texts are UTF-8; a text with a lone surrogate,
    which the parser refuses, is none for the argument. *)

From S2P Require Import Prelude.
From S2P Require Import PyStr.
From S2P Require Import PyFloat.
From S2P Require Import PyJson.
From S2P Require Import Codec.

Open Scope Z_scope.

Record Expectation := mkExpectation {
  role : string;
  object_key : string;
  object_value : string;
  identity_key : string;
  identity_value : option string
}.

Definition ROLES : list string := ["baseline"; "probe"; "health_baseline"; "health_probe"].

(** The patterns of [Key], of the object's value and of [Marker]. *)
Definition is_key (s : string) : bool :=
  match s with
  | String c t => is_lower c && str_forall (fun c => is_lower c || is_digit c || bool_decide (c = "_"%char)) t
                  && (byte_len s <=? 32)
  | EmptyString => false
  end.
Definition is_number (s : string) : bool := str_forall is_digit s && (1 <=? byte_len s) && (byte_len s <=? 16).
Definition is_marker (s : string) : bool :=
  str_forall (fun c => is_alpha c || is_digit c || bool_decide (c = "_"%char) || bool_decide (c = "-"%char)) s
  && (1 <=? byte_len s) && (byte_len s <=? 64).

Definition expectation_valid (e : Expectation) : bool :=
  bool_decide (role e ∈ ROLES) && is_key (object_key e) && is_number (object_value e) && is_key (identity_key e)
  && match identity_value e with Some v => is_marker v | None => true end
  && bool_decide (NoDup [object_key e; identity_key e; "authenticated"; "error"]).

(** [codec.validate(Expectation, value)]: a strict record, without other members. *)
Definition read_expectation (value : json) : option Expectation :=
  match value with
  | JObj o =>
      _ ← guard (same_names (map fst o) ["role"; "object_key"; "object_value"; "identity_key"; "identity_value"]);
      r ← assoc "role" o ≫= str_of;
      k ← assoc "object_key" o ≫= str_of;
      v ← assoc "object_value" o ≫= str_of;
      i ← assoc "identity_key" o ≫= str_of;
      m ← match assoc "identity_value" o with Some JNull => Some None | Some (JStr s) => Some (Some s) | _ => None end;
      let e := mkExpectation r k v i m in
      if expectation_valid e then Some e else None
  | _ => None
  end.

(** * Parsing *)

(** The nodes of a tree: names of members count. *)
Fixpoint tree_nodes (j : json) : nat :=
  match j with
  | JArr l => S (fold_right (fun x n => tree_nodes x + n)%nat 0%nat l)
  | JObj o => S (fold_right (fun kv n => S (tree_nodes kv.2) + n)%nat 0%nat o)
  | _ => 1%nat
  end.
Definition tree_bounded (depth nodes : Z) (j : json) : bool :=
  (Z.of_nat (json_depth j) <=? depth + 1) && (Z.of_nat (tree_nodes j) <=? nodes).

Fixpoint has_float (j : json) : bool :=
  match j with
  | JFloat _ => true
  | JArr l => existsb has_float l
  | JObj o => existsb (fun kv => has_float kv.2) o
  | _ => false
  end.

Definition MAX_INPUT : Z := 32768.

Section interpretation.
Variable sha256 : string -> string.
(** [json.loads] with the pairs of every object kept; [None] is any of its exceptions. *)
Variable json_pairs : string -> option json.

(** [parse]: no repeated names, no floats, and the bounds of [canonical]. *)
Definition parse (raw : string) : option json :=
  if MAX_INPUT <? byte_len raw then None
  else if negb (utf8_valid raw) then None
  else
    value ← json_pairs raw;
    if json_wf value && negb (has_float value) && tree_bounded 8 8192 value then Some value else None.

(** [digest] *)
Definition research_digest (protocol : string) (value : json) : option string :=
  t ← dumps canonical value;
  Some (sha256 (protocol +:+ String (ascii_of_nat 10) t)).

Definition DEFINITION : json :=
  JObj [("protocol", JStr "ra-response-scalar/1"); ("version", JInt 1);
        ("max_bytes", JInt 16384); ("max_depth", JInt 4); ("max_nodes", JInt 256);
        ("object_status", JInt 200); ("denial_status", JInt 403);
        ("authenticated", JBool true); ("denial_error", JStr "access_denied");
        ("unknown_fields", JStr "inconclusive"); ("malformed", JStr "inconclusive");
        ("media_types", JArr [JStr "application/json"; JStr "application/json;charset=utf-8";
                              JStr ("application/json;charset=" +:+ String dquote ("utf-8" +:+ str1 dquote))]);
        ("purposes", JArr [JStr "business"; JStr "health"])].
Definition DEFINITION_DIGEST : option string := research_digest "ra-response-definition/1" DEFINITION.

Record Interpretation := mkInterpretation {
  interpreter : option string;
  outcome : string;
  reason : string;
  response_sha256 : option string;
  response_bytes : Z
}.

(** What arrives with a body. *)
Record Response := mkResponse {
  response_status : option Z;
  response_body : option string;
  content_type : option string;
  content_encoding : option string
}.

Fixpoint without_spaces (s : string) : string :=
  match s with
  | EmptyString => EmptyString
  | String c t => if bool_decide (c = " "%char) then without_spaces t else String c (without_spaces t)
  end.
Definition MEDIA_TYPES : list string :=
  ["application/json"; "application/json;charset=utf-8"; "application/json;charset=" +:+ String dquote ("utf-8" +:+ str1 dquote)].
Definition representation_ok (r : Response) : bool :=
  match content_type r with Some t => bool_decide (without_spaces (lower t) ∈ MEDIA_TYPES) | None => false end
  && match content_encoding r with None => true | Some e => bool_decide (e = "") || bool_decide (e = "identity") end.

Definition has (k : string) (o : list (string * json)) : bool := bool_decide (k ∈ map fst o).
Definition is_text (k s : string) (o : list (string * json)) : bool := bool_decide (assoc k o = Some (JStr s)).
Definition subset (a b : list string) : bool := forallb (fun k => bool_decide (k ∈ b)) a.

(** The judgement on a parsed object: outcome and reason. *)
Definition judge (exp : Expectation) (auth_type purpose : string) (status : option Z) (value : list (string * json))
    : string * string :=
  let bearer := bool_decide (auth_type = "bearer") in
  let identity := [identity_key exp; "authenticated"] in
  let allowed := [object_key exp] ++ (if bearer then identity else []) ++ (if has "error" value then ["error"] else []) in
  if negb (subset (map fst value) allowed) then ("inconclusive", "response_unknown_fields")
  else if negb (is_text (object_key exp) (object_value exp) value) then ("inconclusive", "object_mismatch")
  else
    let needs_identity := bearer && (bool_decide (purpose = "health") || has "error" value || existsb (fun k => has k value) identity) in
    if needs_identity && (negb (bool_decide (assoc "authenticated" value = Some (JBool true)))
         || negb (match identity_value exp with Some v => is_text (identity_key exp) v value | None => false end))
    then ("inconclusive", "identity_mismatch")
    else if bool_decide (purpose = "health") then
      if bearer && bool_decide (status = Some 200) && same_names (map fst value) (object_key exp :: identity)
      then ("healthy", "identity_and_health_object_verified")
      else ("inconclusive", "health_unqualified")
    else if bool_decide (status = Some 200) && negb (has "error" value) then ("object_read", "exact_object_verified")
    else if bool_decide (status = Some 403) && is_text "error" "access_denied" value then
      ("business_denied", "explicit_business_denial")
    else ("inconclusive", "authentication_or_transport_uncertain").

Definition auth_qualified (exp : Expectation) (auth_type : string) : bool :=
  bool_decide (auth_type ∈ ["anonymous"; "bearer"])
  && Bool.eqb (bool_decide (auth_type = "bearer")) (negb (is_none (identity_value exp))).

Definition interpret (r : Response) (expectation : json) (auth_type purpose : string) : Interpretation :=
  let unavailable := mkInterpretation DEFINITION_DIGEST "inconclusive" in
  match response_body r with
  | None => unavailable "response_unavailable" None 0
  | Some body =>
      if negb (bool_decide (purpose ∈ ["business"; "health"])) then unavailable "purpose_unsupported" None 0
      else
        let hash := Some (sha256 body) in
        let size := byte_len body in
        if 16384 <? size then unavailable "response_limit" hash size
        else if negb (representation_ok r) then unavailable "response_representation" hash size
        else match read_expectation expectation, parse body with
        | Some exp, Some value =>
            if negb (tree_bounded 4 256 value) then unavailable "response_malformed" hash size
            else match value with
            | JObj o =>
                if negb (auth_qualified exp auth_type) then unavailable "identity_unqualified" hash size
                else let '(out, why) := judge exp auth_type purpose (response_status r) o in mkInterpretation DEFINITION_DIGEST out why hash size
            | _ => unavailable "object_missing" hash size
            end
        | _, _ => unavailable "response_malformed" hash size
        end
  end.
End interpretation.

Definition pair_outcome (expected baseline : string) (probe : option string) : string * string :=
  if negb (bool_decide (expected ∈ ["allowed"; "denied"])) then ("inconclusive", "access_facts_unqualified")
  else if negb (bool_decide (baseline = "object_read")) then ("inconclusive", "baseline_unqualified")
  else if bool_decide (probe = Some "object_read") then
    if bool_decide (expected = "allowed") then ("allowed", "expected_access_observed") else ("suspected_violation", "denied_object_read")
  else if bool_decide (probe = Some "business_denied") then
    if bool_decide (expected = "denied") then ("expected_denial", "qualified_business_denial") else ("inconclusive", "allowed_access_not_observed")
  else ("inconclusive", "probe_unqualified").

(** * Lemmas *)

Lemma assoc_permuted k (o l : list (string * json)) : NoDup o.*1 -> o ≡ₚ l -> assoc k o = assoc k l.
Proof.
  intros Hn Hp. assert (Hl : NoDup l.*1) by by rewrite <- Hp. destruct (assoc k l) as [v|] eqn:E.
  - apply assoc_distinct; [done|]. rewrite Hp. by apply assoc_elem.
  - apply assoc_none. rewrite Hp. by apply assoc_none.
Qed.

Lemma bool_decide_perm (a b : list string) k : a ≡ₚ b -> bool_decide (k ∈ a) = bool_decide (k ∈ b).
Proof. intros H. apply bool_decide_ext. by rewrite H. Qed.

Lemma forallb_perm {A} (p : A -> bool) (a b : list A) : a ≡ₚ b -> forallb p a = forallb p b.
Proof. induction 1 as [| x a b _ IH | x y a | a b c _ IH1 _ IH2]; cbn; [done | by rewrite IH | by destruct (p x), (p y) | congruence]. Qed.

Lemma judge_perm exp auth purpose status o l : NoDup o.*1 -> o ≡ₚ l ->
  judge exp auth purpose status o = judge exp auth purpose status l.
Proof.
  intros Hn Hp. assert (Hk : map fst o ≡ₚ map fst l) by (by apply Permutation_map).
  assert (Hh : forall k, has k o = has k l) by (intros k; by apply bool_decide_perm).
  assert (Hs : forall a, subset (map fst o) a = subset (map fst l) a) by (intros a; by apply forallb_perm).
  assert (Hm : forall a, same_names (map fst o) a = same_names (map fst l) a).
  { intros a. unfold same_names. f_equal; [by apply forallb_perm|]. induction a as [|x a IH]; cbn; [done|].
    by rewrite IH, (bool_decide_perm _ _ x Hk). }
  unfold judge, is_text. cbn [existsb]. rewrite !Hh, Hs, Hm, !(assoc_permuted _ o l) by done. done.
Qed.

(** An object is known by its members when its names are among theirs. *)
Lemma members_exact (o l : list (string * json)) : NoDup o.*1 -> NoDup l.*1 ->
  Forall (fun kv => assoc kv.1 o = Some kv.2) l -> (forall k, k ∈ o.*1 -> k ∈ l.*1) -> o ≡ₚ l.
Proof.
  intros Ho Hl Hv Hk. rewrite Forall_forall in Hv. apply NoDup_Permutation; [by eapply NoDup_fmap_1 | by eapply NoDup_fmap_1 |].
  intros [k v]. split; intros H.
  - assert (Hin : k ∈ o.*1) by (apply list_elem_of_fmap; by exists (k, v)).
    apply Hk, list_elem_of_fmap in Hin as ([k' v'] & -> & Hin). cbn in *. specialize (Hv _ Hin). cbn in Hv.
    apply assoc_distinct in H; [|done]. congruence.
  - apply assoc_elem. apply (Hv _ H).
Qed.

Definition object_member (exp : Expectation) : string * json := (object_key exp, JStr (object_value exp)).
Definition identity_members (exp : Expectation) (v : string) : list (string * json) :=
  [(identity_key exp, JStr v); ("authenticated", JBool true)].
Definition denial_member : string * json := ("error", JStr "access_denied").

(** The objects that count as the read of the expected object, as its denial, and as health. *)
Definition object_read_by (exp : Expectation) (o : list (string * json)) : Prop :=
  o ≡ₚ [object_member exp] \/ exists v, identity_value exp = Some v /\ o ≡ₚ object_member exp :: identity_members exp v.
Definition denied_by (exp : Expectation) (o : list (string * json)) : Prop :=
  match identity_value exp with
  | None => o ≡ₚ [object_member exp; denial_member]
  | Some v => o ≡ₚ object_member exp :: denial_member :: identity_members exp v
  end.
Definition healthy_by (exp : Expectation) (o : list (string * json)) : Prop :=
  exists v, identity_value exp = Some v /\ o ≡ₚ object_member exp :: identity_members exp v.

Lemma subset_elem a b k : subset a b = true -> k ∈ a -> k ∈ b.
Proof. intros H Hk. eapply (forallb_elem _ a) in Hk; [|exact H]. by apply bool_decide_eq_true in Hk. Qed.

Lemma same_names_elem a b k : same_names a b = true -> k ∈ a -> k ∈ b.
Proof. intros [H _]%andb_prop. by apply subset_elem. Qed.

Section judged.
Context (exp : Expectation) (auth purpose : string) (o : list (string * json)).
Hypothesis Hexp : expectation_valid exp = true.
Hypothesis Hauth : auth_qualified exp auth = true.
Hypothesis Ho : NoDup o.*1.

Lemma keys_differ : object_key exp <> identity_key exp /\ object_key exp <> "authenticated" /\ object_key exp <> "error"
  /\ identity_key exp <> "authenticated" /\ identity_key exp <> "error".
Proof.
  unfold expectation_valid in Hexp. bool_simpl. match goal with H : NoDup [_; _; _; _] |- _ => rename H into Hn end.
  rewrite !NoDup_cons, !elem_of_cons in Hn. naive_solver.
Qed.

(** Who is bearer expects an identity. *)
Lemma bearer_expects : bool_decide (auth = "bearer") = negb (is_none (identity_value exp)).
Proof. unfold auth_qualified in Hauth. bool_simpl. by apply eqb_prop in H0. Qed.

Inductive shape : list (string * json) -> Prop :=
| plain_shape : shape [object_member exp]
| denial_shape : identity_value exp = None -> shape [object_member exp; denial_member]
| identity_shape v : identity_value exp = Some v -> shape (object_member exp :: identity_members exp v)
| full_shape v : identity_value exp = Some v -> shape (object_member exp :: denial_member :: identity_members exp v).

Lemma shape_distinct l : shape l -> NoDup l.*1.
Proof.
  destruct keys_differ as (N1 & N2 & N3 & N4 & N5). intros []; cbn; rewrite !NoDup_cons, ?elem_of_cons, ?elem_of_nil; naive_solver (apply NoDup_nil_2).
Qed.

Lemma allowed_keys : subset (map fst o) ([object_key exp] ++ (if bool_decide (auth = "bearer") then [identity_key exp; "authenticated"] else [])
    ++ (if has "error" o then ["error"] else [])) = true ->
  forall k, k ∈ o.*1 -> k = object_key exp
    \/ (identity_value exp <> None /\ (k = identity_key exp \/ k = "authenticated")) \/ (has "error" o = true /\ k = "error").
Proof.
  rewrite bearer_expects. intros Es k Hk. eapply subset_elem in Es; [|exact Hk].
  destruct (identity_value exp), (has "error" o); cbn in Es; rewrite ?elem_of_cons, ?elem_of_nil in Es; naive_solver.
Qed.

Lemma has_false k : has k o = false -> forall k', k' ∈ o.*1 -> k' <> k.
Proof. intros H%bool_decide_eq_false k' Hk ->. by apply H. Qed.

Lemma judge_shape status : (judge exp auth purpose status o).1 <> "inconclusive" -> exists l, shape l /\ o ≡ₚ l.
Proof.
  assert (Hb := bearer_expects).
  assert (Hx : forall l, shape l -> Forall (fun kv => assoc kv.1 o = Some kv.2) l -> (forall k, k ∈ o.*1 -> k ∈ l.*1) ->
    exists l, shape l /\ o ≡ₚ l).
  { intros l Hs Hv Hk. exists l. split; [done|]. apply members_exact; try done. by apply shape_distinct. }
  unfold judge. cbn zeta. destruct (subset _ _) eqn:Es; [|done]. cbn [negb]. assert (Hk := allowed_keys Es).
  destruct (is_text (object_key exp) _ _) eqn:Eo; [|done]. cbn [negb]. apply bool_decide_eq_true in Eo.
  destruct (_ && (_ || _)) eqn:Ei; [done|]. rewrite Hb in *. cbn [existsb] in Ei.
  assert (Hid : forall v, identity_value exp = Some v -> (bool_decide (purpose = "health") || has "error" o
      || (has (identity_key exp) o || (has "authenticated" o || false))) = true ->
    Forall (fun kv => assoc kv.1 o = Some kv.2) (identity_members exp v)).
  { intros v Hv Hn. rewrite Hv, Hn in Ei. cbn in Ei. apply orb_false_iff in Ei as [Ea Et].
    apply negb_false_iff, bool_decide_eq_true in Ea. apply negb_false_iff, bool_decide_eq_true in Et. by repeat constructor. }
  destruct (has "error" o) eqn:Ee.
  - intros Hout. assert (He : assoc "error" o = Some (JStr "access_denied")).
    { revert Hout. destruct (bool_decide (purpose = "health")).
      - destruct (_ && same_names _ _) eqn:E; [|done]. apply andb_prop in E as [_ E]. exfalso.
        apply bool_decide_eq_true in Ee. apply (same_names_elem _ _ _ E) in Ee.
        destruct keys_differ as (N1 & N2 & N3 & N4 & N5). rewrite !elem_of_cons, elem_of_nil in Ee. naive_solver.
      - rewrite andb_false_r. destruct (_ && is_text _ _ _) eqn:E; [|done]. apply andb_prop in E as [_ E]. intros _.
        by apply bool_decide_eq_true in E. }
    destruct (identity_value exp) as [v|] eqn:Ev.
    + apply (Hx _ (full_shape v Ev)).
      * constructor; [done|]. constructor; [done|]. apply Hid; [done|]. by rewrite orb_true_r.
      * intros k [-> | [[_ [-> | ->]] | [_ ->]]]%Hk; cbn; rewrite !elem_of_cons; auto.
    + apply (Hx _ (denial_shape Ev)).
      * by repeat constructor.
      * intros k [-> | [[? _] | [_ ->]]]%Hk; cbn; rewrite !elem_of_cons; auto. done.
  - intros _. destruct (has (identity_key exp) o || has "authenticated" o) eqn:Eh.
    + destruct (identity_value exp) as [v|] eqn:Ev.
      * apply (Hx _ (identity_shape v Ev)).
        -- constructor; [done|]. apply Hid; [done|]. by rewrite !orb_false_r, Eh, orb_true_r.
        -- intros k [-> | [[_ [-> | ->]] | [? _]]]%Hk; cbn; rewrite !elem_of_cons; auto. done.
      * exfalso. apply orb_true_iff in Eh as [E|E]; apply bool_decide_eq_true, Hk in E;
          destruct keys_differ as (N1 & N2 & N3 & N4 & N5); naive_solver.
    + apply orb_false_iff in Eh as [E1 E2]. apply (Hx _ plain_shape); [by repeat constructor|].
      intros k Hin. assert (Ek := Hk k Hin). apply (has_false _ E1) in Hin as K1. apply (has_false _ E2) in Hin as K2.
      destruct Ek as [-> | [[_ [? | ?]] | [? _]]]; [by left | done ..].
Qed.

(** Decide the tests on the names and members of a concrete object. *)
Ltac is_member := rewrite ?elem_of_cons; intuition reflexivity.
Ltac no_member := rewrite ?elem_of_cons, ?elem_of_nil; intuition congruence.
Ltac decide_members :=
  repeat match goal with
  | |- context [bool_decide (?k ∈ ?l)] =>
      first [ rewrite (bool_decide_eq_true_2 (k ∈ l)) by is_member | rewrite (bool_decide_eq_false_2 (k ∈ l)) by no_member ]
  | |- context [bool_decide (@eq string ?a ?b)] =>
      first [ rewrite (bool_decide_eq_true_2 (a = b)) by reflexivity | rewrite (bool_decide_eq_false_2 (a = b)) by congruence ]
  | |- context [bool_decide (@eq (option json) ?a ?b)] =>
      first [ rewrite (bool_decide_eq_true_2 (a = b)) by reflexivity | rewrite (bool_decide_eq_false_2 (a = b)) by discriminate ]
  end.

Lemma judge_on_shape l status : shape l -> let out := (judge exp auth purpose status l).1 in
  (out = "object_read" <-> purpose <> "health" /\ status = Some 200 /\ has "error" l = false)
  /\ (out = "business_denied" <-> purpose <> "health" /\ status = Some 403 /\ has "error" l = true)
  /\ (out = "healthy" <-> purpose = "health" /\ status = Some 200 /\ identity_value exp <> None /\ has "error" l = false
                           /\ l <> [object_member exp]).
Proof.
  destruct keys_differ as (N1 & N2 & N3 & N4 & N5). unfold judge. rewrite bearer_expects.
  intros [|Hv|v Hv|v Hv]; unfold is_text, same_names, subset, has; try rewrite Hv; cbn; decide_members.
  all: destruct (identity_value exp) as [w|] eqn:Ew; try discriminate Hv; cbn.
  all: destruct (decide (purpose = "health")) as [Hp|Hp];
    [rewrite ?(bool_decide_eq_true_2 _ Hp) | rewrite ?(bool_decide_eq_false_2 _ Hp)]; cbn.
  all: destruct (decide (status = Some 200)) as [H2|H2];
    [rewrite ?(bool_decide_eq_true_2 _ H2) | rewrite ?(bool_decide_eq_false_2 _ H2)]; cbn.
  all: destruct (decide (status = Some 403)) as [H4|H4];
    [rewrite ?(bool_decide_eq_true_2 _ H4) | rewrite ?(bool_decide_eq_false_2 _ H4)]; cbn.
  all: unfold identity_members; intuition congruence.
Qed.
Lemma shape_error l : shape l -> match l with
  | [_] => has "error" l = false
  | [_; _] => has "error" l = true /\ identity_value exp = None
  | [_; _; _] => has "error" l = false /\ identity_value exp <> None
  | _ => has "error" l = true /\ identity_value exp <> None
  end.
Proof.
  destruct keys_differ as (N1 & N2 & N3 & N4 & N5). intros [|Hv|v Hv|v Hv]; unfold has; cbn; decide_members;
    rewrite ?Hv; by repeat split.
Qed.

Lemma read_shape : object_read_by exp o <-> exists l, shape l /\ o ≡ₚ l /\ has "error" l = false.
Proof.
  split.
  - intros [H|(v & Hv & H)]; eexists; (split; [|split; [exact H|]]).
    + constructor.
    + apply (shape_error _ plain_shape).
    + by constructor.
    + apply (shape_error _ (identity_shape v Hv)).
  - intros (l & Hl & Hp & He). assert (H := shape_error l Hl). destruct Hl as [|Hv|v Hv|v Hv].
    + by left.
    + destruct H as [H _]. by rewrite H in He.
    + right. by exists v.
    + destruct H as [H _]. by rewrite H in He.
Qed.

Lemma denied_shape : denied_by exp o <-> exists l, shape l /\ o ≡ₚ l /\ has "error" l = true.
Proof.
  unfold denied_by. split.
  - destruct (identity_value exp) as [v|] eqn:Hv; intros H; eexists; (split; [|split; [exact H|]]).
    + by apply full_shape.
    + apply (shape_error _ (full_shape v Hv)).
    + by apply denial_shape.
    + apply (shape_error _ (denial_shape Hv)).
  - intros (l & Hl & Hp & He). assert (H := shape_error l Hl). destruct Hl as [|Hv|v Hv|v Hv].
    + by rewrite H in He.
    + by rewrite Hv.
    + destruct H as [H _]. by rewrite H in He.
    + by rewrite Hv.
Qed.

Lemma healthy_shape : healthy_by exp o <->
  exists l, shape l /\ o ≡ₚ l /\ identity_value exp <> None /\ has "error" l = false /\ l <> [object_member exp].
Proof.
  split.
  - intros (v & Hv & H). eexists. split; [by apply identity_shape|]. split; [exact H|]. split; [congruence|].
    split; [apply (shape_error _ (identity_shape v Hv)) | done].
  - intros (l & Hl & Hp & Hi & He & Hne). assert (H := shape_error l Hl). destruct Hl as [|Hv|v Hv|v Hv].
    + done.
    + done.
    + by exists v.
    + destruct H as [H _]. by rewrite H in He.
Qed.

Lemma judge_exact status :
  let out := (judge exp auth purpose status o).1 in
  (out = "object_read" <-> purpose <> "health" /\ status = Some 200 /\ object_read_by exp o)
  /\ (out = "business_denied" <-> purpose <> "health" /\ status = Some 403 /\ denied_by exp o)
  /\ (out = "healthy" <-> purpose = "health" /\ status = Some 200 /\ healthy_by exp o).
Proof.
  cbn zeta. rewrite read_shape, denied_shape, healthy_shape.
  assert (Hs := judge_shape status). assert (Hj := fun l => judge_on_shape l status).
  assert (Hp := fun l (_ : shape l) => judge_perm exp auth purpose status o l Ho). cbn zeta in Hj.
  set (out := (judge exp auth purpose status o).1) in *.
  assert (Hl : out <> "inconclusive" -> exists l, shape l /\ o ≡ₚ l /\ out = (judge exp auth purpose status l).1).
  { intros (l & Hl & H)%Hs. exists l. unfold out. by rewrite (Hp l Hl H). }
  assert (Hb : forall l, shape l -> o ≡ₚ l -> out = (judge exp auth purpose status l).1) by (intros l H1 H2; unfold out; by rewrite (Hp l H1 H2)).
  split; [|split]; (split; [intros Hout; destruct Hl as (l & H1 & H2 & H3); [by rewrite Hout|]; rewrite H3 in Hout; apply (Hj l H1) in Hout; naive_solver|]).
  - intros (P & S & l & H1 & H2 & H3). rewrite (Hb l H1 H2). by apply (Hj l H1).
  - intros (P & S & l & H1 & H2 & H3). rewrite (Hb l H1 H2). by apply (Hj l H1).
  - intros (P & S & l & H1 & H2 & H3). rewrite (Hb l H1 H2). by apply (Hj l H1).
Qed.
End judged.

Section exactness.
Variable sha256 : string -> string.
Variable json_pairs : string -> option json.

(** A response that the interpreter judges, with the expectation and the object that it reads. *)
Definition accepted (r : Response) (expectation : json) (auth purpose : string) (exp : Expectation) (o : list (string * json)) : Prop :=
  exists body, response_body r = Some body /\ byte_len body <= 16384 /\ representation_ok r = true
    /\ read_expectation expectation = Some exp /\ parse json_pairs body = Some (JObj o)
    /\ tree_bounded 4 256 (JObj o) = true /\ auth_qualified exp auth = true /\ purpose ∈ ["business"; "health"].

Lemma read_expectation_valid j exp : read_expectation j = Some exp -> expectation_valid exp = true.
Proof.
  unfold read_expectation. destruct j as [| | | | | |o]; try done. intros H. repeat apply bind_Some in H as (? & _ & H).
  case_if_in H; [|done]. by injection H as <-.
Qed.

Lemma parse_wf body j : parse json_pairs body = Some j -> json_wf j = true.
Proof.
  unfold parse. case_if; [done|]. case_if; [done|]. intros (v & _ & H)%bind_Some. case_if_in H; [|done]. injection H as <-.
  by bool_simpl.
Qed.

Lemma interpret_accepted r expectation auth purpose exp o : accepted r expectation auth purpose exp o ->
  outcome (interpret sha256 json_pairs r expectation auth purpose) = (judge exp auth purpose (response_status r) o).1.
Proof.
  intros (body & Hb & Hl & Hr & He & Hp & Ht & Ha & Hu). unfold interpret. rewrite Hb, bool_decide_eq_true_2 by done.
  cbn [negb]. rewrite (proj2 (Z.ltb_ge _ _) Hl), Hr. cbn [negb]. rewrite He, Hp, Ht. cbn [negb]. rewrite Ha. cbn [negb].
  by destruct (judge _ _ _ _ _).
Qed.

Lemma interpret_judges r expectation auth purpose :
  outcome (interpret sha256 json_pairs r expectation auth purpose) = "inconclusive"
  \/ exists exp o, accepted r expectation auth purpose exp o.
Proof.
  unfold interpret. destruct (response_body r) as [body|] eqn:Hb; [|by left]. case_bool_decide as Hu; [|by left]. cbn [negb].
  destruct (16384 <? byte_len body) eqn:Hl; [by left|]. destruct (representation_ok r) eqn:Hr; [|by left]. cbn [negb].
  destruct (read_expectation expectation) as [exp|] eqn:He; [|by left].
  destruct (parse json_pairs body) as [v|] eqn:Hp; [|by left]. destruct (tree_bounded 4 256 v) eqn:Ht; [|by left]. cbn [negb].
  destruct v as [| | | | | |o]; try by left. destruct (auth_qualified exp auth) eqn:Ha; [|by left]. right. exists exp, o, body.
  bool_simpl. done.
Qed.

Lemma accepted_judged r expectation auth purpose exp o : accepted r expectation auth purpose exp o ->
  expectation_valid exp = true /\ auth_qualified exp auth = true /\ NoDup o.*1.
Proof.
  intros (body & Hb & Hl & Hr & He & Hp & Ht & Ha & Hu). split; [by eapply read_expectation_valid|]. split; [done|].
  apply parse_wf in Hp. cbn in Hp. by bool_simpl.
Qed.

(** Each outcome but [inconclusive] is a property of the judged object. *)
Lemma outcome_judged r expectation auth purpose (out : string) (P : Expectation -> list (string * json) -> Prop) :
  out <> "inconclusive" ->
  (forall exp o, expectation_valid exp = true -> auth_qualified exp auth = true -> NoDup o.*1 ->
     (judge exp auth purpose (response_status r) o).1 = out <-> P exp o) ->
  outcome (interpret sha256 json_pairs r expectation auth purpose) = out
    <-> exists exp o, accepted r expectation auth purpose exp o /\ P exp o.
Proof.
  intros Hn HP. split.
  - intros H. destruct (interpret_judges r expectation auth purpose) as [E|(exp & o & Ha)]; [congruence|]. exists exp, o.
    split; [done|]. destruct (accepted_judged _ _ _ _ _ _ Ha) as (H1 & H2 & H3). apply HP; try done.
    by rewrite <- (interpret_accepted _ _ _ _ _ _ Ha).
  - intros (exp & o & Ha & Ho). destruct (accepted_judged _ _ _ _ _ _ Ha) as (H1 & H2 & H3).
    rewrite (interpret_accepted _ _ _ _ _ _ Ha). by apply HP.
Qed.

(** C28: What a response is taken for is decided by its whole object. The object was read exactly
    when a business response with status 200 holds the expected object and nothing else, or
    that and the expected identity as authenticated; it was denied exactly for status 403 and
    the fixed denial beside them; an identity is healthy exactly with status 200 and both;
    every other response, of any content, decides nothing. A pair is suspected of a violation
    exactly when access should be denied and both responses read the object. *)
Theorem response_exact r expectation auth purpose expected baseline probe :
  let out := outcome (interpret sha256 json_pairs r expectation auth purpose) in
  let status := response_status r in
  (out = "object_read" <-> exists exp o, accepted r expectation auth purpose exp o
     /\ purpose <> "health" /\ status = Some 200 /\ object_read_by exp o)
  /\ (out = "business_denied" <-> exists exp o, accepted r expectation auth purpose exp o
     /\ purpose <> "health" /\ status = Some 403 /\ denied_by exp o)
  /\ (out = "healthy" <-> exists exp o, accepted r expectation auth purpose exp o
     /\ purpose = "health" /\ status = Some 200 /\ healthy_by exp o)
  /\ ((pair_outcome expected baseline probe).1 = "suspected_violation"
      <-> expected = "denied" /\ baseline = "object_read" /\ probe = Some "object_read").
Proof.
  cbn zeta. split; [|split; [|split]].
  - apply outcome_judged; [done|]. intros exp o H1 H2 H3. apply (judge_exact exp auth purpose o H1 H2 H3).
  - apply outcome_judged; [done|]. intros exp o H1 H2 H3. apply (judge_exact exp auth purpose o H1 H2 H3).
  - apply outcome_judged; [done|]. intros exp o H1 H2 H3. apply (judge_exact exp auth purpose o H1 H2 H3).
  - unfold pair_outcome. split.
    + repeat (case_bool_decide; [cbn | cbn; try done]); try done. set_solver.
    + intros (-> & -> & ->). done.
Qed.
End exactness.
